(* ===== verification/_CoqProject ===== *)
-Q . S2P
Prelude.v
Hoare.v
Text.v
Sha256.v
Platform.v
Sql.v
Money.v
Wire.v
PayMachine.v
PayModels.v
PayStore.v
PayLedger.v
PayInvariant.v
PayLedgerProps.v
PayReads.v
Webhook.v
Providers.v
PayService.v
PayRefine.v
PayServiceProps.v
PayRefunds.v
Reconcile.v
JobMachine.v
Jobs.v
JobInvariant.v
JobProps.v
InspModels.v
InspReport.v
InspReportProps.v
InspStore.v
InspService.v
InspInvariant.v
InspRefine.v
InspProps.v
InspDemo.v
Base64.v
IdentPassword.v
IdentModels.v
IdentStore.v
IdentService.v
IdentInvariant.v
IdentProps.v
IdentFlows.v
IdentDemo.v
Float64.v
Http.v
Auth.v
TimeParse.v
Vin.v
Vehicles.v
VehHttp.v
VehInvariant.v
VehProps.v
VehWeb.v
RateLimit.v
Jwks.v
Jwt.v
Config.v
Boot.v
Garages.v
GarageProps.v
Dispatch.v
DispatchApi.v
DispatchScale.v
DispatchProps.v
JobHttp.v
JobWeb.v
PayHttp.v
PayWeb.v
InspHttp.v
InspWeb.v
IdentHttp.v
IdentWeb.v
Daraja.v
DarajaProps.v
IdentBreach.v
Signer.v
Wiring.v
Gateway.v
GatewayProps.v
