(* ===== verification/Prelude.v ===== *)
(** * Motivra backend: verification library (root file)

    Motivra is a roadside-assistance and vehicle-service platform. Its Go backend is a set
    of domain packages under [backend/] (payments, jobs, inspections, identity, vehicles,
    garages, dispatch), each a Postgres store behind a service behind an HTTP layer, over
    [backend/platform] (tokens, gates, limiters, configuration, boot, events, errors). The
    binaries under [cmd/] wire them; [cmd/gateway] serves all domains in one process. This
    library models those packages and binaries from the source, as executable definitions,
    and proves what they guarantee, alone and composed.

    ** How the program works

    A request enters a server, whose middleware asks the validator for the claims of its
    bearer token. Once the boot loop has wired every dependency, the gate hands the request
    to the router of the domains. A route passes its gates (an authenticated principal, a
    role), reads a scope from the claims and calls the service; the service calls the store
    and publishes events.

    - Payments: [InitiatePayment] records an intent and a transaction and asks a provider
      (sandbox or M-Pesa) to collect. The outcome arrives by a signed webhook or by the
      reconciliation, which asks the provider; both settle through one store call. A refund
      goes through the provider at once.
    - Jobs: a service request becomes one job, which moves through a table of statuses,
      with an audit row and an event for each move, and is assigned to technicians.
    - Inspections: a session is opened from a template, collects findings and evidence, is
      submitted, sealed, and certified by a report whose hash covers what was recorded.
    - Identity: accounts, password hashes, access tokens, rotating refresh sessions,
      verification tokens, an append-only audit trail.
    - Vehicles: a registry of numbers with check digits, an append-only history, odometer
      readings. Garages: one capacity record for each tenant. Dispatch: the scoring of
      technicians; with the recorder the gateway passes, a score that is answered was recorded
      in the audit trail.

    ** Files and sources

    Shared: [Prelude] (identifiers, instants, int64, the state-and-error monad [M S E A]
    with its inversion tactics, lemmas on lists and maps), [Hoare] (triples of services
    over the steps of a database), [Text], [Wire], [TimeParse], [Base64], [Sha256],
    [Float64] (the Go standard library as far as it is used), [Sql] (the WHERE clauses and
    argument lists the stores assemble).

    Platform: [Platform] (events.go with the consumer, redact.go, errors.go), [Http] (responses, parameters,
    requests to other services), [Auth] (auth.go, and the reasoning about handlers behind
    gates: [governed], [keeps], [same]), [RateLimit] (ratelimit.go, ratelimit_redis.go),
    [Jwks] (jwks.go), [Jwt] (jwt.go), [Signer] (signer.go), [Config] (config.go), [Boot]
    (boot.go, server.go).

    Payments: [Money], [PayMachine] (statemachine.go), [PayModels] (models.go, scope.go),
    [PayStore] (store.go and migrations/payments), [Webhook], [Providers] (provider.go,
    sandbox.go), [Daraja] (daraja.go), [PayService] (service.go), [Reconcile]
    (reconcile.go), [PayHttp] (http.go). [PayLedger] and [PayInvariant]: what store calls
    do, the steps [payment_step] and the invariant they keep; [PayRefine]: the handlers take
    only such steps. Theorems in [PayLedgerProps], [PayReads], [PayServiceProps],
    [PayRefunds], [DarajaProps], [PayWeb].

    Jobs: [JobMachine] (statemachine.go, models.go, scope.go), [Jobs] (store.go, service.go,
    migrations/jobs), [JobHttp]; [JobInvariant], [JobProps], [JobWeb].

    Inspections: [InspModels] (statemachine.go, models.go, templates.go, scope.go),
    [InspReport] (report.go), [InspStore], [InspService], [InspHttp]; [InspReportProps],
    [InspInvariant], [InspRefine], [InspProps], [InspDemo], [InspWeb].

    Identity: [IdentPassword] (password.go), [IdentModels] (models.go, issuer), [IdentStore]
    (store.go, migrations/identity), [IdentService] (service.go, tokens.go,
    verification.go), [IdentBreach] (breach.go, config.go), [IdentHttp]; [IdentInvariant],
    [IdentProps], [IdentFlows], [IdentDemo], [IdentWeb].

    Vehicles: [Vin], [Vehicles] (models.go, store.go, service.go, migrations/vehicles),
    [VehHttp] (cursor.go, http.go); [VehInvariant], [VehProps], [VehWeb]. Garages:
    [Garages], [GarageProps]. Dispatch: [Dispatch] (scoring.go), [DispatchApi] (http.go,
    audit.go); [DispatchScale], [DispatchProps].

    Binaries: [Wiring] (the boot steps and mains of [cmd/*/main.go]), [Gateway]
    ([cmd/gateway/main.go]: the routes of all domains, the services behind them, the server
    in front), [GatewayProps].

    In each domain the store is a record of tables; a store method is a function of it, and
    one that opens a transaction undoes its writes when it fails; the service runs over the
    tables and the events published so far; a route is a [Handler], from claims and world to
    response and world. The abstract specification of a domain is its step relation
    ([payment_step], [job_step], [insp_step], [ident_step], [veh_step], [garage_step]) with
    the invariant it keeps; services, endpoints and at last the gateway refine it: steps
    lead from the database that was to the database that is. A step is a call of the store,
    whatever it answers, under what its caller has checked. [lawful_step] is a [job_step]
    that also finds the status its caller checked, which a request that runs by itself
    does; [ident_step_with] restricts the sessions a step may mint, and [history] collects
    the logins that led to a database.

    ** Parameters

    What belongs to code outside the repository is a class with what its documentation
    says: [Driver] (how pgx scans NULL and takes arguments), [RowOrder] and [StaleStore]
    (what a query may choose), [JsonColumn] and [SnapshotText] (jsonb), [UuidText],
    [UuidPlain], [UuidV5] (google/uuid), [CaseMapping], [UpperMapping], [CaseFolding]
    (Unicode tables), [FloatText] (text of floating-point numbers), [Argon2], [Jwt] and
    [GoJwt] (golang-jwt: the header and the claims a text encodes), [KeyMaterial] (PEM, X.509, key generation), [HttpClient] (a remote
    side with a state of its own), [DarajaJSON] and [BodyJSON] (JSON decoding into structs),
    [Chi] (the router: what it finds matches, and it misses a route only for a placeholder
    that would be empty), [ProviderContract] (a payment provider; sandbox and M-Pesa fulfil
    it), [Outside] (what a starting process meets). [%q], [time.ParseDuration], reading
    files and texts of database and broker errors are arguments. Each class has an instance
    in the witnesses.

    ** What the theorems show

    - The composed process ([GatewayProps]): whatever happens while it starts and whatever
      it is sent meanwhile and afterwards, every domain's database is one its own steps lead
      to; a request that meets the process between two assignments of the loop
      ([wire_trace]) changes nothing, and a later one nothing before readiness and at most
      one domain, for nobody or for the principal that the text of a token names which the
      gateway's own key has signed; a ready gateway is fully wired; a path belongs to one
      domain, and an unknown one is not found.
    - Refinement: the handlers and endpoints of each domain change its database only by the
      abstract steps, on every branch, failures included, and only for whom the gates let
      through. Invariants are proved by induction on the steps, so they hold under every
      interleaving of the store calls of concurrent handlers.
    - Money: an intent is SUCCEEDED exactly when one transaction of exactly its amount is;
      settled rows, amounts and audit logs never change; refunds are in full; which webhook
      deliveries leave a trace, and that replays are duplicates; what a payer is asked for.
    - Sessions and tokens: rotation under an absolute bound, revoked tokens stay dead, no
      forging, the freshness of verification keys, what the breach check refuses.
    - Data boundaries: worlds that look the same to a scope give the same response, byte for
      byte; credentials are never read out.
    - Behaviour branch by branch (initiation, refund, refresh, scoring), the shape of the
      status tables, sealing and certification of inspections, check digits, pagination,
      round trips of passwords, numeric bounds of the scores.
    - Behaviours the code has and its comments exclude are stated next to the definitions
      they are about: overlapping refunds and readings, queries that the driver refuses,
      failure callbacks of M-Pesa that are refused, wrapping intervals ([interval_wraps]), a
      reconciliation that runs while the configuration is refused
      ([gateway_reconciles_anyway]), a publisher that is an interface around a nil pointer
      ([typed_publisher_inv]).

    ** Modelling decisions

    - A status is a [string]: columns and provider answers can hold any text. A nullable
      text column is an [option string]; reading NULL into a Go string is up to [Driver],
      with the instances [pgx] (refuses) and [lenient] (the empty string, which the stores
      assume). Theorems about invariants hold for every driver.
    - [time.Now], [now()], [uuid.New] and random bytes are arguments ([Ctx], [IdentCtx]);
      the clock is read once in a call unless a definition says otherwise, reading random
      bytes for tokens never fails, times are rendered in UTC.
    - int64 is [Z] with its wrap-around; float64 is [SpecFloat.spec_float] with 53 bits of
      precision, without fused operations.
    - A store call is atomic; between two calls of a handler any other may run. The race
      inside the sealing triggers of inspections is not modelled, nor is the check of text
      encodings by the server.
    - A handler gets the decoded body or the error of decoding it. Of a response the status,
      the content type and the body are modelled.
    - One request of the gateway is one step of its world; the reconciler's ticks are
      others, also while the loop still wires. What a step of the loop assigns, it assigns
      at once. Keys are fetched during a request at most once.
    - Fuel: the scans of [Text], [Platform] and [Sha256] consume an element of their input
      in each step and get its length; the boot loop takes the number of passes its timer
      allows ([Wire]), and [wiring_converges] gives a number that is enough once the outside
      answers; [follow] takes the number of pages, and [listing_complete] shows that the
      length of the listing is enough; the closure of the job table establishes membership
      only, which is sound for any fuel.

    ** Not modelled

    Failing connections inside a store call, the pool, logging, tracing and metrics;
    listeners, timeouts, signals and the shutdown of the process beyond its hooks; the
    recovery of panics; the connection to the broker and its acknowledgements; headers
    other than the content type; error texts that reach only logs; plain indexes; the ping
    route of the template service; the web and mobile clients, which are not written in Go. *)

From stdpp Require Export base tactics decidable countable gmap strings list
  sorting pretty numbers.
From Stdlib Require Export Lia ZArith.

Set Default Proof Using "Type".

(** ** Identifiers, instants and machine integers *)

(** A [uuid.UUID] is an opaque 16 byte value: the code only compares it, tests
    it against [uuid.Nil] and renders it as text. *)
Abbreviation uuid := N (only parsing).
Abbreviation uuid_nil := 0%N (only parsing).

(** The textual form of identifiers belongs to the google/uuid package; what
    the code relies on is that it is never empty, that it determines the
    identifier and that parsing gives it back. [uuid_left] is what [uuid.Parse] returns
    beside an error: the bytes it had read, whatever they are. *)
Class UuidText := {
  uuid_string : uuid → string;
  uuid_parse : string → option uuid;
  uuid_left : string → uuid;
  uuid_string_nonempty : ∀ u, uuid_string u ≠ "";
  uuid_parse_string : ∀ u, uuid_parse (uuid_string u) = Some u;
}.

#[export] Instance uuid_string_inj `{UuidText} : Inj (=) (=) uuid_string.
Proof.
  intros u v E. apply (f_equal uuid_parse) in E.
  rewrite !uuid_parse_string in E. by injection E.
Qed.

(** A [time.Time] is a count of nanoseconds since the Unix epoch; Go's zero
    time is the first instant of year 1. *)
Abbreviation time := Z (only parsing).
Definition zero_time : time := (-62135596800000000000)%Z.
Definition is_zero (t : time) : bool := bool_decide (t = zero_time).
Definition second : Z := 1000000000%Z.
Definition minute : Z := (60 * second)%Z.
Definition hour : Z := (60 * minute)%Z.

(** A [timestamptz] column keeps microseconds. *)
Definition timestamptz (t : time) : time := (t / 1000 * 1000)%Z.

Lemma timestamptz_idem t : timestamptz (timestamptz t) = timestamptz t.
Proof. unfold timestamptz. by rewrite Z.div_mul by done. Qed.

(** int64 arithmetic wraps around modulo 2^64. *)
Definition max_int64 : Z := (2 ^ 63 - 1)%Z.
Definition min_int64 : Z := (- 2 ^ 63)%Z.
Definition int64 (z : Z) : Z := ((z + 2 ^ 63) mod 2 ^ 64 - 2 ^ 63)%Z.
Definition in_int64 (z : Z) : Prop := (min_int64 ≤ z ≤ max_int64)%Z.

Lemma int64_id z : in_int64 z → int64 z = z.
Proof.
  unfold in_int64, min_int64, max_int64, int64. intros H.
  rewrite Z.mod_small; lia.
Qed.

Lemma int64_range z : in_int64 (int64 z).
Proof.
  unfold in_int64, min_int64, max_int64, int64.
  pose proof (Z.mod_pos_bound (z + 2 ^ 63) (2 ^ 64)). lia.
Qed.

(** ** The state and error monad of the stores and services

    [M S E A] is a Go method with receiver state [S] that returns an [A] or an
    error [E]. A failing call keeps the state changes made before the failure,
    as in Go; [transact] is a database transaction, which rolls back. *)
Definition M (S E A : Type) : Type := S → (E + A) * S.

Section Monad.
Context {S E : Type}.

#[global] Instance M_ret : MRet (M S E) := λ A a s, (inr a, s).
#[global] Instance M_bind : MBind (M S E) := λ A B f c s,
  match c s with
  | (inr a, s') => f a s'
  | (inl e, s') => (inl e, s')
  end.

Definition throw {A} (e : E) : M S E A := λ s, (inl e, s).
Definition get : M S E S := λ s, (inr s, s).
Definition put (s' : S) : M S E unit := λ _, (inr tt, s').
Definition gets {A} (f : S → A) : M S E A := λ s, (inr (f s), s).
Definition modify (f : S → S) : M S E unit := λ s, (inr tt, f s).

(** [if !b { return e }] *)
Definition ensure (b : bool) (e : E) : M S E unit :=
  if b then mret tt else throw e.

(** A value or the error to return when there is none. *)
Definition from_option {A} (o : option A) (e : E) : M S E A :=
  match o with Some a => mret a | None => throw e end.

Definition from_sum {A} (r : E + A) : M S E A := λ s, (r, s).

(** BEGIN ... COMMIT: an error leaves the database as it was. *)
Definition transact {A} (c : M S E A) : M S E A := λ s,
  match c s with
  | (inr a, s') => (inr a, s')
  | (inl e, _) => (inl e, s)
  end.
End Monad.

(** Wrap the error of a call ([fmt.Errorf("...: %w", err)]). *)
Definition wrap {S E E' A} (f : E → E') (c : M S E A) : M S E' A := λ s,
  match c s with
  | (inr a, s') => (inr a, s')
  | (inl e, s') => (inl (f e), s')
  end.

(** Inspect the error of a call instead of propagating it. *)
Definition try {S E E' A} (c : M S E A) : M S E' (E + A) := λ s,
  let '(r, s') := c s in (inr r, s').

(** Run a computation on a component of the state. *)
Definition zoom {S T E A} (view : S → T) (set : T → S → S)
    (c : M T E A) : M S E A := λ s,
  let '(r, t) := c (view s) in (r, set t s).

(** The value and the state of a run. *)
Abbreviation result_of r := (fst r) (only parsing).
Abbreviation state_of r := (snd r) (only parsing).

Lemma transact_error {S E A} (c : M S E A) s e s' :
  transact c s = (inl e, s') → s' = s.
Proof. unfold transact. destruct (c s) as [[?|?] ?]; congruence. Qed.

Lemma transact_ok {S E A} (c : M S E A) s a s' :
  transact c s = (inr a, s') → c s = (inr a, s').
Proof. unfold transact. destruct (c s) as [[?|?] ?]; congruence. Qed.

(** A run of a sequence: the first part failed, or it succeeded and the rest ran
    from there. *)
Lemma bind_inv {S E A B} (c : M S E A) (f : A → M S E B) s r s' :
  (c ≫= f) s = (r, s') →
  (∃ e, c s = (inl e, s') ∧ r = inl e) ∨ ∃ a s1, c s = (inr a, s1) ∧ f a s1 = (r, s').
Proof.
  unfold mbind, M_bind. destruct (c s) as [[e|a] s1]; intros R.
  - left. injection R as <- <-. by exists e.
  - right. by exists a, s1.
Qed.

Lemma ensure_inv {S E} b (e : E) (s : S) r s' :
  ensure b e s = (r, s') → s' = s ∧ (b = true ∧ r = inr tt ∨ b = false ∧ r = inl e).
Proof. destruct b; intros [= <- <-]; auto. Qed.

Lemma from_option_inv {S E A} (o : option A) (e : E) (s : S) r s' :
  from_option o e s = (r, s') →
  s' = s ∧ ((∃ a, o = Some a ∧ r = inr a) ∨ o = None ∧ r = inl e).
Proof. destruct o as [a|]; intros [= <- <-]; eauto 6. Qed.

(** ** Tactics

    [case_run H] splits on the innermost scrutinee of the hypothesis [H] that
    records a run, until [H] states which branch was taken. *)
Ltac case_inner t :=
  lazymatch t with
  | context [match ?x with _ => _ end] => case_inner x
  | _ => let E := fresh "E" in destruct t eqn:E
  end.

Ltac case_run_step H :=
  lazymatch type of H with
  | context [match ?x with _ => _ end] => case_inner x; simplify_eq/=
  end.

Ltac case_run H := repeat case_run_step H; simplify_eq/=.

(** Unfold the monad in [H]. *)
Ltac unfold_run H :=
  cbv beta delta [mbind M_bind mret M_ret throw get put gets modify ensure
    from_option from_sum transact wrap try zoom] in H;
  simpl in H.

Ltac unfold_run_goal :=
  cbv beta delta [mbind M_bind mret M_ret throw get put gets modify ensure
    from_option from_sum transact wrap try zoom]; simpl.

(** Turn boolean tests into propositions. *)
Ltac reflect :=
  repeat match goal with
  | H : bool_decide _ = true |- _ => apply bool_decide_eq_true in H
  | H : bool_decide _ = false |- _ => apply bool_decide_eq_false in H
  | H : negb _ = true |- _ => apply negb_true_iff in H
  | H : negb _ = false |- _ => apply negb_false_iff in H
  | H : andb _ _ = true |- _ => apply andb_true_iff in H; destruct H
  | H : orb _ _ = false |- _ => apply orb_false_iff in H; destruct H
  end.

(** The same for every test, equalities on texts and numbers included, splitting
    conjunctions and leaving disjunctions in the context. *)
Ltac props :=
  repeat match goal with
  | H : bool_decide _ = true |- _ => apply bool_decide_eq_true in H
  | H : bool_decide _ = false |- _ => apply bool_decide_eq_false in H
  | H : negb _ = true |- _ => apply negb_true_iff in H
  | H : negb _ = false |- _ => apply negb_false_iff in H
  | H : andb _ _ = true |- _ => apply andb_true_iff in H; destruct H
  | H : andb _ _ = false |- _ => apply andb_false_iff in H
  | H : orb _ _ = false |- _ => apply orb_false_iff in H; destruct H
  | H : orb _ _ = true |- _ => apply orb_true_iff in H
  | H : String.eqb _ _ = true |- _ => apply String.eqb_eq in H
  | H : String.eqb _ _ = false |- _ => apply String.eqb_neq in H
  | H : (_ =? _)%Z = true |- _ => apply Z.eqb_eq in H
  | H : (_ =? _)%Z = false |- _ => apply Z.eqb_neq in H
  | H : (_ <=? _)%Z = true |- _ => apply Z.leb_le in H
  | H : (_ <=? _)%Z = false |- _ => apply Z.leb_gt in H
  | H : (_ <? _)%Z = true |- _ => apply Z.ltb_lt in H
  | H : (_ <? _)%Z = false |- _ => apply Z.ltb_ge in H
  | H : (_ >? _)%Z = true |- _ => apply Z.gtb_lt in H
  | H : (_ >? _)%Z = false |- _ => rewrite Z.gtb_ltb in H; apply Z.ltb_ge in H
  | H : (_ <? _)%nat = true |- _ => apply Nat.ltb_lt in H
  | H : (_ <? _)%nat = false |- _ => apply Nat.ltb_ge in H
  | H : (_ <=? _)%nat = true |- _ => apply Nat.leb_le in H
  | H : (_ <=? _)%nat = false |- _ => apply Nat.leb_gt in H
  | H : _ ∧ _ |- _ => destruct H
  end.

(** ** Strings *)

(** [strings.Split]-free helpers on byte strings. *)
Abbreviation blen s := (String.length s) (only parsing).

(** [s[:n]] when [n <= len(s)], else [s]. *)
Definition truncate (n : nat) (s : string) : string :=
  if (n <? blen s)%nat then String.substring 0 n s else s.

Lemma substring_length n : ∀ s,
  (n ≤ blen s)%nat → blen (String.substring 0 n s) = n.
Proof.
  induction n as [|n IH]; intros [|c s]; simpl; intros; try lia; auto.
  rewrite IH; lia.
Qed.

Lemma truncate_length n s : (blen (truncate n s) ≤ n)%nat.
Proof.
  unfold truncate. destruct (Nat.ltb_spec n (blen s)); [|done].
  rewrite substring_length; lia.
Qed.
