(* ===== verification/Hoare.v ===== *)
(** * Hoare: a program logic for services over a database

    A service runs over a world that contains a database ([view]); the database
    has an invariant and a step relation that keeps it. [triple P c Q] says that a
    run of [c] from a database in [P] only takes steps, also when it fails, and that
    a successful run ends in [Q]. The worlds of the domains instantiate it. *)

From S2P Require Import Prelude.

(** ** Runs that succeed *)

Lemma bind_ok {S E A B} (c : M S E A) (f : A → M S E B) s a s1 :
  c s = (inr a, s1) → (c ≫= f) s = f a s1.
Proof. intros R. unfold mbind, M_bind. by rewrite R. Qed.

Lemma ensure_ok {S E} b (e : E) (s : S) : b = true → ensure b e s = (inr tt, s).
Proof. by intros ->. Qed.

Lemma option_ok {S E A} (o : option A) (a : A) (e : E) (s : S) :
  o = Some a → from_option o e s = (inr a, s).
Proof. by intros ->. Qed.

Lemma transact_success {S E A} (c : M S E A) s a s1 :
  c s = (inr a, s1) → transact c s = (inr a, s1).
Proof. intros R. unfold transact. by rewrite R. Qed.

(** ** Runs that only read *)

Definition reads {S E A} (c : M S E A) : Prop := ∀ s, (c s).2 = s.

Lemma reads_ret {S E A} (a : A) : reads (S := S) (E := E) (mret a).
Proof. done. Qed.
Lemma reads_ensure {S E} b (e : E) : reads (S := S) (ensure b e).
Proof. by destruct b. Qed.
Lemma reads_option {S E A} (o : option A) (e : E) : reads (S := S) (from_option o e).
Proof. by destruct o. Qed.
Lemma reads_sum {S E A} (r : E + A) : reads (S := S) (from_sum r).
Proof. done. Qed.
Lemma reads_bind {S E A B} (c : M S E A) (f : A → M S E B) :
  reads c → (∀ a, reads (f a)) → reads (c ≫= f).
Proof.
  intros Rc Rf s. unfold mbind, M_bind. specialize (Rc s). destruct (c s) as [[e|a] s1]; simpl in *;
    subst; [done|apply Rf].
Qed.
Lemma reads_wrap {S E E' A} (g : E → E') (c : M S E A) : reads c → reads (wrap g c).
Proof. intros Rc s. unfold wrap. specialize (Rc s). by destruct (c s) as [[e|a] s1]. Qed.
Lemma reads_zoom {S T E A} (view : S → T) set (c : M T E A) :
  (∀ s, set (view s) s = s) → reads c → reads (zoom view set c).
Proof.
  intros V Rc s. unfold zoom. specialize (Rc (view s)). destruct (c (view s)) as [r t].
  simpl in *. by subst.
Qed.

(** Evaluate the next guard, from a hypothesis or by computation. *)
Ltac ok_ensure := erewrite bind_ok; [|apply ensure_ok].
Ltac ok_get := erewrite bind_ok; [|reflexivity].

(** ** Triples *)

Section Logic.
Context {W D E : Type} (view : W → D) (ok : D → Prop) (step : D → D → Prop).
Hypothesis step_ok : ∀ d d', ok d → step d d' → ok d'.

Definition triple {A} (P : D → Prop) (c : M W E A) (Q : A → D → Prop) : Prop :=
  ∀ w r w', ok (view w) → P (view w) → c w = (r, w') →
  rtc step (view w) (view w') ∧
  match r with inr a => Q a (view w') | inl _ => True end.

Lemma steps_ok d d' : ok d → rtc step d d' → ok d'.
Proof using step_ok. intros Ok S. induction S; eauto. Qed.

Lemma triple_bind {A B} (P : D → Prop) (c : M W E A) Q (f : A → M W E B) R :
  triple P c Q → (∀ a, triple (Q a) (f a) R) → triple P (c ≫= f) R.
Proof using step_ok.
  intros Tc Tf w r w' Ok Pw Run. apply bind_inv in Run as [(e & Run & ->)|(a & w1 & R0 & Run)].
  - split; [|done]. by eapply Tc.
  - destruct (Tc _ _ _ Ok Pw R0) as [S1 Qa].
    destruct (Tf a _ _ _ (steps_ok _ _ Ok S1) Qa Run) as [S2 Post].
    split; [by etrans|done].
Qed.

Lemma triple_ret {A} (P : D → Prop) (a : A) (Q : A → D → Prop) :
  (∀ d, P d → Q a d) → triple P (mret a) Q.
Proof using. intros I w r w' _ Pw [= <- <-]. split; [apply rtc_refl|auto]. Qed.

(** A computation that leaves the database alone. *)
Lemma triple_pure {A} (P : D → Prop) (c : M W E A) (Q : A → D → Prop) :
  (∀ w r w', ok (view w) → P (view w) → c w = (r, w') → view w' = view w ∧
     match r with inr a => Q a (view w) | inl _ => True end) →
  triple P c Q.
Proof using.
  intros Pu w r w' Ok Pw Run. destruct (Pu _ _ _ Ok Pw Run) as [-> Post].
  split; [apply rtc_refl|done].
Qed.

Lemma triple_ensure (P : D → Prop) b (e : E) :
  triple P (ensure b e) (λ _ d, P d ∧ b = true).
Proof using.
  apply triple_pure. intros w r w' _ Pw Run.
  apply ensure_inv in Run as [-> [[-> ->]|[-> ->]]]; done.
Qed.

Lemma triple_option {A} (P : D → Prop) (o : option A) (e : E) :
  triple P (from_option o e) (λ a d, P d ∧ o = Some a).
Proof using.
  apply triple_pure. intros w r w' _ Pw Run.
  apply from_option_inv in Run as [-> [(a & -> & ->)|[-> ->]]]; done.
Qed.

Lemma triple_sum {A} (P : D → Prop) (s : E + A) :
  triple P (from_sum s) (λ a d, P d ∧ s = inr a).
Proof using.
  apply triple_pure. intros w r w' _ Pw Run. injection Run as <- <-. by destruct s.
Qed.

Lemma triple_weaken {A} (P P' : D → Prop) (c : M W E A) (Q Q' : A → D → Prop) :
  triple P' c Q' → (∀ d, P d → P' d) → (∀ a d, Q' a d → Q a d) → triple P c Q.
Proof using.
  intros T I J w r w' Ok Pw Run. destruct (T _ _ _ Ok (I _ Pw) Run) as [S Post].
  split; [done|]. destruct r; auto.
Qed.

(** Another error in the place of one. *)
Lemma triple_wrap {E' A} (g : E' → E) (P : D → Prop) (c : M W E' A) (Q : A → D → Prop) :
  (∀ w r w', ok (view w) → P (view w) → c w = (r, w') →
     rtc step (view w) (view w') ∧ match r with inr a => Q a (view w') | inl _ => True end) →
  triple P (wrap g c) Q.
Proof using.
  intros T w r w' Ok Pw Run. unfold wrap in Run. destruct (c w) as [[e|a] w1] eqn:R;
    injection Run as <- <-; by destruct (T _ _ _ Ok Pw R).
Qed.

(** One call of the store: it fails without a trace or takes a step. *)
Context (set : D → W → W).
Hypothesis view_set : ∀ d w, view (set d w) = d.

Lemma triple_store {A} (P : D → Prop) (c : M D E A) (Q : A → D → Prop) :
  (∀ d r d', ok d → P d → c d = (r, d') →
     (d' = d ∨ step d d') ∧ match r with inr a => Q a d' | inl _ => True end) →
  triple P (zoom view set c) Q.
Proof using view_set.
  intros T w r w' Ok Pw Run. unfold zoom in Run.
  destruct (c (view w)) as [x d'] eqn:R. injection Run as <- <-. rewrite view_set.
  destruct (T _ _ _ Ok Pw R) as [[->|S] Post]; (split; [|done]);
    [apply rtc_refl|by apply rtc_once].
Qed.

(** Only steps: nothing is claimed of the result. *)
Definition only_steps {A} (c : M W E A) : Prop := triple (λ _, True) c (λ _ _, True).

Lemma only_steps_bind {A B} (c : M W E A) (f : A → M W E B) :
  only_steps c → (∀ a, only_steps (f a)) → only_steps (c ≫= f).
Proof using step_ok. intros Tc Tf. by eapply triple_bind. Qed.

Lemma triple_steps {A} (P : D → Prop) (c : M W E A) Q w :
  triple P c Q → ok (view w) → P (view w) → rtc step (view w) (view (c w).2).
Proof using. intros T Ok Pw. destruct (c w) as [r w'] eqn:R. by destruct (T _ _ _ Ok Pw R). Qed.

End Logic.
