(* ===== verification/Text.v ===== *)
(** * Text: the Go string functions the backend uses

    [strings.Split] on one byte, [HasPrefix], [TrimPrefix], [TrimSpace],
    [strconv.ParseInt] in base 10, [encoding/hex] and the [%d] verb. A Go string
    is a sequence of bytes, here a Rocq [string]. *)

From S2P Require Import Prelude.
From Stdlib Require Import Ascii.


(** ** Bytes *)

Definition byte_of (c : ascii) : N := N_of_ascii c.
Definition byte (n : N) : ascii := ascii_of_N n.

Fixpoint chars (s : string) : list ascii :=
  match s with "" => [] | String c s => c :: chars s end.
Fixpoint of_chars (l : list ascii) : string :=
  match l with [] => "" | c :: l => String c (of_chars l) end.

Lemma of_chars_chars s : of_chars (chars s) = s.
Proof. induction s as [|c s IH]; simpl; by rewrite ?IH. Qed.
Lemma chars_of_chars l : chars (of_chars l) = l.
Proof. induction l as [|c l IH]; simpl; by rewrite ?IH. Qed.
Lemma chars_app s t : chars (s +:+ t) = chars s ++ chars t.
Proof. induction s as [|c s IH]; [done|]. simpl. by rewrite IH. Qed.
Lemma chars_length s : length (chars s) = String.length s.
Proof. induction s as [|c s IH]; simpl; by rewrite ?IH. Qed.

(** ** strings.Split on a single byte *)

Fixpoint split (sep : ascii) (s : string) : list string :=
  match s with
  | "" => [""]
  | String c s' =>
      if Ascii.eqb c sep then "" :: split sep s'
      else match split sep s' with
           | part :: parts => String c part :: parts
           | [] => [String c ""]
           end
  end.

Definition absent (sep : ascii) (s : string) : Prop := sep ∉ chars s.

Lemma split_absent sep s : absent sep s → split sep s = [s].
Proof.
  unfold absent. induction s as [|c s IH]; simpl; [done|].
  rewrite not_elem_of_cons. intros [N H].
  destruct (Ascii.eqb_spec c sep); [congruence|]. by rewrite IH.
Qed.

Lemma split_app sep s t :
  absent sep s → split sep (s +:+ String sep t) = s :: split sep t.
Proof.
  unfold absent. induction s as [|c s IH]; simpl.
  - intros _. by rewrite Ascii.eqb_refl.
  - rewrite not_elem_of_cons. intros [N H].
    destruct (Ascii.eqb_spec c sep); [congruence|].
    change (String.append s (String sep t)) with (s +:+ String sep t). by rewrite IH.
Qed.

(** ** Prefixes *)

(** [strings.CutPrefix]: the rest of [s] after [p], if [s] starts with [p]. *)
Fixpoint cut_prefix (p s : string) : option string :=
  match p, s with
  | "", _ => Some s
  | String a p, String b s => if Ascii.eqb a b then cut_prefix p s else None
  | String _ _, "" => None
  end.

Definition has_prefix (s p : string) : bool :=
  match cut_prefix p s with Some _ => true | None => false end.
Definition trim_prefix (s p : string) : string :=
  match cut_prefix p s with Some rest => rest | None => s end.

Lemma cut_prefix_app p s : cut_prefix p (p +:+ s) = Some s.
Proof. induction p as [|c p IH]; [done|]. simpl. by rewrite Ascii.eqb_refl. Qed.

Lemma cut_prefix_Some p s rest : cut_prefix p s = Some rest → s = p +:+ rest.
Proof.
  revert s. induction p as [|a p IH]; intros [|b s]; simpl; try naive_solver.
  destruct (Ascii.eqb_spec a b) as [->|]; [|done]. intros ->%IH. done.
Qed.

(** ** strings.TrimSpace *)

Definition bytes_of (l : list N) : list ascii := map byte l.

(** The UTF-8 encodings of the runes [unicode.IsSpace] accepts. *)
Definition spaces : list (list ascii) :=
  map bytes_of
    ([[9]; [10]; [11]; [12]; [13]; [32]; [194; 133]; [194; 160]; [225; 154; 128]] ++
     map (λ n, [226; 128; n]) [128; 129; 130; 131; 132; 133; 134; 135; 136; 137; 138;
                               168; 169; 175] ++
     [[226; 129; 159]; [227; 128; 128]])%N.

Fixpoint strip {A} `{EqDecision A} (p l : list A) : option (list A) :=
  match p, l with
  | [], _ => Some l
  | a :: p, b :: l => if decide (a = b) then strip p l else None
  | _ :: _, [] => None
  end.

(** Strip one of the given sequences from the front. *)
Fixpoint strip_any {A} `{EqDecision A} (ps : list (list A)) (l : list A) : option (list A) :=
  match ps with
  | [] => None
  | p :: ps => match strip p l with Some rest => Some rest | None => strip_any ps l end
  end.

(** Every step shortens the list, so its length is fuel enough. *)
Fixpoint strip_all (fuel : nat) (ps : list (list ascii)) (l : list ascii) : list ascii :=
  match fuel with
  | O => l
  | S fuel => match strip_any ps l with Some rest => strip_all fuel ps rest | None => l end
  end.

Definition trim_left (l : list ascii) : list ascii := strip_all (length l) spaces l.
Definition trim_right (l : list ascii) : list ascii :=
  rev (strip_all (length l) (map (@rev ascii) spaces) (rev l)).
Definition TrimSpace (s : string) : string := of_chars (trim_right (trim_left (chars s))).

(** A visible ASCII byte starts and ends no space. *)
Definition visible (c : ascii) : bool := ((33 <=? byte_of c) && (byte_of c <=? 126))%N.

Lemma strip_any_None c l (ps : list (list ascii)) :
  forallb (λ p, match p with [] => false | a :: _ => negb (visible a) end) ps = true →
  visible c = true → strip_any ps (c :: l) = None.
Proof.
  induction ps as [|p ps IH]; simpl; [done|]. intros [Hp H]%andb_true_iff V.
  destruct p as [|a p]; [done|]. simpl.
  rewrite decide_False by (intros ->; rewrite V in Hp; done). auto.
Qed.

Lemma TrimSpace_visible s :
  forallb visible (chars s) = true → TrimSpace s = s.
Proof.
  intros V. unfold TrimSpace.
  assert (trim_left (chars s) = chars s) as ->.
  { unfold trim_left. destruct (chars s) as [|c l]; [done|].
    simpl in V. apply andb_true_iff in V as [V _].
    cbn [length strip_all]. by rewrite strip_any_None. }
  assert (trim_right (chars s) = chars s) as ->; [|apply of_chars_chars].
  unfold trim_right. destruct (rev (chars s)) as [|c l] eqn:E.
  - apply (f_equal (@rev ascii)) in E. rewrite rev_involutive in E. by rewrite E.
  - assert (visible c = true) as Vc.
    { rewrite forallb_forall in V. apply V, in_rev. rewrite E. by left. }
    assert (strip_all (length (chars s)) (map (rev (A:=ascii)) spaces) (c :: l) = c :: l) as ->.
    { destruct (length (chars s)); [done|]. cbn [strip_all]. by rewrite strip_any_None. }
    by rewrite <-E, rev_involutive.
Qed.

(** Trimming leaves nothing to trim. *)
Lemma strip_spec {A} `{EqDecision A} (p l r : list A) : strip p l = Some r ↔ l = p ++ r.
Proof.
  revert l. induction p as [|a p IH]; intros l; simpl; [naive_solver|].
  destruct l as [|b l]; [done|]. destruct (decide (a = b)) as [->|Ne].
  - rewrite IH. naive_solver.
  - naive_solver.
Qed.

Lemma strip_any_Some {A} `{EqDecision A} (ps : list (list A)) l r :
  strip_any ps l = Some r → ∃ p, p ∈ ps ∧ l = p ++ r.
Proof.
  induction ps as [|p ps IH]; simpl; [done|]. destruct (strip p l) as [r'|] eqn:E.
  - intros [= ->]. apply strip_spec in E. exists p. split; [by left|done].
  - intros (q & I & ->)%IH. exists q. split; [by right|done].
Qed.

Lemma strip_any_prefix {A} `{EqDecision A} (ps : list (list A)) l l' :
  strip_any ps (l ++ l') = None → strip_any ps l = None.
Proof.
  induction ps as [|p ps IH]; simpl; [done|]. destruct (strip p l) as [r|] eqn:E.
  - apply strip_spec in E as ->. rewrite <-app_assoc.
    by rewrite (proj2 (strip_spec p (p ++ r ++ l') (r ++ l')) eq_refl).
  - destruct (strip p (l ++ l')); [done|]. auto.
Qed.

Lemma strip_all_spec fuel ps l : [] ∉ ps → (length l <= fuel)%nat →
  (∃ pre, l = pre ++ strip_all fuel ps l) ∧ strip_any ps (strip_all fuel ps l) = None.
Proof.
  intros N. revert l. induction fuel as [|fuel IH]; intros l Le.
  - assert (l = []) as -> by (destruct l; [done|simpl in Le; lia]). split; [by exists []|].
    destruct (strip_any ps []) as [r|] eqn:E; [|by simpl].
    apply strip_any_Some in E as (p & I & E). symmetry in E. apply app_eq_nil in E as [-> _]. done.
  - simpl. destruct (strip_any ps l) as [r|] eqn:E; [|split; [by exists []|done]].
    apply strip_any_Some in E as (p & I & ->). destruct p as [|a p]; [done|].
    rewrite length_app in Le. simpl in Le. destruct (IH r) as [(pre & Er) S]; [lia|].
    split; [|done]. exists ((a :: p) ++ pre). rewrite <-app_assoc. by rewrite <-Er.
Qed.

Lemma strip_all_None fuel ps l : strip_any ps l = None → strip_all fuel ps l = l.
Proof. destruct fuel; simpl; [done|]. by intros ->. Qed.

Lemma TrimSpace_idem s : TrimSpace (TrimSpace s) = TrimSpace s.
Proof.
  unfold TrimSpace. rewrite chars_of_chars.
  set (l := trim_left (chars s)).
  assert (strip_any spaces l = None) as Nl by (apply strip_all_spec; [set_solver|lia]).
  assert ([] ∉ map (@rev ascii) spaces) as Nr by set_solver.
  destruct (strip_all_spec (length l) _ (rev l) Nr) as [(pre & E) Sr]; [by rewrite length_rev|].
  set (r := strip_all (length l) (map (@rev ascii) spaces) (rev l)) in *.
  assert (trim_right l = rev r) as Tr by done.
  assert (l = rev r ++ rev pre) as El.
  { apply (f_equal (@rev ascii)) in E. rewrite rev_involutive, rev_app_distr in E. exact E. }
  rewrite Tr. f_equal. unfold trim_left. rewrite strip_all_None.
  - unfold trim_right. rewrite rev_involutive, strip_all_None; done.
  - rewrite El in Nl. by eapply strip_any_prefix.
Qed.

(** What is proved of every byte is proved of every character. *)
Lemma all_chars (p : ascii → bool) :
  forallb p (map (λ n, byte (N.of_nat n)) (seq 0 256)) = true → ∀ c, p c = true.
Proof.
  rewrite forallb_forall. intros F c. rewrite <-(ascii_N_embedding c).
  apply F, in_map_iff. exists (N.to_nat (N_of_ascii c)).
  rewrite N2Nat.id. split; [done|]. apply in_seq. pose proof (N_ascii_bounded c). lia.
Qed.

(** ** strconv.ParseInt(s, 10, 64) *)

Definition digit (c : ascii) : option N :=
  let n := byte_of c in
  if ((48 <=? n) && (n <=? 57))%N then Some (n - 48)%N else None.

Fixpoint digits (acc : N) (s : string) : option N :=
  match s with
  | "" => Some acc
  | String c s => match digit c with Some d => digits (acc * 10 + d)%N s | None => None end
  end.

Definition parse_uint (s : string) : option N :=
  match s with "" => None | _ => digits 0 s end.

Definition ParseInt (s : string) : option Z :=
  let '(neg, rest) :=
    match s with
    | String "-" rest => (true, rest)
    | String "+" rest => (false, rest)
    | _ => (false, s)
    end in
  match parse_uint rest with
  | None => None
  | Some un =>
      if neg then (if (Z.of_N un <=? 2 ^ 63)%Z then Some (- Z.of_N un)%Z else None)
      else (if (Z.of_N un <? 2 ^ 63)%Z then Some (Z.of_N un) else None)
  end.

Lemma digit_pretty_char n : (n < 10)%N → digit (pretty_N_char n) = Some n.
Proof.
  intros H. destruct (decide (n ∈ [0;1;2;3;4;5;6;7;8;9]%N)) as [I|N].
  - repeat (apply elem_of_cons in I as [->|I]; [done|]). by apply elem_of_nil in I.
  - exfalso. apply N. rewrite !elem_of_cons. lia.
Qed.

Lemma pretty_go_unfold n s :
  pretty_N_go n s =
  if decide (0 < n)%N
  then pretty_N_go (n `div` 10) (String (pretty_N_char (n `mod` 10)) s) else s.
Proof.
  case_decide; [by apply pretty_N_go_step|].
  assert (n = 0%N) as -> by lia. apply pretty_N_go_0.
Qed.

Lemma digits_pretty_go n : ∀ acc s,
  digits acc (pretty_N_go n s) =
  digits (acc * 10 ^ (N.of_nat (String.length (pretty_N_go n s) - String.length s)) + n)%N s ∧
  (String.length s ≤ String.length (pretty_N_go n s))%nat.
Proof.
  induction (N.lt_wf_0 n) as [n _ IH]. intros acc s. rewrite pretty_go_unfold.
  case_decide as P; [|split; [rewrite Nat.sub_diag; f_equal; simpl; lia|lia]].
  destruct (IH (n `div` 10)%N ltac:(apply N.div_lt; lia) acc
              (String (pretty_N_char (n `mod` 10)) s)) as [E L].
  simpl in L. split; [|lia]. rewrite E.
  pose proof (N.mod_lt n 10 ltac:(lia)).
  cbn [digits]. rewrite digit_pretty_char by done. f_equal.
  set (len := String.length (pretty_N_go _ _)) in *.
  replace (N.of_nat (len - String.length s))
    with (N.of_nat (len - String.length (String (pretty_N_char (n `mod` 10)) s)) + 1)%N
    by (simpl; lia).
  rewrite N.pow_add_r, N.pow_1_r.
  pose proof (N.div_mod n 10). lia.
Qed.

Lemma parse_uint_pretty n : parse_uint (pretty n) = Some n.
Proof.
  unfold pretty, pretty_N. case_decide as E; [by subst|].
  unfold parse_uint. destruct (digits_pretty_go n 0 "") as [D _].
  destruct (pretty_N_go n "") as [|c s] eqn:G; [|rewrite D; simpl; f_equal; lia].
  exfalso. rewrite pretty_go_unfold in G. rewrite decide_True in G by lia.
  destruct (digits_pretty_go (n `div` 10) 0 (String (pretty_N_char (n `mod` 10)) "")) as [_ L].
  rewrite G in L. simpl in L. lia.
Qed.

(** The characters of a rendered number. *)
Lemma pretty_go_chars n : ∀ s, Forall (λ c, is_Some (digit c)) (chars s) →
  Forall (λ c, is_Some (digit c)) (chars (pretty_N_go n s)).
Proof.
  induction (N.lt_wf_0 n) as [n _ IH]. intros s F. rewrite pretty_go_unfold.
  case_decide; [|done]. apply IH; [apply N.div_lt; lia|].
  simpl. constructor; [|done]. rewrite digit_pretty_char; [done|apply N.mod_lt; lia].
Qed.

Lemma pretty_N_digits (n : N) : Forall (λ c, is_Some (digit c)) (chars (pretty n)).
Proof.
  unfold pretty, pretty_N. case_decide; [by repeat constructor|].
  by apply pretty_go_chars.
Qed.

(** Digits and the minus sign. *)
Definition number_char (c : ascii) : Prop := is_Some (digit c) ∨ c = "-"%char.

Lemma pretty_Z_chars (z : Z) : Forall number_char (chars (pretty z)).
Proof.
  assert (∀ n : N, Forall number_char (chars (pretty n))) as D.
  { intros n. eapply list.Forall_impl; [apply pretty_N_digits|]. intros c. by left. }
  unfold pretty, pretty_Z. destruct z as [|p|p]; [|apply D|].
  - constructor; [left; by eexists|constructor].
  - simpl. constructor; [by right|apply D].
Qed.

Lemma ParseInt_digits s n :
  parse_uint s = Some n → ParseInt s =
    (if (Z.of_N n <? 2 ^ 63)%Z then Some (Z.of_N n) else None).
Proof.
  intros P. unfold ParseInt. destruct s as [|c s]; [done|].
  assert (c ≠ "-"%char ∧ c ≠ "+"%char) as [N1 N2].
  { unfold parse_uint in P. cbn [digits] in P.
    split; intros ->; by vm_compute in P. }
  destruct (decide (c = "-"%char)); [done|]. destruct (decide (c = "+"%char)); [done|].
  assert ((match c with "-"%char => (true, s) | "+"%char => (false, s) | _ => (false, String c s) end)
          = (false, String c s)) as E.
  { destruct c as [[] [] [] [] [] [] [] []]; try done. }
  rewrite E, P. done.
Qed.

(** Printing and parsing an int64 round-trips. *)
Lemma ParseInt_pretty z : in_int64 z → ParseInt (pretty z) = Some z.
Proof.
  unfold in_int64, min_int64, max_int64. intros R. destruct z as [|p|p].
  - done.
  - change (pretty (Z.pos p)) with (pretty (N.pos p)).
    rewrite (ParseInt_digits _ (N.pos p)) by apply parse_uint_pretty.
    destruct (Z.ltb_spec (Z.of_N (N.pos p)) (2 ^ 63)); [done|lia].
  - change (pretty (Z.neg p)) with (String "-" (pretty (N.pos p))).
    unfold ParseInt. rewrite parse_uint_pretty.
    destruct (Z.leb_spec (Z.of_N (N.pos p)) (2 ^ 63)); [done|lia].
Qed.

(** Identifiers printed as a letter, given by its code, and their number: an instance
    of [UuidText]. *)
Definition letter_parse (letter : ascii) (s : string) : option uuid :=
  match s with
  | String c rest => if Ascii.eqb c letter then parse_uint rest else None
  | EmptyString => None
  end.

Definition letter_uuid (code : N) : UuidText.
Proof.
  refine {| uuid_string u := String (byte code) (pretty u); uuid_parse := letter_parse (byte code);
            uuid_left _ := uuid_nil |}.
  - done.
  - intros u. cbn [letter_parse]. rewrite Ascii.eqb_refl. apply parse_uint_pretty.
Defined.
