(* ===== verification/Sha256.v ===== *)
(** * Sha256: the hash functions of the trust boundary

    SHA-256 and HMAC-SHA256 ([crypto/sha256], [crypto/hmac]) on byte strings and
    [encoding/hex], executable, with the standard test vectors. *)

From S2P Require Import Prelude Text.
From Stdlib Require Import Ascii.

Open Scope N_scope.

(** ** 32-bit words *)

Definition w32 (x : N) : N := N.land x 0xffffffff.
Definition add32 (x y : N) : N := w32 (x + y).
Definition rotr (n x : N) : N := N.lor (N.shiftr x n) (w32 (N.shiftl x (32 - n))).

Definition Sigma0 x := N.lxor (rotr 2 x) (N.lxor (rotr 13 x) (rotr 22 x)).
Definition Sigma1 x := N.lxor (rotr 6 x) (N.lxor (rotr 11 x) (rotr 25 x)).
Definition sigma0 x := N.lxor (rotr 7 x) (N.lxor (rotr 18 x) (N.shiftr x 3)).
Definition sigma1 x := N.lxor (rotr 17 x) (N.lxor (rotr 19 x) (N.shiftr x 10)).
Definition Ch x y z := N.lxor (N.land x y) (N.land (N.lxor x 0xffffffff) z).
Definition Maj x y z := N.lxor (N.land x y) (N.lxor (N.land x z) (N.land y z)).

(** The constants of the standard are the first 32 bits of the fractional parts
    of the cube roots (round constants) and square roots (initial state) of the
    first primes; they are computed here, once, rather than typed in. *)
Definition is_prime (n : nat) : bool :=
  forallb (λ d, negb (n mod d =? 0)%nat) (seq 2 (n - 2)).
Definition primes : list N := map N.of_nat (List.filter is_prime (seq 2 310)).

(** The largest [r] below [2 ^ bits + r0] with [r ^ 3 <= x], bit by bit. *)
Fixpoint cube_root (bits : nat) (r0 x : N) : N :=
  match bits with
  | O => r0
  | S bits =>
      let r := r0 + 2 ^ N.of_nat bits in
      cube_root bits (if r * r * r <=? x then r else r0) x
  end.

Definition K : list N :=
  Eval vm_compute in map (λ p, w32 (cube_root 36 0 (N.shiftl p 96))) primes.

(** ** Compression *)

Record state := mkState { sa : N; sb : N; sc : N; sd : N; se : N; sf : N; sg : N; sh : N }.

Definition H0 : state :=
  Eval vm_compute in
    match map (λ p, w32 (N.sqrt (N.shiftl p 64))) (take 8 primes) with
    | [a; b; c; d; e; f; g; h] => mkState a b c d e f g h
    | _ => mkState 0 0 0 0 0 0 0 0
    end.

Definition round (s : state) (kw : N * N) : state :=
  let t1 := add32 (sh s) (add32 (Sigma1 (se s))
              (add32 (Ch (se s) (sf s) (sg s)) (add32 (fst kw) (snd kw)))) in
  let t2 := add32 (Sigma0 (sa s)) (Maj (sa s) (sb s) (sc s)) in
  mkState (add32 t1 t2) (sa s) (sb s) (sc s) (add32 (sd s) t1) (se s) (sf s) (sg s).

(** The message schedule, newest word first. *)
Fixpoint extend (n : nat) (ws : list N) : list N :=
  match n with
  | O => ws
  | S n =>
      let w := add32 (add32 (sigma1 (nth 1 ws 0)) (nth 6 ws 0))
                     (add32 (sigma0 (nth 14 ws 0)) (nth 15 ws 0)) in
      extend n (w :: ws)
  end.

Definition schedule (block : list N) : list N := rev (extend 48 (rev block)).

Definition compress (s : state) (block : list N) : state :=
  let s' := fold_left round (zip K (schedule block)) s in
  mkState (add32 (sa s) (sa s')) (add32 (sb s) (sb s')) (add32 (sc s) (sc s'))
    (add32 (sd s) (sd s')) (add32 (se s) (se s')) (add32 (sf s) (sf s'))
    (add32 (sg s) (sg s')) (add32 (sh s) (sh s')).

(** ** Padding and blocks *)

(** [n] big-endian bytes of [x]. *)
Fixpoint be_bytes (n : nat) (x : N) : list N :=
  match n with
  | O => []
  | S n => N.land (N.shiftr x (8 * N.of_nat n)) 0xff :: be_bytes n x
  end.

Definition pad (msg : list N) : list N :=
  let len := N.of_nat (length msg) in
  let zeros := N.to_nat ((119 - len mod 64) mod 64) in
  msg ++ [0x80] ++ replicate zeros 0 ++ be_bytes 8 (8 * len).

Fixpoint words (bytes : list N) : list N :=
  match bytes with
  | a :: b :: c :: d :: rest =>
      N.lor (N.shiftl a 24) (N.lor (N.shiftl b 16) (N.lor (N.shiftl c 8) d)) :: words rest
  | _ => []
  end.

(** The blocks of 16 words; the number of words is fuel enough. *)
Fixpoint blocks (fuel : nat) (ws : list N) : list (list N) :=
  match fuel, ws with
  | O, _ | _, [] => []
  | S fuel, _ => take 16 ws :: blocks fuel (drop 16 ws)
  end.

Definition digest (s : state) : list N :=
  List.concat (map (be_bytes 4) [sa s; sb s; sc s; sd s; se s; sf s; sg s; sh s]).

Definition sha256 (msg : list N) : list N :=
  let ws := words (pad msg) in
  digest (fold_left compress (blocks (length ws) ws) H0).

(** ** HMAC *)

Definition hmac_key (key : list N) : list N :=
  let key := if (64 <? length key)%nat then sha256 key else key in
  key ++ replicate (64 - length key) 0.

Definition hmac_sha256 (key msg : list N) : list N :=
  let key := hmac_key key in
  sha256 (map (N.lxor 0x5c) key ++ sha256 (map (N.lxor 0x36) key ++ msg)).

(** ** Byte strings and hexadecimal *)

Definition to_bytes (s : string) : list N := map byte_of (chars s).

Definition hex_char (n : N) : ascii :=
  byte (if n <? 10 then 48 + n else 87 + n).

(** [hex.EncodeToString] *)
Fixpoint hex_encode (bytes : list N) : string :=
  match bytes with
  | [] => ""
  | b :: bytes =>
      String (hex_char (N.shiftr b 4)) (String (hex_char (N.land b 15)) (hex_encode bytes))
  end.

Definition hex_value (c : ascii) : option N :=
  let n := byte_of c in
  if (48 <=? n) && (n <=? 57) then Some (n - 48)
  else if (97 <=? n) && (n <=? 102) then Some (n - 87)
  else if (65 <=? n) && (n <=? 70) then Some (n - 55)
  else None.

(** [hex.DecodeString]: an odd length or a foreign character is an error. *)
Fixpoint hex_decode (s : string) : option (list N) :=
  match s with
  | "" => Some []
  | String _ "" => None
  | String c (String d s) =>
      match hex_value c, hex_value d, hex_decode s with
      | Some h, Some l, Some rest => Some (N.lor (N.shiftl h 4) l :: rest)
      | _, _, _ => None
      end
  end.

(** [hex.EncodeToString(sha256.Sum256(b))] *)
Definition sha256Hex (b : string) : string := hex_encode (sha256 (to_bytes b)).

#[global] Arguments sha256 : simpl never.
#[global] Arguments hmac_sha256 : simpl never.
#[global] Arguments sha256Hex : simpl never.

(** ** Test vectors *)

Example sha256_empty :
  sha256Hex "" = "e3b0c44298fc1c149afbf4c8996fb92427ae41e4649b934ca495991b7852b855".
Proof. vm_compute. reflexivity. Qed.

Example sha256_abc :
  sha256Hex "abc" = "ba7816bf8f01cfea414140de5dae2223b00361a396177a9cb410ff61f20015ad".
Proof. vm_compute. reflexivity. Qed.

Example sha256_two_blocks :
  sha256Hex "abcdbcdecdefdefgefghfghighijhijkijkljklmklmnlmnomnopnopq" =
  "248d6a61d20638b8e5c026930c3e6039a33ce45964ff2167f6ecedd419db06c1".
Proof. vm_compute. reflexivity. Qed.

(** RFC 4231, test case 2. *)
Example hmac_jefe :
  hex_encode (hmac_sha256 (to_bytes "Jefe") (to_bytes "what do ya want for nothing?")) =
  "5bdcc146bf60754e6a042426089575c75a003f089d2739839dec58b964ec3843".
Proof. vm_compute. reflexivity. Qed.

(** ** Hexadecimal round trip *)

Lemma byte_ind (P : N → bool) :
  forallb P (map N.of_nat (seq 0 256)) = true → ∀ b, b < 256 → P b = true.
Proof.
  intros H b Hb. rewrite forallb_forall in H. apply H.
  rewrite in_map_iff. exists (N.to_nat b). rewrite in_seq. lia.
Qed.

Lemma hex_decode_encode bytes :
  Forall (λ b, b < 256) bytes → hex_decode (hex_encode bytes) = Some bytes.
Proof.
  induction 1 as [|b bytes Hb _ IH]; [done|]. cbn [hex_encode hex_decode]. rewrite IH.
  assert (match hex_value (hex_char (N.shiftr b 4)), hex_value (hex_char (N.land b 15)) with
          | Some h, Some l => N.lor (N.shiftl h 4) l =? b | _, _ => false end = true) as E.
  { apply (byte_ind (λ b, match hex_value (hex_char (N.shiftr b 4)),
        hex_value (hex_char (N.land b 15)) with
        | Some h, Some l => N.lor (N.shiftl h 4) l =? b | _, _ => false end)); [|done].
    by vm_compute. }
  destruct (hex_value (hex_char (N.shiftr b 4))); [|done].
  destruct (hex_value (hex_char (N.land b 15))); [|done].
  apply N.eqb_eq in E. by rewrite E.
Qed.

Lemma be_bytes_range n x : Forall (λ b, b < 256) (be_bytes n x).
Proof.
  induction n as [|n IH]; simpl; constructor; [|done].
  change 0xff with (N.ones 8). rewrite N.land_ones. apply N.mod_lt. done.
Qed.

Lemma be_bytes_length n x : length (be_bytes n x) = n.
Proof. induction n; simpl; congruence. Qed.

Lemma digest_range s : Forall (λ b, b < 256) (digest s).
Proof.
  unfold digest. cbn [map List.concat]. rewrite app_nil_r.
  repeat (apply Forall_app; split); apply be_bytes_range.
Qed.

Lemma sha256_range msg : Forall (λ b, b < 256) (sha256 msg).
Proof. apply digest_range. Qed.

Lemma sha256_length msg : length (sha256 msg) = 32%nat.
Proof. unfold sha256, digest. cbn [map List.concat].
  rewrite !length_app, !be_bytes_length. done. Qed.

Lemma hmac_range key msg : Forall (λ b, b < 256) (hmac_sha256 key msg).
Proof. apply sha256_range. Qed.

Lemma hmac_length key msg : length (hmac_sha256 key msg) = 32%nat.
Proof. apply sha256_length. Qed.

(** The characters of an encoding. *)
Definition lower_hex (c : ascii) : bool :=
  let n := byte_of c in ((48 <=? n) && (n <=? 57)) || ((97 <=? n) && (n <=? 102)).

Lemma hex_encode_chars bytes :
  Forall (λ b, b < 256) bytes → forallb lower_hex (chars (hex_encode bytes)) = true.
Proof.
  induction 1 as [|b bytes Hb _ IH]; [done|]. cbn [hex_encode chars forallb]. rewrite IH.
  rewrite !andb_true_r.
  apply (byte_ind (λ b, lower_hex (hex_char (N.shiftr b 4)) && lower_hex (hex_char (N.land b 15))));
    [by vm_compute|done].
Qed.

Lemma hex_encode_length bytes : String.length (hex_encode bytes) = (2 * length bytes)%nat.
Proof. induction bytes as [|b bytes IH]; [done|]. cbn [hex_encode String.length length]. lia. Qed.

Lemma to_bytes_inj s t : to_bytes s = to_bytes t → s = t.
Proof.
  unfold to_bytes. intros E.
  assert (chars s = chars t) as E'.
  { assert (Inj (=) (=) byte_of) as I.
    { intros a b Hab. unfold byte_of in Hab.
      by rewrite <-(ascii_N_embedding a), <-(ascii_N_embedding b), Hab. }
    revert E. generalize (chars s) as l, (chars t) as l'. clear s t.
    induction l as [|a l IH]; intros [|b l']; simpl; intros [=]; f_equal; eauto. }
  by rewrite <-(of_chars_chars s), <-(of_chars_chars t), E'.
Qed.
