(* ===== verification/Platform.v ===== *)
(** * Platform: events, redaction and application errors

    [backend/platform/events.go] (the envelope and its constructor),
    [backend/platform/redact.go] and [backend/platform/errors.go]. The regular
    expressions of the redaction are written as the matchers they denote: leftmost,
    greedy with backtracking. *)

From Stdlib Require Import Ascii.
From S2P Require Import Prelude Text.

(** ** Calls

    What a call takes from its environment: the clock, the request identifier of
    the HTTP middleware and the identifiers it draws ([ctx_fresh k] is the k-th
    [uuid.New()] site of the function, in source order). *)
Record Ctx := mkCtx {
  ctx_now : time;
  ctx_request_id : string;
  ctx_fresh : nat → uuid;
}.

(** ** Events *)

Definition SchemaVersion : Z := 1.

(** The payload is kept structured; its JSON text is not modelled. *)
Record Event (payload : Type) := mkEvent {
  EventID : string;
  EventType : string;
  ev_SchemaVersion : Z;
  AggregateID : string;
  TenantID : string;
  ActorID : string;
  Timestamp : time;
  CorrelationID : string;
  CausationID : string;
  Payload : payload;
}.
Arguments mkEvent {payload}. Arguments EventID {payload}. Arguments EventType {payload}.
Arguments ev_SchemaVersion {payload}. Arguments AggregateID {payload}.
Arguments TenantID {payload}. Arguments ActorID {payload}. Arguments Timestamp {payload}.
Arguments CorrelationID {payload}. Arguments CausationID {payload}. Arguments Payload {payload}.

(** [None]: event_type and aggregate_id are required. *)
Definition NewEvent `{UuidText} {payload} (now : time) (fresh : uuid)
    (eventType aggregateID tenantID actorID correlationID : string) (p : payload)
    : option (Event payload) :=
  if String.eqb eventType "" || String.eqb aggregateID "" then None
  else Some (mkEvent (uuid_string fresh) eventType SchemaVersion aggregateID tenantID
               actorID now correlationID "" p).

Definition Subject {payload} (domain : string) (e : Event payload) : string :=
  "motivra." +:+ domain +:+ "." +:+ EventType e.

Lemma NewEvent_uuid `{UuidText} {payload} now fresh ty agg ten act cor (p : payload) :
  ty ≠ "" → NewEvent now fresh ty (uuid_string agg) ten act cor p =
  Some (mkEvent (uuid_string fresh) ty SchemaVersion (uuid_string agg) ten act now cor "" p).
Proof.
  intros N. unfold NewEvent. destruct (String.eqb_spec ty ""); [done|].
  destruct (String.eqb_spec (uuid_string agg) "") as [E|]; [|done].
  by apply uuid_string_nonempty in E.
Qed.

(** ** Character classes *)

Definition in_range (a b : N) (c : ascii) : bool :=
  ((a <=? byte_of c) && (byte_of c <=? b))%N.
Definition is_digit : ascii → bool := in_range 48 57.
Definition is_letter (c : ascii) : bool := in_range 65 90 c || in_range 97 122 c.
Definition is_char (n : N) (c : ascii) : bool := (byte_of c =? n)%N.

(** [[A-Za-z0-9._%+\-]] *)
Definition email_local (c : ascii) : bool :=
  is_letter c || is_digit c || is_char 46 c || is_char 95 c || is_char 37 c ||
  is_char 43 c || is_char 45 c.
(** [[A-Za-z0-9.\-]] *)
Definition email_domain (c : ascii) : bool :=
  is_letter c || is_digit c || is_char 46 c || is_char 45 c.
(** [\s] *)
Definition is_space (c : ascii) : bool :=
  is_char 9 c || is_char 10 c || is_char 12 c || is_char 13 c || is_char 32 c.
(** [[\d\-()\s]] *)
Definition phone_body (c : ascii) : bool :=
  is_digit c || is_char 45 c || is_char 40 c || is_char 41 c || is_space c.
(** [[\x00-\x1f\x7f]] *)
Definition is_control (c : ascii) : bool := in_range 0 31 c || is_char 127 c.

(** The longest prefix of characters of a class. *)
Fixpoint run (p : ascii → bool) (l : list ascii) : nat :=
  match l with c :: l => if p c then S (run p l) else 0 | [] => 0 end.

(** The largest [k] in [lo, hi] with [ok k]: the order a greedy repetition
    backtracks in. *)
Fixpoint backtrack (ok : nat → option nat) (lo : nat) (hi : nat) : option nat :=
  match hi with
  | O => if (lo <=? 0)%nat then ok 0 else None
  | S hi' =>
      if (lo <=? hi)%nat then
        match ok hi with Some m => Some m | None => backtrack ok lo hi' end
      else None
  end.

(** ** Matchers: the length of the match at the front, if there is one *)

Definition match_email (l : list ascii) : option nat :=
  let n := run email_local l in
  if (n =? 0)%nat then None
  else match drop n l with
  | c :: rest =>
      if is_char 64 c then
        let tail k := match drop k rest with
          | d :: after =>
              let letters := run is_letter after in
              if is_char 46 d && (2 <=? letters)%nat then Some (k + 1 + letters)%nat else None
          | [] => None
          end in
        m ← backtrack tail 1 (run email_domain rest); Some (n + 1 + m)%nat
      else None
  | [] => None
  end.

Definition match_phone (l : list ascii) : option nat :=
  let plus := match l with c :: _ => if is_char 43 c then 1 else 0 | [] => 0 end in
  match drop plus l with
  | d :: rest =>
      if is_digit d then
        let last k := match drop k rest with
          | e :: _ => if is_digit e then Some (k + 1)%nat else None
          | [] => None
          end in
        m ← backtrack last 8 (run phone_body rest); Some (plus + 1 + m)%nat
      else None
  | [] => None
  end.

Definition match_spaces (l : list ascii) : option nat :=
  let n := run is_space l in if (n =? 0)%nat then None else Some n.

(** [ReplaceAllStringFunc]: leftmost matches, none of them empty; the length of
    the text is fuel enough. *)
Fixpoint replace_all (fuel : nat) (m : list ascii → option nat)
    (repl : list ascii → list ascii) (l : list ascii) : list ascii :=
  match fuel, l with
  | O, _ => l
  | _, [] => []
  | S fuel, c :: l' =>
      match m l with
      | Some n => repl (take n l) ++ replace_all fuel m repl (drop n l)
      | None => c :: replace_all fuel m repl l'
      end
  end.

Definition replace (m : list ascii → option nat) (repl : list ascii → list ascii)
    (s : string) : string :=
  of_chars (replace_all (String.length s) m repl (chars s)).

(** [strings.LastIndexByte(s, '@')] *)
Fixpoint last_at (l : list ascii) : option nat :=
  match l with
  | [] => None
  | c :: l =>
      match last_at l with
      | Some i => Some (S i)
      | None => if is_char 64 c then Some 0 else None
      end
  end.

Definition mask_email (l : list ascii) : list ascii :=
  chars "***@redacted" ++ drop (default 0 (last_at l)) l.

(** ** RedactFreeText and RedactEmail *)

Definition MaxRedactedFieldLen : nat := 64.

Definition strip_controls (s : string) : string :=
  of_chars (map (λ c, if is_control c then " "%char else c) (chars s)).

Definition RedactFreeText (s : string) : string :=
  let s := strip_controls s in
  let s := replace match_email mask_email s in
  let s := replace match_phone (λ _, chars "***redacted-phone***") s in
  let s := replace match_spaces (λ _, chars " ") (TrimSpace s) in
  truncate MaxRedactedFieldLen s.

Definition RedactEmail (email : string) : string :=
  match last_at (chars email) with
  | None => "***@redacted"
  | Some at_ =>
      if ((at_ <? 1) || (at_ =? String.length email - 1))%nat then "***@redacted"
      else
        let local := take at_ (chars email) in
        let local := if (2 <? length local)%nat then take 2 local ++ chars "***" else chars "***" in
        of_chars (local ++ chars "@redacted" ++ drop at_ (chars email))
  end.

#[global] Arguments RedactFreeText : simpl never.

(** The cases of the package's tests. *)
Example redact_email_in_text :
  RedactFreeText "Roy's iPhone (roy.wanyoike@example.com)" =
  "Roy's iPhone (***@redacted@example.com)".
Proof. vm_compute. reflexivity. Qed.
Example redact_phone_in_text :
  RedactFreeText "device +254 700 123 456 registered" =
  "device ***redacted-phone*** registered".
Proof. vm_compute. reflexivity. Qed.
Example redact_benign : RedactFreeText "Tecno Spark 20" = "Tecno Spark 20".
Proof. vm_compute. reflexivity. Qed.
Example redact_email_long : RedactEmail "roy.wanyoike@example.com" = "ro***@redacted@example.com".
Proof. vm_compute. reflexivity. Qed.
Example redact_email_short : RedactEmail "ab@x.co" = "***@redacted@x.co".
Proof. vm_compute. reflexivity. Qed.

(** ** No control characters *)

Definition clean (l : list ascii) : bool := forallb (λ c, negb (is_control c)) l.

Lemma clean_app l l' : clean (l ++ l') = clean l && clean l'.
Proof. apply forallb_app. Qed.

Lemma clean_sublist l l' : (∀ c, c ∈ l' → c ∈ l) → clean l = true → clean l' = true.
Proof.
  unfold clean. rewrite !forallb_forall. intros S C c I. apply C, list_elem_of_In, S.
  by apply list_elem_of_In.
Qed.

Lemma clean_take n l : clean l = true → clean (take n l) = true.
Proof.
  apply clean_sublist. intros c (i & H & _)%elem_of_take. by eapply list_elem_of_lookup_2.
Qed.

Lemma clean_drop n l : clean l = true → clean (drop n l) = true.
Proof.
  apply clean_sublist. intros c (i & H)%list_elem_of_lookup_1.
  rewrite lookup_drop in H. by eapply list_elem_of_lookup_2.
Qed.

Lemma clean_replace_all fuel m repl l :
  (∀ x, clean x = true → clean (repl x) = true) →
  clean l = true → clean (replace_all fuel m repl l) = true.
Proof.
  intros R. revert l. induction fuel as [|fuel IH]; intros [|c l] C; try done.
  cbn [replace_all]. destruct (m (c :: l)) as [n|].
  - rewrite clean_app. rewrite R, IH; [done|by apply clean_drop|by apply clean_take].
  - simpl in C. apply andb_true_iff in C as [C1 C2]. simpl. by rewrite C1, IH.
Qed.

Lemma clean_replace m repl s :
  (∀ x, clean x = true → clean (repl x) = true) →
  clean (chars s) = true → clean (chars (replace m repl s)) = true.
Proof. intros R C. unfold replace. rewrite chars_of_chars. by apply clean_replace_all. Qed.

Lemma strip_suffix {A} `{EqDecision A} (p l rest : list A) : strip p l = Some rest → l = p ++ rest.
Proof.
  revert l. induction p as [|a p IH]; intros [|b l]; simpl; try naive_solver.
  case_decide; [subst|done]. intros ->%IH. done.
Qed.

Lemma strip_all_sublist fuel ps l c : c ∈ strip_all fuel ps l → c ∈ l.
Proof.
  revert l. induction fuel as [|fuel IH]; intros l; [done|]. cbn [strip_all].
  destruct (strip_any ps l) as [rest|] eqn:E; [|done]. intros I%IH.
  clear IH. induction ps as [|p ps IHp]; simpl in E; [done|].
  destruct (strip p l) eqn:S; [|by apply IHp].
  simplify_eq. apply strip_suffix in S as ->. set_solver.
Qed.

Lemma clean_TrimSpace s : clean (chars s) = true → clean (chars (TrimSpace s)) = true.
Proof.
  unfold TrimSpace. rewrite chars_of_chars. apply clean_sublist. intros c I.
  unfold trim_right in I. rewrite list_elem_of_In, <-in_rev, <-list_elem_of_In in I.
  apply strip_all_sublist in I.
  rewrite list_elem_of_In, <-in_rev, <-list_elem_of_In in I.
  by apply strip_all_sublist in I.
Qed.

Lemma chars_substring n s : chars (String.substring 0 n s) = take n (chars s).
Proof.
  revert s. induction n as [|n IH]; intros [|c s]; simpl; try done. by rewrite IH.
Qed.

Lemma clean_strip_controls s : clean (chars (strip_controls s)) = true.
Proof.
  unfold strip_controls. rewrite chars_of_chars. apply forallb_forall.
  intros c (d & <- & _)%in_map_iff. destruct (is_control d) eqn:E; [done|by rewrite E].
Qed.

(** Whatever text a client supplies, what survives redaction is at most 64
    bytes long and holds no control character: it cannot forge a log line. *)
Theorem RedactFreeText_bounded s :
  (String.length (RedactFreeText s) ≤ 64)%nat ∧
  ∀ c, c ∈ chars (RedactFreeText s) → is_control c = false.
Proof.
  split; [apply truncate_length|].
  assert (clean (chars (RedactFreeText s)) = true) as C.
  { unfold RedactFreeText. set (t := replace match_spaces _ _).
    assert (clean (chars t) = true) as Ct.
    { apply clean_replace; [done|]. apply clean_TrimSpace.
      apply clean_replace; [done|]. apply clean_replace; [|apply clean_strip_controls].
      intros x Cx. unfold mask_email. rewrite clean_app. by rewrite clean_drop. }
    unfold truncate. case_match; [|done]. rewrite chars_substring. by apply clean_take. }
  intros c I. unfold clean in C. rewrite forallb_forall in C.
  apply list_elem_of_In, C, negb_true_iff in I. done.
Qed.

(** * The application errors of the platform ([backend/platform/errors.go]) *)

Open Scope Z_scope.

Record FieldError := mkFieldError {
  fe_Field : string;
  fe_Issue : string;
}.

Record Error := mkError {
  Status : Z;
  Code : string;
  Title : string;
  Detail : string;
  FieldErrors : list FieldError;
}.

(** [Error.Error] *)
Definition Error_text (e : Error) : string :=
  if negb (String.eqb (Detail e) "") then Code e +:+ ": " +:+ Detail e else Code e.

Definition ErrValidation (detail : string) (fields : list FieldError) : Error :=
  mkError 422 "validation_failed" "The request is invalid" detail fields.
Definition ErrNotFound (detail : string) : Error :=
  mkError 404 "not_found" "Resource not found" detail [].
Definition ErrUnauthorized (detail : string) : Error :=
  mkError 401 "unauthorized" "Authentication required" detail [].
Definition ErrForbidden (detail : string) : Error :=
  mkError 403 "forbidden" "Permission denied" detail [].
Definition ErrConflict (detail : string) : Error :=
  mkError 409 "conflict" "Conflict with current state" detail [].
Definition ErrInternal : Error :=
  mkError 500 "internal_error" "An unexpected error occurred" "" [].

(** [AsError]: an application error stays itself, anything else is internal. *)
Definition AsError (app : option Error) : Error :=
  match app with Some e => e | None => ErrInternal end.

(** ** Consuming events

    [NATSPublisher.Publish] and the message handler of [Consume], over the state of the
    broker, the dedupe store and the handler of the domain. *)

(** What a message carries, and [js.PublishMsg]. *)
Record Msg := mkMsg { msg_Subject : string; msg_Data : string; msg_ID : string; msg_ContentType : string }.

(** [canceled]: [ctx.Err()]; [marshal]: [json.Marshal]. *)
Definition Publish {W payload} (canceled : option string) (marshal : Event payload → string + string)
    (publish_msg : Msg → M W string unit) (domain : string) (e : Event payload) : M W string unit :=
  match canceled with
  | Some err => throw ("publish: " +:+ err)
  | None =>
      match marshal e with
      | inl err => throw ("publish: marshal event: " +:+ err)
      | inr body => wrap (λ err, "publish " +:+ Subject domain e +:+ ": " +:+ err)
                      (publish_msg (mkMsg (Subject domain e) body (EventID e) "application/json"))
      end
  end.

Inductive disposition := Ack | Nak | Term.

Record DedupeStore (W : Type) := mkDedupeStore {
  Seen : string → M W string bool;
  MarkSeen : string → Z → M W string unit;
}.
Arguments mkDedupeStore {W}. Arguments Seen {W}. Arguments MarkSeen {W}.

Definition NoopDedupe {W} : DedupeStore W := mkDedupeStore (λ _, mret false) (λ _ _, mret tt).

Section Consume.
Context {W payload : Type}.
Context (decode : string → option (Event payload)) (dedupe : DedupeStore W) (handler : Event payload → M W string unit).

(** One message: a store that does not answer does not stop the handler, and a mark that
    is lost does not undo it. *)
Definition consume (data : string) (w : W) : disposition * W :=
  match decode data with
  | None => (Term, w)
  | Some e =>
      match Seen dedupe (EventID e) w with
      | (inr true, w) => (Ack, w)
      | (_, w) =>
          match handler e w with
          | (inl _, w) => (Nak, w)
          | (inr _, w) => (Ack, (MarkSeen dedupe (EventID e) (24 * hour) w).2)
          end
      end
  end.

Fixpoint deliver (messages : list string) (w : W) : list disposition * W :=
  match messages with
  | [] => ([], w)
  | m :: ms => let '(d, w) := consume m w in let '(ds, w) := deliver ms w in (d :: ds, w)
  end.

(** A store that answers, while no mark expires: [marked] are the marks, [handled] the
    identifiers of the events whose handler has succeeded, in order. *)
Context (marked : W → gset string) (handled : W → list string).

Record reliable : Prop := {
  rl_seen : ∀ id w, Seen dedupe id w = (inr (bool_decide (id ∈ marked w)), w);
  rl_mark : ∀ id ttl w, ∃ w', MarkSeen dedupe id ttl w = (inr tt, w') ∧
    marked w' = {[id]} ∪ marked w ∧ handled w' = handled w;
  rl_handler : ∀ e w r w', handler e w = (r, w') → marked w' = marked w ∧
    handled w' = match r with inr _ => handled w ++ [EventID e] | inl _ => handled w end;
}.

Definition marks_agree (w : W) : Prop := NoDup (handled w) ∧ ∀ id, id ∈ handled w ↔ id ∈ marked w.

Lemma consume_once data w : reliable → marks_agree w → let '(d, w') := consume data w in
  marks_agree w' ∧ (∀ id, id ∈ handled w → id ∈ handled w') ∧
  match decode data with
  | None => d = Term ∧ w' = w
  | Some e => d = Ack ∧ EventID e ∈ handled w' ∨ d = Nak ∧ handled w' = handled w ∧ EventID e ∉ handled w
  end.
Proof.
  intros [Sn Mk Hd] [N A]. unfold consume. destruct (decode data) as [e|]; [|by split_and!].
  rewrite Sn. case_bool_decide as B; [split_and!; [done|done|left; split; [done|by apply A]]|].
  destruct (handler e w) as [r w1] eqn:E. destruct (Hd _ _ _ _ E) as [M1 H1]. destruct r as [err|[]].
  - split_and!; [by split; rewrite ?H1, ?M1|by rewrite H1|right; split_and!; [done|done|by rewrite A]].
  - destruct (Mk (EventID e) (24 * hour)%Z w1) as (w2 & -> & M2 & H2). cbn [snd]. unfold marks_agree. rewrite M2, H2, M1, H1.
    split_and!.
    + apply list.NoDup_app. split_and!; [done|set_solver|apply list.NoDup_singleton].
    + set_solver.
    + set_solver.
    + left. split; [done|]. set_solver.
Qed.

(** Whatever is delivered and redelivered in whatever order, the handler succeeds at most
    once for each event, and an event whose message is acknowledged has been handled:
    nothing is lost, and nothing is repeated but failed attempts. *)
Theorem delivered_once messages w : reliable → marks_agree w → let '(ds, w') := deliver messages w in
  NoDup (handled w') ∧ length ds = length messages ∧
  ∀ k data e, messages !! k = Some data → decode data = Some e → ds !! k = Some Ack → EventID e ∈ handled w'.
Proof.
  intros Rl. enough (G : marks_agree w → let '(ds, w') := deliver messages w in
    marks_agree w' ∧ (∀ id, id ∈ handled w → id ∈ handled w') ∧ length ds = length messages ∧
    ∀ k data e, messages !! k = Some data → decode data = Some e → ds !! k = Some Ack → EventID e ∈ handled w').
  { intros C. specialize (G C). destruct (deliver messages w) as [ds w']. by destruct G as ([? _] & _ & ? & ?). }
  revert w. induction messages as [|m ms IH]; intros w C; [by split_and!|]. cbn [deliver].
  pose proof (consume_once m w Rl C) as O. destruct (consume m w) as [d w1]. destruct O as (C1 & K1 & O).
  specialize (IH w1 C1). destruct (deliver ms w1) as [ds w2]. destruct IH as (C2 & K2 & L & A).
  split_and!; [done|auto|cbn; by rewrite L|]. intros [|k] data e; cbn; [|by apply A].
  intros [= ->] D [= ->]. rewrite D in O. destruct O as [[_ ?]|[[=] _]]. auto.
Qed.

End Consume.

(** Three deliveries of one event, the handler failing the first time, and a malformed one. *)
Definition demo_dedupe : DedupeStore (gset string * list string * nat) :=
  mkDedupeStore (λ id w, (inr (bool_decide (id ∈ w.1.1)), w)) (λ id _ w, (inr tt, ({[id]} ∪ w.1.1, w.1.2, w.2))).
Definition demo_handler (e : Event unit) : M (gset string * list string * nat) string unit := λ w,
  match w.2 with
  | O => (inl "not yet", (w.1, 1%nat))
  | S n => (inr tt, (w.1.1, w.1.2 ++ [EventID e], S n))
  end.
Definition demo_decode (data : string) : option (Event unit) :=
  if String.eqb data "" then None else Some (mkEvent data "job.created.v1" SchemaVersion "job" "" "" 0%Z "" "" tt).

Example redeliveries : deliver demo_decode demo_dedupe demo_handler ["e1"; ""; "e1"; "e1"] (∅, [], 0%nat) =
  ([Nak; Term; Ack; Ack], ({["e1"]}, ["e1"], 1%nat)).
Proof. vm_compute. reflexivity. Qed.

Theorem delivered_once_witness :
  NoDup (deliver demo_decode demo_dedupe demo_handler ["e1"; ""; "e1"; "e1"] (∅, [], 0%nat)).2.1.2.
Proof.
  pose proof (delivered_once demo_decode demo_dedupe demo_handler (λ w, w.1.1) (λ w, w.1.2)
    ["e1"; ""; "e1"; "e1"] (∅, [], 0%nat)) as D.
  destruct (deliver _ _ _ _ _) as [ds w']. apply D.
  - split.
    + intros id w. reflexivity.
    + intros id ttl w. eexists. split; [reflexivity|]. split; reflexivity.
    + intros e [[m h] [|n]] r w2 E; injection E as <- <-; split; reflexivity.
  - split; [by apply list.NoDup_nil|]. intros id. split; intros E; [inversion E|by apply elem_of_empty in E].
Defined.
