(* ===== verification/Sql.v ===== *)
(** * Sql: the fragment of SQL the stores assemble by hand

    The stores build WHERE clauses from strings and argument slices at run
    time. A clause is an abstract condition over named columns and numbered
    placeholders; the arguments are a list of values; a row is an environment
    from column names to values. NULL is equal to nothing, as in SQL. The
    placeholder numbers matter: the driver refuses a query whose arguments do
    not match its placeholders. The second part is about pages after a key. *)

From S2P Require Import Prelude.

Inductive value :=
  | VNull
  | VUuid (u : uuid)
  | VText (s : string)
  | VInt (z : Z).

#[export] Instance value_eq_dec : EqDecision value.
Proof. solve_decision. Defined.

(** A nullable uuid column or argument. *)
Definition of_uuid (o : option uuid) : value :=
  match o with Some u => VUuid u | None => VNull end.

(** [=] of SQL in a WHERE clause: never true on NULL. *)
Definition sql_eq (a b : value) : bool :=
  match a, b with
  | VNull, _ | _, VNull => false
  | _, _ => bool_decide (a = b)
  end.

Abbreviation env := (string → value) (only parsing).

Inductive cond :=
  | CTrue                              (* TRUE *)
  | CFalse                             (* 1 = 0 *)
  | CEq (column : string) (n : nat)    (* column = $n *)
  | CIsNull (column : string)          (* column IS NULL *)
  | COr (c d : cond)
  | CAnd (c d : cond)
  | CExists (c : cond).                (* EXISTS (SELECT 1 FROM <parent> WHERE <joined> AND c) *)

(** [$n] is the [n]-th argument, counting from 1. *)
Definition arg (args : list value) (n : nat) : value :=
  match args !! pred n with Some v => v | None => VNull end.

Fixpoint eval (parent : option env) (args : list value) (row : env) (c : cond) : bool :=
  match c with
  | CTrue => true
  | CFalse => false
  | CEq column n => sql_eq (row column) (arg args n)
  | CIsNull column => bool_decide (row column = VNull)
  | COr c d => eval parent args row c || eval parent args row d
  | CAnd c d => eval parent args row c && eval parent args row d
  | CExists c =>
      match parent with
      | Some row' => eval None args row' c
      | None => false
      end
  end.

(** The placeholders a condition mentions. *)
Fixpoint placeholders (c : cond) : list nat :=
  match c with
  | CTrue | CFalse | CIsNull _ => []
  | CEq _ n => [n]
  | COr c d | CAnd c d => placeholders c ++ placeholders d
  | CExists c => placeholders c
  end.

(** [where += " AND " + pred] when there is a predicate. *)
Definition and_pred (c : cond) (pred : option cond) : cond :=
  match pred with Some d => CAnd c d | None => c end.

Lemma sql_eq_uuid o u : sql_eq (of_uuid o) (VUuid u) = bool_decide (o = Some u).
Proof.
  destruct o as [v|]; simpl; [apply bool_decide_ext; naive_solver|done].
Qed.

Lemma sql_eq_VUuid u v : sql_eq (VUuid u) (VUuid v) = bool_decide (u = v).
Proof. simpl. apply bool_decide_ext. naive_solver. Qed.

Lemma sql_eq_refl v : v ≠ VNull → sql_eq v v = true.
Proof. destruct v; [done|..]; intros _; by apply bool_decide_eq_true. Qed.

Lemma arg_app before v after :
  arg (before ++ v :: after) (S (length before)) = v.
Proof. unfold arg. simpl. by rewrite list_lookup_middle. Qed.

(** ** Building a query *)

(** [if i.ID == uuid.Nil { i.ID = uuid.New() }] *)
Definition assign_id (id fresh : uuid) : uuid :=
  if bool_decide (id = uuid_nil) then fresh else id.

(** [args = append(args, *v); where += " AND col = $len(args)"] *)
Definition add_filter (column : string) (v : option value) (q : cond * list value)
    : cond * list value :=
  match v with
  | Some v => let args := q.2 ++ [v] in (CAnd q.1 (CEq column (length args)), args)
  | None => q
  end.

Definition clamp_limit (default cap limit : Z) : Z :=
  let limit := if (limit <=? 0)%Z then default else limit in
  if (limit >? cap)%Z then cap else limit.

Definition clamp_offset (offset : Z) : Z := if (offset <? 0)%Z then 0 else offset.

(** ** The driver

    pgx and the PostgreSQL server are not part of the program. The model leaves
    two of their behaviours open: what scanning NULL into a Go [string] gives
    ([None]: an error), and which combinations of used placeholders and argument
    counts are accepted. What the code relies on is that a query that uses
    exactly the placeholders 1 to n is accepted with n arguments. *)
Class Driver := {
  null_text : option string;
  accepts : list nat → nat → bool;
  accepts_exact : ∀ used n,
    (∀ k, k ∈ used ↔ (1 ≤ k ≤ n)%nat) → accepts used n = true;
}.

(** ORDER BY leaves the order of rows that compare equal to the server. *)
Class RowOrder (row : Type) := {
  row_order : list row → list row;
  row_order_perm : ∀ l, row_order l ≡ₚ l;
}.

Definition insertion_order {row} : RowOrder row.
Proof. by refine {| row_order l := l |}. Defined.

(** The documented behaviour of pgx v5: NULL is not scanned into [*string]
    ("cannot scan NULL into *string"), the number of arguments must be the
    number of parameters of the prepared statement, and the server refuses a
    parameter whose type it cannot infer because nothing uses it. *)
Definition pgx : Driver.
Proof.
  refine {| null_text := None;
            accepts used n :=
              forallb (λ k, bool_decide (k ∈ used)) (seq 1 n) &&
              forallb (λ k, (1 <=? k) && (k <=? n))%nat used |}.
  intros used n H. apply andb_true_iff. rewrite !forallb_forall. split.
  - intros k Hk%in_seq. apply bool_decide_eq_true, H. lia.
  - intros k Hk%list_elem_of_In%H. apply andb_true_iff.
    rewrite !Nat.leb_le. lia.
Defined.

(** A driver refuses a query that skips a placeholder. *)
Lemma pgx_refuses used n k :
  (1 ≤ k ≤ n)%nat → k ∉ used → accepts (Driver:=pgx) used n = false.
Proof.
  intros K N. apply not_true_is_false. cbn [accepts pgx].
  rewrite andb_true_iff, !forallb_forall. intros [U _].
  assert (In k (seq 1 n)) as I by (apply in_seq; lia).
  apply N. by apply U, bool_decide_eq_true in I.
Qed.

(** A driver that reads NULL as the empty string, as [COALESCE] would. *)
Definition lenient : Driver.
Proof.
  refine {| null_text := Some "";
            accepts used n := forallb (λ k, (1 <=? k) && (k <=? n))%nat used |}.
  intros used n H. apply forallb_forall. intros k Hk%list_elem_of_In%H.
  apply andb_true_iff. rewrite !Nat.leb_le. lia.
Defined.

(** Scanning a nullable text column into a Go [string]. *)
Definition scan_text `{Driver} (c : option string) : option string :=
  match c with Some s => Some s | None => null_text end.

Lemma scan_text_Some `{Driver} s : scan_text (Some s) = Some s.
Proof. done. Qed.

(** [NULLIF(x, '')] *)
Definition nullif_empty (s : string) : option string :=
  if String.eqb s "" then None else Some s.

(** [COALESCE(x, y)] *)
Definition coalesce (x y : option string) : option string :=
  match x with Some s => Some s | None => y end.

(** An unqualified column of a SELECT list is ambiguous, and the query is
    refused, when two relations of its FROM clause have a column of that name. *)
Definition ambiguous (columns : list string) (relations : list (list string)) : bool :=
  existsb (λ c, 1 <? length (List.filter (existsb (String.eqb c)) relations))%nat columns.

(** ORDER BY ... DESC on a timestamp, ties broken by identifier. *)
Definition newest_first {R} (created : R → time) (id : R → uuid) (a b : R) : Prop :=
  (created b < created a)%Z ∨ created a = created b ∧ (id b ≤ id a)%N.
Definition oldest_first {R} (created : R → time) (id : R → uuid) (a b : R) : Prop :=
  (created a < created b)%Z ∨ created a = created b ∧ (id a ≤ id b)%N.

#[export] Instance newest_first_dec {R} created id (a b : R) :
  Decision (newest_first created id a b).
Proof. unfold newest_first. apply _. Defined.
#[export] Instance oldest_first_dec {R} created id (a b : R) :
  Decision (oldest_first created id a b).
Proof. unfold oldest_first. apply _. Defined.
#[export] Instance newest_first_total {R} (created : R → time) id :
  Total (newest_first created id).
Proof. intros a b. unfold newest_first. lia. Qed.
#[export] Instance oldest_first_total {R} (created : R → time) id :
  Total (oldest_first created id).
Proof. intros a b. unfold oldest_first. lia. Qed.
#[export] Instance newest_first_trans {R} (created : R → time) id :
  Transitive (newest_first created id).
Proof. intros a b c. unfold newest_first. lia. Qed.
#[export] Instance oldest_first_trans {R} (created : R → time) id :
  Transitive (oldest_first created id).
Proof. intros a b c. unfold oldest_first. lia. Qed.

(** LIMIT and OFFSET. *)
Definition page {R} (limit offset : Z) (rows : list R) : list R :=
  take (Z.to_nat limit) (drop (Z.to_nat offset) rows).

Lemma page_subseteq {R} limit offset (rows : list R) : page limit offset rows ⊆ rows.
Proof.
  unfold page. intros x H%elem_of_take. destruct H as (i & H & _).
  rewrite lookup_drop in H. eapply list_elem_of_lookup_2; eauto.
Qed.

Lemma page_length {R} limit offset (rows : list R) :
  (length (page limit offset rows) ≤ Z.to_nat limit)%nat.
Proof. unfold page. rewrite length_take. lia. Qed.

(** ** The rows of a table *)

Lemma map_rows {R} (m : gmap uuid R) x : x ∈ (map_to_list m).*2 ↔ ∃ id, m !! id = Some x.
Proof.
  rewrite list_elem_of_fmap. split.
  - intros ([id y] & -> & I%elem_of_map_to_list). by exists id.
  - intros (id & L). exists (id, x). by rewrite elem_of_map_to_list.
Qed.

Lemma filter_ext_elem {A} (p q : A → bool) l :
  (∀ x, x ∈ l → p x = q x) → List.filter p l = List.filter q l.
Proof.
  intros E. apply List.filter_ext_in. intros x I. apply E. by apply list_elem_of_In.
Qed.

Lemma filter_none {A} (p : A → bool) l : (∀ x, x ∈ l → p x = false) → List.filter p l = [].
Proof.
  induction l as [|x l IH]; [done|]. intros F. simpl. rewrite F by set_solver.
  apply IH. set_solver.
Qed.

Lemma filter_filter_and {A} (p q : A → bool) l :
  List.filter p (List.filter q l) = List.filter (λ x, p x && q x) l.
Proof.
  induction l as [|x l IH]; [done|]. simpl. destruct (q x); simpl; rewrite ?andb_true_r, ?andb_false_r.
  - by destruct (p x); rewrite IH.
  - done.
Qed.

(** * Pages after a key

    Rows listed newest first, ties broken by identifier, and the rows strictly after a
    position [(created, id)]: following the last row of each page visits every row once. *)

Open Scope Z_scope.

Section Keyset.
Context {R : Type} (created : R → time) (id : R → uuid).

Abbreviation order := (newest_first created id) (only parsing).

(** [(created, id) < ($n, $m)] *)
Definition after (at_ : time) (i : uuid) (x : R) : bool :=
  (created x <? at_) || (created x =? at_) && (id x <? i)%N.

(** The key tells the rows apart. *)
Definition keyed (rows : list R) : Prop :=
  ∀ x y, x ∈ rows → y ∈ rows → created x = created y → id x = id y → x = y.

Lemma order_antisym rows x y : keyed rows → x ∈ rows → y ∈ rows → order x y → order y x → x = y.
Proof. unfold newest_first. intros K X Y A B. apply K; [done..|lia|lia]. Qed.

Lemma after_order x y : after (created x) (id x) y = true ↔ order x y ∧ ¬ order y x.
Proof.
  unfold after, newest_first. rewrite orb_true_iff, andb_true_iff, Z.ltb_lt, Z.eqb_eq, N.ltb_lt. lia.
Qed.

Lemma StronglySorted_List_filter (Q : relation R) (p : R → bool) l :
  StronglySorted Q l → StronglySorted Q (List.filter p l).
Proof.
  induction 1 as [|x l S IH F]; simpl; [constructor|]. destruct (p x); [|done].
  constructor; [done|]. rewrite list.Forall_forall in F |- *. intros y I. apply F.
  apply list_elem_of_In, List.filter_In in I as [I _]. by apply list_elem_of_In.
Qed.

Lemma filter_Permutation (p : R → bool) l l' : l ≡ₚ l' → List.filter p l ≡ₚ List.filter p l'.
Proof.
  induction 1 as [|x l l' P IH|x y l|l1 l2 l3 P1 IH1 P2 IH2]; simpl; [done| | |by etrans].
  - destruct (p x); [by rewrite IH|done].
  - destruct (p x), (p y); (done || constructor).
Qed.

(** Selecting and sorting commute. *)
Lemma sort_filter (p : R → bool) rows : keyed rows →
  merge_sort order (List.filter p rows) = List.filter p (merge_sort order rows).
Proof.
  intros K. apply (StronglySorted_unique_strong order).
  - assert (∀ x, x ∈ List.filter p rows → x ∈ rows) as Sub.
    { intros x I. apply list_elem_of_In in I. apply List.filter_In in I as [I _]. by apply list_elem_of_In. }
    intros x y. rewrite merge_sort_Permutation.
    rewrite (filter_Permutation p _ _ (merge_sort_Permutation order rows)).
    intros X Y. apply (order_antisym rows); auto.
  - apply StronglySorted_merge_sort; apply _.
  - apply StronglySorted_List_filter, StronglySorted_merge_sort; apply _.
  - rewrite merge_sort_Permutation. symmetry. apply filter_Permutation, merge_sort_Permutation.
Qed.

(** The rows after a row of the sorted list are its tail. *)
Lemma after_tail rows front x rest : keyed rows → NoDup rows →
  merge_sort order rows = front ++ x :: rest →
  List.filter (after (created x) (id x)) (merge_sort order rows) = rest.
Proof.
  intros K Nd E.
  assert (StronglySorted order (front ++ x :: rest)) as S
    by (rewrite <-E; apply StronglySorted_merge_sort; apply _).
  assert (NoDup (front ++ x :: rest)) as Nd' by (rewrite <-E; by rewrite merge_sort_Permutation).
  assert (∀ y, y ∈ front ++ x :: rest → y ∈ rows) as Sub
    by (intros y; rewrite <-E; by rewrite merge_sort_Permutation).
  apply list.NoDup_app in Nd' as (_ & Dis & Nd'). apply list.NoDup_cons in Nd' as [Nx _].
  apply StronglySorted_app in S as (Before & _ & S). apply StronglySorted_cons in S as [After _].
  rewrite list.Forall_forall in After.
  rewrite E, List.filter_app. simpl.
  assert (after (created x) (id x) x = false) as ->.
  { apply not_true_iff_false. rewrite after_order. tauto. }
  rewrite filter_none.
  - simpl. rewrite (filter_ext_elem _ (λ _, true)).
    + clear. induction rest as [|y rest IH]; [done|]. simpl. by rewrite IH.
    + intros y I. apply after_order. split; [by apply After|]. intros O.
      assert (x = y) as ->; [|done].
      apply (order_antisym rows); [done|apply Sub; set_solver..|by apply After|done].
  - intros y I. apply not_true_iff_false. rewrite after_order. intros [_ N]. apply N.
    apply Before; set_solver.
Qed.

End Keyset.
