(* ===== verification/Money.v ===== *)
(** * Money: the integer ledger arithmetic of [backend/payments/money.go]

    An amount is an int64 count of KES minor units. [NewMoney], [Validate],
    [Add], [Subtract], [EqualSameCurrency] and [String] are the functions of
    the source; int64 operations are written with their wrap-around, and the
    theorems show that on legal operands none of them ever wraps. *)

From S2P Require Import Prelude.

Open Scope Z_scope.

Definition CurrencyKES : string := "KES".

Record Money := mkMoney { AmountMinor : Z; Currency : string }.

#[global] Instance Money_eq_dec : EqDecision Money.
Proof. solve_decision. Defined.

(** One constructor per [fmt.Errorf] of the file. *)
Inductive MoneyError :=
  | UnsupportedCurrency (c : string)
  | NotPositive (n : Z)
  | LeftOperand (e : MoneyError)
  | RightOperand (e : MoneyError)
  | CrossCurrency (a b : string)
  | Overflows (a b : Z)
  | WouldGoNegative (a b : Z)
  | WouldBeZero (a b : Z).

(** [Validate] returns the error it reports, if any. *)
Definition Validate (m : Money) : option MoneyError :=
  if negb (String.eqb (Currency m) CurrencyKES)
  then Some (UnsupportedCurrency (Currency m))
  else if AmountMinor m <=? 0 then Some (NotPositive (AmountMinor m))
  else None.

Definition NewMoney (amountMinor : Z) (currency : string) : MoneyError + Money :=
  let m := mkMoney amountMinor currency in
  match Validate m with
  | Some err => inl err
  | None => inr m
  end.

Definition Add (a b : Money) : MoneyError + Money :=
  match Validate a with Some err => inl (LeftOperand err) | None =>
  match Validate b with Some err => inl (RightOperand err) | None =>
  if negb (String.eqb (Currency a) (Currency b))
  then inl (CrossCurrency (Currency a) (Currency b))
  else if AmountMinor a >? int64 (max_int64 - AmountMinor b)
  then inl (Overflows (AmountMinor a) (AmountMinor b))
  else inr (mkMoney (int64 (AmountMinor a + AmountMinor b)) (Currency a))
  end end.

Definition Subtract (a b : Money) : MoneyError + Money :=
  match Validate a with Some err => inl (LeftOperand err) | None =>
  match Validate b with Some err => inl (RightOperand err) | None =>
  if negb (String.eqb (Currency a) (Currency b))
  then inl (CrossCurrency (Currency b) (Currency a))
  else if AmountMinor b >? AmountMinor a
  then inl (WouldGoNegative (AmountMinor a) (AmountMinor b))
  else if AmountMinor b =? AmountMinor a
  then inl (WouldBeZero (AmountMinor a) (AmountMinor b))
  else inr (mkMoney (int64 (AmountMinor a - AmountMinor b)) (Currency a))
  end end.

Definition EqualSameCurrency (a b : Money) : bool :=
  (AmountMinor a =? AmountMinor b) && String.eqb (Currency a) (Currency b).

(** [%02d]: at least two characters, padded with zeros after the sign. *)
Definition fmt_02d (z : Z) : string :=
  if (0 <=? z) && (z <? 10) then "0" +:+ pretty z else pretty z.

(** Go's [/] and [%] truncate towards zero; [-m.AmountMinor] wraps at the
    smallest int64. *)
Definition Money_String (m : Money) : string :=
  if String.eqb (Currency m) "" then pretty (AmountMinor m)
  else if AmountMinor m <? 0
  then Currency m +:+ " -" +:+
       pretty (Z.quot (int64 (- AmountMinor m)) 100) +:+ "." +:+
       fmt_02d (Z.rem (int64 (- AmountMinor m)) 100)
  else Currency m +:+ " " +:+ pretty (Z.quot (AmountMinor m) 100) +:+ "." +:+
       fmt_02d (Z.rem (AmountMinor m) 100).

(** ** Legal amounts *)

(** What [Validate] accepts, on an int64 amount. *)
Definition legal (m : Money) : Prop :=
  Currency m = CurrencyKES ∧ 0 < AmountMinor m ≤ max_int64.

#[global] Instance legal_dec m : Decision (legal m).
Proof. unfold legal. apply _. Defined.

Lemma Validate_None m :
  Validate m = None ↔ Currency m = CurrencyKES ∧ 0 < AmountMinor m.
Proof.
  unfold Validate. destruct (String.eqb_spec (Currency m) CurrencyKES); simpl.
  - destruct (Z.leb_spec (AmountMinor m) 0); naive_solver lia.
  - naive_solver.
Qed.

Lemma Validate_legal m : in_int64 (AmountMinor m) → Validate m = None ↔ legal m.
Proof.
  rewrite Validate_None. unfold legal, in_int64, max_int64. naive_solver lia.
Qed.

Lemma legal_Validate m : legal m → Validate m = None.
Proof. rewrite Validate_None. unfold legal. naive_solver lia. Qed.

Lemma legal_int64 m : legal m → in_int64 (AmountMinor m).
Proof. unfold legal, in_int64, min_int64, max_int64. lia. Qed.

Lemma NewMoney_inv n c m :
  NewMoney n c = inr m → m = mkMoney n c ∧ c = CurrencyKES ∧ 0 < n.
Proof.
  unfold NewMoney. destruct (Validate (mkMoney n c)) eqn:V; [done|].
  apply Validate_None in V. naive_solver.
Qed.

Lemma Add_legal a b : legal a → legal b →
  Add a b = if decide (AmountMinor a + AmountMinor b ≤ max_int64)
            then inr (mkMoney (AmountMinor a + AmountMinor b) CurrencyKES)
            else inl (Overflows (AmountMinor a) (AmountMinor b)).
Proof.
  intros La Lb. unfold Add. rewrite !legal_Validate by done.
  destruct La as [Ca Ha], Lb as [Cb Hb]. rewrite Ca, Cb.
  change (String.eqb CurrencyKES CurrencyKES) with true; cbn [negb].
  rewrite (int64_id (max_int64 - _)) by
    (unfold in_int64, min_int64, max_int64 in *; lia).
  destruct (Z.gtb_spec (AmountMinor a) (max_int64 - AmountMinor b)).
  - rewrite decide_False by lia. done.
  - rewrite decide_True by lia.
    rewrite int64_id; [done|unfold in_int64, min_int64; lia].
Qed.

Lemma Subtract_legal a b : legal a → legal b → AmountMinor b < AmountMinor a →
  Subtract a b = inr (mkMoney (AmountMinor a - AmountMinor b) CurrencyKES).
Proof.
  intros La Lb Lt. unfold Subtract. rewrite !legal_Validate by done.
  destruct La as [Ca Ha], Lb as [Cb Hb]. rewrite Ca, Cb.
  change (String.eqb CurrencyKES CurrencyKES) with true; cbn [negb].
  destruct (Z.gtb_spec (AmountMinor b) (AmountMinor a)); [lia|].
  destruct (Z.eqb_spec (AmountMinor b) (AmountMinor a)); [lia|].
  rewrite int64_id; [done|unfold in_int64, min_int64, max_int64 in *; lia].
Qed.

Lemma EqualSameCurrency_spec a b : EqualSameCurrency a b = true ↔ a = b.
Proof.
  unfold EqualSameCurrency. rewrite andb_true_iff, Z.eqb_eq, String.eqb_eq.
  destruct a, b; naive_solver.
Qed.

(** ** Rendering *)

Lemma string_app_length s t : blen (s +:+ t) = (blen s + blen t)%nat.
Proof. induction s as [|c s IH]; [done|]. simpl. by rewrite IH. Qed.

Lemma string_app_inj_tail s s' t t' :
  s +:+ t = s' +:+ t' → blen t = blen t' → s = s' ∧ t = t'.
Proof.
  intros E L.
  assert (blen s = blen s') as Ls.
  { apply (f_equal String.length) in E. rewrite !string_app_length in E. lia. }
  clear L. revert s' Ls E.
  induction s as [|c s IH]; intros [|c' s'] Ls E; simplify_eq/=; [done|].
  destruct (IH s') as [-> ->]; auto.
Qed.

(** A property of the two-digit numbers, by enumeration. *)
Lemma two_digits_ind (P : Z → bool) :
  forallb P (map Z.of_nat (seq 0 100)) = true → ∀ r, 0 ≤ r < 100 → P r = true.
Proof.
  intros H r Hr. rewrite forallb_forall in H. apply H.
  rewrite in_map_iff. exists (Z.to_nat r). rewrite in_seq. lia.
Qed.

Lemma fmt_02d_length r : 0 ≤ r < 100 → blen (fmt_02d r) = 2%nat.
Proof.
  intros Hr. apply Nat.eqb_eq.
  apply (two_digits_ind (λ r, (blen (fmt_02d r) =? 2)%nat)); [|done].
  by vm_compute.
Qed.

Lemma fmt_02d_inj r r' : 0 ≤ r < 100 → 0 ≤ r' < 100 → fmt_02d r = fmt_02d r' → r = r'.
Proof.
  intros Hr Hr' E.
  assert (forallb (λ a, forallb (λ b,
            negb (String.eqb (fmt_02d a) (fmt_02d b)) || (a =? b))
            (map Z.of_nat (seq 0 100))) (map Z.of_nat (seq 0 100)) = true) as T
    by by vm_compute.
  pose proof (two_digits_ind _ T r Hr) as T1; cbv beta in T1.
  pose proof (two_digits_ind _ T1 r' Hr') as T2; cbv beta in T2.
  rewrite E, String.eqb_refl in T2. simpl in T2. lia.
Qed.

Lemma Money_String_legal m : legal m →
  Money_String m = "KES " +:+ pretty (AmountMinor m `div` 100) +:+ "." +:+
                   fmt_02d (AmountMinor m `mod` 100).
Proof.
  intros [C H]. unfold Money_String. rewrite C.
  destruct (Z.ltb_spec (AmountMinor m) 0); [lia|].
  rewrite Z.quot_div_nonneg, Z.rem_mod_nonneg by lia. done.
Qed.

(** ** Properties *)

(** The sums [Add] returns. *)
Lemma Add_inr (a b m : Money)
    (Ha : in_int64 (AmountMinor a)) (Hb : in_int64 (AmountMinor b)) :
  Add a b = inr m ↔
    legal a ∧ legal b ∧ legal m ∧ AmountMinor m = AmountMinor a + AmountMinor b.
Proof.
  split.
  - intros E. assert (legal a ∧ legal b) as [La Lb].
    { unfold Add in E. rewrite <-!Validate_legal by done.
      destruct (Validate a), (Validate b); done. }
    rewrite Add_legal in E by done. case_decide; simplify_eq.
    unfold legal in *. simpl. naive_solver lia.
  - intros (La & Lb & [Cm Hm] & E). rewrite Add_legal by done.
    rewrite decide_True by lia. destruct m. simpl in *. congruence.
Qed.

(** [Add] succeeds exactly on two legal amounts whose sum is an int64,
    its result is then the exact mathematical sum (nothing wrapped) and is
    itself a legal amount. *)
Theorem Add_exact (a b m : Money)
    (Ha : in_int64 (AmountMinor a)) (Hb : in_int64 (AmountMinor b)) :
  Add a b = inr m ↔
    legal a ∧ legal b ∧ legal m ∧ AmountMinor m = AmountMinor a + AmountMinor b.
Proof. by apply Add_inr. Qed.

Lemma Add_exact_witness :
  Add (mkMoney 250 "KES") (mkMoney 50 "KES") = inr (mkMoney 300 "KES").
Proof.
  apply (Add_exact (mkMoney 250 "KES") (mkMoney 50 "KES") (mkMoney 300 "KES"));
    [vm_compute; split; discriminate|vm_compute; split; discriminate|].
  unfold legal; simpl; unfold max_int64; repeat split; lia.
Defined.

(** [Subtract] undoes [Add], and [Add] undoes [Subtract]: a refund of
    what was added gives the original amount back, with no rounding. *)
Theorem Subtract_Add_inverse (a b c : Money)
    (Ha : in_int64 (AmountMinor a)) (Hb : in_int64 (AmountMinor b))
    (Hc : in_int64 (AmountMinor c)) :
  Add a b = inr c ↔ Subtract c b = inr a.
Proof.
  split.
  - intros E. apply Add_inr in E as (La & Lb & Lc & E); [|done..].
    rewrite Subtract_legal by (done || unfold legal in *; lia).
    f_equal. destruct a; unfold legal in *; simpl in *.
    f_equal; [lia|intuition congruence].
  - intros E.
    assert (legal c ∧ legal b ∧ AmountMinor b < AmountMinor c) as (Lc & Lb & Lt).
    { unfold Subtract in E. rewrite <-!Validate_legal by done.
      destruct (Validate c), (Validate b); [done..|].
      destruct (negb _); [done|].
      destruct (Z.gtb_spec (AmountMinor b) (AmountMinor c)); [done|].
      destruct (Z.eqb_spec (AmountMinor b) (AmountMinor c)); [done|].
      repeat split; lia. }
    rewrite Subtract_legal in E by done. simplify_eq.
    apply Add_inr; simpl; [done..|].
    unfold legal in *; simpl in *. repeat split; intuition lia.
Qed.

Lemma Subtract_Add_inverse_witness :
  Subtract (mkMoney 300 "KES") (mkMoney 50 "KES") = inr (mkMoney 250 "KES").
Proof.
  apply (Subtract_Add_inverse (mkMoney 250 "KES") (mkMoney 50 "KES")
           (mkMoney 300 "KES"));
    vm_compute; try reflexivity; split; discriminate.
Defined.

(** Two legal amounts never render to the same text: a log line or an
    error message determines the amount to the cent. *)
Theorem Money_String_inj (a b : Money) (La : legal a) (Lb : legal b) :
  Money_String a = Money_String b → a = b.
Proof.
  intros E. rewrite !Money_String_legal in E by done.
  pose proof (Z.mod_pos_bound (AmountMinor a) 100).
  pose proof (Z.mod_pos_bound (AmountMinor b) 100).
  apply (inj (String.append "KES ")) in E.
  destruct (string_app_inj_tail _ _ _ _ E) as [E1 E2].
  { rewrite !string_app_length, !fmt_02d_length by lia. done. }
  apply (inj pretty) in E1. apply (inj (String.append ".")) in E2. apply fmt_02d_inj in E2; [|lia..].
  pose proof (Z.div_mod (AmountMinor a) 100).
  pose proof (Z.div_mod (AmountMinor b) 100).
  destruct a, b, La, Lb. simpl in *. f_equal; [lia|congruence].
Qed.

Lemma Money_String_inj_witness :
  Money_String (mkMoney 12345 "KES") = "KES 123.45" ∧
  (Money_String (mkMoney 12345 "KES") = Money_String (mkMoney 12345 "KES") →
   mkMoney 12345 "KES" = mkMoney 12345 "KES").
Proof.
  split; [by vm_compute|].
  apply (Money_String_inj (mkMoney 12345 "KES") (mkMoney 12345 "KES"));
    unfold legal; simpl; unfold max_int64; repeat split; lia.
Defined.
