(* ===== verification/Wire.v ===== *)
(** * Wire: text formats of the Go standard library

    [time.Format] with the layout [RFC3339Nano] in UTC, the strings and times of
    [encoding/json], [strings.Join]. The theorems are what hashing and comparing
    such texts relies on: formatting a time loses nothing, joining lines can be
    undone. *)

From Stdlib Require Import Ascii.
From S2P Require Import Prelude Text Money.

Open Scope Z_scope.

(** ** strings.Join *)

Fixpoint join (sep : ascii) (parts : list string) : string :=
  match parts with
  | [] => ""
  | [part] => part
  | part :: parts => part +:+ String sep (join sep parts)
  end.

Lemma split_join sep parts :
  parts ≠ [] → Forall (absent sep) parts → split sep (join sep parts) = parts.
Proof.
  intros N F. induction F as [|p parts A F IH]; [done|].
  destruct parts as [|q parts]; [by apply split_absent|].
  change (join sep (p :: q :: parts)) with (p +:+ String sep (join sep (q :: parts))).
  rewrite split_app by done. f_equal. by apply IH.
Qed.

(** Joined lines determine the lines. *)
Lemma join_inj sep l l' :
  l ≠ [] → l' ≠ [] → Forall (absent sep) l → Forall (absent sep) l' →
  join sep l = join sep l' → l = l'.
Proof.
  intros N N' F F' E. by rewrite <-(split_join sep l), <-(split_join sep l'), E.
Qed.

Lemma absent_app sep s t : absent sep (s +:+ t) ↔ absent sep s ∧ absent sep t.
Proof. unfold absent. rewrite chars_app, not_elem_of_app. done. Qed.

Lemma absent_cons sep c s : absent sep (String c s) ↔ c ≠ sep ∧ absent sep s.
Proof. unfold absent. simpl. rewrite not_elem_of_cons. intuition congruence. Qed.

Lemma absent_join sep c l : c ≠ sep → Forall (absent sep) l → absent sep (join c l).
Proof.
  intros N F. induction F as [|p l A F IH]; [unfold absent; simpl; set_solver|].
  destruct l as [|q l]; [done|].
  change (join c (p :: q :: l)) with (p +:+ String c (join c (q :: l))).
  by rewrite absent_app, absent_cons.
Qed.

Lemma absent_class sep s (P : ascii → Prop) :
  Forall P (chars s) → ¬ P sep → absent sep s.
Proof. intros F N I. rewrite list.Forall_forall in F. by apply N, F. Qed.

(** A text free of [sep], as a test. *)
Definition free_of (sep : ascii) (s : string) : bool :=
  forallb (λ c, negb (Ascii.eqb c sep)) (chars s).

Lemma free_of_absent sep s : free_of sep s = true → absent sep s.
Proof.
  unfold free_of, absent. rewrite forallb_forall. intros F I.
  apply list_elem_of_In, F in I. by rewrite Ascii.eqb_refl in I.
Qed.

Lemma string_app_inj_head s s' t t' :
  s +:+ t = s' +:+ t' → blen s = blen s' → s = s' ∧ t = t'.
Proof.
  intros E L. apply string_app_inj_tail; [done|].
  apply (f_equal String.length) in E. rewrite !string_app_length in E. lia.
Qed.

(** ** The civil date of an instant

    Days are counted from 0000-03-01, so that a leap day ends its year; an era is
    400 years. *)
Definition day : Z := 24 * hour.

Record date := mkDate { year : Z; month : Z; dom : Z }.

(** The year of a day of an era and the day in it, by centuries, groups of four
    years and years; the last of each may be a day longer. *)
Definition year_and_day (doe : Z) : Z * Z :=
  let c := Z.min 3 (doe / 36524) in
  let doc := doe - 36524 * c in
  let q := doc / 1461 in
  let doq := doc - 1461 * q in
  let y := Z.min 3 (doq / 365) in
  (100 * c + 4 * q + y, doq - 365 * y).

Definition civil (days : Z) : date :=
  let z := days + 719468 in
  let era := z / 146097 in
  let '(yoe, doy) := year_and_day (z mod 146097) in
  let mp := (5 * doy + 2) / 153 in
  let m := if mp <? 10 then mp + 3 else mp - 9 in
  mkDate (yoe + era * 400 + (if m <=? 2 then 1 else 0)) m (doy - (153 * mp + 2) / 5 + 1).

Example civil_epoch : civil 0 = mkDate 1970 1 1.
Proof. reflexivity. Qed.
Example civil_leap : civil 11016 = mkDate 2000 2 29 ∧ civil 11017 = mkDate 2000 3 1.
Proof. split; reflexivity. Qed.
Example civil_zero_time : civil (zero_time / day) = mkDate 1 1 1.
Proof. reflexivity. Qed.

(** ** RFC3339Nano *)

Definition fmt_04d (n : Z) : string := fmt_02d (n / 100) +:+ fmt_02d (n mod 100).

(** Years outside 0 to 9999 take as many digits as they need, with a sign. *)
Definition fmt_year (y : Z) : string :=
  if (0 <=? y) && (y <=? 9999) then fmt_04d y
  else if y <? 0 then
    String "-" (if - y <=? 9999 then fmt_04d (- y) else pretty (- y))
  else pretty y.

(** The digits of the fraction without their trailing zeros. *)
Fixpoint trim_zeros (s : string) : string :=
  match s with
  | "" => ""
  | String c s =>
      match trim_zeros s with
      | "" => if Ascii.eqb c "0" then "" else String c ""
      | s => String c s
      end
  end.

Definition fmt_09d (n : Z) : string :=
  fmt_02d (n / 10000000) +:+ fmt_02d (n / 100000 mod 100) +:+ fmt_02d (n / 1000 mod 100) +:+
  fmt_02d (n / 10 mod 100) +:+ pretty (n mod 10).

Definition fraction (ns : Z) : string :=
  match trim_zeros (fmt_09d ns) with "" => "" | s => String "." s end.

Definition RFC3339Nano (t : time) : string :=
  let days := t / day in
  let ns := t mod day in
  let d := civil days in
  fmt_year (year d) +:+ "-" +:+ fmt_02d (month d) +:+ "-" +:+ fmt_02d (dom d) +:+ "T" +:+
  fmt_02d (ns / hour) +:+ ":" +:+ fmt_02d (ns / minute mod 60) +:+ ":" +:+
  fmt_02d (ns / second mod 60) +:+ fraction (ns mod second) +:+ "Z".

(** [time.RFC3339]: the same layout without the fraction. *)
Definition RFC3339 (t : time) : string := RFC3339Nano (t / second * second).

(** [Duration.String] and [Duration.Round(time.Second)] of a duration that is not
    negative; the text is that of a whole number of seconds. *)
Definition seconds_text (secs : Z) : string :=
  (if 3600 <=? secs then pretty (secs / 3600) +:+ "h" else "") +:+
  (if 60 <=? secs then pretty (secs / 60 mod 60) +:+ "m" else "") +:+ pretty (secs mod 60) +:+ "s".

Definition round_seconds (d : Z) : Z :=
  let r := d mod second in (d - r + (if r + r <? second then 0 else second)) / second.

Example seconds_texts : map seconds_text [0; 59; 60; 3601] = ["0s"; "59s"; "1m0s"; "1h0m1s"].
Proof. reflexivity. Qed.

Example format_zero : RFC3339Nano zero_time = "0001-01-01T00:00:00Z".
Proof. reflexivity. Qed.
Example format_fraction :
  RFC3339Nano 1700000000120000000 = "2023-11-14T22:13:20.12Z".
Proof. reflexivity. Qed.

(** *** Formatting loses nothing *)

#[local] Ltac Zify.zify_post_hook ::= Z.div_mod_to_equations.

Lemma year_and_day_range doe : 0 ≤ doe < 146097 →
  0 ≤ (year_and_day doe).1 < 400 ∧ 0 ≤ (year_and_day doe).2 ≤ 365.
Proof.
  unfold year_and_day. intros R. cbn [fst snd].
  set (c := Z.min 3 (doe / 36524)). assert (0 ≤ c ≤ 3) by (subst c; lia).
  set (doc := doe - 36524 * c). assert (0 ≤ doc ≤ 36524) by (subst doc c; lia).
  set (q := doc / 1461). assert (0 ≤ q ≤ 24) by (subst q; lia).
  set (doq := doc - 1461 * q). assert (0 ≤ doq ≤ 1460) by (subst doq q; lia).
  split; lia.
Qed.

(** The number of days before a year of an era. *)
Definition days_before (yoe : Z) : Z :=
  36524 * (yoe / 100) + 1461 * (yoe mod 100 / 4) + 365 * (yoe mod 4).

Lemma year_and_day_days doe : 0 ≤ doe < 146097 →
  doe = days_before (year_and_day doe).1 + (year_and_day doe).2.
Proof.
  unfold year_and_day, days_before. intros R. cbn [fst snd].
  set (c := Z.min 3 (doe / 36524)). assert (0 ≤ c ≤ 3) by (subst c; lia).
  set (doc := doe - 36524 * c). assert (0 ≤ doc ≤ 36524) by (subst doc c; lia).
  set (q := doc / 1461). assert (0 ≤ q ≤ 24) by (subst q; lia).
  set (doq := doc - 1461 * q). assert (0 ≤ doq ≤ 1460) by (subst doq q; lia).
  set (y := Z.min 3 (doq / 365)). assert (0 ≤ y ≤ 3) by (subst y; lia).
  assert ((100 * c + 4 * q + y) / 100 = c) as -> by lia.
  assert ((100 * c + 4 * q + y) mod 100 / 4 = q) as -> by lia.
  assert ((100 * c + 4 * q + y) mod 4 = y) as -> by lia.
  lia.
Qed.

Lemma civil_ranges days : 1 ≤ month (civil days) ≤ 12 ∧ 0 ≤ dom (civil days) < 100.
Proof.
  unfold civil. pose proof (Z.mod_pos_bound (days + 719468) 146097 ltac:(lia)) as R.
  apply year_and_day_range in R.
  destruct (year_and_day _) as [yoe doy]. simpl in *.
  destruct (Z.ltb_spec ((5 * doy + 2) / 153) 10); lia.
Qed.

Lemma civil_inj days days' : civil days = civil days' → days = days'.
Proof.
  unfold civil. intros E.
  pose proof (Z.mod_pos_bound (days + 719468) 146097 ltac:(lia)) as R.
  pose proof (Z.mod_pos_bound (days' + 719468) 146097 ltac:(lia)) as R'.
  pose proof (Z.div_mod (days + 719468) 146097 ltac:(lia)) as D.
  pose proof (Z.div_mod (days' + 719468) 146097 ltac:(lia)) as D'.
  pose proof (year_and_day_range _ R) as Y. pose proof (year_and_day_range _ R') as Y'.
  pose proof (year_and_day_days _ R) as Q. pose proof (year_and_day_days _ R') as Q'.
  destruct (year_and_day ((days + 719468) mod 146097)) as [yoe doy],
    (year_and_day ((days' + 719468) mod 146097)) as [yoe' doy'].
  cbn [fst snd] in *. injection E as Ey Em Ed.
  assert ((5 * doy + 2) / 153 = (5 * doy' + 2) / 153) as Mp.
  { destruct (Z.ltb_spec ((5 * doy + 2) / 153) 10), (Z.ltb_spec ((5 * doy' + 2) / 153) 10); lia. }
  rewrite Mp in *. assert (doy = doy') as -> by lia.
  assert (yoe = yoe' ∧ (days + 719468) / 146097 = (days' + 719468) / 146097) as [-> Er] by lia.
  rewrite Er in D. lia.
Qed.

(** The zeros that were trimmed can be put back. *)
Fixpoint zeros (n : nat) : string := match n with O => "" | S n => String "0" (zeros n) end.

Lemma trim_zeros_pad s :
  ∃ n, s = trim_zeros s +:+ zeros n ∧ blen s = (blen (trim_zeros s) + n)%nat.
Proof.
  induction s as [|c s (n & E & L)]; [by exists 0%nat|]. cbn [trim_zeros].
  destruct (trim_zeros s) as [|c' s'].
  - simpl in E, L. destruct (Ascii.eqb_spec c "0") as [->|_].
    + exists (S n). simpl. split; [by rewrite E at 1|by rewrite L].
    + exists n. simpl. split; [by rewrite E at 1|by rewrite L].
  - exists n. split; [rewrite E at 1; done|simpl in *; lia].
Qed.

Lemma trim_zeros_inj s s' : blen s = blen s' → trim_zeros s = trim_zeros s' → s = s'.
Proof.
  intros L E. destruct (trim_zeros_pad s) as (n & S & Ln), (trim_zeros_pad s') as (n' & S' & Ln').
  rewrite S, S', E. assert (n = n') as -> by (rewrite E in Ln; lia). done.
Qed.

Lemma fraction_inj_trim ns ns' :
  fraction ns = fraction ns' → trim_zeros (fmt_09d ns) = trim_zeros (fmt_09d ns').
Proof. unfold fraction. destruct (trim_zeros (fmt_09d ns)), (trim_zeros (fmt_09d ns')); congruence. Qed.

Lemma pretty_digit_length r : 0 ≤ r < 10 → blen (pretty r) = 1%nat.
Proof.
  intros R. apply Nat.eqb_eq.
  assert (∀ r, 0 ≤ r < 100 → (r <? 10) && negb (blen (pretty r) =? 1)%nat = false) as T.
  { intros k K. apply negb_true_iff.
    apply (two_digits_ind (λ r, negb ((r <? 10) && negb (blen (pretty r) =? 1)%nat)));
      [by vm_compute|done]. }
  specialize (T r ltac:(lia)). rewrite (proj2 (Z.ltb_lt r 10)) in T by lia.
  by destruct (_ =? _)%nat.
Qed.

(** Two concatenations of pieces of equal lengths. *)
Ltac split_text E :=
  repeat match type of E with
  | _ +:+ _ = _ +:+ _ =>
      let E' := fresh "Hd" in
      apply string_app_inj_head in E as [E' E];
      [|rewrite ?string_app_length, ?fmt_02d_length, ?pretty_digit_length by lia; done]
  end.

Lemma fmt_09d_length ns : 0 ≤ ns < second → blen (fmt_09d ns) = 9%nat.
Proof.
  unfold second, fmt_09d. intros R.
  rewrite !string_app_length, !fmt_02d_length, pretty_digit_length by lia. done.
Qed.

Lemma fmt_09d_inj ns ns' :
  0 ≤ ns < second → 0 ≤ ns' < second → fmt_09d ns = fmt_09d ns' → ns = ns'.
Proof.
  unfold second, fmt_09d. intros R R' E. split_text E.
  apply fmt_02d_inj in Hd, Hd0, Hd1, Hd2; [|lia..]. apply (inj pretty) in E. lia.
Qed.

Lemma fmt_04d_inj y y' : 0 ≤ y ≤ 9999 → 0 ≤ y' ≤ 9999 → fmt_04d y = fmt_04d y' → y = y'.
Proof.
  unfold fmt_04d. intros R R' E. split_text E.
  apply fmt_02d_inj in Hd, E; lia.
Qed.

(** The years with four digits, all a JSON time can have. *)
Definition four_digit_year (t : time) : bool :=
  let y := year (civil (t / day)) in (0 <=? y) && (y <=? 9999).

Lemma fmt_year_four t : four_digit_year t = true →
  0 ≤ year (civil (t / day)) ≤ 9999 ∧ fmt_year (year (civil (t / day))) = fmt_04d (year (civil (t / day))).
Proof.
  unfold four_digit_year, fmt_year. intros F. rewrite F. props. done.
Qed.

Lemma fmt_04d_length y : 0 ≤ y ≤ 9999 → blen (fmt_04d y) = 4%nat.
Proof. intros R. unfold fmt_04d. rewrite string_app_length, !fmt_02d_length by lia. done. Qed.

Lemma RFC3339Nano_inj t t' :
  four_digit_year t = true → four_digit_year t' = true →
  RFC3339Nano t = RFC3339Nano t' → t = t'.
Proof.
  intros (Y & F)%fmt_year_four (Y' & F')%fmt_year_four. unfold RFC3339Nano. rewrite F, F'.
  pose proof (civil_ranges (t / day)) as [Rm Rd].
  pose proof (civil_ranges (t' / day)) as [Rm' Rd'].
  pose proof (civil_inj (t / day) (t' / day)) as Inj.
  destruct (civil (t / day)) as [y m d], (civil (t' / day)) as [y' m' d'].
  cbn [year month dom] in *.
  assert (0 ≤ t mod day < day) as B by (unfold day, hour, minute, second; lia).
  assert (0 ≤ t' mod day < day) as B' by (unfold day, hour, minute, second; lia).
  assert (0 ≤ t mod day / hour < 24) by (unfold day, hour, minute, second in *; lia).
  assert (0 ≤ t' mod day / hour < 24) by (unfold day, hour, minute, second in *; lia).
  intros E.
  apply string_app_inj_head in E as [E1 E]; [|by rewrite !fmt_04d_length].
  apply fmt_04d_inj in E1; [|done..]. split_text E.
  apply string_app_inj_tail in E as [Fr _]; [|done].
  apply fmt_02d_inj in Hd0, Hd2, Hd4, Hd6, Hd8; [|lia..].
  apply fraction_inj_trim, trim_zeros_inj, fmt_09d_inj in Fr.
  2,3: unfold second; lia.
  2: { rewrite !fmt_09d_length by (unfold second; lia). done. }
  assert (t / day = t' / day) as D by (apply Inj; congruence).
  assert (t mod day = t' mod day) as Ns.
  { clear -Hd4 Hd6 Hd8 Fr B B'. revert Hd4 Hd6 Hd8 Fr B B'.
    generalize (t mod day) as a, (t' mod day) as b. unfold hour, minute, second, day.
    intros a b. intros. lia. }
  rewrite (Z.div_mod t day), (Z.div_mod t' day), D, Ns by done. done.
Qed.

(** The characters of a formatted time. *)
Definition time_char (c : ascii) : Prop :=
  number_char c ∨ c ∈ ["T"; ":"; "."; "Z"]%char.

Lemma fmt_02d_chars z : Forall number_char (chars (fmt_02d z)).
Proof.
  unfold fmt_02d. case_match; [|apply pretty_Z_chars].
  change (chars ("0" +:+ pretty z)) with ("0"%char :: chars (pretty z)).
  constructor; [left; by eexists|apply pretty_Z_chars].
Qed.

Lemma fmt_04d_chars z : Forall number_char (chars (fmt_04d z)).
Proof. unfold fmt_04d. rewrite chars_app, Forall_app. split; apply fmt_02d_chars. Qed.

Lemma fmt_year_chars y : Forall number_char (chars (fmt_year y)).
Proof.
  unfold fmt_year. case_match; [apply fmt_04d_chars|]. case_match; [|apply pretty_Z_chars].
  change (chars (String "-" ?s)) with ("-"%char :: chars s).
  cbn [chars]. constructor; [by right|]. case_match; [apply fmt_04d_chars|apply pretty_Z_chars].
Qed.

Lemma trim_zeros_Forall (P : ascii → Prop) s :
  Forall P (chars s) → Forall P (chars (trim_zeros s)).
Proof.
  induction s as [|c s IH]; [done|]. cbn [chars trim_zeros].
  intros [Pc F]%list.Forall_cons. apply IH in F. destruct (trim_zeros s) as [|c' s'].
  - destruct (Ascii.eqb c "0"); repeat constructor; done.
  - constructor; done.
Qed.

Lemma fraction_chars ns : Forall time_char (chars (fraction ns)).
Proof.
  assert (Forall number_char (chars (trim_zeros (fmt_09d ns)))) as F.
  { apply trim_zeros_Forall. unfold fmt_09d. rewrite !chars_app, !Forall_app.
    split_and!; auto using fmt_02d_chars, pretty_Z_chars. }
  unfold fraction. destruct (trim_zeros (fmt_09d ns)) as [|c s]; [constructor|].
  change (chars (String "." (String c s))) with ("."%char :: chars (String c s)).
  constructor; [right; set_solver|]. eapply list.Forall_impl; [exact F|]. by left.
Qed.

Lemma RFC3339Nano_chars t : Forall time_char (chars (RFC3339Nano t)).
Proof.
  assert (∀ s, Forall number_char (chars s) → Forall time_char (chars s)) as N.
  { intros s F. eapply list.Forall_impl; [exact F|]. by left. }
  unfold RFC3339Nano. rewrite !chars_app, !Forall_app.
  split_and!; auto using fmt_year_chars, fmt_02d_chars, fraction_chars;
    repeat constructor; first [by right|right; set_solver].
Qed.

(** ** encoding/json *)

(** The length of the UTF-8 sequence at the front, if it is a valid one. *)
Definition rune_length (l : list ascii) : option nat :=
  let at_ k lo hi := match l !! k with
    | Some c => ((lo <=? byte_of c) && (byte_of c <=? hi))%N
    | None => false
    end in
  let cont k := at_ k 128%N 191%N in
  if at_ 0%nat 0%N 127%N then Some 1%nat
  else if at_ 0%nat 194%N 223%N && cont 1%nat then Some 2%nat
  else if (at_ 0%nat 224%N 224%N && at_ 1%nat 160%N 191%N ||
           at_ 0%nat 225%N 236%N && cont 1%nat ||
           at_ 0%nat 237%N 237%N && at_ 1%nat 128%N 159%N ||
           at_ 0%nat 238%N 239%N && cont 1%nat) && cont 2%nat then Some 3%nat
  else if (at_ 0%nat 240%N 240%N && at_ 1%nat 144%N 191%N ||
           at_ 0%nat 241%N 243%N && cont 1%nat ||
           at_ 0%nat 244%N 244%N && at_ 1%nat 128%N 143%N) && cont 2%nat && cont 3%nat
  then Some 4%nat
  else None.

Definition hex_digit (n : N) : ascii := byte (if (n <? 10)%N then 48 + n else 87 + n)%N.

(** A byte below 0x80 in a string: the two-character escapes, and [\u00xx] for the
    other control characters and for the three characters HTML cares about. *)
Definition escape_byte (c : ascii) : list ascii :=
  let n := byte_of c in
  let bs := byte 92%N in
  if ((n =? 34) || (n =? 92))%N then [bs; c]
  else if (n =? 8)%N then [bs; "b"%char]
  else if (n =? 12)%N then [bs; "f"%char]
  else if (n =? 10)%N then [bs; "n"%char]
  else if (n =? 13)%N then [bs; "r"%char]
  else if (n =? 9)%N then [bs; "t"%char]
  else if ((n <? 32) || (n =? 60) || (n =? 62) || (n =? 38))%N
  then [bs; "u"; "0"; "0"]%char ++ [hex_digit (n / 16); hex_digit (n mod 16)]
  else [c].

(** What is left of the rune under the cursor: copied or dropped. *)
Inductive cursor := Copy (n : nat) | Drop (n : nat).

Fixpoint json_chars (cur : cursor) (l : list ascii) : list ascii :=
  match l with
  | [] => []
  | c :: l' =>
      match cur with
      | Copy (S n) => c :: json_chars (Copy n) l'
      | Drop (S n) => json_chars (Drop n) l'
      | _ =>
          match rune_length l with
          | None => chars "\ufffd" ++ json_chars (Copy 0%nat) l'
          | Some 1%nat => escape_byte c ++ json_chars (Copy 0%nat) l'
          | Some n =>
              if bool_decide (take 3%nat l = bytes_of [226; 128; 168]%N)
              then chars "\u2028" ++ json_chars (Drop 2%nat) l'
              else if bool_decide (take 3%nat l = bytes_of [226; 128; 169]%N)
              then chars "\u2029" ++ json_chars (Drop 2%nat) l'
              else c :: json_chars (Copy (pred n)) l'
          end
      end
  end.

Definition quote (s : string) : string :=
  String (byte 34%N) (s +:+ String (byte 34%N) "").

Definition json_string (s : string) : string := quote (of_chars (json_chars (Copy 0%nat) (chars s))).

(** [Time.MarshalJSON] refuses a year of more than four digits. *)
Definition json_time (t : time) : option string :=
  if four_digit_year t then Some (quote (RFC3339Nano t)) else None.

Definition json_bool (b : bool) : string := if b then "true" else "false".

(** An object: its members in the order of the struct. *)
Definition json_object (members : list (string * string)) : string :=
  "{" +:+ join "," (map (λ m, json_string m.1 +:+ ":" +:+ m.2) members) +:+ "}".

Definition json_array (elements : list string) : string := "[" +:+ join "," elements +:+ "]".

Example json_escapes :
  json_string (of_chars (bytes_of [97; 34; 60; 10; 1; 195; 169; 226; 128; 168; 255]%N)) =
  quote (of_chars (chars "a\" ++ [byte 34] ++ chars "\u003c\n\u0001" ++ bytes_of [195; 169] ++
                   chars "\u2028\ufffd")%N).
Proof. reflexivity. Qed.
