(* ===== verification/PayMachine.v ===== *)
(** * PayMachine: the three status machines of [backend/payments/statemachine.go]

    Statuses are Go strings, so a status column or a provider answer may hold
    any text: the model keeps [string] and every theorem quantifies over all of
    them. A transition table is the Go map literal as an association list;
    [canTransition] is the shared walker. *)

From S2P Require Import Prelude.

Abbreviation IntentStatus := string (only parsing).
Abbreviation TransactionStatus := string (only parsing).
Abbreviation RefundStatus := string (only parsing).

Definition IntentCreated : IntentStatus := "CREATED".
Definition IntentProcessing : IntentStatus := "PROCESSING".
Definition IntentSucceeded : IntentStatus := "SUCCEEDED".
Definition IntentFailed : IntentStatus := "FAILED".
Definition IntentCanceled : IntentStatus := "CANCELED".

Definition TxPending : TransactionStatus := "PENDING".
Definition TxSucceeded : TransactionStatus := "SUCCEEDED".
Definition TxFailed : TransactionStatus := "FAILED".

Definition RefundRequested : RefundStatus := "REQUESTED".
Definition RefundCompleted : RefundStatus := "COMPLETED".
Definition RefundFailed : RefundStatus := "FAILED".

(** A Go [map[S][]S]: the first entry of a key is its value. *)
Abbreviation transition_map := (list (string * list string)) (only parsing).

Fixpoint map_get {V} (m : list (string * V)) (k : string) : option V :=
  match m with
  | [] => None
  | (k', v) :: m' => if String.eqb k' k then Some v else map_get m' k
  end.

Definition intentTransitions : transition_map :=
  [(IntentCreated, [IntentProcessing; IntentCanceled]);
   (IntentProcessing, [IntentSucceeded; IntentFailed])].

Definition transactionTransitions : transition_map :=
  [(TxPending, [TxSucceeded; TxFailed])].

Definition refundTransitions : transition_map :=
  [(RefundRequested, [RefundCompleted; RefundFailed])].

Definition AllIntentStatuses : list IntentStatus :=
  [IntentCreated; IntentProcessing; IntentSucceeded; IntentFailed; IntentCanceled].
Definition AllTransactionStatuses : list TransactionStatus :=
  [TxPending; TxSucceeded; TxFailed].
Definition AllRefundStatuses : list RefundStatus :=
  [RefundRequested; RefundCompleted; RefundFailed].

(** [sort.Strings] orders by bytes. *)
Definition string_le (a b : string) : Prop := String.leb a b = true.
#[export] Instance string_le_dec a b : Decision (string_le a b).
Proof. unfold string_le. apply _. Defined.

Definition statusNames (statuses : list string) : list string :=
  merge_sort string_le statuses.

(** The error of an illegal move, wrapping [ErrConflict]: its message names
    both statuses and either the known statuses (no outgoing transitions) or
    the legal alternatives. *)
Inductive TransitionError :=
  | NoOutgoing (from to : string) (known : list string)
  | Illegal (from to : string) (alternatives : list string).

(** The loop over [targets]. *)
Fixpoint is_target (targets : list string) (to : string) : bool :=
  match targets with
  | [] => false
  | t :: targets' => if String.eqb t to then true else is_target targets' to
  end.

Definition canTransition (transitions : transition_map) (all : list string)
    (from to : string) : option TransitionError :=
  match map_get transitions from with
  | None => Some (NoOutgoing from to (statusNames all))
  | Some targets =>
      if is_target targets to then None
      else Some (Illegal from to (statusNames targets))
  end.

Definition CanTransitionIntentStatus (from to : IntentStatus) :=
  canTransition intentTransitions AllIntentStatuses from to.
Definition CanTransitionTransactionStatus (from to : TransactionStatus) :=
  canTransition transactionTransitions AllTransactionStatuses from to.
Definition CanTransitionRefundStatus (from to : RefundStatus) :=
  canTransition refundTransitions AllRefundStatuses from to.

Definition isKnownIntentStatus (s : IntentStatus) : bool :=
  is_target AllIntentStatuses s.
Definition isKnownTransactionStatus (s : TransactionStatus) : bool :=
  is_target AllTransactionStatuses s.
Definition isKnownRefundStatus (s : RefundStatus) : bool :=
  is_target AllRefundStatuses s.

(** [_, known := transitions[s]]. *)
Definition has_entry (transitions : transition_map) (s : string) : bool :=
  match map_get transitions s with Some _ => true | None => false end.

Definition IsIntentTerminal (s : IntentStatus) : bool :=
  negb (has_entry intentTransitions s) && isKnownIntentStatus s.
Definition IsTransactionTerminal (s : TransactionStatus) : bool :=
  negb (has_entry transactionTransitions s) && isKnownTransactionStatus s.
Definition IsRefundTerminal (s : RefundStatus) : bool :=
  negb (has_entry refundTransitions s) && isKnownRefundStatus s.

(** ** The walker *)

Lemma is_target_spec targets to : is_target targets to = true ↔ to ∈ targets.
Proof.
  induction targets as [|t targets IH]; simpl; [by rewrite elem_of_nil|].
  rewrite elem_of_cons. destruct (String.eqb_spec t to); naive_solver.
Qed.

(** [legal_move T from to]: the table lists the move. *)
Definition legal_move (T : transition_map) (from to : string) : Prop :=
  ∃ targets, map_get T from = Some targets ∧ to ∈ targets.

Lemma legal_move_nil from to : legal_move [] from to ↔ False.
Proof. unfold legal_move. naive_solver. Qed.

Lemma legal_move_cons k targets T from to :
  legal_move ((k, targets) :: T) from to ↔
  from = k ∧ to ∈ targets ∨ from ≠ k ∧ legal_move T from to.
Proof.
  unfold legal_move. simpl. destruct (String.eqb_spec k from); naive_solver.
Qed.

Lemma canTransition_None T all from to :
  canTransition T all from to = None ↔ legal_move T from to.
Proof.
  unfold canTransition, legal_move.
  destruct (map_get T from) as [targets|]; [|naive_solver].
  destruct (is_target targets to) eqn:E.
  - apply is_target_spec in E. naive_solver.
  - split; [done|]. intros (? & [= <-] & H).
    apply is_target_spec in H. congruence.
Qed.

Lemma map_get_elem {V} (m : list (string * V)) k v :
  map_get m k = Some v → (k, v) ∈ m.
Proof.
  induction m as [|[k' v'] m IH]; simpl; [done|].
  destruct (String.eqb_spec k' k); rewrite elem_of_cons; naive_solver.
Qed.

(** A finite walk: [walk T s l] means that [l] lists the statuses visited
    after [s], each by a legal move. *)
Inductive walk (T : transition_map) : string → list string → Prop :=
  | walk_nil s : walk T s []
  | walk_cons s s' l : legal_move T s s' → walk T s' l → walk T s (s' :: l).

(** A table is ranked when every move it lists decreases [rank]; walks are
    then no longer than the rank of where they start. *)
Definition ranked (T : transition_map) (rank : string → nat) : Prop :=
  ∀ from to, legal_move T from to → (rank to < rank from)%nat.

Lemma ranked_walk T rank s l :
  ranked T rank → walk T s l → (length l ≤ rank s)%nat.
Proof.
  intros R. induction 1 as [|s s' l M _ IH]; simpl; [lia|].
  apply R in M. lia.
Qed.

(** The check of [ranked] on the entries of the table. *)
Lemma ranked_check T rank :
  forallb (λ e, forallb (λ t, rank t <? rank e.1)%nat e.2) T = true →
  ranked T rank.
Proof.
  intros H from to (targets & G & I). apply map_get_elem in G.
  rewrite forallb_forall in H.
  pose proof (H _ (proj1 (list_elem_of_In _ _) G)) as H1. simpl in H1.
  rewrite forallb_forall in H1.
  apply Nat.ltb_lt, H1, list_elem_of_In, I.
Qed.

(** A status without an entry is one no move leaves, in a table whose entries
    all list some target. *)
Lemma no_entry_stuck T all s :
  forallb (λ e, match e.2 with [] => false | _ => true end) T = true →
  has_entry T s = false ↔ ∀ to, canTransition T all s to ≠ None.
Proof.
  intros H. unfold has_entry. destruct (map_get T s) as [targets|] eqn:G.
  - split; [done|]. intros N. exfalso.
    pose proof (proj1 (list_elem_of_In _ _) (map_get_elem _ _ _ G)) as I.
    rewrite forallb_forall in H. specialize (H _ I). simpl in H.
    destruct targets as [|t targets]; [done|].
    apply (N t). apply canTransition_None. exists (t :: targets).
    split; [done|left].
  - split; [|done]. intros _ to E. apply canTransition_None in E.
    destruct E as (? & ? & ?). congruence.
Qed.

Lemma terminal_spec T all s :
  forallb (λ e, match e.2 with [] => false | _ => true end) T = true →
  negb (has_entry T s) && is_target all s = true ↔
  s ∈ all ∧ ∀ to, canTransition T all s to ≠ None.
Proof.
  intros H. rewrite andb_true_iff, negb_true_iff, is_target_spec.
  rewrite (no_entry_stuck T all s H). naive_solver.
Qed.

(** Moves left from an intent status. *)
Definition moves_left (s : string) : nat :=
  if String.eqb s IntentCreated then 2
  else if String.eqb s IntentProcessing then 1 else 0.

(** ** Properties *)

(** Exactly four moves of an intent, two of a transaction and two of a
    refund are legal; every other pair of texts, self moves and unknown
    statuses included, is an [ErrConflict]. *)
Theorem transitions_exact (from to : string) :
  (CanTransitionIntentStatus from to = None ↔
     (from = "CREATED" ∧ (to = "PROCESSING" ∨ to = "CANCELED")) ∨
     (from = "PROCESSING" ∧ (to = "SUCCEEDED" ∨ to = "FAILED"))) ∧
  (CanTransitionTransactionStatus from to = None ↔
     from = "PENDING" ∧ (to = "SUCCEEDED" ∨ to = "FAILED")) ∧
  (CanTransitionRefundStatus from to = None ↔
     from = "REQUESTED" ∧ (to = "COMPLETED" ∨ to = "FAILED")).
Proof.
  unfold CanTransitionIntentStatus, CanTransitionTransactionStatus,
    CanTransitionRefundStatus.
  rewrite !canTransition_None. unfold intentTransitions,
    transactionTransitions, refundTransitions.
  rewrite !legal_move_cons, !legal_move_nil, !elem_of_cons, !elem_of_nil.
  unfold IntentCreated, IntentProcessing, IntentCanceled, IntentSucceeded,
    IntentFailed, TxPending, TxSucceeded, TxFailed, RefundRequested,
    RefundCompleted, RefundFailed.
  split_and!; naive_solver.
Qed.

(** The lifecycles end: from any status at most two intent moves, one
    transaction move and one refund move can follow one another, and a status
    is terminal exactly when it is a known status from which no move is
    legal. *)
Theorem lifecycles_terminate (s : string) :
  (∀ l, walk intentTransitions s l → (length l ≤ 2)%nat) ∧
  (∀ l, walk transactionTransitions s l → (length l ≤ 1)%nat) ∧
  (∀ l, walk refundTransitions s l → (length l ≤ 1)%nat) ∧
  (IsIntentTerminal s = true ↔
     s ∈ AllIntentStatuses ∧ ∀ to, CanTransitionIntentStatus s to ≠ None) ∧
  (IsTransactionTerminal s = true ↔
     s ∈ AllTransactionStatuses ∧ ∀ to, CanTransitionTransactionStatus s to ≠ None) ∧
  (IsRefundTerminal s = true ↔
     s ∈ AllRefundStatuses ∧ ∀ to, CanTransitionRefundStatus s to ≠ None).
Proof.
  assert (∀ T rank l, forallb (λ e, forallb (λ t, rank t <? rank e.1)%nat e.2) T = true →
            walk T s l → (length l ≤ rank s)%nat) as B.
  { intros T rank l R. apply ranked_walk. by apply ranked_check. }
  split_and!; try (apply terminal_spec; reflexivity).
  - intros l W. apply (B _ moves_left) in W; [|reflexivity].
    unfold moves_left in W. repeat case_match; lia.
  - intros l W.
    apply (B _ (λ s, if String.eqb s TxPending then 1 else 0)%nat) in W; [|reflexivity].
    case_match; lia.
  - intros l W.
    apply (B _ (λ s, if String.eqb s RefundRequested then 1 else 0)%nat) in W; [|reflexivity].
    case_match; lia.
Qed.
