(* ===== verification/PayModels.v ===== *)
(** * PayModels: the rows and the data boundary of the payments domain

    [backend/payments/models.go] and [backend/payments/scope.go]. A database
    row and the Go struct it is scanned into have the same fields; they differ
    in the text columns that are nullable, so both are instances of one record
    with the type of those columns as a parameter: [option string] in a row,
    [string] in the struct. *)

From S2P Require Import Prelude Sql PayMachine.

(** ** Rows and structs *)

Record intent (text : Type) := mkIntent {
  i_ID : uuid;
  i_TenantID : option uuid;
  i_CustomerID : option uuid;
  i_CreatedBy : uuid;
  i_AmountMinor : Z;
  i_Currency : string;
  i_Status : IntentStatus;
  i_Provider : string;
  i_ProviderRef : text;
  i_JobID : option uuid;
  i_VehicleID : option uuid;
  i_Description : string;
  i_FailureReason : text;
  i_SucceededAt : option time;
  i_FailedAt : option time;
  i_CanceledAt : option time;
  i_CreatedAt : time;
  i_UpdatedAt : time;
}.
Arguments mkIntent {text}.
Arguments i_ID {text}. Arguments i_TenantID {text}. Arguments i_CustomerID {text}.
Arguments i_CreatedBy {text}. Arguments i_AmountMinor {text}.
Arguments i_Currency {text}. Arguments i_Status {text}. Arguments i_Provider {text}.
Arguments i_ProviderRef {text}. Arguments i_JobID {text}. Arguments i_VehicleID {text}.
Arguments i_Description {text}. Arguments i_FailureReason {text}.
Arguments i_SucceededAt {text}. Arguments i_FailedAt {text}.
Arguments i_CanceledAt {text}. Arguments i_CreatedAt {text}. Arguments i_UpdatedAt {text}.

Abbreviation PaymentIntent := (intent string) (only parsing).
Abbreviation intent_row := (intent (option string)) (only parsing).

Record transaction (text : Type) := mkTransaction {
  t_ID : uuid;
  t_IntentID : uuid;
  t_Provider : string;
  t_ProviderRef : text;
  t_ProviderReceipt : text;
  t_Status : TransactionStatus;
  t_AmountMinor : Z;
  t_Currency : string;
  t_FailureReason : text;
  t_OccurredAt : option time;
  t_CreatedAt : time;
  t_UpdatedAt : time;
}.
Arguments mkTransaction {text}.
Arguments t_ID {text}. Arguments t_IntentID {text}. Arguments t_Provider {text}.
Arguments t_ProviderRef {text}. Arguments t_ProviderReceipt {text}.
Arguments t_Status {text}. Arguments t_AmountMinor {text}. Arguments t_Currency {text}.
Arguments t_FailureReason {text}. Arguments t_OccurredAt {text}.
Arguments t_CreatedAt {text}. Arguments t_UpdatedAt {text}.

Abbreviation Transaction := (transaction string) (only parsing).
Abbreviation transaction_row := (transaction (option string)) (only parsing).

Record refund (text : Type) := mkRefund {
  r_ID : uuid;
  r_IntentID : uuid;
  r_AmountMinor : Z;
  r_Currency : string;
  r_Status : RefundStatus;
  r_Provider : string;
  r_ProviderRef : text;
  r_Reason : string;
  r_FailureReason : text;
  r_RequestedBy : option uuid;
  r_CreatedAt : time;
  r_UpdatedAt : time;
}.
Arguments mkRefund {text}.
Arguments r_ID {text}. Arguments r_IntentID {text}. Arguments r_AmountMinor {text}.
Arguments r_Currency {text}. Arguments r_Status {text}. Arguments r_Provider {text}.
Arguments r_ProviderRef {text}. Arguments r_Reason {text}.
Arguments r_FailureReason {text}. Arguments r_RequestedBy {text}.
Arguments r_CreatedAt {text}. Arguments r_UpdatedAt {text}.

Abbreviation Refund := (refund string) (only parsing).
Abbreviation refund_row := (refund (option string)) (only parsing).

(** The audit log row; its identity column is its position in the log. *)
Record IntentTransition := mkIntentTransition {
  it_IntentID : uuid;
  it_FromStatus : IntentStatus;
  it_ToStatus : IntentStatus;
  it_ActorID : option uuid;
  it_Reason : string;
  it_CreatedAt : time;
}.

Record WebhookPayload := mkWebhookPayload {
  wp_Event : string;
  wp_Provider : string;
  wp_IntentID : uuid;
  wp_TransactionID : uuid;
  wp_ProviderRef : string;
  wp_ProviderReceipt : string;
  wp_AmountMinor : Z;
  wp_Currency : string;
  wp_FailureReason : string;
  wp_OccurredAt : time;
}.

(** ** Roles *)

Definition RoleCustomer := "CUSTOMER".
Definition RoleTechnician := "TECHNICIAN".
Definition RoleGarage := "GARAGE".
Definition RoleDispatcher := "DISPATCHER".
Definition RoleAdmin := "ADMIN".
Definition RoleSuperAdmin := "SUPER_ADMIN".

Definition PaymentRoles := [RoleGarage; RoleDispatcher; RoleAdmin; RoleSuperAdmin].
Definition OperatorRoles := [RoleAdmin; RoleSuperAdmin].

Definition IsPaymentRole (role : string) : bool := is_target PaymentRoles role.
Definition IsOperatorRole (role : string) : bool := is_target OperatorRoles role.

(** ** Scopes *)

Record Scope := mkScope {
  s_TenantID : option uuid;
  s_PrincipalID : option uuid;
  s_explicitUnrestricted : bool;
}.

(** [Scope{}] *)
Definition zero_scope : Scope := mkScope None None false.

Definition UnrestrictedScope : Scope := mkScope None None true.

Definition Unrestricted (s : Scope) : bool :=
  match s with
  | mkScope None None explicit => explicit
  | _ => false
  end.

Definition scopePredicate (scope : Scope)
    (tenantCol creatorCol customerCol : string) (nextParam : nat)
    : option cond * list value :=
  if Unrestricted scope then (None, [])
  else match s_TenantID scope, s_PrincipalID scope with
  | Some tenant, _ => (Some (CEq tenantCol nextParam), [VUuid tenant])
  | None, Some principal =>
      (Some (COr (CEq creatorCol nextParam) (CEq customerCol nextParam)),
       [VUuid principal; VUuid principal])
  | None, None => (Some CFalse, [])
  end.

(** The authenticated claims ([platform.Claims]). *)
Record Claims := mkClaims {
  c_UserID : string;
  c_TenantID : string;
  c_Role : string;
  c_SessionID : string;
  c_IssuedAt : time;
  c_ExpiresAt : time;
}.

Inductive ClaimsError := ErrTenantClaim | ErrSubjectClaim.

Definition ScopeFromClaims `{UuidText} (claims : Claims) : ClaimsError + Scope :=
  if IsOperatorRole (c_Role claims) then inr UnrestrictedScope
  else if negb (String.eqb (c_TenantID claims) "") then
    match uuid_parse (c_TenantID claims) with
    | None => inl ErrTenantClaim
    | Some tenantID => inr (mkScope (Some tenantID) None false)
    end
  else
    match uuid_parse (c_UserID claims) with
    | None => inl ErrSubjectClaim
    | Some principalID => inr (mkScope None (Some principalID) false)
    end.

(** ** What a scope lets a principal see

    The documented contract of [Scope], stated on rows. *)
Definition sees {text} (scope : Scope) (i : intent text) : bool :=
  if Unrestricted scope then true
  else match s_TenantID scope, s_PrincipalID scope with
  | Some tenant, _ => bool_decide (i_TenantID i = Some tenant)
  | None, Some principal =>
      bool_decide (i_CreatedBy i = principal) ||
      bool_decide (i_CustomerID i = Some principal)
  | None, None => false
  end.

(** The columns the predicates name, unqualified and under the alias [i]. *)
Definition intent_env {text} (i : intent text) : env := λ column,
  if String.eqb column "id" then VUuid (i_ID i)
  else if String.eqb column "tenant_id" then of_uuid (i_TenantID i)
  else if String.eqb column "customer_id" then of_uuid (i_CustomerID i)
  else if String.eqb column "created_by" then VUuid (i_CreatedBy i)
  else if String.eqb column "status" then VText (i_Status i)
  else if String.eqb column "job_id" then of_uuid (i_JobID i)
  else if String.eqb column "vehicle_id" then of_uuid (i_VehicleID i)
  else if String.eqb column "i.tenant_id" then of_uuid (i_TenantID i)
  else if String.eqb column "i.customer_id" then of_uuid (i_CustomerID i)
  else if String.eqb column "i.created_by" then VUuid (i_CreatedBy i)
  else VNull.

(** The rendered predicate, on its own arguments placed from [nextParam] on,
    selects exactly the rows the scope sees. *)
Definition pred_sees {text} (p : option cond * list value) (before : list value)
    (row : intent text) : bool :=
  match p.1 with
  | Some c => eval None (before ++ p.2) (intent_env row) c
  | None => true
  end.

Lemma scopePredicate_sees {text} scope before (row : intent text) tc cc uc :
  intent_env row tc = of_uuid (i_TenantID row) →
  intent_env row cc = VUuid (i_CreatedBy row) →
  intent_env row uc = of_uuid (i_CustomerID row) →
  pred_sees (scopePredicate scope tc cc uc (S (length before))) before row
  = sees scope row.
Proof.
  intros Ht Hc Hu. unfold pred_sees, scopePredicate, sees.
  destruct (Unrestricted scope); [done|].
  destruct scope as [[t|] [p|] ?]; cbn [s_TenantID s_PrincipalID fst snd eval];
    rewrite ?arg_app, ?Ht, ?Hc, ?Hu, ?sql_eq_uuid, ?sql_eq_VUuid; done.
Qed.

(** The placeholders of the predicate are numbered from [nextParam] on. *)
Lemma scopePredicate_placeholders scope tc cc uc n c :
  (scopePredicate scope tc cc uc n).1 = Some c → ∀ k, k ∈ placeholders c → k = n.
Proof.
  unfold scopePredicate. intros E k.
  repeat case_match; simplify_eq/=; set_solver.
Qed.
