(* ===== verification/PayStore.v ===== *)
(** * PayStore: the ledger and its store ([backend/payments/store.go])

    The state is the five tables of the payments migrations. A write goes
    through the constraints and triggers of its table (the [insert_*] and
    [update_*] functions, from [backend/migrations/payments/]); a store method
    is a computation on the ledger, and a method that opens a transaction runs
    under [transact]. The current time ([time.Now()], [now()]) and the fresh
    identifier ([uuid.New()]) a method may draw are its arguments. *)

From S2P Require Import Prelude Sql Money PayMachine PayModels.

Open Scope Z_scope.

(** ** Tables *)

Record idem_row := mkIdem {
  k_scope : string;
  k_payload_hash : string;
  k_result : string;
  k_created_at : time;
  k_completed_at : option time;
}.

Record ledger := mkLedger {
  payment_intents : gmap uuid intent_row;
  payment_transactions : gmap uuid transaction_row;
  payment_refunds : gmap uuid refund_row;
  payment_idempotency_keys : gmap string idem_row;
  payment_intent_transitions : list IntentTransition;
}.

Definition empty_ledger : ledger := mkLedger ∅ ∅ ∅ ∅ [].

Definition with_intents f (l : ledger) : ledger :=
  mkLedger (f (payment_intents l)) (payment_transactions l) (payment_refunds l)
    (payment_idempotency_keys l) (payment_intent_transitions l).
Definition with_transactions f (l : ledger) : ledger :=
  mkLedger (payment_intents l) (f (payment_transactions l)) (payment_refunds l)
    (payment_idempotency_keys l) (payment_intent_transitions l).
Definition with_refunds f (l : ledger) : ledger :=
  mkLedger (payment_intents l) (payment_transactions l) (f (payment_refunds l))
    (payment_idempotency_keys l) (payment_intent_transitions l).
Definition with_idempotency_keys f (l : ledger) : ledger :=
  mkLedger (payment_intents l) (payment_transactions l) (payment_refunds l)
    (f (payment_idempotency_keys l)) (payment_intent_transitions l).
Definition with_intent_transitions f (l : ledger) : ledger :=
  mkLedger (payment_intents l) (payment_transactions l) (payment_refunds l)
    (payment_idempotency_keys l) (f (payment_intent_transitions l)).

(** What [errors.Is] can tell about an error of the store: one of its
    sentinels, or any other failure ([ErrDB]: a constraint, a trigger, a scan). *)
Inductive StoreError :=
  | ErrIntentNotFound
  | ErrTransactionNotFound
  | ErrRefundNotFound
  | ErrConflict
  | ErrDB.

#[export] Instance StoreError_eq_dec : EqDecision StoreError.
Proof. solve_decision. Defined.

Abbreviation db := (M ledger StoreError) (only parsing).

(** ** Constraints and triggers of the tables *)

(** The CHECK constraints of payment_intents. *)
Definition intent_check {text} (i : intent text) : bool :=
  (0 <? i_AmountMinor i) && String.eqb (i_Currency i) "KES" &&
  isKnownIntentStatus (i_Status i).

Definition insert_intent (row : intent_row) : db unit :=
  l ← get;
  ensure (intent_check row) ErrDB;;
  ensure (bool_decide (payment_intents l !! i_ID row = None)) ErrDB;;
  modify (with_intents (insert (i_ID row) row)).

(** prevent_payment_intent_terminal_mutation, then the CHECK constraints. *)
Definition update_intent (old new : intent_row) : db unit :=
  ensure (negb (IsIntentTerminal (i_Status old) &&
                negb (String.eqb (i_Status new) (i_Status old)))) ErrDB;;
  ensure ((i_AmountMinor new =? i_AmountMinor old) &&
          String.eqb (i_Currency new) (i_Currency old)) ErrDB;;
  ensure (intent_check new) ErrDB;;
  modify (with_intents (insert (i_ID old) new)).

Definition transaction_check {text} (t : transaction text) : bool :=
  (0 <? t_AmountMinor t) && String.eqb (t_Currency t) "KES" &&
  isKnownTransactionStatus (t_Status t).

(** The value under a partial unique index: neither NULL nor ''. *)
Definition indexed (c : option string) : option string :=
  match c with
  | Some s => if String.eqb s "" then None else Some s
  | None => None
  end.

(** Another row than [id] holds the same indexed value for the provider. *)
Definition unique_clash (column : transaction_row → option string)
    (l : ledger) (id : uuid) (row : transaction_row) : Prop :=
  ¬ map_Forall (λ id' row', id' ≠ id → t_Provider row' = t_Provider row →
                 indexed (column row') = indexed (column row) →
                 indexed (column row) = None)
      (payment_transactions l).

#[export] Instance unique_clash_dec column l id row :
  Decision (unique_clash column l id row).
Proof. unfold unique_clash. apply _. Defined.

(** CHECK constraints, primary key, the two partial unique indexes, then the
    foreign key, the only one of them the store tells apart. *)
Definition insert_transaction (row : transaction_row) : db unit :=
  l ← get;
  ensure (transaction_check row) ErrDB;;
  ensure (bool_decide (payment_transactions l !! t_ID row = None)) ErrDB;;
  ensure (negb (bool_decide (unique_clash t_ProviderRef l (t_ID row) row))) ErrDB;;
  ensure (negb (bool_decide (unique_clash t_ProviderReceipt l (t_ID row) row))) ErrDB;;
  ensure (negb (bool_decide (payment_intents l !! t_IntentID row = None)))
    ErrIntentNotFound;;
  modify (with_transactions (insert (t_ID row) row)).

(** guard_payment_transaction_update, then the constraints. *)
Definition update_transaction (old new : transaction_row) : db unit :=
  l ← get;
  ensure (bool_decide (t_IntentID new = t_IntentID old) &&
          (t_AmountMinor new =? t_AmountMinor old) &&
          String.eqb (t_Currency new) (t_Currency old) &&
          String.eqb (t_Provider new) (t_Provider old) &&
          (t_CreatedAt new =? t_CreatedAt old)) ErrDB;;
  ensure (String.eqb (t_Status old) TxPending &&
          (String.eqb (t_Status new) TxSucceeded ||
           String.eqb (t_Status new) TxFailed)) ErrDB;;
  ensure (transaction_check new) ErrDB;;
  ensure (negb (bool_decide (unique_clash t_ProviderRef l (t_ID old) new))) ErrDB;;
  ensure (negb (bool_decide (unique_clash t_ProviderReceipt l (t_ID old) new))) ErrDB;;
  modify (with_transactions (insert (t_ID old) new)).

Definition refund_check {text} (r : refund text) : bool :=
  (0 <? r_AmountMinor r) && String.eqb (r_Currency r) "KES" &&
  isKnownRefundStatus (r_Status r).

(** payment_refunds_one_in_flight_idx: another REQUESTED refund of the intent. *)
Definition in_flight_clash (l : ledger) (id : uuid) (row : refund_row) : Prop :=
  r_Status row = RefundRequested ∧
  ¬ map_Forall (λ id' row', id' ≠ id → r_IntentID row' = r_IntentID row →
                 r_Status row' ≠ RefundRequested)
      (payment_refunds l).

#[export] Instance in_flight_clash_dec l id row : Decision (in_flight_clash l id row).
Proof. unfold in_flight_clash. apply _. Defined.

Definition insert_refund (row : refund_row) : db unit :=
  l ← get;
  ensure (refund_check row) ErrDB;;
  ensure (bool_decide (payment_refunds l !! r_ID row = None)) ErrDB;;
  ensure (negb (bool_decide (in_flight_clash l (r_ID row) row))) ErrDB;;
  ensure (negb (bool_decide (payment_intents l !! r_IntentID row = None)))
    ErrIntentNotFound;;
  modify (with_refunds (insert (r_ID row) row)).

(** guard_payment_refund_update, then the constraints. *)
Definition update_refund (old new : refund_row) : db unit :=
  l ← get;
  ensure (bool_decide (r_IntentID new = r_IntentID old) &&
          (r_AmountMinor new =? r_AmountMinor old) &&
          String.eqb (r_Currency new) (r_Currency old) &&
          String.eqb (r_Provider new) (r_Provider old) &&
          (r_CreatedAt new =? r_CreatedAt old)) ErrDB;;
  ensure (String.eqb (r_Status old) RefundRequested &&
          (String.eqb (r_Status new) RefundCompleted ||
           String.eqb (r_Status new) RefundFailed)) ErrDB;;
  ensure (refund_check new) ErrDB;;
  ensure (negb (bool_decide (in_flight_clash l (r_ID old) new))) ErrDB;;
  modify (with_refunds (insert (r_ID old) new)).

(** [payload_hash ~ '^[0-9a-f]{64}$'] *)
Definition is_hex_digit (c : Ascii.ascii) : bool :=
  let n := Ascii.nat_of_ascii c in
  ((48 <=? n) && (n <=? 57) || (97 <=? n) && (n <=? 102))%nat.

Definition is_sha256_hex (s : string) : bool :=
  (blen s =? 64)%nat && forallb is_hex_digit (String.list_ascii_of_string s).

Definition idem_check (k : idem_row) : bool :=
  (String.eqb (k_scope k) "webhook" || String.eqb (k_scope k) "reconcile") &&
  is_sha256_hex (k_payload_hash k).

(** guard_payment_idempotency_key_update: the one and only result write. *)
Definition update_idem (key : string) (old new : idem_row) : db unit :=
  ensure (String.eqb (k_scope new) (k_scope old) &&
          String.eqb (k_payload_hash new) (k_payload_hash old) &&
          (k_created_at new =? k_created_at old)) ErrDB;;
  ensure (String.eqb (k_result old) "" && negb (String.eqb (k_result new) "")) ErrDB;;
  modify (with_idempotency_keys (insert key new)).

(** The log accepts rows of existing intents only (foreign key). *)
Definition insert_intent_transition (row : IntentTransition) : db unit :=
  l ← get;
  ensure (negb (bool_decide (payment_intents l !! it_IntentID row = None))) ErrDB;;
  modify (with_intent_transitions (λ log, log ++ [row])).

(** ** Store inputs *)

Definition defaultListLimit : Z := 50.
Definition maxListLimit : Z := 200.

Record IntentFilter := mkIntentFilter {
  f_Status : option IntentStatus;
  f_CustomerID : option uuid;
  f_JobID : option uuid;
  f_VehicleID : option uuid;
}.

Record ClaimResult := mkClaimResult {
  cr_Claimed : bool;
  cr_ExistingResult : string;
  cr_ExistingPayloadHash : string;
}.

Record ApplyOutcomeParams := mkApplyOutcomeParams {
  ap_TransactionID : uuid;
  ap_NewTxStatus : TransactionStatus;
  ap_NewIntentStatus : IntentStatus;
  ap_ProviderReceipt : string;
  ap_FailureReason : string;
  ap_OccurredAt : time;
  ap_Reason : string;
}.

Record StaleIntent := mkStaleIntent {
  si_Intent : PaymentIntent;
  si_Transaction : Transaction;
}.

(** ** Column lists and scanning *)

Definition intentColumns : list string :=
  ["id"; "tenant_id"; "customer_id"; "created_by"; "amount_minor"; "currency";
   "status"; "provider"; "provider_ref"; "job_id"; "vehicle_id"; "description";
   "failure_reason"; "succeeded_at"; "failed_at"; "canceled_at"; "created_at";
   "updated_at"].

Definition transactionColumns : list string :=
  ["id"; "intent_id"; "provider"; "provider_ref"; "provider_receipt"; "status";
   "amount_minor"; "currency"; "failure_reason"; "occurred_at"; "created_at";
   "updated_at"].

Section Store.
Context `{Driver}.

Definition scanIntent (row : intent_row) : option PaymentIntent :=
  provider_ref ← scan_text (i_ProviderRef row);
  failure_reason ← scan_text (i_FailureReason row);
  Some (mkIntent (i_ID row) (i_TenantID row) (i_CustomerID row) (i_CreatedBy row)
    (i_AmountMinor row) (i_Currency row) (i_Status row) (i_Provider row)
    provider_ref (i_JobID row) (i_VehicleID row) (i_Description row)
    failure_reason (i_SucceededAt row) (i_FailedAt row) (i_CanceledAt row)
    (i_CreatedAt row) (i_UpdatedAt row)).

Definition scanTransaction (row : transaction_row) : option Transaction :=
  provider_ref ← scan_text (t_ProviderRef row);
  provider_receipt ← scan_text (t_ProviderReceipt row);
  failure_reason ← scan_text (t_FailureReason row);
  Some (mkTransaction (t_ID row) (t_IntentID row) (t_Provider row) provider_ref
    provider_receipt (t_Status row) (t_AmountMinor row) (t_Currency row)
    failure_reason (t_OccurredAt row) (t_CreatedAt row) (t_UpdatedAt row)).

Definition scanRefund (row : refund_row) : option Refund :=
  provider_ref ← scan_text (r_ProviderRef row);
  failure_reason ← scan_text (r_FailureReason row);
  Some (mkRefund (r_ID row) (r_IntentID row) (r_AmountMinor row) (r_Currency row)
    (r_Status row) (r_Provider row) provider_ref (r_Reason row) failure_reason
    (r_RequestedBy row) (r_CreatedAt row) (r_UpdatedAt row)).

(** ** Intents *)

(** The INSERT names eight columns; the others take their defaults. *)
Definition intent_values (now : time) (id : uuid) (i : PaymentIntent) : intent_row :=
  mkIntent id (i_TenantID i) (i_CustomerID i) (i_CreatedBy i)
    (i_AmountMinor i) (i_Currency i) (i_Status i) (i_Provider i)
    None None None "" None None None None now now.

(** The intent returned is [*i] as the call leaves it. *)
Definition CreateIntent (now : time) (fresh : uuid) (i : PaymentIntent)
    : db PaymentIntent :=
  let id := assign_id (i_ID i) fresh in
  insert_intent (intent_values now id i);;
  mret (mkIntent id (i_TenantID i) (i_CustomerID i) (i_CreatedBy i)
    (i_AmountMinor i) (i_Currency i) (i_Status i) (i_Provider i)
    (i_ProviderRef i) (i_JobID i) (i_VehicleID i) (i_Description i)
    (i_FailureReason i) (i_SucceededAt i) (i_FailedAt i) (i_CanceledAt i) now now).

Definition intentScopePredicate (scope : Scope) (nextParam : nat) :=
  scopePredicate scope "tenant_id" "created_by" "customer_id" nextParam.

(** A query is sent: the driver compares placeholders and arguments first. *)
Definition send (used : list nat) (args : list value) : db unit :=
  ensure (accepts used (length args)) ErrDB.

Definition GetIntent (id : uuid) (scope : Scope) : db PaymentIntent :=
  let '(pred, predArgs) := intentScopePredicate scope 2 in
  let where_ := and_pred (CEq "id" 1) pred in
  let args := VUuid id :: predArgs in
  send (placeholders where_) args;;
  l ← get;
  match payment_intents l !! id with
  | Some row =>
      if eval None args (intent_env row) where_
      then from_option (scanIntent row) ErrDB
      else throw ErrIntentNotFound
  | None => throw ErrIntentNotFound
  end.

Definition list_where (scope : Scope) (filter : IntentFilter) : cond * list value :=
  let '(pred, predArgs) := intentScopePredicate scope 1 in
  let q := match pred with Some p => (p, predArgs) | None => (CTrue, []) end in
  let q := add_filter "status" (VText <$> f_Status filter) q in
  let q := add_filter "customer_id" (VUuid <$> f_CustomerID filter) q in
  let q := add_filter "job_id" (VUuid <$> f_JobID filter) q in
  add_filter "vehicle_id" (VUuid <$> f_VehicleID filter) q.

Definition ListIntents (scope : Scope) (filter : IntentFilter) (limit offset : Z)
    : db (list PaymentIntent) :=
  let limit := clamp_limit defaultListLimit maxListLimit limit in
  let offset := clamp_offset offset in
  let '(where_, args) := list_where scope filter in
  let args' := args ++ [VInt limit; VInt offset] in
  send (placeholders where_ ++ [(length args' - 1)%nat; length args']) args';;
  l ← get;
  let rows := List.filter (λ row, eval None args' (intent_env row) where_)
                (map_to_list (payment_intents l)).*2 in
  let rows := merge_sort (newest_first i_CreatedAt i_ID) rows in
  from_option (mapM scanIntent (page limit offset rows)) ErrDB.

(** The timestamp column each status move stamps. *)
Definition intentStatusTimestamp (to : IntentStatus) : string :=
  if String.eqb to IntentSucceeded then "succeeded_at"
  else if String.eqb to IntentFailed then "failed_at"
  else if String.eqb to IntentCanceled then "canceled_at"
  else "".

(** [SET status = $2, updated_at = now()[, <stamp> = now()][, failure_reason = $3]] *)
Definition set_status (now : time) (new : IntentStatus) (reason : option string)
    (i : intent_row) : intent_row :=
  let stamp := intentStatusTimestamp new in
  let at_ column old := if String.eqb stamp column then Some now else old in
  mkIntent (i_ID i) (i_TenantID i) (i_CustomerID i) (i_CreatedBy i)
    (i_AmountMinor i) (i_Currency i) new (i_Provider i) (i_ProviderRef i)
    (i_JobID i) (i_VehicleID i) (i_Description i)
    (match reason with Some r => Some r | None => i_FailureReason i end)
    (at_ "succeeded_at" (i_SucceededAt i)) (at_ "failed_at" (i_FailedAt i))
    (at_ "canceled_at" (i_CanceledAt i)) (i_CreatedAt i) now.

Definition UpdateIntentStatus (now : time) (intentID : uuid)
    (expectedFrom newStatus : IntentStatus) (actorID : option uuid)
    (reason : string) : db unit :=
  transact (
    l ← get;
    row ← from_option (payment_intents l !! intentID) ErrIntentNotFound;
    let current := i_Status row in
    ensure (String.eqb current expectedFrom) ErrConflict;;
    update_intent row (set_status now newStatus None row);;
    insert_intent_transition
      (mkIntentTransition intentID current newStatus actorID reason now)).

(** ** Transactions *)

Definition transaction_values (now : time) (id : uuid) (t : Transaction)
    : transaction_row :=
  mkTransaction id (t_IntentID t) (t_Provider t)
    (nullif_empty (t_ProviderRef t)) None (t_Status t) (t_AmountMinor t)
    (t_Currency t) (nullif_empty (t_FailureReason t)) None now now.

Definition InsertTransaction (now : time) (fresh : uuid) (t : Transaction)
    : db Transaction :=
  let id := assign_id (t_ID t) fresh in
  insert_transaction (transaction_values now id t);;
  mret (mkTransaction id (t_IntentID t) (t_Provider t) (t_ProviderRef t)
    (t_ProviderReceipt t) (t_Status t) (t_AmountMinor t) (t_Currency t)
    (t_FailureReason t) (t_OccurredAt t) now now).

(** The visibility condition of a row through its intent. *)
Definition joinScopePredicate (scope : Scope) (nextParam : nat)
    : option cond * list value :=
  let '(pred, args) :=
    scopePredicate scope "i.tenant_id" "i.created_by" "i.customer_id" nextParam in
  (CExists <$> pred, args).

Definition transaction_env (t : transaction_row) : env := λ column,
  if String.eqb column "t.id" then VUuid (t_ID t)
  else if String.eqb column "t.intent_id" then VUuid (t_IntentID t)
  else VNull.

Definition parent_env (l : ledger) (intentID : uuid) : option env :=
  intent_env <$> payment_intents l !! intentID.

Definition GetTransaction (id : uuid) (scope : Scope) : db Transaction :=
  let '(pred, predArgs) := joinScopePredicate scope 2 in
  let where_ := and_pred (CEq "t.id" 1) pred in
  let args := VUuid id :: predArgs in
  send (placeholders where_) args;;
  l ← get;
  match payment_transactions l !! id with
  | Some row =>
      if eval (parent_env l (t_IntentID row)) args (transaction_env row) where_
      then from_option (scanTransaction row) ErrDB
      else throw ErrTransactionNotFound
  | None => throw ErrTransactionNotFound
  end.

Definition by_provider_ref (provider providerRef : string) (t : transaction_row) : bool :=
  String.eqb (t_Provider t) provider && bool_decide (t_ProviderRef t = Some providerRef).

Definition GetTransactionByProviderRef (provider providerRef : string) : db Transaction :=
  l ← get;
  match List.filter (by_provider_ref provider providerRef)
          (map_to_list (payment_transactions l)).*2 with
  | row :: _ => from_option (scanTransaction row) ErrDB
  | [] => throw ErrTransactionNotFound
  end.

Definition ListTransactions (intentID : uuid) (scope : Scope) : db (list Transaction) :=
  let '(pred, predArgs) := joinScopePredicate scope 2 in
  let where_ := and_pred (CEq "t.intent_id" 1) pred in
  let args := VUuid intentID :: predArgs in
  send (placeholders where_) args;;
  l ← get;
  let rows := List.filter
                (λ row, eval (parent_env l (t_IntentID row)) args (transaction_env row) where_)
                (map_to_list (payment_transactions l)).*2 in
  let rows := merge_sort (oldest_first t_CreatedAt t_ID) rows in
  from_option (mapM scanTransaction rows) ErrDB.

(** [SET status, failure_reason, occurred_at, provider_receipt, updated_at]. *)
Definition settle_transaction (now : time) (p : ApplyOutcomeParams)
    (occurred : time) (t : transaction_row) : transaction_row :=
  mkTransaction (t_ID t) (t_IntentID t) (t_Provider t) (t_ProviderRef t)
    (coalesce (nullif_empty (ap_ProviderReceipt p)) (t_ProviderReceipt t))
    (ap_NewTxStatus p) (t_AmountMinor t) (t_Currency t)
    (nullif_empty (ap_FailureReason p)) (Some (timestamptz occurred)) (t_CreatedAt t) now.

(** The intent half of a settlement: already there, in the way, or moved. *)
Definition settle_intent (now : time) (p : ApplyOutcomeParams) (intentID : uuid)
    : db unit :=
  l ← get;
  row ← from_option (payment_intents l !! intentID) ErrIntentNotFound;
  let current := i_Status row in
  if String.eqb current (ap_NewIntentStatus p) then mret tt
  else if negb (String.eqb current IntentProcessing) then throw ErrConflict
  else
    update_intent row
      (set_status now (ap_NewIntentStatus p) (nullif_empty (ap_FailureReason p)) row);;
    insert_intent_transition
      (mkIntentTransition intentID current (ap_NewIntentStatus p) None (ap_Reason p) now).

Definition ApplyTransactionOutcome (now : time) (p : ApplyOutcomeParams) : db bool :=
  transact (
    l ← get;
    row ← from_option (payment_transactions l !! ap_TransactionID p) ErrTransactionNotFound;
    t ← from_option (scanTransaction row) ErrDB;
    if String.eqb (t_Status t) (ap_NewTxStatus p) then mret false
    else
      ensure (String.eqb (t_Status t) TxPending) ErrConflict;;
      let occurred := if is_zero (ap_OccurredAt p) then now else ap_OccurredAt p in
      update_transaction row (settle_transaction now p occurred row);;
      settle_intent now p (t_IntentID t);;
      mret true).

(** ** Refunds *)

Definition refund_values (now : time) (id : uuid) (r : Refund) : refund_row :=
  mkRefund id (r_IntentID r) (r_AmountMinor r) (r_Currency r)
    RefundRequested (r_Provider r) None (r_Reason r) None (r_RequestedBy r) now now.

Definition InsertRefund (now : time) (fresh : uuid) (r : Refund) : db Refund :=
  let id := assign_id (r_ID r) fresh in
  insert_refund (refund_values now id r);;
  mret (mkRefund id (r_IntentID r) (r_AmountMinor r) (r_Currency r) RefundRequested
    (r_Provider r) (r_ProviderRef r) (r_Reason r) (r_FailureReason r)
    (r_RequestedBy r) now now).

Definition refund_env (r : refund_row) : env := λ column,
  if String.eqb column "r.id" then VUuid (r_ID r)
  else if String.eqb column "r.intent_id" then VUuid (r_IntentID r)
  else VNull.

Definition GetRefund (id : uuid) (scope : Scope) : db Refund :=
  let '(join, joinArgs) := joinScopePredicate scope 2 in
  let where_ := and_pred (CEq "r.id" 1) join in
  let args := VUuid id :: joinArgs in
  send (placeholders where_) args;;
  l ← get;
  match payment_refunds l !! id with
  | Some row =>
      if eval (parent_env l (r_IntentID row)) args (refund_env row) where_
      then from_option (scanRefund row) ErrDB
      else throw ErrRefundNotFound
  | None => throw ErrRefundNotFound
  end.

(** [SET status = $2, updated_at = now()[, provider_ref = ...][, failure_reason = ...]] *)
Definition set_refund_status (now : time) (new : RefundStatus)
    (providerRef failureReason : string) (r : refund_row) : refund_row :=
  mkRefund (r_ID r) (r_IntentID r) (r_AmountMinor r) (r_Currency r) new
    (r_Provider r) (coalesce (nullif_empty providerRef) (r_ProviderRef r))
    (r_Reason r) (coalesce (nullif_empty failureReason) (r_FailureReason r))
    (r_RequestedBy r) (r_CreatedAt r) now.

Definition UpdateRefundStatus (now : time) (refundID : uuid)
    (expectedFrom newStatus : RefundStatus) (providerRef failureReason : string)
    : db unit :=
  transact (
    l ← get;
    row ← from_option (payment_refunds l !! refundID) ErrRefundNotFound;
    ensure (String.eqb (r_Status row) expectedFrom) ErrConflict;;
    update_refund row (set_refund_status now newStatus providerRef failureReason row)).

Definition LatestRefundForIntent (intentID : uuid) (scope : Scope) : db Refund :=
  let '(join, joinArgs) := joinScopePredicate scope 2 in
  let where_ := and_pred (CEq "r.intent_id" 1) join in
  let args := VUuid intentID :: joinArgs in
  send (placeholders where_) args;;
  l ← get;
  let rows := List.filter
                (λ row, eval (parent_env l (r_IntentID row)) args (refund_env row) where_)
                (map_to_list (payment_refunds l)).*2 in
  match page 1 0 (merge_sort (newest_first r_CreatedAt r_ID) rows) with
  | row :: _ => from_option (scanRefund row) ErrDB
  | [] => throw ErrRefundNotFound
  end.

(** ** Idempotency keys *)

Definition ClaimIdempotencyKey (now : time) (key scope payloadHash : string)
    : db ClaimResult :=
  let row := mkIdem scope payloadHash "" now None in
  ensure (idem_check row) ErrDB;;
  l ← get;
  match payment_idempotency_keys l !! key with
  | None =>
      modify (with_idempotency_keys (insert key row));;
      mret (mkClaimResult true "" "")
  | Some existing => mret (mkClaimResult false (k_result existing) (k_payload_hash existing))
  end.

Definition CompleteIdempotencyKey (now : time) (key result : string) : db unit :=
  l ← get;
  match payment_idempotency_keys l !! key with
  | None => mret tt
  | Some row =>
      update_idem key row
        (mkIdem (k_scope row) (k_payload_hash row) result (k_created_at row) (Some now))
  end.

(** ** The reconciliation workload *)

(** The newest transaction of each intent (DISTINCT ON). *)
Definition is_newest (l : ledger) (t : transaction_row) : bool :=
  bool_decide (map_Forall (λ _ t', t_IntentID t' = t_IntentID t →
                 newest_first t_CreatedAt t_ID t t') (payment_transactions l)).

(** The rows the FROM and WHERE clauses of the query select. *)
Definition stale_rows (olderThan : time) (limit : Z) (l : ledger)
    : list (intent_row * transaction_row) :=
  let due t := String.eqb (t_Status t) TxPending && (t_CreatedAt t <? olderThan) &&
               is_newest l t in
  let txs := List.filter due (map_to_list (payment_transactions l)).*2 in
  let pairs := omap (λ t, i ← payment_intents l !! t_IntentID t;
                          if String.eqb (i_Status i) IntentProcessing
                          then Some (i, t) else None) txs in
  page limit 0 (merge_sort (λ a b, oldest_first t_CreatedAt t_ID a.2 b.2) pairs).

Definition scan_stale (row : intent_row * transaction_row) : option StaleIntent :=
  i ← scanIntent row.1; t ← scanTransaction row.2; Some (mkStaleIntent i t).

(** The SELECT list is unqualified and the FROM clause joins payment_intents,
    payment_transactions and the common table expression [newest]. *)
Definition ListStaleIntents (olderThan : time) (limit : Z) : db (list StaleIntent) :=
  let limit := if limit <=? 0 then defaultListLimit else limit in
  ensure (negb (ambiguous (intentColumns ++ transactionColumns)
    [intentColumns; transactionColumns; ["id"; "intent_id"; "created_at"]])) ErrDB;;
  l ← get;
  from_option (mapM scan_stale (stale_rows olderThan limit l)) ErrDB.

End Store.

(** The methods are unfolded on demand only. *)
#[global] Arguments CreateIntent : simpl never.
#[global] Arguments GetIntent : simpl never.
#[global] Arguments ListIntents : simpl never.
#[global] Arguments UpdateIntentStatus : simpl never.
#[global] Arguments InsertTransaction : simpl never.
#[global] Arguments GetTransaction : simpl never.
#[global] Arguments GetTransactionByProviderRef : simpl never.
#[global] Arguments ListTransactions : simpl never.
#[global] Arguments ApplyTransactionOutcome : simpl never.
#[global] Arguments InsertRefund : simpl never.
#[global] Arguments GetRefund : simpl never.
#[global] Arguments UpdateRefundStatus : simpl never.
#[global] Arguments LatestRefundForIntent : simpl never.
#[global] Arguments ClaimIdempotencyKey : simpl never.
#[global] Arguments CompleteIdempotencyKey : simpl never.
#[global] Arguments ListStaleIntents : simpl never.
#[global] Arguments idem_check : simpl never.
