(* ===== verification/PayLedger.v ===== *)
(** * PayLedger: what the store does to the ledger

    For every store method of [PayStore]: which runs are possible and how they
    change the five tables (the [_run] lemmas), the invariant of the ledger,
    and the steps the payments service makes it take. *)

From S2P Require Import Prelude Sql Money PayMachine PayModels PayStore.

Open Scope Z_scope.

(** ** Runs of the table writes *)

Ltac run_of R f := unfold f in R; unfold_run R; case_run R; reflect.

Ltac strings :=
  repeat match goal with
  | H : String.eqb _ _ = true |- _ => apply String.eqb_eq in H
  | H : String.eqb _ _ = false |- _ => apply String.eqb_neq in H
  | H : (_ =? _)%Z = true |- _ => apply Z.eqb_eq in H
  | H : (_ =? _)%Z = false |- _ => apply Z.eqb_neq in H
  end.

(** A run that failed left the ledger alone. *)
Definition unchanged {A} (r : StoreError + A) (l l' : ledger) : Prop :=
  l' = l ∧ ∃ e, r = inl e.

Ltac failed_run := left; split; [done|by eexists].

Lemma insert_intent_run row l r l' :
  insert_intent row l = (r, l') →
  unchanged r l l' ∨
  r = inr tt ∧ l' = with_intents (insert (i_ID row) row) l ∧
  payment_intents l !! i_ID row = None ∧ intent_check row = true.
Proof. intros R. run_of R insert_intent; [right|failed_run..]. done. Qed.

Lemma update_intent_run old new l r l' :
  update_intent old new l = (r, l') →
  r = inl ErrDB ∧ l' = l ∨
  r = inr tt ∧ l' = with_intents (insert (i_ID old) new) l ∧
  (IsIntentTerminal (i_Status old) = true → i_Status new = i_Status old) ∧
  i_AmountMinor new = i_AmountMinor old ∧ i_Currency new = i_Currency old ∧
  intent_check new = true.
Proof.
  intros R. run_of R update_intent; [right|left; done..]. strings.
  split_and!; try done. intros T. rewrite T in *. simpl in *. strings. reflect. 
  by strings.
Qed.

(** Two rows of one provider never share an indexed value with [row]. *)
Definition no_clash (column : transaction_row → option string) (l : ledger)
    (id : uuid) (row : transaction_row) : Prop :=
  ∀ id' row', payment_transactions l !! id' = Some row' → id' ≠ id →
    t_Provider row' = t_Provider row → column row' = column row →
    indexed (column row) = None.

Lemma unique_clash_no_clash column l id row :
  ¬ unique_clash column l id row → no_clash column l id row.
Proof.
  unfold unique_clash. intros H%dec_stable id' row' L N P C.
  apply (H id' row' L N P). by rewrite C.
Qed.

Lemma insert_transaction_run row l r l' :
  insert_transaction row l = (r, l') →
  unchanged r l l' ∨
  r = inr tt ∧ l' = with_transactions (insert (t_ID row) row) l ∧
  payment_transactions l !! t_ID row = None ∧ transaction_check row = true ∧
  no_clash t_ProviderRef l (t_ID row) row ∧
  is_Some (payment_intents l !! t_IntentID row).
Proof.
  intros R. run_of R insert_transaction; [right|failed_run..].
  split_and!; try done; [by apply unique_clash_no_clash|].
  by apply not_eq_None_Some.
Qed.

Lemma update_transaction_run old new l r l' :
  update_transaction old new l = (r, l') →
  r = inl ErrDB ∧ l' = l ∨
  r = inr tt ∧ l' = with_transactions (insert (t_ID old) new) l ∧
  t_Status old = TxPending ∧ (t_Status new = TxSucceeded ∨ t_Status new = TxFailed) ∧
  transaction_check new = true ∧ no_clash t_ProviderRef l (t_ID old) new.
Proof.
  intros R. run_of R update_transaction; [right|left; done..].
  strings. split_and!; try done; [|by apply unique_clash_no_clash].
  match goal with H : orb _ _ = true |- _ => apply orb_true_iff in H as [H|H] end;
    strings; auto.
Qed.

Lemma in_flight_clash_false l id row :
  ¬ in_flight_clash l id row → r_Status row = RefundRequested →
  ∀ id' row', payment_refunds l !! id' = Some row' → id' ≠ id →
    r_IntentID row' = r_IntentID row → r_Status row' ≠ RefundRequested.
Proof.
  unfold in_flight_clash. intros H S. apply not_and_l in H as [H|H]; [done|].
  apply dec_stable in H. exact H.
Qed.

Lemma insert_refund_run row l r l' :
  insert_refund row l = (r, l') →
  unchanged r l l' ∨
  r = inr tt ∧ l' = with_refunds (insert (r_ID row) row) l ∧
  payment_refunds l !! r_ID row = None ∧ refund_check row = true ∧
  ¬ in_flight_clash l (r_ID row) row ∧
  is_Some (payment_intents l !! r_IntentID row).
Proof.
  intros R. run_of R insert_refund; [right|failed_run..].
  split_and!; try done. by apply not_eq_None_Some.
Qed.

Lemma update_refund_run old new l r l' :
  update_refund old new l = (r, l') →
  r = inl ErrDB ∧ l' = l ∨
  r = inr tt ∧ l' = with_refunds (insert (r_ID old) new) l ∧
  r_Status old = RefundRequested ∧
  (r_Status new = RefundCompleted ∨ r_Status new = RefundFailed) ∧
  refund_check new = true ∧ r_IntentID new = r_IntentID old ∧
  r_AmountMinor new = r_AmountMinor old ∧ r_Currency new = r_Currency old.
Proof.
  intros R. run_of R update_refund; [right|left; done..].
  strings. split_and!; try done.
  match goal with H : orb _ _ = true |- _ => apply orb_true_iff in H as [H|H] end;
    strings; auto.
Qed.

Lemma insert_intent_transition_run row l r l' :
  insert_intent_transition row l = (r, l') →
  r = inl ErrDB ∧ l' = l ∧ payment_intents l !! it_IntentID row = None ∨
  r = inr tt ∧ l' = with_intent_transitions (λ log, log ++ [row]) l ∧
  is_Some (payment_intents l !! it_IntentID row).
Proof.
  intros R. run_of R insert_intent_transition; [right|left; done].
  split_and!; try done. by apply not_eq_None_Some.
Qed.

(** ** Runs of the store methods *)

Section Runs.
Context `{Driver}.

(** Replace the run of a table write by what its lemma says. *)
Ltac written op lem :=
  match goal with E : context [op] |- _ =>
    apply lem in E; unfold unchanged in E;
    destruct_or?; destruct_and?; simplify_eq/=
  end.

Lemma CreateIntent_run now fresh i l r l' :
  CreateIntent now fresh i l = (r, l') →
  unchanged r l l' ∨
  let row := intent_values now (assign_id (i_ID i) fresh) i in
  l' = with_intents (insert (i_ID row) row) l ∧
  payment_intents l !! i_ID row = None ∧ intent_check row = true.
Proof.
  intros R. unfold CreateIntent in R. unfold_run R. case_run R.
  all: written (@insert_intent) insert_intent_run; first [failed_run|naive_solver].
Qed.

(** The audit row of a move. *)
Definition audit (now : time) (id : uuid) (from to : IntentStatus)
    (actor : option uuid) (reason : string) : IntentTransition :=
  mkIntentTransition id from to actor reason now.

Definition moved (l : ledger) (row new : intent_row) (a : IntentTransition) : ledger :=
  with_intent_transitions (λ log, log ++ [a]) (with_intents (insert (i_ID row) new) l).

Lemma UpdateIntentStatus_run now id from to actor reason l r l' :
  UpdateIntentStatus now id from to actor reason l = (r, l') →
  unchanged r l l' ∨
  r = inr tt ∧ ∃ row, payment_intents l !! id = Some row ∧ i_Status row = from ∧
    (IsIntentTerminal from = true → to = from) ∧
    isKnownIntentStatus to = true ∧
    l' = moved l row (set_status now to None row) (audit now id from to actor reason).
Proof.
  intros R. unfold UpdateIntentStatus in R. unfold_run R.
  case_run R; try failed_run; strings; simplify_eq.
  all: written (@update_intent) update_intent_run.
  all: written (@insert_intent_transition) insert_intent_transition_run.
  - right. split; [done|]. eexists. split_and!; try done.
    unfold intent_check in *. by reflect.
Qed.

Lemma InsertTransaction_run now fresh t l r l' :
  InsertTransaction now fresh t l = (r, l') →
  unchanged r l l' ∨
  let row := transaction_values now (assign_id (t_ID t) fresh) t in
  l' = with_transactions (insert (t_ID row) row) l ∧
  payment_transactions l !! t_ID row = None ∧ transaction_check row = true ∧
  no_clash t_ProviderRef l (t_ID row) row ∧
  is_Some (payment_intents l !! t_IntentID row).
Proof.
  intros R. unfold InsertTransaction in R. unfold_run R. case_run R.
  all: written (@insert_transaction) insert_transaction_run; first [failed_run|naive_solver].
Qed.

Lemma scanTransaction_fields row t :
  scanTransaction row = Some t →
  t_ID t = t_ID row ∧ t_IntentID t = t_IntentID row ∧ t_Provider t = t_Provider row ∧
  t_Status t = t_Status row ∧ t_AmountMinor t = t_AmountMinor row ∧
  t_Currency t = t_Currency row ∧
  (∀ ref, t_ProviderRef row = Some ref → t_ProviderRef t = ref).
Proof.
  unfold scanTransaction. intros E.
  destruct (scan_text (t_ProviderRef row)) as [ref|] eqn:Er; simplify_eq/=.
  destruct (scan_text (t_ProviderReceipt row)); simplify_eq/=.
  destruct (scan_text (t_FailureReason row)); simplify_eq/=.
  split_and!; try done. intros ref' Eq. rewrite Eq in Er. by simplify_eq/=.
Qed.

Lemma scanIntent_fields row i :
  scanIntent row = Some i →
  i_ID i = i_ID row ∧ i_TenantID i = i_TenantID row ∧ i_CustomerID i = i_CustomerID row ∧
  i_CreatedBy i = i_CreatedBy row ∧ i_AmountMinor i = i_AmountMinor row ∧
  i_Currency i = i_Currency row ∧ i_Status i = i_Status row ∧
  i_Provider i = i_Provider row.
Proof.
  unfold scanIntent. intros E.
  destruct (scan_text (i_ProviderRef row)); simplify_eq/=.
  destruct (scan_text (i_FailureReason row)); by simplify_eq/=.
Qed.

Lemma scanRefund_fields row r :
  scanRefund row = Some r →
  r_ID r = r_ID row ∧ r_IntentID r = r_IntentID row ∧ r_AmountMinor r = r_AmountMinor row ∧
  r_Currency r = r_Currency row ∧ r_Status r = r_Status row ∧ r_Provider r = r_Provider row.
Proof.
  unfold scanRefund. intros E.
  destruct (scan_text (r_ProviderRef row)); simplify_eq/=.
  destruct (scan_text (r_FailureReason row)); by simplify_eq/=.
Qed.

(** The intent half of a settlement, on a ledger [l1] whose transaction half is
    done. *)
Lemma settle_intent_run now p id l1 r l' :
  settle_intent now p id l1 = (r, l') →
  (∃ e, r = inl e) ∨
  r = inr tt ∧ ∃ i, payment_intents l1 !! id = Some i ∧
    (i_Status i = ap_NewIntentStatus p ∧ l' = l1 ∨
     i_Status i = IntentProcessing ∧ isKnownIntentStatus (ap_NewIntentStatus p) = true ∧
     l' = moved l1 i
            (set_status now (ap_NewIntentStatus p) (nullif_empty (ap_FailureReason p)) i)
            (audit now id IntentProcessing (ap_NewIntentStatus p) None (ap_Reason p))).
Proof.
  intros R. unfold settle_intent in R. unfold_run R.
  case_run R; try (left; by eexists); reflect; strings; simplify_eq.
  { right. split; [done|]. eexists. split; [done|]. by left. }
  all: written (@update_intent) update_intent_run.
  all: written (@insert_intent_transition) insert_intent_transition_run; [left; by eexists|].
  right. split; [done|]. eexists. split; [done|]. right.
  unfold intent_check in *. reflect.
  assert (i_Status i = IntentProcessing) as <- by done. done.
Qed.

(** A settlement of [row] applied to [l]: the transaction half. *)
Definition settled (now : time) (p : ApplyOutcomeParams) (occurred : time)
    (row : transaction_row) (l : ledger) : ledger :=
  with_transactions (insert (t_ID row) (settle_transaction now p occurred row)) l.

Lemma ApplyTransactionOutcome_run now p l r l' :
  ApplyTransactionOutcome now p l = (r, l') →
  unchanged r l l' ∨
  (∃ row, payment_transactions l !! ap_TransactionID p = Some row ∧
     ((r = inr false ∧ l' = l ∧ t_Status row = ap_NewTxStatus p) ∨
      (r = inr true ∧ t_Status row = TxPending ∧
       (ap_NewTxStatus p = TxSucceeded ∨ ap_NewTxStatus p = TxFailed) ∧
       ∃ occurred, no_clash t_ProviderRef l (t_ID row) (settle_transaction now p occurred row) ∧
       ∃ i, payment_intents l !! t_IntentID row = Some i ∧
         (i_Status i = ap_NewIntentStatus p ∧ l' = settled now p occurred row l ∨
          i_Status i = IntentProcessing ∧
          isKnownIntentStatus (ap_NewIntentStatus p) = true ∧
          l' = moved (settled now p occurred row l) i
                 (set_status now (ap_NewIntentStatus p) (nullif_empty (ap_FailureReason p)) i)
                 (audit now (t_IntentID row) IntentProcessing (ap_NewIntentStatus p)
                    None (ap_Reason p)))))).
Proof.
  intros R. unfold ApplyTransactionOutcome in R. unfold_run R.
  case_run R; try failed_run; strings;
    match goal with E : scanTransaction _ = Some _ |- _ =>
      apply scanTransaction_fields in E as (? & EI & ? & ES & ?) end;
    rewrite ?EI, ?ES in *.
  { right. eexists. split; [done|]. by left. }
  all: written (@update_transaction) update_transaction_run.
  all: written (@settle_intent) settle_intent_run; try (by match goal with X : ∃ _, inr _ = inl _ |- _ => destruct X end).
  all: right; eexists; split; [done|right]; repeat (split; [by auto|]);
    eexists; split; [done|]; done.
Qed.

Lemma InsertRefund_run now fresh x l r l' :
  InsertRefund now fresh x l = (r, l') →
  unchanged r l l' ∨
  let row := refund_values now (assign_id (r_ID x) fresh) x in
  l' = with_refunds (insert (r_ID row) row) l ∧
  payment_refunds l !! r_ID row = None ∧ refund_check row = true ∧
  ¬ in_flight_clash l (r_ID row) row ∧
  is_Some (payment_intents l !! r_IntentID row).
Proof.
  intros R. unfold InsertRefund in R. unfold_run R. case_run R.
  all: written (@insert_refund) insert_refund_run; first [failed_run|naive_solver].
Qed.

Lemma UpdateRefundStatus_run now id from to ref reason l r l' :
  UpdateRefundStatus now id from to ref reason l = (r, l') →
  unchanged r l l' ∨
  r = inr tt ∧ ∃ row, payment_refunds l !! id = Some row ∧ r_Status row = from ∧
    from = RefundRequested ∧ (to = RefundCompleted ∨ to = RefundFailed) ∧
    l' = with_refunds (insert (r_ID row) (set_refund_status now to ref reason row)) l.
Proof.
  intros R. unfold UpdateRefundStatus in R. unfold_run R.
  case_run R; try failed_run; strings; simplify_eq.
  written (@update_refund) update_refund_run.
  right. split; [done|]. eexists. split_and!; done.
Qed.

Lemma ClaimIdempotencyKey_run now key scope hash l r l' :
  ClaimIdempotencyKey now key scope hash l = (r, l') →
  r = inl ErrDB ∧ l' = l ∨
  (∃ row, payment_idempotency_keys l !! key = Some row ∧ l' = l ∧
     r = inr (mkClaimResult false (k_result row) (k_payload_hash row))) ∨
  r = inr (mkClaimResult true "" "") ∧ payment_idempotency_keys l !! key = None ∧
  l' = with_idempotency_keys (insert key (mkIdem scope hash "" now None)) l ∧
  idem_check (mkIdem scope hash "" now None) = true.
Proof.
  intros R. run_of R ClaimIdempotencyKey; [right; left|right; right|left]; try done.
  by eexists.
Qed.

Lemma CompleteIdempotencyKey_run now key result l r l' :
  CompleteIdempotencyKey now key result l = (r, l') →
  l' = l ∨
  ∃ row, payment_idempotency_keys l !! key = Some row ∧ k_result row = "" ∧
    result ≠ "" ∧ r = inr tt ∧
    l' = with_idempotency_keys (insert key
           (mkIdem (k_scope row) (k_payload_hash row) result (k_created_at row) (Some now))) l.
Proof.
  intros R. unfold CompleteIdempotencyKey, update_idem in R. unfold_run R.
  case_run R; auto; reflect; strings. right. eexists. done.
Qed.

End Runs.
