(* ===== verification/PayInvariant.v ===== *)
(** * PayInvariant: the invariant of the payments ledger

    Which steps the payments service takes on the ledger ([payment_step]), in
    whatever order the deliveries, the requests and the reconciliation runs
    interleave; the invariant those steps keep, and what can never change. *)

From S2P Require Import Prelude Sql Money PayMachine PayModels PayStore PayLedger.

Open Scope Z_scope.

(** ** Histories *)

(** The audit rows of one intent, oldest first. *)
Definition history (l : ledger) (id : uuid) : list IntentTransition :=
  filter (λ a, it_IntentID a = id) (payment_intent_transitions l).

(** [chain s log s']: the rows lead from [s] to [s'], each starting where the
    previous one ended. *)
Fixpoint chain (s : string) (log : list IntentTransition) (s' : string) : Prop :=
  match log with
  | [] => s = s'
  | a :: log => it_FromStatus a = s ∧ chain (it_ToStatus a) log s'
  end.

Lemma chain_app s log a s' :
  chain s log s' → it_FromStatus a = s' → chain s (log ++ [a]) (it_ToStatus a).
Proof. revert s. induction log; naive_solver. Qed.

(** The moves the service asks for: those of the table, and the synchronous
    rejection. *)
Definition service_move (from to : IntentStatus) : Prop :=
  CanTransitionIntentStatus from to = None ∨
  from = IntentCreated ∧ to = IntentFailed.

(** The intent status a settlement carries. *)
Definition intent_outcome (s : TransactionStatus) : IntentStatus :=
  if String.eqb s TxFailed then IntentFailed else IntentSucceeded.

(** ** The invariant *)

Record well_formed (l : ledger) : Prop := {
  wf_intent : ∀ id i, payment_intents l !! id = Some i →
    i_ID i = id ∧ intent_check i = true;
  wf_transaction : ∀ id t, payment_transactions l !! id = Some t →
    t_ID t = id ∧ transaction_check t = true ∧
    ∃ i, payment_intents l !! t_IntentID t = Some i ∧
      t_AmountMinor t = i_AmountMinor i ∧ t_Currency t = i_Currency i;
  wf_refund : ∀ id r, payment_refunds l !! id = Some r →
    r_ID r = id ∧ refund_check r = true ∧
    ∃ i, payment_intents l !! r_IntentID r = Some i ∧ i_Status i = IntentSucceeded ∧
      r_AmountMinor r = i_AmountMinor i ∧ r_Currency r = i_Currency i;
  wf_provider_ref : ∀ id t id' t', payment_transactions l !! id = Some t →
    payment_transactions l !! id' = Some t' → t_Provider t = t_Provider t' →
    t_ProviderRef t = t_ProviderRef t' → indexed (t_ProviderRef t) ≠ None → id = id';
  wf_in_flight : ∀ id r id' r', payment_refunds l !! id = Some r →
    payment_refunds l !! id' = Some r' → r_IntentID r = r_IntentID r' →
    r_Status r = RefundRequested → r_Status r' = RefundRequested → id = id';
  wf_history : ∀ id, match payment_intents l !! id with
    | Some i => chain IntentCreated (history l id) (i_Status i)
    | None => history l id = []
    end;
  wf_moves : Forall (λ a, service_move (it_FromStatus a) (it_ToStatus a))
    (payment_intent_transitions l);
}.

(** Money collected and intents succeeded agree. *)
Record coherent (l : ledger) : Prop := {
  co_succeeded : ∀ id t i, payment_transactions l !! id = Some t →
    t_Status t = TxSucceeded → payment_intents l !! t_IntentID t = Some i →
    i_Status i = IntentSucceeded;
  co_collected : ∀ id i, payment_intents l !! id = Some i →
    i_Status i = IntentSucceeded →
    ∃ tid t, payment_transactions l !! tid = Some t ∧ t_IntentID t = id ∧
      t_Status t = TxSucceeded;
}.

Definition ledger_ok (l : ledger) : Prop := well_formed l ∧ coherent l.

Lemma empty_ledger_ok : ledger_ok empty_ledger.
Proof. split; constructor; simpl; intros; simplify_map_eq; try done; constructor. Qed.

(** ** The writes keep it *)

Lemma wf_insert_intent l row :
  well_formed l → payment_intents l !! i_ID row = None → intent_check row = true →
  i_Status row = IntentCreated →
  well_formed (with_intents (insert (i_ID row) row) l).
Proof.
  intros W N C S. destruct W. constructor; simpl; intros; eauto.
  - apply lookup_insert_Some in H as [[<- <-]|[? H]]; eauto.
  - destruct (wf_transaction0 _ _ H) as (? & ? & i & Hi & ?).
    split_and!; try done. exists i. rewrite lookup_insert_ne; [done|congruence].
  - destruct (wf_refund0 _ _ H) as (? & ? & i & Hi & ?).
    split_and!; try done. exists i. rewrite lookup_insert_ne; [done|congruence].
  - specialize (wf_history0 id). unfold history in *. simpl.
    destruct (decide (id = i_ID row)) as [->|].
    + rewrite lookup_insert_eq. rewrite N in wf_history0. by rewrite wf_history0, S.
    + by rewrite lookup_insert_ne.
Qed.

Lemma wf_insert_transaction l row i :
  well_formed l → payment_transactions l !! t_ID row = None →
  transaction_check row = true → no_clash t_ProviderRef l (t_ID row) row →
  payment_intents l !! t_IntentID row = Some i →
  t_AmountMinor row = i_AmountMinor i → t_Currency row = i_Currency i →
  well_formed (with_transactions (insert (t_ID row) row) l).
Proof.
  intros W N C U I A Cu. destruct W. constructor; simpl; [done| |done| |done..].
  - intros id t [[<- <-]|[_ H]]%lookup_insert_Some; eauto 10.
  - intros id t id' t' H H' P R I'.
    apply lookup_insert_Some in H as [[<- <-]|[Ne H]];
    apply lookup_insert_Some in H' as [[<- <-]|[Ne' H']]; [done|..|by eauto].
    + destruct I'. by eapply U.
    + destruct I'. rewrite R. by eapply U.
Qed.

(** A row replaced by one with the same key, amount and currency. *)
Lemma wf_move l row new a :
  well_formed l → payment_intents l !! i_ID row = Some row →
  i_Status row ≠ IntentSucceeded → intent_check new = true → i_ID new = i_ID row →
  i_AmountMinor new = i_AmountMinor row → i_Currency new = i_Currency row →
  it_IntentID a = i_ID row → it_FromStatus a = i_Status row →
  it_ToStatus a = i_Status new → service_move (i_Status row) (i_Status new) →
  well_formed (moved l row new a).
Proof.
  intros W L NS C Id A Cu AI AF AT SM. destruct W. unfold moved.
  constructor; simpl; [| | |done|done| |].
  - intros id i [[<- <-]|[_ H]]%lookup_insert_Some; eauto.
  - intros id t H. destruct (wf_transaction0 _ _ H) as (? & ? & i & Hi & ? & ?).
    split_and!; [done..|]. destruct (decide (t_IntentID t = i_ID row)) as [E|].
    + exists new. rewrite E, lookup_insert_eq. rewrite E in Hi. simplify_eq.
      split_and!; congruence.
    + exists i. by rewrite lookup_insert_ne.
  - intros id r H. destruct (wf_refund0 _ _ H) as (? & ? & i & Hi & ? & ? & ?).
    split_and!; [done..|]. destruct (decide (r_IntentID r = i_ID row)) as [E|].
    + rewrite E in Hi. simplify_eq.
    + exists i. by rewrite lookup_insert_ne.
  - intros id. specialize (wf_history0 id). unfold history in *. simpl.
    rewrite list.filter_app, list.filter_cons, list.filter_nil, AI.
    destruct (decide (i_ID row = id)) as [<-|Ne].
    + rewrite lookup_insert_eq, <-AT. rewrite L in wf_history0. by eapply chain_app.
    + rewrite lookup_insert_ne, app_nil_r by done. done.
  - apply Forall_app. split; [done|]. constructor; [|constructor]. by rewrite AF, AT.
Qed.

Lemma wf_settled now p occurred l row :
  well_formed l → payment_transactions l !! t_ID row = Some row →
  (ap_NewTxStatus p = TxSucceeded ∨ ap_NewTxStatus p = TxFailed) →
  well_formed (settled now p occurred row l).
Proof.
  intros W L S. destruct W. unfold settled. constructor; simpl; [done| |done| |done..].
  - intros id t [[<- <-]|[_ H]]%lookup_insert_Some; [|by eauto].
    destruct (wf_transaction0 _ _ L) as (? & Ck & ?). simpl.
    split_and!; [done| |done]. unfold transaction_check in *. simpl.
    apply andb_true_iff in Ck as [-> _]. by destruct S as [-> | ->].
  - intros id t id' t' H H' P R I'.
    apply lookup_insert_Some in H as [[<- <-]|[Ne H]];
    apply lookup_insert_Some in H' as [[<- <-]|[Ne' H']]; simpl in *; eauto.
Qed.

Lemma wf_insert_refund l row i :
  well_formed l → payment_refunds l !! r_ID row = None → refund_check row = true →
  ¬ in_flight_clash l (r_ID row) row → payment_intents l !! r_IntentID row = Some i →
  i_Status i = IntentSucceeded →
  r_AmountMinor row = i_AmountMinor i → r_Currency row = i_Currency i →
  well_formed (with_refunds (insert (r_ID row) row) l).
Proof.
  intros W N C F I S A Cu. destruct W. constructor; simpl; [done|done| |done| |done..].
  - intros id r [[<- <-]|[_ H]]%lookup_insert_Some; eauto 10.
  - intros id r id' r' H H' I' R R'.
    apply lookup_insert_Some in H as [[<- <-]|[Ne H]];
    apply lookup_insert_Some in H' as [[<- <-]|[Ne' H']]; [done|..|by eauto].
    + by destruct (in_flight_clash_false _ _ _ F R _ _ H' (not_eq_sym Ne')).
    + by destruct (in_flight_clash_false _ _ _ F R' _ _ H (not_eq_sym Ne)).
Qed.

Lemma wf_update_refund now to ref reason l row :
  well_formed l → payment_refunds l !! r_ID row = Some row →
  (to = RefundCompleted ∨ to = RefundFailed) →
  well_formed (with_refunds (insert (r_ID row) (set_refund_status now to ref reason row)) l).
Proof.
  intros W L S. destruct W. constructor; simpl; [done|done| |done| |done..].
  - intros id r [[<- <-]|[_ H]]%lookup_insert_Some; [|by eauto].
    destruct (wf_refund0 _ _ L) as (? & Ck & ?). simpl. split_and!; [done| |done].
    unfold refund_check in *. simpl. apply andb_true_iff in Ck as [-> _].
    by destruct S as [-> | ->].
  - intros id r id' r' H H' I' R R'.
    apply lookup_insert_Some in H as [[<- <-]|[Ne H]];
    apply lookup_insert_Some in H' as [[<- <-]|[Ne' H']]; simpl in *;
    [done|by destruct S as [-> | ->]..|by eauto].
Qed.

(** ** The steps of the payments service *)

Section Steps.
Context `{Driver}.

(** One store call, as the code of the service and of the reconciler makes it,
    with what that code has established about data that never changes. A
    constructor covers the call whatever it answers. *)
Inductive payment_step (l : ledger) : ledger → Prop :=
  | step_create now fresh i r l' :
      i_Status i = IntentCreated →
      CreateIntent now fresh i l = (r, l') → payment_step l l'
  | step_attempt now fresh t r l' :
      t_Status t = TxPending ∨ t_Status t = TxFailed →
      (∀ i, payment_intents l !! t_IntentID t = Some i →
        t_AmountMinor t = i_AmountMinor i ∧ t_Currency t = i_Currency i) →
      InsertTransaction now fresh t l = (r, l') → payment_step l l'
  | step_initiated now id to actor reason r l' :
      to = IntentProcessing ∨ to = IntentFailed →
      UpdateIntentStatus now id IntentCreated to actor reason l = (r, l') →
      payment_step l l'
  | step_settle now p r l' :
      ap_NewTxStatus p ≠ TxPending →
      ap_NewIntentStatus p = intent_outcome (ap_NewTxStatus p) →
      ApplyTransactionOutcome now p l = (r, l') → payment_step l l'
  | step_refund_requested now fresh x r l' :
      (∀ i, payment_intents l !! r_IntentID x = Some i →
        i_Status i = IntentSucceeded ∧
        r_AmountMinor x = i_AmountMinor i ∧ r_Currency x = i_Currency i) →
      InsertRefund now fresh x l = (r, l') → payment_step l l'
  | step_refund_resolved now id from to ref reason r l' :
      UpdateRefundStatus now id from to ref reason l = (r, l') → payment_step l l'
  | step_claim now key scope hash r l' :
      ClaimIdempotencyKey now key scope hash l = (r, l') → payment_step l l'
  | step_complete now key result r l' :
      CompleteIdempotencyKey now key result l = (r, l') → payment_step l l'.

Definition payment_steps : ledger → ledger → Prop := rtc payment_step.

(** The same table contents of intents and transactions. *)
Lemma coherent_same l l' :
  payment_intents l' = payment_intents l →
  payment_transactions l' = payment_transactions l → coherent l → coherent l'.
Proof. intros EI ET C. destruct C. constructor; rewrite EI, ET; eauto. Qed.

Lemma with_idem_well_formed f l :
  well_formed l → well_formed (with_idempotency_keys f l).
Proof. intros W. destruct W. constructor; simpl; eauto. Qed.

Lemma create_ok now fresh i r l l' :
  ledger_ok l → i_Status i = IntentCreated → CreateIntent now fresh i l = (r, l') →
  ledger_ok l'.
Proof.
  intros [W C] S [[-> _]|(-> & N & Ck)]%CreateIntent_run; [done|]. simpl in *.
  split; [by apply wf_insert_intent|].
  destruct C. constructor; simpl.
  - intros id t i' Lt St Li. apply lookup_insert_Some in Li as [[E <-]|[_ Li]]; [|by eauto].
    destruct (wf_transaction _ W _ _ Lt) as (_ & _ & ? & ? & _). simpl in *. congruence.
  - intros id i' Li Si. apply lookup_insert_Some in Li as [[E <-]|[_ Li]]; [|by eauto].
    simpl in Si. rewrite S in Si. done.
Qed.

Lemma attempt_ok now fresh t r l l' :
  ledger_ok l → t_Status t = TxPending ∨ t_Status t = TxFailed →
  (∀ i, payment_intents l !! t_IntentID t = Some i →
    t_AmountMinor t = i_AmountMinor i ∧ t_Currency t = i_Currency i) →
  InsertTransaction now fresh t l = (r, l') → ledger_ok l'.
Proof.
  intros [W C] S A [[-> _]|(-> & N & Ck & U & [i Li])]%InsertTransaction_run; [done|].
  simpl in *. destruct (A _ Li). split; [by eapply wf_insert_transaction|].
  destruct C. constructor; simpl.
  - intros id t' i' Lt St Li'. apply lookup_insert_Some in Lt as [[E <-]|[_ Lt]]; [|by eauto].
    simpl in St. destruct S as [S|S]; by rewrite S in St.
  - intros id i' Li' Si. destruct (co_collected0 _ _ Li' Si) as (tid & t' & Lt & ? & ?).
    exists tid, t'. rewrite lookup_insert_ne; [done|congruence].
Qed.

Lemma initiated_ok now id to actor reason r l l' :
  ledger_ok l → to = IntentProcessing ∨ to = IntentFailed →
  UpdateIntentStatus now id IntentCreated to actor reason l = (r, l') → ledger_ok l'.
Proof.
  intros [W C] S [[-> _]|(_ & row & L & Sr & _ & K & ->)]%UpdateIntentStatus_run; [done|].
  destruct (wf_intent _ W _ _ L) as [Id Ck]. subst id.
  split.
  - apply wf_move; try done.
    + by rewrite Sr.
    + unfold intent_check in *. simpl. apply andb_true_iff in Ck as [-> _]. done.
    + simpl. rewrite Sr. unfold service_move.
      destruct S as [-> | ->]; [left; done|by right].
  - destruct C. constructor; simpl.
    + intros tid t i' Lt St Li. apply lookup_insert_Some in Li as [[E <-]|[_ Li]]; [|by eauto].
      rewrite E in L. rewrite (co_succeeded0 _ _ _ Lt St L) in Sr. done.
    + intros id' i' Li Si. apply lookup_insert_Some in Li as [[E <-]|[_ Li]]; [|by eauto].
      simpl in Si. destruct S as [-> | ->]; done.
Qed.

(** A settlement of the transaction [row] whose intent is already there. *)
Lemma coherent_settled now p occurred l row i :
  coherent l → payment_transactions l !! t_ID row = Some row →
  t_Status row = TxPending → payment_intents l !! t_IntentID row = Some i →
  (ap_NewTxStatus p = TxSucceeded → i_Status i = IntentSucceeded) →
  coherent (settled now p occurred row l).
Proof.
  intros C L P Li Imp. destruct C. constructor; simpl.
  - intros id t i' Lt St Li'. apply lookup_insert_Some in Lt as [[E <-]|[_ Lt]]; [|by eauto].
    simpl in *. simplify_eq. auto.
  - intros id i' Li' Si. destruct (co_collected0 _ _ Li' Si) as (tid & t' & Lt & ? & Ss).
    exists tid, t'. rewrite lookup_insert_ne; [done|]. intros <-.
    rewrite Lt in L. simplify_eq. rewrite Ss in P. done.
Qed.

(** A settlement that moves the intent along. *)
Lemma coherent_moved now p occurred reason l row i a :
  coherent l → payment_transactions l !! t_ID row = Some row →
  t_Status row = TxPending → payment_intents l !! t_IntentID row = Some i →
  i_ID i = t_IntentID row → i_Status i = IntentProcessing →
  ap_NewTxStatus p = TxSucceeded ∧ ap_NewIntentStatus p = IntentSucceeded ∨
  ap_NewTxStatus p = TxFailed ∧ ap_NewIntentStatus p = IntentFailed →
  coherent (moved (settled now p occurred row l) i
              (set_status now (ap_NewIntentStatus p) reason i) a).
Proof.
  intros C L P Li Id Si O. destruct C. unfold moved, settled. constructor; simpl.
  - intros id t i' Lt St Li'.
    apply lookup_insert_Some in Li' as [[E <-]|[Ne Li']]; simpl.
    + destruct O as [[_ ->]|[Of _]]; [done|]. exfalso.
      apply lookup_insert_Some in Lt as [[_ <-]|[_ Lt]]; simpl in *;
        [by rewrite Of in St|].
      assert (i_Status i = IntentSucceeded) as X
        by (eapply (co_succeeded0 id t); [done..|by rewrite <-E, Id]).
      by rewrite X in Si.
    + apply lookup_insert_Some in Lt as [[_ <-]|[_ Lt]]; [|by eauto].
      simpl in *. congruence.
  - intros id i' Li' Si'.
    apply lookup_insert_Some in Li' as [[<- <-]|[Ne Li']]; simpl in *.
    + exists (t_ID row), (settle_transaction now p occurred row).
      rewrite lookup_insert_eq. simpl. split_and!; [done..|].
      destruct O as [[? _]|[_ O]]; [done|by rewrite O in Si'].
    + destruct (co_collected0 _ _ Li' Si') as (tid & t' & Lt & ? & Ss).
      exists tid, t'. rewrite lookup_insert_ne; [done|]. intros <-.
      by simplify_eq.
Qed.

Lemma intent_outcome_cases s :
  s = TxSucceeded ∨ s = TxFailed →
  s = TxSucceeded ∧ intent_outcome s = IntentSucceeded ∨
  s = TxFailed ∧ intent_outcome s = IntentFailed.
Proof. intros [-> | ->]; auto. Qed.

Lemma settle_ok now p r l l' :
  ledger_ok l → ap_NewIntentStatus p = intent_outcome (ap_NewTxStatus p) →
  ApplyTransactionOutcome now p l = (r, l') → ledger_ok l'.
Proof.
  intros [W C] O R%ApplyTransactionOutcome_run.
  destruct R as [[-> _]|(row & L & [(_ & -> & _)|R])]; [done..|].
  destruct R as (_ & P & S & occurred & _ & i & Li & R).
  destruct (wf_transaction _ W _ _ L) as [Idt _]. rewrite <-Idt in L.
  destruct (wf_intent _ W _ _ Li) as [Idi Ck].
  pose proof (intent_outcome_cases _ S) as O'. rewrite <-O in O'.
  destruct R as [[Si ->]|(Si & K & ->)].
  - split; [by apply wf_settled|]. eapply coherent_settled; [done..|].
    intros E. rewrite Si. destruct O' as [[_ ?]|[E' _]]; [done|by rewrite E in E'].
  - split; [|by apply coherent_moved].
    apply wf_move; simpl; try done.
    + by apply wf_settled.
    + by rewrite Idi.
    + by rewrite Si.
    + unfold intent_check in *. simpl. apply andb_true_iff in Ck as [-> _]. done.
    + rewrite Si. left. by destruct O' as [[_ ->]|[_ ->]].
Qed.

Lemma refund_requested_ok now fresh x r l l' :
  ledger_ok l →
  (∀ i, payment_intents l !! r_IntentID x = Some i →
    i_Status i = IntentSucceeded ∧
    r_AmountMinor x = i_AmountMinor i ∧ r_Currency x = i_Currency i) →
  InsertRefund now fresh x l = (r, l') → ledger_ok l'.
Proof.
  intros [W C] A [[-> _]|(-> & N & Ck & F & [i Li])]%InsertRefund_run; [done|].
  simpl in *. destruct (A _ Li) as (? & ? & ?).
  split; [by eapply wf_insert_refund|by apply (coherent_same l)].
Qed.

Lemma refund_resolved_ok now id from to ref reason r l l' :
  ledger_ok l → UpdateRefundStatus now id from to ref reason l = (r, l') → ledger_ok l'.
Proof.
  intros [W C] [[-> _]|(_ & row & L & _ & _ & S & ->)]%UpdateRefundStatus_run; [done|].
  destruct (wf_refund _ W _ _ L) as [Id _].
  split; [apply wf_update_refund; [done|by rewrite Id|done]|by apply (coherent_same l)].
Qed.

Lemma with_idem_ok f l : ledger_ok l → ledger_ok (with_idempotency_keys f l).
Proof. intros [W C]. split; [by apply with_idem_well_formed|by apply (coherent_same l)]. Qed.

Lemma payment_step_ok l l' : ledger_ok l → payment_step l l' → ledger_ok l'.
Proof.
  intros Ok [now fresh i r l'' S R|now fresh t r l'' S A R|now id to actor reason r l'' S R
    |now p r l'' _ O R|now fresh x r l'' A R|now id from to ref reason r l'' R
    |now key scope hash r l'' R|now key result r l'' R].
  - by eapply create_ok.
  - by eapply attempt_ok.
  - by eapply initiated_ok.
  - by eapply settle_ok.
  - by eapply refund_requested_ok.
  - by eapply refund_resolved_ok.
  - apply ClaimIdempotencyKey_run in R as [[_ ->]|[(? & _ & -> & _)|(_ & _ & -> & _)]];
      [done..|by apply with_idem_ok].
  - apply CompleteIdempotencyKey_run in R as [->|(? & _ & _ & _ & _ & ->)];
      [done|by apply with_idem_ok].
Qed.

Lemma payment_steps_ok l l' : ledger_ok l → payment_steps l l' → ledger_ok l'.
Proof. intros Ok. induction 1; [done|]. eauto using payment_step_ok. Qed.

(** ** Reachable ledgers *)

Definition reachable (l : ledger) : Prop := payment_steps empty_ledger l.

Lemma reachable_ok l : reachable l → ledger_ok l.
Proof. apply payment_steps_ok, empty_ledger_ok. Qed.

(** *** What a step leaves in place *)

(** A later version of a row: frozen once terminal, and its money frozen from
    the start. *)
Record kept (l l' : ledger) : Prop := {
  kept_intent : ∀ id i, payment_intents l !! id = Some i →
    ∃ i', payment_intents l' !! id = Some i' ∧
      i_AmountMinor i' = i_AmountMinor i ∧ i_Currency i' = i_Currency i ∧
      i_TenantID i' = i_TenantID i ∧ i_CreatedBy i' = i_CreatedBy i ∧
      i_CustomerID i' = i_CustomerID i ∧
      (IsIntentTerminal (i_Status i) = true → i' = i);
  kept_transaction : ∀ id t, payment_transactions l !! id = Some t →
    ∃ t', payment_transactions l' !! id = Some t' ∧
      t_IntentID t' = t_IntentID t ∧ t_Provider t' = t_Provider t ∧
      t_ProviderRef t' = t_ProviderRef t ∧
      t_AmountMinor t' = t_AmountMinor t ∧ t_Currency t' = t_Currency t ∧
      (IsTransactionTerminal (t_Status t) = true → t' = t);
  kept_refund : ∀ id r, payment_refunds l !! id = Some r →
    ∃ r', payment_refunds l' !! id = Some r' ∧
      r_IntentID r' = r_IntentID r ∧
      r_AmountMinor r' = r_AmountMinor r ∧ r_Currency r' = r_Currency r ∧
      (IsRefundTerminal (r_Status r) = true → r' = r);
  kept_key : ∀ key k, payment_idempotency_keys l !! key = Some k →
    ∃ k', payment_idempotency_keys l' !! key = Some k' ∧
      k_scope k' = k_scope k ∧ k_payload_hash k' = k_payload_hash k ∧
      (k_result k ≠ "" → k' = k);
  kept_log : ∃ more, payment_intent_transitions l' = payment_intent_transitions l ++ more;
}.

(** A table the write does not touch. *)
Ltac same_rows := intros ? x ?; exists x; split_and!; done.

#[export] Instance kept_preorder : PreOrder kept.
Proof.
  split.
  - intros l. split; try same_rows. exists []. by rewrite app_nil_r.
  - intros l1 l2 l3 [I T R K [m L]] [I' T' R' K' [m' L']]. split.
    + intros id i Hi. destruct (I _ _ Hi) as (i2 & Hi2 & E).
      destruct (I' _ _ Hi2) as (i3 & Hi3 & E'). exists i3.
      destruct_and?. split_and!; try congruence. intros S.
      assert (i2 = i) as -> by auto. auto.
    + intros id t Ht. destruct (T _ _ Ht) as (t2 & Ht2 & E).
      destruct (T' _ _ Ht2) as (t3 & Ht3 & E'). exists t3.
      destruct_and?. split_and!; try congruence. intros S.
      assert (t2 = t) as -> by auto. auto.
    + intros id r Hr. destruct (R _ _ Hr) as (r2 & Hr2 & E).
      destruct (R' _ _ Hr2) as (r3 & Hr3 & E'). exists r3.
      destruct_and?. split_and!; try congruence. intros S.
      assert (r2 = r) as -> by auto. auto.
    + intros key k Hk. destruct (K _ _ Hk) as (k2 & Hk2 & E).
      destruct (K' _ _ Hk2) as (k3 & Hk3 & E'). exists k3.
      destruct_and?. split_and!; try congruence. intros S.
      assert (k2 = k) as -> by auto. auto.
    + exists (m ++ m'). by rewrite L', L, app_assoc.
Qed.

(** Each write keeps the rows it does not touch, and what it must of the one
    it does. *)
Lemma kept_with_intents l row :
  (∀ i, payment_intents l !! i_ID row = Some i →
     i_AmountMinor row = i_AmountMinor i ∧ i_Currency row = i_Currency i ∧
     i_TenantID row = i_TenantID i ∧ i_CreatedBy row = i_CreatedBy i ∧
     i_CustomerID row = i_CustomerID i ∧ IsIntentTerminal (i_Status i) = false) →
  kept l (with_intents (insert (i_ID row) row) l).
Proof.
  intros K. split; simpl; try same_rows; [|by exists []; rewrite app_nil_r].
  intros id i L. destruct (decide (id = i_ID row)) as [->|Ne].
  - rewrite lookup_insert_eq. exists row. split; [done|].
    destruct (K i L) as (? & ? & ? & ? & ? & T). rewrite T. by split_and!.
  - rewrite lookup_insert_ne by done. exists i. by split_and!.
Qed.

Lemma kept_with_transactions l row :
  (∀ t, payment_transactions l !! t_ID row = Some t →
     t_IntentID row = t_IntentID t ∧ t_Provider row = t_Provider t ∧
     t_ProviderRef row = t_ProviderRef t ∧ t_AmountMinor row = t_AmountMinor t ∧
     t_Currency row = t_Currency t ∧ IsTransactionTerminal (t_Status t) = false) →
  kept l (with_transactions (insert (t_ID row) row) l).
Proof.
  intros K. split; simpl; try same_rows; [|by exists []; rewrite app_nil_r].
  intros id t L. destruct (decide (id = t_ID row)) as [->|Ne].
  - rewrite lookup_insert_eq. exists row. split; [done|].
    destruct (K t L) as (? & ? & ? & ? & ? & T). rewrite T. by split_and!.
  - rewrite lookup_insert_ne by done. exists t. by split_and!.
Qed.

Lemma kept_with_refunds l row :
  (∀ r, payment_refunds l !! r_ID row = Some r →
     r_IntentID row = r_IntentID r ∧ r_AmountMinor row = r_AmountMinor r ∧
     r_Currency row = r_Currency r ∧ IsRefundTerminal (r_Status r) = false) →
  kept l (with_refunds (insert (r_ID row) row) l).
Proof.
  intros K. split; simpl; try same_rows; [|by exists []; rewrite app_nil_r].
  intros id r L. destruct (decide (id = r_ID row)) as [->|Ne].
  - rewrite lookup_insert_eq. exists row. split; [done|].
    destruct (K r L) as (? & ? & ? & T). rewrite T. by split_and!.
  - rewrite lookup_insert_ne by done. exists r. by split_and!.
Qed.

Lemma kept_with_key l key row :
  (∀ k, payment_idempotency_keys l !! key = Some k →
     k_scope row = k_scope k ∧ k_payload_hash row = k_payload_hash k ∧ k_result k = "") →
  kept l (with_idempotency_keys (insert key row) l).
Proof.
  intros K. split; simpl; try same_rows; [|by exists []; rewrite app_nil_r].
  intros key' k L. destruct (decide (key' = key)) as [->|Ne].
  - rewrite lookup_insert_eq. exists row. destruct (K k L) as (? & ? & ->). by split_and!.
  - rewrite lookup_insert_ne by done. exists k. by split_and!.
Qed.

Lemma kept_with_log l a : kept l (with_intent_transitions (λ log, log ++ [a]) l).
Proof. split; simpl; try same_rows. by eexists. Qed.

Lemma kept_moved l row i reason now to a :
  payment_intents l !! i_ID row = Some row → i = row →
  IsIntentTerminal (i_Status row) = false →
  kept l (moved l i (set_status now to reason row) a).
Proof.
  intros L -> T. unfold moved. etrans; [|apply kept_with_log].
  apply (kept_with_intents l (set_status now to reason row)). simpl.
  intros i L'. rewrite L in L'. by simplify_eq.
Qed.

Lemma payment_step_kept l l' : ledger_ok l → payment_step l l' → kept l l'.
Proof.
  intros [W C] [now fresh i r l'' S R|now fresh t r l'' S A R|now id to actor reason r l'' S R
    |now p r l'' _ O R|now fresh x r l'' A R|now id from to ref reason r l'' R
    |now key scope hash r l'' R|now key result r l'' R].
  - apply CreateIntent_run in R as [[-> _]|(-> & N & _)]; [done|].
    apply kept_with_intents. intros i' L. congruence.
  - apply InsertTransaction_run in R as [[-> _]|(-> & N & _)]; [done|].
    apply kept_with_transactions. intros t' L. congruence.
  - apply UpdateIntentStatus_run in R as [[-> _]|(_ & row & L & Sr & _ & _ & ->)]; [done|].
    destruct (wf_intent _ W _ _ L) as [<- _]. apply kept_moved; [done..|by rewrite Sr].
  - apply ApplyTransactionOutcome_run in R as [[-> _]|(row & L & [(_ & -> & _)|R])]; [done..|].
    destruct R as (_ & P & _ & occurred & _ & i & Li & R).
    destruct (wf_transaction _ W _ _ L) as [Idt _]. rewrite <-Idt in L.
    destruct (wf_intent _ W _ _ Li) as [Idi _].
    assert (kept l (settled now p occurred row l)) as K.
    { apply (kept_with_transactions l (settle_transaction now p occurred row)).
      simpl. intros t' L'. rewrite L in L'. simplify_eq. rewrite P. done. }
    destruct R as [[_ ->]|(Si & _ & ->)]; [done|]. etrans; [exact K|].
    apply kept_moved; simpl; [by rewrite Idi|done|by rewrite Si].
  - apply InsertRefund_run in R as [[-> _]|(-> & N & _)]; [done|].
    apply kept_with_refunds. intros r' L. congruence.
  - apply UpdateRefundStatus_run in R as [[-> _]|(_ & row & L & Sr & E & _ & ->)]; [done|].
    destruct (wf_refund _ W _ _ L) as [Id _]. subst id.
    apply (kept_with_refunds l (set_refund_status now to ref reason row)).
    simpl. intros r' L'. rewrite L in L'. simplify_eq. by rewrite E.
  - apply ClaimIdempotencyKey_run in R as [[_ ->]|[(? & _ & -> & _)|(_ & N & -> & _)]];
      [done..|]. apply kept_with_key. intros k L. congruence.
  - apply CompleteIdempotencyKey_run in R as [->|(row & L & E & _ & _ & ->)]; [done|].
    apply kept_with_key. intros k L'. rewrite L in L'. by simplify_eq.
Qed.

Lemma payment_steps_kept l l' : ledger_ok l → payment_steps l l' → kept l l'.
Proof.
  intros Ok S. induction S as [|l1 l2 l3 S _ IH]; [done|].
  etrans; [by apply payment_step_kept|]. apply IH. by eapply payment_step_ok.
Qed.

End Steps.
