(* ===== verification/PayLedgerProps.v ===== *)
(** * PayLedgerProps: what the payments ledger guarantees

    Properties of every ledger the service can reach, under any interleaving of
    its store calls, and of the settlement call itself. *)

From S2P Require Import Prelude Sql Money PayMachine PayModels PayStore PayLedger PayInvariant.

Open Scope Z_scope.

(** ** A concrete run

    One intent of KES 15.00 collected through the sandbox; the driver reads
    NULL as the empty string. *)
Module Demo.
#[local] Existing Instance lenient.

Definition an_intent : PaymentIntent :=
  mkIntent uuid_nil (Some 7%N) (Some 8%N) 9%N 1500 "KES" IntentCreated "sandbox"
    "" None None "" "" None None None 0 0.
Definition a_transaction : Transaction :=
  mkTransaction 2%N 1%N "sandbox" "SBX-2" "" TxPending 1500 "KES" "" None 0 0.
Definition an_outcome : ApplyOutcomeParams :=
  mkApplyOutcomeParams 2%N TxSucceeded IntentSucceeded "RCPT" "" 130 "webhook".
Definition a_refund : Refund :=
  mkRefund uuid_nil 1%N 1500 "KES" RefundRequested "sandbox" "" "duplicate" "" None 0 0.

Definition created : ledger := (CreateIntent 100 1%N an_intent empty_ledger).2.
Definition attempted : ledger := (InsertTransaction 110 2%N a_transaction created).2.
Definition processing : ledger :=
  (UpdateIntentStatus 120 1%N IntentCreated IntentProcessing (Some 9%N) "" attempted).2.
Definition collected : ledger := (ApplyTransactionOutcome 140 an_outcome processing).2.
Definition refund_requested : ledger := (InsertRefund 150 3%N a_refund collected).2.
Definition refunded : ledger :=
  (UpdateRefundStatus 160 3%N RefundRequested RefundCompleted "SBXRF-3" "" refund_requested).2.

Lemma processing_reachable : reachable processing.
Proof.
  eapply rtc_l; [by eapply (step_create _ 100 1%N an_intent); [|apply surjective_pairing]|].
  eapply rtc_l.
  { eapply (step_attempt _ 110 2%N a_transaction);
      [by left| |apply surjective_pairing].
    intros i E. vm_compute in E. by simplify_eq. }
  apply rtc_once. eapply (step_initiated _ 120 1%N IntentProcessing (Some 9%N) "");
    [by left|apply surjective_pairing].
Qed.

Lemma collected_reachable : reachable collected.
Proof.
  unfold reachable, payment_steps. etrans; [apply processing_reachable|].
  apply rtc_once. eapply (step_settle _ 140 an_outcome); [done..|].
  apply surjective_pairing.
Qed.

(** The rows of the run. *)
Definition collected_intent : intent_row :=
  mkIntent 1%N (Some 7%N) (Some 8%N) 9%N 1500 "KES" IntentSucceeded "sandbox"
    None None None "" None (Some 140) None None 100 140.
Definition collected_transaction : transaction_row :=
  mkTransaction 2%N 1%N "sandbox" (Some "SBX-2") (Some "RCPT") TxSucceeded 1500 "KES"
    None (Some 0) 110 140.
Definition completed_refund : refund_row :=
  mkRefund 3%N 1%N 1500 "KES" RefundCompleted "sandbox" (Some "SBXRF-3") "duplicate"
    None None 150 160.

Lemma collected_intent_row : payment_intents collected !! 1%N = Some collected_intent.
Proof. vm_compute. reflexivity. Qed.
Lemma collected_transaction_row :
  payment_transactions collected !! 2%N = Some collected_transaction.
Proof. vm_compute. reflexivity. Qed.
Lemma completed_refund_row : payment_refunds refunded !! 3%N = Some completed_refund.
Proof. vm_compute. reflexivity. Qed.
Lemma applied : ApplyTransactionOutcome 140 an_outcome processing = (inr true, collected).
Proof. vm_compute. reflexivity. Qed.
Lemma correlated :
  GetTransactionByProviderRef "sandbox" "SBX-2" collected =
  (inr (mkTransaction 2%N 1%N "sandbox" "SBX-2" "RCPT" TxSucceeded 1500 "KES" ""
          (Some 0) 110 140), collected).
Proof. vm_compute. reflexivity. Qed.

Lemma refunded_steps : payment_steps collected refunded.
Proof.
  eapply rtc_l.
  { eapply (step_refund_requested _ 150 3%N a_refund); [|apply surjective_pairing].
    intros i E. vm_compute in E. by simplify_eq. }
  apply rtc_once. eapply (step_refund_resolved _ 160 3%N). apply surjective_pairing.
Qed.

Lemma refunded_reachable : reachable refunded.
Proof. unfold reachable, payment_steps. etrans; [apply collected_reachable|apply refunded_steps]. Qed.
End Demo.

Section Reachable.
Context `{Driver}.

(** ** Money collected *)

(** C3. In every reachable ledger an intent is SUCCEEDED exactly when one of its
    transactions is SUCCEEDED, and that transaction collected exactly the amount
    and the currency of the intent. *)
Theorem succeeded_iff_collected l (R : reachable l) id i
    (L : payment_intents l !! id = Some i) :
  i_Status i = "SUCCEEDED" ↔
  ∃ tid t, payment_transactions l !! tid = Some t ∧ t_IntentID t = id ∧
    t_Status t = "SUCCEEDED" ∧
    t_AmountMinor t = i_AmountMinor i ∧ t_Currency t = i_Currency i.
Proof.
  apply reachable_ok in R as [W C]. split.
  - intros S. destruct (co_collected _ C _ _ L S) as (tid & t & Lt & <- & St).
    exists tid, t. destruct (wf_transaction _ W _ _ Lt) as (_ & _ & i' & Li & A & Cu).
    rewrite L in Li. by simplify_eq.
  - intros (tid & t & Lt & <- & St & _). exact (co_succeeded _ C _ _ _ Lt St L).
Qed.

(** C4. Whatever the service does next, in any interleaving: money never changes
    on an existing row, a terminal intent, transaction or refund keeps its whole
    row, a completed idempotency key keeps its result, no row disappears and the
    audit log only grows. *)
Theorem settled_rows_frozen l l' (R : reachable l) (S : payment_steps l l') : kept l l'.
Proof. apply payment_steps_kept; [by apply reachable_ok|done]. Qed.

(** Moves left by the service's discipline, which adds the synchronous
    rejection to the table. *)
Lemma service_move_decreases from to :
  service_move from to → (moves_left to < moves_left from)%nat.
Proof.
  intros [M|[-> ->]]; [|by vm_compute; lia].
  apply canTransition_None in M.
  by apply (ranked_check intentTransitions moves_left eq_refl).
Qed.

Lemma chain_length s log s' :
  chain s log s' → Forall (λ a, service_move (it_FromStatus a) (it_ToStatus a)) log →
  (length log ≤ moves_left s)%nat.
Proof.
  revert s. induction log as [|a log IH]; simpl; [lia|].
  intros s [<- C] [M F]%Forall_cons_1. pose proof (IH _ C F).
  apply service_move_decreases in M. lia.
Qed.

(** The audit log tells the whole story: the rows of an intent lead from
    CREATED to its current status without a gap, every row is a legal move or the
    synchronous rejection CREATED -> FAILED, there are at most two of them, and
    no row is about an intent that does not exist. *)
Theorem audit_log_complete l (R : reachable l) id :
  match payment_intents l !! id with
  | Some i =>
      chain "CREATED" (history l id) (i_Status i) ∧
      Forall (λ a, service_move (it_FromStatus a) (it_ToStatus a)) (history l id) ∧
      (length (history l id) ≤ 2)%nat
  | None => history l id = []
  end.
Proof.
  apply reachable_ok in R as [W _]. pose proof (wf_history _ W id) as Hh.
  destruct (payment_intents l !! id) as [i|]; [|done].
  assert (Forall (λ a, service_move (it_FromStatus a) (it_ToStatus a)) (history l id)) as F.
  { unfold history. apply list.Forall_forall. intros a [_ I]%list_elem_of_filter.
    pose proof (wf_moves _ W) as M. rewrite list.Forall_forall in M. auto. }
  split_and!; [done..|]. apply (chain_length _ _ _ Hh F).
Qed.

(** C12. Every refund ever recorded refunds a SUCCEEDED intent, in full: the same
    amount and the same currency; and at most one refund of an intent is
    REQUESTED at a time. *)
Theorem refunds_in_full l (R : reachable l) id r
    (L : payment_refunds l !! id = Some r) :
  (∃ i, payment_intents l !! r_IntentID r = Some i ∧ i_Status i = "SUCCEEDED" ∧
     r_AmountMinor r = i_AmountMinor i ∧ r_Currency r = i_Currency i) ∧
  (r_Status r = "REQUESTED" → ∀ id' r', payment_refunds l !! id' = Some r' →
     r_IntentID r' = r_IntentID r → r_Status r' = "REQUESTED" → id' = id).
Proof.
  apply reachable_ok in R as [W _]. split.
  - by apply (wf_refund _ W _ _ L).
  - intros S id' r' L' I S'. by eapply (wf_in_flight _ W id' r' id r).
Qed.

(** The webhook correlation handle is unambiguous: a transaction found by
    provider and non-empty reference is the only one that carries them. *)
Theorem provider_ref_unambiguous l (R : reachable l) provider ref t l'
    (NE : ref ≠ "")
    (G : GetTransactionByProviderRef provider ref l = (inr t, l')) :
  l' = l ∧ t_Provider t = provider ∧
  ∃ row, payment_transactions l !! t_ID t = Some row ∧ scanTransaction row = Some t ∧
    ∀ id' row', payment_transactions l !! id' = Some row' →
      t_Provider row' = provider → t_ProviderRef row' = Some ref → id' = t_ID t.
Proof.
  apply reachable_ok in R as [W _].
  unfold GetTransactionByProviderRef in G. unfold_run G.
  destruct (List.filter _ _) as [|row rows] eqn:F; [done|].
  assert (row ∈ (map_to_list (payment_transactions l)).*2 ∧
          by_provider_ref provider ref row = true) as [I B].
  { rewrite list_elem_of_In, <-filter_In, F. by left. }
  apply list_elem_of_fmap in I as ([id row'] & -> & I). simpl in *.
  apply elem_of_map_to_list in I.
  unfold by_provider_ref in B. reflect. strings.
  destruct (wf_transaction _ W _ _ I) as [Id _].
  case_run G. match goal with S : scanTransaction _ = Some _ |- _ =>
    destruct (scanTransaction_fields _ _ S) as (Et & _ & Ep & _) end.
  split_and!; [done|congruence|]. exists row'. split_and!; [by rewrite Et|done|].
  intros id' row2 L' P' R'. rewrite Et.
  eapply (wf_provider_ref _ W id' row2 (t_ID row') row'); [done..|congruence|congruence|].
  rewrite R'. simpl. by destruct (String.eqb_spec ref "").
Qed.

(** ** Exactly one settlement *)

(** Once a settlement was applied, repeating it for the same transaction is a
    no-op that reports [applied = false], and asking for any other outcome is an
    [ErrConflict]; neither changes the ledger. (A row the driver cannot scan
    fails before that, also without a change.) *)
Theorem settled_exactly_once now p l l' (R : reachable l)
    (A : ApplyTransactionOutcome now p l = (inr true, l')) now' p'
    (Same : ap_TransactionID p' = ap_TransactionID p) :
  ∃ row, payment_transactions l' !! ap_TransactionID p = Some row ∧
    t_Status row = ap_NewTxStatus p ∧
    ApplyTransactionOutcome now' p' l' =
      (match scanTransaction row with
       | None => inl ErrDB
       | Some _ =>
           if String.eqb (ap_NewTxStatus p) (ap_NewTxStatus p')
           then inr false else inl ErrConflict
       end, l').
Proof.
  apply reachable_ok in R as [W _].
  apply ApplyTransactionOutcome_run in A as [[_ [? ?]]|(row & L & [(? & _)|A])]; [done..|].
  destruct A as (_ & P & S & occurred & _ & i & Li & A).
  destruct (wf_transaction _ W _ _ L) as [Id _].
  assert (payment_transactions l' !! ap_TransactionID p
          = Some (settle_transaction now p occurred row)) as L'.
  { destruct A as [[_ ->]|(_ & _ & ->)]; simpl; by rewrite Id, lookup_insert_eq. }
  eexists. split_and!; [exact L'|done|]. clear A.
  unfold ApplyTransactionOutcome. unfold_run_goal. rewrite Same, L'.
  destruct (scanTransaction _) as [t|] eqn:Sc; [|done].
  apply scanTransaction_fields in Sc as (_ & _ & _ & St & _). rewrite St. simpl.
  destruct (String.eqb_spec (ap_NewTxStatus p) (ap_NewTxStatus p')); [done|].
  by destruct S as [-> | ->].
Qed.

End Reachable.

(** ** Witnesses *)

Lemma succeeded_iff_collected_witness :
  payment_intents Demo.collected !! 1%N = Some Demo.collected_intent ∧
  i_Status Demo.collected_intent = "SUCCEEDED".
Proof.
  split; [exact Demo.collected_intent_row|].
  apply (succeeded_iff_collected (H:=lenient) Demo.collected Demo.collected_reachable 1%N
           Demo.collected_intent Demo.collected_intent_row).
  exists 2%N, Demo.collected_transaction.
  split; [exact Demo.collected_transaction_row|repeat split; reflexivity].
Defined.

Lemma settled_rows_frozen_witness : kept Demo.collected Demo.refunded.
Proof.
  apply (settled_rows_frozen (H:=lenient));
    [apply Demo.collected_reachable|apply Demo.refunded_steps].
Defined.

Lemma audit_log_complete_witness :
  (length (history Demo.collected 1%N) ≤ 2)%nat ∧
  chain "CREATED" (history Demo.collected 1%N) "SUCCEEDED".
Proof.
  pose proof (audit_log_complete (H:=lenient) Demo.collected Demo.collected_reachable 1%N)
    as A.
  rewrite Demo.collected_intent_row in A. destruct A as (C & _ & L).
  split; [exact L|exact C].
Defined.

Lemma refunds_in_full_witness :
  ∃ i, payment_intents Demo.refunded !! 1%N = Some i ∧ 1500 = i_AmountMinor i.
Proof.
  destruct (refunds_in_full (H:=lenient) Demo.refunded Demo.refunded_reachable 3%N
              Demo.completed_refund Demo.completed_refund_row) as [(i & L & _ & A & _) _].
  exists i. split; [exact L|exact A].
Defined.

Lemma provider_ref_unambiguous_witness :
  ∃ row, payment_transactions Demo.collected !! 2%N = Some row.
Proof.
  destruct (provider_ref_unambiguous (H:=lenient) Demo.collected Demo.collected_reachable
              "sandbox" "SBX-2" _ Demo.collected ltac:(discriminate) Demo.correlated)
    as (_ & _ & row & L & _).
  exists row. exact L.
Defined.

Lemma settled_exactly_once_witness :
  ∃ row, payment_transactions Demo.collected !! 2%N = Some row ∧
    ApplyTransactionOutcome (H:=lenient) 200 Demo.an_outcome Demo.collected =
      (match scanTransaction (H:=lenient) row with
       | None => inl ErrDB | Some _ => inr false end, Demo.collected).
Proof.
  destruct (settled_exactly_once (H:=lenient) 140 Demo.an_outcome Demo.processing
              Demo.collected Demo.processing_reachable Demo.applied 200 Demo.an_outcome
              eq_refl) as (row & L & _ & E).
  exists row. split; [exact L|exact E].
Defined.
