(* ===== verification/PayReads.v ===== *)
(** * PayReads: the scoped reads of the payments store

    What GetIntent, GetTransaction, GetRefund and ListIntents return for a
    principal: the data boundary of ADR-0004. The WHERE clause and the argument
    list the code assembles are shown to select exactly the rows the scope
    sees; for personal scopes they do not fit each other. *)

From S2P Require Import Prelude Sql Money PayMachine PayModels PayStore PayLedger PayInvariant.
From S2P Require Import PayLedgerProps.

Open Scope Z_scope.

(** A scope that is neither unrestricted nor organizational but personal. *)
Definition personal (scope : Scope) : bool :=
  negb (Unrestricted scope) &&
  match s_TenantID scope, s_PrincipalID scope with
  | None, Some _ => true
  | _, _ => false
  end.

(** ** Placeholders and arguments *)

(** A clause uses exactly the placeholders of its arguments. *)
Definition fits (c : cond) (args : list value) : Prop :=
  ∀ k, k ∈ placeholders c ↔ (1 ≤ k ≤ length args)%nat.

(** The predicate, whose placeholders start after [before] arguments. *)
Lemma scopePredicate_fits scope tc cc uc before c :
  personal scope = false → fits c before →
  let '(pred, args) := scopePredicate scope tc cc uc (S (length before)) in
  fits (and_pred c pred) (before ++ args) ∧
  fits (and_pred c (CExists <$> pred)) (before ++ args).
Proof.
  unfold personal, scopePredicate. intros P F.
  destruct (Unrestricted scope); [by rewrite app_nil_r|].
  destruct scope as [[t|] [p|] ?]; simpl in *; try done;
    unfold fits in *; simpl; split; intros k;
    rewrite ?elem_of_app, F, ?list_elem_of_singleton, ?elem_of_nil, ?length_app; simpl; lia.
Qed.

Section Reads.
Context `{Driver}.

(** A query the driver refuses does not reach the ledger. *)
Lemma send_cases used args l :
  send used args l = (if accepts used (length args) then inr tt else inl ErrDB, l).
Proof. unfold send. by destruct (accepts _ _). Qed.

Lemma send_fits c args l : fits c args → send (placeholders c) args l = (inr tt, l).
Proof. intros F. by rewrite send_cases, accepts_exact. Qed.

(** Whether the driver takes the query of a row by [column] and by the scope: that depends
    on the text and on the number of arguments alone. *)
Definition allowed (column : string) (scoped : option cond * list value) : bool :=
  accepts (placeholders (and_pred (CEq column 1) scoped.1)) (S (length scoped.2)).

Lemma allowed_organizational scope column : personal scope = false →
  allowed column (intentScopePredicate scope 2) = true ∧
  allowed column (joinScopePredicate scope 2) = true.
Proof.
  intros NP. unfold allowed, intentScopePredicate, joinScopePredicate.
  assert (F1 : fits (CEq column 1) [VNull]).
  { intros k. simpl. rewrite list_elem_of_singleton. lia. }
  pose proof (scopePredicate_fits scope "tenant_id" "created_by" "customer_id" [VNull] _ NP F1) as F.
  pose proof (scopePredicate_fits scope "i.tenant_id" "i.created_by" "i.customer_id" [VNull] _ NP F1) as F'.
  simpl in F, F'. destruct (scopePredicate scope "tenant_id" _ _ 2) as [p args].
  destruct (scopePredicate scope "i.tenant_id" _ _ 2) as [p' args'].
  split; apply accepts_exact; [apply F|apply F'].
Qed.

(** What a row that was selected becomes. *)
Definition read {row A} (scan : row → option A) (o : option row) (missing : StoreError)
    : StoreError + A :=
  match o with
  | Some r => match scan r with Some a => inr a | None => inl ErrDB end
  | None => inl missing
  end.

(** The rows a scope sees, by key. *)
Definition visible_intent (scope : Scope) (l : ledger) (id : uuid) : option intent_row :=
  i ← payment_intents l !! id; if sees scope i then Some i else None.

(** A row is seen through the intent it belongs to. *)
Definition sees_through (scope : Scope) (l : ledger) (intentID : uuid) : bool :=
  match visible_intent scope l intentID with Some _ => true | None => false end.

Lemma intent_clause scope id (row : intent_row) :
  i_ID row = id →
  let '(pred, args) := intentScopePredicate scope 2 in
  eval None (VUuid id :: args) (intent_env row) (and_pred (CEq "id" 1) pred) = sees scope row.
Proof.
  intros Id. unfold intentScopePredicate.
  pose proof (scopePredicate_sees scope [VUuid id] row "tenant_id" "created_by" "customer_id"
                eq_refl eq_refl eq_refl) as Ps.
  unfold pred_sees in Ps. change (S (length [VUuid id])) with 2%nat in Ps.
  assert (∀ args, eval None (VUuid id :: args) (intent_env row) (CEq "id" 1) = true) as Q.
  { intros args. rewrite <-Id. by apply sql_eq_refl. }
  destruct (scopePredicate _ _ _ _ 2) as [[c|] args]; cbn [and_pred fst snd] in *.
  - rewrite <-Ps. cbn [eval] in *. by rewrite Q.
  - by rewrite Q.
Qed.

Lemma join_clause scope l v intentID (env : env) column :
  is_Some (payment_intents l !! intentID) → env column = v → v ≠ VNull →
  let '(pred, args) := joinScopePredicate scope 2 in
  eval (parent_env l intentID) (v :: args) env (and_pred (CEq column 1) pred)
  = sees_through scope l intentID.
Proof.
  intros [i L] E N. unfold joinScopePredicate, sees_through, visible_intent, parent_env.
  rewrite L. simpl.
  pose proof (scopePredicate_sees scope [v] i "i.tenant_id" "i.created_by" "i.customer_id"
                eq_refl eq_refl eq_refl) as Ps.
  unfold pred_sees in Ps. change (S (length [v])) with 2%nat in Ps.
  assert (∀ args, sql_eq (env column) (arg (v :: args) 1) = true) as Q.
  { intros args. rewrite E. by apply sql_eq_refl. }
  destruct (scopePredicate _ _ _ _ 2) as [[c|] args];
    cbn [and_pred fst snd fmap option_fmap option_map] in *; rewrite <-Ps.
  - cbn [eval] in *. rewrite Q. simpl. by destruct (eval _ _ _ _).
  - cbn [eval]. by rewrite Q.
Qed.

Ltac scoped_query := unfold mbind at 1, M_bind at 1; rewrite send_cases; unfold allowed; cbn [fst snd length];
  destruct (accepts _ _); [unfold_run_goal|done].

Lemma GetIntent_any l scope id : well_formed l →
  GetIntent id scope l =
    (if allowed "id" (intentScopePredicate scope 2)
     then read scanIntent (visible_intent scope l id) ErrIntentNotFound else inl ErrDB, l).
Proof.
  intros W. unfold GetIntent, visible_intent.
  pose proof (λ row, intent_clause scope id row) as C.
  destruct (intentScopePredicate scope 2) as [pred args]. scoped_query.
  destruct (payment_intents l !! id) as [row|] eqn:L; [|done]. simpl.
  rewrite (C row) by (by apply (wf_intent _ W _ _ L)).
  destruct (sees scope row); [|done]. simpl. by destruct (scanIntent row).
Qed.

Lemma GetIntent_read l scope id : well_formed l → personal scope = false →
  GetIntent id scope l = (read scanIntent (visible_intent scope l id) ErrIntentNotFound, l).
Proof. intros W NP. by rewrite GetIntent_any, (proj1 (allowed_organizational _ "id" NP)). Qed.

Lemma GetTransaction_any l scope id : well_formed l →
  GetTransaction id scope l =
    (if allowed "t.id" (joinScopePredicate scope 2)
     then read scanTransaction
       (t ← payment_transactions l !! id;
        if sees_through scope l (t_IntentID t) then Some t else None)
       ErrTransactionNotFound else inl ErrDB, l).
Proof.
  intros W. unfold GetTransaction.
  pose proof (λ iid env, join_clause scope l (VUuid id) iid env "t.id") as C.
  destruct (joinScopePredicate scope 2) as [pred args]. scoped_query.
  destruct (payment_transactions l !! id) as [row|] eqn:L; [|done]. simpl.
  destruct (wf_transaction _ W _ _ L) as (Id & _ & i & Li & _).
  rewrite C; [|by eexists|by rewrite <-Id|done].
  destruct (sees_through _ _ _); [|done]. simpl. by destruct (scanTransaction row).
Qed.

Lemma GetRefund_any l scope id : well_formed l →
  GetRefund id scope l =
    (if allowed "r.id" (joinScopePredicate scope 2)
     then read scanRefund
       (r ← payment_refunds l !! id;
        if sees_through scope l (r_IntentID r) then Some r else None)
       ErrRefundNotFound else inl ErrDB, l).
Proof.
  intros W. unfold GetRefund.
  pose proof (λ iid env, join_clause scope l (VUuid id) iid env "r.id") as C.
  destruct (joinScopePredicate scope 2) as [pred args]. scoped_query.
  destruct (payment_refunds l !! id) as [row|] eqn:L; [|done]. simpl.
  destruct (wf_refund _ W _ _ L) as (Id & _ & i & Li & _).
  rewrite C; [|by eexists|by rewrite <-Id|done].
  destruct (sees_through _ _ _); [|done]. simpl. by destruct (scanRefund row).
Qed.

(** For every scope but the personal ones, a read by identifier answers
    exactly by the boundary: the row if the scope sees it (a transaction or a
    refund through its intent), and otherwise the same answer as for a row that
    does not exist. Reads never change the ledger. *)
Theorem scoped_reads_exact l (R : reachable l) scope (NP : personal scope = false) id :
  GetIntent id scope l =
    (read scanIntent (visible_intent scope l id) ErrIntentNotFound, l) ∧
  GetTransaction id scope l =
    (read scanTransaction
       (t ← payment_transactions l !! id;
        if sees_through scope l (t_IntentID t) then Some t else None)
       ErrTransactionNotFound, l) ∧
  GetRefund id scope l =
    (read scanRefund
       (r ← payment_refunds l !! id;
        if sees_through scope l (r_IntentID r) then Some r else None)
       ErrRefundNotFound, l).
Proof.
  apply reachable_ok in R as [W _]. rewrite GetIntent_any, GetTransaction_any, GetRefund_any by done.
  pose proof (λ c, proj1 (allowed_organizational scope c NP)) as I.
  pose proof (λ c, proj2 (allowed_organizational scope c NP)) as J. by rewrite I, !J.
Qed.

(** ** Listing *)

(** The optional narrowing of the registry. *)
Definition opt_matches {A} `{EqDecision A} (want : option A) (have : option A) : bool :=
  match want with Some a => bool_decide (have = Some a) | None => true end.

Definition matches (f : IntentFilter) (i : intent_row) : bool :=
  opt_matches (f_Status f) (Some (i_Status i)) &&
  opt_matches (f_CustomerID f) (i_CustomerID i) &&
  opt_matches (f_JobID f) (i_JobID i) &&
  opt_matches (f_VehicleID f) (i_VehicleID i).

(** A clause under construction means [b] on a row, and later arguments do not disturb it. *)
Definition means (q : cond * list value) (row : intent_row) (b : bool) : Prop :=
  ∀ later, eval None (q.2 ++ later) (intent_env row) q.1 = b.

Lemma means_add_filter column v q row b :
  means q row b →
  means (add_filter column v q) row
    (b && match v with Some v => sql_eq (intent_env row column) v | None => true end).
Proof.
  intros E later. destruct q as [c args], v as [v|]; unfold add_filter; cbn [fst snd eval].
  - rewrite <-app_assoc. simpl. rewrite E. f_equal. f_equal. unfold arg.
    rewrite length_app. simpl. rewrite Nat.add_1_r. simpl. by rewrite list_lookup_middle.
  - by rewrite andb_true_r, E.
Qed.

Lemma fits_add_filter column v q : fits q.1 q.2 → fits (add_filter column v q).1 (add_filter column v q).2.
Proof.
  intros F. destruct q as [c args], v as [v|]; unfold add_filter; [|done]. simpl in *. intros k.
  cbn [placeholders]. rewrite elem_of_app, (F k), list_elem_of_singleton, length_app. simpl. lia.
Qed.

Lemma sql_eq_opt {A} `{EqDecision A} (f : A → value) (want : option A) (have : option A) :
  (∀ a, f a ≠ VNull) → Inj (=) (=) f →
  match f <$> want with
  | Some v => sql_eq (match have with Some a => f a | None => VNull end) v
  | None => true
  end = opt_matches want have.
Proof.
  intros N I. destruct want as [a|]; [|done]. simpl. destruct have as [a'|]; simpl; [|done].
  destruct (decide (a' = a)) as [->|Ne].
  - rewrite sql_eq_refl by done. symmetry. by apply bool_decide_eq_true.
  - rewrite bool_decide_eq_false_2 by congruence.
    assert (f a' ≠ f a) by (intros ?%I; done).
    unfold sql_eq. destruct (f a') eqn:E', (f a) eqn:E;
      try (by destruct (N a')); try done; by apply bool_decide_eq_false.
Qed.

#[local] Instance VUuid_inj : Inj (=) (=) VUuid.
Proof. by intros ?? [=]. Qed.
#[local] Instance VText_inj : Inj (=) (=) VText.
Proof. by intros ?? [=]. Qed.

Lemma list_where_means scope filter row :
  means (list_where scope filter) row (sees scope row && matches filter row).
Proof.
  unfold list_where, intentScopePredicate, matches.
  assert (means (match (scopePredicate scope "tenant_id" "created_by" "customer_id" 1).1 with
                 | Some p => (p, (scopePredicate scope "tenant_id" "created_by" "customer_id" 1).2)
                 | None => (CTrue, []) end) row (sees scope row)) as M.
  { unfold scopePredicate, sees. destruct (Unrestricted scope) eqn:U; [done|].
    destruct scope as [[t|] [p|] ?]; simpl in *; try done;
      intros later; cbn -[sql_eq]; rewrite ?sql_eq_uuid, ?sql_eq_VUuid; done. }
  destruct (scopePredicate _ _ _ _ 1) as [pred args]. simpl in M.
  apply (means_add_filter "status" (VText <$> f_Status filter)) in M.
  apply (means_add_filter "customer_id" (VUuid <$> f_CustomerID filter)) in M.
  apply (means_add_filter "job_id" (VUuid <$> f_JobID filter)) in M.
  apply (means_add_filter "vehicle_id" (VUuid <$> f_VehicleID filter)) in M.
  rewrite !andb_assoc.
  rewrite <-(sql_eq_opt VText (f_Status filter) (Some (i_Status row))) by (done || apply _).
  rewrite <-(sql_eq_opt VUuid (f_CustomerID filter) (i_CustomerID row)) by (done || apply _).
  rewrite <-(sql_eq_opt VUuid (f_JobID filter) (i_JobID row)) by (done || apply _).
  rewrite <-(sql_eq_opt VUuid (f_VehicleID filter) (i_VehicleID row)) by (done || apply _).
  exact M.
Qed.

Lemma list_where_fits scope filter : personal scope = false →
  fits (list_where scope filter).1 (list_where scope filter).2.
Proof.
  intros NP. unfold list_where, intentScopePredicate. unfold personal, scopePredicate in *.
  destruct scope as [[t|] [p|] []]; cbn [Unrestricted s_TenantID s_PrincipalID s_explicitUnrestricted negb andb] in *; try done;
    do 4 apply fits_add_filter; intros k; simpl; rewrite ?list_elem_of_singleton, ?elem_of_nil; lia.
Qed.

(** The registry a principal can page through, newest first. *)
Definition registry (scope : Scope) (filter : IntentFilter) (l : ledger) : list intent_row :=
  merge_sort (newest_first i_CreatedAt i_ID)
    (List.filter (λ row, sees scope row && matches filter row)
       (map_to_list (payment_intents l)).*2).

(** Whether the driver takes the query of a page. *)
Definition page_allowed (scope : Scope) (filter : IntentFilter) : bool :=
  let '(c, args) := list_where scope filter in
  let n := (length args + 2)%nat in
  accepts (placeholders c ++ [(n - 1)%nat; n]) n.

Lemma page_allowed_organizational scope filter : personal scope = false → page_allowed scope filter = true.
Proof.
  intros NP. unfold page_allowed. pose proof (list_where_fits scope filter NP) as F.
  destruct (list_where scope filter) as [c args]. simpl in F. apply accepts_exact.
  intros k. rewrite elem_of_app, (F k), !elem_of_cons, elem_of_nil. lia.
Qed.

Lemma ListIntents_any l scope filter limit offset :
  ListIntents scope filter limit offset l =
    (if page_allowed scope filter then
       match mapM scanIntent
               (page (clamp_limit 50 200 limit) (clamp_offset offset)
                  (registry scope filter l)) with
       | Some out => inr out
       | None => inl ErrDB
       end
     else inl ErrDB, l).
Proof.
  unfold ListIntents, registry, page_allowed.
  pose proof (λ row, list_where_means scope filter row
    [VInt (clamp_limit defaultListLimit maxListLimit limit); VInt (clamp_offset offset)]) as M.
  destruct (list_where scope filter) as [c args]. cbn [fst snd] in M.
  unfold mbind at 1, M_bind at 1. rewrite send_cases. rewrite !length_app. cbn [length fst snd].
  destruct (accepts _ _); [|done]. unfold_run_goal.
  rewrite (filter_ext _ (λ row, sees scope row && matches filter row)).
  - by destruct (mapM _ _).
  - exact M.
Qed.

Lemma ListIntents_page l scope filter limit offset :
  personal scope = false →
  ListIntents scope filter limit offset l =
    (match mapM scanIntent
             (page (clamp_limit 50 200 limit) (clamp_offset offset)
                (registry scope filter l)) with
     | Some out => inr out
     | None => inl ErrDB
     end, l).
Proof. intros NP. by rewrite ListIntents_any, page_allowed_organizational. Qed.

Lemma elem_of_registry scope filter l row :
  row ∈ registry scope filter l ↔
  (∃ id, payment_intents l !! id = Some row) ∧ sees scope row = true ∧ matches filter row = true.
Proof.
  unfold registry. rewrite merge_sort_Permutation, list_elem_of_In, filter_In,
    <-list_elem_of_In, list_elem_of_fmap, andb_true_iff.
  split; [|intros [[id L] ?]; split; [exists (id, row)|done]].
  - intros [([id r] & -> & I%elem_of_map_to_list) ?]. split; [by exists id|done].
  - split; [done|by apply elem_of_map_to_list].
Qed.

Lemma clamp_limit_range limit : 0 < clamp_limit 50 200 limit ≤ 200.
Proof.
  unfold clamp_limit. repeat case_match; lia.
Qed.

(** For every scope but the personal ones, ListIntents returns one page of
    the registry of the intents the scope sees and the filter matches: exactly
    those, newest first (ties by identifier), between 1 and 200 of them per page,
    50 when no limit is given; limits and offsets out of range are clamped. *)
Theorem ListIntents_exact l scope filter limit offset (NP : personal scope = false) :
  ListIntents scope filter limit offset l =
    (match mapM scanIntent
             (page (clamp_limit 50 200 limit) (clamp_offset offset)
                (registry scope filter l)) with
     | Some out => inr out
     | None => inl ErrDB
     end, l) ∧
  Sorted (newest_first i_CreatedAt i_ID) (registry scope filter l) ∧
  (∀ row, row ∈ registry scope filter l ↔
     (∃ id, payment_intents l !! id = Some row) ∧ sees scope row = true ∧
     matches filter row = true) ∧
  0 < clamp_limit 50 200 limit ≤ 200.
Proof.
  split_and!; [by apply ListIntents_page| |apply elem_of_registry|apply clamp_limit_range..].
  apply Sorted_merge_sort. apply _.
Qed.

(** Two ledgers that a scope cannot tell apart by the rows it sees. *)
Definition same_view (scope : Scope) (l l' : ledger) : Prop :=
  ∀ id, visible_intent scope l id = visible_intent scope l' id.

Lemma visible_intent_Some scope l id i :
  visible_intent scope l id = Some i ↔
  payment_intents l !! id = Some i ∧ sees scope i = true.
Proof.
  unfold visible_intent. destruct (payment_intents l !! id) as [i'|]; simpl; [|naive_solver].
  destruct (sees scope i') eqn:S; naive_solver congruence.
Qed.

Lemma registry_same_view scope filter l l' :
  well_formed l → well_formed l' → same_view scope l l' →
  registry scope filter l = registry scope filter l'.
Proof.
  intros W W' V.
  assert (∀ l l', same_view scope l l' →
            ∀ row, row ∈ registry scope filter l → row ∈ registry scope filter l') as Sub.
  { clear. intros l l' V row. rewrite !elem_of_registry. intros ([id L] & S & M).
    split; [|done]. exists id. apply (visible_intent_Some scope).
    rewrite <-V. by apply visible_intent_Some. }
  assert (∀ l, well_formed l → NoDup (registry scope filter l)) as ND.
  { clear. intros l W. unfold registry. rewrite merge_sort_Permutation.
    apply NoDup_ListNoDup, NoDup_filter, NoDup_ListNoDup.
    apply NoDup_fmap_2_strong; [|apply NoDup_map_to_list].
    intros [id i] [id' i'] I%elem_of_map_to_list I'%elem_of_map_to_list; simpl; intros ->.
    apply (wf_intent _ W) in I as [<- _]. apply (wf_intent _ W) in I' as [<- _]. done. }
  apply (Sorted_unique_strong (newest_first i_CreatedAt i_ID)).
  - intros i i' I I' Lt Gt. apply elem_of_registry in I as [[id L] _].
    apply (Sub l' l) in I'; [|by intros ?; symmetry; apply V].
    apply elem_of_registry in I' as [[id' L'] _].
    assert (i_ID i = i_ID i') as E by (unfold newest_first in *; lia).
    apply (wf_intent _ W) in L as Hi. apply (wf_intent _ W) in L' as Hi'.
    destruct Hi as [<- _], Hi' as [<- _]. congruence.
  - unfold registry. apply Sorted_merge_sort. apply _.
  - unfold registry. apply Sorted_merge_sort. apply _.
  - apply NoDup_Permutation; [by apply ND..|]. intros row. split; apply Sub; [done|].
    by intros ?.
Qed.

(** Tenant isolation: what a principal is answered depends only on the rows
    its scope sees. Two ledgers that differ only in intents of other tenants give
    the same page and the same intent, whatever the filter. *)
Theorem tenant_isolation l l' scope (R : reachable l) (R' : reachable l')
    (V : same_view scope l l') filter limit offset id :
  (ListIntents scope filter limit offset l).1 = (ListIntents scope filter limit offset l').1 ∧
  (GetIntent id scope l).1 = (GetIntent id scope l').1.
Proof.
  apply reachable_ok in R as [W _], R' as [W' _]. split.
  - rewrite !ListIntents_any. simpl.
    by rewrite (registry_same_view scope filter l l' W W' V).
  - rewrite !GetIntent_any by done. simpl. by rewrite (V id).
Qed.

End Reads.

(** The clause of a personal scope passes two arguments but never uses $2. *)
Definition skips_two (q : cond * list value) : Prop :=
  2%nat ∉ placeholders q.1 ∧ (2 ≤ length q.2)%nat.

Lemma skips_two_add_filter column v q :
  skips_two q → skips_two (add_filter column v q).
Proof.
  intros [N L]. destruct v as [v|]; [|done]. split; simpl.
  - rewrite elem_of_app, list_elem_of_singleton, length_app. simpl. intuition lia.
  - rewrite length_app. lia.
Qed.

Lemma list_where_skips p filter :
  skips_two (list_where (mkScope None (Some p) false) filter).
Proof.
  unfold list_where. do 4 apply skips_two_add_filter.
  split; simpl; [set_solver by lia|lia].
Qed.

(** With pgx, no personal principal can read anything: the predicate of a
    personal scope numbers one placeholder but passes its value twice, so every
    scoped query is refused before it reaches the ledger. *)
Theorem personal_reads_refused l p id filter limit offset :
  let scope := mkScope None (Some p) false in
  GetIntent (H:=pgx) id scope l = (inl ErrDB, l) ∧
  GetTransaction (H:=pgx) id scope l = (inl ErrDB, l) ∧
  ListTransactions (H:=pgx) id scope l = (inl ErrDB, l) ∧
  GetRefund (H:=pgx) id scope l = (inl ErrDB, l) ∧
  LatestRefundForIntent (H:=pgx) id scope l = (inl ErrDB, l) ∧
  ListIntents (H:=pgx) scope filter limit offset l = (inl ErrDB, l).
Proof.
  split_and!; try reflexivity. simpl.
  pose proof (list_where_skips p filter) as [S L].
  unfold ListIntents. destruct (list_where _ filter) as [c args]. simpl in *.
  unfold send. rewrite (pgx_refuses _ _ 2); [done|rewrite length_app; simpl; lia|].
  rewrite elem_of_app, !elem_of_cons, elem_of_nil, length_app. simpl. intuition lia.
Qed.

(** The reconciliation workload can never be read: its SELECT list names
    columns that two of the joined tables have, so the query is refused whatever
    the ledger holds. *)
Lemma stale_query_refused `{Driver} olderThan limit l :
  ListStaleIntents olderThan limit l = (inl ErrDB, l).
Proof. reflexivity. Qed.

(** ** NULL text columns under pgx *)

Lemma pgx_scan_transaction row :
  t_ProviderReceipt row = None → scanTransaction (H:=pgx) row = None.
Proof.
  unfold scanTransaction. intros ->. by destruct (scan_text (t_ProviderRef row)).
Qed.

(** No transaction carries a receipt and no intent has succeeded. *)
Definition unsettled (l : ledger) : Prop :=
  (∀ id t, payment_transactions l !! id = Some t → t_ProviderReceipt t = None) ∧
  (∀ id i, payment_intents l !! id = Some i → i_Status i ≠ IntentSucceeded).

Lemma pgx_settle_fails now p l r l' :
  unsettled l → ApplyTransactionOutcome (H:=pgx) now p l = (r, l') → l' = l.
Proof.
  intros [U _] R. unfold ApplyTransactionOutcome in R. unfold_run R.
  destruct (payment_transactions l !! ap_TransactionID p) as [row|] eqn:L; [|by simplify_eq].
  rewrite pgx_scan_transaction in R by eauto. by simplify_eq.
Qed.

Lemma payment_step_unsettled l l' :
  unsettled l → payment_step (H:=pgx) l l' → unsettled l'.
Proof.
  intros U [now fresh i r l'' S R|now fresh t r l'' S A R|now id to actor reason r l'' S R
    |now p r l'' _ O R|now fresh x r l'' A R|now id from to ref reason r l'' R
    |now key scope hash r l'' R|now key result r l'' R]; destruct U as [UT UI].
  - apply CreateIntent_run in R as [[-> _]|(-> & _)]; [done|]. split; [done|].
    simpl. intros id i' [[<- <-]|[_ L]]%lookup_insert_Some; [|by eauto].
    simpl. by rewrite S.
  - apply InsertTransaction_run in R as [[-> _]|(-> & _)]; [done|]. split; [|done].
    simpl. intros id t' [[<- <-]|[_ L]]%lookup_insert_Some; [done|by eauto].
  - apply UpdateIntentStatus_run in R as [[-> _]|(_ & row & L & _ & _ & _ & ->)]; [done|].
    split; [done|]. simpl. intros id' i' [[<- <-]|[_ L']]%lookup_insert_Some; [|by eauto].
    simpl. by destruct S as [-> | ->].
  - apply pgx_settle_fails in R as ->; done.
  - by apply InsertRefund_run in R as [[-> _]|(-> & _)].
  - by apply UpdateRefundStatus_run in R as [[-> _]|(_ & ? & _ & _ & _ & _ & ->)].
  - by apply ClaimIdempotencyKey_run in R as [[_ ->]|[(? & _ & -> & _)|(_ & _ & -> & _)]].
  - by apply CompleteIdempotencyKey_run in R as [->|(? & _ & _ & _ & _ & ->)].
Qed.

(** With pgx no payment ever succeeds: a new transaction has no receipt, its
    row cannot be scanned, so no settlement goes through; no intent of any
    reachable ledger is SUCCEEDED, and a freshly created intent cannot even be
    read back. *)
Theorem nothing_settles_on_pgx l (R : reachable (H:=pgx) l) :
  (∀ id i, payment_intents l !! id = Some i → i_Status i ≠ "SUCCEEDED") ∧
  (∀ now p, (ApplyTransactionOutcome (H:=pgx) now p l).2 = l) ∧
  (∀ now fresh i i' l', CreateIntent now fresh i l = (inr i', l') →
     GetIntent (H:=pgx) (i_ID i') UnrestrictedScope l' = (inl ErrDB, l')).
Proof.
  assert (unsettled l) as U.
  { unfold reachable, payment_steps in R.
    assert (unsettled empty_ledger) as U0 by (split; intros; simplify_map_eq).
    revert U0. induction R as [|l1 l2 l3 S _ IH]; [done|].
    intros U. apply IH. by eapply payment_step_unsettled. }
  split_and!; [apply U| |].
  - intros now p. destruct (ApplyTransactionOutcome _ _ _) eqn:E. simpl.
    by eapply pgx_settle_fails.
  - intros now fresh i i' l' C.
    assert (i_ID i' = assign_id (i_ID i) fresh) as E.
    { unfold CreateIntent in C. unfold_run C. by case_run C. }
    apply CreateIntent_run in C as [[_ [? ?]]|(-> & _)]; [done|].
    unfold GetIntent. simpl. unfold send. rewrite accepts_exact.
    + unfold_run_goal. rewrite E. cbn [i_ID intent_values]. rewrite lookup_insert_eq.
      unfold arg. simpl. by rewrite bool_decide_eq_true_2.
    + intros k. simpl. rewrite list_elem_of_singleton. lia.
Qed.

(** ** Witnesses *)

Definition tenant_scope : Scope := mkScope (Some 7%N) None false.
Definition other_scope : Scope := mkScope (Some 70%N) None false.
Definition no_filter : IntentFilter := mkIntentFilter None None None None.

Lemma scoped_reads_exact_witness :
  (GetIntent (H:=lenient) 1%N other_scope Demo.collected).1 = inl ErrIntentNotFound.
Proof.
  destruct (scoped_reads_exact (H:=lenient) Demo.collected Demo.collected_reachable
              other_scope eq_refl 1%N) as [E _].
  rewrite E. unfold visible_intent. rewrite Demo.collected_intent_row. reflexivity.
Defined.

Lemma ListIntents_exact_witness :
  Demo.collected_intent ∈ registry tenant_scope no_filter Demo.collected ∧
  Demo.collected_intent ∉ registry other_scope no_filter Demo.collected.
Proof.
  destruct (ListIntents_exact (H:=lenient) Demo.collected tenant_scope no_filter 10 0 eq_refl)
    as (_ & _ & E & _).
  destruct (ListIntents_exact (H:=lenient) Demo.collected other_scope no_filter 10 0 eq_refl)
    as (_ & _ & E' & _).
  split.
  - apply E. split; [exists 1%N; apply Demo.collected_intent_row|]. by split.
  - rewrite E'. intros (_ & V & _). discriminate V.
Defined.

Lemma tenant_isolation_witness :
  (ListIntents (H:=lenient) other_scope no_filter 10 0 Demo.collected).1 =
  (ListIntents (H:=lenient) other_scope no_filter 10 0 Demo.refunded).1.
Proof.
  apply (tenant_isolation (H:=lenient) Demo.collected Demo.refunded other_scope
           Demo.collected_reachable Demo.refunded_reachable); [|exact 1%N].
  intros id. reflexivity.
Defined.

Lemma nothing_settles_on_pgx_witness :
  (ApplyTransactionOutcome (H:=pgx) 5 Demo.an_outcome empty_ledger).2 = empty_ledger.
Proof.
  apply (nothing_settles_on_pgx empty_ledger). apply rtc_refl.
Defined.
