(* ===== verification/Webhook.v ===== *)
(** * Webhook: the trust boundary of [backend/payments/webhook.go]

    Signing, verification and validation of webhook deliveries. The HMAC is the
    executable one of [Sha256]. JSON decoding stays a parameter: [decode] is the
    first [dec.Decode(&env)] (the envelope and the bytes it leaves), and
    [decodes_value] tells whether those bytes decode as one more JSON value. *)

From S2P Require Import Prelude Text Sha256 Money PayMachine PayModels.
From Stdlib Require Import Ascii.

Open Scope Z_scope.

Definition MaxWebhookBodyBytes : Z := 64 * 1024.
Definition signatureFreshness : Z := 5 * minute.
Definition webhookFutureSkew : Z := 5 * minute.
Definition maxWebhookFailureReason : nat := 500.

Definition WebhookEventTransactionSucceeded := "transaction.succeeded".
Definition WebhookEventTransactionFailed := "transaction.failed".

Record webhookEnvelope := mkEnvelope {
  e_Event : string;
  e_Provider : string;
  e_ProviderRef : string;
  e_ProviderReceipt : string;
  e_AmountMinor : Z;
  e_Currency : string;
  e_FailureReason : string;
  e_OccurredAt : time;
}.

(** The errors wrapping [ErrWebhookUnauthorized]. *)
Inductive SignatureError :=
  | NotConfigured | HeaderMissing | Malformed | TimestampNotANumber
  | OutsideWindow | NotHex | Mismatch.

(** The rejections of a payload. *)
Inductive PayloadError :=
  | EmptyBody | InvalidJSON | TrailingData | UnknownEvent | ForeignProvider
  | ReferenceMissing | ForeignCurrency | AmountNotPositive | ReasonTooLong
  | ReasonOnSuccess | ReasonMissing | OccurredMissing | OccurredInFuture.

Inductive WebhookError :=
  | WebhookUnauthorized (e : SignatureError)
  | WebhookContent (e : PayloadError).

(** [t.Unix()] *)
Definition unix (t : time) : Z := t / second.

(** [t.Sub(u)] saturates. *)
Definition time_sub (t u : time) : Z := Z.max min_int64 (Z.min max_int64 (t - u)).

(** The signed message "<timestamp>.<raw body>". *)
Definition signed_message (ts : Z) (body : string) : list N :=
  to_bytes (pretty ts +:+ "." +:+ body).

Definition mac (secret : string) (ts : Z) (body : string) : list N :=
  hmac_sha256 (to_bytes secret) (signed_message ts body).

Definition SignWebhookPayload (secret body : string) (at_ : time) : string :=
  "t=" +:+ pretty (unix at_) +:+ ",v1=" +:+ hex_encode (mac secret (unix at_) body).

(** One turn of the loop over the comma-separated parts. *)
Definition scan_part (acc : string * string) (part : string) : string * string :=
  let part := TrimSpace part in
  if has_prefix part "t=" then (trim_prefix part "t=", acc.2)
  else if has_prefix part "v1=" then (acc.1, trim_prefix part "v1=")
  else acc.

Definition verifyWebhookSignature (secret body header : string) (now : time)
    : option SignatureError :=
  if String.eqb secret "" then Some NotConfigured
  else if String.eqb header "" then Some HeaderMissing
  else
    let '(tsPart, sigPart) := fold_left scan_part (split "," header) ("", "") in
    if String.eqb tsPart "" || String.eqb sigPart "" then Some Malformed
    else match ParseInt tsPart with
    | None => Some TimestampNotANumber
    | Some ts =>
        let skew := time_sub now (ts * second) in
        if (skew <? - signatureFreshness) || (skew >? signatureFreshness)
        then Some OutsideWindow
        else match hex_decode sigPart with
        | None => Some NotHex
        | Some got => if bool_decide (mac secret ts body = got) then None else Some Mismatch
        end
    end.

#[global] Arguments mac : simpl never.
#[global] Arguments verifyWebhookSignature : simpl never.

Section Parse.
Context (decode : string → option (webhookEnvelope * string)).
Context (decodes_value : string → bool).

(** [clock] is the [time.Now()] of the call. *)
Definition parseWebhookPayload (clock : time) (body provider : string)
    : PayloadError + WebhookPayload :=
  if String.eqb body "" then inl EmptyBody
  else match decode body with
  | None => inl InvalidJSON
  | Some (env, rest) =>
    if decodes_value rest then inl TrailingData
    else if negb (String.eqb (e_Event env) WebhookEventTransactionSucceeded ||
                  String.eqb (e_Event env) WebhookEventTransactionFailed) then inl UnknownEvent
    else if negb (String.eqb (e_Provider env) provider) then inl ForeignProvider
    else if String.eqb (TrimSpace (e_ProviderRef env)) "" then inl ReferenceMissing
    else if negb (String.eqb (e_Currency env) CurrencyKES) then inl ForeignCurrency
    else if e_AmountMinor env <=? 0 then inl AmountNotPositive
    else if (maxWebhookFailureReason <? String.length (e_FailureReason env))%nat
    then inl ReasonTooLong
    else if String.eqb (e_Event env) WebhookEventTransactionSucceeded &&
            negb (String.eqb (e_FailureReason env) "") then inl ReasonOnSuccess
    else if String.eqb (e_Event env) WebhookEventTransactionFailed &&
            String.eqb (TrimSpace (e_FailureReason env)) "" then inl ReasonMissing
    else if is_zero (e_OccurredAt env) then inl OccurredMissing
    else if e_OccurredAt env >? clock + webhookFutureSkew then inl OccurredInFuture
    else inr (mkWebhookPayload (e_Event env) (e_Provider env) uuid_nil uuid_nil
                (e_ProviderRef env) (e_ProviderReceipt env) (e_AmountMinor env)
                (e_Currency env) (e_FailureReason env) (e_OccurredAt env))
  end.

(** What a valid payload is. *)
Record valid_payload (clock : time) (provider : string) (p : WebhookPayload) : Prop := {
  vp_event : wp_Event p = "transaction.succeeded" ∧ wp_FailureReason p = "" ∨
             wp_Event p = "transaction.failed" ∧ TrimSpace (wp_FailureReason p) ≠ "";
  vp_provider : wp_Provider p = provider;
  vp_reference : TrimSpace (wp_ProviderRef p) ≠ "";
  vp_amount : Validate (mkMoney (wp_AmountMinor p) (wp_Currency p)) = None;
  vp_reason : (String.length (wp_FailureReason p) ≤ 500)%nat;
  vp_occurred : wp_OccurredAt p ≠ zero_time ∧ wp_OccurredAt p ≤ clock + 5 * minute;
}.

(** The payload an envelope normalizes to. *)
Definition payload_of (env : webhookEnvelope) : WebhookPayload :=
  mkWebhookPayload (e_Event env) (e_Provider env) uuid_nil uuid_nil
    (e_ProviderRef env) (e_ProviderReceipt env) (e_AmountMinor env)
    (e_Currency env) (e_FailureReason env) (e_OccurredAt env).

(** A body is accepted exactly when it decodes to one envelope, followed by
    no further value, that is a valid payload of the provider: a known event, a
    reference, a legal amount of KES, a failure reason on failures only and of
    bounded size, and a completion time that is set and not in the future. The
    accepted payload is the envelope, and it names no intent or transaction. *)
Theorem parseWebhookPayload_exact clock body provider p :
  parseWebhookPayload clock body provider = inr p ↔
  body ≠ "" ∧ ∃ env rest, decode body = Some (env, rest) ∧ decodes_value rest = false ∧
    p = payload_of env ∧ valid_payload clock provider p.
Proof.
  unfold parseWebhookPayload. split.
  - intros E. case_run E. props. split; [done|]. eexists _, _. split_and!; [done..|].
    split; simpl; try done.
    + unfold WebhookEventTransactionSucceeded, WebhookEventTransactionFailed in *.
      destruct_or?; props; first [by left|by right|congruence|done].
    + by apply Validate_None.
    + unfold is_zero in *. props. unfold webhookFutureSkew in *. split; [done|lia].
  - intros (B & env & rest & D & T & -> & V). rewrite D, T.
    destruct (String.eqb_spec body ""); [done|]. destruct V as [Ev Pr Re Am Rs Oc]. simpl in *.
    apply Validate_None in Am. simpl in Am. destruct Am as [Cu Am].
    rewrite Pr, Cu, String.eqb_refl.
    destruct (String.eqb_spec (TrimSpace (e_ProviderRef env)) ""); [done|].
    destruct (Z.leb_spec (e_AmountMinor env) 0); [lia|].
    destruct (Nat.ltb_spec maxWebhookFailureReason (String.length (e_FailureReason env)));
      [unfold maxWebhookFailureReason in *; lia|].
    unfold is_zero. rewrite bool_decide_eq_false_2 by apply Oc.
    destruct (Z.gtb_spec (e_OccurredAt env) (clock + webhookFutureSkew));
      [unfold webhookFutureSkew in *; lia|].
    unfold payload_of. rewrite Pr, Cu.
    destruct Ev as [[-> ->]|[-> Fr]]; [done|]. simpl.
    destruct (String.eqb_spec (TrimSpace (e_FailureReason env)) ""); done.
Qed.

End Parse.

(** ** Signatures *)

#[local] Opaque hmac_sha256.

Lemma number_absent sep (z : Z) : sep ≠ "-"%char → digit sep = None → absent sep (pretty z).
Proof.
  intros N D I. pose proof (pretty_Z_chars z) as F.
  rewrite list.Forall_forall in F. destruct (F _ I) as [[n E]|E]; congruence.
Qed.

Lemma hex_absent sep bytes :
  lower_hex sep = false → Forall (λ b, b < 256)%N bytes → absent sep (hex_encode bytes).
Proof.
  intros N F I. apply hex_encode_chars in F. rewrite forallb_forall in F.
  apply list_elem_of_In, F in I. congruence.
Qed.

Lemma number_visible (z : Z) : forallb visible (chars (pretty z)) = true.
Proof.
  apply forallb_forall. intros c I. pose proof (pretty_Z_chars z) as F.
  rewrite list.Forall_forall in F. apply list_elem_of_In, F in I.
  destruct I as [[n E]| ->]; [|done]. unfold digit in E. unfold visible.
  case_match eqn:D; [|done]. apply andb_true_iff in D as [D1 D2].
  apply andb_true_iff. rewrite !N.leb_le in *. lia.
Qed.

Lemma hex_visible bytes :
  Forall (λ b, b < 256)%N bytes → forallb visible (chars (hex_encode bytes)) = true.
Proof.
  intros F. apply hex_encode_chars in F. apply forallb_forall. intros c I.
  rewrite forallb_forall in F. apply F in I. unfold lower_hex in I. unfold visible.
  apply andb_true_iff. rewrite !N.leb_le.
  apply orb_true_iff in I as [I|I]; apply andb_true_iff in I; rewrite !N.leb_le in I; lia.
Qed.

Lemma scan_signature (n : Z) bytes :
  Forall (λ b, b < 256)%N bytes →
  fold_left scan_part (split "," ("t=" +:+ pretty n +:+ ",v1=" +:+ hex_encode bytes)) ("", "")
  = (pretty n, hex_encode bytes).
Proof.
  intros F. pose proof (number_visible n) as Vn. pose proof (hex_visible _ F) as Vh.
  set (num := pretty n) in *. set (hex := hex_encode bytes) in *.
  change ("t=" +:+ num +:+ ",v1=" +:+ hex)
    with (("t=" +:+ num) +:+ String "," ("v1=" +:+ hex)).
  rewrite split_app.
  2:{ unfold absent. simpl. rewrite !not_elem_of_cons. split_and!; [done..|].
      by apply number_absent. }
  rewrite split_absent.
  2:{ unfold absent. simpl. rewrite !not_elem_of_cons. split_and!; [done..|].
      by apply hex_absent. }
  cbn [fold_left]. unfold scan_part at 2.
  rewrite TrimSpace_visible by (by rewrite chars_app, forallb_app, Vn).
  unfold has_prefix, trim_prefix. rewrite cut_prefix_app. cbn [fst snd].
  unfold scan_part.
  rewrite TrimSpace_visible by (by rewrite chars_app, forallb_app, Vh).
  unfold has_prefix, trim_prefix. rewrite (cut_prefix_app "v1="). done.
Qed.

Lemma pretty_nonempty (n : Z) : pretty n ≠ "".
Proof.
  intros E. assert (ParseInt (pretty 0%Z) = Some 0) by done.
  destruct n as [|p|p]; [done| |done].
  pose proof (parse_uint_pretty (N.pos p)) as P.
  change (pretty (Z.pos p)) with (pretty (N.pos p)) in E. by rewrite E in P.
Qed.

Lemma mac_range secret ts body : Forall (λ b, b < 256)%N (mac secret ts body).
Proof. apply hmac_range. Qed.

Lemma mac_hex_nonempty secret ts body : hex_encode (mac secret ts body) ≠ "".
Proof.
  intros E. apply (f_equal String.length) in E.
  unfold mac in E. by rewrite hex_encode_length, hmac_length in E.
Qed.

#[local] Opaque mac.

(** The freshness test. *)
Lemma fresh_spec now ts :
  let skew := time_sub now (ts * second) in
  (skew <? - signatureFreshness) || (skew >? signatureFreshness) = false ↔
  Z.abs (now - ts * second) ≤ signatureFreshness.
Proof.
  cbv zeta. rewrite orb_false_iff, Z.ltb_ge, Z.gtb_ltb, Z.ltb_ge.
  unfold time_sub, signatureFreshness, minute, second, min_int64, max_int64. lia.
Qed.

(** The verification as one condition on the parts of the header. *)
Lemma verify_accepts secret body header now :
  verifyWebhookSignature secret body header now = None ↔
  secret ≠ "" ∧ header ≠ "" ∧
  ∃ tsPart sigPart ts, fold_left scan_part (split "," header) ("", "") = (tsPart, sigPart) ∧
    tsPart ≠ "" ∧ sigPart ≠ "" ∧ ParseInt tsPart = Some ts ∧
    Z.abs (now - ts * second) ≤ signatureFreshness ∧
    hex_decode sigPart = Some (mac secret ts body).
Proof.
  unfold verifyWebhookSignature. cbv zeta.
  destruct (String.eqb_spec secret ""); [naive_solver|].
  destruct (String.eqb_spec header ""); [naive_solver|].
  destruct (fold_left _ _ _) as [tsPart sigPart]. split.
  - destruct (String.eqb_spec tsPart ""); [done|].
    destruct (String.eqb_spec sigPart ""); [done|]. cbn [orb].
    destruct (ParseInt tsPart) as [ts|] eqn:P; [|done].
    destruct (orb _ _) eqn:W; [done|]. apply fresh_spec in W.
    destruct (hex_decode sigPart) as [got|] eqn:D; [|done].
    destruct (bool_decide _) eqn:M; [|done]. apply bool_decide_eq_true in M as <-.
    intros _. split; [done|]. split; [done|]. by exists tsPart, sigPart, ts.
  - intros (_ & _ & tsPart' & sigPart' & ts & [= <- <-] & T & G & -> & W & ->).
    destruct (String.eqb_spec tsPart ""); [done|].
    destruct (String.eqb_spec sigPart ""); [done|]. cbn [orb].
    apply fresh_spec in W. rewrite W. by rewrite bool_decide_eq_true_2.
Qed.

(** A header made by [SignWebhookPayload] verifies for the same secret and
    body exactly while the clock is within five minutes of the second it was
    signed in; signing and verifying agree on every byte of the body. *)
Theorem sign_verify secret body at_ now
    (S : secret ≠ "") (U : in_int64 (unix at_)) :
  verifyWebhookSignature secret body (SignWebhookPayload secret body at_) now = None ↔
  Z.abs (now - unix at_ * second) ≤ 5 * minute.
Proof.
  rewrite verify_accepts. unfold SignWebhookPayload.
  rewrite scan_signature by apply mac_range. split.
  - intros (_ & _ & tsPart & sigPart & ts & [= <- <-] & _ & _ & P & W & _).
    rewrite ParseInt_pretty in P by done. simplify_eq. unfold signatureFreshness in W. lia.
  - intros W. split_and!; [done..|].
    exists (pretty (unix at_)), (hex_encode (mac secret (unix at_) body)), (unix at_).
    split_and!; [done|apply pretty_nonempty|apply mac_hex_nonempty
      |by apply ParseInt_pretty|unfold signatureFreshness; lia..|].
    apply hex_decode_encode, mac_range.
Qed.

(** What an accepted header proves. One header accepted for two bodies is a
    collision of HMAC-SHA256 under the shared secret, on two messages that carry
    the same timestamp; and the same delivery is never accepted at two instants
    more than ten minutes apart. *)
Theorem verified_header_binds secret header body now body' now'
    (V : verifyWebhookSignature secret body header now = None)
    (V' : verifyWebhookSignature secret body' header now' = None) :
  Z.abs (now - now') ≤ 10 * minute ∧
  ∃ ts, mac secret ts body = mac secret ts body' ∧
        (body ≠ body' → signed_message ts body ≠ signed_message ts body').
Proof.
  apply verify_accepts in V as (_ & _ & a & b & ts & F & _ & _ & P & W & D).
  apply verify_accepts in V' as (_ & _ & a' & b' & ts' & F' & _ & _ & P' & W' & D').
  rewrite F in F'. injection F' as <- <-. rewrite P in P'. injection P' as <-.
  split; [unfold signatureFreshness in *; lia|].
  exists ts. split; [apply (inj Some); rewrite <-D; exact D'|]. intros N E. apply N.
  apply to_bytes_inj in E. apply (inj (String.append (pretty ts))) in E.
  by apply (inj (String.append ".")) in E.
Qed.

Lemma sign_verify_witness :
  verifyWebhookSignature "secret" "{}" (SignWebhookPayload "secret" "{}" (100 * second))
    (400 * second) = None.
Proof.
  apply (sign_verify "secret" "{}" (100 * second) (400 * second));
    [discriminate|vm_compute; split; discriminate|vm_compute; discriminate].
Defined.

Lemma verified_header_binds_witness :
  Z.abs (100 * second - 400 * second) ≤ 10 * minute.
Proof.
  apply (verified_header_binds "secret" (SignWebhookPayload "secret" "{}" (100 * second))
           "{}" (100 * second) "{}" (400 * second)); vm_compute; reflexivity.
Defined.
