(* ===== verification/Providers.v ===== *)
(** * Providers: the settlement abstraction and the sandbox adapter

    [backend/payments/provider.go] and [backend/payments/sandbox.go]. The
    [Provider] interface is a record of operations over the adapter's own state;
    what the domain relies on is the class [ProviderContract], which the sandbox
    fulfils. *)

From S2P Require Import Prelude Text Sha256 Money PayMachine PayModels Webhook.

Open Scope Z_scope.

Definition ProviderSandbox : string := "sandbox".
Definition ProviderDaraja : string := "daraja".

(** ** Normalized requests and results *)

Record InitiateRequest := mkInitiateRequest {
  iq_IntentID : uuid;
  iq_TransactionID : uuid;
  iq_Amount : Money;
  iq_Description : string;
  iq_PayerPhone : string;
}.

Record InitiateResult := mkInitiateResult {
  is_Status : TransactionStatus;
  is_ProviderRef : string;
  is_ProviderTransactionRef : string;
}.

Record QueryResult := mkQueryResult {
  qr_Status : TransactionStatus;
  qr_ProviderRef : string;
  qr_ProviderTransactionRef : string;
  qr_AmountMinor : Z;
  qr_Currency : string;
  qr_FailureReason : string;
  qr_OccurredAt : time;
}.

Record RefundRequest := mkRefundRequest {
  rq_RefundID : uuid;
  rq_IntentID : uuid;
  rq_ProviderRef : string;
  rq_Amount : Money;
  rq_Reason : string;
}.

Record RefundResult := mkRefundResult {
  rr_Status : RefundStatus;
  rr_ProviderRef : string;
  rr_FailureReason : string;
}.

(** A provider error: which sentinel it wraps, and its text ([err.Error()]). *)
Inductive ProviderErrorKind := ErrProviderUnavailable | ErrProviderRejected | OtherProviderError.

Record ProviderError := mkProviderError {
  pe_kind : ProviderErrorKind;
  pe_text : string;
}.

Definition providerUnavailable (text : string) : ProviderError :=
  mkProviderError ErrProviderUnavailable ("payments: provider unavailable: " +:+ text).
Definition providerRejected (text : string) : ProviderError :=
  mkProviderError ErrProviderRejected ("payments: provider rejected the request: " +:+ text).

(** [errors.Is(err, ErrProviderUnavailable)] *)
Definition is_unavailable (e : ProviderError) : bool :=
  match pe_kind e with ErrProviderUnavailable => true | _ => false end.

(** An [http.Header]: canonical keys to their values; [Get] is the first. *)
Abbreviation Header := (gmap string (list string)) (only parsing).

Definition header_Get (h : Header) (key : string) : string :=
  match h !! key with Some (v :: _) => v | _ => "" end.

Record Provider (P : Type) := mkProvider {
  Name : string;
  Initiate : InitiateRequest → M P ProviderError InitiateResult;
  Query : string → M P ProviderError QueryResult;
  Provider_Refund : RefundRequest → M P ProviderError RefundResult;
  WebhookEvent : Header → string → time → WebhookError + WebhookPayload;
}.
Arguments mkProvider {P}. Arguments Name {P}. Arguments Initiate {P}.
Arguments Query {P}. Arguments Provider_Refund {P}. Arguments WebhookEvent {P}.

(** What the interface documents and the domain relies on. *)
Class ProviderContract {P} (p : Provider P) := {
  initiate_pending : ∀ req s res s',
    Initiate p req s = (inr res, s') → is_Status res = TxPending;
  query_terminal : ∀ ref s res s', Query p ref s = (inr res, s') →
    qr_Status res = TxPending ∨ qr_Status res = TxSucceeded ∨ qr_Status res = TxFailed;
  webhook_event_known : ∀ h body now payload,
    WebhookEvent p h body now = inr payload →
    (wp_Event payload = WebhookEventTransactionSucceeded ∨
     wp_Event payload = WebhookEventTransactionFailed) ∧ wp_ProviderRef payload ≠ "";
}.

(** ** The sandbox *)

Definition WebhookSignatureHeader : string := "X-Motivra-Payments-Signature".

Record sandbox_state := mkSandboxState {
  outcomes : gmap uuid TransactionStatus;
  initiated : gmap uuid Z;
}.

Definition NewSandboxProvider : sandbox_state := mkSandboxState ∅ ∅.

Section Sandbox.
Context `{UuidText}.
Context (quote : string → string).  (* the %q verb *)
Context (decode : string → option (webhookEnvelope * string)).
Context (decodes_value : string → bool).

(** [%v] of the errors of [Validate]. *)
Definition validate_text (m : Money) (e : MoneyError) : string :=
  match e with
  | UnsupportedCurrency c =>
      "payments: currency " +:+ quote c +:+ " is not supported (only KES)"
  | NotPositive n => "payments: amount " +:+ pretty n +:+ " minor units is not a positive integer"
  | _ => ""
  end.

Definition SandboxProviderRef (transactionID : uuid) : string :=
  "SBX-" +:+ uuid_string transactionID.

(** [ref[len(prefix):]] of a long enough reference: the prefix is not compared. *)
Definition sandboxRefToTransaction (ref : string) : string + uuid :=
  if (String.length ref <=? 4)%nat
  then inl ("payments: sandbox reference " +:+ quote ref +:+ " is malformed")
  else match uuid_parse (of_chars (drop 4 (chars ref))) with
  | None => inl ("payments: sandbox reference " +:+ quote ref +:+
                 " does not carry a transaction id")
  | Some id => inr id
  end.

Definition SetOutcome (transactionID : uuid) (status : TransactionStatus)
    (s : sandbox_state) : sandbox_state :=
  mkSandboxState (<[transactionID := status]> (outcomes s)) (initiated s).

Definition sandbox_Initiate (req : InitiateRequest)
    : M sandbox_state ProviderError InitiateResult :=
  ensure (negb (bool_decide (iq_IntentID req = uuid_nil) ||
                bool_decide (iq_TransactionID req = uuid_nil)))
    (providerRejected "sandbox: intent_id and transaction_id are required");;
  match Validate (iq_Amount req) with
  | Some err => throw (providerRejected ("sandbox: " +:+ validate_text (iq_Amount req) err))
  | None =>
      modify (λ s, mkSandboxState (outcomes s)
        (<[iq_TransactionID req := AmountMinor (iq_Amount req)]> (initiated s)));;
      mret (mkInitiateResult TxPending (SandboxProviderRef (iq_TransactionID req)) "")
  end.

(** Missing map entries read as the zero value. *)
Definition sandbox_Query (now : time) (providerRef : string)
    : M sandbox_state ProviderError QueryResult :=
  match sandboxRefToTransaction providerRef with
  | inl err => throw (providerRejected ("sandbox: " +:+ err))
  | inr txID =>
      s ← get;
      let status := default "" (outcomes s !! txID) in
      let amount := default 0 (initiated s !! txID) in
      if String.eqb status TxSucceeded then
        mret (mkQueryResult TxSucceeded providerRef ("SBXR-" +:+ uuid_string txID)
                amount CurrencyKES "" now)
      else if String.eqb status TxFailed then
        mret (mkQueryResult TxFailed providerRef "" amount CurrencyKES
                "sandbox injected failure" now)
      else mret (mkQueryResult TxPending providerRef "" 0 CurrencyKES "" zero_time)
  end.

Definition sandbox_Refund (req : RefundRequest) : M sandbox_state ProviderError RefundResult :=
  ensure (negb (bool_decide (rq_RefundID req = uuid_nil) ||
                bool_decide (rq_IntentID req = uuid_nil)))
    (providerRejected "sandbox: refund_id and intent_id are required");;
  match Validate (rq_Amount req) with
  | Some err => throw (providerRejected ("sandbox: " +:+ validate_text (rq_Amount req) err))
  | None => mret (mkRefundResult RefundCompleted ("SBXRF-" +:+ uuid_string (rq_RefundID req)) "")
  end.

(** [clock] is the [time.Now()] of the payload validation. *)
Definition sandbox_WebhookEvent (secret : string) (clock : time) (header : Header)
    (body : string) (now : time) : WebhookError + WebhookPayload :=
  match verifyWebhookSignature secret body (header_Get header WebhookSignatureHeader) now with
  | Some err => inl (WebhookUnauthorized err)
  | None =>
      match parseWebhookPayload decode decodes_value clock body ProviderSandbox with
      | inl err => inl (WebhookContent err)
      | inr payload => inr payload
      end
  end.

Definition SandboxProvider (secret : string) (now clock : time) : Provider sandbox_state :=
  mkProvider ProviderSandbox sandbox_Initiate (sandbox_Query now) sandbox_Refund
    (sandbox_WebhookEvent secret clock).

(** The envelope of [SandboxWebhookBody], before it is marshalled. *)
Definition SandboxWebhookEnvelope (event providerRef : string) (amountMinor : Z)
    (failureReason : string) (occurredAt : time) : webhookEnvelope :=
  mkEnvelope event ProviderSandbox providerRef "" amountMinor CurrencyKES failureReason occurredAt.

Lemma sandbox_ref_roundtrip id : sandboxRefToTransaction (SandboxProviderRef id) = inr id.
Proof.
  unfold sandboxRefToTransaction, SandboxProviderRef.
  pose proof (uuid_string_nonempty id) as N.
  destruct (uuid_string id) as [|c u] eqn:E; [done|]. simpl.
  by rewrite of_chars_chars, <-E, uuid_parse_string.
Qed.

#[export] Instance sandbox_contract secret now clock :
  ProviderContract (SandboxProvider secret now clock).
Proof.
  split; simpl.
  - intros req s res s' R. unfold sandbox_Initiate in R. unfold_run R. by case_run R.
  - intros ref s res s' R. unfold sandbox_Query in R. unfold_run R. case_run R; auto.
  - intros h body now' payload E. unfold sandbox_WebhookEvent in E.
    destruct (verifyWebhookSignature _ _ _ _); [done|].
    destruct (parseWebhookPayload _ _ _ _ _) eqn:Pe; [done|]. simplify_eq.
    unfold parseWebhookPayload in Pe. case_run Pe. props.
    all: destruct_or?; props; simpl; split; auto; intros X; rewrite X in *; done.
Qed.

(** The sandbox is deterministic end to end: after an accepted initiation
    and an injected outcome, a query of the reference it returned reports exactly
    that outcome and, once settled, exactly the amount that was initiated,
    whatever other transactions were initiated or settled in between. *)
Theorem sandbox_settles secret now clock req s res s1 status s2
    (I : Initiate (SandboxProvider secret now clock) req s = (inr res, s1))
    (K : outcomes s2 !! iq_TransactionID req = outcomes (SetOutcome (iq_TransactionID req) status s1) !! iq_TransactionID req)
    (K' : initiated s2 !! iq_TransactionID req = initiated s1 !! iq_TransactionID req) :
  ∃ q, Query (SandboxProvider secret now clock) (is_ProviderRef res) s2 = (inr q, s2) ∧
    qr_Status q = (if String.eqb status TxSucceeded then TxSucceeded
                   else if String.eqb status TxFailed then TxFailed else TxPending) ∧
    qr_ProviderRef q = is_ProviderRef res ∧ qr_Currency q = "KES" ∧
    (qr_Status q ≠ TxPending → qr_AmountMinor q = AmountMinor (iq_Amount req)).
Proof.
  simpl in *. unfold sandbox_Initiate in I. unfold_run I. case_run I.
  rewrite lookup_insert_eq in K. rewrite lookup_insert_eq in K'.
  unfold sandbox_Query. rewrite sandbox_ref_roundtrip. unfold_run_goal. rewrite K, K'. simpl.
  destruct (String.eqb_spec status TxSucceeded) as [->|]; [eexists; split_and!; done|].
  destruct (String.eqb_spec status TxFailed) as [->|]; eexists; split_and!; try done; naive_solver.
Qed.

End Sandbox.
