(* ===== verification/PayService.v ===== *)
(** * PayService: the payments domain service ([backend/payments/service.go])

    The service runs over a world: the ledger, the state of the provider adapters
    and the events published so far. Each method is the whole handler, in the
    order of the source; a failing call returns the value the Go function returns
    next to the error, and keeps the writes made before it. Metrics are not
    modelled. *)

From S2P Require Import Prelude Text Sha256 Platform Sql Money PayMachine PayModels PayStore.
From S2P Require Import Webhook Providers.

Open Scope Z_scope.

Definition EventDomain : string := "payments".
Definition EventIntentCreated : string := "intent.created.v1".
Definition EventTransactionSucceededV1 : string := "transaction.succeeded.v1".
Definition EventTransactionFailedV1 : string := "transaction.failed.v1".
Definition EventRefundCompleted : string := "refund.completed.v1".
Definition EventRefundFailed : string := "refund.failed.v1".

Definition MaxDescriptionLength : nat := 200.
Definition MaxRefundReasonLength : nat := 500.
Definition DefaultIntentsLimit : Z := 50.
Definition MaxIntentsLimit : Z := 200.

(** What [errors.Is] can tell about an error of the service. *)
Inductive ServiceError :=
  | ErrInvalidInput
  | ErrNotRefundable
  | ErrAlreadyRefunded
  | ErrWebhookUnauthorized (e : SignatureError)
  | ErrWebhookRejected
  | OfStore (e : StoreError)
  | OfProvider (e : ProviderError)
  | PublishFailed.

Definition webhookUnauthorizedCause (e : ServiceError) : bool :=
  match e with ErrWebhookUnauthorized _ => true | _ => false end.

(** ** Events *)

Inductive PaymentPayload :=
  | IntentCreatedPayload (IntentID : uuid) (AmountMinor : Z) (Currency Provider : string)
      (CustomerID JobID VehicleID : option uuid)
  | TransactionSettledPayload (IntentID TransactionID : uuid)
      (Provider ProviderRef ProviderReceipt : string) (AmountMinor : Z)
      (Currency SettledBy FailureReason : string)
  | RefundCompletedPayload (IntentID RefundID : uuid) (AmountMinor : Z)
      (Currency Provider ProviderRef : string)
  | RefundFailedPayload (IntentID RefundID : uuid) (AmountMinor : Z)
      (Currency FailureReason : string).

Abbreviation PaymentEvent := (Event PaymentPayload) (only parsing).

(** ** Inputs and results *)

Record InitiateInput := mkInitiateInput {
  in_TenantID : option uuid;
  in_CreatedBy : uuid;
  in_CustomerID : option uuid;
  in_AmountMinor : Z;
  in_Currency : string;
  in_Provider : string;
  in_JobID : option uuid;
  in_VehicleID : option uuid;
  in_Description : string;
  in_PayerPhone : string;
}.

Record InitiatedPayment := mkInitiatedPayment {
  ip_Intent : PaymentIntent;
  ip_Transaction : option Transaction;
}.

Record WebhookResult := mkWebhookResult {
  wr_Status : string;
  wr_Duplicate : bool;
  wr_IntentID : uuid;
  wr_TransactionID : uuid;
}.

Definition WebhookStatusApplied : string := "applied".
Definition WebhookStatusDuplicate : string := "duplicate".

(** ** The world of the service *)

Record world (P : Type) := mkWorld {
  w_ledger : ledger;
  w_provider : P;
  w_events : list (string * PaymentEvent);   (* subject domain and event, oldest first *)
}.
Arguments mkWorld {P}. Arguments w_ledger {P}. Arguments w_provider {P}. Arguments w_events {P}.

(** The value a Go function returns next to its error; [None] is the zero value. *)
Record Failure (A : Type) := mkFailure { partial : option A; cause : ServiceError }.
Arguments mkFailure {A}. Arguments partial {A}. Arguments cause {A}.

Record Service (P : Type) := mkService {
  providers : gmap string (Provider P);
  publisher : option (PaymentEvent → bool);   (* does the broker take the event? *)
  DefaultProvider : string;
}.
Arguments mkService {P}. Arguments providers {P}. Arguments publisher {P}.
Arguments DefaultProvider {P}.

Definition NewService {P} (providers : gmap string (Provider P))
    (publisher : option (PaymentEvent → bool)) : Service P :=
  mkService providers publisher ProviderSandbox.

Section Service.
Context `{Driver} `{UuidText} {P : Type}.

Abbreviation svc E A := (M (world P) E A) (only parsing).

(** A store call, its error turned into the method's. *)
Definition on_store {A B} (c : M ledger StoreError A) (f : StoreError → Failure B)
    : svc (Failure B) A :=
  wrap f (zoom w_ledger (λ l w, mkWorld l (w_provider w) (w_events w)) c).

(** A store or provider call whose error the method inspects. *)
Definition try_store {A E} (c : M ledger StoreError A) : svc E (StoreError + A) :=
  zoom w_ledger (λ l w, mkWorld l (w_provider w) (w_events w)) (try c).
Definition try_provider {A E} (c : M P ProviderError A) : svc E (ProviderError + A) :=
  zoom w_provider (λ p w, mkWorld (w_ledger w) p (w_events w)) (try c).

(** [return A{}, err] *)
Definition fail {A} (e : ServiceError) : Failure A := mkFailure None e.

Definition Service_Provider (s : Service P) (name : string) : option (Provider P) :=
  let name := if String.eqb name "" then DefaultProvider s else name in
  let name := if String.eqb name "" then "sandbox" else name in
  providers s !! name.

Definition validateOptionalID (id : option uuid) : bool :=
  match id with Some u => negb (bool_decide (u = uuid_nil)) | None => true end.

Definition tenantString (t : option uuid) : string :=
  match t with Some u => uuid_string u | None => "" end.

(** Returns whether it succeeded; every failure is the caller's error. *)
Definition publish {E} (s : Service P) (c : Ctx) (fresh : uuid) (eventType : string)
    (aggregateID : uuid) (actorID : option uuid) (tenantID : string) (p : PaymentPayload)
    : svc E bool :=
  match publisher s with
  | None => mret true
  | Some broker =>
      let actor := match actorID with
        | Some a => if bool_decide (a = uuid_nil) then "" else uuid_string a
        | None => ""
        end in
      match NewEvent (ctx_now c) fresh eventType (uuid_string aggregateID) tenantID actor
              (ctx_request_id c) p with
      | None => mret false
      | Some e =>
          if broker e
          then modify (λ w, mkWorld (w_ledger w) (w_provider w)
                              (w_events w ++ [(EventDomain, e)]));; mret true
          else mret false
      end
  end.

(** [reason[:maxWebhookFailureReason]] of the error text. *)
Definition failureReasonFrom (e : ProviderError) : string :=
  truncate maxWebhookFailureReason (pe_text e).

Definition intent_created_payload (i : PaymentIntent) : PaymentPayload :=
  IntentCreatedPayload (i_ID i) (i_AmountMinor i) (i_Currency i) (i_Provider i)
    (i_CustomerID i) (i_JobID i) (i_VehicleID i).

(** [intent.Status = s; intent.ProviderRef = ref; intent.FailureReason = reason] *)
Definition update_struct (i : PaymentIntent) (status : IntentStatus) (ref reason : string)
    : PaymentIntent :=
  mkIntent (i_ID i) (i_TenantID i) (i_CustomerID i) (i_CreatedBy i) (i_AmountMinor i)
    (i_Currency i) status (i_Provider i) ref (i_JobID i) (i_VehicleID i) (i_Description i)
    reason (i_SucceededAt i) (i_FailedAt i) (i_CanceledAt i) (i_CreatedAt i) (i_UpdatedAt i).

(** *** InitiatePayment *)

(** The provider rejected the initiation: record the failed attempt. *)
Definition record_rejection (s : Service P) (c : Ctx) (in_ : InitiateInput)
    (provider : Provider P) (amount : Money) (intent : PaymentIntent) (txID : uuid)
    (err : ProviderError) : svc (Failure InitiatedPayment) InitiatedPayment :=
  let now := ctx_now c in
  let with_intent i t e := mkFailure (Some (mkInitiatedPayment i t)) e in
  failed ← on_store
    (InsertTransaction now (ctx_fresh c 1)
       (mkTransaction txID (i_ID intent) (Name provider) "" "" TxFailed
          (AmountMinor amount) (Currency amount) (failureReasonFrom err) None 0 0))
    (λ e, with_intent intent None (OfStore e));
  on_store
    (UpdateIntentStatus now (i_ID intent) IntentCreated IntentFailed
       (Some (in_CreatedBy in_)) "provider rejected the initiation")
    (λ e, with_intent intent None (OfStore e));;
  let intent := update_struct intent IntentFailed (i_ProviderRef intent)
                  (t_FailureReason failed) in
  publish s c (ctx_fresh c 2) EventIntentCreated (i_ID intent) (Some (in_CreatedBy in_))
    (tenantString (in_TenantID in_)) (intent_created_payload intent);;
  publish s c (ctx_fresh c 3) EventTransactionFailedV1 (t_ID failed)
    (Some (in_CreatedBy in_)) (tenantString (in_TenantID in_))
    (TransactionSettledPayload (i_ID intent) (t_ID failed) (t_Provider failed) "" ""
       (t_AmountMinor failed) (t_Currency failed) "initiation" (t_FailureReason failed));;
  throw (with_intent intent (Some failed) (OfProvider err)).

Definition InitiatePayment (s : Service P) (c : Ctx) (in_ : InitiateInput)
    : svc (Failure InitiatedPayment) InitiatedPayment :=
  let now := ctx_now c in
  match NewMoney (in_AmountMinor in_) (in_Currency in_) with
  | inl _ => throw (fail ErrInvalidInput)
  | inr amount =>
  ensure (negb (bool_decide (in_CreatedBy in_ = uuid_nil))) (fail ErrInvalidInput);;
  ensure (validateOptionalID (in_CustomerID in_)) (fail ErrInvalidInput);;
  ensure (validateOptionalID (in_JobID in_)) (fail ErrInvalidInput);;
  ensure (validateOptionalID (in_VehicleID in_)) (fail ErrInvalidInput);;
  provider ← from_option (Service_Provider s (in_Provider in_)) (fail ErrInvalidInput);
  let intent := mkIntent uuid_nil (in_TenantID in_) (in_CustomerID in_) (in_CreatedBy in_)
    (AmountMinor amount) (Currency amount) IntentCreated (Name provider) ""
    (in_JobID in_) (in_VehicleID in_) (RedactFreeText (in_Description in_)) ""
    None None None 0 0 in
  ensure (negb (MaxDescriptionLength <? blen (in_Description in_))%nat) (fail ErrInvalidInput);;
  intent ← on_store (CreateIntent now (ctx_fresh c 0) intent) (λ e, fail (OfStore e));
  let txID := ctx_fresh c 1 in
  let with_intent i t e := mkFailure (Some (mkInitiatedPayment i t)) e in
  answer ← try_provider (Initiate provider
    (mkInitiateRequest (i_ID intent) txID amount (i_Description intent) (in_PayerPhone in_)));
  match answer with
  | inl err =>
      if is_unavailable err then throw (with_intent intent None (OfProvider err))
      else record_rejection s c in_ provider amount intent txID err
  | inr initiated =>
      tx ← on_store
        (InsertTransaction now (ctx_fresh c 1)
           (mkTransaction txID (i_ID intent) (Name provider) (is_ProviderRef initiated) ""
              (is_Status initiated) (AmountMinor amount) (Currency amount) "" None 0 0))
        (λ e, with_intent intent None (OfStore e));
      on_store
        (UpdateIntentStatus now (i_ID intent) IntentCreated IntentProcessing
           (Some (in_CreatedBy in_)) "provider accepted the initiation")
        (λ e, with_intent intent None (OfStore e));;
      let intent := update_struct intent IntentProcessing (is_ProviderRef initiated)
                      (i_FailureReason intent) in
      published ← publish s c (ctx_fresh c 2) EventIntentCreated (i_ID intent)
        (Some (in_CreatedBy in_)) (tenantString (in_TenantID in_))
        (intent_created_payload intent);
      ensure published (with_intent intent (Some tx) PublishFailed);;
      mret (mkInitiatedPayment intent (Some tx))
  end
  end.

(** *** HandleWebhook *)

Definition webhook_key (provider event : string) (tx : uuid) : string :=
  "webhook:" +:+ provider +:+ ":" +:+ event +:+ ":" +:+ uuid_string tx.

(** Step 5: apply the settlement and complete the key. *)
Definition apply_webhook (s : Service P) (c : Ctx) (payload : WebhookPayload)
    (tx : Transaction) (key : string) : svc (Failure WebhookResult) WebhookResult :=
  let now := ctx_now c in
  let failed := String.eqb (wp_Event payload) WebhookEventTransactionFailed in
  let newTxStatus := if failed then TxFailed else TxSucceeded in
  let newIntentStatus := if failed then IntentFailed else IntentSucceeded in
  let eventType := if failed then EventTransactionFailedV1 else EventTransactionSucceededV1 in
  let settledBy := "webhook" in
  let result := mkWebhookResult WebhookStatusApplied false (t_IntentID tx) (t_ID tx) in
  on_store
    (ApplyTransactionOutcome now
       (mkApplyOutcomeParams (t_ID tx) newTxStatus newIntentStatus
          (wp_ProviderReceipt payload) (wp_FailureReason payload) (wp_OccurredAt payload)
          settledBy))
    (λ e, fail (OfStore e));;
  on_store (CompleteIdempotencyKey now key "applied") (λ e, fail (OfStore e));;
  published ← publish s c (ctx_fresh c 0) eventType (t_ID tx) None (tenantString None)
    (TransactionSettledPayload (t_IntentID tx) (t_ID tx) (t_Provider tx) (t_ProviderRef tx)
       (wp_ProviderReceipt payload) (t_AmountMinor tx) (t_Currency tx) settledBy
       (wp_FailureReason payload));
  ensure published (mkFailure (Some result) PublishFailed);;
  mret result.

Definition HandleWebhook (s : Service P) (c : Ctx) (providerName : string)
    (header : Header) (body : string) (now : time)
    : svc (Failure WebhookResult) WebhookResult :=
  provider ← from_option (Service_Provider s providerName) (fail ErrInvalidInput);
  match WebhookEvent provider header body now with
  | inl (WebhookUnauthorized err) => throw (fail (ErrWebhookUnauthorized err))
  | inl (WebhookContent _) => throw (fail ErrWebhookRejected)
  | inr payload =>
      tx ← on_store (GetTransactionByProviderRef (Name provider) (wp_ProviderRef payload))
        (λ _, fail ErrWebhookRejected);
      ensure (String.eqb (t_Provider tx) (Name provider)) (fail ErrWebhookRejected);;
      ensure (EqualSameCurrency (mkMoney (wp_AmountMinor payload) (wp_Currency payload))
                (mkMoney (t_AmountMinor tx) (t_Currency tx))) (fail ErrWebhookRejected);;
      ensure (negb (negb (bool_decide (t_IntentID tx = wp_IntentID payload)) &&
                    negb (bool_decide (wp_IntentID payload = uuid_nil))))
        (fail ErrWebhookRejected);;
      let key := webhook_key (Name provider) (wp_Event payload) (t_ID tx) in
      claim ← on_store (ClaimIdempotencyKey (ctx_now c) key "webhook" (sha256Hex body))
        (λ e, fail (OfStore e));
      if cr_Claimed claim then apply_webhook s c payload tx key
      else
        ensure (String.eqb (cr_ExistingPayloadHash claim) (sha256Hex body))
          (fail ErrWebhookRejected);;
        ensure (negb (String.eqb (cr_ExistingResult claim) "")) (fail (OfStore ErrConflict));;
        mret (mkWebhookResult WebhookStatusDuplicate true (t_IntentID tx) (t_ID tx))
  end.

(** *** RefundPayment *)

(** [refund.Status = status; refund.ProviderRef = ref; refund.FailureReason = reason] *)
Definition update_refund_struct (r : Refund) (status : RefundStatus) (ref reason : string)
    : Refund :=
  mkRefund (r_ID r) (r_IntentID r) (r_AmountMinor r) (r_Currency r) status (r_Provider r)
    ref (r_Reason r) reason (r_RequestedBy r) (r_CreatedAt r) (r_UpdatedAt r).

(** The provider's half of a refund whose row is persisted. *)
Definition run_refund (s : Service P) (c : Ctx) (provider : Provider P)
    (intent : PaymentIntent) (refund : Refund) (reason : string) (actorID : uuid)
    : svc (Failure Refund) Refund :=
  let now := ctx_now c in
  let with_refund r e := mkFailure (Some r) e in
  answer ← try_provider (Provider_Refund provider
    (mkRefundRequest (r_ID refund) (i_ID intent) (i_ProviderRef intent)
       (mkMoney (i_AmountMinor intent) (i_Currency intent)) reason));
  match answer with
  | inl err =>
      if is_unavailable err then throw (with_refund refund (OfProvider err))
      else
        on_store (UpdateRefundStatus now (r_ID refund) RefundRequested RefundFailed ""
                    (failureReasonFrom err)) (λ e, with_refund refund (OfStore e));;
        let refund := update_refund_struct refund RefundFailed (r_ProviderRef refund)
                        (failureReasonFrom err) in
        publish s c (ctx_fresh c 1) EventRefundFailed (r_ID refund) (Some actorID)
          (tenantString (i_TenantID intent))
          (RefundFailedPayload (i_ID intent) (r_ID refund) (r_AmountMinor refund)
             (r_Currency refund) (r_FailureReason refund));;
        throw (with_refund refund (OfProvider err))
  | inr result =>
      on_store (UpdateRefundStatus now (r_ID refund) RefundRequested (rr_Status result)
                  (rr_ProviderRef result) (rr_FailureReason result))
        (λ e, with_refund refund (OfStore e));;
      let refund := update_refund_struct refund (rr_Status result) (rr_ProviderRef result)
                      (r_FailureReason refund) in
      published ← publish s c (ctx_fresh c 1) EventRefundCompleted (r_ID refund) (Some actorID)
        (tenantString (i_TenantID intent))
        (RefundCompletedPayload (i_ID intent) (r_ID refund) (r_AmountMinor refund)
           (r_Currency refund) (i_Provider intent) (rr_ProviderRef result));
      ensure published (with_refund refund PublishFailed);;
      mret refund
  end.

Definition RefundPayment (s : Service P) (c : Ctx) (intentID : uuid) (reason : string)
    (actorID : uuid) (scope : Scope) : svc (Failure Refund) Refund :=
  intent ← on_store (GetIntent intentID scope) (λ e, fail (OfStore e));
  ensure (String.eqb (i_Status intent) IntentSucceeded) (fail ErrNotRefundable);;
  ensure (negb (MaxRefundReasonLength <? blen reason)%nat) (fail ErrInvalidInput);;
  existing ← try_store (LatestRefundForIntent intentID scope);
  match existing with
  | inr existing =>
      ensure (String.eqb (r_Status existing) RefundFailed) (fail ErrAlreadyRefunded)
  | inl ErrRefundNotFound => mret tt
  | inl err => throw (fail (OfStore err))
  end;;
  provider ← from_option (Service_Provider s (i_Provider intent)) (fail ErrInvalidInput);
  let refund := mkRefund uuid_nil (i_ID intent) (i_AmountMinor intent) (i_Currency intent)
    RefundRequested (i_Provider intent) "" reason ""
    (if bool_decide (actorID = uuid_nil) then None else Some actorID) 0 0 in
  refund ← on_store (InsertRefund (ctx_now c) (ctx_fresh c 0) refund) (λ e, fail (OfStore e));
  run_refund s c provider intent refund reason actorID.

(** *** Reads *)

Definition Service_GetIntent (id : uuid) (scope : Scope) : svc (Failure PaymentIntent) PaymentIntent :=
  on_store (GetIntent id scope) (λ e, fail (OfStore e)).

Definition Intents (scope : Scope) (filter : IntentFilter) (limit offset : Z)
    : svc (Failure (list PaymentIntent)) (list PaymentIntent) :=
  let limit := clamp_limit DefaultIntentsLimit MaxIntentsLimit limit in
  let offset := clamp_offset offset in
  ensure (match f_Status filter with Some st => isKnownIntentStatus st | None => true end)
    (fail ErrInvalidInput);;
  on_store (ListIntents scope filter limit offset) (λ e, fail (OfStore e)).

Definition Service_GetTransaction (id : uuid) (scope : Scope)
    : svc (Failure Transaction) Transaction :=
  on_store (GetTransaction id scope) (λ e, fail (OfStore e)).

Definition Transactions (intentID : uuid) (scope : Scope)
    : svc (Failure (list Transaction)) (list Transaction) :=
  on_store (GetIntent intentID scope) (λ e, fail (OfStore e));;
  on_store (ListTransactions intentID scope) (λ e, fail (OfStore e)).

Definition Service_GetRefund (id : uuid) (scope : Scope) : svc (Failure Refund) Refund :=
  on_store (GetRefund id scope) (λ e, fail (OfStore e)).

End Service.

#[global] Arguments webhook_key : simpl never.
#[global] Arguments failureReasonFrom : simpl never.
#[global] Arguments publish : simpl never.
#[global] Arguments apply_webhook : simpl never.
#[global] Arguments record_rejection : simpl never.
#[global] Arguments run_refund : simpl never.
