(* ===== verification/PayRefine.v ===== *)
(** * PayRefine: the service methods take payment steps

    A small program logic for the service monad: [spec Pre c Post] says that a run
    of [c] from a ledger in [Pre] takes only payment steps on it, also when it
    fails, and that a successful run ends in [Post]. The handlers of the service
    are verified against it, so that the invariant of [PayInvariant] covers them.
    The last part is a concrete run, the input of the witnesses. *)

From S2P Require Import Prelude Text Sha256 Platform Sql Money PayMachine PayModels PayStore.
From S2P Require Import PayLedger PayInvariant PayLedgerProps Webhook Providers PayService.

Open Scope Z_scope.

Section Refine.
Context `{Driver} `{UuidText} {P : Type}.

Definition spec {E A} (Pre : ledger → Prop) (c : M (world P) E A) (Post : A → ledger → Prop)
    : Prop :=
  ∀ w r w', Pre (w_ledger w) → c w = (r, w') →
    payment_steps (w_ledger w) (w_ledger w') ∧ ∀ a, r = inr a → Post a (w_ledger w').

Lemma spec_bind {E A B} Pre (c : M (world P) E A) Mid (f : A → M (world P) E B) Post :
  spec Pre c Mid → (∀ a, spec (Mid a) (f a) Post) → spec Pre (c ≫= f) Post.
Proof.
  intros Sc Sf w r w' Pw R. unfold mbind, M_bind in R.
  destruct (c w) as [[e|a] w1] eqn:Ec; destruct (Sc _ _ _ Pw Ec) as [T Po].
  - simplify_eq. split; [done|discriminate].
  - destruct (Sf a _ _ _ (Po a eq_refl) R) as [T' Po']. split; [by etrans|done].
Qed.

(** A fact that does not depend on the ledger. *)
Lemma spec_pure {E A} (Pre : ledger → Prop) (φ : Prop) (c : M (world P) E A) Post :
  (φ → spec Pre c Post) → spec (λ l, Pre l ∧ φ) c Post.
Proof. intros S w r w' [Pw F] R. by eapply S. Qed.

Lemma spec_ret {E A} (Pre : ledger → Prop) (a : A) (Post : A → ledger → Prop) :
  (∀ l, Pre l → Post a l) → spec (E:=E) Pre (mret a) Post.
Proof.
  intros I w r w' Pw [= <- <-]. split; [apply rtc_refl|]. intros a' [= <-]. auto.
Qed.

Lemma spec_throw {E A} Pre (e : E) (Post : A → ledger → Prop) : spec Pre (throw e) Post.
Proof. intros w r w' Pw [= <- <-]. split; [apply rtc_refl|discriminate]. Qed.

Lemma spec_ensure {E} Pre b (e : E) : spec Pre (ensure b e) (λ _ l, Pre l ∧ b = true).
Proof. destruct b; [by apply spec_ret|apply spec_throw]. Qed.

Lemma spec_from_option {E A} Pre (o : option A) (e : E) :
  spec Pre (from_option o e) (λ a l, Pre l ∧ o = Some a).
Proof. destruct o; [by apply spec_ret|apply spec_throw]. Qed.

Lemma spec_on_store {A B} Pre (c : M ledger StoreError A) (f : StoreError → Failure B) Post :
  (∀ l r l', Pre l → c l = (r, l') →
     payment_steps l l' ∧ ∀ a, r = inr a → Post a l') →
  spec Pre (on_store c f) Post.
Proof.
  intros S w r w' Pw R. unfold on_store, wrap, zoom in R.
  destruct (c (w_ledger w)) as [[e|a] l'] eqn:Ec; simplify_eq/=;
    destruct (S _ _ _ Pw Ec) as [T Po]; split; try exact T; intros a' [=]; subst; auto.
Qed.

Lemma spec_try_store {A E} Pre (c : M ledger StoreError A) :
  (∀ l r l', Pre l → c l = (r, l') → l' = l) →
  spec (E:=E) Pre (try_store c) (λ r l, Pre l ∧ c l = (r, l)).
Proof.
  intros S w r w' Pw R. unfold try_store, try, zoom in R.
  destruct (c (w_ledger w)) as [x l'] eqn:Ec. simplify_eq/=.
  pose proof (S _ _ _ Pw Ec) as ->. split; [apply rtc_refl|]. by intros a [= <-].
Qed.

Lemma spec_try_provider {A E} Pre (c : M P ProviderError A) :
  spec (E:=E) Pre (try_provider c) (λ r l, Pre l ∧ ∃ p p', c p = (r, p')).
Proof.
  intros w r w' Pw R. unfold try_provider, try, zoom in R.
  destruct (c (w_provider w)) as [x p'] eqn:Ec. simplify_eq/=.
  split; [apply rtc_refl|]. intros a [= <-]. split; [done|]. by eexists _, _.
Qed.

Lemma spec_publish {E} Pre (s : Service P) c fresh ty agg actor tenant p :
  spec (E:=E) Pre (publish s c fresh ty agg actor tenant p) (λ _ l, Pre l).
Proof.
  unfold publish. intros w r w' Pw R. unfold_run R. case_run R;
    (split; [apply rtc_refl|by intros a [= <-]]).
Qed.

Lemma spec_weaken {E A} (Pre Pre' : ledger → Prop) (c : M (world P) E A) Post :
  (∀ l, Pre' l → Pre l) → spec Pre c Post → spec Pre' c Post.
Proof. intros I S w r w' Pw R. eapply S; eauto. Qed.

Lemma spec_post {E A} Pre (c : M (world P) E A) (Post Post' : A → ledger → Prop) :
  (∀ a l, Post a l → Post' a l) → spec Pre c Post → spec Pre c Post'.
Proof. intros I S w r w' Pw R. destruct (S _ _ _ Pw R). split; eauto. Qed.

(** Inversion of the primitive calls. *)
Lemma on_store_inv {A B} (c : M ledger StoreError A) (f : StoreError → Failure B)
    (w : world P) r w' :
  on_store c f w = (r, w') →
  ∃ x l', c (w_ledger w) = (x, l') ∧ w' = mkWorld l' (w_provider w) (w_events w) ∧
    ((∃ e, x = inl e ∧ r = inl (f e)) ∨ ∃ a, x = inr a ∧ r = inr a).
Proof.
  unfold on_store, wrap, zoom. destruct (c (w_ledger w)) as [[e|a] l'] eqn:Ec;
    intros R; injection R as <- <-; eexists _, l'; eauto 8.
Qed.

Lemma try_provider_inv {A E} (c : M P ProviderError A) (w : world P) r w' :
  try_provider (E:=E) c w = (r, w') →
  ∃ x p', c (w_provider w) = (x, p') ∧ w' = mkWorld (w_ledger w) p' (w_events w) ∧ r = inr x.
Proof.
  unfold try_provider, try, zoom. destruct (c (w_provider w)) as [x p'] eqn:Ec.
  intros R. injection R as <- <-. by eexists _, _.
Qed.

(** Publishing appends at most the one event; it never fails, it answers. *)
Lemma publish_inv {E} (s : Service P) c fresh ty agg actor tenant p (w : world P) r w' :
  ty ≠ "" → publish (E:=E) s c fresh ty agg actor tenant p w = (r, w') →
  w_ledger w' = w_ledger w ∧ w_provider w' = w_provider w ∧
  ∃ ok, r = inr ok ∧
    (w_events w' = w_events w ∧ (ok = true → publisher s = None) ∨
     ok = true ∧ ∃ e, w_events w' = w_events w ++ [(EventDomain, e)] ∧
       EventType e = ty ∧ AggregateID e = uuid_string agg ∧ TenantID e = tenant ∧
       Payload e = p).
Proof.
  unfold publish. intros N R. destruct (publisher s) as [broker|].
  2:{ injection R as <- <-. split_and!; [done..|]. exists true. auto. }
  rewrite NewEvent_uuid in R by done. destruct (broker _).
  - unfold mbind, M_bind, modify in R. injection R as <- <-. simpl.
    split_and!; [done..|]. exists true. split; [done|]. right. split; [done|].
    by eexists.
  - injection R as <- <-. split_and!; [done..|]. exists false. split; [done|].
    left. by split.
Qed.

(** The trivial post-condition of a handler. *)
Abbreviation any := (λ _ _, True) (only parsing).

Ltac spec_step :=
  lazymatch goal with
  | |- spec _ (throw _) _ => apply spec_throw
  | |- spec _ (mret _) _ => apply spec_ret; done
  | |- spec _ (ensure _ _ ≫= _) _ => eapply spec_bind; [apply spec_ensure|intros []]
  | |- spec _ (from_option _ _ ≫= _) _ => eapply spec_bind; [apply spec_from_option|intros ?]
  | |- spec _ (publish _ _ _ _ _ _ _ _ ≫= _) _ =>
      eapply spec_bind; [apply spec_publish|intros ?]
  | |- spec _ (try_provider _ ≫= _) _ =>
      eapply spec_bind; [apply spec_try_provider|intros ?]
  end.

(** ** The store calls of the handlers *)

Lemma one_step l l' : payment_step l l' → payment_steps l l'.
Proof. apply rtc_once. Qed.

(** The intent [i] of the call is in the ledger, under its own identifier, with
    the amount of the call. *)
Definition holds (i : PaymentIntent) (l : ledger) : Prop :=
  ∃ row, payment_intents l !! i_ID i = Some row ∧
    i_AmountMinor row = i_AmountMinor i ∧ i_Currency row = i_Currency i ∧
    i_Status row = i_Status i.

Lemma CreateIntent_steps now fresh i l r l' :
  ledger_ok l → i_Status i = IntentCreated → CreateIntent now fresh i l = (r, l') →
  payment_steps l l' ∧ ∀ i', r = inr i' → ledger_ok l' ∧ holds i' l' ∧
    i_AmountMinor i' = i_AmountMinor i ∧ i_Currency i' = i_Currency i.
Proof.
  intros Ok S R. assert (payment_step l l') as St by (by eapply step_create).
  split; [by apply one_step|]. intros i' ->.
  split; [by eapply payment_step_ok|].
  pose proof R as R'. unfold CreateIntent in R'. unfold_run R'.
  destruct (insert_intent _ _) as [[?|?] ?] eqn:E; simplify_eq/=.
  apply insert_intent_run in E as [[_ [? ?]]|(_ & -> & _)]; [done|].
  split; [|done]. eexists. simpl. by rewrite lookup_insert_eq.
Qed.

Lemma InsertTransaction_steps now fresh t i l r l' :
  ledger_ok l → t_Status t = TxPending ∨ t_Status t = TxFailed →
  holds i l → t_IntentID t = i_ID i → t_AmountMinor t = i_AmountMinor i →
  t_Currency t = i_Currency i → InsertTransaction now fresh t l = (r, l') →
  payment_steps l l' ∧ ∀ t', r = inr t' → ledger_ok l'.
Proof.
  intros Ok S (row & L & A & C & _) I At Ct R.
  assert (payment_step l l') as St.
  { eapply step_attempt; [done| |done]. rewrite I, L. intros ? [= <-]. split; congruence. }
  split; [by apply one_step|]. intros t' _. by eapply payment_step_ok.
Qed.

Lemma UpdateIntentStatus_steps now id to actor reason l r l' :
  to = IntentProcessing ∨ to = IntentFailed →
  UpdateIntentStatus now id IntentCreated to actor reason l = (r, l') →
  payment_steps l l' ∧ ∀ a, r = inr a → True.
Proof. intros T R. split; [|done]. apply one_step. by eapply step_initiated. Qed.

(** ** InitiatePayment *)

Lemma record_rejection_spec s c in_ provider amount intent txID err :
  i_AmountMinor intent = AmountMinor amount → i_Currency intent = Currency amount →
  spec (λ l, ledger_ok l ∧ holds intent l)
    (record_rejection (P:=P) s c in_ provider amount intent txID err) any.
Proof.
  intros A C. unfold record_rejection.
  eapply (spec_bind _ _ (λ _ _, True)).
  { apply spec_on_store. intros l r l' [Ok Hi] R.
    eapply InsertTransaction_steps in R; [|done|by right|done|done..].
    destruct R as [? ?]. split; [done|]. done. }
  intros failed. eapply (spec_bind _ _ (λ _ _, True)).
  { apply spec_on_store. intros l r l' _ R.
    eapply UpdateIntentStatus_steps in R as [? ?]; [|by right]. done. }
  intros []. do 2 spec_step. spec_step.
Qed.

Lemma InitiatePayment_spec (s : Service P) c in_ :
  (∀ name p, providers s !! name = Some p → ProviderContract p) →
  spec ledger_ok (InitiatePayment s c in_) any.
Proof.
  intros PC. unfold InitiatePayment.
  destruct (NewMoney _ _) as [?|amount] eqn:NM; [apply spec_throw|].
  do 4 spec_step. spec_step. spec_step.
  eapply (spec_bind _ _ (λ i l, (ledger_ok l ∧ holds i l) ∧ i_AmountMinor i = AmountMinor amount ∧
             i_Currency i = Currency amount ∧
             Service_Provider s (in_Provider in_) = Some a)).
  { apply spec_on_store. intros l r l' Pre R. destruct_and?.
    eapply CreateIntent_steps in R as [T Po]; [|done|done].
    split; [done|]. intros i' Ei. destruct (Po _ Ei) as (? & ? & ? & ?). done. }
  intros i. spec_step. apply spec_pure. intros (p & p' & Ip). apply spec_pure.
  intros (A & C & Pr). destruct a0 as [err|res].
  - destruct (is_unavailable err); [apply spec_throw|]. by apply record_rejection_spec.
  - assert (is_Status res = TxPending) as Sp.
    { unfold Service_Provider in Pr. apply PC in Pr. by eapply initiate_pending. }
    eapply (spec_bind _ _ (λ _ _, True)).
    { apply spec_on_store. intros l r l' [Ok Hi] R.
      eapply InsertTransaction_steps in R as [? ?]; [|done|by left|done|done..]. done. }
    intros tx. eapply (spec_bind _ _ (λ _ _, True)).
    { apply spec_on_store. intros l r l' _ R.
      eapply UpdateIntentStatus_steps in R as [? ?]; [|by left]. done. }
    intros []. spec_step. spec_step. spec_step.
Qed.

(** ** HandleWebhook *)

Lemma read_only_ref provider ref l r l' :
  GetTransactionByProviderRef provider ref l = (r, l') → l' = l.
Proof. intros R. unfold GetTransactionByProviderRef in R. unfold_run R. by case_run R. Qed.

Lemma read_only_intent id scope l r l' : GetIntent id scope l = (r, l') → l' = l.
Proof. intros R. unfold GetIntent, send in R. unfold_run R. by case_run R. Qed.

Lemma read_only_latest id scope l r l' : LatestRefundForIntent id scope l = (r, l') → l' = l.
Proof. intros R. unfold LatestRefundForIntent, send in R. unfold_run R. by case_run R. Qed.

Lemma apply_webhook_spec (s : Service P) c payload tx key :
  spec (λ _, True) (apply_webhook s c payload tx key) any.
Proof.
  unfold apply_webhook.
  eapply (spec_bind _ _ (λ _ _, True)).
  { apply spec_on_store. intros l r l' _ R. split; [|done]. apply one_step.
    eapply step_settle; [| |exact R]; simpl; by destruct (String.eqb _ _). }
  intros _. eapply (spec_bind _ _ (λ _ _, True)).
  { apply spec_on_store. intros l r l' _ R. split; [|done]. apply one_step.
    by eapply step_complete. }
  intros []. spec_step. spec_step. spec_step.
Qed.

Lemma HandleWebhook_spec (s : Service P) c name header body now :
  spec (λ _, True) (HandleWebhook s c name header body now) any.
Proof.
  unfold HandleWebhook. spec_step.
  destruct (WebhookEvent _ _ _ _) as [[err|err]|payload]; [apply spec_throw..|].
  eapply (spec_bind _ _ (λ _ _, True)).
  { apply spec_on_store. intros l r l' _ ->%read_only_ref. split; [apply rtc_refl|done]. }
  intros tx. do 3 spec_step. eapply (spec_bind _ _ (λ _ _, True)).
  { apply spec_on_store. intros l r l' _ R. split; [|done]. apply one_step.
    by eapply step_claim. }
  intros claim. destruct (cr_Claimed claim); [apply apply_webhook_spec|].
  do 3 spec_step.
Qed.

(** ** RefundPayment *)

Lemma run_refund_spec (s : Service P) c provider intent refund reason actorID :
  spec (λ _, True) (run_refund s c provider intent refund reason actorID) any.
Proof.
  assert (∀ {A} to ref why (f : StoreError → Failure A),
    spec (λ _, True) (on_store (UpdateRefundStatus (ctx_now c) (r_ID refund)
           RefundRequested to ref why) f) any) as U.
  { intros A to ref why f. apply spec_on_store. intros l r l' _ R. split; [|done].
    apply one_step. by eapply step_refund_resolved. }
  unfold run_refund. spec_step. destruct a as [err|res].
  - destruct (is_unavailable err); [apply spec_throw|].
    eapply spec_bind; [eapply spec_weaken; [|apply U]; done|intros []].
    spec_step. apply spec_throw.
  - eapply spec_bind; [eapply spec_weaken; [|apply U]; done|intros []].
    do 3 spec_step.
Qed.

(** What a scoped read of an intent establishes. *)
Lemma GetIntent_holds id scope l i l' :
  well_formed l → GetIntent id scope l = (inr i, l') → i_ID i = id ∧ holds i l.
Proof.
  intros W R. unfold GetIntent, send in R. unfold_run R. case_run R.
  match goal with L : payment_intents _ !! _ = Some _ |- _ =>
    destruct (wf_intent _ W _ _ L) as [Id _] end.
  match goal with S : scanIntent _ = Some _ |- _ =>
    apply scanIntent_fields in S as (Ei & _ & _ & _ & ? & ? & ? & _) end.
  split; [congruence|]. eexists. rewrite Ei, Id. split; [done|]. split_and!; congruence.
Qed.

Lemma RefundPayment_spec (s : Service P) c id reason actorID scope :
  spec ledger_ok (RefundPayment s c id reason actorID scope) any.
Proof.
  unfold RefundPayment.
  eapply (spec_bind _ _ (λ i l, (ledger_ok l ∧ holds i l))).
  { apply spec_on_store. intros l r l' Ok R.
    pose proof (read_only_intent _ _ _ _ _ R) as ->. split; [apply rtc_refl|].
    intros i ->. split; [done|]. by eapply GetIntent_holds; [apply Ok|]. }
  intros i. spec_step. apply spec_pure. intros Si%String.eqb_eq. spec_step.
  eapply spec_bind.
  { apply spec_try_store. intros l r l' _. apply read_only_latest. }
  intros existing. eapply (spec_bind _ _ (λ _ l, ledger_ok l ∧ holds i l)).
  { destruct existing as [[]|]; try apply spec_throw.
    - apply spec_ret. naive_solver.
    - eapply spec_post; [|apply spec_ensure]. naive_solver. }
  intros []. spec_step. apply spec_pure. intros Pr.
  eapply (spec_bind _ _ (λ _ _, True)); [|intros; apply run_refund_spec].
  apply spec_on_store. intros l r l' [Ok (row & L & A & C & Sr)] R.
  split; [|done]. apply one_step. eapply step_refund_requested; [|exact R].
  simpl. rewrite L. intros ? [= <-]. split_and!; congruence.
Qed.

(** A verified handler takes payment steps, wherever its run ends. *)
Lemma spec_steps {E A} Pre (c : M (world P) E A) Post w :
  spec Pre c Post → Pre (w_ledger w) → payment_steps (w_ledger w) (w_ledger (c w).2).
Proof. intros S Pw. destruct (c w) as [r w'] eqn:R. exact (proj1 (S _ _ _ Pw R)). Qed.

(** By payment steps from one ledger to a next, which is reachable. *)
Definition leads (l l' : ledger) : Prop := payment_steps l l' ∧ reachable l'.

(** C2. Every handler of the service, whether it succeeds, fails half way or is
    refused, leads by payment steps from the ledger it finds to the ledger it leaves:
    nothing is dropped or rolled back, and everything proved of reachable ledgers holds
    of every ledger the running service produces, for any provider adapters that keep
    their documented contract. *)
Theorem service_refines_payment_steps (s : Service P)
    (PC : ∀ name p, providers s !! name = Some p → ProviderContract p)
    w (R : reachable (w_ledger w)) :
  (∀ c in_, leads (w_ledger w) (w_ledger (InitiatePayment s c in_ w).2)) ∧
  (∀ c name header body now,
     leads (w_ledger w) (w_ledger (HandleWebhook s c name header body now w).2)) ∧
  (∀ c id reason actor scope,
     leads (w_ledger w) (w_ledger (RefundPayment s c id reason actor scope w).2)).
Proof.
  pose proof (reachable_ok _ R) as Ok.
  assert (L : ∀ l, payment_steps (w_ledger w) l → leads (w_ledger w) l).
  { intros l St. split; [exact St|]. unfold reachable, payment_steps in *. by etrans. }
  split_and!; intros; apply L.
  - by eapply spec_steps; [apply InitiatePayment_spec|].
  - by eapply spec_steps; [apply HandleWebhook_spec|].
  - by eapply spec_steps; [apply RefundPayment_spec|].
Qed.

End Refine.

(** * A concrete run of the payments service

    The sandbox provider behind a service whose broker takes every event: one
    payment initiated, settled by a signed webhook and refunded. The properties
    of the handlers are instantiated here. JSON decoding is a table of the bodies
    the run delivers, identifiers print as a letter and their number, and the
    driver reads NULL as the empty string. *)

(** ** The parameters *)

Definition plain_uuid : UuidText := letter_uuid 117.

#[export] Existing Instance lenient.
#[export] Existing Instance plain_uuid.

(** The deliveries: of a collected payment of KES 15.00 and of a failed one. *)
Definition paid_body : string := "{paid u11}".
Definition failed_body : string := "{failed SBX-2}".

Definition table (body : string) : option (webhookEnvelope * string) :=
  if String.eqb body paid_body then
    Some (mkEnvelope "transaction.succeeded" "sandbox" "SBX-u11" "RCPT" 1500 "KES" ""
            (150 * second), "")
  else if String.eqb body failed_body then
    Some (mkEnvelope "transaction.failed" "sandbox" "SBX-2" "" 1500 "KES" "no funds"
            (150 * second), "")
  else None.

Definition quoted (s : string) : string := s.
Definition no_value (s : string) : bool := false.

Definition sandbox : Provider sandbox_state :=
  SandboxProvider quoted table no_value "s3cret" (300 * second) (200 * second).

Definition demo_service : Service sandbox_state :=
  NewService {["sandbox" := sandbox]} (Some (λ _, true)).

Lemma demo_contracts name p : providers demo_service !! name = Some p → ProviderContract p.
Proof.
  unfold demo_service, NewService. cbn [providers]. intros [_ <-]%lookup_singleton_Some.
  apply sandbox_contract.
Qed.

Lemma demo_null : is_Some null_text.
Proof. by exists "". Qed.

(** ** The run *)

Definition at_ (seconds : Z) (first : uuid) : Ctx :=
  mkCtx (seconds * second) "req" (λ k, first + N.of_nat k)%N.

Definition an_input : InitiateInput :=
  mkInitiateInput (Some 7%N) 9%N (Some 8%N) 1500 "KES" "" None None "oil change" "+254700000000".
Definition a_scope : Scope := mkScope (Some 7%N) None false.

Definition empty_world : world sandbox_state := mkWorld empty_ledger NewSandboxProvider [].
Definition initiation := InitiatePayment demo_service (at_ 100 10) an_input empty_world.
Definition initiated_world : world sandbox_state := initiation.2.

Definition signed (body : string) : Header :=
  {[WebhookSignatureHeader := [SignWebhookPayload "s3cret" body (200 * second)]]}.

Definition delivery :=
  HandleWebhook demo_service (at_ 201 20) "sandbox" (signed paid_body) paid_body
    (201 * second) initiated_world.
Definition paid_world : world sandbox_state := delivery.2.

Definition refunding :=
  RefundPayment demo_service (at_ 400 30) 10%N "duplicate" 9%N a_scope paid_world.
Definition refunded_world : world sandbox_state := refunding.2.

Lemma empty_world_reachable : reachable (w_ledger empty_world).
Proof. apply rtc_refl. Qed.

(** A call of a verified handler extends a reachable run. *)
Lemma call_reachable {E A} (c : M (world sandbox_state) E A) Pre Post w :
  spec Pre c Post → (reachable (w_ledger w) → Pre (w_ledger w)) →
  reachable (w_ledger w) → reachable (w_ledger (c w).2).
Proof.
  intros S Pw R. destruct (c w) as [r w'] eqn:E'. unfold reachable, payment_steps.
  etrans; [exact R|]. exact (proj1 (S _ _ _ (Pw R) E')).
Qed.

Lemma initiated_world_reachable : reachable (w_ledger initiated_world).
Proof.
  unfold initiated_world, initiation.
  eapply call_reachable;
    [apply InitiatePayment_spec, demo_contracts|apply reachable_ok|apply empty_world_reachable].
Qed.

Lemma paid_world_reachable : reachable (w_ledger paid_world).
Proof.
  unfold paid_world, delivery.
  eapply call_reachable; [apply HandleWebhook_spec|done|apply initiated_world_reachable].
Qed.

Lemma refunded_world_reachable : reachable (w_ledger refunded_world).
Proof.
  unfold refunded_world, refunding.
  eapply call_reachable;
    [apply RefundPayment_spec|apply reachable_ok|apply paid_world_reachable].
Qed.

(** What the run answers. *)
Definition the_initiated : InitiatedPayment :=
  mkInitiatedPayment
    (mkIntent 10%N (Some 7%N) (Some 8%N) 9%N 1500 "KES" "PROCESSING" "sandbox" "SBX-u11"
       None None "oil change" "" None None None (100 * second) (100 * second))
    (Some (mkTransaction 11%N 10%N "sandbox" "SBX-u11" "" "PENDING" 1500 "KES" "" None
       (100 * second) (100 * second))).

Lemma initiation_run :
  InitiatePayment demo_service (at_ 100 10) an_input empty_world =
  (inr the_initiated, initiated_world).
Proof. vm_compute. reflexivity. Qed.

Lemma delivery_run :
  HandleWebhook demo_service (at_ 201 20) "sandbox" (signed paid_body) paid_body
    (201 * second) initiated_world =
  (inr (mkWebhookResult "applied" false 10%N 11%N), paid_world).
Proof. vm_compute. reflexivity. Qed.

Definition the_refund : Refund :=
  mkRefund 30%N 10%N 1500 "KES" "COMPLETED" "sandbox" "SBXRF-u30" "duplicate" ""
    (Some 9%N) (400 * second) (400 * second).

Lemma refunding_run :
  RefundPayment demo_service (at_ 400 30) 10%N "duplicate" 9%N a_scope paid_world =
  (inr the_refund, refunded_world).
Proof. vm_compute. reflexivity. Qed.

Example announced :
  (λ e, EventType e.2) <$> w_events refunded_world =
  ["intent.created.v1"; "transaction.succeeded.v1"; "refund.completed.v1"].
Proof. vm_compute. reflexivity. Qed.

(** ** Witnesses of the provider and refinement properties *)

Definition an_initiate_request : InitiateRequest :=
  mkInitiateRequest 10%N 11%N (mkMoney 1500 "KES") "oil change" "".

Lemma sandbox_settles_witness :
  ∃ q, Query sandbox "SBX-u11" (SetOutcome 11%N TxSucceeded (mkSandboxState ∅ {[11%N := 1500]}))
         = (inr q, SetOutcome 11%N TxSucceeded (mkSandboxState ∅ {[11%N := 1500]})) ∧
    qr_Status q = "SUCCEEDED" ∧ qr_ProviderRef q = "SBX-u11" ∧ qr_Currency q = "KES" ∧
    (qr_Status q ≠ TxPending → qr_AmountMinor q = 1500).
Proof.
  apply (sandbox_settles quoted table no_value "s3cret" (300 * second) (200 * second)
           an_initiate_request NewSandboxProvider
           (mkInitiateResult TxPending "SBX-u11" "") (mkSandboxState ∅ {[11%N := 1500]})
           TxSucceeded (SetOutcome 11%N TxSucceeded (mkSandboxState ∅ {[11%N := 1500]})));
    reflexivity.
Defined.

Lemma service_refines_payment_steps_witness :
  payment_steps (w_ledger paid_world)
    (w_ledger (RefundPayment demo_service (at_ 400 30) 10%N "duplicate" 9%N a_scope paid_world).2).
Proof.
  apply (service_refines_payment_steps demo_service demo_contracts paid_world
           paid_world_reachable).
Defined.
