(* ===== verification/PayServiceProps.v ===== *)
(** * PayServiceProps: the behaviour of the payments handlers *)

From S2P Require Import Prelude Text Sha256 Platform Sql Money PayMachine PayModels PayStore.
From S2P Require Import PayLedger PayInvariant PayLedgerProps Webhook Providers PayService.
From S2P Require Import PayRefine.

Open Scope Z_scope.

Section Handlers.
Context `{Driver} `{UuidText} {P : Type}.
Implicit Types (s : Service P) (w : world P).

(** ** Runs of the webhook handler *)

Definition set_ledger (l : ledger) w : world P := mkWorld l (w_provider w) (w_events w).

Definition delivery_key (provider : Provider P) (payload : WebhookPayload) (tx : Transaction) :=
  webhook_key (Name provider) (wp_Event payload) (t_ID tx).

(** The checks between authentication and the claim. *)
Definition attested (provider : Provider P) (payload : WebhookPayload) (tx : Transaction)
    (l : ledger) : Prop :=
  GetTransactionByProviderRef (Name provider) (wp_ProviderRef payload) l = (inr tx, l) ∧
  t_Provider tx = Name provider ∧
  wp_AmountMinor payload = t_AmountMinor tx ∧ wp_Currency payload = t_Currency tx ∧
  (t_IntentID tx = wp_IntentID payload ∨ wp_IntentID payload = uuid_nil).

Ltac destruct_world := match goal with w : world _ |- _ => destruct w end.

(** Past one check of the handler, whose refusal leaves the world as it was. *)
Ltac next R C :=
  apply bind_inv in R as [(? & R & ->)|([] & ? & C & R)];
  [apply ensure_inv in R as [-> [[_ ?]|[_ [= ->]]]];
     [done|left; split; [by destruct_world|by eexists]]
  |apply ensure_inv in C as [-> [[C _]|[_ ?]]]; [|done]].

(** How a run of HandleWebhook goes: refused without a trace, answered from the
    key, or won the claim and applied. *)
Lemma HandleWebhook_run s c name header body now w r w' :
  HandleWebhook s c name header body now w = (r, w') →
  (w' = w ∧ ∃ e, r = inl (fail e)) ∨
  ∃ provider payload tx, Service_Provider s name = Some provider ∧
    WebhookEvent provider header body now = inr payload ∧
    attested provider payload tx (w_ledger w) ∧
    idem_check (mkIdem "webhook" (sha256Hex body) "" (ctx_now c) None) = true ∧
    let key := delivery_key provider payload tx in
    ((∃ row, payment_idempotency_keys (w_ledger w) !! key = Some row ∧
        k_payload_hash row = sha256Hex body ∧ k_result row ≠ "" ∧ w' = w ∧
        r = inr (mkWebhookResult WebhookStatusDuplicate true (t_IntentID tx) (t_ID tx))) ∨
     payment_idempotency_keys (w_ledger w) !! key = None ∧
     apply_webhook s c payload tx key
       (set_ledger (with_idempotency_keys (insert key
          (mkIdem "webhook" (sha256Hex body) "" (ctx_now c) None)) (w_ledger w)) w) = (r, w')).
Proof.
  unfold HandleWebhook. intros R.
  apply bind_inv in R as [(e & R & ->)|(provider & w1 & R0 & R)].
  { apply from_option_inv in R as [-> [(? & _ & ?)|[_ [= ->]]]]; [done|]. left. eauto. }
  apply from_option_inv in R0 as [-> [(? & Pr & [= <-])|[_ ?]]]; [|done].
  destruct (WebhookEvent provider header body now) as [[e|e]|payload] eqn:Ev;
    [injection R as <- <-; left; eauto..|].
  apply bind_inv in R as [(e & R & ->)|(tx & w1 & R0 & R)].
  { apply on_store_inv in R as (x & l' & G & -> & [(? & -> & [= ->])|(? & _ & ?)]); [|done].
    apply read_only_ref in G as ->. left. destruct w. eauto. }
  apply on_store_inv in R0 as (x & l' & G & -> & [(? & _ & ?)|(? & -> & [= <-])]); [done|].
  pose proof (read_only_ref _ _ _ _ _ G) as ->.
  next R C1. next R C2. next R C3.
  apply String.eqb_eq in C1. apply EqualSameCurrency_spec in C2. injection C2 as C2 C2'.
  assert (attested provider payload tx (w_ledger w)) as At.
  { split_and!; try done. props. destruct C3 as [C3|C3]; props; auto. }
  clear C1 C2 C2' C3.
  apply bind_inv in R as [(e & R & ->)|(claim & w1 & R0 & R)].
  { apply on_store_inv in R as (x & l' & K & -> & [(? & -> & [= ->])|(? & _ & ?)]); [|done].
    apply ClaimIdempotencyKey_run in K as [[_ ->]|[(? & _ & _ & ?)|[? _]]]; [|done..].
    left. destruct w. eauto. }
  apply on_store_inv in R0 as (x & l' & K & -> & [(? & _ & ?)|(? & -> & [= <-])]); [done|].
  simpl in K. pose proof K as Ck. unfold ClaimIdempotencyKey in Ck.
  apply bind_inv in Ck as [(? & _ & ?)|([] & l1 & Ck & _)]; [done|].
  apply ensure_inv in Ck as [_ [[Ck _]|[_ ?]]]; [|done].
  apply ClaimIdempotencyKey_run in K as [[? _]|[(row & L & -> & [= ->])|([= ->] & L & -> & _)]];
    [done| |].
  - simpl in R. next R C1. next R C2. props. right. exists provider, payload, tx.
    split_and!; [done..|]. left. exists row. injection R as <- <-. destruct w. done.
  - right. exists provider, payload, tx. split_and!; [done..|]. right. split; [done|exact R].
Qed.

(** The settlement a delivery asks for. *)
Definition is_failure (payload : WebhookPayload) : bool :=
  String.eqb (wp_Event payload) WebhookEventTransactionFailed.

Definition webhook_outcome (payload : WebhookPayload) (tx : Transaction) : ApplyOutcomeParams :=
  mkApplyOutcomeParams (t_ID tx) (if is_failure payload then TxFailed else TxSucceeded)
    (if is_failure payload then IntentFailed else IntentSucceeded)
    (wp_ProviderReceipt payload) (wp_FailureReason payload) (wp_OccurredAt payload) "webhook".

Definition applied_result (tx : Transaction) : WebhookResult :=
  mkWebhookResult WebhookStatusApplied false (t_IntentID tx) (t_ID tx).

Lemma ApplyTransactionOutcome_failed now p l e l' :
  ApplyTransactionOutcome now p l = (inl e, l') → l' = l.
Proof. apply transact_error. Qed.

Lemma CompleteIdempotencyKey_failed now key result l e l' :
  CompleteIdempotencyKey now key result l = (inl e, l') → l' = l.
Proof.
  intros [->|(? & _ & _ & _ & ? & _)]%CompleteIdempotencyKey_run; done.
Qed.

Lemma apply_webhook_run s c payload tx key w r w' :
  apply_webhook s c payload tx key w = (r, w') →
  (∃ e, ApplyTransactionOutcome (ctx_now c) (webhook_outcome payload tx) (w_ledger w)
          = (inl e, w_ledger w) ∧ r = inl (fail (OfStore e)) ∧ w' = w) ∨
  ∃ b l1, ApplyTransactionOutcome (ctx_now c) (webhook_outcome payload tx) (w_ledger w)
            = (inr b, l1) ∧
    ((∃ e, CompleteIdempotencyKey (ctx_now c) key "applied" l1 = (inl e, l1) ∧
       r = inl (fail (OfStore e)) ∧ w' = set_ledger l1 w) ∨
     CompleteIdempotencyKey (ctx_now c) key "applied" l1 = (inr tt, w_ledger w') ∧
     w_provider w' = w_provider w ∧
     (r = inr (applied_result tx) ∨
      r = inl (mkFailure (Some (applied_result tx)) PublishFailed) ∧ w_events w' = w_events w)).
Proof.
  unfold apply_webhook. intros R.
  apply bind_inv in R as [(e & R & ->)|(b & w1 & R0 & R)].
  { apply on_store_inv in R as (x & l' & A & -> & [(e' & -> & [= ->])|(? & _ & ?)]); [|done].
    pose proof (ApplyTransactionOutcome_failed _ _ _ _ _ A) as ->.
    left. exists e'. split_and!; [exact A|done|by destruct w]. }
  apply on_store_inv in R0 as (x & l1 & A & -> & [(? & _ & ?)|(? & -> & [= <-])]); [done|].
  right. exists b, l1. split; [exact A|]. clear A.
  apply bind_inv in R as [(e & R & ->)|([] & w1 & R0 & R)].
  { apply on_store_inv in R as (x & l' & A & -> & [(e' & -> & [= ->])|(? & _ & ?)]); [|done].
    simpl in A. pose proof (CompleteIdempotencyKey_failed _ _ _ _ _ _ A) as ->.
    left. by exists e'. }
  apply on_store_inv in R0 as (x & l2 & A & -> & [(? & _ & ?)|([] & -> & _)]); [done|].
  simpl in *. right.
  apply bind_inv in R as [(e & R & ->)|(ok & w1 & R0 & R)].
  { apply publish_inv in R as (_ & _ & ? & ? & _); [done|]. by destruct (String.eqb _ _). }
  apply publish_inv in R0 as (L & Pv & ok' & [= ->] & Ev); [|by destruct (String.eqb _ _)].
  simpl in *.
  apply bind_inv in R as [(e & R & ->)|([] & w2 & R0 & R)].
  - apply ensure_inv in R as [-> [[_ ?]|[-> [= ->]]]]; [done|]. rewrite L.
    split_and!; [exact A|done|]. right. split; [done|].
    destruct Ev as [[Ev _]|[? _]]; [done|done].
  - apply ensure_inv in R0 as [-> _]. injection R as <- <-. rewrite L.
    split_and!; [exact A|done|]. by left.
Qed.

(** ** What can move money *)

Lemma ApplyTransactionOutcome_only now p l r l' :
  well_formed l → ApplyTransactionOutcome now p l = (r, l') →
  ∀ id, id ≠ ap_TransactionID p → payment_transactions l' !! id = payment_transactions l !! id.
Proof.
  intros W [[-> _]|(row & L & [(_ & -> & _)|A])]%ApplyTransactionOutcome_run id N; [done..|].
  destruct (wf_transaction _ W _ _ L) as [Id _].
  destruct A as (_ & _ & _ & occ & _ & i & _ & [[_ ->]|(_ & _ & ->)]); simpl;
    apply lookup_insert_ne; congruence.
Qed.

(** C5. A webhook delivery leaves a trace only if it authenticated against the
    provider it was addressed to, names the reference of one of that provider's
    transactions and attests exactly its amount and currency, and no earlier
    delivery claimed its key; then at most that one transaction changes. Every
    other delivery leaves the ledger, the provider and the published events as
    they were. *)
Theorem webhook_trusts_only_attested s c name header body now w r w'
    (R : reachable (w_ledger w))
    (E : HandleWebhook s c name header body now w = (r, w')) :
  w' = w ∨
  ∃ provider payload tx, Service_Provider s name = Some provider ∧
    WebhookEvent provider header body now = inr payload ∧
    attested provider payload tx (w_ledger w) ∧
    payment_idempotency_keys (w_ledger w) !! delivery_key provider payload tx = None ∧
    ∀ id, id ≠ t_ID tx →
      payment_transactions (w_ledger w') !! id = payment_transactions (w_ledger w) !! id.
Proof.
  apply reachable_ok in R as [W _].
  apply HandleWebhook_run in E as [[-> _]|(provider & payload & tx & Pr & Ev & At & Ck & E)];
    [by left|].
  destruct E as [(row & _ & _ & _ & -> & _)|[N A]]; [by left|]. right.
  exists provider, payload, tx. split_and!; [done..|]. intros id Ne.
  set (l1 := with_idempotency_keys _ _) in A.
  assert (well_formed l1) as W1 by by apply with_idem_well_formed.
  apply apply_webhook_run in A as [(e & _ & _ & ->)|(b & l2 & A & Co)]; [done|].
  simpl in A. assert (payment_transactions l2 !! id = payment_transactions (w_ledger w) !! id) as E2.
  { by rewrite (ApplyTransactionOutcome_only _ _ _ _ _ W1 A). }
  destruct Co as [(e & _ & _ & ->)|(Co & _)]; [done|].
  apply CompleteIdempotencyKey_run in Co as [->|(? & _ & _ & _ & _ & ->)]; done.
Qed.

(** ** Replays *)

(** A driver that reads NULL text columns scans every row. *)
Lemma scanTransaction_total t : is_Some null_text → is_Some (scanTransaction t).
Proof.
  intros [d Nt]. unfold scanTransaction, scan_text. rewrite Nt.
  destruct (t_ProviderRef t), (t_ProviderReceipt t), (t_FailureReason t); simpl; eauto.
Qed.

Lemma GetTransactionByProviderRef_at provider ref l id row :
  well_formed l → ref ≠ "" →
  payment_transactions l !! id = Some row → t_Provider row = provider →
  t_ProviderRef row = Some ref →
  GetTransactionByProviderRef provider ref l =
    (match scanTransaction row with Some t => inr t | None => inl ErrDB end, l).
Proof.
  intros W NE L Pr Rf. unfold GetTransactionByProviderRef. unfold_run_goal.
  assert (row ∈ List.filter (by_provider_ref provider ref)
                  (map_to_list (payment_transactions l)).*2) as I.
  { rewrite list_elem_of_In, filter_In, <-list_elem_of_In. split.
    - apply list_elem_of_fmap. exists (id, row). split; [done|by apply elem_of_map_to_list].
    - unfold by_provider_ref. rewrite Pr, String.eqb_refl. by apply bool_decide_eq_true. }
  destruct (List.filter _ _) as [|row' rows] eqn:F; [by apply elem_of_nil in I|].
  assert (row' = row) as ->.
  { assert (row' ∈ (map_to_list (payment_transactions l)).*2 ∧
            by_provider_ref provider ref row' = true) as [I' B].
    { rewrite list_elem_of_In, <-filter_In, F. by left. }
    apply list_elem_of_fmap in I' as ([id' r'] & -> & I'). simpl in *.
    apply elem_of_map_to_list in I'. unfold by_provider_ref in B. props.
    assert (id' = id) as ->; [|congruence].
    eapply (wf_provider_ref _ W); [exact I'|exact L|congruence|congruence|].
    match goal with X : t_ProviderRef r' = _ |- _ => rewrite X end.
    simpl. by destruct (String.eqb_spec ref ""). }
  by destruct (scanTransaction row).
Qed.

(** The row behind a correlated transaction. *)
Lemma correlated_row provider ref l t :
  well_formed l → GetTransactionByProviderRef provider ref l = (inr t, l) →
  ∃ row, payment_transactions l !! t_ID t = Some row ∧ scanTransaction row = Some t ∧
    t_Provider row = provider ∧ t_ProviderRef row = Some ref.
Proof.
  intros W G. unfold GetTransactionByProviderRef in G. unfold_run G.
  destruct (List.filter _ _) as [|row rows] eqn:F; [done|].
  assert (row ∈ (map_to_list (payment_transactions l)).*2 ∧
          by_provider_ref provider ref row = true) as [I B].
  { rewrite list_elem_of_In, <-filter_In, F. by left. }
  apply list_elem_of_fmap in I as ([id row'] & -> & I). simpl in *.
  apply elem_of_map_to_list in I. unfold by_provider_ref in B. props.
  destruct (scanTransaction row') as [t'|] eqn:S; [|done]. injection G as ->.
  destruct (wf_transaction _ W _ _ I) as [Id _].
  apply scanTransaction_fields in S as S'. destruct S' as (Et & _).
  exists row'. rewrite Et, Id. done.
Qed.

(** A delivery that is attested on a ledger stays attested later on, as long as its row can
    be read; if the driver cannot read it, the transaction is not found. *)
Lemma attested_row provider payload tx l l' :
  wp_ProviderRef payload ≠ "" →
  well_formed l → well_formed l' → kept l l' → attested provider payload tx l →
  ∃ row, payment_transactions l' !! t_ID tx = Some row ∧
    match scanTransaction row with
    | Some tx' => attested provider payload tx' l' ∧ t_ID tx' = t_ID tx ∧ t_IntentID tx' = t_IntentID tx
    | None => GetTransactionByProviderRef (Name provider) (wp_ProviderRef payload) l' = (inl ErrDB, l')
    end.
Proof.
  intros NE W W' Kp (G & Pr & A & C & I).
  destruct (correlated_row _ _ _ _ W G) as (row & L & S & Rp & Rr).
  destruct (kept_transaction _ _ Kp _ _ L) as (row' & L' & Ei & Ep & Er & Ea & Ec & _).
  exists row'. split; [done|].
  pose proof (GetTransactionByProviderRef_at (Name provider) (wp_ProviderRef payload) l'
              (t_ID tx) row' W' NE L') as G'.
  destruct (scanTransaction row') as [tx'|] eqn:S'; [|apply G'; congruence].
  apply scanTransaction_fields in S as (Id & Si & Sp & _ & Sa & Sc & _).
  apply scanTransaction_fields in S' as (Id' & Si' & Sp' & _ & Sa' & Sc' & _).
  destruct (wf_transaction _ W _ _ L) as [K _], (wf_transaction _ W' _ _ L') as [K' _].
  split_and!; [split_and!; [apply G'; congruence|congruence..|]|congruence..].
  destruct I; [left; congruence|by right].
Qed.

Lemma attested_later provider payload tx l l' :
  is_Some null_text → wp_ProviderRef payload ≠ "" →
  well_formed l → well_formed l' → kept l l' → attested provider payload tx l →
  ∃ tx', attested provider payload tx' l' ∧ t_ID tx' = t_ID tx ∧ t_IntentID tx' = t_IntentID tx.
Proof.
  intros Nt NE W W' Kp At. destruct (attested_row _ _ _ _ _ NE W W' Kp At) as (row & _ & S).
  destruct (scanTransaction_total row Nt) as [tx' E]. rewrite E in S. by exists tx'.
Qed.

Lemma ClaimIdempotencyKey_existing now key scope hash l row :
  idem_check (mkIdem scope hash "" now None) = true →
  payment_idempotency_keys l !! key = Some row →
  ClaimIdempotencyKey now key scope hash l =
    (inr (mkClaimResult false (k_result row) (k_payload_hash row)), l).
Proof.
  intros Ck L. unfold ClaimIdempotencyKey. unfold_run_goal. rewrite Ck. simpl. by rewrite L.
Qed.

Lemma CompleteIdempotencyKey_ok now key result l row l' :
  payment_idempotency_keys l !! key = Some row →
  CompleteIdempotencyKey now key result l = (inr tt, l') →
  ∃ row', payment_idempotency_keys l' !! key = Some row' ∧
    k_payload_hash row' = k_payload_hash row ∧ k_result row' = result ∧ result ≠ "".
Proof.
  intros L. unfold CompleteIdempotencyKey. intros C.
  apply bind_inv in C as [(? & _ & ?)|(l0 & l1 & G & C)]; [done|]. injection G as <- <-.
  rewrite L in C. unfold update_idem in C.
  apply bind_inv in C as [(? & _ & ?)|([] & ? & C1 & C)]; [done|].
  apply ensure_inv in C1 as [-> _].
  apply bind_inv in C as [(? & _ & ?)|([] & ? & C1 & C)]; [done|].
  apply ensure_inv in C1 as [-> [[C1 _]|[_ ?]]]; [|done]. injection C as <-.
  cbn [k_result] in C1. props. eexists. simpl. by rewrite lookup_insert_eq.
Qed.

(** Once the key of a delivery carries a result, the delivery is a duplicate. *)
Lemma completed_delivery s c name header body now w provider payload tx row :
  Service_Provider s name = Some provider →
  WebhookEvent provider header body now = inr payload →
  attested provider payload tx (w_ledger w) →
  idem_check (mkIdem "webhook" (sha256Hex body) "" (ctx_now c) None) = true →
  payment_idempotency_keys (w_ledger w) !! delivery_key provider payload tx = Some row →
  k_payload_hash row = sha256Hex body → k_result row ≠ "" →
  HandleWebhook s c name header body now w =
    (inr (mkWebhookResult WebhookStatusDuplicate true (t_IntentID tx) (t_ID tx)), w).
Proof.
  intros Pr Ev (G & Tp & A & C & I) Ck L Eh Nr. unfold HandleWebhook.
  unfold from_option, mbind, M_bind. rewrite Pr. cbn [mret M_ret]. rewrite Ev.
  unfold on_store, wrap, zoom. rewrite G. cbn [w_ledger w_provider w_events].
  rewrite Tp, String.eqb_refl. cbn [ensure mret M_ret].
  assert (EqualSameCurrency (mkMoney (wp_AmountMinor payload) (wp_Currency payload))
            (mkMoney (t_AmountMinor tx) (t_Currency tx)) = true) as ->.
  { apply EqualSameCurrency_spec. congruence. }
  assert (negb (bool_decide (t_IntentID tx = wp_IntentID payload)) &&
          negb (bool_decide (wp_IntentID payload = uuid_nil)) = false) as ->.
  { destruct I as [I|I]; [rewrite (bool_decide_eq_true_2 _ I)|
      rewrite (bool_decide_eq_true_2 _ I), andb_false_r]; done. }
  cbn [ensure negb mret M_ret].
  cbn [w_ledger w_provider w_events]. unfold delivery_key in L.
  rewrite (ClaimIdempotencyKey_existing _ _ _ _ _ _ Ck L).
  cbn [cr_Claimed cr_ExistingPayloadHash cr_ExistingResult].
  rewrite Eh, String.eqb_refl. cbn [ensure mret M_ret].
  destruct (String.eqb_spec (k_result row) ""); [done|]. cbn [negb ensure mret M_ret].
  by destruct w.
Qed.

(** A delivery whose transaction the driver cannot read is rejected. *)
Lemma unreadable_delivery s c name header body now w provider payload :
  Service_Provider s name = Some provider →
  WebhookEvent provider header body now = inr payload →
  GetTransactionByProviderRef (Name provider) (wp_ProviderRef payload) (w_ledger w) = (inl ErrDB, w_ledger w) →
  HandleWebhook s c name header body now w = (inl (fail ErrWebhookRejected), w).
Proof.
  intros Pr Ev G. unfold HandleWebhook, from_option, mbind, M_bind. rewrite Pr. cbn [mret M_ret].
  rewrite Ev. unfold on_store, wrap, zoom. rewrite G. by destruct w.
Qed.

(** C6. Webhook processing is idempotent: after a delivery was handled
    successfully, whether applied or already a duplicate, every later copy of it
    that still authenticates changes nothing, at whatever time and however often it is
    redelivered. It is answered as a duplicate naming the same transaction; or it is
    rejected, where the driver cannot read the row of the transaction back (a text column
    is NULL, and the driver does not take NULL for a string). *)
Theorem webhook_replay_is_duplicate s
    (PC : ∀ name p, providers s !! name = Some p → ProviderContract p)
    c name header body now w res w'
    (R : reachable (w_ledger w))
    (First : HandleWebhook s c name header body now w = (inr res, w'))
    c' now'
    (Again : ∀ provider, Service_Provider s name = Some provider →
       WebhookEvent provider header body now' = WebhookEvent provider header body now) :
  ∃ row, payment_transactions (w_ledger w') !! wr_TransactionID res = Some row ∧
    HandleWebhook s c' name header body now' w' =
      (if bool_decide (is_Some (scanTransaction row))
       then inr (mkWebhookResult "duplicate" true (wr_IntentID res) (wr_TransactionID res))
       else inl (fail ErrWebhookRejected), w').
Proof.
  pose proof (reachable_ok _ R) as Ok.
  destruct (HandleWebhook_spec _ _ _ _ _ _ _ _ _ I First) as [St _].
  pose proof (payment_steps_kept _ _ Ok St) as Kp.
  destruct (payment_steps_ok _ _ Ok St) as [W' _].
  apply HandleWebhook_run in First as [(_ & ? & ?)|(provider & payload & tx & Pr & Ev & At & Ck & F)];
    [done|].
  pose proof (Again _ Pr) as Ev'. rewrite Ev in Ev'.
  assert (ProviderContract provider) as PCp by (unfold Service_Provider in Pr; by eapply PC).
  destruct (webhook_event_known _ _ _ _ Ev) as [_ NE].
  destruct (attested_row _ _ _ _ _ NE (proj1 Ok) W' Kp At) as (trow & Lt & Rd).
  assert (∃ row, payment_idempotency_keys (w_ledger w') !! delivery_key provider payload tx = Some row ∧
            k_payload_hash row = sha256Hex body ∧ k_result row ≠ "" ∧
            wr_IntentID res = t_IntentID tx ∧ wr_TransactionID res = t_ID tx) as (row & L & Hh & Nr & Ri & Rt).
  { destruct F as [(row & L & Hh & Nr & -> & [= ->])|[_ A]]; [by exists row|].
    apply apply_webhook_run in A as [(? & _ & ? & _)|(b & l1 & A & Co)]; [done|].
    destruct Co as [(? & _ & ? & _)|(Co & _ & [[= ->]|[? _]])]; [done| |done].
    cbn [w_ledger set_ledger] in A.
    assert (payment_idempotency_keys l1 !! delivery_key provider payload tx =
            Some (mkIdem "webhook" (sha256Hex body) "" (ctx_now c) None)) as L1.
    { apply ApplyTransactionOutcome_run in A as [[_ [? ?]]|(rw & _ & [(_ & -> & _)|A])];
        [done|simpl; by rewrite lookup_insert_eq|].
      destruct A as (_ & _ & _ & ? & _ & ? & _ & [[_ ->]|(_ & _ & ->)]); simpl;
        by rewrite lookup_insert_eq. }
    destruct (CompleteIdempotencyKey_ok _ _ _ _ _ _ L1 Co) as (row & L & Hh & Er & Nr).
    exists row. split_and!; try done. by rewrite Er. }
  exists trow. rewrite Ri, Rt. split; [done|]. destruct (scanTransaction trow) as [tx'|].
  2:{ rewrite bool_decide_eq_false_2 by by intros []. by eapply unreadable_delivery. }
  rewrite bool_decide_eq_true_2 by done.
  destruct Rd as (At' & Id & Ii). rewrite <-Id, <-Ii. apply (completed_delivery _ _ _ _ _ _ _ provider payload tx' row);
    try done. unfold delivery_key in *. by rewrite Id.
Qed.

(** ** A settlement that fails after the claim *)

(** A key that is claimed and not completed makes its delivery conflict. *)
Lemma claimed_delivery s c name header body now w provider payload tx row :
  Service_Provider s name = Some provider →
  WebhookEvent provider header body now = inr payload →
  attested provider payload tx (w_ledger w) →
  idem_check (mkIdem "webhook" (sha256Hex body) "" (ctx_now c) None) = true →
  payment_idempotency_keys (w_ledger w) !! delivery_key provider payload tx = Some row →
  k_payload_hash row = sha256Hex body → k_result row = "" →
  HandleWebhook s c name header body now w = (inl (fail (OfStore ErrConflict)), w).
Proof.
  intros Pr Ev At Ck L Eh Nr.
  destruct (HandleWebhook s c name header body now w) as [r w'] eqn:E.
  unfold HandleWebhook in E. unfold delivery_key in L. destruct At as (G & Tp & A & C & I).
  apply bind_inv in E as [(e & E & ->)|(p & w1 & E0 & E)];
    [apply from_option_inv in E as [_ [(? & _ & ?)|[? _]]]; congruence|].
  apply from_option_inv in E0 as [-> [(? & Pr' & [= <-])|[? _]]]; [|congruence].
  rewrite Pr in Pr'. injection Pr' as <-. rewrite Ev in E.
  apply bind_inv in E as [(e & E & ->)|(tx' & w1 & E0 & E)];
    [apply on_store_inv in E as (x & l' & G' & _ & [(? & -> & _)|(? & _ & ?)]);
      [rewrite G in G'; done|done]|].
  apply on_store_inv in E0 as (x & l' & G' & -> & [(? & _ & ?)|(? & -> & [= <-])]); [done|].
  rewrite G in G'. injection G' as <- <-.
  rewrite Tp, String.eqb_refl in E.
  assert (EqualSameCurrency (mkMoney (wp_AmountMinor payload) (wp_Currency payload))
            (mkMoney (t_AmountMinor tx) (t_Currency tx)) = true) as Eq.
  { apply EqualSameCurrency_spec. congruence. }
  assert (negb (bool_decide (t_IntentID tx = wp_IntentID payload)) &&
          negb (bool_decide (wp_IntentID payload = uuid_nil)) = false) as Ei.
  { destruct I as [I|I]; [rewrite (bool_decide_eq_true_2 _ I)|
      rewrite (bool_decide_eq_true_2 _ I), andb_false_r]; done. }
  rewrite Eq, Ei in E.
  do 3 (apply bind_inv in E as [(e & E & _)|([] & ? & E0 & E)]; [discriminate E|injection E0 as <-]).
  apply bind_inv in E as [(e & E & ->)|(cl & w1 & E0 & E)];
    [apply on_store_inv in E as (x & l' & K & _ & [(? & -> & _)|(? & _ & ?)]);
      [simpl in K; rewrite (ClaimIdempotencyKey_existing _ _ _ _ _ _ Ck L) in K; done|done]|].
  apply on_store_inv in E0 as (x & l' & K & -> & [(? & _ & ?)|(? & -> & [= <-])]); [done|].
  simpl in K.
  rewrite (ClaimIdempotencyKey_existing _ _ _ _ _ _ Ck L) in K. injection K as <- <-.
  cbn [cr_Claimed cr_ExistingPayloadHash cr_ExistingResult] in E.
  rewrite Eh, Nr, !String.eqb_refl in E.
  apply bind_inv in E as [(e & E & _)|([] & ? & E0 & E)]; [discriminate E|injection E0 as <-].
  apply bind_inv in E as [(e & E & ->)|([] & ? & E0 & E)];
    [|by apply ensure_inv in E0 as [_ [[? _]|[_ ?]]]].
  apply ensure_inv in E as [-> [[? _]|[_ [= ->]]]]; [done|]. by destruct w.
Qed.

(** A delivery that won the claim but whose settlement was refused (the intent
    was not PROCESSING yet, say, or the outcome conflicts) is lost for good: the
    claim is committed on its own, so every redelivery of the same payload finds
    the key taken without a result and answers a conflict, without a trace. *)
Theorem failed_settlement_blocks_redelivery s
    (PC : ∀ name p, providers s !! name = Some p → ProviderContract p)
    (Nt : is_Some null_text) c name header body now w f w'
    (R : reachable (w_ledger w))
    (First : HandleWebhook s c name header body now w = (inl f, w'))
    (Trace : w' ≠ w) (NoResult : partial f = None)
    c' now'
    (Again : ∀ provider, Service_Provider s name = Some provider →
       WebhookEvent provider header body now' = WebhookEvent provider header body now) :
  HandleWebhook s c' name header body now' w' = (inl (fail (OfStore ErrConflict)), w').
Proof.
  pose proof (reachable_ok _ R) as Ok.
  destruct (HandleWebhook_spec _ _ _ _ _ _ _ _ _ I First) as [St _].
  pose proof (payment_steps_kept _ _ Ok St) as Kp.
  destruct (payment_steps_ok _ _ Ok St) as [W' _].
  apply HandleWebhook_run in First as [(? & _)|(provider & payload & tx & Pr & Ev & At & Ck & F)];
    [done|].
  pose proof (Again _ Pr) as Ev'. rewrite Ev in Ev'.
  assert (ProviderContract provider) as PCp by (unfold Service_Provider in Pr; by eapply PC).
  destruct (webhook_event_known _ _ _ _ Ev) as [_ NE].
  destruct (attested_later _ _ _ _ _ Nt NE (proj1 Ok) W' Kp At) as (tx' & At' & Id & Ii).
  destruct F as [(? & _ & _ & _ & ? & _)|[_ A]]; [done|].
  eapply (claimed_delivery s c' name header body now' w' provider payload tx'
            (mkIdem "webhook" (sha256Hex body) "" (ctx_now c) None)); try done.
  unfold delivery_key. rewrite Id. change (webhook_key _ _ _) with (delivery_key provider payload tx).
  apply apply_webhook_run in A as [(e & _ & _ & ->)|(b & l1 & A & [(e & Co & _ & ->)|(_ & _ & A')])].
  - simpl. by rewrite lookup_insert_eq.
  - simpl. apply ApplyTransactionOutcome_run in A as [[_ [? ?]]|(rw & _ & [(_ & -> & _)|A])];
      [done|simpl; by rewrite lookup_insert_eq|].
    destruct A as (_ & _ & _ & ? & _ & ? & _ & [[_ ->]|(_ & _ & ->)]); simpl;
      by rewrite lookup_insert_eq.
  - destruct A' as [?|[[= ->] _]]; done.
Qed.

(** ** Initiations *)

(** The store calls of an initiation, inverted. *)
Lemma CreateIntent_ok now fresh i l i' l' :
  CreateIntent now fresh i l = (inr i', l') →
  i_ID i' = assign_id (i_ID i) fresh ∧ i_AmountMinor i' = i_AmountMinor i ∧
  i_Currency i' = i_Currency i ∧
  l' = with_intents (insert (i_ID i') (intent_values now (i_ID i') i)) l ∧
  payment_intents l !! i_ID i' = None.
Proof.
  unfold CreateIntent. intros R.
  apply bind_inv in R as [(? & _ & ?)|([] & l1 & I & R)]; [done|]. injection R as <- <-.
  apply insert_intent_run in I as [[_ [? ?]]|(_ & -> & N & _)]; done.
Qed.

Lemma InsertTransaction_ok now fresh t l t' l' :
  InsertTransaction now fresh t l = (inr t', l') →
  t_ID t' = assign_id (t_ID t) fresh ∧ t_FailureReason t' = t_FailureReason t ∧
  l' = with_transactions (insert (t_ID t') (transaction_values now (t_ID t') t)) l.
Proof.
  unfold InsertTransaction. intros R.
  apply bind_inv in R as [(? & _ & ?)|([] & l1 & I & R)]; [done|]. injection R as <- <-.
  apply insert_transaction_run in I as [[_ [? ?]]|(_ & -> & _)]; done.
Qed.

Lemma UpdateIntentStatus_ok now id from to actor reason l l' :
  UpdateIntentStatus now id from to actor reason l = (inr tt, l') →
  ∃ row, payment_intents l !! id = Some row ∧
    l' = moved l row (set_status now to None row) (audit now id from to actor reason).
Proof.
  intros [[_ [? ?]]|(_ & row & L & _ & _ & _ & ->)]%UpdateIntentStatus_run; [done|].
  by exists row.
Qed.

(** What the ledger holds of one payment: the status of the intent, with its amount
    and currency, and of the transaction, if one was recorded. *)
Definition recorded (l : ledger) (in_ : InitiateInput) (id : uuid) (status : IntentStatus)
    (tx : option (uuid * TransactionStatus * option string * option string)) : Prop :=
  (∃ row, payment_intents l !! id = Some row ∧ i_Status row = status ∧
     i_AmountMinor row = in_AmountMinor in_ ∧ i_Currency row = "KES" ∧
     i_TenantID row = in_TenantID in_ ∧ i_CreatedBy row = in_CreatedBy in_) ∧
  match tx with
  | Some (tid, ts, ref, reason) =>
      ∃ t, payment_transactions l !! tid = Some t ∧ t_IntentID t = id ∧ t_Status t = ts ∧
        t_ProviderRef t = ref ∧ t_FailureReason t = reason ∧
        t_AmountMinor t = in_AmountMinor in_ ∧ t_Currency t = "KES"
  | None => True
  end.

Lemma recorded_moved now l in_ id from to actor reason tid t l' :
  well_formed l → UpdateIntentStatus now id from to actor reason l = (inr tt, l') →
  (∃ row, payment_intents l !! id = Some row ∧
     i_AmountMinor row = in_AmountMinor in_ ∧ i_Currency row = "KES" ∧
     i_TenantID row = in_TenantID in_ ∧ i_CreatedBy row = in_CreatedBy in_) →
  payment_transactions l !! tid = Some t → t_IntentID t = id →
  t_AmountMinor t = in_AmountMinor in_ → t_Currency t = "KES" →
  recorded l' in_ id to (Some (tid, t_Status t, t_ProviderRef t, t_FailureReason t)).
Proof.
  intros W (row & L & ->)%UpdateIntentStatus_ok (row' & L' & A & C & T & B) Lt It At Ct.
  rewrite L in L'. injection L' as <-.
  destruct (wf_intent _ W _ _ L) as [Id _]. split.
  - exists (set_status now to None row). simpl. rewrite Id, lookup_insert_eq. done.
  - exists t. simpl. done.
Qed.

(** The intent a call just created. *)
Definition fresh_intent (l : ledger) (in_ : InitiateInput) (i : PaymentIntent) : Prop :=
  ∃ row, payment_intents l !! i_ID i = Some row ∧ i_Status row = IntentCreated ∧
    i_AmountMinor row = in_AmountMinor in_ ∧ i_Currency row = "KES" ∧
    i_TenantID row = in_TenantID in_ ∧ i_CreatedBy row = in_CreatedBy in_.

(** Recording an attempt and moving its intent. *)
Lemma attempt_recorded (c : Ctx) in_ (i : PaymentIntent) (t tx : Transaction) to actor reason l1 l2 l3 :
  ledger_ok l1 → fresh_intent l1 in_ i →
  t_Status t = TxPending ∨ t_Status t = TxFailed →
  t_IntentID t = i_ID i → t_AmountMinor t = in_AmountMinor in_ → t_Currency t = "KES" →
  InsertTransaction (ctx_now c) (ctx_fresh c 1) t l1 = (inr tx, l2) →
  UpdateIntentStatus (ctx_now c) (i_ID i) IntentCreated to actor reason l2 = (inr tt, l3) →
  recorded l3 in_ (i_ID i) to
    (Some (t_ID tx, t_Status t, nullif_empty (t_ProviderRef t), nullif_empty (t_FailureReason t))).
Proof.
  intros Ok (row & L & _ & A & C & T & B) S It At Ct I U.
  assert (ledger_ok l2) as [W2 _].
  { eapply payment_step_ok; [exact Ok|]. eapply step_attempt; [exact S| |exact I].
    rewrite It, L. intros ? [= <-]. split; congruence. }
  apply InsertTransaction_ok in I as (Id & _ & E2). subst l2.
  set (trow := transaction_values (ctx_now c) (t_ID tx) t) in *.
  eapply (recorded_moved _ _ in_ _ _ _ _ _ (t_ID tx) trow _ W2 U); try done; simpl.
  - exists row. done.
  - by rewrite lookup_insert_eq.
Qed.

Lemma record_rejection_run s c in_ provider amount i txID err w r w' :
  ledger_ok (w_ledger w) → fresh_intent (w_ledger w) in_ i →
  AmountMinor amount = in_AmountMinor in_ → Currency amount = "KES" →
  record_rejection s c in_ provider amount i txID err w = (r, w') →
  ∃ f, r = inl f ∧
    ((∃ e, cause f = OfStore e) ∨
     cause f = OfProvider err ∧
     ∃ ip tx, partial f = Some ip ∧ ip_Transaction ip = Some tx ∧ i_ID (ip_Intent ip) = i_ID i ∧
       recorded (w_ledger w') in_ (i_ID i) "FAILED"
         (Some (t_ID tx, "FAILED", None, nullif_empty (failureReasonFrom err)))).
Proof.
  intros Ok Fi A C R. unfold record_rejection in R.
  apply bind_inv in R as [(f & R & ->)|(tx & w1 & R0 & R)].
  { apply on_store_inv in R as (? & ? & _ & _ & [(e & _ & [= ->])|(? & _ & ?)]); [|done].
    eexists. split; [done|]. left. by exists e. }
  apply on_store_inv in R0 as (? & l2 & I & -> & [(? & _ & ?)|(? & -> & [= <-])]); [done|].
  simpl in R.
  apply bind_inv in R as [(f & R & ->)|([] & w2 & R0 & R)].
  { apply on_store_inv in R as (? & ? & _ & _ & [(e & _ & [= ->])|(? & _ & ?)]); [|done].
    eexists. split; [done|]. left. by exists e. }
  apply on_store_inv in R0 as (? & l3 & U & -> & [(? & _ & ?)|([] & -> & _)]); [done|].
  simpl in U, R.
  apply bind_inv in R as [(f & R & ->)|(ok1 & w3 & R1 & R)];
    [by apply publish_inv in R as (_ & _ & ? & ? & _)|].
  apply publish_inv in R1 as (L3 & _); [|done]. simpl in L3.
  apply bind_inv in R as [(f & R & ->)|(ok2 & w4 & R2 & R)];
    [by apply publish_inv in R as (_ & _ & ? & ? & _)|].
  apply publish_inv in R2 as (L4 & _); [|done]. rewrite L3 in L4.
  injection R as <- <-. eexists. split; [done|]. right. split; [done|].
  eexists _, tx. split_and!; [done..|]. rewrite L4.
  eapply (λ S T A C, attempt_recorded c in_ i _ tx IntentFailed _ _ _ _ _ Ok Fi S T A C I U);
    [by right|done|exact A|exact C].
Qed.

(** C10. What an initiation leaves behind. Accepted: the intent is PROCESSING with a
    PENDING transaction of the same amount. Rejected by the provider: both are
    FAILED, the transaction with the provider's reason, cut at 500 bytes. Provider
    unavailable: the intent stays CREATED, no transaction is recorded and nothing
    is published, so the caller may retry. Invalid input: nothing happens. *)
Theorem initiation_outcomes s
    (PC : ∀ name p, providers s !! name = Some p → ProviderContract p)
    c in_ w r w' (R : reachable (w_ledger w))
    (E : InitiatePayment s c in_ w = (r, w')) :
  match r with
  | inr ip => ∃ tx ref, ip_Transaction ip = Some tx ∧
      recorded (w_ledger w') in_ (i_ID (ip_Intent ip)) "PROCESSING"
        (Some (t_ID tx, "PENDING", ref, None))
  | inl f =>
      match cause f with
      | ErrInvalidInput => w' = w
      | OfProvider e => ∃ ip, partial f = Some ip ∧
          if is_unavailable e then
            ip_Transaction ip = None ∧
            recorded (w_ledger w') in_ (i_ID (ip_Intent ip)) "CREATED" None ∧
            payment_transactions (w_ledger w') = payment_transactions (w_ledger w) ∧
            w_events w' = w_events w
          else ∃ tx, ip_Transaction ip = Some tx ∧
            recorded (w_ledger w') in_ (i_ID (ip_Intent ip)) "FAILED"
              (Some (t_ID tx, "FAILED", None, nullif_empty (failureReasonFrom e)))
      | _ => True
      end
  end.
Proof.
  apply reachable_ok in R as Ok. unfold InitiatePayment in E.
  destruct (NewMoney _ _) as [?|amount] eqn:NM; [by injection E as <- <-|].
  apply NewMoney_inv in NM as (-> & Cu & _).
  do 4 (apply bind_inv in E as [(f & E & ->)|([] & ? & E0 & E)];
    [by apply ensure_inv in E as [-> [[_ ?]|[_ [= ->]]]]|
     apply ensure_inv in E0 as [-> [_|[_ ?]]]; [|done]]).
  apply bind_inv in E as [(f & E & ->)|(provider & ? & E0 & E)];
    [by apply from_option_inv in E as [-> [(? & _ & ?)|[_ [= ->]]]]|].
  apply from_option_inv in E0 as [-> [(? & Pr & [= <-])|[_ ?]]]; [|done].
  apply bind_inv in E as [(f & E & ->)|([] & ? & E0 & E)];
    [by apply ensure_inv in E as [-> [[_ ?]|[_ [= ->]]]]|].
  apply ensure_inv in E0 as [-> [_|[_ ?]]]; [|done].
  apply bind_inv in E as [(f & E & ->)|(i & ? & E0 & E)].
  { apply on_store_inv in E as (? & ? & _ & _ & [(e & _ & [= ->])|(? & _ & ?)]); done. }
  apply on_store_inv in E0 as (ri & l1 & Cr & -> & [(? & _ & ?)|(? & -> & Eq)]); [done|].
  injection Eq as <-.
  assert (ledger_ok l1) as Ok1 by (eapply payment_step_ok; [exact Ok|by eapply step_create; [|exact Cr]]).
  apply CreateIntent_ok in Cr as (Id & A1 & C1 & -> & N).
  set (row := intent_values _ _ _) in *.
  assert (fresh_intent (with_intents (insert (i_ID i) row) (w_ledger w)) in_ i) as Fi.
  { exists row. simpl. by rewrite lookup_insert_eq, Cu. }
  apply bind_inv in E as [(f & E & ->)|(answer & ? & E0 & E)];
    [by apply try_provider_inv in E as (? & ? & _ & _ & ?)|].
  apply try_provider_inv in E0 as (ans & p' & Ip & -> & [= ->]). simpl in Ip.
  destruct ans as [err|res].
  - destruct (is_unavailable err) eqn:Ua.
    + injection E as <- <-. simpl. rewrite Ua. eexists. split; [done|]. simpl.
      split_and!; [done| |done..]. split; [|done]. exact Fi.
    + apply record_rejection_run in E as (f & -> & [[e ->]|(-> & ip & tx & Pf & Tx & Ii & Rc)]);
        [done| |exact Ok1|exact Fi|done|by rewrite Cu].
      rewrite Ua. exists ip. split; [done|]. exists tx. split; [done|]. by rewrite Ii.
  - assert (is_Status res = TxPending) as Sp.
    { unfold Service_Provider in Pr. apply PC in Pr. by eapply initiate_pending. }
    apply bind_inv in E as [(f & E & ->)|(tx & ? & E0 & E)].
    { apply on_store_inv in E as (? & ? & _ & _ & [(e & _ & [= ->])|(? & _ & ?)]); done. }
    apply on_store_inv in E0 as (? & l2 & It & -> & [(? & _ & ?)|(? & -> & [= <-])]); [done|].
    simpl in It, E.
    apply bind_inv in E as [(f & E & ->)|([] & ? & E0 & E)].
    { apply on_store_inv in E as (? & ? & _ & _ & [(e & _ & [= ->])|(? & _ & ?)]); done. }
    apply on_store_inv in E0 as (? & l3 & U & -> & [(? & _ & ?)|([] & -> & _)]); [done|].
    simpl in U, E.
    apply bind_inv in E as [(f & E & ->)|(ok & w3 & E0 & E)];
      [by apply publish_inv in E as (_ & _ & ? & ? & _)|].
    apply publish_inv in E0 as (L3 & _); [|done]. simpl in L3.
    apply bind_inv in E as [(f & E & ->)|([] & ? & E0 & E)];
      [by apply ensure_inv in E as [_ [[_ ?]|[_ [= ->]]]]|].
    apply ensure_inv in E0 as [-> _]. injection E as <- <-.
    exists tx, (nullif_empty (is_ProviderRef res)). split; [done|]. rewrite L3. simpl.
    change "PENDING" with TxPending. rewrite <- Sp.
    eapply (λ S T A C, attempt_recorded c in_ _ _ tx IntentProcessing _ _ _ _ _ Ok1 Fi S T A C It U);
      [by left|done..].
Qed.

End Handlers.

(** ** Instances *)

Lemma webhook_trusts_only_attested_witness :
  paid_world = initiated_world ∨
  ∃ provider payload tx, Service_Provider demo_service "sandbox" = Some provider ∧
    WebhookEvent provider (signed paid_body) paid_body (201 * second) = inr payload ∧
    attested provider payload tx (w_ledger initiated_world) ∧
    payment_idempotency_keys (w_ledger initiated_world) !! delivery_key provider payload tx = None ∧
    ∀ id, id ≠ t_ID tx →
      payment_transactions (w_ledger paid_world) !! id =
      payment_transactions (w_ledger initiated_world) !! id.
Proof.
  exact (webhook_trusts_only_attested demo_service (at_ 201 20) "sandbox" (signed paid_body)
    paid_body (201 * second) initiated_world _ paid_world initiated_world_reachable
    delivery_run).
Defined.

Lemma webhook_replay_is_duplicate_witness :
  HandleWebhook demo_service (at_ 250 40) "sandbox" (signed paid_body) paid_body
    (250 * second) paid_world =
  (inr (mkWebhookResult "duplicate" true 10%N 11%N), paid_world).
Proof.
  destruct (webhook_replay_is_duplicate demo_service demo_contracts
    (at_ 201 20) "sandbox" (signed paid_body) paid_body (201 * second) initiated_world
    (mkWebhookResult "applied" false 10%N 11%N) paid_world initiated_world_reachable
    delivery_run (at_ 250 40) (250 * second)) as (row & L & E).
  - intros provider [= <-]. vm_compute. reflexivity.
  - rewrite E. destruct (scanTransaction_total row demo_null) as [t S]. rewrite S. reflexivity.
Defined.

(** A webhook that overtakes the initiation: the transaction is recorded, the
    intent not yet PROCESSING. *)
Definition overtaken_world : world sandbox_state :=
  mkWorld Demo.attempted NewSandboxProvider [].

Definition early_delivery :=
  HandleWebhook demo_service (at_ 201 20) "sandbox" (signed failed_body) failed_body
    (201 * second) overtaken_world.

Lemma attempted_reachable : reachable Demo.attempted.
Proof.
  eapply rtc_l; [by eapply (step_create _ 100 1%N Demo.an_intent); [|apply surjective_pairing]|].
  apply rtc_once. eapply (step_attempt _ 110 2%N Demo.a_transaction);
    [by left| |apply surjective_pairing].
  intros i E. vm_compute in E. by simplify_eq.
Qed.

Lemma early_delivery_run :
  HandleWebhook demo_service (at_ 201 20) "sandbox" (signed failed_body) failed_body
    (201 * second) overtaken_world =
  (inl (fail (OfStore ErrConflict)), early_delivery.2).
Proof. vm_compute. reflexivity. Qed.

Lemma early_delivery_trace : early_delivery.2 ≠ overtaken_world.
Proof.
  intros E. apply (f_equal (λ w, size (payment_idempotency_keys (w_ledger w)))) in E.
  vm_compute in E. discriminate.
Qed.

Lemma failed_settlement_blocks_redelivery_witness :
  HandleWebhook demo_service (at_ 250 40) "sandbox" (signed failed_body) failed_body
    (250 * second) early_delivery.2 = (inl (fail (OfStore ErrConflict)), early_delivery.2).
Proof.
  apply (failed_settlement_blocks_redelivery demo_service demo_contracts demo_null
    (at_ 201 20) "sandbox" (signed failed_body) failed_body (201 * second) overtaken_world
    (fail (OfStore ErrConflict)) early_delivery.2 attempted_reachable early_delivery_run
    early_delivery_trace eq_refl (at_ 250 40) (250 * second)).
  intros provider [= <-]. vm_compute. reflexivity.
Defined.

Lemma initiation_outcomes_witness :
  ∃ tx ref, ip_Transaction the_initiated = Some tx ∧
    recorded (w_ledger initiated_world) an_input 10%N "PROCESSING"
      (Some (t_ID tx, "PENDING", ref, None)).
Proof.
  exact (initiation_outcomes demo_service demo_contracts (at_ 100 10) an_input empty_world
    (inr the_initiated) initiated_world empty_world_reachable initiation_run).
Defined.
