(* ===== verification/PayRefunds.v ===== *)
(** * PayRefunds: the behaviour of RefundPayment

    What a refund leaves behind on every branch, why a repeated request is refused
    when the requests come one after the other, and what happens when they
    overlap: the guard that reads the latest refund and the write that records the
    new one are separate store calls. *)

From S2P Require Import Prelude Text Platform Sql Money PayMachine PayModels PayStore PayLedger.
From S2P Require Import PayInvariant PayLedgerProps PayReads Webhook Providers PayService.
From S2P Require Import PayRefine.

Open Scope Z_scope.

Section Refunds.
Context `{Driver} `{UuidText} {P : Type}.
Implicit Types (s : Service P) (w : world P).

(** ** The two halves of a refund *)

(** The guards, which only read. *)
Definition refund_checks s (intentID : uuid) (reason : string) (scope : Scope)
    : M (world P) (Failure Refund) (PaymentIntent * Provider P) :=
  intent ← on_store (GetIntent intentID scope) (λ e, fail (OfStore e));
  ensure (String.eqb (i_Status intent) IntentSucceeded) (fail ErrNotRefundable);;
  ensure (negb (MaxRefundReasonLength <? blen reason)%nat) (fail ErrInvalidInput);;
  existing ← try_store (LatestRefundForIntent intentID scope);
  match existing with
  | inr existing =>
      ensure (String.eqb (r_Status existing) RefundFailed) (fail ErrAlreadyRefunded)
  | inl ErrRefundNotFound => mret tt
  | inl err => throw (fail (OfStore err))
  end;;
  provider ← from_option (Service_Provider s (i_Provider intent)) (fail ErrInvalidInput);
  mret (intent, provider).

(** The writes and the provider call. *)
Definition refund_commit s (c : Ctx) (reason : string) (actorID : uuid)
    (checked : PaymentIntent * Provider P) : M (world P) (Failure Refund) Refund :=
  let '(intent, provider) := checked in
  refund ← on_store (InsertRefund (ctx_now c) (ctx_fresh c 0)
      (mkRefund uuid_nil (i_ID intent) (i_AmountMinor intent) (i_Currency intent)
         RefundRequested (i_Provider intent) "" reason ""
         (if bool_decide (actorID = uuid_nil) then None else Some actorID) 0 0))
    (λ e, fail (OfStore e));
  run_refund s c provider intent refund reason actorID.

Lemma RefundPayment_halves s c intentID reason actorID scope w :
  RefundPayment s c intentID reason actorID scope w =
  (checked ← refund_checks s intentID reason scope; refund_commit s c reason actorID checked) w.
Proof.
  unfold RefundPayment, refund_checks, refund_commit, mbind, M_bind.
  destruct (on_store _ _ w) as [[?|i] w1]; [done|].
  destruct (ensure _ _ w1) as [[?|[]] w2]; [done|].
  destruct (ensure _ _ w2) as [[?|[]] w3]; [done|].
  destruct (try_store _ w3) as [[?|e] w4]; [done|].
  match goal with |- context [match ?m w4 with _ => _ end] =>
    destruct (m w4) as [[?|[]] w5]; [done|] end.
  destruct (from_option _ _ w5) as [[?|p] w6]; done.
Qed.

(** The refusals of the guards. *)
Lemma refund_checks_run s id reason scope w r w' :
  well_formed (w_ledger w) → refund_checks s id reason scope w = (r, w') →
  w' = w ∧
  match r with
  | inl f => partial f = None ∧ ∀ e, cause f ≠ OfProvider e
  | inr (i, provider) =>
      GetIntent id scope (w_ledger w) = (inr i, w_ledger w) ∧
      i_ID i = id ∧ holds i (w_ledger w) ∧ i_Status i = "SUCCEEDED" ∧
      Service_Provider s (i_Provider i) = Some provider
  end.
Proof.
  intros W E. unfold refund_checks in E.
  apply bind_inv in E as [(f & E & ->)|(i & w1 & E0 & E)].
  { apply on_store_inv in E as (x & l' & G & -> & [(e & _ & [= ->])|(? & _ & ?)]); [|done].
    pose proof (read_only_intent _ _ _ _ _ G) as ->. by destruct w. }
  apply on_store_inv in E0 as (x & l' & G & -> & [(? & _ & ?)|(? & -> & Eq)]); [done|].
  injection Eq as <-.
  pose proof (read_only_intent _ _ _ _ _ G) as ->.
  destruct (GetIntent_holds _ _ _ _ _ W G) as [Id Ho].
  replace (mkWorld (w_ledger w) (w_provider w) (w_events w)) with w in E by by destruct w.
  apply bind_inv in E as [(f & E & ->)|([] & ? & E0 & E)];
    [by apply ensure_inv in E as [-> [[_ ?]|[_ [= ->]]]]|].
  apply ensure_inv in E0 as [-> [[Su _]|[_ ?]]]; [|done]. apply String.eqb_eq in Su.
  apply bind_inv in E as [(f & E & ->)|([] & ? & E0 & E)];
    [by apply ensure_inv in E as [-> [[_ ?]|[_ [= ->]]]]|].
  apply ensure_inv in E0 as [-> _].
  unfold try_store, try, zoom in E. unfold mbind at 1, M_bind at 1 in E.
  destruct (LatestRefundForIntent id scope (w_ledger w)) as [ex l'] eqn:La.
  pose proof (read_only_latest _ _ _ _ _ La) as ->. cbn [fst snd] in E.
  replace (mkWorld (w_ledger w) (w_provider w) (w_events w)) with w in E by by destruct w.
  apply bind_inv in E as [(f & E & ->)|([] & ? & E0 & E)].
  { destruct ex as [[]|ex]; try discriminate E; try (by injection E as <- <-).
    by apply ensure_inv in E as [-> [[_ ?]|[_ [= ->]]]]. }
  assert (x = w) as ->.
  { destruct ex as [[]|ex]; try discriminate E0; try (by injection E0 as <-).
    by apply ensure_inv in E0 as [-> _]. }
  clear E0. apply bind_inv in E as [(f & E & ->)|(provider & ? & E0 & E)];
    [by apply from_option_inv in E as [-> [(? & _ & ?)|[_ [= ->]]]]|].
  apply from_option_inv in E0 as [-> [(? & Pr & Eq)|[_ ?]]]; [|done]. injection Eq as <-.
  injection E as <- <-. done.
Qed.

(** The provider's half, on a refund that is REQUESTED. *)
Lemma run_refund_run s c provider i refund reason actor w r w' row :
  well_formed (w_ledger w) →
  payment_refunds (w_ledger w) !! r_ID refund = Some row →
  run_refund s c provider i refund reason actor w = (r, w') →
  payment_intents (w_ledger w') = payment_intents (w_ledger w) ∧
  match r with
  | inr refund' => r_ID refund' = r_ID refund ∧ ∃ p' res,
      Provider_Refund provider (mkRefundRequest (r_ID refund) (i_ID i) (i_ProviderRef i)
        (mkMoney (i_AmountMinor i) (i_Currency i)) reason) (w_provider w) = (inr res, p') ∧
      r_Status refund' = rr_Status res ∧ r_FailureReason refund' = r_FailureReason refund ∧
      (rr_Status res = "COMPLETED" ∨ rr_Status res = "FAILED") ∧
      payment_refunds (w_ledger w') = <[r_ID refund :=
        set_refund_status (ctx_now c) (rr_Status res) (rr_ProviderRef res)
          (rr_FailureReason res) row]> (payment_refunds (w_ledger w)) ∧
      (publisher s ≠ None → ∃ e, w_events w' = w_events w ++ [("payments", e)] ∧
         EventType e = "refund.completed.v1" ∧ AggregateID e = uuid_string (r_ID refund))
  | inl f => ∃ refund', partial f = Some refund' ∧ r_ID refund' = r_ID refund ∧
      match cause f with
      | OfProvider e =>
          if is_unavailable e then w_ledger w' = w_ledger w ∧ w_events w' = w_events w
          else payment_refunds (w_ledger w') = <[r_ID refund :=
            set_refund_status (ctx_now c) "FAILED" "" (failureReasonFrom e) row]>
              (payment_refunds (w_ledger w))
      | OfStore _ | PublishFailed => True
      | _ => False
      end
  end.
Proof.
  intros W L E. unfold run_refund in E.
  destruct (wf_refund _ W _ _ L) as [Id _].
  apply bind_inv in E as [(f & E & ->)|(answer & w1 & E0 & E)];
    [by apply try_provider_inv in E as (? & ? & _ & _ & ?)|].
  apply try_provider_inv in E0 as (ans & p' & Rp & -> & Eq). injection Eq as ->.
  destruct ans as [err|res].
  - destruct (is_unavailable err) eqn:Ua.
    { injection E as <- <-. split; [done|]. eexists. split_and!; [done..|]. simpl. by rewrite Ua. }
    apply bind_inv in E as [(f & E & ->)|([] & w1 & E0 & E)].
    { apply on_store_inv in E as (? & l' & U & -> & [(e & -> & [= ->])|(? & _ & ?)]); [|done].
      apply UpdateRefundStatus_run in U as [[-> _]|[? _]]; [|done]. simpl. eauto. }
    apply on_store_inv in E0 as (? & l' & U & -> & [(? & _ & ?)|([] & -> & _)]); [done|].
    apply UpdateRefundStatus_run in U as [[_ [? ?]]|(_ & row' & L' & _ & _ & _ & ->)]; [done|].
    simpl in L', E. rewrite L in L'. injection L' as <-.
    apply bind_inv in E as [(f & E & ->)|(ok & w3 & R1 & E)];
      [by apply publish_inv in E as (_ & _ & ? & ? & _)|].
    apply publish_inv in R1 as (L3 & _); [|done]. injection E as <- <-. rewrite L3. simpl.
    split; [done|]. eexists. split_and!; [done..|]. rewrite Ua. by rewrite Id.
  - apply bind_inv in E as [(f & E & ->)|([] & w1 & E0 & E)].
    { apply on_store_inv in E as (? & l' & U & -> & [(e & -> & [= ->])|(? & _ & ?)]); [|done].
      apply UpdateRefundStatus_run in U as [[-> _]|[? _]]; [|done]. simpl. eauto. }
    apply on_store_inv in E0 as (? & l' & U & -> & [(? & _ & ?)|([] & -> & _)]); [done|].
    apply UpdateRefundStatus_run in U as [[_ [? ?]]|(_ & row' & L' & _ & _ & To & ->)]; [done|].
    simpl in L', E. rewrite L in L'. injection L' as <-.
    apply bind_inv in E as [(f & E & ->)|(ok & w3 & R1 & E)];
      [by apply publish_inv in E as (_ & _ & ? & ? & _)|].
    apply publish_inv in R1 as (L3 & _ & ok' & Eq & Ev); [|done]. injection Eq as ->.
    simpl in L3, Ev.
    apply bind_inv in E as [(f & E & ->)|([] & ? & E0 & E)].
    { apply ensure_inv in E as [-> [[_ ?]|[_ [= ->]]]]; [done|]. rewrite L3. simpl. eauto. }
    apply ensure_inv in E0 as [-> [[Ok _]|[_ ?]]]; [|done]. injection E as <- <-.
    rewrite L3. simpl. split; [done|]. split; [done|]. exists p', res.
    split_and!; [done..|by rewrite Id|].
    intros Np. destruct Ev as [[_ X]|[_ (e & X & Ty & Ag & _)]]; [by destruct Np; apply X|].
    by exists e.
Qed.

(** A new refund row. *)
Lemma InsertRefund_ok now fresh x l x' l' :
  InsertRefund now fresh x l = (inr x', l') →
  r_ID x' = assign_id (r_ID x) fresh ∧ r_FailureReason x' = r_FailureReason x ∧
  payment_refunds l !! r_ID x' = None ∧
  l' = with_refunds (insert (r_ID x') (refund_values now (r_ID x') x)) l.
Proof.
  unfold InsertRefund. intros R.
  apply bind_inv in R as [(? & _ & ?)|([] & l1 & I & R)]; [done|]. injection R as <- <-.
  apply insert_refund_run in I as [[_ [? ?]]|(_ & -> & N & _)]; done.
Qed.

Lemma InsertRefund_failed now fresh x l e l' :
  InsertRefund now fresh x l = (inl e, l') → l' = l.
Proof.
  unfold InsertRefund. intros R.
  apply bind_inv in R as [(? & I & _)|([] & l1 & I & R)]; [|done].
  by apply insert_refund_run in I as [[-> _]|(? & _)].
Qed.

(** The row and the struct of a new refund. *)
Definition new_refund (i : PaymentIntent) (reason : string) (actorID : uuid) : Refund :=
  mkRefund uuid_nil (i_ID i) (i_AmountMinor i) (i_Currency i) RefundRequested (i_Provider i)
    "" reason "" (if bool_decide (actorID = uuid_nil) then None else Some actorID) 0 0.

(** A refund either stops before it wrote anything or reaches the provider with a
    REQUESTED row of the full amount. *)
Lemma RefundPayment_run s c id reason actor scope w r w' :
  ledger_ok (w_ledger w) → RefundPayment s c id reason actor scope w = (r, w') →
  (w' = w ∧ ∃ f, r = inl f ∧ ∀ e, cause f ≠ OfProvider e) ∨
  ∃ i provider x,
    let row := refund_values (ctx_now c) (r_ID x) (new_refund i reason actor) in
    let l1 := with_refunds (insert (r_ID x) row) (w_ledger w) in
    GetIntent id scope (w_ledger w) = (inr i, w_ledger w) ∧
    i_ID i = id ∧ holds i (w_ledger w) ∧ i_Status i = "SUCCEEDED" ∧
    payment_refunds (w_ledger w) !! r_ID x = None ∧ r_FailureReason x = "" ∧ well_formed l1 ∧
    run_refund s c provider i x reason actor (mkWorld l1 (w_provider w) (w_events w)) = (r, w').
Proof.
  intros [W C] E. rewrite RefundPayment_halves in E.
  apply bind_inv in E as [(f & E & ->)|([i provider] & w1 & E0 & E)].
  { apply refund_checks_run in E as [-> [_ No]]; [|done]. left. eauto. }
  apply refund_checks_run in E0 as [-> (G & Id & Ho & Su & Pr)]; [|done].
  unfold refund_commit in E. change (mkRefund _ _ _ _ _ _ _ _ _ _ _ _) with
    (new_refund i reason actor) in E.
  apply bind_inv in E as [(f & E & ->)|(x & w1 & E0 & E)].
  { apply on_store_inv in E as (? & l' & I & -> & [(e & -> & Eq)|(? & _ & ?)]); [|done].
    injection Eq as ->. apply InsertRefund_failed in I as ->. left. destruct w. simpl. eauto. }
  apply on_store_inv in E0 as (? & l' & I & -> & [(? & _ & ?)|(? & -> & Eq)]); [done|].
  injection Eq as <-.
  assert (ledger_ok l') as [W' _].
  { eapply payment_step_ok; [split; [exact W|exact C]|].
    eapply step_refund_requested; [|exact I].
    destruct Ho as (row & L & A & Cu & Sr). simpl. rewrite L. intros ? [= <-].
    change "SUCCEEDED" with IntentSucceeded in Su. split_and!; congruence. }
  apply InsertRefund_ok in I as (_ & Fr & N & ->).
  right. exists i, provider, x. done.
Qed.

(** The rows a refund can leave behind. *)
Definition refund_recorded (l : ledger) (i : PaymentIntent) (refund : Refund) (row : refund_row)
    : Prop :=
  payment_refunds l !! r_ID refund = Some row ∧ r_IntentID row = i_ID i ∧
  r_AmountMinor row = i_AmountMinor i ∧ r_Currency row = i_Currency i.

(** C11. What a refund leaves behind on every branch. Granted: a full refund of a
    SUCCEEDED intent, under a new identifier, in the status the provider answered.
    Refused by the provider: the row is FAILED with the provider's reason.
    Provider unavailable: the row stays REQUESTED and nothing is announced.
    Refused by a guard: nothing happened. *)
Theorem refund_outcomes s c id reason actor scope w r w' (R : reachable (w_ledger w))
    (E : RefundPayment s c id reason actor scope w = (r, w')) :
  payment_intents (w_ledger w') = payment_intents (w_ledger w) ∧
  match r with
  | inr refund => ∃ i row, i_ID i = id ∧ holds i (w_ledger w) ∧ i_Status i = "SUCCEEDED" ∧
      payment_refunds (w_ledger w) !! r_ID refund = None ∧
      refund_recorded (w_ledger w') i refund row ∧
      r_Status row = r_Status refund ∧ (r_Status row = "COMPLETED" ∨ r_Status row = "FAILED")
  | inl f =>
      match cause f with
      | ErrNotRefundable | ErrAlreadyRefunded | ErrInvalidInput => w' = w
      | OfProvider e => ∃ i refund row, partial f = Some refund ∧
          refund_recorded (w_ledger w') i refund row ∧ i_ID i = id ∧
          if is_unavailable e
          then r_Status row = "REQUESTED" ∧ w_events w' = w_events w
          else r_Status row = "FAILED" ∧
               r_FailureReason row = nullif_empty (failureReasonFrom e)
      | _ => True
      end
  end.
Proof.
  apply reachable_ok in R as Ok.
  apply RefundPayment_run in E as [[-> (f & -> & No)]|(i & provider & x & _ & Id & Ho & Su & N & _ & W' & E)];
    [split; [done|]; destruct (cause f); try done; by destruct (No e)| |done].
  eapply run_refund_run in E as [Ei E]; [|exact W'|simpl; apply lookup_insert_eq].
  cbn [w_ledger w_events w_provider payment_intents payment_refunds with_refunds] in *.
  split; [exact Ei|]. destruct r as [f|refund'].
  - destruct E as (refund' & Pf & Er & E). destruct (cause f); try done.
    exists i, refund'. destruct (is_unavailable e) eqn:Ua.
    + destruct E as [E Ev]. eexists. split; [done|]. split.
      { unfold refund_recorded. rewrite E, Er. simpl. rewrite lookup_insert_eq. done. }
      done.
    + eexists. split; [done|]. split.
      { unfold refund_recorded. rewrite E, Er, lookup_insert_eq. done. }
      split; [done|]. split; [done|]. simpl. unfold coalesce. by destruct (nullif_empty _).
  - destruct E as (Er & p' & res & _ & St & _ & To & E & _). exists i. eexists.
    do 3 (split; [done|]). split; [by rewrite Er|]. split.
    { unfold refund_recorded. rewrite E, Er, lookup_insert_eq. done. }
    by rewrite St.
Qed.

(** ** Repeated requests *)

Lemma LatestRefundForIntent_newest l scope row rf :
  well_formed l → personal scope = false → payment_refunds l !! r_ID row = Some row →
  sees_through scope l (r_IntentID row) = true →
  (∀ k r, payment_refunds l !! k = Some r → r_IntentID r = r_IntentID row → k ≠ r_ID row →
     r_CreatedAt r < r_CreatedAt row) →
  scanRefund row = Some rf →
  LatestRefundForIntent (r_IntentID row) scope l = (inr rf, l).
Proof.
  intros W NP L Vi Newest Sc. unfold LatestRefundForIntent. set (id := r_IntentID row) in *.
  assert (fits (CEq "r.intent_id" 1) [VUuid id]) as F1.
  { intros k. simpl. rewrite list_elem_of_singleton. lia. }
  pose proof (scopePredicate_fits scope "i.tenant_id" "i.created_by" "i.customer_id"
                [VUuid id] _ NP F1) as F.
  destruct (wf_refund _ W _ _ L) as (_ & _ & i & Li & _).
  pose proof (join_clause scope l (VUuid id) id (refund_env row) "r.intent_id") as C.
  unfold joinScopePredicate in *. simpl in F.
  destruct (scopePredicate _ _ _ _ 2) as [pred args]. destruct F as [_ F].
  unfold mbind at 1, M_bind at 1. rewrite send_fits by done. unfold_run_goal.
  set (rows := List.filter _ _).
  assert (row ∈ rows) as I.
  { unfold rows. rewrite list_elem_of_In, filter_In, <-list_elem_of_In. split.
    - apply list_elem_of_fmap. exists (r_ID row, row). split; [done|by apply elem_of_map_to_list].
    - change (r_IntentID row) with id. rewrite C; [done|by eexists|done|done]. }
  assert (∀ r, r ∈ rows → r = row ∨ r_CreatedAt r < r_CreatedAt row) as Old.
  { intros r Ir. unfold rows in Ir. rewrite list_elem_of_In, filter_In, <-list_elem_of_In in Ir.
    destruct Ir as [Ir Ev]. apply list_elem_of_fmap in Ir as ([k r'] & -> & Ir). simpl in *.
    apply elem_of_map_to_list in Ir. destruct (wf_refund _ W _ _ Ir) as (Idr & _).
    destruct (decide (k = r_ID row)) as [->|Ne]; [left; congruence|right].
    eapply Newest; [exact Ir| |done].
    destruct pred as [q|]; cbn [fmap option_fmap option_map and_pred eval] in Ev; props;
      match goal with X : sql_eq (refund_env r' _) _ = true |- _ => apply bool_decide_eq_true in X;
        by injection X end. }
  pose proof (StronglySorted_merge_sort (newest_first r_CreatedAt r_ID) rows) as So.
  pose proof (merge_sort_Permutation (newest_first r_CreatedAt r_ID) rows) as Pm.
  destruct (merge_sort _ rows) as [|h t] eqn:E.
  { rewrite <-Pm in I. by apply elem_of_nil in I. }
  assert (h = row) as ->.
  { assert (h ∈ rows) as Ih by (rewrite <-Pm; by left).
    destruct (Old _ Ih) as [?|Lt]; [done|]. rewrite <-Pm in I.
    apply elem_of_cons in I as [?|I]; [done|].
    apply StronglySorted_inv in So as [_ Fa].
    rewrite list.Forall_forall in Fa. destruct (Fa _ I) as [?|[? _]]; lia. }
  simpl. by rewrite Sc.
Qed.

Lemma scanRefund_total row : is_Some null_text → is_Some (scanRefund row).
Proof.
  intros [d Nt]. unfold scanRefund, scan_text. rewrite Nt.
  destruct (r_ProviderRef row), (r_FailureReason row); simpl; eauto.
Qed.

Lemma refund_checks_refused s id reason scope w i rf :
  GetIntent id scope (w_ledger w) = (inr i, w_ledger w) → i_Status i = "SUCCEEDED" →
  (blen reason ≤ 500)%nat →
  LatestRefundForIntent id scope (w_ledger w) = (inr rf, w_ledger w) → r_Status rf ≠ "FAILED" →
  refund_checks s id reason scope w = (inl (fail ErrAlreadyRefunded), w).
Proof.
  intros G Su Sh La Nf. unfold refund_checks.
  unfold mbind, M_bind. unfold on_store, wrap, zoom. rewrite G. rewrite Su.
  change ("SUCCEEDED" =? IntentSucceeded)%string with true. cbn [ensure mret M_ret].
  assert ((MaxRefundReasonLength <? blen reason)%nat = false) as ->.
  { apply Nat.ltb_ge. unfold MaxRefundReasonLength. exact Sh. }
  cbn [negb ensure mret M_ret]. unfold try_store, try, zoom. cbn [w_ledger w_provider w_events].
  rewrite La. cbn [w_ledger w_provider w_events].
  destruct (String.eqb_spec (r_Status rf) RefundFailed) as [?|]; [done|].
  cbn [ensure throw]. by destruct w.
Qed.

(** A payment is refunded once, when the requests follow each other: after a
    refund that completed, every later request of a principal with the same scope
    is refused as already refunded and changes nothing, whoever makes it, provided
    the refunds recorded before the first one are older (the guard reads the
    newest). *)
Theorem refund_repeat_refused s (Nt : is_Some null_text) c id reason actor scope w refund w'
    (R : reachable (w_ledger w)) (NP : personal scope = false)
    (Clock : ∀ k r, payment_refunds (w_ledger w) !! k = Some r → r_IntentID r = id →
       r_CreatedAt r < ctx_now c)
    (First : RefundPayment s c id reason actor scope w = (inr refund, w'))
    (Completed : r_Status refund = "COMPLETED")
    c' reason' actor' (Short : (blen reason' ≤ 500)%nat) :
  RefundPayment s c' id reason' actor' scope w' = (inl (fail ErrAlreadyRefunded), w').
Proof.
  apply reachable_ok in R as Ok.
  assert (well_formed (w_ledger w')) as W'.
  { destruct (RefundPayment_spec s c id reason actor scope w _ w' Ok First) as [St _].
    by destruct (payment_steps_ok _ _ Ok St). }
  apply RefundPayment_run in First
    as [[_ (? & ? & _)]|(i & provider & x & G & Id & _ & Su & N & _ & W1 & E)]; [done| |done].
  set (row := refund_values _ _ _) in *.
  eapply run_refund_run in E as [Ei E]; [|exact W1|simpl; apply lookup_insert_eq].
  destruct E as (Er & p' & res & _ & St & _ & _ & E & _).
  cbn [w_ledger w_events w_provider payment_intents payment_refunds with_refunds] in *.
  set (row' := set_refund_status _ _ _ _ row) in E.
  assert (sees_through scope (w_ledger w') id = true ∧
          GetIntent id scope (w_ledger w') = (inr i, w_ledger w')) as [Vi G'].
  { rewrite !GetIntent_read in * by (done || apply Ok).
    unfold sees_through, visible_intent in *. rewrite Ei. injection G as G. rewrite G.
    split; [|done]. by destruct (payment_intents _ !! id ≫= _). }
  destruct (scanRefund_total row' Nt) as (rf & Sc).
  pose proof (scanRefund_fields _ _ Sc) as (_ & _ & _ & _ & Srf & _).
  rewrite RefundPayment_halves. unfold mbind, M_bind.
  rewrite (refund_checks_refused s id reason' scope w' i rf); try done.
  - rewrite <-Id in Vi |- *. change (i_ID i) with (r_IntentID row') in Vi |- *.
    apply (LatestRefundForIntent_newest _ _ row'); try done.
    + rewrite E. apply lookup_insert_eq.
    + intros k r L I Ne. rewrite E, !lookup_insert_ne in L by (intros <-; by apply Ne).
      eapply Clock; [exact L|]. by rewrite I.
  - rewrite Srf. simpl. rewrite <-St, Completed. done.
Qed.

(** A refund the provider answered FAILED, without an error, is announced as
    completed: the published event is refund.completed.v1 and the refund the
    caller gets carries no failure reason. *)
Theorem failed_refund_announced s c id reason actor scope w refund w'
    (R : reachable (w_ledger w)) (Pb : publisher s ≠ None)
    (E : RefundPayment s c id reason actor scope w = (inr refund, w'))
    (Failed : r_Status refund = "FAILED") :
  r_FailureReason refund = "" ∧
  ∃ e, w_events w' = w_events w ++ [("payments", e)] ∧ EventType e = "refund.completed.v1" ∧
    AggregateID e = uuid_string (r_ID refund).
Proof.
  apply reachable_ok in R as Ok.
  apply RefundPayment_run in E
    as [[_ (? & ? & _)]|(i & provider & x & _ & _ & _ & _ & _ & Fr & W1 & E)]; [done| |done].
  eapply run_refund_run in E as [_ E]; [|exact W1|simpl; apply lookup_insert_eq].
  destruct E as (Er & p' & res & _ & _ & Fr' & _ & _ & Ev).
  destruct (Ev Pb) as (e & Ev' & Ty & Ag). split; [congruence|]. exists e. by rewrite Er.
Qed.

End Refunds.

(** ** Instances *)

Lemma refund_outcomes_witness :
  payment_intents (w_ledger refunded_world) = payment_intents (w_ledger paid_world) ∧
  ∃ i row, i_ID i = 10%N ∧ holds i (w_ledger paid_world) ∧ i_Status i = "SUCCEEDED" ∧
    payment_refunds (w_ledger paid_world) !! 30%N = None ∧
    refund_recorded (w_ledger refunded_world) i the_refund row ∧
    r_Status row = r_Status the_refund ∧ (r_Status row = "COMPLETED" ∨ r_Status row = "FAILED").
Proof.
  exact (refund_outcomes demo_service (at_ 400 30) 10%N "duplicate" 9%N a_scope paid_world
    (inr the_refund) refunded_world paid_world_reachable refunding_run).
Defined.

Lemma no_refund_yet : payment_refunds (w_ledger paid_world) = ∅.
Proof. vm_compute. reflexivity. Qed.

Lemma refund_repeat_refused_witness :
  RefundPayment demo_service (at_ 500 40) 10%N "again" 8%N a_scope refunded_world =
  (inl (fail ErrAlreadyRefunded), refunded_world).
Proof.
  apply (refund_repeat_refused demo_service demo_null (at_ 400 30) 10%N "duplicate" 9%N a_scope
    paid_world the_refund refunded_world paid_world_reachable); [done| |apply refunding_run|done|].
  - intros k r. rewrite no_refund_yet, lookup_empty. done.
  - simpl. lia.
Defined.

(** A provider that declines refunds without an error. *)
Definition declining : Provider sandbox_state :=
  mkProvider (Name sandbox) (Initiate sandbox) (Query sandbox)
    (λ _, mret (mkRefundResult RefundFailed "" "declined")) (WebhookEvent sandbox).
Definition declining_service : Service sandbox_state :=
  NewService {["sandbox" := declining]} (Some (λ _, true)).

Definition declined :=
  RefundPayment declining_service (at_ 400 30) 10%N "duplicate" 9%N a_scope paid_world.
Definition declined_refund : Refund :=
  mkRefund 30%N 10%N 1500 "KES" "FAILED" "sandbox" "" "duplicate" ""
    (Some 9%N) (400 * second) (400 * second).

Lemma declined_run :
  RefundPayment declining_service (at_ 400 30) 10%N "duplicate" 9%N a_scope paid_world =
  (inr declined_refund, declined.2).
Proof. vm_compute. reflexivity. Qed.

Lemma failed_refund_announced_witness :
  r_FailureReason declined_refund = "" ∧
  ∃ e, w_events declined.2 = w_events paid_world ++ [("payments", e)] ∧
    EventType e = "refund.completed.v1" ∧ AggregateID e = "u30".
Proof.
  exact (failed_refund_announced declining_service (at_ 400 30) 10%N "duplicate" 9%N a_scope
    paid_world declined_refund declined.2 paid_world_reachable ltac:(done) declined_run eq_refl).
Defined.

(** ** Overlapping requests *)

(** What the completed refunds of an intent add up to. *)
Definition refunded_total (l : ledger) (intentID : uuid) : Z :=
  map_fold (λ _ r total,
    if bool_decide (r_IntentID r = intentID) && String.eqb (r_Status r) RefundCompleted
    then r_AmountMinor r + total else total) 0 (payment_refunds l).

Lemma refund_commit_spec `{Driver} `{UuidText} {P} (s : Service P) c reason actor i provider :
  i_Status i = IntentSucceeded →
  spec (λ l, holds i l) (refund_commit s c reason actor (i, provider)) (λ _ _, True).
Proof.
  intros Si. unfold refund_commit.
  eapply (spec_bind _ _ (λ _ _, True)); [|intros; apply run_refund_spec].
  apply spec_on_store. intros l r l' (row & L & A & C & Sr) R.
  split; [|done]. apply one_step. eapply step_refund_requested; [|exact R].
  simpl. rewrite L. intros ? [= <-]. split_and!; congruence.
Qed.

(** The intent both requests read. *)
Definition paid_intent : PaymentIntent :=
  mkIntent 10%N (Some 7%N) (Some 8%N) 9%N 1500 "KES" "SUCCEEDED" "sandbox" "" None None ""
    "" (Some (201 * second)) None None (100 * second) (201 * second).

Definition first_refund :=
  refund_commit demo_service (at_ 400 30) "duplicate" 9%N (paid_intent, sandbox) paid_world.
Definition second_refund :=
  refund_commit demo_service (at_ 401 40) "duplicate" 9%N (paid_intent, sandbox) first_refund.2.

Lemma both_pass_the_guards :
  refund_checks demo_service 10%N "duplicate" a_scope paid_world =
  (inr (paid_intent, sandbox), paid_world).
Proof.
  assert (on_store (GetIntent 10%N a_scope) (λ e, fail (OfStore e)) paid_world =
          (inr (A:=Failure Refund) paid_intent, paid_world)) as G by (vm_compute; reflexivity).
  assert (try_store (LatestRefundForIntent 10%N a_scope) paid_world =
          (inr (A:=Failure Refund) (inl ErrRefundNotFound), paid_world)) as La
    by (vm_compute; reflexivity).
  assert (Service_Provider demo_service "sandbox" = Some sandbox) as Pr
    by apply lookup_singleton_eq.
  unfold refund_checks, mbind, M_bind. rewrite G.
  change (String.eqb (i_Status paid_intent) IntentSucceeded) with true.
  change (negb (MaxRefundReasonLength <? blen "duplicate")%nat) with true.
  cbn [ensure mret M_ret]. rewrite La. cbn [mret M_ret].
  change (i_Provider paid_intent) with "sandbox". by rewrite Pr.
Qed.

Definition repeated_refund (id : uuid) (ref : string) (now : time) : Refund :=
  mkRefund id 10%N 1500 "KES" "COMPLETED" "sandbox" ref "duplicate" "" (Some 9%N) now now.

Lemma first_refund_run :
  refund_commit demo_service (at_ 400 30) "duplicate" 9%N (paid_intent, sandbox) paid_world =
  (inr (repeated_refund 30%N "SBXRF-u30" (400 * second)), first_refund.2).
Proof. vm_compute. reflexivity. Qed.

Lemma second_refund_run :
  refund_commit demo_service (at_ 401 40) "duplicate" 9%N (paid_intent, sandbox) first_refund.2 =
  (inr (repeated_refund 40%N "SBXRF-u40" (401 * second)), second_refund.2).
Proof. vm_compute. reflexivity. Qed.

Lemma paid_intent_holds :
  holds paid_intent (w_ledger paid_world) ∧ holds paid_intent (w_ledger first_refund.2).
Proof. split; (eexists; split; [vm_compute; reflexivity|done]). Qed.

Lemma second_refund_reachable : reachable (w_ledger second_refund.2).
Proof.
  unfold second_refund.
  eapply call_reachable; [by apply refund_commit_spec|intros _; apply paid_intent_holds|].
  unfold first_refund.
  eapply call_reachable; [by apply refund_commit_spec|intros _; apply paid_intent_holds|].
  apply paid_world_reachable.
Qed.

(** Two requests that overlap refund the same payment twice: both pass the
    guards before either writes, the second row is recorded once the first refund
    is no longer in flight, and the completed refunds of a payment of KES 15.00
    add up to KES 30.00, in a reachable ledger. *)
Theorem overlapping_refunds_pay_twice :
  ∃ checked w1 r1 w2 r2,
    refund_checks demo_service 10%N "duplicate" a_scope paid_world = (inr checked, paid_world) ∧
    refund_commit demo_service (at_ 400 30) "duplicate" 9%N checked paid_world = (inr r1, w1) ∧
    refund_commit demo_service (at_ 401 40) "duplicate" 9%N checked w1 = (inr r2, w2) ∧
    i_AmountMinor checked.1 = 1500 ∧ refunded_total (w_ledger w2) (i_ID checked.1) = 3000 ∧
    reachable (w_ledger w2).
Proof.
  exists (paid_intent, sandbox), first_refund.2, (repeated_refund 30%N "SBXRF-u30" (400 * second)),
    second_refund.2, (repeated_refund 40%N "SBXRF-u40" (401 * second)).
  split; [apply both_pass_the_guards|]. split; [apply first_refund_run|].
  split; [apply second_refund_run|]. split; [done|].
  split; [vm_compute; reflexivity|apply second_refund_reachable].
Qed.
