(* ===== verification/Reconcile.v ===== *)
(** * Reconcile: the provider-query fallback ([backend/payments/reconcile.go])

    A run asks the provider about every stale PENDING transaction and settles the
    ones it answers for, through the same store call as the webhooks. The query
    that finds the workload is an interface, [StaleStore]: the Postgres query is
    one instance, the query with its columns qualified another. *)

From S2P Require Import Prelude Text Platform Sql Money PayMachine PayModels PayStore PayLedger.
From S2P Require Import PayInvariant PayReads Webhook Providers PayService PayRefine.

Open Scope Z_scope.

(** ** The workload *)

(** What a listing may contain: PENDING transactions as they are recorded. *)
Definition stale_in (l : ledger) (si : StaleIntent) : Prop :=
  ∃ row, payment_transactions l !! t_ID (si_Transaction si) = Some row ∧
    t_Status row = TxPending ∧ t_IntentID row = i_ID (si_Intent si).

Class StaleStore := {
  list_stale : time → Z → M ledger StoreError (list StaleIntent);
  list_stale_reads : ∀ olderThan limit l r l', well_formed l →
    list_stale olderThan limit l = (r, l') →
    l' = l ∧ ∀ stale, r = inr stale → Forall (stale_in l) stale;
}.

(** The query of the Postgres store. *)
#[local] Instance postgres_store `{Driver} : StaleStore.
Proof.
  refine {| list_stale := ListStaleIntents |}.
  intros olderThan limit l r l' _ E. rewrite stale_query_refused in E. by injection E as <- <-.
Defined.

(** The same query, its columns qualified. *)
Definition qualified_listing `{Driver} (olderThan : time) (limit : Z)
    : M ledger StoreError (list StaleIntent) :=
  let limit := if limit <=? 0 then defaultListLimit else limit in
  l ← get;
  from_option (mapM scan_stale (stale_rows olderThan limit l)) ErrDB.

Lemma stale_rows_in `{Driver} olderThan limit l i t :
  (i, t) ∈ stale_rows olderThan limit l →
  payment_intents l !! t_IntentID t = Some i ∧ t_Status t = TxPending ∧
  ∃ id, payment_transactions l !! id = Some t.
Proof.
  unfold stale_rows. intros I%page_subseteq. rewrite merge_sort_Permutation in I.
  apply list_elem_of_omap in I as (t' & I & E).
  rewrite list_elem_of_In, filter_In, <-list_elem_of_In in I. destruct I as [I D].
  apply list_elem_of_fmap in I as ([id t2] & -> & I). apply elem_of_map_to_list in I.
  simpl in *. destruct (payment_intents l !! t_IntentID t2) as [i'|] eqn:L; [|done].
  simpl in E. destruct (String.eqb _ _); [|done]. injection E as -> ->.
  props. split_and!; eauto.
Qed.

#[local] Instance qualified_store `{Driver} : StaleStore.
Proof.
  refine {| list_stale := qualified_listing |}.
  intros olderThan limit l r l' W E. unfold qualified_listing in E.
  apply bind_inv in E as [(f & E & _)|(x & l1 & G & E)]; [by injection E|].
  injection G as <- <-. apply from_option_inv in E as [-> E]. split; [done|].
  intros stale ->. destruct E as [(a & E & [= <-])|[_ ?]]; [|done].
  apply mapM_Some in E. apply list.Forall_forall. intros si I.
  apply list_elem_of_lookup in I as [k I].
  destruct (Forall2_lookup_r _ _ _ _ _ E I) as ([i t] & K & S).
  apply list_elem_of_lookup_2, stale_rows_in in K as (Li & P & id & Lt).
  destruct (wf_transaction _ W _ _ Lt) as [Idt _], (wf_intent _ W _ _ Li) as [Idi _].
  unfold scan_stale in S. simpl in S.
  destruct (scanIntent i) as [i'|] eqn:Si; [|done]. destruct (scanTransaction t) as [t'|] eqn:St; [|done].
  injection S as <-. apply scanIntent_fields in Si as (Ei & _).
  apply scanTransaction_fields in St as (Et & _).
  exists t. simpl. split_and!; [congruence|done|congruence].
Defined.

(** ** The job *)

Definition DefaultStaleAfter : Z := 2 * minute.
Definition DefaultReconcileBatch : Z := 100.

Record ReconcileResult := mkReconcileResult {
  Scanned : Z;
  Repaired : Z;
  StillPending : Z;
  Errors : Z;
}.

Record Reconciler (P : Type) := mkReconciler {
  rc_providers : gmap string (Provider P);
  rc_publisher : option (PaymentEvent → bool);
  StaleAfter : Z;
  BatchLimit : Z;
}.
Arguments mkReconciler {P}. Arguments rc_providers {P}. Arguments rc_publisher {P}.
Arguments StaleAfter {P}. Arguments BatchLimit {P}.

Definition NewReconciler {P} (providers : gmap string (Provider P))
    (publisher : option (PaymentEvent → bool)) (staleAfter : Z) : Reconciler P :=
  mkReconciler providers publisher
    (if staleAfter <=? 0 then DefaultStaleAfter else staleAfter) DefaultReconcileBatch.

Definition providerFor {P} (r : Reconciler P) (name : string) : option (Provider P) :=
  rc_providers r !! name.

Definition count_error (r : ReconcileResult) : ReconcileResult :=
  mkReconcileResult (Scanned r) (Repaired r) (StillPending r) (Errors r + 1).
Definition count_pending (r : ReconcileResult) : ReconcileResult :=
  mkReconcileResult (Scanned r) (Repaired r) (StillPending r + 1) (Errors r).
Definition count_repaired (r : ReconcileResult) : ReconcileResult :=
  mkReconcileResult (Scanned r) (Repaired r + 1) (StillPending r) (Errors r).

Section Run.
Context `{Driver} `{UuidText} `{StaleStore} {P : Type}.

(** The event of a repair; its failures are only counted by the metrics. *)
Definition publish_repair {E} (r : Reconciler P) (now : time) (fresh : uuid)
    (eventType : string) (si : StaleIntent) (query : QueryResult) : M (world P) E unit :=
  match rc_publisher r with
  | None => mret tt
  | Some broker =>
      let t := si_Transaction si in
      match NewEvent now fresh eventType (uuid_string (t_ID t))
              (tenantString (i_TenantID (si_Intent si))) "" ""
              (TransactionSettledPayload (i_ID (si_Intent si)) (t_ID t) (t_Provider t)
                 (t_ProviderRef t) (qr_ProviderTransactionRef query) (t_AmountMinor t)
                 (t_Currency t) "reconciliation" (qr_FailureReason query)) with
      | Some e => if broker e
                  then modify (λ w, mkWorld (w_ledger w) (w_provider w)
                                      (w_events w ++ [(EventDomain, e)]))
                  else mret tt
      | None => mret tt
      end
  end.

(** One turn of the loop. *)
Definition reconcile_one {E} (r : Reconciler P) (now : time) (fresh : uuid)
    (result : ReconcileResult) (si : StaleIntent) : M (world P) E ReconcileResult :=
  match providerFor r (t_Provider (si_Transaction si)) with
  | None => mret (count_error result)
  | Some provider =>
      answer ← try_provider (Query provider (t_ProviderRef (si_Transaction si)));
      match answer with
      | inl _ => mret (count_error result)
      | inr query =>
          if String.eqb (qr_Status query) TxPending then mret (count_pending result)
          else
            let failed := String.eqb (qr_Status query) TxFailed in
            let newIntentStatus := if failed then IntentFailed else IntentSucceeded in
            let eventType :=
              if failed then EventTransactionFailedV1 else EventTransactionSucceededV1 in
            applied ← try_store (ApplyTransactionOutcome now
              (mkApplyOutcomeParams (t_ID (si_Transaction si)) (qr_Status query)
                 newIntentStatus (qr_ProviderTransactionRef query) (qr_FailureReason query)
                 (qr_OccurredAt query) "reconciliation"));
            match applied with
            | inl _ => mret (count_error result)
            | inr true =>
                publish_repair r now fresh eventType si query;; mret (count_repaired result)
            | inr false => mret result
            end
      end
  end.

(** The loop over the workload; [k] numbers the identifiers the turns draw. *)
Fixpoint reconcile_all {E} (r : Reconciler P) (c : Ctx) (k : nat) (result : ReconcileResult)
    (stale : list StaleIntent) : M (world P) E ReconcileResult :=
  match stale with
  | [] => mret result
  | si :: stale =>
      result ← reconcile_one r (ctx_now c) (ctx_fresh c k) result si;
      reconcile_all r c (S k) result stale
  end.

Definition Run (r : Reconciler P) (c : Ctx) : M (world P) StoreError ReconcileResult :=
  let cutoff := ctx_now c - StaleAfter r in
  let limit := if BatchLimit r <=? 0 then DefaultReconcileBatch else BatchLimit r in
  stale ← zoom w_ledger (λ l w, mkWorld l (w_provider w) (w_events w)) (list_stale cutoff limit);
  reconcile_all r c 0 (mkReconcileResult (Z.of_nat (length stale)) 0 0 0) stale.

End Run.

#[global] Arguments reconcile_one : simpl never.
#[global] Arguments publish_repair : simpl never.

(** ** What a run does *)

(** The number of PENDING transactions. *)
Definition pending (l : ledger) : nat :=
  size (filter (λ kt, t_Status kt.2 = TxPending) (payment_transactions l)).

Lemma pending_same l l' :
  payment_transactions l' = payment_transactions l → pending l' = pending l.
Proof. unfold pending. by intros ->. Qed.

Lemma pending_settled l l' row new :
  payment_transactions l' = <[t_ID row := new]> (payment_transactions l) →
  payment_transactions l !! t_ID row = Some row → t_Status row = TxPending →
  t_Status new ≠ TxPending → pending l = S (pending l').
Proof.
  unfold pending. intros -> L P N. rewrite map_filter_insert_False by done.
  rewrite map_filter_delete. rewrite map_size_delete_Some.
  - destruct (size _) eqn:E; [|lia].
    apply map_size_empty_inv in E.
    assert (filter (λ kt, t_Status kt.2 = TxPending) (payment_transactions l) !! t_ID row = Some row) as F
      by by apply map_lookup_filter_Some.
    rewrite E in F. done.
  - exists row. by apply map_lookup_filter_Some.
Qed.

(** The transaction reached a terminal status. *)
Definition settled_in (l : ledger) (id : uuid) : Prop :=
  ∃ row, payment_transactions l !! id = Some row ∧
    (t_Status row = "SUCCEEDED" ∨ t_Status row = "FAILED").

Section Props.
Context `{Driver} `{UuidText} {P : Type}.
Implicit Types (r : Reconciler P) (w : world P).

Lemma publish_repair_run {E} r now fresh ty si q w x w' :
  ty ≠ "" → publish_repair (E:=E) r now fresh ty si q w = (x, w') →
  x = inr tt ∧ w_ledger w' = w_ledger w ∧
  (w_events w' = w_events w ∧ (∀ broker, rc_publisher r = Some broker → ∃ e, broker e = false) ∨
   ∃ e, w_events w' = w_events w ++ [(EventDomain, e)] ∧ EventType e = ty ∧
     AggregateID e = uuid_string (t_ID (si_Transaction si))).
Proof.
  intros N. unfold publish_repair. destruct (rc_publisher r) as [broker|].
  2:{ intros [= <- <-]. split_and!; [done..|]. by left. }
  rewrite NewEvent_uuid by done. destruct (broker _) eqn:B; intros [= <- <-].
  - split_and!; [done..|]. right. by eexists.
  - split_and!; [done..|]. left. split; [done|]. intros ? [= <-]. by eexists.
Qed.

(** One turn never stops the run; it counts an error, a pending answer or a repair,
    and settles its transaction unless it counted one of the first two. *)
Lemma reconcile_one_run {E} r now fresh result si w x w'
    (PC : ∀ name p, rc_providers r !! name = Some p → ProviderContract p) :
  ledger_ok (w_ledger w) →
  reconcile_one (E:=E) r now fresh result si w = (x, w') →
  payment_steps (w_ledger w) (w_ledger w') ∧
  (w_ledger w' = w_ledger w ∧ w_events w' = w_events w ∧
     (x = inr (count_error result) ∨ x = inr (count_pending result) ∨
      x = inr result ∧ settled_in (w_ledger w') (t_ID (si_Transaction si))) ∨
   x = inr (count_repaired result) ∧ pending (w_ledger w) = S (pending (w_ledger w')) ∧
     settled_in (w_ledger w') (t_ID (si_Transaction si)) ∧
     ((∃ broker e, rc_publisher r = Some broker ∧ broker e = false) ∨ rc_publisher r = None ∨
      length (w_events w') = S (length (w_events w))) ∧
     (length (w_events w') ≤ S (length (w_events w)))%nat).
Proof.
  intros Ok R. unfold reconcile_one in R.
  destruct (providerFor r _) as [provider|] eqn:Pr.
  2:{ injection R as <- <-. split; [apply rtc_refl|]. left. auto. }
  apply bind_inv in R as [(e & R & _)|(answer & w1 & R0 & R)];
    [by apply try_provider_inv in R as (? & ? & _ & _ & ?)|].
  apply try_provider_inv in R0 as (ans & p' & Q & -> & Eq). injection Eq as ->.
  destruct ans as [err|q]; [injection R as <- <-; split; [apply rtc_refl|]; left; auto|].
  destruct (String.eqb_spec (qr_Status q) TxPending) as [Pe|Pe];
    [injection R as <- <-; split; [apply rtc_refl|]; left; auto|].
  assert (qr_Status q = TxSucceeded ∧ String.eqb (qr_Status q) TxFailed = false ∨
          qr_Status q = TxFailed ∧ String.eqb (qr_Status q) TxFailed = true) as St.
  { apply PC in Pr. destruct (query_terminal _ _ _ _ Q) as [?|[E'|E']]; [done|..];
      rewrite E'; auto. }
  set (p := mkApplyOutcomeParams _ _ _ _ _ _ _) in R.
  unfold try_store, try, zoom in R. unfold mbind at 1, M_bind at 1 in R.
  cbn [w_ledger] in R.
  destruct (ApplyTransactionOutcome now p (w_ledger w)) as [o l'] eqn:A.
  assert (payment_steps (w_ledger w) l') as Steps.
  { apply one_step. eapply (step_settle _ now p); [| |exact A]; unfold p;
      cbn [ap_NewTxStatus ap_NewIntentStatus];
      destruct St as [[S1 S2]|[S1 S2]]; rewrite ?S2, S1; auto. }
  cbn [fst snd w_provider w_events] in R. destruct o as [e|applied].
  { injection R as <- <-. apply ApplyTransactionOutcome_run in A
      as [[-> _]|(? & _ & [(? & _)|(? & _)])]; [|done..].
    split; [apply rtc_refl|]. left. auto. }
  destruct Ok as [W C].
  apply ApplyTransactionOutcome_run in A as [[_ [? ?]]|(row & L & [(Eq & -> & Sr)|A])]; [done|..].
  - injection Eq as ->. injection R as <- <-. split; [exact Steps|]. left. simpl.
    split_and!; [done..|]. right. right. split; [done|]. exists row. split; [done|].
    rewrite Sr. simpl. destruct St as [[-> _]|[-> _]]; auto.
  - destruct A as (Eq & Sp & To & occ & _ & i & _ & A). injection Eq as ->.
    destruct (wf_transaction _ W _ _ L) as [Id _].
    assert (payment_transactions l' = <[t_ID row := settle_transaction now p occ row]>
              (payment_transactions (w_ledger w))) as Tx.
    { destruct A as [[_ ->]|(_ & _ & ->)]; done. }
    apply bind_inv in R as [(e & R & _)|([] & w1 & R0 & R)].
    { apply publish_repair_run in R as (? & _); [done|by destruct (String.eqb _ _)]. }
    apply publish_repair_run in R0 as (_ & L1 & Ev); [|by destruct (String.eqb _ _)].
    injection R as <- <-. rewrite L1. simpl in *. split; [exact Steps|]. right.
    split; [done|]. split.
    { apply (pending_settled _ _ _ _ Tx); [congruence|done|]. simpl.
      destruct St as [[-> _]|[-> _]]; done. }
    split.
    { exists (settle_transaction now p occ row). rewrite Tx, <-Id, lookup_insert_eq.
      split; [done|]. simpl. destruct St as [[-> _]|[-> _]]; auto. }
    destruct Ev as [[-> B]|(e & -> & _)].
    + split; [|lia]. destruct (rc_publisher r) as [broker|]; [|auto].
      left. destruct (B _ eq_refl) as [e ?]. eauto.
    + rewrite length_app. simpl. split; [right; right; lia|lia].
Qed.

Lemma settled_in_kept l l' id : kept l l' → settled_in l id → settled_in l' id.
Proof.
  intros K (row & L & S). destruct (kept_transaction _ _ K _ _ L) as (row' & L' & E).
  destruct_and?. exists row'. split; [done|].
  assert (row' = row) as -> by (destruct S as [S|S]; rewrite S in *; auto). done.
Qed.

(** The accounting of a batch. *)
Record batch (result result' : ReconcileResult) (n : nat) (w w' : world P)
    (bk : option (PaymentEvent → bool)) : Prop := {
  bt_scanned : Scanned result' = Scanned result;
  bt_counts : Repaired result ≤ Repaired result' ∧ StillPending result ≤ StillPending result' ∧
    Errors result ≤ Errors result';
  bt_total : Repaired result' + StillPending result' + Errors result' ≤
    Repaired result + StillPending result + Errors result + Z.of_nat n;
  bt_pending : Z.of_nat (pending (w_ledger w)) =
    Z.of_nat (pending (w_ledger w')) + (Repaired result' - Repaired result);
  bt_events : Z.of_nat (length (w_events w')) ≤
    Z.of_nat (length (w_events w)) + (Repaired result' - Repaired result);
  bt_announced : (∃ broker, bk = Some broker ∧ ∀ e, broker e = true) →
    Z.of_nat (length (w_events w')) =
    Z.of_nat (length (w_events w)) + (Repaired result' - Repaired result);
}.

Lemma batch_one {E} r now fresh result si w result' w'
    (PC : ∀ name p, rc_providers r !! name = Some p → ProviderContract p) :
  ledger_ok (w_ledger w) →
  reconcile_one (E:=E) r now fresh result si w = (inr result', w') →
  batch result result' 1 w w' (rc_publisher r) ∧
  (Errors result' = Errors result → StillPending result' = StillPending result →
     settled_in (w_ledger w') (t_ID (si_Transaction si))).
Proof.
  intros Ok R. apply reconcile_one_run in R as [_ R]; [|done..].
  destruct R as [(L & Ev & [Q|[Q|[Q S]]])|(Q & Pe & S & An & Le)];
    injection Q as ->; (split; [|simpl; intros; first [done|lia]]);
    split; simpl; rewrite ?L, ?Ev; try lia.
  intros (broker & B & Always). destruct An as [(b & e & B' & F)|[N|Len]]; [|congruence|lia].
  rewrite B in B'. injection B' as <-. by rewrite Always in F.
Qed.

Lemma batch_trans result1 result2 result3 n m w1 w2 w3 bk :
  batch result1 result2 n w1 w2 bk → batch result2 result3 m w2 w3 bk →
  batch result1 result3 (n + m) w1 w3 bk.
Proof.
  intros [S1 C1 T1 P1 E1 A1] [S2 C2 T2 P2 E2 A2]. split; try lia.
  intros B. rewrite (A2 B), (A1 B). lia.
Qed.

(** The loop never fails; it accounts for every entry and, if it counted neither
    an error nor a pending answer, every entry is settled. *)
Lemma reconcile_all_run {E} r c
    (PC : ∀ name p, rc_providers r !! name = Some p → ProviderContract p) stale :
  ∀ k result w x w', ledger_ok (w_ledger w) →
  reconcile_all (E:=E) r c k result stale w = (x, w') →
  payment_steps (w_ledger w) (w_ledger w') ∧
  ∃ result', x = inr result' ∧ batch result result' (length stale) w w' (rc_publisher r) ∧
    (Errors result' = Errors result → StillPending result' = StillPending result →
     Forall (λ si, settled_in (w_ledger w') (t_ID (si_Transaction si))) stale).
Proof.
  induction stale as [|si stale IH]; intros k result w x w' Ok R; simpl in R.
  { injection R as <- <-. split; [apply rtc_refl|]. eexists. split; [done|].
    split; [split; simpl; lia|]. constructor. }
  unfold mbind, M_bind in R.
  destruct (reconcile_one r (ctx_now c) (ctx_fresh c k) result si w) as [o w1] eqn:One.
  pose proof (reconcile_one_run _ _ _ _ _ _ _ _ PC Ok One) as [St1 Out].
  assert (∃ result1, o = inr result1) as [result1 ->].
  { destruct Out as [(_ & _ & [->|[->|[-> _]]])|(-> & _)]; eauto. }
  clear Out. destruct (batch_one _ _ _ _ _ _ _ _ PC Ok One) as [B1 S1].
  pose proof (payment_steps_ok _ _ Ok St1) as Ok1.
  destruct (IH _ _ _ _ _ Ok1 R) as (St2 & result' & -> & B2 & S2).
  split; [by etrans|]. exists result'. split; [done|].
  split; [exact (batch_trans _ _ _ _ _ _ _ _ _ B1 B2)|].
  intros E0 P0. destruct (bt_counts _ _ _ _ _ _ B1) as (_ & ? & ?),
    (bt_counts _ _ _ _ _ _ B2) as (_ & ? & ?).
  constructor; [|apply S2; lia].
  eapply settled_in_kept; [by apply payment_steps_kept|]. apply S1; lia.
Qed.

Section Runs.
Context `{StaleStore}.

Lemma Run_run r c w x w'
    (PC : ∀ name p, rc_providers r !! name = Some p → ProviderContract p) :
  ledger_ok (w_ledger w) → Run r c w = (x, w') →
  (∃ e, x = inl e ∧ w' = w) ∨
  ∃ stale result, x = inr result ∧
    list_stale (ctx_now c - StaleAfter r)
      (if BatchLimit r <=? 0 then DefaultReconcileBatch else BatchLimit r) (w_ledger w)
      = (inr stale, w_ledger w) ∧
    Forall (stale_in (w_ledger w)) stale ∧
    payment_steps (w_ledger w) (w_ledger w') ∧
    batch (mkReconcileResult (Z.of_nat (length stale)) 0 0 0) result (length stale) w w'
      (rc_publisher r) ∧
    (Errors result = 0 → StillPending result = 0 →
     Forall (λ si, settled_in (w_ledger w') (t_ID (si_Transaction si))) stale).
Proof.
  intros Ok E. unfold Run, zoom in E. unfold mbind at 1, M_bind at 1 in E.
  destruct (list_stale _ _ (w_ledger w)) as [o l1] eqn:Ls.
  destruct (list_stale_reads _ _ _ _ _ (proj1 Ok) Ls) as [-> In].
  cbn [fst snd] in E.
  replace (mkWorld (w_ledger w) (w_provider w) (w_events w)) with w in E by by destruct w.
  destruct o as [e|stale]; [injection E as <- <-; left; eauto|]. right.
  destruct (reconcile_all_run r c PC stale _ _ _ _ _ Ok E) as (St & result & -> & B & S).
  exists stale, result. split_and!; auto.
Qed.

(** The accounting of a reconciliation run is exact, whatever the providers
    answer and whichever calls fail: the repairs it reports are precisely the
    transactions that left PENDING; repairs, pending answers and errors never
    exceed the scan; at most one event is published per repair, and exactly one
    when the broker takes events; and the ledger moves only by payment steps. *)
Theorem reconcile_accounts r c w result w'
    (PC : ∀ name p, rc_providers r !! name = Some p → ProviderContract p)
    (R : reachable (w_ledger w)) (E : Run r c w = (inr result, w')) :
  reachable (w_ledger w') ∧
  0 ≤ Repaired result ∧ 0 ≤ StillPending result ∧ 0 ≤ Errors result ∧
  Repaired result + StillPending result + Errors result ≤ Scanned result ∧
  Z.of_nat (pending (w_ledger w)) = Z.of_nat (pending (w_ledger w')) + Repaired result ∧
  Z.of_nat (length (w_events w')) ≤ Z.of_nat (length (w_events w)) + Repaired result ∧
  ((∃ broker, rc_publisher r = Some broker ∧ ∀ e, broker e = true) →
   Z.of_nat (length (w_events w')) = Z.of_nat (length (w_events w)) + Repaired result).
Proof.
  apply reachable_ok in R as Ok.
  destruct (Run_run _ _ _ _ _ PC Ok E) as [(? & ? & _)|(stale & res & Eq & _ & _ & St & B & _)];
    [done|]. injection Eq as <-. destruct B as [Sc (? & ? & ?) To Pe Ev A]. simpl in *.
  split; [unfold reachable, payment_steps; by etrans|].
  do 5 (split; [lia|]). split; [lia|]. intros X. rewrite (A X). lia.
Qed.

(** Reconciliation converges: after a run that reports no error and no
    pending answer, every transaction the listing named is settled, and a run
    that fails at the listing changes nothing. *)
Theorem reconcile_converges r c w x w'
    (PC : ∀ name p, rc_providers r !! name = Some p → ProviderContract p)
    (R : reachable (w_ledger w)) (E : Run r c w = (x, w')) :
  match x with
  | inl _ => w' = w
  | inr result => ∃ stale,
      (list_stale (ctx_now c - StaleAfter r)
         (if BatchLimit r <=? 0 then DefaultReconcileBatch else BatchLimit r) (w_ledger w)).1
        = inr stale ∧ Scanned result = Z.of_nat (length stale) ∧
      Forall (λ si, stale_in (w_ledger w) si ∧
        (Errors result = 0 → StillPending result = 0 →
         settled_in (w_ledger w') (t_ID (si_Transaction si)))) stale
  end.
Proof.
  apply reachable_ok in R as Ok.
  destruct (Run_run _ _ _ _ _ PC Ok E) as [(e & -> & ->)|(stale & res & -> & Ls & In & _ & B & S)];
    [done|]. exists stale. rewrite Ls. split; [done|]. split; [apply (bt_scanned _ _ _ _ _ _ B)|].
  apply list.Forall_forall. intros si I. rewrite list.Forall_forall in In. split; [by apply In|].
  intros E0 P0. specialize (S E0 P0). rewrite list.Forall_forall in S. by apply S.
Qed.

End Runs.

(** Over the Postgres store a run never gets past its first query, whatever
    the ledger holds: it reports an error, asks no provider and repairs nothing. *)
Lemma postgres_reconciler_repairs_nothing r c w :
  Run (H1:=postgres_store) r c w = (inl ErrDB, w).
Proof. by destruct w. Qed.

End Props.

(** ** Instances *)

Definition demo_reconciler : Reconciler sandbox_state :=
  NewReconciler {["sandbox" := sandbox]} (Some (λ _, true)) 0.

(** The payment of the demo, its webhook lost, the outcome known to the sandbox. *)
Definition missed_world : world sandbox_state :=
  mkWorld (w_ledger initiated_world)
    (SetOutcome 11%N TxSucceeded (w_provider initiated_world)) (w_events initiated_world).

Definition repair := Run (H1:=qualified_store) demo_reconciler (at_ 500 50) missed_world.

Lemma repair_run :
  Run (H1:=qualified_store) demo_reconciler (at_ 500 50) missed_world =
  (inr (mkReconcileResult 1 1 0 0), repair.2).
Proof. vm_compute. reflexivity. Qed.

Lemma demo_reconciler_contracts name p :
  rc_providers demo_reconciler !! name = Some p → ProviderContract p.
Proof.
  unfold demo_reconciler, NewReconciler. cbn [rc_providers].
  intros [_ <-]%lookup_singleton_Some. apply sandbox_contract.
Qed.

Lemma reconcile_accounts_witness :
  reachable (w_ledger repair.2) ∧ 0 ≤ 1 ∧ 0 ≤ 0 ∧ 0 ≤ 0 ∧ 1 + 0 + 0 ≤ 1 ∧
  Z.of_nat (pending (w_ledger missed_world)) = Z.of_nat (pending (w_ledger repair.2)) + 1 ∧
  Z.of_nat (length (w_events repair.2)) ≤ Z.of_nat (length (w_events missed_world)) + 1 ∧
  ((∃ broker, rc_publisher demo_reconciler = Some broker ∧ ∀ e, broker e = true) →
   Z.of_nat (length (w_events repair.2)) = Z.of_nat (length (w_events missed_world)) + 1).
Proof.
  exact (reconcile_accounts (H1:=qualified_store) demo_reconciler (at_ 500 50) missed_world
    (mkReconcileResult 1 1 0 0) repair.2 demo_reconciler_contracts initiated_world_reachable
    repair_run).
Defined.

Lemma reconcile_converges_witness :
  ∃ stale, (list_stale (StaleStore:=qualified_store) (500 * second - 2 * minute) 100
              (w_ledger missed_world)).1 = inr stale ∧ 1 = Z.of_nat (length stale) ∧
    Forall (λ si, stale_in (w_ledger missed_world) si ∧
      (0 = 0 → 0 = 0 → settled_in (w_ledger repair.2) (t_ID (si_Transaction si)))) stale.
Proof.
  exact (reconcile_converges (H1:=qualified_store) demo_reconciler (at_ 500 50) missed_world
    (inr (mkReconcileResult 1 1 0 0)) repair.2 demo_reconciler_contracts
    initiated_world_reachable repair_run).
Defined.
