(* ===== verification/JobMachine.v ===== *)
(** * JobMachine: the job lifecycle ([backend/jobs/statemachine.go], models and
    read scope)

    Eighteen statuses and the table of legal moves. Unlike the payments tables
    this one has cycles (reassignment, rework), so what is proved is its shape:
    where every status can get to, and that the terminal statuses cannot be left. *)

From S2P Require Import Prelude Sql PayMachine.

From Stdlib Require Import Floats.SpecFloat.

Open Scope Z_scope.

Abbreviation Status := string (only parsing).

Definition StatusCreated : Status := "CREATED".
Definition StatusTriaging : Status := "TRIAGING".
Definition StatusDispatching : Status := "DISPATCHING".
Definition StatusAssigned : Status := "ASSIGNED".
Definition StatusAccepted : Status := "ACCEPTED".
Definition StatusEnRoute : Status := "EN_ROUTE".
Definition StatusArrived : Status := "ARRIVED".
Definition StatusInspection : Status := "INSPECTION".
Definition StatusDiagnosis : Status := "DIAGNOSIS".
Definition StatusEstimate : Status := "ESTIMATE".
Definition StatusAwaitingApproval : Status := "AWAITING_APPROVAL".
Definition StatusApproved : Status := "APPROVED".
Definition StatusRepairing : Status := "REPAIRING".
Definition StatusVerification : Status := "VERIFICATION".
Definition StatusCompleted : Status := "COMPLETED".
Definition StatusCancelled : Status := "CANCELLED".
Definition StatusFailed : Status := "FAILED".
Definition StatusEscalated : Status := "ESCALATED".

Definition transitions : transition_map :=
  [(StatusCreated, [StatusTriaging; StatusCancelled]);
   (StatusTriaging, [StatusDispatching; StatusCancelled]);
   (StatusDispatching, [StatusAssigned; StatusEscalated; StatusCancelled]);
   (StatusAssigned, [StatusAccepted; StatusDispatching; StatusCancelled]);
   (StatusAccepted, [StatusEnRoute; StatusDispatching; StatusCancelled]);
   (StatusEnRoute, [StatusArrived; StatusCancelled]);
   (StatusArrived, [StatusInspection; StatusFailed]);
   (StatusInspection, [StatusDiagnosis]);
   (StatusDiagnosis, [StatusEstimate]);
   (StatusEstimate, [StatusAwaitingApproval]);
   (StatusAwaitingApproval, [StatusApproved; StatusEscalated; StatusCancelled]);
   (StatusApproved, [StatusRepairing]);
   (StatusRepairing, [StatusVerification; StatusFailed]);
   (StatusVerification, [StatusCompleted; StatusRepairing])].

Definition AllStatuses : list Status :=
  [StatusCreated; StatusTriaging; StatusDispatching; StatusAssigned; StatusAccepted;
   StatusEnRoute; StatusArrived; StatusInspection; StatusDiagnosis; StatusEstimate;
   StatusAwaitingApproval; StatusApproved; StatusRepairing; StatusVerification;
   StatusCompleted; StatusCancelled; StatusFailed; StatusEscalated].

(** Sorted, [None] for an unknown or terminal status. *)
Definition legalTargets (s : Status) : option (list Status) :=
  merge_sort string_le <$> map_get transitions s.

(** The error, wrapping [ErrConflict], names what is listed: in the first case every
    known status in lifecycle order, in the second the legal targets, sorted. *)
Definition CanTransition (from to : Status) : option TransitionError :=
  match map_get transitions from with
  | None => Some (NoOutgoing from to AllStatuses)
  | Some targets =>
      if is_target targets to then None
      else Some (Illegal from to (default [] (legalTargets from)))
  end.

Definition IsTerminal (s : Status) : bool :=
  String.eqb s StatusCompleted || String.eqb s StatusCancelled || String.eqb s StatusFailed.

Definition isKnownStatus (status : Status) : bool := is_target AllStatuses status.

(** ** Models ([models.go]) *)

Definition RequestStatusReceived : string := "received".
Definition RequestStatusConverted : string := "converted".
Definition RequestStatusCancelled : string := "cancelled".

Definition AssignmentStatusAssigned : string := "assigned".
Definition AssignmentStatusAccepted : string := "accepted".
Definition AssignmentStatusDeclined : string := "declined".
Definition AssignmentStatusReassigned : string := "reassigned".

(** A [float64]: a binary64 number. *)
Abbreviation float64 := spec_float (only parsing).

Record ServiceRequest := mkServiceRequest {
  sr_ID : uuid;
  sr_TenantID : option uuid;
  sr_CustomerID : uuid;
  sr_VehicleID : option uuid;
  sr_Description : string;
  sr_LocationLat : option float64;
  sr_LocationLng : option float64;
  sr_AddressText : string;
  sr_Status : string;
  sr_CreatedAt : time;
  sr_UpdatedAt : time;
}.

Record Job := mkJob {
  j_ID : uuid;
  j_ServiceRequestID : option uuid;
  j_TenantID : option uuid;
  j_CustomerID : uuid;
  j_VehicleID : option uuid;
  j_Status : Status;
  j_ProblemSummary : string;
  j_TechnicianID : option uuid;
  j_CreatedAt : time;
  j_UpdatedAt : time;
}.

Record JobAssignment := mkJobAssignment {
  ja_ID : uuid;
  ja_JobID : uuid;
  ja_TenantID : option uuid;
  ja_TechnicianID : uuid;
  ja_AssignedBy : option uuid;
  ja_AcceptedAt : option time;
  ja_Status : string;
  ja_CreatedAt : time;
}.

Record JobTransition := mkJobTransition {
  jt_JobID : uuid;
  jt_TenantID : option uuid;
  jt_FromStatus : Status;
  jt_ToStatus : Status;
  jt_ActorID : option uuid;
  jt_Reason : string;
  jt_CreatedAt : time;
}.

(** ** Read scope ([scope.go]) *)

Record ReadScope := mkReadScope {
  ViewerID : uuid;
  rs_TenantID : option uuid;
  Operator : bool;
}.

Definition OperatorRoles : list string := ["DISPATCHER"; "ADMIN"; "SUPER_ADMIN"].
Definition IsOperatorRole (role : string) : bool := is_target OperatorRoles role.

(** ** Locations ([service.go]) *)

(** 90.0 and 180.0 in binary64, and their opposites. *)
Definition MaxLatitude : float64 := S754_finite false 6333186975989760 (-46).
Definition MinLatitude : float64 := S754_finite true 6333186975989760 (-46).
Definition MaxLongitude : float64 := S754_finite false 6333186975989760 (-45).
Definition MinLongitude : float64 := S754_finite true 6333186975989760 (-45).

Definition IsNaN (x : float64) : bool := match x with S754_nan => true | _ => false end.

Definition LocationValid (lat lng : option float64) : bool :=
  match lat, lng with
  | None, None => true
  | Some lat, Some lng =>
      negb (IsNaN lat) && negb (IsNaN lng) &&
      SFleb MinLatitude lat && SFleb lat MaxLatitude &&
      SFleb MinLongitude lng && SFleb lng MaxLongitude
  | _, _ => false
  end.

(** ** The shape of the table *)

Lemma CanTransition_None from to : CanTransition from to = None ↔ legal_move transitions from to.
Proof.
  unfold CanTransition, legal_move.
  destruct (map_get transitions from) as [targets|]; [|naive_solver].
  destruct (is_target targets to) eqn:E.
  - apply is_target_spec in E. naive_solver.
  - split; [done|]. intros (? & [= <-] & H). apply is_target_spec in H. congruence.
Qed.

Lemma CanTransition_stuck s :
  (∀ to, CanTransition s to ≠ None) ↔ has_entry transitions s = false.
Proof.
  rewrite (no_entry_stuck transitions [] s) by reflexivity.
  split; intros N to E; apply (N to).
  - by apply CanTransition_None, (canTransition_None _ []).
  - by apply canTransition_None, CanTransition_None.
Qed.

(** The statuses within [fuel] moves of the frontier. *)
Fixpoint closure (fuel : nat) (T : transition_map) (seen : list string) : list string :=
  match fuel with
  | O => seen
  | S fuel => closure fuel T
      (remove_dups (seen ++ seen ≫= λ s, default [] (map_get T s)))
  end.

Definition leads (T : transition_map) : string → string → Prop := rtc (legal_move T).

Lemma closure_sound T fuel : ∀ seen s, s ∈ closure fuel T seen →
  ∃ s0, s0 ∈ seen ∧ leads T s0 s.
Proof.
  induction fuel as [|fuel IH]; intros seen s I; simpl in I.
  - exists s. split; [done|apply rtc_refl].
  - apply IH in I as (s1 & I & L). apply elem_of_remove_dups, elem_of_app in I as [I|I];
      [by exists s1|].
    apply list_elem_of_bind in I as (s0 & I & I0). exists s0. split; [done|].
    eapply rtc_l; [|exact L]. destruct (map_get T s0) as [targets|] eqn:G; simpl in I.
    + by exists targets.
    + by apply elem_of_nil in I.
Qed.

Lemma closure_check T fuel from to :
  bool_decide (to ∈ closure fuel T [from]) = true → leads T from to.
Proof.
  intros I%bool_decide_eq_true. apply closure_sound in I as (s0 & I & L).
  apply list_elem_of_singleton in I as ->. done.
Qed.

(** C40. The job lifecycle has the shape it is documented to have: a move is legal
    exactly when the table lists it, and then both ends are known statuses; the
    statuses without a legal move are the terminal ones and ESCALATED; every status
    is reachable from CREATED; and from every other status the job can still be
    COMPLETED, reassignments and rework included. *)
Theorem job_machine_shape :
  (∀ from to, CanTransition from to = None ↔
     ∃ targets, map_get transitions from = Some targets ∧ to ∈ targets) ∧
  (∀ from to, CanTransition from to = None →
     isKnownStatus from = true ∧ isKnownStatus to = true ∧ from ≠ to) ∧
  (∀ s, isKnownStatus s = true →
     ((∀ to, CanTransition s to ≠ None) ↔ IsTerminal s = true ∨ s = "ESCALATED")) ∧
  (∀ s, isKnownStatus s = true → leads transitions "CREATED" s) ∧
  (∀ s, isKnownStatus s = true → IsTerminal s = false → s ≠ "ESCALATED" →
     leads transitions s "COMPLETED").
Proof.
  assert (∀ s (P : string → Prop), isKnownStatus s = true → Forall P AllStatuses → P s) as Each.
  { intros s P K%is_target_spec F. rewrite list.Forall_forall in F. auto. }
  split; [apply CanTransition_None|]. split; [|split; [|split]].
  - intros from to (targets & G & I)%CanTransition_None. apply map_get_elem in G.
    assert (Forall (λ e, isKnownStatus e.1 = true ∧
      Forall (λ t, isKnownStatus t = true ∧ e.1 ≠ t) e.2) transitions) as F.
    { repeat (constructor; [split; [reflexivity|repeat constructor; discriminate]|]).
      constructor. }
    rewrite list.Forall_forall in F. destruct (F _ G) as [K F']. simpl in *.
    rewrite list.Forall_forall in F'. destruct (F' _ I). done.
  - intros s K. rewrite CanTransition_stuck.
    assert (forallb (λ s, eqb (negb (has_entry transitions s))
              (IsTerminal s || String.eqb s StatusEscalated)) AllStatuses = true) as F
      by reflexivity.
    rewrite forallb_forall in F. apply is_target_spec, list_elem_of_In, F, eqb_prop in K.
    rewrite <-negb_true_iff, K, orb_true_iff, String.eqb_eq. done.
  - intros s K. pattern s. apply (Each _ _ K).
    repeat (constructor; [by apply (closure_check _ 14)|]). constructor.
  - intros s K. pattern s. apply (Each _ _ K).
    repeat (constructor; [intros T E; first [discriminate T|by destruct E|
      by apply (closure_check _ 14)]|]). constructor.
Qed.
