(* ===== verification/Jobs.v ===== *)
(** * Jobs: the tables, the Postgres store and the service of the jobs domain
    ([backend/jobs/store.go], [service.go], [backend/migrations/jobs])

    Four tables; none has a nullable text column, so rows and structs are the same
    records. A store method is one transaction. The service runs over the database and
    the events published so far; a call that fails keeps the writes made before it. *)

From S2P Require Import Prelude Text Platform Sql PayMachine JobMachine.

Open Scope Z_scope.

Record job_db := mkJobDB {
  service_requests : gmap uuid ServiceRequest;
  jobs : gmap uuid Job;
  job_assignments : list JobAssignment;   (* oldest first *)
  job_transitions : list JobTransition;   (* by id, oldest first *)
}.

Definition empty_job_db : job_db := mkJobDB ∅ ∅ [] [].

Definition with_requests f (d : job_db) : job_db :=
  mkJobDB (f (service_requests d)) (jobs d) (job_assignments d) (job_transitions d).
Definition with_jobs f (d : job_db) : job_db :=
  mkJobDB (service_requests d) (f (jobs d)) (job_assignments d) (job_transitions d).
Definition with_assignments f (d : job_db) : job_db :=
  mkJobDB (service_requests d) (jobs d) (f (job_assignments d)) (job_transitions d).
Definition with_job_transitions f (d : job_db) : job_db :=
  mkJobDB (service_requests d) (jobs d) (job_assignments d) (f (job_transitions d)).

(** What [errors.Is] can tell about an error of the domain; the others are
    [ErrDB] when the store made them and [ErrInvalid] when the service did. *)
Inductive JobError :=
  | ErrRequestNotFound
  | ErrJobNotFound
  | ErrAlreadyConverted
  | ErrConflict
  | ErrDB
  | ErrInvalid
  | PublishFailed.

#[export] Instance JobError_eq_dec : EqDecision JobError.
Proof. solve_decision. Defined.

Abbreviation db := (M job_db JobError) (only parsing).

(** ** Constraints of the tables *)

Definition isKnownRequestStatus (s : string) : bool :=
  is_target [RequestStatusReceived; RequestStatusConverted; RequestStatusCancelled] s.
Definition isKnownAssignmentStatus (s : string) : bool :=
  is_target [AssignmentStatusAssigned; AssignmentStatusAccepted; AssignmentStatusDeclined;
             AssignmentStatusReassigned] s.

Definition insert_request (r : ServiceRequest) : db unit :=
  d ← get;
  ensure (isKnownRequestStatus (sr_Status r)) ErrDB;;
  ensure (bool_decide (service_requests d !! sr_ID r = None)) ErrDB;;
  modify (with_requests (insert (sr_ID r) r)).

Definition insert_job (j : Job) : db unit :=
  d ← get;
  ensure (isKnownStatus (j_Status j)) ErrDB;;
  ensure (bool_decide (jobs d !! j_ID j = None)) ErrDB;;
  ensure (match j_ServiceRequestID j with
          | Some r => negb (bool_decide (service_requests d !! r = None))
          | None => true
          end) ErrDB;;
  modify (with_jobs (insert (j_ID j) j)).

(** [UPDATE jobs SET ... WHERE id = $1], on the row just locked. *)
Definition update_job (old new : Job) : db unit :=
  ensure (isKnownStatus (j_Status new)) ErrDB;;
  modify (with_jobs (insert (j_ID old) new)).

Definition insert_assignment (a : JobAssignment) : db unit :=
  d ← get;
  ensure (isKnownAssignmentStatus (ja_Status a)) ErrDB;;
  ensure (negb (bool_decide (jobs d !! ja_JobID a = None))) ErrDB;;
  modify (with_assignments (λ l, l ++ [a])).

Definition insert_job_transition (t : JobTransition) : db unit :=
  d ← get;
  ensure (negb (bool_decide (jobs d !! jt_JobID t = None))) ErrDB;;
  modify (with_job_transitions (λ l, l ++ [t])).

(** ** The store *)

Record JobFilter := mkJobFilter {
  jf_Status : option Status;
  jf_TechnicianID : option uuid;
}.

Definition jobs_defaultListLimit : Z := 50.
Definition jobs_maxListLimit : Z := 200.

Definition requestScopePredicate (scope : ReadScope) (nextParam : nat)
    : option cond * list value :=
  if Operator scope then (None, [])
  else match rs_TenantID scope with
  | Some t => (Some (CEq "tenant_id" nextParam), [VUuid t])
  | None =>
      if negb (bool_decide (ViewerID scope = uuid_nil))
      then (Some (CEq "customer_id" nextParam), [VUuid (ViewerID scope)])
      else (Some CFalse, [])
  end.

Definition jobScopePredicate (scope : ReadScope) (nextParam : nat)
    : option cond * list value :=
  if Operator scope then (None, [])
  else match rs_TenantID scope with
  | Some t => (Some (CEq "tenant_id" nextParam), [VUuid t])
  | None =>
      if negb (bool_decide (ViewerID scope = uuid_nil))
      then (Some (COr (CEq "customer_id" nextParam) (CEq "technician_id" nextParam)),
            [VUuid (ViewerID scope); VUuid (ViewerID scope)])
      else (Some CFalse, [])
  end.

Definition request_env (r : ServiceRequest) : env := λ column,
  if String.eqb column "id" then VUuid (sr_ID r)
  else if String.eqb column "tenant_id" then of_uuid (sr_TenantID r)
  else if String.eqb column "customer_id" then VUuid (sr_CustomerID r)
  else VNull.

Definition job_env (j : Job) : env := λ column,
  if String.eqb column "id" then VUuid (j_ID j)
  else if String.eqb column "tenant_id" then of_uuid (j_TenantID j)
  else if String.eqb column "customer_id" then VUuid (j_CustomerID j)
  else if String.eqb column "technician_id" then of_uuid (j_TechnicianID j)
  else if String.eqb column "status" then VText (j_Status j)
  else VNull.

Definition job_transition_env (t : JobTransition) : env := λ column,
  if String.eqb column "job_id" then VUuid (jt_JobID t)
  else if String.eqb column "job_transitions.tenant_id" then of_uuid (jt_TenantID t)
  else VNull.

(** The columns ListTransitions selects and the destinations it scans into. *)
Definition transitionSelect : list string :=
  ["id"; "job_id"; "tenant_id"; "from_status"; "to_status"; "actor_id"; "reason"; "created_at"].
Definition transitionDest : list string :=
  ["ID"; "JobID"; "FromStatus"; "ToStatus"; "ActorID"; "Reason"; "CreatedAt"].

(** [rows.Scan]: as many destinations as columns; TenantID is not among them. *)
Definition scanTransition (t : JobTransition) : option JobTransition :=
  if (length transitionSelect =? length transitionDest)%nat
  then Some (mkJobTransition (jt_JobID t) None (jt_FromStatus t) (jt_ToStatus t)
               (jt_ActorID t) (jt_Reason t) (jt_CreatedAt t))
  else None.

(** ORDER BY created_at DESC *)
Definition created_desc (a b : Job) : Prop := j_CreatedAt b <= j_CreatedAt a.
#[export] Instance created_desc_dec a b : Decision (created_desc a b).
Proof. unfold created_desc. apply _. Defined.

Section Store.
Context `{Driver} `{!RowOrder Job}.

Definition send_query (used : list nat) (args : list value) : db unit :=
  ensure (accepts used (length args)) ErrDB.

Definition CreateRequest (now : time) (fresh : uuid) (r : ServiceRequest) : db ServiceRequest :=
  let r := mkServiceRequest (assign_id (sr_ID r) fresh) (sr_TenantID r) (sr_CustomerID r)
             (sr_VehicleID r) (sr_Description r) (sr_LocationLat r) (sr_LocationLng r)
             (sr_AddressText r) (sr_Status r) now now in
  insert_request r;;
  mret r.

Definition GetRequest (id : uuid) (scope : ReadScope) : db ServiceRequest :=
  let '(pred, predArgs) := requestScopePredicate scope 2 in
  let where_ := and_pred (CEq "id" 1) pred in
  let args := VUuid id :: predArgs in
  send_query (placeholders where_) args;;
  d ← get;
  match service_requests d !! id with
  | Some row => if eval None args (request_env row) where_ then mret row
                else throw ErrRequestNotFound
  | None => throw ErrRequestNotFound
  end.

(** [UPDATE service_requests SET status = 'converted' WHERE id = $1 AND status =
    'received'], no affected row being an error. *)
Definition claim_request (now : time) (id : uuid) : db unit :=
  d ← get;
  match service_requests d !! id with
  | Some r =>
      ensure (String.eqb (sr_Status r) RequestStatusReceived) ErrAlreadyConverted;;
      modify (with_requests (insert id
        (mkServiceRequest (sr_ID r) (sr_TenantID r) (sr_CustomerID r) (sr_VehicleID r)
           (sr_Description r) (sr_LocationLat r) (sr_LocationLng r) (sr_AddressText r)
           RequestStatusConverted (sr_CreatedAt r) now)))
  | None => throw ErrAlreadyConverted
  end.

Definition CreateJob (now : time) (fresh : uuid) (j : Job) : db Job :=
  let j := mkJob (assign_id (j_ID j) fresh) (j_ServiceRequestID j) (j_TenantID j)
             (j_CustomerID j) (j_VehicleID j)
             (if String.eqb (j_Status j) "" then StatusCreated else j_Status j)
             (j_ProblemSummary j) (j_TechnicianID j) now now in
  transact (
    match j_ServiceRequestID j with
    | Some r => claim_request now r
    | None => mret tt
    end;;
    insert_job j;;
    mret j).

Definition GetJob (id : uuid) (scope : ReadScope) : db Job :=
  let '(pred, predArgs) := jobScopePredicate scope 2 in
  let where_ := and_pred (CEq "id" 1) pred in
  let args := VUuid id :: predArgs in
  send_query (placeholders where_) args;;
  d ← get;
  match jobs d !! id with
  | Some row => if eval None args (job_env row) where_ then mret row else throw ErrJobNotFound
  | None => throw ErrJobNotFound
  end.

(** [SET status = $2[, technician_id = $3], updated_at = now()] *)
Definition set_job (now : time) (status : Status) (technician : option uuid) (j : Job) : Job :=
  mkJob (j_ID j) (j_ServiceRequestID j) (j_TenantID j) (j_CustomerID j) (j_VehicleID j) status
    (j_ProblemSummary j) technician (j_CreatedAt j) now.

Definition UpdateJobStatus (now : time) (jobID : uuid) (newStatus : Status)
    (actorID : option uuid) (reason : string) : db unit :=
  transact (
    d ← get;
    j ← from_option (jobs d !! jobID) ErrJobNotFound;
    update_job j (set_job now newStatus (j_TechnicianID j) j);;
    insert_job_transition
      (mkJobTransition jobID (j_TenantID j) (j_Status j) newStatus actorID reason now)).

Definition set_assignment (status : string) (accepted : option time) (a : JobAssignment)
    : JobAssignment :=
  mkJobAssignment (ja_ID a) (ja_JobID a) (ja_TenantID a) (ja_TechnicianID a) (ja_AssignedBy a)
    accepted status (ja_CreatedAt a).

(** [WHERE job_id = $1 AND status = 'assigned'] *)
Definition open_assignment (jobID : uuid) (a : JobAssignment) : bool :=
  bool_decide (ja_JobID a = jobID) && String.eqb (ja_Status a) AssignmentStatusAssigned.

Definition retire (jobID : uuid) (a : JobAssignment) : JobAssignment :=
  if open_assignment jobID a
  then set_assignment AssignmentStatusReassigned (ja_AcceptedAt a) a else a.

Definition AssignTechnician (now : time) (fresh : uuid) (jobID technicianID : uuid)
    (assignedBy : option uuid) : db unit :=
  transact (
    d ← get;
    j ← from_option (jobs d !! jobID) ErrJobNotFound;
    modify (with_assignments (fmap (retire jobID)));;
    insert_assignment (mkJobAssignment fresh jobID (j_TenantID j) technicianID assignedBy None
                         AssignmentStatusAssigned now);;
    update_job j (set_job now StatusAssigned (Some technicianID) j);;
    insert_job_transition
      (mkJobTransition jobID (j_TenantID j) (j_Status j) StatusAssigned assignedBy
         "technician assigned" now)).

Definition accepts_assignment (jobID technicianID : uuid) (a : JobAssignment) : bool :=
  bool_decide (ja_JobID a = jobID) && bool_decide (ja_TechnicianID a = technicianID) &&
  String.eqb (ja_Status a) AssignmentStatusAssigned.

Definition accept (now : time) (jobID technicianID : uuid) (a : JobAssignment) : JobAssignment :=
  if accepts_assignment jobID technicianID a
  then set_assignment AssignmentStatusAccepted (Some now) a else a.

Definition AcceptAssignment (now : time) (jobID technicianID : uuid) : db unit :=
  transact (
    d ← get;
    j ← from_option (jobs d !! jobID) ErrJobNotFound;
    modify (with_assignments (fmap (accept now jobID technicianID)));;
    ensure (existsb (accepts_assignment jobID technicianID) (job_assignments d)) ErrDB;;
    update_job j (set_job now StatusAccepted (j_TechnicianID j) j);;
    insert_job_transition
      (mkJobTransition jobID (j_TenantID j) (j_Status j) StatusAccepted (Some technicianID)
         "technician accepted assignment" now)).

(** The clause under construction: filters first, the scope after them. *)
Definition jobs_where (filter : JobFilter) (scope : ReadScope) : cond * list value :=
  let q := (CTrue, []) in
  let q := add_filter "status" (VText <$> jf_Status filter) q in
  let q := add_filter "technician_id" (VUuid <$> jf_TechnicianID filter) q in
  let '(pred, predArgs) := jobScopePredicate scope (length q.2 + 1) in
  (and_pred q.1 pred, q.2 ++ predArgs).

Definition ListJobs (filter : JobFilter) (limit offset : Z) (scope : ReadScope) : db (list Job) :=
  let limit := clamp_limit jobs_defaultListLimit jobs_maxListLimit limit in
  let offset := clamp_offset offset in
  let '(where_, args) := jobs_where filter scope in
  let pageParam := (length args + 1)%nat in
  let args' := args ++ [VInt limit; VInt offset] in
  send_query (placeholders where_ ++ [pageParam; (pageParam + 1)%nat]) args';;
  d ← get;
  let rows := List.filter (λ row, eval None args' (job_env row) where_)
                (map_to_list (jobs d)).*2 in
  mret (page limit offset (merge_sort created_desc (row_order rows))).

(** The columns of the parent job in the EXISTS subquery. *)
Definition parent_job_env (d : job_db) (jobID : uuid) : option env :=
  (λ j column, if String.eqb column "j.customer_id" then VUuid (j_CustomerID j)
               else if String.eqb column "j.technician_id" then of_uuid (j_TechnicianID j)
               else VNull) <$> jobs d !! jobID.

Definition transitions_where (jobID : uuid) (scope : ReadScope) : cond * list value :=
  let base := CEq "job_id" 1 in
  if Operator scope then (base, [VUuid jobID])
  else match rs_TenantID scope with
  | Some t => (CAnd base (CEq "job_transitions.tenant_id" 2), [VUuid jobID; VUuid t])
  | None =>
      if negb (bool_decide (ViewerID scope = uuid_nil))
      then (CAnd base (CExists (COr (CEq "j.customer_id" 2) (CEq "j.technician_id" 2))),
            [VUuid jobID; VUuid (ViewerID scope)])
      else (CAnd base CFalse, [VUuid jobID])
  end.

(** Oldest first: ORDER BY created_at, id. *)
Definition transition_order (a b : nat * JobTransition) : Prop :=
  jt_CreatedAt a.2 < jt_CreatedAt b.2 ∨ jt_CreatedAt a.2 = jt_CreatedAt b.2 ∧ (a.1 ≤ b.1)%nat.
#[export] Instance transition_order_dec a b : Decision (transition_order a b).
Proof. unfold transition_order. apply _. Defined.

Definition ListTransitions (jobID : uuid) (scope : ReadScope) : db (list JobTransition) :=
  let '(where_, args) := transitions_where jobID scope in
  send_query (placeholders where_) args;;
  d ← get;
  let rows := List.filter
                (λ t, eval (parent_job_env d (jt_JobID t.2)) args (job_transition_env t.2) where_)
                (imap (λ i t, (i, t)) (job_transitions d)) in
  from_option (mapM scanTransition (merge_sort transition_order rows).*2) ErrDB.

End Store.

#[global] Arguments CreateRequest : simpl never.
#[global] Arguments GetRequest : simpl never.
#[global] Arguments CreateJob : simpl never.
#[global] Arguments GetJob : simpl never.
#[global] Arguments UpdateJobStatus : simpl never.
#[global] Arguments AssignTechnician : simpl never.
#[global] Arguments AcceptAssignment : simpl never.
#[global] Arguments ListJobs : simpl never.
#[global] Arguments ListTransitions : simpl never.

(** * The jobs domain service ([backend/jobs/service.go])

    The service runs over the database and the events published so far. A call
    that fails keeps the writes made before it. *)

Definition JobsEventDomain : string := "jobs".
Definition EventRequestReceived : string := "request.received.v1".
Definition EventJobCreated : string := "job.created.v1".
Definition EventJobStatusChanged : string := "job.status.changed.v1".
Definition EventJobAssigned : string := "job.assigned.v1".

Definition DefaultJobsLimit : Z := 50.
Definition MaxJobsLimit : Z := 200.

Inductive JobPayload :=
  | RequestReceivedPayload (RequestID CustomerID : uuid) (VehicleID : option uuid)
      (AddressText : string)
  | JobCreatedPayload (JobID : uuid) (ServiceRequestID : option uuid) (CustomerID : uuid)
      (VehicleID : option uuid) (ProblemSummary : string)
  | JobStatusChangedPayload (JobID : uuid) (From To : Status) (Reason : string)
      (ActorID : option uuid)
  | JobAssignedPayload (JobID TechnicianID : uuid) (AssignedBy : option uuid).

Record job_world := mkJobWorld {
  jw_db : job_db;
  jw_events : list (string * Event JobPayload);
}.

Abbreviation svc := (M job_world JobError) (only parsing).

(** The publisher of the service: does the broker take the event? *)
Abbreviation Publisher := (option (Event JobPayload → bool)) (only parsing).

Section Service.
Context `{Driver} `{!RowOrder Job} `{UuidText}.
Context (publisher : Publisher).

Definition on_db {A} (c : M job_db JobError A) : svc A :=
  zoom jw_db (λ d w, mkJobWorld d (jw_events w)) c.

Definition job_tenantString (t : option uuid) : string :=
  match t with Some u => uuid_string u | None => "" end.

Definition publish_job (c : Ctx) (fresh : uuid) (eventType : string) (aggregateID : uuid)
    (actorID : option uuid) (tenantID : string) (payload : JobPayload) : svc unit :=
  match publisher with
  | None => mret tt
  | Some broker =>
      let actor := match actorID with
        | Some a => if bool_decide (a = uuid_nil) then "" else uuid_string a
        | None => ""
        end in
      e ← from_option (NewEvent (ctx_now c) fresh eventType (uuid_string aggregateID) tenantID
                         actor (ctx_request_id c) payload) PublishFailed;
      ensure (broker e) PublishFailed;;
      modify (λ w, mkJobWorld (jw_db w) (jw_events w ++ [(JobsEventDomain, e)]))
  end.

(** The struct the pointer refers to after the call. *)
Definition Jobs_CreateRequest (c : Ctx) (r : option ServiceRequest) : svc ServiceRequest :=
  r ← from_option r ErrInvalid;
  ensure (negb (bool_decide (sr_CustomerID r = uuid_nil))) ErrInvalid;;
  ensure (negb (String.eqb (TrimSpace (sr_Description r)) "")) ErrInvalid;;
  ensure (LocationValid (sr_LocationLat r) (sr_LocationLng r)) ErrInvalid;;
  let status := if String.eqb (sr_Status r) "" then RequestStatusReceived else sr_Status r in
  let r := mkServiceRequest (sr_ID r) (sr_TenantID r) (sr_CustomerID r) (sr_VehicleID r)
             (sr_Description r) (sr_LocationLat r) (sr_LocationLng r) (sr_AddressText r)
             status (sr_CreatedAt r) (sr_UpdatedAt r) in
  r ← on_db (CreateRequest (ctx_now c) (ctx_fresh c 0) r);
  publish_job c (ctx_fresh c 1) EventRequestReceived (sr_ID r) (Some (sr_CustomerID r))
    (job_tenantString (sr_TenantID r))
    (RequestReceivedPayload (sr_ID r) (sr_CustomerID r) (sr_VehicleID r) (sr_AddressText r));;
  mret r.

Definition CreateJobFromRequest (c : Ctx) (requestID : uuid) (scope : ReadScope) : svc Job :=
  request ← on_db (GetRequest requestID scope);
  ensure (String.eqb (sr_Status request) RequestStatusReceived) ErrAlreadyConverted;;
  job ← on_db (CreateJob (ctx_now c) (ctx_fresh c 0)
    (mkJob uuid_nil (Some (sr_ID request)) (sr_TenantID request) (sr_CustomerID request)
       (sr_VehicleID request) StatusCreated (sr_Description request) None 0 0));
  publish_job c (ctx_fresh c 1) EventJobCreated (j_ID job) (Some (ViewerID scope))
    (job_tenantString (j_TenantID job))
    (JobCreatedPayload (j_ID job) (j_ServiceRequestID job) (j_CustomerID job)
       (j_VehicleID job) (j_ProblemSummary job));;
  mret job.

(** [if err := CanTransition(from, to); err != nil { return err }] *)
Definition check_transition (from to : Status) : svc unit :=
  match CanTransition from to with Some _ => throw ErrConflict | None => mret tt end.

Definition Transition (c : Ctx) (fresh : uuid) (jobID : uuid) (to : Status)
    (actorID : option uuid) (reason : string) (scope : ReadScope) : svc unit :=
  job ← on_db (GetJob jobID scope);
  check_transition (j_Status job) to;;
  on_db (UpdateJobStatus (ctx_now c) jobID to actorID reason);;
  publish_job c fresh EventJobStatusChanged jobID actorID (job_tenantString (j_TenantID job))
    (JobStatusChangedPayload jobID (j_Status job) to reason actorID).

(** [*p == id] for a pointer that may be nil. *)
Definition points_to (p : option uuid) (id : uuid) : bool :=
  match p with Some u => bool_decide (u = id) | None => false end.

(** The dispatch and its event, the last part of AssignTechnician. *)
Definition dispatch (c : Ctx) (job : Job) (jobID technicianID : uuid)
    (assignedBy : option uuid) : svc unit :=
  on_db (AssignTechnician (ctx_now c) (ctx_fresh c 0) jobID technicianID assignedBy);;
  publish_job c (ctx_fresh c 1) EventJobAssigned jobID assignedBy
    (job_tenantString (j_TenantID job)) (JobAssignedPayload jobID technicianID assignedBy).

Definition Jobs_AssignTechnician (c : Ctx) (jobID technicianID : uuid)
    (assignedBy : option uuid) (scope : ReadScope) : svc unit :=
  job ← on_db (GetJob jobID scope);
  if String.eqb (j_Status job) StatusDispatching
  then dispatch c job jobID technicianID assignedBy
  else if String.eqb (j_Status job) StatusAssigned then
    ensure (negb (points_to (j_TechnicianID job) technicianID)) ErrConflict;;
    Transition c (ctx_fresh c 2) jobID StatusDispatching assignedBy "reassignment" scope;;
    dispatch c job jobID technicianID assignedBy
  else check_transition (j_Status job) StatusAssigned.

Definition Accept (c : Ctx) (jobID technicianID : uuid) (scope : ReadScope) : svc unit :=
  job ← on_db (GetJob jobID scope);
  check_transition (j_Status job) StatusAccepted;;
  ensure (match j_TechnicianID job with
          | Some t => bool_decide (t = technicianID)
          | None => true
          end) ErrConflict;;
  on_db (AcceptAssignment (ctx_now c) jobID technicianID);;
  publish_job c (ctx_fresh c 0) EventJobStatusChanged jobID (Some technicianID)
    (job_tenantString (j_TenantID job))
    (JobStatusChangedPayload jobID (j_Status job) StatusAccepted
       "technician accepted assignment" (Some technicianID)).

Definition Jobs_GetJob (id : uuid) (scope : ReadScope) : svc Job := on_db (GetJob id scope).

Definition Jobs_Transitions (jobID : uuid) (scope : ReadScope) : svc (list JobTransition) :=
  on_db (ListTransitions jobID scope).

Definition Jobs (filter : JobFilter) (limit offset : Z) (scope : ReadScope) : svc (list Job) :=
  ensure (match jf_Status filter with Some s => isKnownStatus s | None => true end) ErrInvalid;;
  let limit := clamp_limit DefaultJobsLimit MaxJobsLimit limit in
  let offset := clamp_offset offset in
  on_db (ListJobs filter limit offset scope).

Definition JobsByStatus (status : Status) (limit offset : Z) (scope : ReadScope)
    : svc (list Job) :=
  Jobs (mkJobFilter (Some status) None) limit offset scope.

End Service.

#[global] Arguments publish_job : simpl never.
#[global] Arguments check_transition : simpl never.
