(* ===== verification/JobInvariant.v ===== *)
(** * JobInvariant: what every jobs database satisfies

    The store calls the service makes, in any interleaving ([job_step]), and the
    invariant they keep: one job per request, complete audit trails, denormalized
    tenants that agree with the job, at most one open assignment per job. *)

From S2P Require Import Prelude Sql PayMachine JobMachine Jobs.

Open Scope Z_scope.

(** ** Runs of the store methods *)

Section Runs.
Context `{Driver}.

Lemma CreateRequest_run now fresh r d x d' :
  CreateRequest now fresh r d = (x, d') →
  (∃ e, x = inl e) ∧ d' = d ∨
  ∃ row, x = inr row ∧ sr_ID row = assign_id (sr_ID r) fresh ∧
    sr_Status row = sr_Status r ∧ sr_TenantID row = sr_TenantID r ∧
    sr_CustomerID row = sr_CustomerID r ∧
    service_requests d !! sr_ID row = None ∧ isKnownRequestStatus (sr_Status row) = true ∧
    d' = with_requests (insert (sr_ID row) row) d.
Proof.
  intros R. unfold CreateRequest, insert_request in R. unfold_run R. case_run R; eauto.
  reflect. right. eexists. split_and!; done.
Qed.

(** The claim of a request, as CreateJob makes it. *)
Definition converted (now : time) (r : ServiceRequest) : ServiceRequest :=
  mkServiceRequest (sr_ID r) (sr_TenantID r) (sr_CustomerID r) (sr_VehicleID r)
    (sr_Description r) (sr_LocationLat r) (sr_LocationLng r) (sr_AddressText r)
    RequestStatusConverted (sr_CreatedAt r) now.

Definition claimed (now : time) (rid : option uuid) (d : job_db) : job_db :=
  match rid with
  | Some id => match service_requests d !! id with
               | Some r => with_requests (insert id (converted now r)) d
               | None => d
               end
  | None => d
  end.

Lemma CreateJob_run now fresh j d x d' :
  CreateJob now fresh j d = (x, d') →
  (∃ e, x = inl e) ∧ d' = d ∨
  ∃ row, x = inr row ∧ j_ID row = assign_id (j_ID j) fresh ∧
    j_ServiceRequestID row = j_ServiceRequestID j ∧ j_TenantID row = j_TenantID j ∧
    j_CustomerID row = j_CustomerID j ∧
    j_Status row = (if String.eqb (j_Status j) "" then StatusCreated else j_Status j) ∧
    jobs d !! j_ID row = None ∧ isKnownStatus (j_Status row) = true ∧
    (∀ id, j_ServiceRequestID j = Some id → ∃ r, service_requests d !! id = Some r ∧
       sr_Status r = "received") ∧
    d' = with_jobs (insert (j_ID row) row) (claimed now (j_ServiceRequestID j) d).
Proof.
  intros R. unfold CreateJob in R. set (row := mkJob _ _ _ _ _ _ _ _ _ _) in R.
  destruct x as [e|j'].
  { apply transact_error in R as ->. left. eauto. }
  right. apply transact_ok in R.
  apply bind_inv in R as [(? & _ & ?)|([] & d1 & C & R)]; [done|].
  apply bind_inv in R as [(? & _ & ?)|([] & d2 & I & R)]; [done|]. injection R as <- <-.
  assert (d1 = claimed now (j_ServiceRequestID j) d ∧
    ∀ id, j_ServiceRequestID j = Some id → ∃ r, service_requests d !! id = Some r ∧
       sr_Status r = "received") as [-> Re].
  { unfold row in C. cbn [j_ServiceRequestID] in C. destruct (j_ServiceRequestID j) as [id|].
    2:{ injection C as <-. done. }
    unfold claim_request in C. unfold_run C. case_run C. props.
    match goal with L : service_requests d !! id = Some _ |- _ => rewrite L end.
    split; [done|]. intros ? [= <-]. eauto. }
  unfold insert_job in I. unfold_run I. case_run I; props;
    exists row; split_and!; try done;
    match goal with X : jobs (claimed _ _ _) !! _ = None |- _ => revert X end;
    unfold claimed; destruct (j_ServiceRequestID j) as [id|]; try done;
    by destruct (service_requests d !! id).
Qed.

(** The shape of a status move. *)
Definition job_moved (d : job_db) (f : list JobAssignment → list JobAssignment) (old new : Job)
    (t : JobTransition) : job_db :=
  mkJobDB (service_requests d) (<[j_ID old := new]> (jobs d)) (f (job_assignments d))
    (job_transitions d ++ [t]).

Lemma write_run d1 x d' old new t (A : unit) :
  (update_job old new;; insert_job_transition t) d1 = (x, d') → x = inr A →
  isKnownStatus (j_Status new) = true ∧
  d' = with_job_transitions (λ l, l ++ [t]) (with_jobs (insert (j_ID old) new) d1).
Proof.
  intros R ->. unfold update_job, insert_job_transition in R. unfold_run R. case_run R. done.
Qed.

Lemma UpdateJobStatus_run now jobID to actor reason d x d' :
  UpdateJobStatus now jobID to actor reason d = (x, d') →
  (∃ e, x = inl e) ∧ d' = d ∨
  x = inr tt ∧ ∃ j, jobs d !! jobID = Some j ∧ isKnownStatus to = true ∧
    d' = job_moved d (λ l, l) j (set_job now to (j_TechnicianID j) j)
           (mkJobTransition jobID (j_TenantID j) (j_Status j) to actor reason now).
Proof.
  intros R. unfold UpdateJobStatus in R. destruct x as [e|[]].
  { apply transact_error in R as ->. left. eauto. }
  right. split; [done|]. apply transact_ok in R.
  apply bind_inv in R as [(? & _ & ?)|(d0 & d1 & G & R)]; [done|]. injection G as <- <-.
  apply bind_inv in R as [(? & _ & ?)|(j & d1 & G & R)]; [done|].
  apply from_option_inv in G as [-> [(j' & L & Eq)|[_ ?]]]; [|done]. injection Eq as <-.
  eapply write_run in R as [K ->]; [|done]. exists j. done.
Qed.

Definition new_assignment (now : time) (fresh : uuid) (j : Job) (jobID technicianID : uuid)
    (assignedBy : option uuid) : JobAssignment :=
  mkJobAssignment fresh jobID (j_TenantID j) technicianID assignedBy None "assigned" now.

Lemma AssignTechnician_run now fresh jobID tech by_ d x d' :
  AssignTechnician now fresh jobID tech by_ d = (x, d') →
  (∃ e, x = inl e) ∧ d' = d ∨
  x = inr tt ∧ ∃ j, jobs d !! jobID = Some j ∧
    d' = job_moved d (λ l, (retire jobID <$> l) ++ [new_assignment now fresh j jobID tech by_])
           j (set_job now StatusAssigned (Some tech) j)
           (mkJobTransition jobID (j_TenantID j) (j_Status j) "ASSIGNED" by_
              "technician assigned" now).
Proof.
  intros R. unfold AssignTechnician in R. destruct x as [e|[]].
  { apply transact_error in R as ->. left. eauto. }
  right. split; [done|]. apply transact_ok in R.
  apply bind_inv in R as [(? & _ & ?)|(d0 & d1 & G & R)]; [done|]. injection G as <- <-.
  apply bind_inv in R as [(? & _ & ?)|(j & d1 & G & R)]; [done|].
  apply from_option_inv in G as [-> [(j' & L & Eq)|[_ ?]]]; [|done]. injection Eq as <-.
  apply bind_inv in R as [(? & _ & ?)|([] & d1 & G & R)]; [done|]. injection G as <-.
  apply bind_inv in R as [(? & _ & ?)|([] & d2 & G & R)]; [done|].
  unfold insert_assignment in G. unfold_run G. case_run G.
  eapply write_run in R as [_ ->]; [|done]. exists j. done.
Qed.

Lemma AcceptAssignment_run now jobID tech d x d' :
  AcceptAssignment now jobID tech d = (x, d') →
  (∃ e, x = inl e) ∧ d' = d ∨
  x = inr tt ∧ ∃ j, jobs d !! jobID = Some j ∧
    existsb (accepts_assignment jobID tech) (job_assignments d) = true ∧
    d' = job_moved d (fmap (accept now jobID tech))
           j (set_job now StatusAccepted (j_TechnicianID j) j)
           (mkJobTransition jobID (j_TenantID j) (j_Status j) "ACCEPTED" (Some tech)
              "technician accepted assignment" now).
Proof.
  intros R. unfold AcceptAssignment in R. destruct x as [e|[]].
  { apply transact_error in R as ->. left. eauto. }
  right. split; [done|]. apply transact_ok in R.
  apply bind_inv in R as [(? & _ & ?)|(d0 & d1 & G & R)]; [done|]. injection G as <- <-.
  apply bind_inv in R as [(? & _ & ?)|(j & d1 & G & R)]; [done|].
  apply from_option_inv in G as [-> [(j' & L & Eq)|[_ ?]]]; [|done]. injection Eq as <-.
  apply bind_inv in R as [(? & _ & ?)|([] & d1 & G & R)]; [done|]. injection G as <-.
  apply bind_inv in R as [(? & _ & ?)|([] & d2 & G & R)]; [done|].
  apply ensure_inv in G as [-> [[Ex _]|[_ ?]]]; [|done].
  eapply write_run in R as [_ ->]; [|done]. exists j. done.
Qed.

End Runs.

(** ** The invariant *)

Definition trail (d : job_db) (id : uuid) : list JobTransition :=
  filter (λ t, jt_JobID t = id) (job_transitions d).

(** The rows lead from one status to another without a gap. *)
Fixpoint job_chain (s : Status) (log : list JobTransition) (s' : Status) : Prop :=
  match log with
  | [] => s = s'
  | t :: log => jt_FromStatus t = s ∧ job_chain (jt_ToStatus t) log s'
  end.

Lemma job_chain_app s log t s' :
  job_chain s log s' → jt_FromStatus t = s' → job_chain s (log ++ [t]) (jt_ToStatus t).
Proof. revert s. induction log; naive_solver. Qed.

(** The open assignments of a job. *)
Definition open (d : job_db) (id : uuid) : list JobAssignment :=
  List.filter (open_assignment id) (job_assignments d).

Record job_ok (d : job_db) : Prop := {
  jk_request : ∀ id r, service_requests d !! id = Some r → sr_ID r = id;
  jk_job : ∀ id j, jobs d !! id = Some j → j_ID j = id ∧ isKnownStatus (j_Status j) = true;
  jk_source : ∀ id j rid, jobs d !! id = Some j → j_ServiceRequestID j = Some rid →
    ∃ r, service_requests d !! rid = Some r ∧ sr_Status r = "converted" ∧
      sr_TenantID r = j_TenantID j ∧ sr_CustomerID r = j_CustomerID j;
  jk_once : ∀ id j id' j' rid, jobs d !! id = Some j → jobs d !! id' = Some j' →
    j_ServiceRequestID j = Some rid → j_ServiceRequestID j' = Some rid → id = id';
  jk_trail : ∀ id, match jobs d !! id with
    | Some j => job_chain "CREATED" (trail d id) (j_Status j)
    | None => trail d id = []
    end;
  jk_tenant : Forall (λ t, ∃ j, jobs d !! jt_JobID t = Some j ∧ jt_TenantID t = j_TenantID j)
    (job_transitions d);
  jk_assigned : Forall (λ a, ∃ j, jobs d !! ja_JobID a = Some j ∧ ja_TenantID a = j_TenantID j)
    (job_assignments d);
  jk_open : ∀ id, (length (open d id) ≤ 1)%nat;
}.

Lemma empty_job_db_ok : job_ok empty_job_db.
Proof.
  split; simpl; intros *; rewrite ?lookup_empty; try done; try constructor.
  unfold open. simpl. lia.
Qed.

(** ** The steps of the service *)

Inductive job_step `{Driver} (d : job_db) : job_db → Prop :=
  | jstep_request now fresh r x d' : CreateRequest now fresh r d = (x, d') → job_step d d'
  | jstep_job now fresh j x d' :
      j_Status j = StatusCreated →
      (∀ rid r, j_ServiceRequestID j = Some rid → service_requests d !! rid = Some r →
        sr_TenantID r = j_TenantID j ∧ sr_CustomerID r = j_CustomerID j) →
      CreateJob now fresh j d = (x, d') → job_step d d'
  | jstep_status now id to actor reason x d' :
      UpdateJobStatus now id to actor reason d = (x, d') → job_step d d'
  | jstep_assign now fresh id tech by_ x d' :
      AssignTechnician now fresh id tech by_ d = (x, d') → job_step d d'
  | jstep_accept now id tech x d' :
      AcceptAssignment now id tech d = (x, d') → job_step d d'.

Definition job_steps `{Driver} : job_db → job_db → Prop := rtc job_step.
Definition job_reachable `{Driver} (d : job_db) : Prop := job_steps empty_job_db d.

(** The steps of a call that runs by itself: a status moves only as the state machine
    allows from where it is, a technician is assigned only to a job that is DISPATCHING, and
    accepts only a job that may be ACCEPTED and is not another's. *)
Inductive lawful_step `{Driver} (d : job_db) : job_db → Prop :=
  | lstep_request now fresh r x d' : CreateRequest now fresh r d = (x, d') → lawful_step d d'
  | lstep_job now fresh j x d' :
      j_Status j = StatusCreated →
      (∀ rid r, j_ServiceRequestID j = Some rid → service_requests d !! rid = Some r →
        sr_TenantID r = j_TenantID j ∧ sr_CustomerID r = j_CustomerID j) →
      CreateJob now fresh j d = (x, d') → lawful_step d d'
  | lstep_status now id j to actor reason x d' :
      jobs d !! id = Some j → CanTransition (j_Status j) to = None →
      UpdateJobStatus now id to actor reason d = (x, d') → lawful_step d d'
  | lstep_assign now fresh id j tech by_ x d' :
      jobs d !! id = Some j → j_Status j = StatusDispatching →
      AssignTechnician now fresh id tech by_ d = (x, d') → lawful_step d d'
  | lstep_accept now id j tech x d' :
      jobs d !! id = Some j → CanTransition (j_Status j) StatusAccepted = None →
      j_TechnicianID j = None ∨ j_TechnicianID j = Some tech →
      AcceptAssignment now id tech d = (x, d') → lawful_step d d'.

Definition lawful_steps `{Driver} : job_db → job_db → Prop := rtc lawful_step.

Lemma lawful_job_step `{Driver} d d' : lawful_step d d' → job_step d d'.
Proof.
  intros []; [by eapply jstep_request|by eapply jstep_job|by eapply jstep_status|by eapply jstep_assign
    |by eapply jstep_accept].
Qed.

Lemma lawful_job_steps `{Driver} d d' : lawful_steps d d' → job_steps d d'.
Proof. intros S. induction S; [apply rtc_refl|]. eapply rtc_l; [by apply lawful_job_step|done]. Qed.

(** ** Preservation *)

Lemma request_inserted_ok d row :
  job_ok d → service_requests d !! sr_ID row = None →
  job_ok (with_requests (insert (sr_ID row) row) d).
Proof.
  intros [] N. constructor; simpl; try done.
  - intros id r [[<- <-]|[_ L]]%lookup_insert_Some; eauto.
  - intros id j rid L E. destruct (jk_source0 _ _ _ L E) as (r & Lr & ?).
    exists r. rewrite lookup_insert_ne; [done|congruence].
Qed.

Lemma claimed_requests now rid d id :
  service_requests (claimed now rid d) !! id =
  match service_requests d !! id with
  | Some r => Some (if decide (rid = Some id) then converted now r else r)
  | None => None
  end.
Proof.
  unfold claimed. destruct rid as [k|].
  - destruct (service_requests d !! k) as [r|] eqn:L; simpl.
    + destruct (decide (Some k = Some id)) as [[= ->]|Ne].
      * by rewrite lookup_insert_eq, L.
      * rewrite lookup_insert_ne by congruence. by destruct (_ !! id).
    + destruct (service_requests d !! id) eqn:L'; [|done].
      destruct (decide (Some k = Some id)); congruence.
  - by destruct (_ !! id).
Qed.

Lemma claimed_rest now rid d :
  jobs (claimed now rid d) = jobs d ∧ job_assignments (claimed now rid d) = job_assignments d ∧
  job_transitions (claimed now rid d) = job_transitions d.
Proof. unfold claimed. by destruct rid as [id|]; [destruct (service_requests d !! id)|]. Qed.

Lemma job_created_ok now d row rid :
  job_ok d → jobs d !! j_ID row = None → j_Status row = StatusCreated →
  j_ServiceRequestID row = rid →
  (∀ id, rid = Some id → ∃ r, service_requests d !! id = Some r ∧ sr_Status r = "received" ∧
     sr_TenantID r = j_TenantID row ∧ sr_CustomerID r = j_CustomerID row) →
  job_ok (with_jobs (insert (j_ID row) row) (claimed now rid d)).
Proof.
  intros [] N St <- Re. destruct (claimed_rest now (j_ServiceRequestID row) d) as (Ej & Ea & Et).
  constructor; simpl; rewrite ?Ej, ?Ea, ?Et.
  - intros id r. rewrite claimed_requests.
    destruct (service_requests d !! id) as [r0|] eqn:L; [|done]. intros [= <-].
    case_decide; simpl; eauto.
  - intros id j [[<- <-]|[_ L]]%lookup_insert_Some; [|eauto]. split; [done|by rewrite St].
  - intros id j k [[<- <-]|[_ L]]%lookup_insert_Some E; rewrite claimed_requests.
    + destruct (Re _ E) as (r & -> & _ & ? & ?). rewrite E, decide_True by done.
      eexists. split; [done|]. done.
    + destruct (jk_source0 _ _ _ L E) as (r & -> & ? & ? & ?). case_decide; eexists;
        (split; [done|]); done.
  - assert (∀ id j k, jobs d !! id = Some j → j_ServiceRequestID j = Some k →
              j_ServiceRequestID row ≠ Some k) as Fresh.
    { intros id j k L E E'. destruct (jk_source0 _ _ _ L E) as (r & Lr & S & _).
      destruct (Re _ E') as (r' & Lr' & S' & _). rewrite Lr in Lr'. injection Lr' as <-.
      rewrite S in S'. done. }
    intros id j id' j' k [[<- <-]|[_ L]]%lookup_insert_Some [[<- <-]|[_ L']]%lookup_insert_Some E E';
      [done|by destruct (Fresh _ _ _ L' E')|by destruct (Fresh _ _ _ L E)|eauto].
  - intros id. unfold trail. simpl. rewrite Et. change (filter _ _) with (trail d id).
    specialize (jk_trail0 id). destruct (decide (j_ID row = id)) as [<-|Ne].
    + rewrite lookup_insert_eq. rewrite N in jk_trail0. rewrite jk_trail0, St. done.
    + by rewrite lookup_insert_ne.
  - eapply list.Forall_impl; [exact jk_tenant0|]. intros t (j & L & E). exists j.
    rewrite lookup_insert_ne by (intros X; rewrite X in N; congruence). done.
  - eapply list.Forall_impl; [exact jk_assigned0|]. intros t (j & L & E). exists j.
    rewrite lookup_insert_ne by (intros X; rewrite X in N; congruence). done.
  - intros id. unfold open. simpl. rewrite Ea. apply jk_open0.
Qed.

(** Assignments of existing jobs, with the tenant of the job. *)
Definition tenanted (d : job_db) (a : JobAssignment) : Prop :=
  ∃ j, jobs d !! ja_JobID a = Some j ∧ ja_TenantID a = j_TenantID j.

Lemma job_moved_ok d f id old new t :
  job_ok d → jobs d !! id = Some old → j_ID new = j_ID old →
  j_ServiceRequestID new = j_ServiceRequestID old → j_TenantID new = j_TenantID old →
  j_CustomerID new = j_CustomerID old → isKnownStatus (j_Status new) = true →
  jt_JobID t = id → jt_FromStatus t = j_Status old → jt_ToStatus t = j_Status new →
  jt_TenantID t = j_TenantID old →
  Forall (tenanted d) (f (job_assignments d)) →
  (∀ id, (length (List.filter (open_assignment id) (f (job_assignments d))) ≤ 1)%nat) →
  job_ok (job_moved d f old new t).
Proof.
  intros [] L Id Sr Te Cu K It Fr To Tt As Op. destruct (jk_job0 _ _ L) as [Io _].
  rewrite <-Io in L, It. clear Io id. unfold job_moved. constructor; simpl; [done| | | | | | |done].
  - intros id j [[<- <-]|[_ L']]%lookup_insert_Some; [split; [congruence|done]|eauto].
  - intros id j rid [[<- <-]|[_ L']]%lookup_insert_Some E; [|eauto].
    rewrite Sr in E. destruct (jk_source0 _ _ _ L E) as (r & ? & ? & ? & ?).
    exists r. split_and!; congruence.
  - assert (∀ id j, <[j_ID old := new]> (jobs d) !! id = Some j →
              ∃ j', jobs d !! id = Some j' ∧ j_ServiceRequestID j' = j_ServiceRequestID j) as B.
    { intros id j [[<- <-]|[_ L']]%lookup_insert_Some; [|by exists j]. exists old.
      by rewrite Sr. }
    intros id j id' j' rid (j1 & L1 & E1)%B (j2 & L2 & E2)%B R1 R2.
    apply (jk_once0 _ _ _ _ rid L1 L2); congruence.
  - intros id. specialize (jk_trail0 id). unfold trail in *. simpl.
    rewrite list.filter_app, list.filter_cons, list.filter_nil.
    destruct (decide (jt_JobID t = id)) as [<-|Ne].
    + rewrite It in *. rewrite lookup_insert_eq, <-To. rewrite L in jk_trail0.
      by eapply job_chain_app.
    + rewrite lookup_insert_ne by congruence. by rewrite app_nil_r.
  - apply Forall_app. split.
    + eapply list.Forall_impl; [exact jk_tenant0|]. intros t' (j & L' & E).
      destruct (decide (jt_JobID t' = j_ID old)) as [E'|].
      * exists new. rewrite E', lookup_insert_eq. split; [done|]. congruence.
      * exists j. by rewrite lookup_insert_ne.
    + constructor; [|constructor]. exists new. rewrite It, lookup_insert_eq. split; congruence.
  - eapply list.Forall_impl; [exact As|]. intros a (j & L' & E).
    destruct (decide (ja_JobID a = j_ID old)) as [E'|].
    + exists new. rewrite E', lookup_insert_eq. split; [done|]. congruence.
    + exists j. by rewrite lookup_insert_ne.
Qed.

(** Retiring leaves no open assignment of the job, accepting opens none. *)
Lemma retire_open jobID id l :
  length (List.filter (open_assignment id) (retire jobID <$> l)) =
  if bool_decide (id = jobID) then 0%nat else length (List.filter (open_assignment id) l).
Proof.
  induction l as [|a l IH]; [by simpl; case_bool_decide|]. rewrite fmap_cons. cbn [List.filter].
  assert (open_assignment id (retire jobID a) =
          if bool_decide (id = jobID) then false else open_assignment id a) as ->.
  { unfold retire. destruct (open_assignment jobID a) eqn:O.
    - unfold open_assignment in *. simpl. rewrite andb_false_r. props.
      case_bool_decide as C; [done|]. rewrite bool_decide_eq_false_2 by congruence. done.
    - case_bool_decide as C; [by subst|done]. }
  destruct (bool_decide (id = jobID)); [done|]. destruct (open_assignment id a); cbn [length]; lia.
Qed.

Lemma accept_open now jobID tech id l :
  (length (List.filter (open_assignment id) (accept now jobID tech <$> l)) ≤
   length (List.filter (open_assignment id) l))%nat.
Proof.
  induction l as [|a l IH]; [done|]. rewrite fmap_cons. cbn [List.filter].
  assert (open_assignment id (accept now jobID tech a) = true → open_assignment id a = true) as I.
  { unfold accept. destruct (accepts_assignment jobID tech a); [|done].
    unfold open_assignment. simpl. by rewrite andb_false_r. }
  destruct (open_assignment id (accept now jobID tech a)), (open_assignment id a); cbn [length];
    first [lia|by discriminate (I eq_refl)].
Qed.

Lemma retire_fields jobID a :
  ja_JobID (retire jobID a) = ja_JobID a ∧ ja_TenantID (retire jobID a) = ja_TenantID a.
Proof. unfold retire. by destruct (open_assignment jobID a). Qed.
Lemma accept_fields now jobID tech a :
  ja_JobID (accept now jobID tech a) = ja_JobID a ∧
  ja_TenantID (accept now jobID tech a) = ja_TenantID a.
Proof. unfold accept. by destruct (accepts_assignment jobID tech a). Qed.

Lemma tenanted_fmap d (f : JobAssignment → JobAssignment) l :
  (∀ a, ja_JobID (f a) = ja_JobID a ∧ ja_TenantID (f a) = ja_TenantID a) →
  Forall (tenanted d) l → Forall (tenanted d) (f <$> l).
Proof.
  intros F T. apply Forall_fmap. eapply list.Forall_impl; [exact T|].
  intros a (j & L & E). destruct (F a) as [E1 E2]. exists j. simpl. by rewrite E1, E2.
Qed.

Lemma job_step_ok `{Driver} d d' : job_ok d → job_step d d' → job_ok d'.
Proof.
  intros Ok S. destruct S as [now fresh r x d' R|now fresh j x d' St Pa R|now id to actor reason x d' R
    |now fresh id tech by_ x d' R|now id tech x d' R].
  - apply CreateRequest_run in R as [[_ ->]|(row & _ & _ & _ & _ & _ & N & _ & ->)]; [done|].
    by apply request_inserted_ok.
  - apply CreateJob_run in R as [[_ ->]|(row & _ & _ & Er & Et & Ec & Es & N & _ & Re & ->)]; [done|].
    apply (job_created_ok now d row (j_ServiceRequestID j)); try done.
    + by rewrite Es, St.
    + intros id E. destruct (Re _ E) as (r & L & S). destruct (Pa _ _ E L).
      exists r. split_and!; congruence.
  - apply UpdateJobStatus_run in R as [[_ ->]|(_ & j & L & K & ->)]; [done|].
    eapply job_moved_ok; try done; apply Ok.
  - apply AssignTechnician_run in R as [[_ ->]|(_ & j & L & ->)]; [done|].
    eapply job_moved_ok; try done.
    + apply Forall_app. split.
      * apply tenanted_fmap; [apply retire_fields|apply Ok].
      * constructor; [|constructor]. by exists j.
    + intros k. rewrite filter_app, length_app, retire_open.
      pose proof (jk_open _ Ok k) as O. unfold open in O. simpl.
      unfold open_assignment at 2. simpl. rewrite andb_true_r.
      repeat case_bool_decide; simpl; try congruence; lia.
  - apply AcceptAssignment_run in R as [[_ ->]|(_ & j & L & _ & ->)]; [done|].
    eapply job_moved_ok; try done.
    + apply tenanted_fmap; [intros; apply accept_fields|apply Ok].
    + intros k. etrans; [apply accept_open|apply Ok].
Qed.

Lemma job_steps_ok `{Driver} d d' : job_ok d → job_steps d d' → job_ok d'.
Proof. intros Ok S. induction S; [done|]. eauto using job_step_ok. Qed.

Lemma job_reachable_ok `{Driver} d : job_reachable d → job_ok d.
Proof. apply job_steps_ok, empty_job_db_ok. Qed.
