(* ===== verification/JobProps.v ===== *)
(** * JobProps: the behaviour of the jobs service *)

From S2P Require Import Prelude Hoare Text Platform Sql PayMachine PayRefine JobMachine Jobs.
From S2P Require Import JobInvariant.

Open Scope Z_scope.

(** What the comments of [ReadScope] promise: which jobs a principal sees. *)
Definition sees_job (scope : ReadScope) (j : Job) : bool :=
  Operator scope ||
  match rs_TenantID scope with
  | Some t => bool_decide (j_TenantID j = Some t)
  | None => negb (bool_decide (ViewerID scope = uuid_nil)) &&
            (bool_decide (j_CustomerID j = ViewerID scope) ||
             bool_decide (j_TechnicianID j = Some (ViewerID scope)))
  end.

Definition sees_request (scope : ReadScope) (r : ServiceRequest) : bool :=
  Operator scope ||
  match rs_TenantID scope with
  | Some t => bool_decide (sr_TenantID r = Some t)
  | None => negb (bool_decide (ViewerID scope = uuid_nil)) &&
            bool_decide (sr_CustomerID r = ViewerID scope)
  end.

Section Reads.
Context `{Driver}.

Lemma job_clause id scope (row : Job) :
  j_ID row = id →
  let '(pred, args) := jobScopePredicate scope 2 in
  eval None (VUuid id :: args) (job_env row) (and_pred (CEq "id" 1) pred) = sees_job scope row.
Proof.
  intros <-. unfold jobScopePredicate, sees_job.
  assert (∀ args c, eval None (VUuid (j_ID row) :: args) (job_env row) (CAnd (CEq "id" 1) c)
            = eval None (VUuid (j_ID row) :: args) (job_env row) c) as Q.
  { intros args c. cbn [eval]. change (sql_eq (job_env row "id") _) with
      (sql_eq (VUuid (j_ID row)) (VUuid (j_ID row))). by rewrite sql_eq_refl. }
  destruct (Operator scope); cbn [and_pred orb]; [by apply (sql_eq_refl (VUuid _))|].
  destruct (rs_TenantID scope) as [t|]; cbn [and_pred].
  - rewrite Q. apply sql_eq_uuid.
  - destruct (negb (bool_decide (ViewerID scope = 0%N))); cbn [and_pred]; rewrite Q; [|done].
    cbn [eval andb]. f_equal; [apply sql_eq_VUuid|apply sql_eq_uuid].
Qed.

Lemma GetJob_inv id scope d r d' :
  job_ok d → GetJob id scope d = (r, d') →
  d' = d ∧ match r with
  | inr j => jobs d !! id = Some j ∧ j_ID j = id ∧ sees_job scope j = true
  | inl e => e = ErrDB ∨ e = ErrJobNotFound
  end.
Proof.
  intros Ok R. unfold GetJob, send_query in R.
  pose proof (λ row, job_clause id scope row) as C.
  destruct (jobScopePredicate scope 2) as [pred args].
  unfold_run R. case_run R; auto.
  match goal with L : jobs _ !! _ = Some _ |- _ => destruct (jk_job _ Ok _ _ L) as [Id _] end.
  rewrite C in * by done. done.
Qed.

Lemma GetRequest_inv id scope d r d' :
  job_ok d → GetRequest id scope d = (r, d') →
  d' = d ∧ match r with
  | inr j => service_requests d !! id = Some j ∧ sr_ID j = id
  | inl e => e = ErrDB ∨ e = ErrRequestNotFound
  end.
Proof.
  intros Ok R. unfold GetRequest, send_query in R.
  destruct (requestScopePredicate scope 2) as [pred args].
  unfold_run R. case_run R; auto.
  match goal with L : service_requests _ !! _ = Some _ |- _ =>
    pose proof (jk_request _ Ok _ _ L) end. done.
Qed.

(** ** The primitive calls of the service *)

Context `{UuidText} (publisher : option (Event JobPayload → bool)).

Lemma on_db_inv {A} (c : M job_db JobError A) w r w' :
  on_db c w = (r, w') → ∃ d', c (jw_db w) = (r, d') ∧ w' = mkJobWorld d' (jw_events w).
Proof.
  unfold on_db, zoom. destruct (c (jw_db w)) as [x d'] eqn:E. intros R.
  injection R as <- <-. eauto.
Qed.

Lemma check_transition_inv from to w r w' :
  check_transition from to w = (r, w') →
  w' = w ∧ (r = inr tt ∧ CanTransition from to = None ∨
            r = inl ErrConflict ∧ CanTransition from to ≠ None).
Proof. unfold check_transition. destruct (CanTransition from to); intros [= <- <-]; auto. Qed.

(** The event of a successful call: appended, or refused by the broker. *)
Definition announced (ty : string) (agg : uuid) (tenant : string) (w w' : job_world)
    (r : JobError + unit) : Prop :=
  r = inr tt ∧ publisher = None ∧ jw_events w' = jw_events w ∨
  r = inl PublishFailed ∧ jw_events w' = jw_events w ∨
  r = inr tt ∧ ∃ e, jw_events w' = jw_events w ++ [("jobs", e)] ∧ EventType e = ty ∧
    AggregateID e = uuid_string agg ∧ TenantID e = tenant.

Lemma publish_job_inv c fresh ty agg actor tenant p w r w' :
  ty ≠ "" → publish_job publisher c fresh ty agg actor tenant p w = (r, w') →
  jw_db w' = jw_db w ∧ announced ty agg tenant w w' r.
Proof.
  unfold publish_job, announced. intros N R. destruct publisher as [broker|].
  2:{ injection R as <- <-. auto. }
  rewrite NewEvent_uuid in R by done. cbn [from_option mret M_ret] in R.
  unfold mbind, M_bind in R. cbn [mret M_ret] in R. destruct (broker _).
  - injection R as <- <-. simpl. split; [done|]. right. right. split; [done|]. by eexists.
  - injection R as <- <-. auto.
Qed.

(** ** The handlers *)

(** The two halves of a transition: the guard on a read, the write. *)
Definition transition_guard (jobID : uuid) (to : Status) (scope : ReadScope)
    : M job_world JobError Job :=
  job ← on_db (GetJob jobID scope);
  check_transition (j_Status job) to;;
  mret job.

Definition transition_commit (c : Ctx) (fresh : uuid) (jobID : uuid) (to : Status)
    (actorID : option uuid) (reason : string) (job : Job) : M job_world JobError unit :=
  on_db (UpdateJobStatus (ctx_now c) jobID to actorID reason);;
  publish_job publisher c fresh EventJobStatusChanged jobID actorID
    (job_tenantString (j_TenantID job))
    (JobStatusChangedPayload jobID (j_Status job) to reason actorID).

Lemma Transition_halves c fresh id to actor reason scope w :
  Transition publisher c fresh id to actor reason scope w =
  (job ← transition_guard id to scope; transition_commit c fresh id to actor reason job) w.
Proof.
  unfold Transition, transition_guard, transition_commit, mbind, M_bind.
  destruct (on_db _ w) as [[?|j] w1]; [done|].
  by destruct (check_transition _ _ w1) as [[?|[]] w2].
Qed.

(** The write of a transition on a job that exists. *)
Lemma transition_commit_run c fresh id to actor reason job d row ev r w' :
  jobs d !! id = Some row → isKnownStatus to = true →
  transition_commit c fresh id to actor reason job (mkJobWorld d ev) = (r, w') →
  jw_db w' = job_moved d (λ l, l) row (set_job (ctx_now c) to (j_TechnicianID row) row)
    (mkJobTransition id (j_TenantID row) (j_Status row) to actor reason (ctx_now c)) ∧
  announced "job.status.changed.v1" id (job_tenantString (j_TenantID job)) (mkJobWorld d ev) w' r.
Proof.
  intros L K R. unfold transition_commit in R.
  assert (UpdateJobStatus (ctx_now c) id to actor reason d = (inr tt,
    job_moved d (λ l, l) row (set_job (ctx_now c) to (j_TechnicianID row) row)
      (mkJobTransition id (j_TenantID row) (j_Status row) to actor reason (ctx_now c)))) as U.
  { destruct (UpdateJobStatus _ _ _ _ _ d) as [x d'] eqn:U.
    pose proof U as U'. apply UpdateJobStatus_run in U as [[(e & ->) ->]|(-> & j & L' & _ & ->)].
    - exfalso. unfold UpdateJobStatus, update_job, insert_job_transition in U'.
      unfold_run U'. rewrite L in U'. simpl in U'. rewrite K in U'. simpl in U'.
      rewrite bool_decide_eq_false_2 in U'; [done|].
      destruct (decide (j_ID row = id)) as [<-|]; [by rewrite lookup_insert_eq|].
      by rewrite lookup_insert_ne, L.
    - rewrite L in L'. by injection L' as <-. }
  apply bind_inv in R as [(e & R & _)|([] & w1 & R0 & R)].
  - apply on_db_inv in R as (d' & R & _). simpl in R. rewrite U in R. done.
  - apply on_db_inv in R0 as (d' & R0 & ->). simpl in R0. rewrite U in R0.
    injection R0 as <-. by apply publish_job_inv in R as [Db An].
Qed.

(** A status request does exactly what the state machine says, for the jobs
    its principal sees: a job that is not visible is not found; an illegal move is
    a conflict and changes nothing; a legal one moves that job only, appends the
    one audit row that records it, under the tenant of the job, and announces it. *)
Theorem transition_exact c fresh id to actor reason scope w r w'
    (R : job_reachable (jw_db w))
    (E : Transition publisher c fresh id to actor reason scope w = (r, w')) :
  match (GetJob id scope (jw_db w)).1 with
  | inl e => r = inl e ∧ w' = w
  | inr job =>
      jobs (jw_db w) !! id = Some job ∧ sees_job scope job = true ∧
      match CanTransition (j_Status job) to with
      | Some _ => r = inl ErrConflict ∧ w' = w
      | None =>
          jw_db w' = mkJobDB (service_requests (jw_db w))
            (<[id := set_job (ctx_now c) to (j_TechnicianID job) job]> (jobs (jw_db w)))
            (job_assignments (jw_db w))
            (job_transitions (jw_db w) ++ [mkJobTransition id (j_TenantID job) (j_Status job) to
               actor reason (ctx_now c)]) ∧
          announced "job.status.changed.v1" id (job_tenantString (j_TenantID job)) w w' r
      end
  end.
Proof.
  apply job_reachable_ok in R as Ok. rewrite Transition_halves in E.
  destruct (GetJob id scope (jw_db w)) as [x d'] eqn:G.
  pose proof (GetJob_inv _ _ _ _ _ Ok G) as [-> X].
  unfold transition_guard in E. unfold on_db, zoom in E. unfold mbind, M_bind in E.
  rewrite G in E. replace (mkJobWorld (jw_db w) (jw_events w)) with w in E by by destruct w.
  simpl. destruct x as [e|job]; [by injection E as <- <-|].
  destruct X as (L & Id & Vi). split; [done|]. split; [done|].
  unfold check_transition in E. destruct (CanTransition (j_Status job) to) eqn:CT;
    [by injection E as <- <-|]. cbn [mret M_ret] in E.
  destruct w as [d ev]. simpl in *.
  apply (transition_commit_run _ _ _ _ _ _ _ _ job) in E as [Db An]; [|done|].
  - split; [|done]. rewrite Db. unfold job_moved. by rewrite Id.
  - apply CanTransition_None in CT as (targets & Gt & I). apply map_get_elem in Gt.
    assert (Forall (λ e, Forall (λ t, isKnownStatus t = true) e.2) transitions) as F.
    { repeat (constructor; [repeat constructor|]). constructor. }
    rewrite list.Forall_forall in F. pose proof (F _ Gt) as F'. simpl in F'.
    rewrite list.Forall_forall in F'. by apply F'.
Qed.

(** *** Every handler takes lawful steps *)

Lemma lawful_ok d d' : job_ok d → lawful_step d d' → job_ok d'.
Proof. intros Ok S. by eapply job_step_ok, lawful_job_step. Qed.

Abbreviation job_triple := (triple jw_db job_ok lawful_step) (only parsing).

Lemma job_bind {A B} (P : job_db → Prop) (c : M job_world JobError A) Q
    (f : A → M job_world JobError B) R :
  job_triple P c Q → (∀ a, job_triple (Q a) (f a) R) → job_triple P (c ≫= f) R.
Proof. apply (triple_bind jw_db job_ok lawful_step lawful_ok). Qed.

Lemma job_call {A} (P : job_db → Prop) (c : M job_db JobError A) (Q : A → job_db → Prop) :
  (∀ d r d', job_ok d → P d → c d = (r, d') →
     (d' = d ∨ lawful_step d d') ∧ match r with inr a => Q a d' | inl _ => True end) →
  job_triple P (on_db c) Q.
Proof. intros T. by apply triple_store. Qed.

(** A call that only takes a step. *)
Lemma job_step_call {A} (P : job_db → Prop) (c : M job_db JobError A) :
  (∀ d r d', P d → c d = (r, d') → lawful_step d d') → job_triple P (on_db c) (λ _ _, True).
Proof.
  intros S. apply job_call. intros d r d' _ Pd R. split; [right; by eapply S|]. by destruct r.
Qed.

Lemma GetJob_triple (P : job_db → Prop) id scope :
  job_triple P (on_db (GetJob id scope)) (λ j d, P d ∧ jobs d !! id = Some j).
Proof.
  apply job_call. intros d r d' Ok Pd [-> G]%GetJob_inv; [|done]. split; [by left|].
  destruct r; [done|]. by destruct G.
Qed.

Lemma job_check_triple (P : job_db → Prop) from to :
  job_triple P (check_transition from to) (λ _ d, P d ∧ CanTransition from to = None).
Proof.
  apply triple_pure. intros w r w' _ Pw [-> C]%check_transition_inv. split; [done|].
  by destruct C as [[-> C]|[-> _]].
Qed.

Lemma job_publish_triple (P : job_db → Prop) c fresh ty agg actor tenant p : ty ≠ "" →
  job_triple P (publish_job publisher c fresh ty agg actor tenant p) (λ _ d, P d).
Proof.
  intros N. apply triple_pure. intros w r w' _ Pw [-> _]%publish_job_inv; [|done]. by destruct r.
Qed.

(** A job in a status. *)
Definition job_in (id : uuid) (status : Status) (d : job_db) : Prop :=
  ∃ j, jobs d !! id = Some j ∧ j_Status j = status.

Lemma Transition_triple c fresh id to actor reason scope :
  job_triple (λ _, True) (Transition publisher c fresh id to actor reason scope) (λ _, job_in id to).
Proof.
  unfold Transition. eapply job_bind; [apply GetJob_triple|intros job].
  eapply job_bind; [apply job_check_triple|intros []].
  eapply (job_bind _ _ (λ _, job_in id to)); [|intros []; by apply job_publish_triple].
  apply job_call. intros d r d' Ok [[_ L] C] R. split; [right; by eapply lstep_status|].
  apply UpdateJobStatus_run in R as [[(e & ->) _]|(-> & j & L' & _ & ->)]; [done|].
  destruct (jk_job _ Ok _ _ L') as [<- _]. eexists. cbn. by rewrite lookup_insert_eq.
Qed.

Lemma dispatch_triple c job id tech by_ :
  job_triple (job_in id StatusDispatching) (dispatch publisher c job id tech by_) (λ _ _, True).
Proof.
  unfold dispatch. eapply (job_bind _ _ (λ _ _, True)); [|intros []; by apply job_publish_triple].
  apply job_step_call. intros d r d' (j & L & S) R. by eapply lstep_assign.
Qed.

Lemma AssignTechnician_triple c id tech by_ scope :
  job_triple (λ _, True) (Jobs_AssignTechnician publisher c id tech by_ scope) (λ _ _, True).
Proof.
  unfold Jobs_AssignTechnician. eapply job_bind; [apply GetJob_triple|intros job].
  destruct (String.eqb_spec (j_Status job) StatusDispatching) as [S|_].
  { eapply triple_weaken; [apply dispatch_triple|intros d [_ L]; by exists job|done]. }
  destruct (String.eqb _ StatusAssigned);
    [|eapply triple_weaken; [apply (job_check_triple (λ _, True))|done|done]].
  eapply job_bind; [apply triple_ensure|intros []].
  eapply (job_bind _ _ (λ _, job_in id StatusDispatching)); [|intros []; apply dispatch_triple].
  eapply triple_weaken; [apply Transition_triple|done|by intros []].
Qed.

Lemma Accept_triple c id tech scope :
  job_triple (λ _, True) (Accept publisher c id tech scope) (λ _ _, True).
Proof.
  unfold Accept. eapply job_bind; [apply GetJob_triple|intros job].
  eapply job_bind; [apply job_check_triple|intros []]. eapply job_bind; [apply triple_ensure|intros []].
  eapply (job_bind _ _ (λ _ _, True)); [|intros []; by apply job_publish_triple].
  apply job_step_call. intros d r d' [[[_ L] C] T] R. eapply lstep_accept; [exact L|exact C| |exact R].
  destruct (j_TechnicianID job) as [t|]; [right|by left]. by apply bool_decide_eq_true in T as ->.
Qed.

Lemma CreateRequest_triple c q :
  job_triple (λ _, True) (Jobs_CreateRequest publisher c q) (λ _ _, True).
Proof.
  unfold Jobs_CreateRequest. eapply job_bind; [apply triple_option|intros r].
  do 3 (eapply job_bind; [apply triple_ensure|intros []]).
  eapply job_bind; [apply job_step_call; intros; by eapply lstep_request|intros row].
  eapply job_bind; [by apply job_publish_triple|intros []]. by apply triple_ret.
Qed.

Lemma CreateJobFromRequest_triple c id scope :
  job_triple (λ _, True) (CreateJobFromRequest publisher c id scope) (λ _ _, True).
Proof.
  unfold CreateJobFromRequest.
  eapply (job_bind _ _ (λ q d, service_requests d !! sr_ID q = Some q)).
  { apply job_call. intros d r d' Ok _ [-> G]%GetRequest_inv; [|done]. split; [by left|].
    destruct r as [|q]; [done|]. by destruct G as [L ->]. }
  intros q. eapply job_bind; [apply triple_ensure|intros []]. eapply job_bind.
  { apply job_step_call. intros d r d' [L _] R. eapply lstep_job; [| |exact R]; [done|]. simpl.
    intros rid q0 [= <-] L'. rewrite L in L'. by injection L' as <-. }
  intros j. eapply job_bind; [by apply job_publish_triple|intros []]. by apply triple_ret.
Qed.

(** Every handler of the service, successful or not, leads by lawful steps from the
    database it finds to the one it leaves: so the invariants of reachable databases hold
    of everything the running service writes. *)
Theorem job_service_refines_steps w (R : job_reachable (jw_db w)) :
  (∀ c q, lawful_steps (jw_db w) (jw_db (Jobs_CreateRequest publisher c q w).2)) ∧
  (∀ c id scope, lawful_steps (jw_db w) (jw_db (CreateJobFromRequest publisher c id scope w).2)) ∧
  (∀ c fresh id to actor reason scope,
     lawful_steps (jw_db w) (jw_db (Transition publisher c fresh id to actor reason scope w).2)) ∧
  (∀ c id tech by_ scope,
     lawful_steps (jw_db w) (jw_db (Jobs_AssignTechnician publisher c id tech by_ scope w).2)) ∧
  (∀ c id tech scope, lawful_steps (jw_db w) (jw_db (Accept publisher c id tech scope w).2)).
Proof.
  apply job_reachable_ok in R as Ok.
  split_and!; intros; (eapply (triple_steps jw_db job_ok lawful_step);
    [(apply CreateRequest_triple || apply CreateJobFromRequest_triple || apply Transition_triple ||
      apply AssignTechnician_triple || apply Accept_triple)|exact Ok|done]).
Qed.

(** ** The database *)

(** A service request becomes at most one job, under every interleaving of the
    conversions: the request of a job exists, is marked converted and no other job
    names it; the job belongs to the request's tenant and customer. *)
Theorem one_job_per_request d (R : job_reachable d) id j rid
    (L : jobs d !! id = Some j) (F : j_ServiceRequestID j = Some rid) :
  (∃ r, service_requests d !! rid = Some r ∧ sr_Status r = "converted" ∧
     sr_TenantID r = j_TenantID j ∧ sr_CustomerID r = j_CustomerID j) ∧
  ∀ id' j', jobs d !! id' = Some j' → j_ServiceRequestID j' = Some rid → id' = id.
Proof.
  apply job_reachable_ok in R. split; [by eapply jk_source|].
  intros id' j' L' F'. by eapply (jk_once _ R).
Qed.

(** C39. The records of a job agree in every reachable database, however the calls
    interleave: its audit trail leads from CREATED to its current status without a
    gap; trail and assignments carry the tenant of the job; at most one assignment
    is open. An unknown job has no records. *)
Theorem job_records_agree d (R : job_reachable d) id :
  match jobs d !! id with
  | Some j => isKnownStatus (j_Status j) = true ∧
      job_chain "CREATED" (trail d id) (j_Status j) ∧
      Forall (λ t, jt_TenantID t = j_TenantID j) (trail d id) ∧
      Forall (λ a, ja_JobID a = id → ja_TenantID a = j_TenantID j) (job_assignments d) ∧
      (length (open d id) ≤ 1)%nat
  | None => trail d id = [] ∧ Forall (λ a, ja_JobID a ≠ id) (job_assignments d)
  end.
Proof.
  apply job_reachable_ok in R. pose proof (jk_trail _ R id) as T.
  pose proof (jk_tenant _ R) as Te. pose proof (jk_assigned _ R) as As.
  rewrite list.Forall_forall in Te. rewrite list.Forall_forall in As.
  destruct (jobs d !! id) as [j|] eqn:L.
  - destruct (jk_job _ R _ _ L) as [_ K]. split; [done|]. split; [done|]. split; [|split].
    + apply list.Forall_forall. intros t [It I]%list_elem_of_filter.
      destruct (Te _ I) as (j' & L' & E). congruence.
    + apply list.Forall_forall. intros a I Ia. destruct (As _ I) as (j' & L' & E). congruence.
    + apply (jk_open _ R).
  - split; [done|]. apply list.Forall_forall. intros a I Ia.
    destruct (As _ I) as (j' & L' & E). congruence.
Qed.


(** ** What the code does not prevent *)

(** The guard of a transition and its write are separate store calls and the
    write does not check the status again: when a cancellation lands between the
    two, the cancelled job, which no move may leave, is put back to TRIAGING, and
    the audit trail records the illegal move. *)
Theorem stale_transition_revives_cancelled id w job scope scope' c c' fresh fresh' actor actor'
    reason reason' r1 w1 r2 w2 (R : job_reachable (jw_db w))
    (G1 : transition_guard id "CANCELLED" scope w = (inr job, w))
    (G2 : transition_guard id "TRIAGING" scope' w = (inr job, w))
    (C1 : transition_commit c fresh id "CANCELLED" actor reason job w = (r1, w1))
    (C2 : transition_commit c' fresh' id "TRIAGING" actor' reason' job w1 = (r2, w2)) :
  ∃ cancelled revived t, jobs (jw_db w1) !! id = Some cancelled ∧
    j_Status cancelled = "CANCELLED" ∧ IsTerminal (j_Status cancelled) = true ∧
    jobs (jw_db w2) !! id = Some revived ∧ j_Status revived = "TRIAGING" ∧
    trail (jw_db w2) id = trail (jw_db w1) id ++ [t] ∧
    jt_FromStatus t = "CANCELLED" ∧ jt_ToStatus t = "TRIAGING" ∧
    CanTransition "CANCELLED" "TRIAGING" ≠ None.
Proof.
  apply job_reachable_ok in R as Ok.
  apply bind_inv in G1 as [(? & _ & ?)|(job' & w' & G1 & K)]; [done|].
  apply on_db_inv in G1 as (d' & G1 & ->). apply GetJob_inv in G1 as [-> (L & Id & _)]; [|done].
  apply bind_inv in K as [(? & _ & ?)|([] & w' & _ & Eq)]; [done|]. injection Eq as Eq _. subst job'.
  destruct w as [d ev]. apply (transition_commit_run _ _ _ _ _ _ _ _ job) in C1 as [D1 _]; [|done|done].
  destruct w1 as [d1 ev1]. simpl in *.
  set (cancelled := set_job _ _ _ job) in D1.
  assert (jobs d1 !! id = Some cancelled) as L1 by (rewrite D1; simpl; by rewrite Id, lookup_insert_eq).
  apply (transition_commit_run _ _ _ _ _ _ _ _ cancelled) in C2 as [D2 _]; [|done|done].
  exists cancelled. eexists. eexists. split; [done|]. split; [done|]. split; [done|].
  rewrite D2. unfold job_moved, trail. simpl. rewrite Id, lookup_insert_eq.
  split; [done|]. split; [done|].
  rewrite list.filter_app, list.filter_cons, decide_True, list.filter_nil by done. done.
Qed.

(** The audit trail can be written but not read: the query selects eight
    columns and scans them into seven variables, so whoever asks gets an empty
    trail or an error, and always an error for a job that has ever moved when it is
    an operator who asks. *)
Theorem job_trail_unreadable id scope d r d' (E : ListTransitions id scope d = (r, d')) :
  d' = d ∧ (r = inr [] ∨ r = inl ErrDB) ∧
  (Operator scope = true → trail d id ≠ [] → r = inl ErrDB).
Proof.
  unfold ListTransitions in E.
  destruct (transitions_where id scope) as [where_ args] eqn:Wh.
  apply bind_inv in E as [(e & E & ->)|([] & d1 & E0 & E)].
  { apply ensure_inv in E as [-> [[_ ?]|[_ [= ->]]]]; auto. done. }
  apply ensure_inv in E0 as [-> _].
  apply bind_inv in E as [(e & E & _)|(d1 & d2 & E0 & E)]; [done|]. injection E0 as <- <-.
  apply from_option_inv in E as [-> E]. split; [done|].
  set (rows := List.filter _ _) in E.
  assert (∀ l, mapM scanTransition l = match l with [] => Some [] | _ => None end) as Sc.
  { intros [|t l]; [done|]. simpl. done. }
  rewrite Sc in E. destruct (merge_sort transition_order rows) as [|t l] eqn:M; simpl in E.
  - destruct E as [(a & Eq & ->)|[? _]]; [injection Eq as <-|done]. split; [auto|].
    intros Op Tr. exfalso. apply Tr. unfold trail.
    pose proof (merge_sort_Permutation transition_order rows) as Pm. rewrite M in Pm.
    apply Permutation_nil_l in Pm.
    unfold transitions_where in Wh. rewrite Op in Wh. injection Wh as <- <-.
    destruct (filter _ _) as [|t ts] eqn:F; [done|]. exfalso.
    assert (t ∈ filter (λ t, jt_JobID t = id) (job_transitions d)) as [It I]%list_elem_of_filter
      by (rewrite F; by left).
    apply list_elem_of_lookup in I as [i I].
    assert ((i, t) ∈ rows) as Ir.
    { unfold rows. rewrite list_elem_of_In, filter_In, <-list_elem_of_In. split.
      - apply elem_of_lookup_imap. eauto.
      - cbn [snd eval]. change (job_transition_env t "job_id") with (VUuid (jt_JobID t)).
        rewrite It. by apply (sql_eq_refl (VUuid id)). }
    rewrite <-Pm in Ir. by apply elem_of_nil in Ir.
  - destruct E as [(? & ? & _)|[_ ->]]; [done|]. auto.
Qed.

End Reads.

(** Under pgx a personal principal (a customer or a technician without a
    tenant claim) is locked out of jobs: the visibility clause has one placeholder
    and two arguments, so every read of a job, and with it every transition,
    assignment, acceptance and listing, is refused whatever the database holds. *)
Theorem personal_principals_locked_out `{UuidText} `{!RowOrder Job} publisher scope
    (NO : Operator scope = false) (NT : rs_TenantID scope = None) (V : ViewerID scope ≠ uuid_nil) w :
  (∀ id, Jobs_GetJob (H:=pgx) id scope w = (inl ErrDB, w)) ∧
  (∀ c fresh id to actor reason,
     Transition (H:=pgx) publisher c fresh id to actor reason scope w = (inl ErrDB, w)) ∧
  (∀ c id tech by_,
     Jobs_AssignTechnician (H:=pgx) publisher c id tech by_ scope w = (inl ErrDB, w)) ∧
  (∀ c id tech, Accept (H:=pgx) publisher c id tech scope w = (inl ErrDB, w)) ∧
  (∀ technician limit offset,
     Jobs (H:=pgx) (mkJobFilter None technician) limit offset scope w = (inl ErrDB, w)).
Proof.
  assert (∀ id, on_db (GetJob (H:=pgx) id scope) w = (inl ErrDB, w)) as G.
  { intros id. unfold on_db, zoom, GetJob, jobScopePredicate. rewrite NO, NT.
    rewrite bool_decide_eq_false_2 by done. cbn [negb].
    unfold send_query. rewrite (pgx_refuses _ _ 3); [by destruct w|simpl; lia|].
    simpl. rewrite !elem_of_cons, elem_of_nil. lia. }
  split_and!; intros.
  - apply G.
  - unfold Transition, mbind, M_bind. by rewrite G.
  - unfold Jobs_AssignTechnician, mbind, M_bind. by rewrite G.
  - unfold Accept, mbind, M_bind. by rewrite G.
  - unfold Jobs, mbind, M_bind. cbn [jf_Status ensure mret M_ret].
    unfold on_db, zoom, ListJobs, jobs_where, jobScopePredicate. rewrite NO, NT.
    rewrite bool_decide_eq_false_2 by done. cbn [negb].
    destruct technician as [t|]; unfold send_query;
      [rewrite (pgx_refuses _ _ 3)|rewrite (pgx_refuses _ _ 2)];
      try (simpl; lia); try (by destruct w);
      simpl; rewrite !elem_of_cons, elem_of_nil; lia.
Qed.

(** ** A concrete run

    A request of customer 8 in tenant 7 becomes job 20; the driver and the
    identifiers are those of the payments run. *)

Definition broker : option (Event JobPayload → bool) := Some (λ _, true).
Definition operator : ReadScope := mkReadScope 9%N None true.
Definition customer : ReadScope := mkReadScope 8%N None false.

Definition a_request : ServiceRequest :=
  mkServiceRequest uuid_nil (Some 7%N) 8%N None "engine noise" None None "Ngong Road" ""
    0 0.

Definition requested : job_world :=
  (Jobs_CreateRequest broker (at_ 10 10) (Some a_request) (mkJobWorld empty_job_db [])).2.
Definition converted_world : job_world :=
  (CreateJobFromRequest broker (at_ 20 20) 10%N operator requested).2.
Definition triaged :=
  Transition broker (at_ 30 30) 31%N 20%N "TRIAGING" (Some 9%N) "call back" operator converted_world.

Definition the_job (status : Status) (updated : time) : Job :=
  mkJob 20%N (Some 10%N) (Some 7%N) 8%N None status "engine noise" None (20 * second) updated.

Lemma job_call_reachable {A} (c : M job_world JobError A) Q w :
  triple jw_db job_ok lawful_step (λ _, True) c Q → job_reachable (jw_db w) → job_reachable (jw_db (c w).2).
Proof.
  intros T R. unfold job_reachable, job_steps. etrans; [exact R|].
  apply lawful_job_steps. by apply (triple_steps jw_db job_ok lawful_step _ c _ w T); [apply job_reachable_ok|].
Qed.

Lemma requested_reachable : job_reachable (jw_db requested).
Proof.
  apply rtc_once. eapply (jstep_request _ (10 * second) 10%N
    (mkServiceRequest uuid_nil (Some 7%N) 8%N None "engine noise" None None "Ngong Road"
       "received" 0 0)).
  vm_compute. reflexivity.
Qed.

Lemma converted_reachable : job_reachable (jw_db converted_world).
Proof.
  unfold converted_world. eapply job_call_reachable; [apply CreateJobFromRequest_triple|].
  apply requested_reachable.
Qed.

Lemma triaged_reachable : job_reachable (jw_db triaged.2).
Proof. unfold triaged. eapply job_call_reachable; [apply Transition_triple|apply converted_reachable]. Qed.

Lemma triaged_run :
  Transition broker (at_ 30 30) 31%N 20%N "TRIAGING" (Some 9%N) "call back" operator converted_world =
  (inr tt, triaged.2).
Proof. vm_compute. reflexivity. Qed.

Lemma created_job : GetJob 20%N operator (jw_db converted_world) =
  (inr (the_job "CREATED" (20 * second)), jw_db converted_world).
Proof. vm_compute. reflexivity. Qed.

Lemma triaged_job : jobs (jw_db triaged.2) !! 20%N = Some (the_job "TRIAGING" (30 * second)).
Proof. vm_compute. reflexivity. Qed.

Lemma transition_exact_witness :
  sees_job operator (the_job "CREATED" (20 * second)) = true ∧
  jobs (jw_db triaged.2) !! 20%N =
    Some (set_job (30 * second) "TRIAGING" None (the_job "CREATED" (20 * second))).
Proof.
  pose proof (transition_exact broker (at_ 30 30) 31%N 20%N "TRIAGING" (Some 9%N) "call back"
    operator converted_world (inr tt) triaged.2 converted_reachable triaged_run) as T.
  rewrite created_job in T. destruct T as (_ & Vi & Db & _). split; [exact Vi|].
  rewrite Db. apply lookup_insert_eq.
Defined.

Lemma job_service_refines_steps_witness :
  lawful_steps (jw_db triaged.2) (jw_db (Accept broker (at_ 40 40) 20%N 5%N operator triaged.2).2).
Proof. apply (job_service_refines_steps broker triaged.2 triaged_reachable). Defined.

Lemma one_job_per_request_witness :
  ∃ r, service_requests (jw_db triaged.2) !! 10%N = Some r ∧ sr_Status r = "converted" ∧
    sr_TenantID r = Some 7%N ∧ sr_CustomerID r = 8%N.
Proof.
  apply (one_job_per_request (jw_db triaged.2) triaged_reachable 20%N _ 10%N triaged_job eq_refl).
Defined.

Lemma job_records_agree_witness :
  job_chain "CREATED" (trail (jw_db triaged.2) 20%N) "TRIAGING".
Proof.
  pose proof (job_records_agree (jw_db triaged.2) triaged_reachable 20%N) as T.
  rewrite triaged_job in T. apply T.
Defined.

(** The cancellation that lands between the guard and the write. *)
Definition cancelling :=
  transition_commit broker (at_ 35 35) 36%N 20%N "CANCELLED" (Some 8%N) "no longer needed"
    (the_job "CREATED" (20 * second)) converted_world.
Definition reviving :=
  transition_commit broker (at_ 36 37) 38%N 20%N "TRIAGING" (Some 9%N) "call back"
    (the_job "CREATED" (20 * second)) cancelling.2.

Lemma cancelling_run :
  transition_commit broker (at_ 35 35) 36%N 20%N "CANCELLED" (Some 8%N) "no longer needed"
    (the_job "CREATED" (20 * second)) converted_world = (inr tt, cancelling.2).
Proof. vm_compute. reflexivity. Qed.
Lemma reviving_run :
  transition_commit broker (at_ 36 37) 38%N 20%N "TRIAGING" (Some 9%N) "call back"
    (the_job "CREATED" (20 * second)) cancelling.2 = (inr tt, reviving.2).
Proof. vm_compute. reflexivity. Qed.
Lemma both_guards_pass :
  transition_guard 20%N "CANCELLED" customer converted_world =
    (inr (the_job "CREATED" (20 * second)), converted_world) ∧
  transition_guard 20%N "TRIAGING" operator converted_world =
    (inr (the_job "CREATED" (20 * second)), converted_world).
Proof. split; vm_compute; reflexivity. Qed.

Lemma stale_transition_revives_cancelled_witness :
  ∃ cancelled revived t, jobs (jw_db cancelling.2) !! 20%N = Some cancelled ∧
    j_Status cancelled = "CANCELLED" ∧ IsTerminal (j_Status cancelled) = true ∧
    jobs (jw_db reviving.2) !! 20%N = Some revived ∧ j_Status revived = "TRIAGING" ∧
    trail (jw_db reviving.2) 20%N = trail (jw_db cancelling.2) 20%N ++ [t] ∧
    jt_FromStatus t = "CANCELLED" ∧ jt_ToStatus t = "TRIAGING" ∧
    CanTransition "CANCELLED" "TRIAGING" ≠ None.
Proof.
  exact (stale_transition_revives_cancelled broker 20%N converted_world
    (the_job "CREATED" (20 * second)) customer operator (at_ 35 35) (at_ 36 37) 36%N 38%N
    (Some 8%N) (Some 9%N) "no longer needed" "call back" (inr tt) cancelling.2 (inr tt) reviving.2
    converted_reachable (proj1 both_guards_pass) (proj2 both_guards_pass) cancelling_run
    reviving_run).
Defined.

Lemma unreadable_run :
  ListTransitions 20%N operator (jw_db triaged.2) = (inl ErrDB, jw_db triaged.2).
Proof. vm_compute. reflexivity. Qed.

Definition refused : JobError + list JobTransition := inl ErrDB.

Lemma job_trail_unreadable_witness :
  jw_db triaged.2 = jw_db triaged.2 ∧ (refused = inr [] ∨ refused = inl ErrDB) ∧
  (Operator operator = true → trail (jw_db triaged.2) 20%N ≠ [] → refused = inl ErrDB).
Proof.
  exact (job_trail_unreadable 20%N operator (jw_db triaged.2) (inl ErrDB) (jw_db triaged.2)
    unreadable_run).
Defined.

#[local] Existing Instance insertion_order.

Lemma personal_principals_locked_out_witness :
  Accept (H:=pgx) broker (at_ 40 40) 20%N 8%N customer triaged.2 = (inl ErrDB, triaged.2).
Proof.
  apply (personal_principals_locked_out broker customer eq_refl eq_refl ltac:(done) triaged.2).
Defined.
