(* ===== verification/InspModels.v ===== *)
(** * InspModels: the data of the inspections domain

    [backend/inspections/statemachine.go], [models.go], [templates.go] and
    [scope.go]: the linear session lifecycle, the records, the template registry
    the code owns and the data boundary. *)

From S2P Require Import Prelude Sql PayMachine PayModels.

Open Scope Z_scope.

(** ** The session lifecycle ([statemachine.go]) *)

Definition StatusCreated : string := "CREATED".
Definition StatusInProgress : string := "IN_PROGRESS".
Definition StatusSubmitted : string := "SUBMITTED".
Definition StatusReportAvailable : string := "REPORT_AVAILABLE".

Definition transitions : transition_map :=
  [(StatusCreated, [StatusInProgress]);
   (StatusInProgress, [StatusSubmitted]);
   (StatusSubmitted, [StatusReportAvailable])].

Definition allStatuses : list string :=
  [StatusCreated; StatusInProgress; StatusSubmitted; StatusReportAvailable].

(** Sorted, [None] for an unknown or terminal status. *)
Definition legalTargets (s : string) : option (list string) :=
  merge_sort string_le <$> map_get transitions s.

Definition CanTransition (from to : string) : option TransitionError :=
  match map_get transitions from with
  | None => Some (NoOutgoing from to allStatuses)
  | Some targets =>
      if is_target targets to then None
      else Some (Illegal from to (default [] (legalTargets from)))
  end.

Definition IsTerminal (s : string) : bool := String.eqb s StatusReportAvailable.

Definition isKnownStatus (status : string) : bool := is_target allStatuses status.

(** ** Enumerations ([models.go]) *)

Definition ClassMotorcycle : string := "MOTORCYCLE".
Definition ClassSedan : string := "SEDAN".
Definition ClassSUV : string := "SUV".
Definition ClassPickup : string := "PICKUP".
Definition ClassTruck : string := "TRUCK".
Definition ClassBus : string := "BUS".

Definition allVehicleClasses : list string :=
  [ClassMotorcycle; ClassSedan; ClassSUV; ClassPickup; ClassTruck; ClassBus].

Definition IsVehicleClass (class : string) : bool := is_target allVehicleClasses class.

Definition ResultPass : string := "PASS".
Definition ResultFail : string := "FAIL".
Definition ResultAttention : string := "ATTENTION".
Definition ResultNotApplicable : string := "NOT_APPLICABLE".

Definition AllFindingResults : list string :=
  [ResultPass; ResultFail; ResultAttention; ResultNotApplicable].

Definition SeverityGreen : string := "GREEN".
Definition SeverityAmber : string := "AMBER".
Definition SeverityRed : string := "RED".

Definition AllSeverities : list string := [SeverityGreen; SeverityAmber; SeverityRed].

Definition EvidenceKindPhoto : string := "PHOTO".
Definition EvidenceKindReading : string := "READING".
Definition EvidenceKindDocument : string := "DOCUMENT".

Definition AllEvidenceKinds : list string :=
  [EvidenceKindPhoto; EvidenceKindReading; EvidenceKindDocument].

Definition IsEvidenceKind (kind : string) : bool := is_target AllEvidenceKinds kind.

(** ** Templates *)

Record TemplateItem := mkTemplateItem {
  ti_Key : string;
  ti_Label : string;
  ti_Required : bool;
}.

Record Template := mkTemplate {
  tm_ID : uuid;
  tm_VehicleClass : string;
  tm_Name : string;
  tm_Version : Z;
  tm_Items : list TemplateItem;
  tm_Active : bool;
}.

(** [Template.Item]: the first item with the key. *)
Fixpoint find_item (items : list TemplateItem) (key : string) : option TemplateItem :=
  match items with
  | [] => None
  | item :: items => if String.eqb (ti_Key item) key then Some item else find_item items key
  end.

Definition Item (t : Template) (key : string) : option TemplateItem := find_item (tm_Items t) key.

Definition RequiredItems (t : Template) : list string :=
  map ti_Key (List.filter ti_Required (tm_Items t)).

(** ** Rows *)

Record Session := mkSession {
  ss_ID : uuid;
  ss_TenantID : option uuid;
  ss_VehicleID : option uuid;
  ss_JobID : option uuid;
  ss_CustomerID : option uuid;
  ss_VehicleClass : string;
  ss_TemplateID : uuid;
  ss_TemplateName : string;
  ss_TemplateVersion : Z;
  ss_InspectorID : uuid;
  ss_Status : string;
  ss_StartedAt : option time;
  ss_SubmittedAt : option time;
  ss_ReportedAt : option time;
  ss_CreatedAt : time;
  ss_UpdatedAt : time;
}.

Record Finding := mkFinding {
  fi_ID : uuid;
  fi_SessionID : uuid;
  fi_ItemKey : string;
  fi_Result : string;
  fi_Severity : string;
  fi_Notes : string;
  fi_RecordedBy : option uuid;
  fi_CreatedAt : time;
}.

Record Evidence := mkEvidence {
  ev_ID : uuid;
  ev_SessionID : uuid;
  ev_FindingID : option uuid;
  ev_Kind : string;
  ev_ContentHash : string;
  ev_CapturedAt : time;
  ev_CapturedBy : option uuid;
  ev_Uploaded : bool;
  ev_Notes : string;
  ev_CreatedAt : time;
}.

Record Report := mkReport {
  rp_ID : uuid;
  rp_SessionID : uuid;
  rp_Version : Z;
  rp_VehicleID : option uuid;
  rp_JobID : option uuid;
  rp_InspectorID : uuid;
  rp_TemplateID : uuid;
  rp_TemplateName : string;
  rp_TemplateVersion : Z;
  rp_FindingsSnapshot : string;
  rp_EvidenceSnapshot : string;
  rp_FindingsCount : Z;
  rp_EvidenceCount : Z;
  rp_ContentHash : string;
  rp_IssuedBy : option uuid;
  rp_Notes : string;
  rp_CreatedAt : time;
}.

Record ReportVerification := mkReportVerification {
  rv_ReportID : uuid;
  rv_SessionID : uuid;
  rv_Version : Z;
  rv_Verified : bool;
  rv_HashMatch : bool;
  rv_FindingsMatch : bool;
  rv_EvidenceMatch : bool;
  rv_TemplateMatch : bool;
  rv_FindingsChecked : nat;
  rv_EvidenceChecked : nat;
  rv_StoredHash : string;
  rv_RecomputedHash : string;
  rv_CheckedAt : time;
}.

(** The identifier of an audit row is its position. *)
Record SessionTransition := mkSessionTransition {
  st_SessionID : uuid;
  st_FromStatus : string;
  st_ToStatus : string;
  st_ActorID : option uuid;
  st_Reason : string;
  st_CreatedAt : time;
}.

(** ** The template registry ([templates.go])

    [uuid.NewSHA1(templateNamespace, data)] belongs to the google/uuid package:
    [NewSHA1] is the function of the data, in the namespace of the domain. *)
Class UuidV5 := { NewSHA1 : string → uuid }.

(** The literals of [buildRegistry]. *)
Definition templates : list Template :=
  [mkTemplate uuid_nil ClassMotorcycle "Motivra Standard Motorcycle Inspection" 1
      [mkTemplateItem "brakes_front" "Front brake pads and disc condition" true;
       mkTemplateItem "brakes_rear" "Rear brake and drum condition" true;
       mkTemplateItem "tyres" "Tyre tread, pressure and sidewall condition" true;
       mkTemplateItem "chain_sprockets" "Drive chain tension and sprocket wear" true;
       mkTemplateItem "lights_electrical" "Headlamp, brake light, indicators and horn" true;
       mkTemplateItem "frame_suspension" "Frame, forks and rear suspension" true;
       mkTemplateItem "exhaust_emissions" "Exhaust condition and visible smoke" false;
       mkTemplateItem "odometer_consistency" "Odometer reading consistent with wear" true] false;
   mkTemplate uuid_nil ClassSedan "Motivra Standard Sedan Inspection" 1
      [mkTemplateItem "brakes" "Brake pads, discs and fluid condition" true;
       mkTemplateItem "tyres" "Tyre tread depth, pressure and spare" true;
       mkTemplateItem "suspension_steering" "Suspension bushings and steering play" true;
       mkTemplateItem "lights_electrical" "Exterior lights, horn and battery" true;
       mkTemplateItem "engine_leaks" "Engine bay: leaks, belts and fluids" true;
       mkTemplateItem "transmission" "Gearbox and clutch / automatic behaviour" true;
       mkTemplateItem "body_panel_condition" "Body panels, doors and glass" false;
       mkTemplateItem "odometer_consistency" "Odometer reading consistent with wear" true] false;
   mkTemplate uuid_nil ClassSUV "Motivra Standard SUV Inspection" 1
      [mkTemplateItem "brakes" "Brake pads, discs and fluid condition" true;
       mkTemplateItem "tyres" "Tyre tread depth, pressure and spare" true;
       mkTemplateItem "suspension_steering" "Suspension, steering play and 4x4 engagement" true;
       mkTemplateItem "lights_electrical" "Exterior lights, horn and battery" true;
       mkTemplateItem "engine_leaks" "Engine bay: leaks, belts and fluids" true;
       mkTemplateItem "transmission" "Gearbox and transfer case behaviour" true;
       mkTemplateItem "chassis_underbody" "Underbody, chassis rails and mounting points" true;
       mkTemplateItem "odometer_consistency" "Odometer reading consistent with wear" true] false;
   mkTemplate uuid_nil ClassPickup "Motivra Standard Pickup Inspection" 1
      [mkTemplateItem "brakes" "Brake pads, discs and load-sensing valve" true;
       mkTemplateItem "tyres" "Tyre tread depth, pressure and spare" true;
       mkTemplateItem "suspension_steering" "Suspension, leaf springs and steering play" true;
       mkTemplateItem "lights_electrical" "Exterior lights, horn and battery" true;
       mkTemplateItem "engine_leaks" "Engine bay: leaks, belts and fluids" true;
       mkTemplateItem "transmission" "Gearbox and differential behaviour" true;
       mkTemplateItem "load_bed_tailgate" "Load bed, tailgate and towing gear" false;
       mkTemplateItem "odometer_consistency" "Odometer reading consistent with wear" true] false;
   mkTemplate uuid_nil ClassTruck "Motivra Standard Truck Inspection" 1
      [mkTemplateItem "brakes_air" "Air brake system, tanks and governor" true;
       mkTemplateItem "tyres" "Tyre tread depth, pressure and spare" true;
       mkTemplateItem "suspension_steering" "Suspension, axles and steering play" true;
       mkTemplateItem "lights_electrical" "Exterior lights, horn and battery isolation" true;
       mkTemplateItem "engine_leaks" "Engine bay: leaks, belts and fluids" true;
       mkTemplateItem "transmission" "Gearbox, retarder and PTO behaviour" true;
       mkTemplateItem "chassis_underbody" "Chassis, fifth wheel / body mounting" true;
       mkTemplateItem "cargo_restraint" "Cargo restraint and load security" false;
       mkTemplateItem "odometer_consistency" "Odometer / tachograph consistency" true] false;
   mkTemplate uuid_nil ClassBus "Motivra Standard Bus Inspection" 1
      [mkTemplateItem "brakes_air" "Air brake system, tanks and governor" true;
       mkTemplateItem "tyres" "Tyre tread depth, pressure and spare" true;
       mkTemplateItem "suspension_steering" "Suspension, axles and steering play" true;
       mkTemplateItem "lights_electrical" "Exterior lights, horn and battery isolation" true;
       mkTemplateItem "engine_leaks" "Engine bay: leaks, belts and fluids" true;
       mkTemplateItem "transmission" "Gearbox and retarder behaviour" true;
       mkTemplateItem "passenger_safety" "Emergency exits, handrails and seating" true;
       mkTemplateItem "odometer_consistency" "Odometer reading consistent with wear" true] false].

Definition TemplateID `{UuidV5} (name : string) (version : Z) : uuid :=
  NewSHA1 (name +:+ "@v" +:+ pretty version).

Definition buildRegistry `{UuidV5} : list Template :=
  map (λ t, mkTemplate (TemplateID (tm_Name t) (tm_Version t)) (tm_VehicleClass t) (tm_Name t)
              (tm_Version t) (tm_Items t) true) templates.

Definition registry `{UuidV5} : list Template := buildRegistry.

Definition TemplateByID `{UuidV5} (id : uuid) : option Template :=
  List.find (λ t, bool_decide (tm_ID t = id)) registry.

Definition ActiveTemplateForClass `{UuidV5} (class : string) : option Template :=
  List.find (λ t, String.eqb (tm_VehicleClass t) class && tm_Active t) registry.

(** ** The data boundary ([scope.go])

    [Scope] and its constructors repeat those of the payments package field by
    field, so the model shares the type and [Unrestricted] with [PayModels]; the
    columns differ. *)
Definition RoleCustomer : string := "CUSTOMER".
Definition RoleTechnician : string := "TECHNICIAN".
Definition RoleGarage : string := "GARAGE".
Definition RoleDispatcher : string := "DISPATCHER".
Definition RoleAdmin : string := "ADMIN".
Definition RoleSuperAdmin : string := "SUPER_ADMIN".

Definition StaffRoles : list string :=
  [RoleTechnician; RoleGarage; RoleDispatcher; RoleAdmin; RoleSuperAdmin].
Definition OperatorRoles : list string := [RoleAdmin; RoleSuperAdmin].

Definition IsStaffRole (role : string) : bool := is_target StaffRoles role.
Definition IsOperatorRole (role : string) : bool := is_target OperatorRoles role.

Definition scopePredicate (scope : Scope) (tenantCol inspectorCol customerCol : string)
    (nextParam : nat) : option cond * list value :=
  if Unrestricted scope then (None, [])
  else match s_TenantID scope, s_PrincipalID scope with
  | Some tenant, _ => (Some (CEq tenantCol nextParam), [VUuid tenant])
  | None, Some principal =>
      (Some (COr (CEq inspectorCol nextParam) (CEq customerCol nextParam)),
       [VUuid principal; VUuid principal])
  | None, None => (Some CFalse, [])
  end.

Definition ScopeFromClaims `{UuidText} (claims : Claims) : ClaimsError + Scope :=
  if IsOperatorRole (c_Role claims) then inr UnrestrictedScope
  else if negb (String.eqb (c_TenantID claims) "") then
    match uuid_parse (c_TenantID claims) with
    | None => inl ErrTenantClaim
    | Some tenantID => inr (mkScope (Some tenantID) None false)
    end
  else
    match uuid_parse (c_UserID claims) with
    | None => inl ErrSubjectClaim
    | Some principalID => inr (mkScope None (Some principalID) false)
    end.

(** What the comments of [Scope] promise: the sessions a principal sees. *)
Definition sees_session (scope : Scope) (s : Session) : bool :=
  if Unrestricted scope then true
  else match s_TenantID scope, s_PrincipalID scope with
  | Some tenant, _ => bool_decide (ss_TenantID s = Some tenant)
  | None, Some principal =>
      bool_decide (ss_InspectorID s = principal) ||
      bool_decide (ss_CustomerID s = Some principal)
  | None, None => false
  end.

(** A scope without a tenant that is not the control plane. *)
Definition personal_scope (scope : Scope) : bool :=
  match s_TenantID scope, s_PrincipalID scope with None, Some _ => true | _, _ => false end.
