(* ===== verification/InspReport.v ===== *)
(** * InspReport: report assembly and verification ([backend/inspections/report.go])

    Everything here is pure, as in the source: the latest finding of each item,
    the readiness of a session, the canonical text that is hashed, the frozen
    snapshots and their verification. *)

From Stdlib Require Import Ascii.
From S2P Require Import Prelude Text Sha256 Wire PayMachine InspModels.

Open Scope Z_scope.

Definition reportHashVersion : string := "motivra-inspections-report-v1".
Definition ReportVersionInitial : Z := 1.

Definition hashOfNotes (notes : string) : string := sha256Hex notes.

(** ** The latest finding of every item *)

Section Report.
Context `{UuidText}.

Definition uuidOrDash (id : option uuid) : string :=
  match id with
  | Some u => if bool_decide (u = uuid_nil) then "-" else uuid_string u
  | None => "-"
  end.

(** [f] replaces [cur]: it is newer, or as old with the greater identifier. *)
Definition supersedes (f cur : Finding) : bool :=
  (fi_CreatedAt cur <? fi_CreatedAt f) ||
  (fi_CreatedAt f =? fi_CreatedAt cur) &&
  String.ltb (uuid_string (fi_ID cur)) (uuid_string (fi_ID f)).

Definition update_latest (latest : gmap string Finding) (f : Finding) : gmap string Finding :=
  match latest !! fi_ItemKey f with
  | Some cur => if supersedes f cur then <[fi_ItemKey f := f]> latest else latest
  | None => <[fi_ItemKey f := f]> latest
  end.

(** The order of the output: by item, then by the text of the identifier. *)
Definition canonical_order (a b : Finding) : Prop :=
  fi_ItemKey a ≠ fi_ItemKey b ∧ string_le (fi_ItemKey a) (fi_ItemKey b) ∨
  fi_ItemKey a = fi_ItemKey b ∧ string_le (uuid_string (fi_ID a)) (uuid_string (fi_ID b)).
#[global] Instance canonical_order_dec a b : Decision (canonical_order a b).
Proof. unfold canonical_order. apply _. Defined.

Definition SelectLatestFindings (findings : list Finding) : list Finding :=
  let latest := fold_left update_latest findings ∅ in
  let out := List.filter (λ f, match latest !! fi_ItemKey f with
                               | Some sel => bool_decide (fi_ID sel = fi_ID f)
                               | None => false
                               end) findings in
  merge_sort canonical_order out.

(** ** The canonical text *)

Definition submissionTimestamp (s : Session) : string :=
  RFC3339Nano (default zero_time (ss_SubmittedAt s)).

Definition finding_line (f : Finding) : string :=
  "finding=" +:+ join "," [uuid_string (fi_ID f); fi_ItemKey f; fi_Result f; fi_Severity f;
                           hashOfNotes (fi_Notes f); uuidOrDash (fi_RecordedBy f)].

Definition evidence_line (e : Evidence) : string :=
  "evidence=" +:+ join "," [uuid_string (ev_ID e); ev_Kind e; ev_ContentHash e;
                            uuidOrDash (ev_FindingID e); if ev_Uploaded e then "1" else "0"].

Definition session_lines (s : Session) (version : Z) : list string :=
  [reportHashVersion;
   "session_id=" +:+ uuid_string (ss_ID s);
   "version=" +:+ pretty version;
   "vehicle_id=" +:+ uuidOrDash (ss_VehicleID s);
   "job_id=" +:+ uuidOrDash (ss_JobID s);
   "template_id=" +:+ uuid_string (ss_TemplateID s);
   "template_name=" +:+ ss_TemplateName s;
   "template_version=" +:+ pretty (ss_TemplateVersion s);
   "inspector_id=" +:+ uuid_string (ss_InspectorID s);
   "submitted_at=" +:+ submissionTimestamp s].

Definition counts_line (n m : nat) : string :=
  "findings=" +:+ pretty n +:+ ",evidence=" +:+ pretty m.

Definition report_lines (s : Session) (findings : list Finding) (evidence : list Evidence)
    (version : Z) : list string :=
  session_lines s version ++ map finding_line findings ++ map evidence_line evidence ++
  [counts_line (length findings) (length evidence)].

(** The character that ends a line. *)
Definition newline : ascii := byte 10%N.

Definition BuildReportInput (s : Session) (findings : list Finding) (evidence : list Evidence)
    (version : Z) : string := join newline (report_lines s findings evidence version).

Definition HashReportInput (input : string) : string := sha256Hex input.

(** ** Snapshots *)

Definition json_uuid (u : uuid) : string := json_string (uuid_string u).

(** [omitempty] leaves a nil pointer out. *)
Definition json_optional (key : string) (u : option uuid) : list (string * string) :=
  match u with Some u => [(key, json_uuid u)] | None => [] end.

Definition findingSnapshot (f : Finding) : option string :=
  created ← json_time (fi_CreatedAt f);
  Some (json_object ([("id", json_uuid (fi_ID f)); ("item_key", json_string (fi_ItemKey f));
                      ("result", json_string (fi_Result f));
                      ("severity", json_string (fi_Severity f));
                      ("notes", json_string (fi_Notes f))] ++
                     json_optional "recorded_by" (fi_RecordedBy f) ++
                     [("created_at", created)])).

Definition evidenceSnapshot (e : Evidence) : option string :=
  captured ← json_time (ev_CapturedAt e);
  Some (json_object ([("id", json_uuid (ev_ID e))] ++
                     json_optional "finding_id" (ev_FindingID e) ++
                     [("kind", json_string (ev_Kind e));
                      ("content_hash", json_string (ev_ContentHash e));
                      ("captured_at", captured); ("uploaded", json_bool (ev_Uploaded e))])).

(** [None]: [json.Marshal] failed. *)
Definition marshalFindingsSnapshot (findings : list Finding) : option string :=
  json_array <$> mapM findingSnapshot findings.
Definition marshalEvidenceSnapshot (evidence : list Evidence) : option string :=
  json_array <$> mapM evidenceSnapshot evidence.

(** ** Readiness *)

Inductive Issue :=
  | UnknownItem (key : string)
  | UncoveredItem (key : string)
  | RedWithoutEvidence (key : string) (finding : uuid)
  | NoEvidence.

Definition links_to (id : uuid) (e : Evidence) : bool :=
  match ev_FindingID e with
  | Some u => negb (bool_decide (u = uuid_nil)) && bool_decide (u = id)
  | None => false
  end.

Definition covers (t : Template) (selected : list Finding) (key : string) : bool :=
  existsb (λ f, match Item t (fi_ItemKey f) with
                | Some _ => String.eqb (fi_ItemKey f) key
                | None => false
                end) selected.

(** The issues, in the order the error names them; none: the session is ready. *)
Definition CheckReportReadiness (t : Template) (findings : list Finding)
    (evidence : list Evidence) : list Issue :=
  let selected := SelectLatestFindings findings in
  omap (λ f, match Item t (fi_ItemKey f) with
             | Some _ => None
             | None => Some (UnknownItem (fi_ItemKey f))
             end) selected ++
  omap (λ key, if covers t selected key then None else Some (UncoveredItem key))
    (RequiredItems t) ++
  omap (λ f, if String.eqb (fi_Severity f) SeverityRed &&
                negb (existsb (links_to (fi_ID f)) evidence)
             then Some (RedWithoutEvidence (fi_ItemKey f) (fi_ID f)) else None) selected ++
  match evidence with [] => [NoEvidence] | _ => [] end.

(** ** Verification *)

(** [subtleEqual]: the lengths agree and no byte differs. *)
Fixpoint differing_bits (a b : string) : N :=
  match a, b with
  | String c a, String d b => N.lor (N.lxor (byte_of c) (byte_of d)) (differing_bits a b)
  | _, _ => 0%N
  end.
Definition subtleEqual (a b : string) : bool :=
  if negb (blen a =? blen b)%nat then false else (differing_bits a b =? 0)%N.

(** [err == nil && string(live) == string(frozen)] *)
Definition snapshot_matches (live : option string) (frozen : string) : bool :=
  match live with Some text => String.eqb text frozen | None => false end.

Definition VerifyReport (now : time) (t : Template) (s : Session) (findings : list Finding)
    (evidence : list Evidence) (report : Report) : ReportVerification :=
  let templateMatch := bool_decide (tm_ID t = ss_TemplateID s) &&
                       String.eqb (tm_Name t) (ss_TemplateName s) &&
                       (tm_Version t =? ss_TemplateVersion s) in
  let findingsMatch :=
    snapshot_matches (marshalFindingsSnapshot (SelectLatestFindings findings))
      (rp_FindingsSnapshot report) in
  let evidenceMatch :=
    snapshot_matches (marshalEvidenceSnapshot evidence) (rp_EvidenceSnapshot report) in
  let recomputed := HashReportInput
    (BuildReportInput s (SelectLatestFindings findings) evidence (rp_Version report)) in
  let hashMatch := subtleEqual recomputed (rp_ContentHash report) in
  mkReportVerification (rp_ID report) (rp_SessionID report) (rp_Version report)
    (hashMatch && findingsMatch && evidenceMatch && templateMatch)
    hashMatch findingsMatch evidenceMatch templateMatch (length findings) (length evidence)
    (rp_ContentHash report) recomputed now.

End Report.

#[global] Arguments SelectLatestFindings : simpl never.
#[global] Arguments BuildReportInput : simpl never.
#[global] Arguments HashReportInput : simpl never.
#[global] Arguments CheckReportReadiness : simpl never.
#[global] Arguments VerifyReport : simpl never.
#[global] Arguments marshalFindingsSnapshot : simpl never.
#[global] Arguments marshalEvidenceSnapshot : simpl never.
#[global] Arguments hashOfNotes : simpl never.
