(* ===== verification/InspReportProps.v ===== *)
(** * InspReportProps: what report assembly and verification mean

    The selection against its specification, readiness as a condition on the rows,
    and the canonical text: it determines everything the report certifies. *)

From Stdlib Require Import Ascii.
From S2P Require Import Prelude Text Sha256 Money Wire PayMachine InspModels InspReport.

Open Scope Z_scope.

(** ** The byte order of strings *)

Lemma string_compare_trans : ∀ a b c r,
  String.compare a b = r → String.compare b c = r → String.compare a c = r.
Proof.
  induction a as [|x a IH]; intros [|y b] [|z c] r; simpl; try congruence.
  unfold Ascii.compare.
  destruct (N.compare_spec (N_of_ascii x) (N_of_ascii y)),
    (N.compare_spec (N_of_ascii y) (N_of_ascii z)),
    (N.compare_spec (N_of_ascii x) (N_of_ascii z)); intros; simplify_eq; try lia; try done;
    eauto; congruence.
Qed.

Lemma string_compare_refl a : String.compare a a = Eq.
Proof.
  induction a as [|x a IH]; [done|]. simpl. unfold Ascii.compare. by rewrite N.compare_refl.
Qed.

Lemma ltb_lt a b : String.ltb a b = true ↔ String.compare a b = Lt.
Proof. unfold String.ltb. destruct (String.compare a b); naive_solver. Qed.

Lemma ltb_trans a b c :
  String.ltb a b = true → String.ltb b c = true → String.ltb a c = true.
Proof. rewrite !ltb_lt. apply string_compare_trans. Qed.

Lemma ltb_total a b : a ≠ b → String.ltb a b = true ∨ String.ltb b a = true.
Proof.
  intros N. rewrite !ltb_lt, (String.compare_antisym b a).
  destruct (String.compare a b) eqn:E; [|by left|by right].
  by apply String.compare_eq_iff in E.
Qed.

Lemma ltb_irrefl a : String.ltb a a = false.
Proof. unfold String.ltb. by rewrite string_compare_refl. Qed.

#[export] Instance string_le_total : Total string_le.
Proof. intros a b. unfold string_le. apply String.leb_total. Qed.
#[export] Instance string_le_antisym : AntiSymm (=) string_le.
Proof. intros a b. unfold string_le. apply String.leb_antisym. Qed.
#[export] Instance string_le_trans : Transitive string_le.
Proof.
  intros a b c. unfold string_le. intros A B.
  assert (∀ x y, String.leb x y = true ↔ x = y ∨ String.ltb x y = true) as L.
  { intros x y. unfold String.leb, String.ltb.
    destruct (String.compare x y) eqn:E; [apply String.compare_eq_iff in E| |]; try naive_solver.
    split; [done|]. intros [->|?]; [|done]. by rewrite string_compare_refl in E. }
  apply L in A as [->|A]; [done|]. apply L in B as [->|B]; [apply L; auto|].
  apply L. right. eauto using ltb_trans.
Qed.

(** What the google/uuid package documents of the text of an identifier: it is
    made of lower case hexadecimal digits and dashes, and is more than a dash. *)
Definition uuid_char (c : ascii) : bool := lower_hex c || Ascii.eqb c "-".
Class UuidPlain `{UuidText} := {
  uuid_string_plain : ∀ u, forallb uuid_char (chars (uuid_string u)) = true;
  uuid_string_not_dash : ∀ u, uuid_string u ≠ "-";
}.

Section Props.
Context `{UuidText}.

(** ** The selection *)

Lemma supersedes_trans a b c : supersedes a b = true → supersedes b c = true →
  supersedes a c = true.
Proof.
  unfold supersedes. rewrite !orb_true_iff, !andb_true_iff, !Z.ltb_lt, !Z.eqb_eq.
  intros [A|[A A']] [B|[B B']]; try (left; lia).
  right. split; [lia|]. eauto using ltb_trans.
Qed.

Lemma supersedes_total a b : fi_ID a ≠ fi_ID b → supersedes a b = true ∨ supersedes b a = true.
Proof.
  unfold supersedes. rewrite !orb_true_iff, !andb_true_iff, !Z.ltb_lt, !Z.eqb_eq. intros N.
  assert (uuid_string (fi_ID a) ≠ uuid_string (fi_ID b)) as N' by (intros E%(inj _); done).
  destruct (Z.lt_total (fi_CreatedAt a) (fi_CreatedAt b)) as [L|[E|L]]; auto.
  apply ltb_total in N' as [?|?]; auto.
Qed.

Lemma supersedes_irrefl a b : supersedes a b = true → supersedes b a = true → False.
Proof.
  intros A B. pose proof (supersedes_trans _ _ _ A B) as C. revert C. unfold supersedes.
  rewrite ltb_irrefl, andb_false_r, Z.ltb_irrefl. done.
Qed.

(** [f] is the latest of its item in [l]. *)
Definition latest_in (l : list Finding) (f : Finding) : Prop :=
  f ∈ l ∧ ∀ g, g ∈ l → fi_ItemKey g = fi_ItemKey f → g = f ∨ supersedes f g = true.

Lemma update_latest_spec l : NoDup (fi_ID <$> l) → ∀ k,
  match fold_left update_latest l ∅ !! k with
  | Some f => fi_ItemKey f = k ∧ latest_in l f
  | None => ∀ g, g ∈ l → fi_ItemKey g ≠ k
  end.
Proof.
  induction l as [|f l IH] using rev_ind; intros Nd k.
  { simpl. rewrite lookup_empty. set_solver. }
  rewrite list.fmap_app in Nd. apply list.NoDup_app in Nd as (Nd & Di & _).
  assert (∀ g, g ∈ l → fi_ID g ≠ fi_ID f) as Ne.
  { intros g I E. apply (Di (fi_ID g)); [by apply list_elem_of_fmap_2|]. simpl. set_solver. }
  specialize (IH Nd). rewrite fold_left_app. cbn [fold_left].
  set (m := fold_left update_latest l ∅) in *. unfold update_latest.
  pose proof (IH (fi_ItemKey f)) as Cur. pose proof (IH k) as Old.
  destruct (m !! fi_ItemKey f) as [cur|].
  - destruct Cur as (Kc & Ic & Mc). destruct (supersedes f cur) eqn:S.
    + destruct (decide (k = fi_ItemKey f)) as [->|Nk].
      * rewrite lookup_insert_eq. split; [done|]. split; [set_solver|].
        intros g I E. apply elem_of_app in I as [I|I]; [|set_solver]. right.
        destruct (Mc g I) as [->|S']; [congruence|done|]. eauto using supersedes_trans.
      * rewrite lookup_insert_ne by done. destruct (m !! k) as [h|].
        -- destruct Old as (Kh & Ih & Mh). split; [done|]. split; [set_solver|].
           intros g I E. apply elem_of_app in I as [I|I]; [auto|].
           apply list_elem_of_singleton in I as ->. congruence.
        -- intros g I. apply elem_of_app in I as [I|I]; [auto|set_solver].
    + assert (supersedes cur f = true) as S'.
      { destruct (supersedes_total f cur) as [?|?]; [|congruence|done].
        intros E. by apply (Ne cur). }
      destruct (m !! k) as [h|].
      * destruct Old as (Kh & Ih & Mh). split; [done|]. split; [set_solver|].
        intros g I E. apply elem_of_app in I as [I|I]; [auto|].
        apply list_elem_of_singleton in I as ->. right.
        destruct (Mh cur Ic) as [->|S2]; [congruence|done|]. eauto using supersedes_trans.
      * intros g I. apply elem_of_app in I as [I|I]; [auto|].
        apply list_elem_of_singleton in I as ->. intros <-. by apply (Old cur Ic).
  - destruct (decide (k = fi_ItemKey f)) as [->|Nk].
    + rewrite lookup_insert_eq. split; [done|]. split; [set_solver|].
      intros g I E. apply elem_of_app in I as [I|I]; [by destruct (Cur g I)|set_solver].
    + rewrite lookup_insert_ne by done. destruct (m !! k) as [h|].
      * destruct Old as (Kh & Ih & Mh). split; [done|]. split; [set_solver|].
        intros g I E. apply elem_of_app in I as [I|I]; [auto|].
        apply list_elem_of_singleton in I as ->. congruence.
      * intros g I. apply elem_of_app in I as [I|I]; [auto|set_solver].
Qed.

Lemma fmap_NoDup_inj {A B} (g : A → B) l a b :
  NoDup (g <$> l) → a ∈ l → b ∈ l → g a = g b → a = b.
Proof.
  induction l as [|c l IH]; [set_solver|]. rewrite fmap_cons.
  intros [N Nd]%list.NoDup_cons Ia Ib E.
  apply elem_of_cons in Ia as [->|Ia], Ib as [->|Ib]; auto; exfalso; apply N.
  - rewrite E. by apply list_elem_of_fmap_2.
  - rewrite <-E. by apply list_elem_of_fmap_2.
Qed.

Lemma NoDup_fmap_filter {A B} (g : A → B) (p : A → bool) l :
  NoDup (g <$> l) → NoDup (g <$> List.filter p l).
Proof.
  induction l as [|x l IH]; [done|]. rewrite fmap_cons. intros [N Nd]%list.NoDup_cons.
  simpl. destruct (p x); [|auto]. rewrite fmap_cons. constructor; [|auto].
  intros (y & E & I)%list_elem_of_fmap. apply N. rewrite E. apply list_elem_of_fmap_2.
  by apply list_elem_of_In, List.filter_In, proj1, list_elem_of_In in I.
Qed.

Lemma latest_in_unique l f g :
  latest_in l f → latest_in l g → fi_ItemKey f = fi_ItemKey g → f = g.
Proof.
  intros [If Mf] [Ig Mg] E. destruct (Mf g Ig) as [->|S]; [done..|].
  destruct (Mg f If) as [->|S']; [done..|]. by destruct (supersedes_irrefl f g).
Qed.

Lemma elem_of_selected l f :
  NoDup (fi_ID <$> l) → f ∈ SelectLatestFindings l ↔ latest_in l f.
Proof.
  intros Nd. unfold SelectLatestFindings.
  rewrite merge_sort_Permutation, list_elem_of_In, List.filter_In, <-list_elem_of_In.
  pose proof (update_latest_spec l Nd (fi_ItemKey f)) as L.
  destruct (fold_left update_latest l ∅ !! fi_ItemKey f) as [sel|].
  - destruct L as (K & Ls). rewrite bool_decide_eq_true. split.
    + intros [I E]. by rewrite <-(fmap_NoDup_inj fi_ID l sel f Nd (proj1 Ls) I E).
    + intros Lf. split; [apply Lf|]. by rewrite (latest_in_unique l f sel).
  - split; [naive_solver|]. intros [I _]. by destruct (L f I).
Qed.

#[global] Instance canonical_order_total : Total canonical_order.
Proof.
  intros a b. unfold canonical_order.
  destruct (decide (fi_ItemKey a = fi_ItemKey b)) as [E|N].
  - destruct (total string_le (uuid_string (fi_ID a)) (uuid_string (fi_ID b))); auto.
  - destruct (total string_le (fi_ItemKey a) (fi_ItemKey b)); auto.
Qed.

#[global] Instance canonical_order_trans : Transitive canonical_order.
Proof.
  intros a b c. unfold canonical_order. intros [[N L]|[E L]] [[N' L']|[E' L']].
  - left. split; [|by etrans]. intros E. rewrite E in L, N.
    by apply N, (anti_symm string_le).
  - left. by rewrite <-E'.
  - left. by rewrite E.
  - right. split; [congruence|by etrans].
Qed.

Lemma canonical_order_antisymm a b :
  canonical_order a b → canonical_order b a → fi_ID a = fi_ID b.
Proof.
  unfold canonical_order. intros [[N L]|[E L]] [[N' L']|[E' L']]; try congruence.
  - by destruct N; apply (anti_symm string_le).
  - by apply (inj uuid_string), (anti_symm string_le).
Qed.

Lemma selected_NoDup l : NoDup (fi_ID <$> l) → NoDup (SelectLatestFindings l).
Proof.
  intros Nd. unfold SelectLatestFindings. rewrite merge_sort_Permutation.
  apply NoDup_ListNoDup, List.NoDup_filter, NoDup_ListNoDup.
  by eapply NoDup_fmap_1.
Qed.

(** The selection does not depend on the order the records are listed in. *)
Lemma selected_Permutation l l' :
  NoDup (fi_ID <$> l) → l ≡ₚ l' → SelectLatestFindings l = SelectLatestFindings l'.
Proof.
  intros Nd P. assert (NoDup (fi_ID <$> l')) as Nd' by by rewrite <-P.
  apply (StronglySorted_unique_strong canonical_order).
  - intros a b Ia Ib A B. apply elem_of_selected in Ia as [Ia _], Ib as [Ib _]; [|done..].
    rewrite <-P in Ib. apply (fmap_NoDup_inj fi_ID l); [done..|]. by apply canonical_order_antisymm.
  - apply Sorted_StronglySorted; [apply _|]. apply Sorted_merge_sort, _.
  - apply Sorted_StronglySorted; [apply _|]. apply Sorted_merge_sort, _.
  - apply NoDup_Permutation; [by apply selected_NoDup..|]. intros f.
    rewrite !elem_of_selected by done. unfold latest_in. setoid_rewrite P. done.
Qed.

Lemma selected_covers l f : NoDup (fi_ID <$> l) → f ∈ l →
  ∃ g, g ∈ SelectLatestFindings l ∧ fi_ItemKey g = fi_ItemKey f.
Proof.
  intros Nd I. pose proof (update_latest_spec l Nd (fi_ItemKey f)) as L.
  destruct (fold_left update_latest l ∅ !! fi_ItemKey f) as [g|]; [|by destruct (L f I)].
  destruct L as [K L]. exists g. by rewrite elem_of_selected.
Qed.

(** C20. [SelectLatestFindings] computes its specification: a record is selected
    exactly when no record of its item supersedes it, one per item, in the
    canonical order; and the order the records come in does not matter. *)
Theorem SelectLatestFindings_exact l (Nd : NoDup (fi_ID <$> l)) :
  (∀ f, f ∈ SelectLatestFindings l ↔
     f ∈ l ∧ ∀ g, g ∈ l → fi_ItemKey g = fi_ItemKey f → g = f ∨ supersedes f g = true) ∧
  (∀ f, f ∈ l → ∃ g, g ∈ SelectLatestFindings l ∧ fi_ItemKey g = fi_ItemKey f) ∧
  Sorted canonical_order (SelectLatestFindings l) ∧
  NoDup (fi_ItemKey <$> SelectLatestFindings l) ∧
  ∀ l', l ≡ₚ l' → SelectLatestFindings l' = SelectLatestFindings l.
Proof.
  split; [intros f; by apply elem_of_selected|]. split; [|split; [|split]].
  - intros f. by apply selected_covers.
  - apply Sorted_merge_sort, _.
  - apply NoDup_fmap_2_strong; [|by apply selected_NoDup].
    intros f g If Ig. apply elem_of_selected in If, Ig; [|done..].
    by apply (latest_in_unique l).
  - intros l' P. symmetry. by apply selected_Permutation.
Qed.

(** ** Readiness *)

Lemma omap_nil {A B} (f : A → option B) l : omap f l = [] ↔ ∀ x, x ∈ l → f x = None.
Proof.
  split.
  - intros E x I. destruct (f x) as [y|] eqn:F; [|done].
    assert (y ∈ omap f l) as Y by (apply list_elem_of_omap; eauto). 
    rewrite E in Y. by apply elem_of_nil in Y.
  - intros F. destruct (omap f l) as [|y k] eqn:E; [done|].
    assert (y ∈ omap f l) as Y by (rewrite E; set_solver).
    apply list_elem_of_omap in Y as (x & I & G). rewrite (F x I) in G. done.
Qed.

Lemma find_item_Some items key item :
  find_item items key = Some item → item ∈ items ∧ ti_Key item = key.
Proof.
  induction items as [|i items IH]; [done|]. cbn [find_item].
  destruct (String.eqb_spec (ti_Key i) key); [intros [= <-]; set_solver|].
  intros [I E]%IH. set_solver.
Qed.

Lemma find_item_is_Some items key :
  is_Some (find_item items key) ↔ ∃ item, item ∈ items ∧ ti_Key item = key.
Proof.
  split; [intros [i E%find_item_Some]; eauto|]. intros (item & I & <-).
  induction items as [|i items IH]; [set_solver|]. cbn [find_item].
  destruct (String.eqb_spec (ti_Key i) (ti_Key item)); [done|].
  apply IH. set_solver.
Qed.

Lemma elem_of_RequiredItems t key :
  key ∈ RequiredItems t ↔ ∃ item, item ∈ tm_Items t ∧ ti_Required item = true ∧ ti_Key item = key.
Proof.
  unfold RequiredItems. rewrite list_elem_of_fmap. setoid_rewrite list_elem_of_In.
  setoid_rewrite List.filter_In. naive_solver.
Qed.

Lemma existsb_elem {A} (p : A → bool) l : existsb p l = true ↔ ∃ x, x ∈ l ∧ p x = true.
Proof. rewrite existsb_exists. by setoid_rewrite list_elem_of_In. Qed.

Lemma links_to_spec id e :
  links_to id e = true ↔ ev_FindingID e = Some id ∧ id ≠ uuid_nil.
Proof.
  unfold links_to. destruct (ev_FindingID e) as [u|]; [|naive_solver].
  rewrite andb_true_iff, negb_true_iff, bool_decide_eq_false, bool_decide_eq_true. naive_solver.
Qed.

(** A session can be reported. *)
Definition ready (t : Template) (findings : list Finding) (evidence : list Evidence) : Prop :=
  (∀ f, f ∈ findings → ∃ item, item ∈ tm_Items t ∧ ti_Key item = fi_ItemKey f) ∧
  (∀ item, item ∈ tm_Items t → ti_Required item = true →
     ∃ f, f ∈ findings ∧ fi_ItemKey f = ti_Key item) ∧
  (∀ f, latest_in findings f → fi_Severity f = "RED" →
     ∃ e, e ∈ evidence ∧ ev_FindingID e = Some (fi_ID f) ∧ fi_ID f ≠ uuid_nil) ∧
  evidence ≠ [].

Lemma readiness t l evidence : NoDup (fi_ID <$> l) →
  CheckReportReadiness t l evidence = [] ↔ ready t l evidence.
Proof.
  intros Nd. unfold CheckReportReadiness, ready.
  set (sel := SelectLatestFindings l). assert (∀ f, f ∈ sel ↔ latest_in l f) as Sel.
  { intros f. by apply elem_of_selected. }
  assert (∀ f, f ∈ l → ∃ g, g ∈ sel ∧ fi_ItemKey g = fi_ItemKey f) as Cov.
  { intros f. by apply selected_covers. }
  clearbody sel. rewrite !app_nil, !omap_nil.
  assert ((match evidence with [] => [NoEvidence] | _ => [] end) = [] ↔ evidence ≠ []) as ->
    by (destruct evidence; naive_solver).
  assert ((∀ f, f ∈ sel → (match Item t (fi_ItemKey f) with
              | Some _ => None | None => Some (UnknownItem (fi_ItemKey f)) end) = None) ↔
          ∀ f, f ∈ l → ∃ item, item ∈ tm_Items t ∧ ti_Key item = fi_ItemKey f) as U.
  { setoid_rewrite <-find_item_is_Some. unfold Item. split.
    - intros F f (g & Ig & E)%Cov. specialize (F g Ig). rewrite E in F.
      destruct (find_item _ _); [by eexists|done].
    - intros F f [If _]%Sel. by destruct (F f If) as [? ->]. }
  rewrite U. clear U.
  assert ((∀ key, key ∈ RequiredItems t →
             (if covers t sel key then None else Some (UncoveredItem key)) = None) ↔
          ∀ item, item ∈ tm_Items t → ti_Required item = true →
             ∃ f, f ∈ l ∧ fi_ItemKey f = ti_Key item) as R.
  { assert (∀ key, key ∈ RequiredItems t → covers t sel key = true ↔
              ∃ f, f ∈ l ∧ fi_ItemKey f = key) as C.
    { intros key (item & Ii & _ & Ei)%elem_of_RequiredItems. unfold covers. rewrite existsb_elem.
      assert (is_Some (Item t key)) as [i K] by (apply find_item_is_Some; eauto). split.
      - intros (f & If & Cf). exists f. apply Sel in If as [If _].
        destruct (Item t (fi_ItemKey f)); [|done]. by apply String.eqb_eq in Cf.
      - intros (f & (g & Ig & Eg)%Cov & Ef). exists g. split; [done|].
        rewrite Eg, Ef, K. apply String.eqb_refl. }
    setoid_rewrite elem_of_RequiredItems in C. setoid_rewrite elem_of_RequiredItems. split.
    - intros F item Ii Ri. apply C; [eauto|]. specialize (F (ti_Key item) ltac:(eauto)).
      by destruct (covers t sel (ti_Key item)).
    - intros F key (item & Ii & Ri & <-). rewrite (proj2 (C (ti_Key item) ltac:(eauto))); auto. }
  rewrite R. clear R.
  assert ((∀ f, f ∈ sel → (if String.eqb (fi_Severity f) SeverityRed &&
              negb (existsb (links_to (fi_ID f)) evidence)
              then Some (RedWithoutEvidence (fi_ItemKey f) (fi_ID f)) else None) = None) ↔
          ∀ f, latest_in l f → fi_Severity f = "RED" →
             ∃ e, e ∈ evidence ∧ ev_FindingID e = Some (fi_ID f) ∧ fi_ID f ≠ uuid_nil) as E.
  { setoid_rewrite Sel. setoid_rewrite <-links_to_spec. setoid_rewrite <-existsb_elem. split.
    - intros F f Lf Rf. specialize (F f Lf). rewrite Rf in F. cbn in F.
      by destruct (existsb _ _).
    - intros F f Lf. destruct (String.eqb_spec (fi_Severity f) SeverityRed) as [Rf|]; [|done].
      by rewrite (F f Lf Rf). }
  rewrite E. done.
Qed.

(** ** The canonical text *)

(** Texts that do not interfere with the separators. *)
Definition clean (s : string) : bool := free_of "," s && free_of newline s.

Definition clean_session (s : Session) : bool :=
  free_of newline (ss_TemplateName s) && four_digit_year (default zero_time (ss_SubmittedAt s)).
Definition clean_finding (f : Finding) : bool :=
  clean (fi_ItemKey f) && clean (fi_Result f) && clean (fi_Severity f).
Definition clean_evidence (e : Evidence) : bool := clean (ev_Kind e) && clean (ev_ContentHash e).

(** The nil identifier is rendered like none. *)
Definition known (u : option uuid) : option uuid :=
  match u with Some u => if bool_decide (u = uuid_nil) then None else Some u | None => None end.

(** What the text certifies of a finding (its notes up to their hash) and of a
    piece of evidence. *)
Definition same_finding (f g : Finding) : Prop :=
  fi_ID f = fi_ID g ∧ fi_ItemKey f = fi_ItemKey g ∧ fi_Result f = fi_Result g ∧
  fi_Severity f = fi_Severity g ∧ sha256Hex (fi_Notes f) = sha256Hex (fi_Notes g) ∧
  known (fi_RecordedBy f) = known (fi_RecordedBy g).
Definition same_evidence (e g : Evidence) : Prop :=
  ev_ID e = ev_ID g ∧ ev_Kind e = ev_Kind g ∧ ev_ContentHash e = ev_ContentHash g ∧
  known (ev_FindingID e) = known (ev_FindingID g) ∧ ev_Uploaded e = ev_Uploaded g.
Definition same_session (s s' : Session) : Prop :=
  ss_ID s = ss_ID s' ∧ known (ss_VehicleID s) = known (ss_VehicleID s') ∧
  known (ss_JobID s) = known (ss_JobID s') ∧ ss_TemplateID s = ss_TemplateID s' ∧
  ss_TemplateName s = ss_TemplateName s' ∧ ss_TemplateVersion s = ss_TemplateVersion s' ∧
  ss_InspectorID s = ss_InspectorID s' ∧
  default zero_time (ss_SubmittedAt s) = default zero_time (ss_SubmittedAt s').

Context `{!UuidPlain}.

(** The separators are no characters of identifiers, digests, numbers and times. *)
Definition separator (c : ascii) : Prop := c = ","%char ∨ c = newline.

Lemma separator_absent c s : separator c → clean s = true → absent c s.
Proof.
  unfold clean. intros [-> | ->] [A B]%andb_true_iff; by apply free_of_absent.
Qed.

Lemma uuid_absent c u : separator c → absent c (uuid_string u).
Proof.
  intros S. apply (absent_class _ _ (λ c, uuid_char c = true)).
  - apply list.Forall_forall. intros x I. pose proof (uuid_string_plain u) as F.
    rewrite forallb_forall in F. by apply F, list_elem_of_In.
  - by destruct S as [-> | ->].
Qed.

Lemma uuidOrDash_absent c u : separator c → absent c (uuidOrDash u).
Proof.
  intros S. assert (absent c "-") by (destruct S as [-> | ->]; by apply free_of_absent).
  destruct u as [u|]; [|done]. simpl. case_bool_decide; [done|]. by apply uuid_absent.
Qed.

Lemma digest_absent c b : separator c → absent c (sha256Hex b).
Proof.
  intros S. apply (absent_class _ _ (λ c, lower_hex c = true)).
  - apply list.Forall_forall. intros x I.
    pose proof (hex_encode_chars _ (sha256_range (to_bytes b))) as F.
    rewrite forallb_forall in F. by apply F, list_elem_of_In.
  - by destruct S as [-> | ->].
Qed.

Lemma pretty_absent c (z : Z) : separator c → absent c (pretty z).
Proof.
  intros S. apply (absent_class _ _ number_char); [apply pretty_Z_chars|].
  intros N. by destruct S as [-> | ->], N as [[? N]|N].
Qed.

Lemma pretty_nat_absent c (n : nat) : separator c → absent c (pretty n).
Proof.
  intros S. apply (absent_class _ _ (λ c, is_Some (digit c))).
  - apply (pretty_N_digits (N.of_nat n)).
  - intros [? N]. by destruct S as [-> | ->].
Qed.

Lemma time_absent t : absent newline (RFC3339Nano t).
Proof.
  apply (absent_class _ _ time_char); [apply RFC3339Nano_chars|].
  intros [[[? N]|N]|N]; [done..|]. repeat (apply elem_of_cons in N as [N|N]; [done|]).
  by apply elem_of_nil in N.
Qed.

Lemma uuidOrDash_inj u v : uuidOrDash u = uuidOrDash v → known u = known v.
Proof.
  destruct u as [u|], v as [v|]; simpl; repeat case_bool_decide; intros E; try done;
    try (by destruct (uuid_string_not_dash v)); try (by destruct (uuid_string_not_dash u)).
  by apply (inj uuid_string) in E as ->.
Qed.

(** *** The lines of the rows *)

Definition finding_fields (f : Finding) : list string :=
  [uuid_string (fi_ID f); fi_ItemKey f; fi_Result f; fi_Severity f; hashOfNotes (fi_Notes f);
   uuidOrDash (fi_RecordedBy f)].
Definition evidence_fields (e : Evidence) : list string :=
  [uuid_string (ev_ID e); ev_Kind e; ev_ContentHash e; uuidOrDash (ev_FindingID e);
   if ev_Uploaded e then "1" else "0"].

Lemma finding_fields_absent c f :
  separator c → clean_finding f = true → Forall (absent c) (finding_fields f).
Proof.
  unfold clean_finding. rewrite !andb_true_iff. intros S [[K R] V].
  repeat constructor;
    auto using uuid_absent, digest_absent, uuidOrDash_absent, separator_absent.
Qed.

Lemma evidence_fields_absent c e :
  separator c → clean_evidence e = true → Forall (absent c) (evidence_fields e).
Proof.
  unfold clean_evidence. rewrite !andb_true_iff. intros S [K V].
  repeat constructor; auto using uuid_absent, uuidOrDash_absent, separator_absent.
  destruct S as [-> | ->], (ev_Uploaded e); by apply free_of_absent.
Qed.

Lemma cons_inv {A} (x y : A) l k : x :: l = y :: k → x = y ∧ l = k.
Proof. by intros [= -> ->]. Qed.

Lemma finding_line_inj f g : clean_finding f = true → clean_finding g = true →
  finding_line f = finding_line g → same_finding f g.
Proof.
  intros Cf Cg E. unfold finding_line in E.
  apply string_app_inj_head in E as [_ E]; [|done].
  apply join_inj in E; [|done|done|apply finding_fields_absent; [by left|done]..].
  apply cons_inv in E as [E1 E]. apply cons_inv in E as [E2 E]. apply cons_inv in E as [E3 E].
  apply cons_inv in E as [E4 E]. apply cons_inv in E as [E5 E]. apply cons_inv in E as [E6 _].
  apply (inj uuid_string) in E1. apply uuidOrDash_inj in E6. done.
Qed.

Lemma evidence_line_inj e g : clean_evidence e = true → clean_evidence g = true →
  evidence_line e = evidence_line g → same_evidence e g.
Proof.
  intros Ce Cg E. unfold evidence_line in E.
  apply string_app_inj_head in E as [_ E]; [|done].
  apply join_inj in E; [|done|done|apply evidence_fields_absent; [by left|done]..].
  injection E as E1 E2 E3 E4 E5. apply (inj uuid_string) in E1.
  apply uuidOrDash_inj in E4. repeat split; try done.
  destruct (ev_Uploaded e), (ev_Uploaded g); done.
Qed.

Lemma counts_line_inj n m n' m' : counts_line n m = counts_line n' m' → n = n' ∧ m = m'.
Proof.
  unfold counts_line. intros E.
  apply string_app_inj_head in E as [_ E]; [|done].
  assert (∀ k j : nat, split "," (pretty k +:+ ",evidence=" +:+ pretty j) =
            [pretty k; "evidence=" +:+ pretty j]) as Sp.
  { intros k j. change (",evidence=" +:+ pretty j) with (String "," ("evidence=" +:+ pretty j)).
    rewrite split_app by (apply pretty_nat_absent; by left). f_equal. apply split_absent.
    apply absent_app. split; [by apply free_of_absent|]. apply pretty_nat_absent. by left. }
  apply (f_equal (split ",")) in E. rewrite !Sp in E. injection E as E1 E2.
  apply (inj pretty) in E1. split; [done|].
  change (pretty m = pretty m') in E2. by apply (inj pretty) in E2.
Qed.

(** *** The whole text *)

Lemma absent_const c (s : string) : free_of c s = true → absent c s.
Proof. apply free_of_absent. Qed.

Lemma report_lines_absent s fs es v :
  clean_session s = true → forallb clean_finding fs = true → forallb clean_evidence es = true →
  Forall (absent newline) (report_lines s fs es v).
Proof.
  intros [Cs _]%andb_true_iff Cf Ce. unfold report_lines. rewrite !Forall_app. split_and!.
  - unfold session_lines, submissionTimestamp. assert (separator newline) as S by by right.
    repeat (apply list.Forall_cons; split; [|]); try apply list.Forall_nil; try done;
      rewrite ?absent_app; split_and?;
      first [by apply free_of_absent
            |by auto using uuid_absent, uuidOrDash_absent, pretty_absent, time_absent].
  - apply Forall_map, list.Forall_forall. intros f I.
    rewrite forallb_forall in Cf. apply list_elem_of_In, Cf in I.
    unfold finding_line. rewrite absent_app. split; [by apply free_of_absent|].
    apply absent_join; [done|]. apply finding_fields_absent; [by right|done].
  - apply Forall_map, list.Forall_forall. intros e I.
    rewrite forallb_forall in Ce. apply list_elem_of_In, Ce in I.
    unfold evidence_line. rewrite absent_app. split; [by apply free_of_absent|].
    apply absent_join; [done|]. apply evidence_fields_absent; [by right|done].
  - constructor; [|constructor]. unfold counts_line. rewrite !absent_app.
    split_and!; try (by apply free_of_absent); apply pretty_nat_absent; by right.
Qed.

Lemma map_inj_Forall2 {A} (p : A → bool) (line : A → string) (R : A → A → Prop) l :
  (∀ x y, p x = true → p y = true → line x = line y → R x y) →
  ∀ l', forallb p l = true → forallb p l' = true → map line l = map line l' → Forall2 R l l'.
Proof.
  intros I. induction l as [|x l IH]; intros [|y l']; simpl; try done.
  rewrite !andb_true_iff. intros [Px Pl] [Py Pl'] [= E1 E2]. constructor; auto.
Qed.

Lemma session_lines_inj s s' v v' : clean_session s = true → clean_session s' = true →
  session_lines s v = session_lines s' v' → v = v' ∧ same_session s s'.
Proof.
  intros [_ Y]%andb_true_iff [_ Y']%andb_true_iff E. unfold session_lines in E.
  injection E as E1 E2 E3 E4 E5 E6 E7 E8 E9.
  repeat match goal with
  | E : ?p +:+ _ = ?p +:+ _ |- _ => apply string_app_inj_head, proj2 in E; [|done]
  end.
  apply (inj uuid_string) in E1, E5, E8. apply (inj pretty) in E2, E7.
  apply uuidOrDash_inj in E3, E4. unfold submissionTimestamp in E9.
  apply (RFC3339Nano_inj _ _ Y Y') in E9. done.
Qed.

Lemma BuildReportInput_inj s s' fs fs' es es' v v' :
  clean_session s = true → clean_session s' = true →
  forallb clean_finding fs = true → forallb clean_finding fs' = true →
  forallb clean_evidence es = true → forallb clean_evidence es' = true →
  BuildReportInput s fs es v = BuildReportInput s' fs' es' v' →
  v = v' ∧ same_session s s' ∧ Forall2 same_finding fs fs' ∧ Forall2 same_evidence es es'.
Proof.
  intros Cs Cs' Cf Cf' Ce Ce' E. unfold BuildReportInput in E.
  apply join_inj in E; [|done|done|by apply report_lines_absent..]. unfold report_lines in E.
  apply app_inj_1 in E as [E1 E]; [|done].
  rewrite !app_assoc in E. apply app_inj_tail in E as [E C].
  apply counts_line_inj in C as [Lf _].
  apply app_inj_1 in E as [E2 E3]; [|by rewrite !length_map].
  apply session_lines_inj in E1 as [-> Ss]; [|done..].
  split_and!; [done|done| |].
  - by apply (map_inj_Forall2 clean_finding finding_line same_finding); auto using finding_line_inj.
  - by apply (map_inj_Forall2 clean_evidence evidence_line same_evidence);
      auto using evidence_line_inj.
Qed.

End Props.
