(* ===== verification/InspStore.v ===== *)
(** * InspStore: the tables and the Postgres store of the inspections domain
    ([backend/inspections/store.go], [backend/migrations/inspections])

    Five tables. Sessions are updated in place; findings, evidence, reports and
    transitions are append-only, which the list representation and the absence of
    any other write make literal. The sealing triggers are part of the inserts. *)

From Stdlib Require Import Ascii.
From S2P Require Import Prelude Text Sha256 Sql Wire PayMachine PayModels InspModels InspReport.

Open Scope Z_scope.

Record insp_db := mkInspDB {
  inspection_sessions : gmap uuid Session;
  inspection_findings : list Finding;
  inspection_evidence : list Evidence;
  inspection_reports : list Report;
  inspection_session_transitions : list SessionTransition;
}.

Definition empty_insp_db : insp_db := mkInspDB ∅ [] [] [] [].

Definition with_sessions f (d : insp_db) : insp_db :=
  mkInspDB (f (inspection_sessions d)) (inspection_findings d) (inspection_evidence d)
    (inspection_reports d) (inspection_session_transitions d).
Definition with_finding f (d : insp_db) : insp_db :=
  mkInspDB (inspection_sessions d) (inspection_findings d ++ [f]) (inspection_evidence d)
    (inspection_reports d) (inspection_session_transitions d).
Definition with_evidence e (d : insp_db) : insp_db :=
  mkInspDB (inspection_sessions d) (inspection_findings d) (inspection_evidence d ++ [e])
    (inspection_reports d) (inspection_session_transitions d).
Definition with_report r (d : insp_db) : insp_db :=
  mkInspDB (inspection_sessions d) (inspection_findings d) (inspection_evidence d)
    (inspection_reports d ++ [r]) (inspection_session_transitions d).
Definition with_transition t (d : insp_db) : insp_db :=
  mkInspDB (inspection_sessions d) (inspection_findings d) (inspection_evidence d)
    (inspection_reports d) (inspection_session_transitions d ++ [t]).

(** What [errors.Is] and [errors.As] can tell about an error of the domain; the
    others are [ErrDB] when the store made them. *)
Inductive InspError :=
  | ErrSessionNotFound
  | ErrReportNotFound
  | ErrConflict
  | ErrDB
  | ErrInvalidInput
  | ErrSessionSealed
  | ErrNotInspector
  | ErrReportIncomplete (issues : list Issue)
  | TemplateNotFoundError (id : uuid)
  | NoActiveTemplateError (class : string)
  | ErrMarshal
  | PublishFailed.

Abbreviation db := (M insp_db InspError) (only parsing).

(** What reading a [jsonb] column gives for a text that was written to it belongs
    to PostgreSQL. *)
Class JsonColumn := { json_text : string → string }.

(** [^[0-9a-f]{64}$] *)
Definition is_sha256_hex (s : string) : bool :=
  (blen s =? 64)%nat && forallb lower_hex (chars s).

(** ** Constraints and triggers of the tables *)

Definition insert_session (s : Session) : db unit :=
  d ← get;
  ensure (IsVehicleClass (ss_VehicleClass s)) ErrDB;;
  ensure (0 <? ss_TemplateVersion s) ErrDB;;
  ensure (isKnownStatus (ss_Status s)) ErrDB;;
  ensure (bool_decide (inspection_sessions d !! ss_ID s = None)) ErrDB;;
  modify (with_sessions (insert (ss_ID s) s)).

(** [UPDATE inspection_sessions SET ... WHERE id = $1], on the row just locked. *)
Definition update_session (old new : Session) : db unit :=
  ensure (isKnownStatus (ss_Status new)) ErrDB;;
  modify (with_sessions (insert (ss_ID old) new)).

(** The sealing triggers: they raise for a session in another status; for a
    missing one the comparison is NULL, and the foreign key refuses the row. *)
Definition sealed (d : insp_db) (sessionID : uuid) : bool :=
  match inspection_sessions d !! sessionID with
  | Some s => negb (String.eqb (ss_Status s) StatusInProgress)
  | None => false
  end.

Definition has_session (d : insp_db) (id : uuid) : bool :=
  negb (bool_decide (inspection_sessions d !! id = None)).

Definition insert_finding (f : Finding) : db unit :=
  d ← get;
  ensure (negb (sealed d (fi_SessionID f))) ErrDB;;
  ensure (is_target AllFindingResults (fi_Result f)) ErrDB;;
  ensure (is_target AllSeverities (fi_Severity f)) ErrDB;;
  ensure (bool_decide (fi_ID f ∉ fi_ID <$> inspection_findings d)) ErrDB;;
  ensure (has_session d (fi_SessionID f)) ErrSessionNotFound;;
  modify (with_finding f).

Definition insert_evidence (e : Evidence) : db unit :=
  d ← get;
  ensure (negb (sealed d (ev_SessionID e))) ErrDB;;
  ensure (is_target AllEvidenceKinds (ev_Kind e)) ErrDB;;
  ensure (is_sha256_hex (ev_ContentHash e)) ErrDB;;
  ensure (bool_decide (ev_ID e ∉ ev_ID <$> inspection_evidence d)) ErrDB;;
  ensure (has_session d (ev_SessionID e)) ErrSessionNotFound;;
  ensure (match ev_FindingID e with
          | Some u => bool_decide (u ∈ fi_ID <$> inspection_findings d)
          | None => true
          end) ErrSessionNotFound;;
  modify (with_evidence e).

Definition insert_report (r : Report) : db unit :=
  d ← get;
  ensure (existsb (λ e, bool_decide (ev_SessionID e = rp_SessionID r)) (inspection_evidence d))
    ErrDB;;
  ensure (0 <? rp_Version r) ErrDB;;
  ensure (0 <=? rp_FindingsCount r) ErrDB;;
  ensure (0 <=? rp_EvidenceCount r) ErrDB;;
  ensure (is_sha256_hex (rp_ContentHash r)) ErrDB;;
  ensure (bool_decide (rp_ID r ∉ rp_ID <$> inspection_reports d)) ErrDB;;
  ensure (negb (existsb (λ q, bool_decide (rp_SessionID q = rp_SessionID r) &&
                              (rp_Version q =? rp_Version r)) (inspection_reports d))) ErrDB;;
  ensure (has_session d (rp_SessionID r)) ErrDB;;
  modify (with_report r).

Definition insert_session_transition (t : SessionTransition) : db unit :=
  d ← get;
  ensure (has_session d (st_SessionID t)) ErrDB;;
  modify (with_transition t).

(** ** The store *)

Definition defaultListLimit : Z := 50.
Definition maxListLimit : Z := 200.

Record SessionFilter := mkSessionFilter {
  sf_VehicleID : option uuid;
  sf_JobID : option uuid;
  sf_Status : option string;
}.

Definition sessionScopePredicate (scope : Scope) (nextParam : nat) : option cond * list value :=
  scopePredicate scope "tenant_id" "inspector_id" "customer_id" nextParam.

Definition session_env (s : Session) : env := λ column,
  if String.eqb column "id" then VUuid (ss_ID s)
  else if String.eqb column "tenant_id" then of_uuid (ss_TenantID s)
  else if String.eqb column "inspector_id" then VUuid (ss_InspectorID s)
  else if String.eqb column "customer_id" then of_uuid (ss_CustomerID s)
  else if String.eqb column "vehicle_id" then of_uuid (ss_VehicleID s)
  else if String.eqb column "job_id" then of_uuid (ss_JobID s)
  else if String.eqb column "status" then VText (ss_Status s)
  else if String.eqb column "s.tenant_id" then of_uuid (ss_TenantID s)
  else if String.eqb column "s.inspector_id" then VUuid (ss_InspectorID s)
  else if String.eqb column "s.customer_id" then of_uuid (ss_CustomerID s)
  else VNull.

(** The columns of a child row the queries name, under its alias. *)
Definition child_env (alias : string) (sessionID : uuid) (version : Z) : env := λ column,
  if String.eqb column (alias +:+ ".session_id") then VUuid sessionID
  else if String.eqb column (alias +:+ ".version") then VInt version
  else VNull.

(** [x.session_id = $1 AND EXISTS (SELECT 1 FROM inspection_sessions s WHERE s.id =
    x.session_id AND pred)] *)
Definition child_where (alias : string) (sessionID : uuid) (scope : Scope)
    : cond * list value :=
  let '(pred, predArgs) :=
    scopePredicate scope "s.tenant_id" "s.inspector_id" "s.customer_id" 2 in
  let base := CEq (alias +:+ ".session_id") 1 in
  match pred with
  | Some p => (CAnd base (CExists p), VUuid sessionID :: predArgs)
  | None => (base, [VUuid sessionID])
  end.

Definition parent_env (d : insp_db) (sessionID : uuid) : option env :=
  session_env <$> inspection_sessions d !! sessionID.

Definition session_stamp (now : time) (to : string) (s : Session) : Session :=
  let stamp column old := if String.eqb to column then Some now else old in
  mkSession (ss_ID s) (ss_TenantID s) (ss_VehicleID s) (ss_JobID s) (ss_CustomerID s)
    (ss_VehicleClass s) (ss_TemplateID s) (ss_TemplateName s) (ss_TemplateVersion s)
    (ss_InspectorID s) to (stamp StatusInProgress (ss_StartedAt s))
    (stamp StatusSubmitted (ss_SubmittedAt s)) (stamp StatusReportAvailable (ss_ReportedAt s))
    (ss_CreatedAt s) now.

Section Store.
Context `{Driver} `{JsonColumn}.

Definition send_query (used : list nat) (args : list value) : db unit :=
  ensure (accepts used (length args)) ErrDB.

(** The struct after the call; the three stamps of the row are NULL. *)
Definition CreateSession (now : time) (fresh : uuid) (s : Session) : db Session :=
  let row started submitted reported :=
    mkSession (assign_id (ss_ID s) fresh) (ss_TenantID s) (ss_VehicleID s) (ss_JobID s)
      (ss_CustomerID s) (ss_VehicleClass s) (ss_TemplateID s) (ss_TemplateName s)
      (ss_TemplateVersion s) (ss_InspectorID s) (ss_Status s) started submitted reported
      now now in
  insert_session (row None None None);;
  mret (row (ss_StartedAt s) (ss_SubmittedAt s) (ss_ReportedAt s)).

Definition GetSession (id : uuid) (scope : Scope) : db Session :=
  let '(pred, predArgs) := sessionScopePredicate scope 2 in
  let where_ := and_pred (CEq "id" 1) pred in
  let args := VUuid id :: predArgs in
  send_query (placeholders where_) args;;
  d ← get;
  match inspection_sessions d !! id with
  | Some row => if eval None args (session_env row) where_ then mret row
                else throw ErrSessionNotFound
  | None => throw ErrSessionNotFound
  end.

(** The clause under construction: the scope first, the filters after it. *)
Definition sessions_where (scope : Scope) (filter : SessionFilter) : cond * list value :=
  let '(pred, predArgs) := sessionScopePredicate scope 1 in
  let q := (default CTrue pred, predArgs) in
  let q := add_filter "vehicle_id" (VUuid <$> sf_VehicleID filter) q in
  let q := add_filter "job_id" (VUuid <$> sf_JobID filter) q in
  add_filter "status" (VText <$> sf_Status filter) q.

Definition ListSessions (scope : Scope) (filter : SessionFilter) (limit offset : Z)
    : db (list Session) :=
  let limit := clamp_limit defaultListLimit maxListLimit limit in
  let offset := clamp_offset offset in
  let '(where_, args) := sessions_where scope filter in
  let args' := args ++ [VInt limit; VInt offset] in
  send_query (placeholders where_ ++ [pred (length args'); length args']) args';;
  d ← get;
  let rows := List.filter (λ row, eval None args' (session_env row) where_)
                (map_to_list (inspection_sessions d)).*2 in
  mret (page limit offset (merge_sort (newest_first ss_CreatedAt ss_ID) rows)).

Definition UpdateSessionStatus (now : time) (sessionID : uuid) (expectedFrom newStatus : string)
    (actorID : option uuid) (reason : string) : db unit :=
  transact (
    d ← get;
    s ← from_option (inspection_sessions d !! sessionID) ErrSessionNotFound;
    ensure (String.eqb (ss_Status s) expectedFrom) ErrConflict;;
    update_session s (session_stamp now newStatus s);;
    insert_session_transition
      (mkSessionTransition sessionID (ss_Status s) newStatus actorID reason now)).

Definition InsertFinding (now : time) (fresh : uuid) (f : Finding) : db Finding :=
  let f := mkFinding (assign_id (fi_ID f) fresh) (fi_SessionID f) (fi_ItemKey f) (fi_Result f)
             (fi_Severity f) (fi_Notes f) (fi_RecordedBy f) now in
  insert_finding f;;
  mret f.

Definition ListFindings (sessionID : uuid) (scope : Scope) : db (list Finding) :=
  let '(where_, args) := child_where "f" sessionID scope in
  send_query (placeholders where_) args;;
  d ← get;
  mret (merge_sort (oldest_first fi_CreatedAt fi_ID)
    (List.filter (λ f, eval (parent_env d (fi_SessionID f)) args
                         (child_env "f" (fi_SessionID f) 0) where_) (inspection_findings d))).

(** The row keeps [captured_at] in microseconds, the struct as it was given. *)
Definition InsertEvidence (now : time) (fresh : uuid) (e : Evidence) : db Evidence :=
  let row captured := mkEvidence (assign_id (ev_ID e) fresh) (ev_SessionID e) (ev_FindingID e)
    (ev_Kind e) (ev_ContentHash e) captured (ev_CapturedBy e) (ev_Uploaded e) (ev_Notes e) now in
  insert_evidence (row (timestamptz (ev_CapturedAt e)));;
  mret (row (ev_CapturedAt e)).

Definition ListEvidence (sessionID : uuid) (scope : Scope) : db (list Evidence) :=
  let '(where_, args) := child_where "e" sessionID scope in
  send_query (placeholders where_) args;;
  d ← get;
  mret (merge_sort (oldest_first ev_CreatedAt ev_ID)
    (List.filter (λ e, eval (parent_env d (ev_SessionID e)) args
                         (child_env "e" (ev_SessionID e) 0) where_) (inspection_evidence d))).

(** [COALESCE(MAX(version), 0) + 1] *)
Definition next_version (d : insp_db) (sessionID : uuid) : Z :=
  foldr Z.max 0 (rp_Version <$>
    List.filter (λ r, bool_decide (rp_SessionID r = sessionID)) (inspection_reports d)) + 1.

Definition InsertReport (now : time) (fresh : uuid) (r : Report) : db Report :=
  ensure (negb (String.eqb (rp_ContentHash r) "")) ErrDB;;
  let row findings evidence := mkReport (assign_id (rp_ID r) fresh) (rp_SessionID r)
    (rp_Version r) (rp_VehicleID r) (rp_JobID r) (rp_InspectorID r) (rp_TemplateID r)
    (rp_TemplateName r) (rp_TemplateVersion r) findings evidence (rp_FindingsCount r)
    (rp_EvidenceCount r) (rp_ContentHash r) (rp_IssuedBy r) (rp_Notes r) now in
  transact (
    d ← get;
    s ← from_option (inspection_sessions d !! rp_SessionID r) ErrSessionNotFound;
    ensure (String.eqb (ss_Status s) StatusSubmitted) ErrConflict;;
    ensure (next_version d (rp_SessionID r) =? rp_Version r) ErrConflict;;
    insert_report (row (json_text (rp_FindingsSnapshot r)) (json_text (rp_EvidenceSnapshot r)));;
    update_session s (session_stamp now StatusReportAvailable s);;
    insert_session_transition
      (mkSessionTransition (rp_SessionID r) StatusSubmitted StatusReportAvailable
         (rp_IssuedBy r) "report issued" now);;
    mret (row (rp_FindingsSnapshot r) (rp_EvidenceSnapshot r))).

(** ORDER BY version DESC. *)
Definition version_desc (a b : Report) : Prop := rp_Version b <= rp_Version a.
#[global] Instance version_desc_dec a b : Decision (version_desc a b).
Proof. unfold version_desc. apply _. Defined.

(** The latest version, or the given one; the row is the first of the result. *)
Definition GetReport (sessionID : uuid) (version : option Z) (scope : Scope) : db Report :=
  let '(where_, args) := add_filter "r.version" (VInt <$> version)
                           (child_where "r" sessionID scope) in
  send_query (placeholders where_) args;;
  d ← get;
  let rows := List.filter (λ r, eval (parent_env d (rp_SessionID r)) args
                             (child_env "r" (rp_SessionID r) (rp_Version r)) where_)
                (inspection_reports d) in
  from_option (head (match version with
                     | Some _ => rows
                     | None => merge_sort version_desc rows
                     end)) ErrReportNotFound.

End Store.

#[global] Arguments CreateSession : simpl never.
#[global] Arguments GetSession : simpl never.
#[global] Arguments ListSessions : simpl never.
#[global] Arguments UpdateSessionStatus : simpl never.
#[global] Arguments InsertFinding : simpl never.
#[global] Arguments ListFindings : simpl never.
#[global] Arguments InsertEvidence : simpl never.
#[global] Arguments ListEvidence : simpl never.
#[global] Arguments InsertReport : simpl never.
#[global] Arguments GetReport : simpl never.
