(* ===== verification/InspService.v ===== *)
(** * InspService: the inspections domain service ([backend/inspections/service.go])

    The service runs over the database and the events published so far. A call
    that fails keeps the writes made before it. *)

From Stdlib Require Import Ascii.
From S2P Require Import Prelude Text Sha256 Platform Sql Wire PayMachine PayModels InspModels.
From S2P Require Import InspReport InspStore.

Open Scope Z_scope.

Definition InspEventDomain : string := "inspections".
Definition EventSessionCreated : string := "session.created.v1".
Definition EventSessionStarted : string := "session.started.v1".
Definition EventSessionSubmitted : string := "session.submitted.v1".
Definition EventReportIssued : string := "report.issued.v1".

Definition DefaultSessionsLimit : Z := 50.
Definition MaxSessionsLimit : Z := 200.
Definition MaxNotesLength : nat := 2000.
Definition maxCapturedAtSkew : Z := 5 * minute.

(** [sha256HexPattern.MatchString] *)
Definition sha256HexPattern (s : string) : bool := is_sha256_hex s.

Definition resultSeverityMatrix : list (string * list string) :=
  [(ResultPass, [SeverityGreen; SeverityAmber]);
   (ResultFail, [SeverityAmber; SeverityRed]);
   (ResultAttention, [SeverityAmber; SeverityRed]);
   (ResultNotApplicable, [SeverityGreen])].

Definition IsResultSeverityLegal (result severity : string) : bool :=
  match map_get resultSeverityMatrix result with
  | Some severities => is_target severities severity
  | None => false
  end.

Inductive InspPayload :=
  | SessionCreatedPayload (SessionID : uuid) (VehicleClass : string)
      (VehicleID JobID CustomerID : option uuid) (TemplateID : uuid) (TemplateName : string)
      (TemplateVersion : Z) (InspectorID : uuid)
  | SessionStartedPayload (SessionID InspectorID : uuid) (VehicleID : option uuid)
  | SessionSubmittedPayload (SessionID InspectorID : uuid) (FindingsCount EvidenceCount : nat)
      (VehicleID JobID : option uuid)
  | ReportIssuedPayload (SessionID ReportID : uuid) (Version : Z) (ContentHash : string)
      (InspectorID : uuid) (FindingsCount EvidenceCount : Z) (TemplateVersion : Z).

Record insp_world := mkInspWorld {
  iw_db : insp_db;
  iw_events : list (string * Event InspPayload);
}.

Abbreviation svc := (M insp_world InspError) (only parsing).

Section Service.
Context `{Driver} `{JsonColumn} `{UuidText} `{UuidV5}.
Context (publisher : option (Event InspPayload → bool)).

Definition on_db {A} (c : M insp_db InspError A) : svc A :=
  zoom iw_db (λ d w, mkInspWorld d (iw_events w)) c.

Definition tenantString (t : option uuid) : string :=
  match t with Some u => uuid_string u | None => "" end.

Definition publish (c : Ctx) (fresh : uuid) (eventType : string) (aggregateID : uuid)
    (actorID : option uuid) (tenantID : string) (payload : InspPayload) : svc unit :=
  match publisher with
  | None => mret tt
  | Some broker =>
      let actor := match actorID with
        | Some a => if bool_decide (a = uuid_nil) then "" else uuid_string a
        | None => ""
        end in
      e ← from_option (NewEvent (ctx_now c) fresh eventType (uuid_string aggregateID) tenantID
                         actor (ctx_request_id c) payload) PublishFailed;
      ensure (broker e) PublishFailed;;
      modify (λ w, mkInspWorld (iw_db w) (iw_events w ++ [(InspEventDomain, e)]))
  end.

(** [if err := CanTransition(from, to); err != nil { return err }] *)
Definition check_transition (from to : string) : svc unit :=
  match CanTransition from to with Some _ => throw ErrConflict | None => mret tt end.

Definition guardActor (s : Session) (actorID : uuid) (scope : Scope) : svc unit :=
  ensure (Unrestricted scope || bool_decide (actorID = ss_InspectorID s)) ErrNotInspector.

(** Set, if it is present. *)
Definition validateOptionalID (id : option uuid) : svc unit :=
  ensure (match id with Some u => negb (bool_decide (u = uuid_nil)) | None => true end)
    ErrInvalidInput.

Definition Insp_CreateSession (c : Ctx) (s : option Session) : svc Session :=
  s ← from_option s ErrInvalidInput;
  ensure (negb (bool_decide (ss_InspectorID s = uuid_nil))) ErrInvalidInput;;
  ensure (IsVehicleClass (ss_VehicleClass s)) ErrInvalidInput;;
  t ← from_option (ActiveTemplateForClass (ss_VehicleClass s))
        (NoActiveTemplateError (ss_VehicleClass s));
  validateOptionalID (ss_VehicleID s);;
  validateOptionalID (ss_JobID s);;
  validateOptionalID (ss_CustomerID s);;
  ensure (String.eqb (ss_Status s) "" || String.eqb (ss_Status s) StatusCreated)
    ErrInvalidInput;;
  s ← on_db (CreateSession (ctx_now c) (ctx_fresh c 0)
    (mkSession (ss_ID s) (ss_TenantID s) (ss_VehicleID s) (ss_JobID s) (ss_CustomerID s)
       (ss_VehicleClass s) (tm_ID t) (tm_Name t) (tm_Version t) (ss_InspectorID s) StatusCreated
       (ss_StartedAt s) (ss_SubmittedAt s) (ss_ReportedAt s) (ss_CreatedAt s) (ss_UpdatedAt s)));
  publish c (ctx_fresh c 1) EventSessionCreated (ss_ID s) (Some (ss_InspectorID s))
    (tenantString (ss_TenantID s))
    (SessionCreatedPayload (ss_ID s) (ss_VehicleClass s) (ss_VehicleID s) (ss_JobID s)
       (ss_CustomerID s) (ss_TemplateID s) (ss_TemplateName s) (ss_TemplateVersion s)
       (ss_InspectorID s));;
  mret s.

Definition Start (c : Ctx) (sessionID actorID : uuid) (scope : Scope) : svc Session :=
  s ← on_db (GetSession sessionID scope);
  guardActor s actorID scope;;
  check_transition (ss_Status s) StatusInProgress;;
  on_db (UpdateSessionStatus (ctx_now c) sessionID (ss_Status s) StatusInProgress
           (Some actorID) "inspection started");;
  updated ← on_db (GetSession sessionID scope);
  publish c (ctx_fresh c 0) EventSessionStarted sessionID (Some actorID)
    (tenantString (ss_TenantID updated))
    (SessionStartedPayload sessionID (ss_InspectorID updated) (ss_VehicleID updated));;
  mret updated.

(** The finding to record. *)
Definition validateFindingInput (t : Template) (f : option Finding) (actorID : uuid)
    : InspError + Finding :=
  match f with
  | None => inl ErrInvalidInput
  | Some f =>
      match Item t (fi_ItemKey f) with
      | None => inl ErrInvalidInput
      | Some _ =>
          if negb (is_target [ResultPass; ResultFail; ResultAttention; ResultNotApplicable]
                     (fi_Result f)) then inl ErrInvalidInput
          else if negb (is_target [SeverityGreen; SeverityAmber; SeverityRed] (fi_Severity f))
          then inl ErrInvalidInput
          else if negb (IsResultSeverityLegal (fi_Result f) (fi_Severity f))
          then inl ErrInvalidInput
          else if (MaxNotesLength <? blen (fi_Notes f))%nat then inl ErrInvalidInput
          else inr (mkFinding (fi_ID f) (fi_SessionID f) (fi_ItemKey f) (fi_Result f)
                      (fi_Severity f) (fi_Notes f)
                      (if bool_decide (actorID = uuid_nil) then fi_RecordedBy f else Some actorID)
                      (fi_CreatedAt f))
      end
  end.

Definition of_session (sessionID : uuid) (f : Finding) : Finding :=
  mkFinding (fi_ID f) sessionID (fi_ItemKey f) (fi_Result f) (fi_Severity f) (fi_Notes f)
    (fi_RecordedBy f) (fi_CreatedAt f).

Definition RecordFinding (c : Ctx) (sessionID : uuid) (f : option Finding) (actorID : uuid)
    (scope : Scope) : svc Finding :=
  s ← on_db (GetSession sessionID scope);
  guardActor s actorID scope;;
  ensure (String.eqb (ss_Status s) StatusInProgress) ErrSessionSealed;;
  t ← from_option (TemplateByID (ss_TemplateID s)) (TemplateNotFoundError (ss_TemplateID s));
  f ← from_sum (validateFindingInput t f actorID);
  on_db (InsertFinding (ctx_now c) (ctx_fresh c 0) (of_session (ss_ID s) f)).

(** The evidence to attach. *)
Definition validateEvidenceInput (now : time) (e : option Evidence) (actorID : uuid)
    : InspError + Evidence :=
  match e with
  | None => inl ErrInvalidInput
  | Some e =>
      if negb (sha256HexPattern (ev_ContentHash e)) then inl ErrInvalidInput
      else if negb (IsEvidenceKind (ev_Kind e)) then inl ErrInvalidInput
      else if is_zero (ev_CapturedAt e) then inl ErrInvalidInput
      else if (now + maxCapturedAtSkew <? ev_CapturedAt e) then inl ErrInvalidInput
      else if (MaxNotesLength <? blen (ev_Notes e))%nat then inl ErrInvalidInput
      else inr (mkEvidence (ev_ID e) (ev_SessionID e) (ev_FindingID e) (ev_Kind e)
                  (ev_ContentHash e) (ev_CapturedAt e)
                  (if bool_decide (actorID = uuid_nil) then ev_CapturedBy e else Some actorID)
                  (ev_Uploaded e) (ev_Notes e) (ev_CreatedAt e))
  end.

Definition evidence_of_session (sessionID : uuid) (e : Evidence) : Evidence :=
  mkEvidence (ev_ID e) sessionID (ev_FindingID e) (ev_Kind e) (ev_ContentHash e)
    (ev_CapturedAt e) (ev_CapturedBy e) (ev_Uploaded e) (ev_Notes e) (ev_CreatedAt e).

(** The finding the evidence names is one of the session. *)
Definition check_linkage (s : Session) (e : Evidence) (scope : Scope) : svc unit :=
  match ev_FindingID e with
  | Some u =>
      findings ← on_db (ListFindings (ss_ID s) scope);
      ensure (existsb (λ f, bool_decide (fi_ID f = u)) findings) ErrInvalidInput
  | None => mret tt
  end.

Definition AttachEvidence (c : Ctx) (sessionID : uuid) (e : option Evidence) (actorID : uuid)
    (scope : Scope) : svc Evidence :=
  s ← on_db (GetSession sessionID scope);
  guardActor s actorID scope;;
  ensure (String.eqb (ss_Status s) StatusInProgress) ErrSessionSealed;;
  e ← from_sum (validateEvidenceInput (ctx_now c) e actorID);
  check_linkage s e scope;;
  on_db (InsertEvidence (ctx_now c) (ctx_fresh c 0) (evidence_of_session (ss_ID s) e)).

(** [if err := CheckReportReadiness(...); err != nil { return err }] *)
Definition require_ready (t : Template) (findings : list Finding) (evidence : list Evidence)
    : svc unit :=
  match CheckReportReadiness t findings evidence with
  | [] => mret tt
  | issues => throw (ErrReportIncomplete issues)
  end.

Definition checkReadiness (s : Session) (scope : Scope) : svc unit :=
  t ← from_option (TemplateByID (ss_TemplateID s)) (TemplateNotFoundError (ss_TemplateID s));
  findings ← on_db (ListFindings (ss_ID s) scope);
  evidence ← on_db (ListEvidence (ss_ID s) scope);
  require_ready t findings evidence.

Definition Submit (c : Ctx) (sessionID actorID : uuid) (scope : Scope) : svc Session :=
  s ← on_db (GetSession sessionID scope);
  guardActor s actorID scope;;
  check_transition (ss_Status s) StatusSubmitted;;
  checkReadiness s scope;;
  on_db (UpdateSessionStatus (ctx_now c) sessionID (ss_Status s) StatusSubmitted
           (Some actorID) "inspection submitted");;
  updated ← on_db (GetSession sessionID scope);
  findings ← on_db (ListFindings sessionID scope);
  evidence ← on_db (ListEvidence sessionID scope);
  publish c (ctx_fresh c 0) EventSessionSubmitted sessionID (Some actorID)
    (tenantString (ss_TenantID updated))
    (SessionSubmittedPayload sessionID (ss_InspectorID updated)
       (length (SelectLatestFindings findings)) (length evidence)
       (ss_VehicleID updated) (ss_JobID updated));;
  mret updated.

(** The report of a session, before it is stored. *)
Definition assemble (s : Session) (findings : list Finding) (evidence : list Evidence)
    (actorID : uuid) (notes : string) : option Report :=
  let selected := SelectLatestFindings findings in
  findingsJSON ← marshalFindingsSnapshot selected;
  evidenceJSON ← marshalEvidenceSnapshot evidence;
  Some (mkReport uuid_nil (ss_ID s) ReportVersionInitial (ss_VehicleID s) (ss_JobID s)
    (ss_InspectorID s) (ss_TemplateID s) (ss_TemplateName s) (ss_TemplateVersion s)
    findingsJSON evidenceJSON (Z.of_nat (length selected)) (Z.of_nat (length evidence))
    (HashReportInput (BuildReportInput s selected evidence ReportVersionInitial))
    (Some actorID) notes zero_time).

Definition IssueReport (c : Ctx) (sessionID actorID : uuid) (notes : string) (scope : Scope)
    : svc Report :=
  s ← on_db (GetSession sessionID scope);
  guardActor s actorID scope;;
  check_transition (ss_Status s) StatusReportAvailable;;
  t ← from_option (TemplateByID (ss_TemplateID s)) (TemplateNotFoundError (ss_TemplateID s));
  findings ← on_db (ListFindings sessionID scope);
  evidence ← on_db (ListEvidence sessionID scope);
  require_ready t findings evidence;;
  report ← from_option (assemble s findings evidence actorID notes) ErrMarshal;
  ensure (negb (MaxNotesLength <? blen notes)%nat) ErrInvalidInput;;
  report ← on_db (InsertReport (ctx_now c) (ctx_fresh c 0) report);
  publish c (ctx_fresh c 1) EventReportIssued (rp_ID report) (Some actorID)
    (tenantString (ss_TenantID s))
    (ReportIssuedPayload (ss_ID s) (rp_ID report) (rp_Version report) (rp_ContentHash report)
       (rp_InspectorID report) (rp_FindingsCount report) (rp_EvidenceCount report)
       (rp_TemplateVersion report));;
  mret report.

Definition Insp_GetSession (id : uuid) (scope : Scope) : svc Session :=
  on_db (GetSession id scope).

Definition Sessions (scope : Scope) (filter : SessionFilter) (limit offset : Z)
    : svc (list Session) :=
  let limit := clamp_limit DefaultSessionsLimit MaxSessionsLimit limit in
  let offset := clamp_offset offset in
  ensure (match sf_Status filter with Some s => isKnownStatus s | None => true end)
    ErrInvalidInput;;
  on_db (ListSessions scope filter limit offset).

Definition Findings (sessionID : uuid) (scope : Scope) : svc (list Finding) :=
  on_db (GetSession sessionID scope);;
  on_db (ListFindings sessionID scope).

Definition Evidences (sessionID : uuid) (scope : Scope) : svc (list Evidence) :=
  on_db (GetSession sessionID scope);;
  on_db (ListEvidence sessionID scope).

Definition Insp_GetReport (sessionID : uuid) (version : option Z) (scope : Scope) : svc Report :=
  on_db (GetSession sessionID scope);;
  on_db (GetReport sessionID version scope).

Definition Verify (c : Ctx) (sessionID : uuid) (version : option Z) (scope : Scope)
    : svc ReportVerification :=
  s ← on_db (GetSession sessionID scope);
  report ← on_db (GetReport sessionID version scope);
  t ← from_option (TemplateByID (ss_TemplateID s)) (TemplateNotFoundError (ss_TemplateID s));
  findings ← on_db (ListFindings sessionID scope);
  evidence ← on_db (ListEvidence sessionID scope);
  mret (VerifyReport (ctx_now c) t s findings evidence report).

End Service.

#[global] Arguments publish : simpl never.
#[global] Arguments check_transition : simpl never.
#[global] Arguments assemble : simpl never.
