(* ===== verification/InspInvariant.v ===== *)
(** * InspInvariant: what every inspections database satisfies

    The store calls the service makes, in any interleaving ([insp_step]), and the
    invariant they keep: the stamps and the audit trail of a session agree with its
    status, findings and evidence belong together, and the one report of a session
    certifies the rows that are still there. *)

From Stdlib Require Import Ascii.
From S2P Require Import Prelude Text Sha256 Platform Sql Wire PayMachine PayModels InspModels.
From S2P Require Import InspReport InspStore InspService.

Open Scope Z_scope.

(** ** Runs of the store methods *)

Section Runs.
Context `{Driver} `{JsonColumn}.

#[local] Arguments is_target : simpl never.
#[local] Arguments is_sha256_hex : simpl never.
#[local] Arguments sealed : simpl never.
#[local] Arguments has_session : simpl never.

Lemma CreateSession_run now fresh s d r d' :
  CreateSession now fresh s d = (r, d') →
  (∃ e, r = inl e) ∧ d' = d ∨
  ∃ row out, r = inr out ∧ ss_ID row = assign_id (ss_ID s) fresh ∧
    ss_ID out = ss_ID row ∧ inspection_sessions d !! ss_ID row = None ∧
    d' = with_sessions (insert (ss_ID row) row) d ∧
    row = mkSession (ss_ID row) (ss_TenantID s) (ss_VehicleID s) (ss_JobID s) (ss_CustomerID s)
            (ss_VehicleClass s) (ss_TemplateID s) (ss_TemplateName s) (ss_TemplateVersion s)
            (ss_InspectorID s) (ss_Status s) None None None now now.
Proof.
  intros R. unfold CreateSession, insert_session in R. unfold_run R. case_run R; eauto.
  reflect. right.
  exists (mkSession (assign_id (ss_ID s) fresh) (ss_TenantID s) (ss_VehicleID s) (ss_JobID s)
            (ss_CustomerID s) (ss_VehicleClass s) (ss_TemplateID s) (ss_TemplateName s)
            (ss_TemplateVersion s) (ss_InspectorID s) (ss_Status s) None None None now now).
  eexists. split_and!; done.
Qed.

Lemma UpdateSessionStatus_run now id from to actor reason d r d' :
  UpdateSessionStatus now id from to actor reason d = (r, d') →
  (∃ e, r = inl e) ∧ d' = d ∨
  r = inr tt ∧ ∃ s, inspection_sessions d !! id = Some s ∧ ss_Status s = from ∧
    isKnownStatus to = true ∧
    d' = with_transition (mkSessionTransition id from to actor reason now)
           (with_sessions (insert (ss_ID s) (session_stamp now to s)) d).
Proof.
  intros R. unfold UpdateSessionStatus in R. destruct r as [e|[]].
  { apply transact_error in R as ->. left. eauto. }
  right. split; [done|]. apply transact_ok in R.
  unfold update_session, insert_session_transition in R. unfold_run R. case_run R.
  props. subst. eexists. split_and!; done.
Qed.

Lemma InsertFinding_run now fresh f d r d' :
  InsertFinding now fresh f d = (r, d') →
  (∃ e, r = inl e) ∧ d' = d ∨
  ∃ row s, r = inr row ∧
    row = mkFinding (assign_id (fi_ID f) fresh) (fi_SessionID f) (fi_ItemKey f) (fi_Result f)
            (fi_Severity f) (fi_Notes f) (fi_RecordedBy f) now ∧
    inspection_sessions d !! fi_SessionID f = Some s ∧ ss_Status s = "IN_PROGRESS" ∧
    is_target AllFindingResults (fi_Result f) = true ∧
    is_target AllSeverities (fi_Severity f) = true ∧
    fi_ID row ∉ fi_ID <$> inspection_findings d ∧ d' = with_finding row d.
Proof.
  intros R. unfold InsertFinding, insert_finding in R. unfold_run R. case_run R; eauto;
  right; unfold sealed, has_session in *; cbn [fi_SessionID] in *;
  destruct (inspection_sessions d !! fi_SessionID f) as [s|] eqn:L; try done;
  props; eexists _, s; split_and!; done.
Qed.

Lemma InsertEvidence_run now fresh e d r d' :
  InsertEvidence now fresh e d = (r, d') →
  (∃ x, r = inl x) ∧ d' = d ∨
  ∃ row out s, r = inr out ∧
    row = mkEvidence (assign_id (ev_ID e) fresh) (ev_SessionID e) (ev_FindingID e) (ev_Kind e)
            (ev_ContentHash e) (timestamptz (ev_CapturedAt e)) (ev_CapturedBy e) (ev_Uploaded e)
            (ev_Notes e) now ∧
    inspection_sessions d !! ev_SessionID e = Some s ∧ ss_Status s = "IN_PROGRESS" ∧
    IsEvidenceKind (ev_Kind e) = true ∧ is_sha256_hex (ev_ContentHash e) = true ∧
    ev_ID row ∉ ev_ID <$> inspection_evidence d ∧ d' = with_evidence row d.
Proof.
  intros R. unfold InsertEvidence, insert_evidence in R. unfold_run R. case_run R; eauto;
  right; unfold sealed, has_session in *; cbn [ev_SessionID] in *;
  destruct (inspection_sessions d !! ev_SessionID e) as [s|] eqn:L; try done;
  props; eexists _, _, s; split_and!; done.
Qed.

(** The stored form of a report. *)
Definition stored (now : time) (fresh : uuid) (r : Report) : Report :=
  mkReport (assign_id (rp_ID r) fresh) (rp_SessionID r) (rp_Version r) (rp_VehicleID r)
    (rp_JobID r) (rp_InspectorID r) (rp_TemplateID r) (rp_TemplateName r) (rp_TemplateVersion r)
    (json_text (rp_FindingsSnapshot r)) (json_text (rp_EvidenceSnapshot r)) (rp_FindingsCount r)
    (rp_EvidenceCount r) (rp_ContentHash r) (rp_IssuedBy r) (rp_Notes r) now.

Lemma InsertReport_run now fresh r d x d' :
  InsertReport now fresh r d = (x, d') →
  (∃ e, x = inl e) ∧ d' = d ∨
  ∃ out s, x = inr out ∧ inspection_sessions d !! rp_SessionID r = Some s ∧
    ss_Status s = "SUBMITTED" ∧ next_version d (rp_SessionID r) = rp_Version r ∧
    d' = with_transition (mkSessionTransition (rp_SessionID r) "SUBMITTED" "REPORT_AVAILABLE"
                            (rp_IssuedBy r) "report issued" now)
           (with_sessions (insert (ss_ID s) (session_stamp now StatusReportAvailable s))
              (with_report (stored now fresh r) d)).
Proof.
  intros R. unfold InsertReport in R.
  apply bind_inv in R as [(e & R & ->)|([] & d1 & G & R)].
  { apply ensure_inv in R as [-> _]. left. eauto. }
  apply ensure_inv in G as [-> _]. destruct x as [e|out].
  { apply transact_error in R as ->. left. eauto. }
  right. apply transact_ok in R.
  unfold insert_report, update_session, insert_session_transition in R. unfold_run R. case_run R.
  props. eexists _, _. split_and!; done.
Qed.

End Runs.

(** ** The rows of a session *)

Definition session_findings (d : insp_db) (id : uuid) : list Finding :=
  merge_sort (oldest_first fi_CreatedAt fi_ID)
    (List.filter (λ f, bool_decide (fi_SessionID f = id)) (inspection_findings d)).
Definition session_evidence (d : insp_db) (id : uuid) : list Evidence :=
  merge_sort (oldest_first ev_CreatedAt ev_ID)
    (List.filter (λ e, bool_decide (ev_SessionID e = id)) (inspection_evidence d)).
Definition session_trail (d : insp_db) (id : uuid) : list SessionTransition :=
  List.filter (λ t, bool_decide (st_SessionID t = id)) (inspection_session_transitions d).

(** The rows lead from one status to another without a gap, by legal moves. *)
Fixpoint session_chain (s : string) (log : list SessionTransition) (s' : string) : Prop :=
  match log with
  | [] => s = s'
  | t :: log => st_FromStatus t = s ∧ CanTransition s (st_ToStatus t) = None ∧
                session_chain (st_ToStatus t) log s'
  end.

Lemma session_chain_app s log t s' :
  session_chain s log s' → st_FromStatus t = s' → CanTransition s' (st_ToStatus t) = None →
  session_chain s (log ++ [t]) (st_ToStatus t).
Proof. revert s. induction log; naive_solver. Qed.

Lemma elem_of_session_findings d id f :
  f ∈ session_findings d id ↔ f ∈ inspection_findings d ∧ fi_SessionID f = id.
Proof.
  unfold session_findings.
  by rewrite merge_sort_Permutation, list_elem_of_In, List.filter_In, <-list_elem_of_In,
    bool_decide_eq_true.
Qed.

Lemma elem_of_session_evidence d id e :
  e ∈ session_evidence d id ↔ e ∈ inspection_evidence d ∧ ev_SessionID e = id.
Proof.
  unfold session_evidence.
  by rewrite merge_sort_Permutation, list_elem_of_In, List.filter_In, <-list_elem_of_In,
    bool_decide_eq_true.
Qed.

(** ** The invariant *)

Section Invariant.
Context `{UuidText} `{UuidV5} `{JsonColumn}.

(** The session carries the identity of the active template of its class. *)
Definition templated (s : Session) (t : Template) : Prop :=
  ActiveTemplateForClass (ss_VehicleClass s) = Some t ∧
  ss_TemplateID s = tm_ID t ∧ ss_TemplateName s = tm_Name t ∧ ss_TemplateVersion s = tm_Version t.

Definition stamped (s : Session) : Prop :=
  (is_Some (ss_StartedAt s) ↔ ss_Status s ≠ "CREATED") ∧
  (is_Some (ss_SubmittedAt s) ↔ ss_Status s = "SUBMITTED" ∨ ss_Status s = "REPORT_AVAILABLE") ∧
  (is_Some (ss_ReportedAt s) ↔ ss_Status s = "REPORT_AVAILABLE").

(** What the service assembles for a session from its rows in the database. *)
Definition assembled (d : insp_db) (s : Session) (actor : uuid) (notes : string) (r : Report)
    : Prop :=
  assemble s (session_findings d (ss_ID s)) (session_evidence d (ss_ID s)) actor notes = Some r.

Record insp_ok (d : insp_db) : Prop := {
  ik_session : ∀ id s, inspection_sessions d !! id = Some s →
    ss_ID s = id ∧ isKnownStatus (ss_Status s) = true ∧ stamped s ∧ ∃ t, templated s t;
  ik_trail : ∀ id, match inspection_sessions d !! id with
    | Some s => session_chain "CREATED" (session_trail d id) (ss_Status s)
    | None => session_trail d id = []
    end;
  ik_finding_ids : NoDup (fi_ID <$> inspection_findings d);
  ik_evidence_ids : NoDup (ev_ID <$> inspection_evidence d);
  ik_finding : ∀ f, f ∈ inspection_findings d → ∃ s t,
    inspection_sessions d !! fi_SessionID f = Some s ∧ ss_Status s ≠ "CREATED" ∧
    templated s t ∧ is_Some (Item t (fi_ItemKey f)) ∧
    IsResultSeverityLegal (fi_Result f) (fi_Severity f) = true;
  ik_evidence : ∀ e, e ∈ inspection_evidence d → ∃ s,
    inspection_sessions d !! ev_SessionID e = Some s ∧ ss_Status s ≠ "CREATED" ∧
    IsEvidenceKind (ev_Kind e) = true ∧ is_sha256_hex (ev_ContentHash e) = true ∧
    ∀ u, ev_FindingID e = Some u → ∃ f, f ∈ inspection_findings d ∧ fi_ID f = u ∧
      fi_SessionID f = ev_SessionID e;
  ik_report : ∀ r, r ∈ inspection_reports d → ∃ s t actor now fresh r0,
    inspection_sessions d !! rp_SessionID r = Some s ∧ ss_Status s = "REPORT_AVAILABLE" ∧
    assembled d s actor (rp_Notes r0) r0 ∧ r = stored now fresh r0 ∧
    templated s t ∧ CheckReportReadiness t (session_findings d (ss_ID s))
      (session_evidence d (ss_ID s)) = [];
  ik_reported : ∀ id s, inspection_sessions d !! id = Some s → ss_Status s = "REPORT_AVAILABLE" →
    ∃ r, r ∈ inspection_reports d ∧ rp_SessionID r = id;
  ik_once : NoDup (rp_SessionID <$> inspection_reports d);
}.

Lemma empty_insp_db_ok : insp_ok empty_insp_db.
Proof.
  split; simpl; try (intros *; rewrite ?lookup_empty; done);
    try (by constructor); intros *; set_solver.
Qed.

(** ** The steps of the service *)

Inductive insp_step `{Driver} (d : insp_db) : insp_db → Prop :=
  | istep_create now fresh s r d' :
      ss_Status s = StatusCreated → (∃ t, templated s t) →
      CreateSession now fresh s d = (r, d') → insp_step d d'
  | istep_move now id from to actor reason r d' :
      CanTransition from to = None → to ≠ StatusReportAvailable →
      UpdateSessionStatus now id from to actor reason d = (r, d') → insp_step d d'
  | istep_finding now fresh f r d' :
      (∀ s t, inspection_sessions d !! fi_SessionID f = Some s → templated s t →
         is_Some (Item t (fi_ItemKey f))) →
      IsResultSeverityLegal (fi_Result f) (fi_Severity f) = true →
      InsertFinding now fresh f d = (r, d') → insp_step d d'
  | istep_evidence now fresh e r d' :
      (∀ u, ev_FindingID e = Some u → ∃ f, f ∈ inspection_findings d ∧ fi_ID f = u ∧
         fi_SessionID f = ev_SessionID e) →
      InsertEvidence now fresh e d = (r, d') → insp_step d d'
  | istep_report now fresh s t actor r x d' :
      inspection_sessions d !! ss_ID s = Some s →
      assembled d s actor (rp_Notes r) r → templated s t →
      CheckReportReadiness t (session_findings d (ss_ID s)) (session_evidence d (ss_ID s)) = [] →
      InsertReport now fresh r d = (x, d') → insp_step d d'.

Definition insp_steps `{Driver} : insp_db → insp_db → Prop := rtc insp_step.
Definition insp_reachable `{Driver} (d : insp_db) : Prop := insp_steps empty_insp_db d.

End Invariant.

(** ** Preservation *)

Lemma CanTransition_legal from to :
  CanTransition from to = None ↔
  from = "CREATED" ∧ to = "IN_PROGRESS" ∨ from = "IN_PROGRESS" ∧ to = "SUBMITTED" ∨
  from = "SUBMITTED" ∧ to = "REPORT_AVAILABLE".
Proof.
  unfold CanTransition, transitions. cbn [map_get].
  destruct (String.eqb_spec StatusCreated from) as [<-|N1];
    [|destruct (String.eqb_spec StatusInProgress from) as [<-|N2];
      [|destruct (String.eqb_spec StatusSubmitted from) as [<-|N3]]]; cbn [is_target];
    try match goal with |- context [String.eqb ?a to] => destruct (String.eqb_spec a to) as [<-|] end;
    unfold StatusCreated, StatusInProgress, StatusSubmitted, StatusReportAvailable in *;
    naive_solver.
Qed.

Lemma stamped_moved now s to :
  stamped s → CanTransition (ss_Status s) to = None → stamped (session_stamp now to s).
Proof.
  unfold stamped. rewrite CanTransition_legal.
  intros (A & B & C) [[E ->]|[[E ->]|[E ->]]]; rewrite E in *; simpl;
    (split; [|split]); rewrite ?A, ?B, ?C; split; try done; try naive_solver; by eexists.
Qed.

Lemma find_same_findings d f id : fi_SessionID f ≠ id →
  session_findings (with_finding f d) id = session_findings d id.
Proof.
  intros N. unfold session_findings. cbn [inspection_findings with_finding].
  rewrite List.filter_app. cbn [List.filter].
  by rewrite bool_decide_eq_false_2, app_nil_r.
Qed.

Lemma find_same_evidence d e id : ev_SessionID e ≠ id →
  session_evidence (with_evidence e d) id = session_evidence d id.
Proof.
  intros N. unfold session_evidence. cbn [inspection_evidence with_evidence].
  rewrite List.filter_app. cbn [List.filter].
  by rewrite bool_decide_eq_false_2, app_nil_r.
Qed.

Lemma trail_with_transition d t id :
  session_trail (with_transition t d) id =
  session_trail d id ++ (if bool_decide (st_SessionID t = id) then [t] else []).
Proof.
  unfold session_trail. cbn [inspection_session_transitions with_transition].
  rewrite List.filter_app. cbn [List.filter]. by case_bool_decide.
Qed.

(** The sum of the report versions of a session without reports. *)
Lemma no_report_next_version d id :
  id ∉ rp_SessionID <$> inspection_reports d → next_version d id = 1.
Proof.
  intros N. unfold next_version.
  assert (List.filter (λ r, bool_decide (rp_SessionID r = id)) (inspection_reports d) = []) as ->;
    [|done].
  induction (inspection_reports d) as [|r l IH]; [done|]. rewrite fmap_cons in N.
  cbn [List.filter]. rewrite bool_decide_eq_false_2 by set_solver. apply IH. set_solver.
Qed.

Section Preservation.
Context `{UuidText} `{UuidV5} `{JsonColumn} `{Driver}.

Lemma session_created_ok d row :
  insp_ok d → inspection_sessions d !! ss_ID row = None → ss_Status row = StatusCreated →
  (∃ t, templated row t) → ss_StartedAt row = None → ss_SubmittedAt row = None →
  ss_ReportedAt row = None →
  insp_ok (with_sessions (insert (ss_ID row) row) d).
Proof.
  intros [] N St T S1 S2 S3.
  assert (∀ id s, inspection_sessions d !! id = Some s →
            <[ss_ID row := row]> (inspection_sessions d) !! id = Some s) as Old.
  { intros id s L. rewrite lookup_insert_ne; [done|congruence]. }
  constructor; try done; cbn [inspection_sessions with_sessions inspection_reports].
  - intros id s [[<- <-]|[_ L]]%lookup_insert_Some; [|eauto].
    split_and!; try done; [by rewrite St|].
    unfold stamped. rewrite S1, S2, S3, St. split_and!; (split; [by intros []|]); naive_solver.
  - intros id. specialize (ik_trail0 id).
    destruct (decide (ss_ID row = id)) as [<-|Ne].
    + rewrite lookup_insert_eq, St. rewrite N in ik_trail0.
      change (session_trail _ _) with (session_trail d (ss_ID row)). by rewrite ik_trail0.
    + by rewrite lookup_insert_ne.
  - intros f I. destruct (ik_finding0 f I) as (s & t & L & ?). exists s, t. auto.
  - intros e I. destruct (ik_evidence0 e I) as (s & L & ?). exists s. auto.
  - intros r I. destruct (ik_report0 r I) as (s & t & a & no & fr & r0 & L & ?).
    exists s, t, a, no, fr, r0. auto.
  - intros id s [[<- <-]|[_ L]]%lookup_insert_Some E; [by rewrite St in E|eauto].
Qed.

(** A legal move of a session that is not reported before or after. *)
Lemma session_moved_ok d now id s to actor reason :
  insp_ok d → inspection_sessions d !! id = Some s → CanTransition (ss_Status s) to = None →
  to ≠ "REPORT_AVAILABLE" →
  insp_ok (with_transition (mkSessionTransition id (ss_Status s) to actor reason now)
             (with_sessions (insert (ss_ID s) (session_stamp now to s)) d)).
Proof.
  intros [] L M NR. destruct (ik_session0 _ _ L) as (Id & _ & Sp & t & T). rewrite Id.
  assert (to ≠ "CREATED" ∧ ss_Status s ≠ "REPORT_AVAILABLE" ∧ isKnownStatus to = true) as (NC & NS & K).
  { apply CanTransition_legal in M as [[-> ->]|[[-> ->]|[_ ->]]]; done. }
  assert (∀ i s0, inspection_sessions d !! i = Some s0 → ∃ s1,
            <[id := session_stamp now to s]> (inspection_sessions d) !! i = Some s1 ∧
            (s1 = s0 ∨ i = id ∧ s0 = s ∧ s1 = session_stamp now to s)) as Old.
  { intros i s0 L0. destruct (decide (id = i)) as [<-|].
    - rewrite lookup_insert_eq. eexists. split; [done|]. right. rewrite L in L0. naive_solver.
    - rewrite lookup_insert_ne by done. eauto. }
  constructor; try done;
    cbn [inspection_sessions with_sessions inspection_reports with_transition].
  - intros i s0 [[<- <-]|[_ L0]]%lookup_insert_Some; [|eauto].
    split_and!; try done; [by apply stamped_moved|by exists t].
  - intros i. rewrite trail_with_transition. cbn [st_SessionID].
    change (session_trail (with_sessions _ d) i) with (session_trail d i).
    specialize (ik_trail0 i). destruct (decide (id = i)) as [<-|Ne].
    + rewrite lookup_insert_eq, bool_decide_eq_true_2 by done. rewrite L in ik_trail0.
      by apply (session_chain_app _ _ (mkSessionTransition id (ss_Status s) to actor reason now)
                  (ss_Status s)).
    + by rewrite lookup_insert_ne, bool_decide_eq_false_2, app_nil_r.
  - intros f I. destruct (ik_finding0 f I) as (s0 & t0 & L0 & C & T0 & ?).
    destruct (Old _ _ L0) as (s1 & L1 & [->|(_ & -> & ->)]); [by exists s0, t0|].
    exists (session_stamp now to s), t0. split_and!; [done..|exact T0| |]; naive_solver.
  - intros e I. destruct (ik_evidence0 e I) as (s0 & L0 & C & ?).
    destruct (Old _ _ L0) as (s1 & L1 & [->|(_ & -> & ->)]); [by exists s0|].
    exists (session_stamp now to s). split_and!; [done..| | |]; naive_solver.
  - intros r I. destruct (ik_report0 r I) as (s0 & t0 & a & no & fr & r0 & L0 & S0 & ?).
    destruct (Old _ _ L0) as (s1 & L1 & [->|(_ & -> & ->)]); [|congruence].
    exists s0, t0, a, no, fr, r0. done.
  - intros i s0 [[<- <-]|[_ L0]]%lookup_insert_Some E; [done|eauto].
Qed.

Lemma NoDup_snoc {A B} (g : A → B) l x :
  NoDup (g <$> l) → g x ∉ g <$> l → NoDup (g <$> l ++ [x]).
Proof.
  intros Nd N. rewrite list.fmap_app. apply list.NoDup_app. split_and!; [done| |apply NoDup_singleton].
  intros y I J. apply list_elem_of_singleton in J as ->. done.
Qed.

Lemma finding_recorded_ok d f s :
  insp_ok d → inspection_sessions d !! fi_SessionID f = Some s → ss_Status s = "IN_PROGRESS" →
  (∀ t, templated s t → is_Some (Item t (fi_ItemKey f))) →
  IsResultSeverityLegal (fi_Result f) (fi_Severity f) = true →
  fi_ID f ∉ fi_ID <$> inspection_findings d → insp_ok (with_finding f d).
Proof.
  intros [] L St It Le N. constructor; try done;
    cbn [inspection_sessions with_finding inspection_findings inspection_reports inspection_evidence].
  - by apply NoDup_snoc.
  - intros g [I|I]%elem_of_app; [by apply ik_finding0|]. apply list_elem_of_singleton in I as ->.
    destruct (ik_session0 _ _ L) as (_ & _ & _ & t & T). exists s, t.
    split_and!; auto. by rewrite St.
  - intros e I. destruct (ik_evidence0 e I) as (s0 & ? & ? & ? & ? & Li). exists s0.
    split_and!; try done. intros u E. destruct (Li u E) as (g & ? & ?). exists g.
    split; [|done]. apply elem_of_app. by left.
  - intros r I. destruct (ik_report0 r I) as (s0 & t0 & a & no & fr & r0 & L0 & S0 & As & ?).
    exists s0, t0, a, no, fr, r0. unfold assembled in *. rewrite find_same_findings.
    + done.
    + intros E. destruct (ik_session0 _ _ L0) as [Id _]. rewrite <-Id, <-E in L0. congruence.
Qed.

Lemma evidence_attached_ok d e s :
  insp_ok d → inspection_sessions d !! ev_SessionID e = Some s → ss_Status s = "IN_PROGRESS" →
  IsEvidenceKind (ev_Kind e) = true → is_sha256_hex (ev_ContentHash e) = true →
  (∀ u, ev_FindingID e = Some u → ∃ f, f ∈ inspection_findings d ∧ fi_ID f = u ∧
     fi_SessionID f = ev_SessionID e) →
  ev_ID e ∉ ev_ID <$> inspection_evidence d → insp_ok (with_evidence e d).
Proof.
  intros [] L St K Hx Li N. constructor; try done;
    cbn [inspection_sessions with_evidence inspection_findings inspection_reports inspection_evidence].
  - by apply NoDup_snoc.
  - intros g [I|I]%elem_of_app; [by apply ik_evidence0|]. apply list_elem_of_singleton in I as ->.
    exists s. split_and!; try done. by rewrite St.
  - intros r I. destruct (ik_report0 r I) as (s0 & t0 & a & no & fr & r0 & L0 & S0 & As & ?).
    exists s0, t0, a, no, fr, r0. unfold assembled in *.
    rewrite find_same_evidence.
    + done.
    + intros E. destruct (ik_session0 _ _ L0) as [Id _]. rewrite <-Id, <-E in L0. congruence.
Qed.

Lemma assemble_Some s fs es actor notes r : assemble s fs es actor notes = Some r →
  rp_SessionID r = ss_ID s ∧ rp_Version r = 1 ∧ rp_Notes r = notes ∧
  rp_IssuedBy r = Some actor ∧
  rp_ContentHash r = HashReportInput (BuildReportInput s (SelectLatestFindings fs) es 1) ∧
  marshalFindingsSnapshot (SelectLatestFindings fs) = Some (rp_FindingsSnapshot r) ∧
  marshalEvidenceSnapshot es = Some (rp_EvidenceSnapshot r).
Proof.
  unfold assemble. destruct (marshalFindingsSnapshot _) as [a|]; [|done].
  destruct (marshalEvidenceSnapshot _) as [b|]; [|done]. intros Eq.
  apply (inj Some) in Eq as <-. done.
Qed.

Lemma report_issued_ok d now fresh s t actor r :
  insp_ok d → inspection_sessions d !! ss_ID s = Some s → ss_Status s = "SUBMITTED" →
  assembled d s actor (rp_Notes r) r → templated s t →
  CheckReportReadiness t (session_findings d (ss_ID s)) (session_evidence d (ss_ID s)) = [] →
  insp_ok (with_transition (mkSessionTransition (ss_ID s) "SUBMITTED" "REPORT_AVAILABLE"
                              (rp_IssuedBy r) "report issued" now)
             (with_sessions (insert (ss_ID s) (session_stamp now StatusReportAvailable s))
                (with_report (stored now fresh r) d))).
Proof.
  intros [] L St As T Rd. destruct (ik_session0 _ _ L) as (_ & _ & Sp & _).
  pose proof (assemble_Some _ _ _ _ _ _ As) as (Rs & _).
  set (s' := session_stamp now StatusReportAvailable s).
  assert (CanTransition (ss_Status s) StatusReportAvailable = None) as M
    by (rewrite CanTransition_legal; rewrite St; auto).
  assert (ss_ID s ∉ rp_SessionID <$> inspection_reports d) as New.
  { intros (q & E & I)%list_elem_of_fmap.
    destruct (ik_report0 q I) as (s0 & t0 & a & no & fr & r0 & L0 & S0 & _).
    rewrite <-E, L in L0. injection L0 as <-. rewrite St in S0. done. }
  assert (∀ i s0, inspection_sessions d !! i = Some s0 → ∃ s1,
            <[ss_ID s := s']> (inspection_sessions d) !! i = Some s1 ∧
            (s1 = s0 ∨ i = ss_ID s ∧ s0 = s ∧ s1 = s')) as Old.
  { intros i s0 L0. destruct (decide (ss_ID s = i)) as [<-|].
    - rewrite lookup_insert_eq. eexists. split; [done|]. right. rewrite L in L0. naive_solver.
    - rewrite lookup_insert_ne by done. eauto. }
  constructor; try done;
    cbn [inspection_sessions with_sessions inspection_reports with_transition with_report].
  - intros i s0 [[<- <-]|[_ L0]]%lookup_insert_Some; [|eauto].
    split_and!; try done; [by apply stamped_moved|by exists t].
  - intros i. rewrite trail_with_transition. cbn [st_SessionID].
    change (session_trail (with_sessions _ (with_report _ d)) i) with (session_trail d i).
    specialize (ik_trail0 i). destruct (decide (ss_ID s = i)) as [<-|Ne].
    + rewrite lookup_insert_eq, bool_decide_eq_true_2 by done. rewrite L, St in ik_trail0.
      by apply (session_chain_app _ _ (mkSessionTransition (ss_ID s) "SUBMITTED"
           "REPORT_AVAILABLE" (rp_IssuedBy r) "report issued" now) "SUBMITTED").
    + by rewrite lookup_insert_ne, bool_decide_eq_false_2, app_nil_r.
  - intros f I. destruct (ik_finding0 f I) as (s0 & t0 & L0 & C & T0 & ?).
    destruct (Old _ _ L0) as (s1 & L1 & [->|(_ & -> & ->)]); [by exists s0, t0|].
    exists s', t0. split_and!; [done..|exact T0| |]; naive_solver.
  - intros e I. destruct (ik_evidence0 e I) as (s0 & L0 & C & ?).
    destruct (Old _ _ L0) as (s1 & L1 & [->|(_ & -> & ->)]); [by exists s0|].
    exists s'. split_and!; [done..| | |]; naive_solver.
  - intros q [I|I]%elem_of_app.
    + destruct (ik_report0 q I) as (s0 & t0 & a & no & fr & r0 & L0 & S0 & ?).
      destruct (Old _ _ L0) as (s1 & L1 & [->|(_ & -> & ->)]); [|congruence].
      exists s0, t0, a, no, fr, r0. done.
    + apply list_elem_of_singleton in I as ->. exists s', t, actor, now, fresh, r.
      cbn [stored rp_SessionID]. rewrite Rs, lookup_insert_eq. by split_and!.
  - intros i s0 [[<- <-]|[_ L0]]%lookup_insert_Some E.
    + exists (stored now fresh r). split; [apply elem_of_app; right; set_solver|done].
    + destruct (ik_reported0 _ _ L0 E) as (q & Iq & Eq). exists q.
      split; [apply elem_of_app; by left|done].
  - apply NoDup_snoc; [done|]. cbn [stored rp_SessionID]. by rewrite Rs.
Qed.

Lemma insp_step_ok d d' : insp_ok d → insp_step d d' → insp_ok d'.
Proof.
  intros Ok S. destruct S as [now fresh s r d' St [t T] R|now id from to actor reason r d' M NR R
    |now fresh f r d' It Le R|now fresh e r d' Li R|now fresh s t actor r x d' L As T Rd R].
  - apply CreateSession_run in R as [[_ ->]|(row & out & _ & _ & _ & N & -> & E)]; [done|].
    apply session_created_ok; try done; rewrite E; try done. by exists t.
  - apply UpdateSessionStatus_run in R as [[_ ->]|(_ & s & L & <- & _ & ->)]; [done|].
    by apply session_moved_ok.
  - apply InsertFinding_run in R as [[_ ->]|(row & s & _ & E & L & St & _ & _ & N & ->)]; [done|].
    rewrite E in *. eapply finding_recorded_ok; try done. intros t T. by eapply It.
  - apply InsertEvidence_run in R as [[_ ->]|(row & out & s & _ & E & L & St & K & Hx & N & ->)];
      [done|].
    rewrite E in *. by eapply evidence_attached_ok.
  - pose proof (assemble_Some _ _ _ _ _ _ As) as (Rs & _).
    apply InsertReport_run in R as [[_ ->]|(out & s0 & _ & L0 & St & _ & ->)]; [done|].
    rewrite Rs in *. rewrite L in L0. injection L0 as <-. by eapply report_issued_ok.
Qed.

Lemma insp_steps_ok d d' : insp_ok d → insp_steps d d' → insp_ok d'.
Proof. intros Ok S. induction S; [done|]. eauto using insp_step_ok. Qed.

Lemma insp_reachable_ok d : insp_reachable d → insp_ok d.
Proof. apply insp_steps_ok, empty_insp_db_ok. Qed.

End Preservation.
