(* ===== verification/InspRefine.v ===== *)
(** * InspRefine: the inspections handlers take store steps

    What the scoped reads return for a principal: exactly the rows its scope sees, when
    the driver accepts the query, which depends on the scope alone. Then the triples of
    the primitive calls and of every handler. *)

From Stdlib Require Import Ascii.
From S2P Require Import Prelude Hoare Text Sha256 Platform Sql Wire PayMachine PayModels.
From S2P Require Import InspModels InspReport InspReportProps InspStore InspService.
From S2P Require Import InspInvariant.

Open Scope Z_scope.

(** The driver accepts the queries of a scope: the predicate starts at the second
    placeholder, after the identifier. *)
Definition readable `{Driver} (scope : Scope) : bool :=
  let '(pred, args) := scopePredicate scope "" "" "" 2 in
  accepts (1%nat :: match pred with Some p => placeholders p | None => [] end)
    (S (length args)).

(** All columns give the same placeholders and arguments. *)
Lemma scopePredicate_shape scope a b c :
  (match (scopePredicate scope a b c 2).1 with Some p => placeholders p | None => [] end,
   (scopePredicate scope a b c 2).2) =
  (match (scopePredicate scope "" "" "" 2).1 with Some p => placeholders p | None => [] end,
   (scopePredicate scope "" "" "" 2).2).
Proof.
  unfold scopePredicate. destruct (Unrestricted scope); [done|].
  by destruct (s_TenantID scope), (s_PrincipalID scope).
Qed.

Lemma readable_scope `{Driver} scope : personal_scope scope = false → readable scope = true.
Proof.
  unfold personal_scope, readable, scopePredicate. intros P.
  destruct (Unrestricted scope); [|destruct (s_TenantID scope), (s_PrincipalID scope); try done];
    simpl; apply accepts_exact; intros k; set_unfold; lia.
Qed.

Lemma pgx_unreadable scope : Unrestricted scope = false → personal_scope scope = true →
  readable (H:=pgx) scope = false.
Proof.
  unfold personal_scope, readable, scopePredicate. intros -> P.
  destruct (s_TenantID scope); [done|]. by destruct (s_PrincipalID scope).
Qed.

(** The predicate over the columns of a session selects what the scope sees. *)
Lemma predicate_sees scope (s : Session) sid (pre : string) :
  session_env s (pre +:+ "tenant_id") = of_uuid (ss_TenantID s) →
  session_env s (pre +:+ "inspector_id") = VUuid (ss_InspectorID s) →
  session_env s (pre +:+ "customer_id") = of_uuid (ss_CustomerID s) →
  let '(pred, args) := scopePredicate scope (pre +:+ "tenant_id") (pre +:+ "inspector_id")
                         (pre +:+ "customer_id") 2 in
  match pred with
  | Some p => ∀ more, eval None (VUuid sid :: args ++ more) (session_env s) p
                = sees_session scope s
  | None => sees_session scope s = true
  end.
Proof.
  intros E1 E2 E3. unfold scopePredicate, sees_session.
  destruct (Unrestricted scope); [done|].
  destruct (s_TenantID scope) as [t|]; [|destruct (s_PrincipalID scope) as [u|]];
    intros more; cbn [eval]; rewrite ?E1, ?E2, ?E3; [apply sql_eq_uuid| |done].
  f_equal; [apply sql_eq_VUuid|apply sql_eq_uuid].
Qed.

Section Reads.
Context `{Driver} `{UuidText} `{UuidV5} `{JsonColumn}.

Lemma GetSession_eq d id scope : insp_ok d →
  GetSession id scope d =
  (if readable scope then
     match inspection_sessions d !! id with
     | Some s => if sees_session scope s then inr s else inl ErrSessionNotFound
     | None => inl ErrSessionNotFound
     end
   else inl ErrDB, d).
Proof.
  intros Ok. unfold GetSession, sessionScopePredicate, send_query, readable.
  pose proof (scopePredicate_shape scope "tenant_id" "inspector_id" "customer_id") as Sh.
  pose proof (λ s, predicate_sees scope s id "" eq_refl eq_refl eq_refl) as Se.
  change ("" +:+ ?x) with x in Se. simpl String.app in Se.
  destruct (scopePredicate scope "tenant_id" "inspector_id" "customer_id" 2) as [pred args].
  destruct (scopePredicate scope "" "" "" 2) as [pred' args']. cbn [fst snd] in *.
  injection Sh as Sh ->. rewrite <-Sh.
  assert (placeholders (and_pred (CEq "id" 1) pred) =
          1%nat :: match pred with Some p => placeholders p | None => [] end) as ->
    by by destruct pred.
  cbn [length]. destruct (accepts _ _); [|done]. unfold_run_goal.
  destruct (inspection_sessions d !! id) as [s|] eqn:L; [|done].
  assert (eval None (VUuid id :: args') (session_env s) (and_pred (CEq "id" 1) pred) =
          sees_session scope s) as ->; [|by destruct (sees_session scope s)].
  destruct (ik_session _ Ok _ _ L) as [Id _]. specialize (Se s).
  assert (sql_eq (VUuid (ss_ID s)) (VUuid id) = true) as Eq
    by by rewrite sql_eq_VUuid, bool_decide_eq_true.
  destruct pred as [p|]; cbn [and_pred eval];
    change (session_env s "id") with (VUuid (ss_ID s));
    change (arg (VUuid id :: args') 1) with (VUuid id); rewrite Eq; cbn [andb].
  - specialize (Se []). by rewrite app_nil_r in Se.
  - done.
Qed.

(** The clause of the child tables, on a row of session [sid]. *)
Lemma child_eval alias id scope sid ver s more : alias ∈ ["f"; "e"; "r"] →
  let '(where_, args) := child_where alias id scope in
  eval (Some (session_env s)) (args ++ more) (child_env alias sid ver) where_ =
  bool_decide (sid = id) && sees_session scope s.
Proof.
  intros Al. unfold child_where.
  pose proof (predicate_sees scope s id "s." eq_refl eq_refl eq_refl) as Se.
  change ("s." +:+ "tenant_id") with "s.tenant_id" in Se.
  change ("s." +:+ "inspector_id") with "s.inspector_id" in Se.
  change ("s." +:+ "customer_id") with "s.customer_id" in Se.
  destruct (scopePredicate scope "s.tenant_id" "s.inspector_id" "s.customer_id" 2) as [pred args].
  assert (child_env alias sid ver (alias +:+ ".session_id") = VUuid sid) as Ch
    by (unfold child_env; by rewrite String.eqb_refl).
  destruct pred as [p|]; cbn [eval]; rewrite Ch.
  - change (arg ((VUuid id :: args) ++ more) 1) with (VUuid id).
    rewrite sql_eq_VUuid. f_equal. apply Se.
  - change (arg ([VUuid id] ++ more) 1) with (VUuid id).
    by rewrite sql_eq_VUuid, Se, andb_true_r.
Qed.

Lemma child_readable alias id scope :
  let '(where_, args) := child_where alias id scope in
  accepts (placeholders where_) (length args) = readable scope.
Proof.
  unfold child_where, readable, scopePredicate.
  destruct (Unrestricted scope); [done|].
  by destruct (s_TenantID scope), (s_PrincipalID scope).
Qed.

Lemma ListFindings_eq d id s scope :
  insp_ok d → inspection_sessions d !! id = Some s →
  ListFindings id scope d =
  (if readable scope
   then inr (if sees_session scope s then session_findings d id else [])
   else inl ErrDB, d).
Proof.
  intros Ok L. unfold ListFindings, send_query.
  pose proof (child_readable "f" id scope) as Re.
  pose proof (λ sid ver s, child_eval "f" id scope sid ver s [] ltac:(set_solver)) as Ev.
  destruct (child_where "f" id scope) as [where_ args]. rewrite Re.
  destruct (readable scope); [|done]. unfold_run_goal. f_equal. f_equal.
  rewrite (filter_ext_elem _ (λ f, bool_decide (fi_SessionID f = id) && sees_session scope s)).
  - destruct (sees_session scope s).
    + unfold session_findings. f_equal. apply filter_ext_elem. intros f _. apply andb_true_r.
    + rewrite filter_none; [done|]. intros f _. apply andb_false_r.
  - intros f I. destruct (ik_finding _ Ok f I) as (s0 & _ & L0 & _).
    specialize (Ev (fi_SessionID f) 0 s0). rewrite app_nil_r in Ev.
    unfold parent_env. rewrite L0. etrans; [exact Ev|].
    case_bool_decide as E; [|done]. rewrite E, L in L0. by injection L0 as <-.
Qed.

Lemma ListEvidence_eq d id s scope :
  insp_ok d → inspection_sessions d !! id = Some s →
  ListEvidence id scope d =
  (if readable scope
   then inr (if sees_session scope s then session_evidence d id else [])
   else inl ErrDB, d).
Proof.
  intros Ok L. unfold ListEvidence, send_query.
  pose proof (child_readable "e" id scope) as Re.
  pose proof (λ sid ver s, child_eval "e" id scope sid ver s [] ltac:(set_solver)) as Ev.
  destruct (child_where "e" id scope) as [where_ args]. rewrite Re.
  destruct (readable scope); [|done]. unfold_run_goal. f_equal. f_equal.
  rewrite (filter_ext_elem _ (λ e, bool_decide (ev_SessionID e = id) && sees_session scope s)).
  - destruct (sees_session scope s).
    + unfold session_evidence. f_equal. apply filter_ext_elem. intros e _. apply andb_true_r.
    + rewrite filter_none; [done|]. intros e _. apply andb_false_r.
  - intros e I. destruct (ik_evidence _ Ok e I) as (s0 & L0 & _).
    specialize (Ev (ev_SessionID e) 0 s0). rewrite app_nil_r in Ev.
    unfold parent_env. rewrite L0. etrans; [exact Ev|].
    case_bool_decide as E; [|done]. rewrite E, L in L0. by injection L0 as <-.
Qed.

(** The one report of a session. *)
Definition report_of (d : insp_db) (id : uuid) (version : option Z) : option Report :=
  List.find (λ r, bool_decide (rp_SessionID r = id) &&
                  match version with Some v => rp_Version r =? v | None => true end)
    (inspection_reports d).

Lemma head_filter {A} (p : A → bool) l : head (List.filter p l) = List.find p l.
Proof. induction l as [|x l IH]; [done|]. simpl. by destruct (p x). Qed.

(** At most one row satisfies a test that entails a key. *)
Lemma filter_one {A B} (g : A → B) (p : A → bool) k l :
  NoDup (g <$> l) → (∀ x, p x = true → g x = k) → (length (List.filter p l) ≤ 1)%nat.
Proof.
  intros Nd K. induction l as [|x l IH]; [simpl; lia|]. rewrite fmap_cons in Nd.
  apply list.NoDup_cons in Nd as [N Nd]. simpl. destruct (p x) eqn:P; [|auto].
  rewrite filter_none; [done|]. intros y I. destruct (p y) eqn:Q; [|done]. exfalso. apply N.
  rewrite (K x P), <-(K y Q). by apply list_elem_of_fmap_2.
Qed.

Lemma merge_sort_short {A} (R : relation A) `{∀ x y, Decision (R x y)} l :
  (length l ≤ 1)%nat → merge_sort R l = l.
Proof. destruct l as [|x [|y l]]; simpl; try done; lia. Qed.

Lemma sql_eq_VInt a b : sql_eq (VInt a) (VInt b) = (a =? b).
Proof. simpl. destruct (Z.eqb_spec a b); by case_bool_decide; congruence. Qed.

Lemma GetReport_eq d id version s scope :
  insp_ok d → inspection_sessions d !! id = Some s → personal_scope scope = false →
  GetReport id version scope d =
  (match (if sees_session scope s then report_of d id version else None) with
   | Some r => inr r
   | None => inl ErrReportNotFound
   end, d).
Proof.
  intros Ok L Pe. unfold GetReport, send_query.
  assert (accepts (placeholders (add_filter "r.version" (VInt <$> version)
                     (child_where "r" id scope)).1)
            (length (add_filter "r.version" (VInt <$> version) (child_where "r" id scope)).2)
          = true) as Ac.
  { apply accepts_exact. intros k. unfold personal_scope in Pe.
    unfold child_where, scopePredicate. destruct (Unrestricted scope);
      [|destruct (s_TenantID scope), (s_PrincipalID scope); try done];
      destruct version; simpl; set_unfold; lia. }
  pose proof (λ sid ver s, child_eval "r" id scope sid ver s
    (match version with Some v => [VInt v] | None => [] end) ltac:(set_solver)) as Ev.
  assert (∀ q, q ∈ inspection_reports d →
    eval (parent_env d (rp_SessionID q))
      (add_filter "r.version" (VInt <$> version) (child_where "r" id scope)).2
      (child_env "r" (rp_SessionID q) (rp_Version q))
      (add_filter "r.version" (VInt <$> version) (child_where "r" id scope)).1 =
    bool_decide (rp_SessionID q = id) && sees_session scope s &&
    match version with Some v => rp_Version q =? v | None => true end) as Q.
  { intros q I. destruct (ik_report _ Ok q I) as (s0 & t & a & no & fr & r0 & L0 & _).
    specialize (Ev (rp_SessionID q) (rp_Version q) s0).
    unfold parent_env. rewrite L0. cbn [fmap option_fmap option_map].
    destruct (child_where "r" id scope) as [where_ args].
    assert (bool_decide (rp_SessionID q = id) && sees_session scope s0 =
            bool_decide (rp_SessionID q = id) && sees_session scope s) as Es.
    { case_bool_decide as E; [|done]. rewrite E, L in L0. by injection L0 as <-. }
    rewrite <-Es, <-Ev. destruct version as [v|]; cbn [fmap option_fmap option_map add_filter fst snd].
    - cbn [eval]. f_equal. rewrite length_app. cbn [length]. rewrite Nat.add_1_r, arg_app.
      change (child_env "r" (rp_SessionID q) (rp_Version q) "r.version")
        with (VInt (rp_Version q)). apply sql_eq_VInt.
    - by rewrite app_nil_r, andb_true_r. }
  destruct (add_filter "r.version" (VInt <$> version) (child_where "r" id scope)) as [where_ args].
  cbn [fst snd] in *. rewrite Ac. unfold_run_goal.
  rewrite (filter_ext_elem _ _ _ Q).
  set (p := λ q, bool_decide (rp_SessionID q = id) && sees_session scope s && _).
  assert ((length (List.filter p (inspection_reports d)) ≤ 1)%nat) as Le.
  { apply (filter_one rp_SessionID p id); [apply (ik_once _ Ok)|].
    intros q. unfold p. rewrite !andb_true_iff, bool_decide_eq_true. tauto. }
  assert (match version with Some _ => List.filter p (inspection_reports d)
          | None => merge_sort version_desc (List.filter p (inspection_reports d)) end =
          List.filter p (inspection_reports d)) as -> by
    (destruct version; [done|by apply merge_sort_short]).
  rewrite head_filter. unfold report_of, p. destruct (sees_session scope s).
  - assert (List.find (λ q, bool_decide (rp_SessionID q = id) && true &&
        match version with Some v => rp_Version q =? v | None => true end) (inspection_reports d) =
      List.find (λ q, bool_decide (rp_SessionID q = id) &&
        match version with Some v => rp_Version q =? v | None => true end) (inspection_reports d))
      as ->; [|by destruct (List.find _ _)].
    clear. induction (inspection_reports d) as [|q l IH]; [done|]. simpl.
    by rewrite andb_true_r, IH.
  - assert (List.find (λ q, bool_decide (rp_SessionID q = id) && false &&
        match version with Some v => rp_Version q =? v | None => true end) (inspection_reports d) =
      None) as ->; [|done].
    clear. induction (inspection_reports d) as [|q l IH]; [done|]. simpl.
    by rewrite andb_false_r, IH.
Qed.

End Reads.

(** * The inspections handlers take store steps

    The triples of the primitive calls and of every handler, and the rows that are
    frozen once a session is submitted. *)

Section Refine.
Context `{Driver} `{UuidText} `{UuidV5} `{JsonColumn}.
Context (publisher : option (Event InspPayload → bool)).

(** The identifiers of the registered templates do not collide. *)
Definition distinct_templates : Prop := NoDup (tm_ID <$> registry).

Lemma templated_by_id s t :
  distinct_templates → templated s t → TemplateByID (ss_TemplateID s) = Some t.
Proof.
  intros Nd (A & -> & _). unfold TemplateByID, ActiveTemplateForClass in *.
  apply List.find_some in A as [I _]. apply list_elem_of_In in I.
  revert Nd I. unfold distinct_templates. induction registry as [|u l IH]; [set_solver|].
  rewrite fmap_cons. intros [N Nd]%list.NoDup_cons I. cbn [List.find].
  case_bool_decide as E.
  - apply elem_of_cons in I as [->|I]; [done|]. exfalso. apply N. rewrite E.
    by apply list_elem_of_fmap_2.
  - apply elem_of_cons in I as [->|I]; [done|]. auto.
Qed.

Abbreviation insp_triple := (triple iw_db insp_ok insp_step) (only parsing).

Lemma iw_set d w : iw_db (mkInspWorld d (iw_events w)) = d.
Proof. done. Qed.

Lemma db_triple {A} (P : insp_db → Prop) (c : M insp_db InspError A) (Q : A → insp_db → Prop) :
  (∀ d r d', insp_ok d → P d → c d = (r, d') →
     (d' = d ∨ insp_step d d') ∧ match r with inr a => Q a d' | inl _ => True end) →
  insp_triple P (on_db c) Q.
Proof. intros T. by apply triple_store. Qed.

(** A session that was read. *)
Definition seen (id : uuid) (scope : Scope) (s : Session) (d : insp_db) : Prop :=
  inspection_sessions d !! id = Some s ∧ ss_ID s = id ∧ sees_session scope s = true ∧
  readable scope = true.

Lemma GetSession_triple P id scope :
  insp_triple P (on_db (GetSession id scope)) (λ s d, P d ∧ seen id scope s d).
Proof.
  apply db_triple. intros d r d' Ok Pd. rewrite GetSession_eq by done. intros [= <- <-].
  split; [by left|]. destruct (readable scope) eqn:Re; [|done].
  destruct (inspection_sessions d !! id) as [s|] eqn:L; [|done].
  destruct (sees_session scope s) eqn:V; [|done].
  split; [done|]. split_and!; try done. by apply (ik_session _ Ok _ _ L).
Qed.

Lemma ListFindings_triple (P : insp_db → Prop) id scope s : (∀ d, P d → seen id scope s d) →
  insp_triple P (on_db (ListFindings id scope)) (λ l d, P d ∧ l = session_findings d id).
Proof.
  intros I. apply db_triple. intros d r d' Ok Pd. destruct (I d Pd) as (L & _ & V & _).
  rewrite (ListFindings_eq d id s scope) by done. intros [= <- <-]. split; [by left|].
  rewrite V. by destruct (readable scope).
Qed.

Lemma ListEvidence_triple (P : insp_db → Prop) id scope s : (∀ d, P d → seen id scope s d) →
  insp_triple P (on_db (ListEvidence id scope)) (λ l d, P d ∧ l = session_evidence d id).
Proof.
  intros I. apply db_triple. intros d r d' Ok Pd. destruct (I d Pd) as (L & _ & V & _).
  rewrite (ListEvidence_eq d id s scope) by done. intros [= <- <-]. split; [by left|].
  rewrite V. by destruct (readable scope).
Qed.

Lemma insp_publish_inv c fresh ty agg actor tenant p w r w' :
  ty ≠ "" → publish publisher c fresh ty agg actor tenant p w = (r, w') →
  iw_db w' = iw_db w ∧
  match r with
  | inr _ => publisher = None ∧ iw_events w' = iw_events w ∨
      ∃ e, iw_events w' = iw_events w ++ [("inspections", e)] ∧ EventType e = ty ∧
        AggregateID e = uuid_string agg ∧ Platform.TenantID e = tenant
  | inl e => e = PublishFailed ∧ iw_events w' = iw_events w
  end.
Proof.
  unfold publish. intros N R. destruct publisher as [broker|].
  2:{ injection R as <- <-. auto. }
  rewrite NewEvent_uuid in R by done. cbn [from_option mret M_ret] in R.
  unfold mbind, M_bind in R. cbn [mret M_ret] in R. destruct (broker _).
  - injection R as <- <-. simpl. split; [done|]. right. by eexists.
  - injection R as <- <-. auto.
Qed.

Lemma publish_triple P c fresh ty agg actor tenant p : ty ≠ "" →
  insp_triple P (publish publisher c fresh ty agg actor tenant p) (λ _ d, P d).
Proof.
  intros N. apply triple_pure. intros w r w' _ Pw R. apply insp_publish_inv in R as [-> _]; [|done].
  split; [done|]. by destruct r.
Qed.

Lemma check_triple P from to :
  insp_triple P (check_transition from to) (λ _ d, P d ∧ CanTransition from to = None).
Proof.
  apply triple_pure. unfold check_transition. intros w r w' _ Pw R.
  destruct (CanTransition from to); injection R as <- <-; done.
Qed.

Lemma require_ready_triple P t fs es :
  insp_triple P (require_ready t fs es) (λ _ d, P d ∧ CheckReportReadiness t fs es = []).
Proof.
  apply triple_pure. unfold require_ready. intros w r w' _ Pw R.
  destruct (CheckReportReadiness t fs es); injection R as <- <-; done.
Qed.

(** A legal status move of a session that was read. *)
Lemma move_triple (P : insp_db → Prop) now id from to actor reason :
  (∀ d, P d → CanTransition from to = None) → to ≠ StatusReportAvailable →
  insp_triple P (on_db (UpdateSessionStatus now id from to actor reason))
    (λ _ d', ∃ d s, P d ∧ inspection_sessions d !! id = Some s ∧
       d' = with_transition (mkSessionTransition id from to actor reason now)
              (with_sessions (insert (ss_ID s) (session_stamp now to s)) d)).
Proof.
  intros I N. apply db_triple. intros d r d' _ Pd R. split.
  - right. by eapply istep_move; [apply (I d Pd)|done|].
  - destruct r as [|[]]; [done|].
    apply UpdateSessionStatus_run in R as [[(e & ?) _]|(_ & s & L & _ & _ & ->)]; [done|]. eauto.
Qed.

(** ** The handlers *)

Hypothesis registry_ids : distinct_templates.

Lemma bind_rule {A B} (P : insp_db → Prop) (c : M insp_world InspError A) Q
    (f : A → M insp_world InspError B) R :
  insp_triple P c Q → (∀ a, insp_triple (Q a) (f a) R) → insp_triple P (c ≫= f) R.
Proof. apply (triple_bind iw_db insp_ok insp_step (λ d d', insp_step_ok d d')). Qed.

Lemma ActiveTemplate_templated class t s :
  ActiveTemplateForClass class = Some t → ss_VehicleClass s = class →
  ss_TemplateID s = tm_ID t → ss_TemplateName s = tm_Name t → ss_TemplateVersion s = tm_Version t →
  templated s t.
Proof. intros A E ? ? ?. unfold templated. by rewrite E. Qed.

Lemma CreateSession_triple c s :
  insp_triple (λ _, True) (Insp_CreateSession publisher c s) (λ _ _, True).
Proof.
  unfold Insp_CreateSession. eapply bind_rule; [apply triple_option|intros s0].
  do 2 (eapply bind_rule; [apply triple_ensure|intros []]).
  eapply bind_rule; [apply triple_option|intros t].
  do 3 (eapply bind_rule; [apply triple_ensure|intros []]).
  eapply bind_rule; [apply triple_ensure|intros []].
  eapply (bind_rule _ _ (λ _ _, True)).
  - apply db_triple. intros d r d' _ Pd R. split; [|by destruct r]. right.
    eapply istep_create; [| |exact R]; [done|]. exists t.
    by eapply ActiveTemplate_templated; [apply Pd|..].
  - intros row. eapply bind_rule; [by apply publish_triple|intros []]. by apply triple_ret.
Qed.

Lemma Start_triple c id actor scope :
  insp_triple (λ _, True) (Start publisher c id actor scope) (λ _ _, True).
Proof.
  unfold Start. eapply bind_rule; [apply GetSession_triple|intros s].
  eapply bind_rule; [apply triple_ensure|intros []].
  eapply bind_rule; [apply check_triple|intros []].
  eapply bind_rule; [apply move_triple; [naive_solver|done]|intros []].
  eapply bind_rule; [apply GetSession_triple|intros u].
  eapply bind_rule; [by apply publish_triple|intros []]. by apply triple_ret.
Qed.

Lemma validateFindingInput_inr t f actor g :
  validateFindingInput t f actor = inr g →
  is_Some (Item t (fi_ItemKey g)) ∧ IsResultSeverityLegal (fi_Result g) (fi_Severity g) = true ∧
  (blen (fi_Notes g) ≤ MaxNotesLength)%nat.
Proof.
  unfold validateFindingInput. destruct f as [f|]; [|done].
  destruct (Item t (fi_ItemKey f)) eqn:It; [|done].
  destruct (negb (is_target _ (fi_Result f))); [done|].
  destruct (negb (is_target _ (fi_Severity f))); [done|].
  destruct (negb (IsResultSeverityLegal _ _)) eqn:Le; [done|].
  destruct (Nat.ltb_spec MaxNotesLength (blen (fi_Notes f))); [done|]. intros [= <-]. simpl.
  rewrite It. apply negb_false_iff in Le. by split_and!.
Qed.

Lemma RecordFinding_triple c id f actor scope :
  insp_triple (λ _, True) (RecordFinding c id f actor scope) (λ _ _, True).
Proof.
  unfold RecordFinding. eapply bind_rule; [apply GetSession_triple|intros s].
  do 2 (eapply bind_rule; [apply triple_ensure|intros []]).
  eapply bind_rule; [apply triple_option|intros t].
  eapply bind_rule; [apply triple_sum|intros g].
  apply db_triple. intros d r d' Ok ((((( _ & L & Id & _) & _) & _) & Bt) & V) R.
  split; [|by destruct r]. right. apply validateFindingInput_inr in V as (It & Le & _).
  eapply istep_finding; [| |exact R]; [|done]. intros s0 t0 L0 T0.
  cbn [of_session fi_SessionID fi_ItemKey] in *. rewrite Id, L in L0. injection L0 as <-.
  apply templated_by_id in T0; [|done]. rewrite Bt in T0. by injection T0 as <-.
Qed.

Lemma check_linkage_triple (P : insp_db → Prop) s e scope :
  (∀ d, P d → seen (ss_ID s) scope s d) →
  insp_triple P (check_linkage s e scope) (λ _ d, P d ∧ ∀ u, ev_FindingID e = Some u →
    ∃ f, f ∈ inspection_findings d ∧ fi_ID f = u ∧ fi_SessionID f = ss_ID s).
Proof.
  intros I. unfold check_linkage. destruct (ev_FindingID e) as [u|].
  - eapply bind_rule; [by eapply ListFindings_triple|intros l].
    eapply triple_weaken; [apply triple_ensure|intros d X; exact X|].
    intros [] d [[Pd ->] Ex]. split; [done|]. intros ? [= <-].
    apply existsb_elem in Ex as (f & If & Ef%bool_decide_eq_true).
    apply elem_of_session_findings in If as [If Es]. eauto.
  - apply triple_ret. intros d Pd. done.
Qed.

Lemma AttachEvidence_triple c id e actor scope :
  insp_triple (λ _, True) (AttachEvidence c id e actor scope) (λ _ _, True).
Proof.
  unfold AttachEvidence. eapply bind_rule; [apply GetSession_triple|intros s].
  do 2 (eapply bind_rule; [apply triple_ensure|intros []]).
  eapply bind_rule; [apply triple_sum|intros g].
  eapply bind_rule; [apply check_linkage_triple|intros []].
  { intros d [[[[_ (L & Id & V)] _] _] _]. by rewrite Id. }
  apply db_triple. intros d r d' Ok [_ Li] R. split; [|by destruct r]. right.
  by eapply istep_evidence; [|exact R].
Qed.

Lemma checkReadiness_triple (P : insp_db → Prop) s scope :
  (∀ d, P d → seen (ss_ID s) scope s d) →
  insp_triple P (checkReadiness s scope) (λ _ d, P d ∧ ∃ t, TemplateByID (ss_TemplateID s) = Some t ∧
    CheckReportReadiness t (session_findings d (ss_ID s)) (session_evidence d (ss_ID s)) = []).
Proof.
  intros I. unfold checkReadiness. eapply bind_rule; [apply triple_option|intros t].
  eapply bind_rule; [eapply ListFindings_triple; naive_solver|intros fs].
  eapply bind_rule; [eapply ListEvidence_triple; naive_solver|intros es].
  eapply triple_weaken; [apply require_ready_triple|intros d X; exact X|naive_solver].
Qed.

(** What a successful submission leaves behind. *)
Definition submitted (id actor : uuid) (scope : Scope) (d : insp_db) : Prop :=
  ∃ s t, seen id scope s d ∧ ss_Status s = "SUBMITTED" ∧
    (Unrestricted scope = true ∨ actor = ss_InspectorID s) ∧
    TemplateByID (ss_TemplateID s) = Some t ∧
    CheckReportReadiness t (session_findings d id) (session_evidence d id) = [].

Lemma Submit_triple c id actor scope :
  insp_triple (λ _, True) (Submit publisher c id actor scope) (λ _ d, submitted id actor scope d).
Proof.
  unfold Submit. eapply bind_rule; [apply GetSession_triple|intros s].
  eapply bind_rule; [apply triple_ensure|intros []].
  eapply bind_rule; [apply check_triple|intros []].
  eapply bind_rule; [apply checkReadiness_triple|intros []].
  { intros d [[[_ (L & Id & V)] _] _]. by rewrite Id. }
  apply (bind_rule _ _ (λ _, submitted id actor scope)).
  - eapply triple_weaken; [apply move_triple; [|done]|intros d X; exact X|].
    { naive_solver. }
    intros [] d' (d & s0 & [[[[_ (L & Id & V & Re)] Gu] _] (t & Bt & Rd)] & L0 & ->).
    rewrite L in L0. injection L0 as <-. rewrite Id in *.
    exists (session_stamp (ctx_now c) StatusSubmitted s), t.
    split_and!; try done.
    + split_and!; try done. cbn [inspection_sessions with_sessions with_transition].
      by rewrite lookup_insert_eq.
    + apply orb_true_iff in Gu as [Gu|Gu%bool_decide_eq_true]; auto.
  - intros []. eapply bind_rule; [apply GetSession_triple|intros u].
    eapply bind_rule; [eapply ListFindings_triple; naive_solver|intros fs].
    eapply bind_rule; [eapply ListEvidence_triple; naive_solver|intros es].
    eapply bind_rule; [by apply publish_triple|intros []]. apply triple_ret. naive_solver.
Qed.

Lemma IssueReport_triple c id actor notes scope :
  insp_triple (λ _, True) (IssueReport publisher c id actor notes scope) (λ _ _, True).
Proof.
  unfold IssueReport. eapply bind_rule; [apply GetSession_triple|intros s].
  eapply bind_rule; [apply triple_ensure|intros []].
  eapply bind_rule; [apply check_triple|intros []].
  eapply bind_rule; [apply triple_option|intros t].
  eapply bind_rule; [eapply ListFindings_triple; naive_solver|intros fs].
  eapply bind_rule; [eapply ListEvidence_triple; naive_solver|intros es].
  eapply bind_rule; [apply require_ready_triple|intros []].
  eapply bind_rule; [apply triple_option|intros q].
  eapply bind_rule; [apply triple_ensure|intros []].
  eapply (bind_rule _ _ (λ _ _, True)).
  - apply db_triple. intros d r d' Ok Pd R. split; [|by destruct r]. right.
    destruct Pd as [[[[[[[[[_ (L & Id & V)] _] _] Bt] Ef] Ee] Rd] As] _].
    pose proof (assemble_Some _ _ _ _ _ _ As) as (_ & _ & No & _).
    destruct (ik_session _ Ok _ _ L) as (_ & _ & _ & t0 & T0).
    pose proof (templated_by_id _ _ registry_ids T0) as Bt0.
    rewrite Bt in Bt0. injection Bt0 as <-. subst fs es.
    apply (istep_report d (ctx_now c) (ctx_fresh c 0) s t actor q r d'); try done.
    + by rewrite Id.
    + unfold assembled. by rewrite Id, No.
    + by rewrite Id.
  - intros row. eapply bind_rule; [by apply publish_triple|intros []]. by apply triple_ret.
Qed.

(** Every handler of the service, successful or not, changes the database only by
    the store calls of [insp_step]: the invariants of reachable databases hold of
    everything the running service writes, and the reads write nothing. *)
Theorem inspections_refine_steps w (R : insp_reachable (iw_db w)) :
  (∀ c s, insp_reachable (iw_db (Insp_CreateSession publisher c s w).2)) ∧
  (∀ c id actor scope, insp_reachable (iw_db (Start publisher c id actor scope w).2)) ∧
  (∀ c id f actor scope, insp_reachable (iw_db (RecordFinding c id f actor scope w).2)) ∧
  (∀ c id e actor scope, insp_reachable (iw_db (AttachEvidence c id e actor scope w).2)) ∧
  (∀ c id actor scope, insp_reachable (iw_db (Submit publisher c id actor scope w).2)) ∧
  (∀ c id actor notes scope,
     insp_reachable (iw_db (IssueReport publisher c id actor notes scope w).2)).
Proof.
  apply insp_reachable_ok in R as Ok.
  assert (∀ A (c : M insp_world InspError A), insp_triple (λ _, True) c (λ _ _, True) →
            insp_reachable (iw_db (c w).2)) as Go.
  { intros A c T. unfold insp_reachable, insp_steps. etrans; [exact R|].
    by apply (triple_steps iw_db insp_ok insp_step _ c _ w T). }
  split_and!; intros; apply Go; auto using CreateSession_triple, Start_triple,
    RecordFinding_triple, AttachEvidence_triple, IssueReport_triple.
  eapply triple_weaken; [apply Submit_triple|done..].
Qed.

End Refine.
