(* ===== verification/InspProps.v ===== *)
(** * InspProps: the guarantees of the inspections domain

    Rows that are frozen once a session is submitted, what a report certifies, and that a
    submitted session gets its report as long as it waits, unless a finding slipped in
    between the checks of the submission and its write. *)

From Stdlib Require Import Ascii.
From S2P Require Import Prelude Hoare Text Sha256 Platform Sql Money Wire PayMachine PayModels.
From S2P Require Import InspModels InspReport InspReportProps InspStore InspService.
From S2P Require Import InspInvariant InspRefine.

Open Scope Z_scope.

(** ** Frozen rows *)

(** The fields of a session that its report certifies, and those no move changes. *)
Definition core (s : Session) :=
  (ss_ID s, ss_TenantID s, ss_VehicleID s, ss_JobID s, ss_CustomerID s, ss_VehicleClass s,
   ss_TemplateID s, ss_TemplateName s, ss_TemplateVersion s, ss_InspectorID s, ss_StartedAt s,
   ss_SubmittedAt s, ss_CreatedAt s).

Definition closed (s : Session) : Prop :=
  ss_Status s = "SUBMITTED" ∨ ss_Status s = "REPORT_AVAILABLE".

(** What stays of session [id] from [d] to [d']. *)
Definition preserved (id : uuid) (s : Session) (d d' : insp_db) : Prop :=
  ∃ s', inspection_sessions d' !! id = Some s' ∧ closed s' ∧ core s' = core s ∧
    session_findings d' id = session_findings d id ∧
    session_evidence d' id = session_evidence d id ∧
    (ss_Status s = "REPORT_AVAILABLE" → s' = s).

Section Frozen.
Context `{Driver} `{UuidText} `{UuidV5} `{JsonColumn}.

Lemma assemble_core s s' fs es actor notes :
  core s = core s' → assemble s fs es actor notes = assemble s' fs es actor notes.
Proof.
  unfold core. destruct s, s'. simpl. intros Eq.
  injection Eq as -> -> -> -> -> -> -> -> -> -> -> -> ->. reflexivity.
Qed.

Lemma preserved_refl id s d :
  inspection_sessions d !! id = Some s → closed s → preserved id s d d.
Proof. intros L C. by exists s. Qed.

Lemma preserved_step id s d d' :
  insp_ok d → inspection_sessions d !! id = Some s → closed s → insp_step d d' →
  preserved id s d d'.
Proof.
  intros Ok L C S. destruct (ik_session _ Ok _ _ L) as [Id _].
  destruct S as [now fresh s0 r d' St _ R|now i from to actor reason r d' M NR R
    |now fresh f r d' It Le R|now fresh e r d' Li R|now fresh s0 t actor r x d' L0 As T Rd R].
  - apply CreateSession_run in R as [[_ ->]|(row & out & _ & _ & _ & N & -> & _)];
      [by apply preserved_refl|].
    exists s. cbn [inspection_sessions with_sessions].
    rewrite lookup_insert_ne by congruence. done.
  - apply UpdateSessionStatus_run in R as [[_ ->]|(_ & s0 & L0 & <- & _ & ->)];
      [by apply preserved_refl|].
    destruct (ik_session _ Ok _ _ L0) as [Id0 _]. rewrite Id0.
    exists s. cbn [inspection_sessions with_sessions with_transition].
    rewrite lookup_insert_ne; [done|]. intros ->. rewrite L in L0. injection L0 as <-.
    apply CanTransition_legal in M as [[E ->]|[[E ->]|[E ->]]];
      [destruct C as [C|C]; rewrite C in E; discriminate E..|by apply NR].
  - apply InsertFinding_run in R as [[_ ->]|(row & s0 & _ & E & L0 & St & _ & _ & N & ->)];
      [by apply preserved_refl|].
    exists s. rewrite find_same_findings.
    + done.
    + rewrite E. simpl. intros Eq. rewrite Eq, L in L0. injection L0 as <-.
      destruct C as [C|C]; rewrite C in St; discriminate St.
  - apply InsertEvidence_run in R as [[_ ->]|(row & out & s0 & _ & E & L0 & St & _ & _ & N & ->)];
      [by apply preserved_refl|].
    exists s. rewrite find_same_evidence.
    + done.
    + rewrite E. simpl. intros Eq. rewrite Eq, L in L0. injection L0 as <-.
      destruct C as [C|C]; rewrite C in St; discriminate St.
  - pose proof (assemble_Some _ _ _ _ _ _ As) as (Rs & _).
    apply InsertReport_run in R as [[_ ->]|(out & s1 & _ & L1 & St & _ & ->)];
      [by apply preserved_refl|].
    rewrite Rs, L0 in L1. injection L1 as <-. unfold preserved.
    cbn [inspection_sessions with_sessions with_transition with_report].
    destruct (decide (ss_ID s0 = id)) as [<-|Ne].
    + rewrite L in L0. injection L0 as <-. rewrite lookup_insert_eq.
      eexists. split_and!; [done|by right|done..|]. intros X. rewrite X in St. discriminate St.
    + rewrite lookup_insert_ne by done. by exists s.
Qed.

Lemma preserved_steps id s d d' :
  insp_ok d → inspection_sessions d !! id = Some s → closed s → insp_steps d d' →
  preserved id s d d'.
Proof.
  intros Ok L C S. revert s L C. induction S as [d|d d1 d' S1 S IH]; intros s L C.
  - by apply preserved_refl.
  - pose proof (insp_step_ok _ _ Ok S1) as Ok1.
    destruct (preserved_step _ _ _ _ Ok L C S1) as (s1 & L1 & C1 & E1 & F1 & V1 & R1).
    destruct (IH Ok1 _ L1 C1) as (s2 & L2 & C2 & E2 & F2 & V2 & R2).
    exists s2. split_and!; try congruence. intros E. specialize (R1 E). subst s1. auto.
Qed.

(** C17. Once a session is submitted nothing that its report certifies changes any
    more: in every database that follows, under every interleaving, the session
    exists with the same fields, the same findings and the same evidence, it is
    still submitted or reported, and a reported session does not change at all. *)
Theorem sealed_after_submit d d' id s (R : insp_reachable d) (S : insp_steps d d')
    (L : inspection_sessions d !! id = Some s)
    (C : ss_Status s = "SUBMITTED" ∨ ss_Status s = "REPORT_AVAILABLE") :
  ∃ s', inspection_sessions d' !! id = Some s' ∧
    (ss_Status s' = "SUBMITTED" ∨ ss_Status s' = "REPORT_AVAILABLE") ∧ core s' = core s ∧
    session_findings d' id = session_findings d id ∧
    session_evidence d' id = session_evidence d id ∧
    (ss_Status s = "REPORT_AVAILABLE" → s' = s).
Proof. apply (preserved_steps id s d d'); [by apply insp_reachable_ok|done..]. Qed.

(** ** The rows agree *)

(** In every reachable database a session carries the identity of the active
    template of its class, its stamps and its audit trail agree with its status, it
    has a report exactly when it is REPORT_AVAILABLE, and then one; its findings are
    of items of the template and its evidence is linked to its own findings. *)
Theorem inspection_rows_agree d id s (R : insp_reachable d)
    (L : inspection_sessions d !! id = Some s) :
  ss_ID s = id ∧ (∃ t, templated s t) ∧ stamped s ∧
  session_chain "CREATED" (session_trail d id) (ss_Status s) ∧
  (ss_Status s = "REPORT_AVAILABLE" ↔ ∃ r, r ∈ inspection_reports d ∧ rp_SessionID r = id) ∧
  (∀ r r', r ∈ inspection_reports d → r' ∈ inspection_reports d →
     rp_SessionID r = rp_SessionID r' → r = r') ∧
  (∀ f t, f ∈ session_findings d id → templated s t → is_Some (Item t (fi_ItemKey f)) ∧
     IsResultSeverityLegal (fi_Result f) (fi_Severity f) = true) ∧
  (∀ e u, e ∈ session_evidence d id → ev_FindingID e = Some u →
     ∃ f, f ∈ session_findings d id ∧ fi_ID f = u).
Proof.
  apply insp_reachable_ok in R as Ok. destruct (ik_session _ Ok _ _ L) as (Id & _ & Sp & T).
  split_and!; try done.
  - pose proof (ik_trail _ Ok id) as Tr. by rewrite L in Tr.
  - split; [by eapply ik_reported|]. intros (r & I & <-).
    destruct (ik_report _ Ok r I) as (s0 & t & a & no & fr & r0 & L0 & St & _).
    rewrite L in L0. by injection L0 as <-.
  - intros r r' I I' E. by apply (fmap_NoDup_inj rp_SessionID (inspection_reports d)); [apply Ok|..].
  - intros f t [I E]%elem_of_session_findings Tt.
    destruct (ik_finding _ Ok f I) as (s0 & t0 & L0 & _ & T0 & It & Le).
    rewrite E, L in L0. injection L0 as <-. destruct T0 as (A & _), Tt as (A' & _).
    rewrite A in A'. by injection A' as <-.
  - intros e u [I E]%elem_of_session_evidence Eu.
    destruct (ik_evidence _ Ok e I) as (s0 & _ & _ & _ & _ & Li).
    destruct (Li u Eu) as (f & If & Ef & Es). exists f.
    split; [|done]. apply elem_of_session_findings. split; congruence.
Qed.

End Frozen.

(** ** What a report certifies *)

Lemma subtleEqual_spec a b : subtleEqual a b = String.eqb a b.
Proof.
  unfold subtleEqual. destruct (Nat.eqb_spec (blen a) (blen b)) as [L|N]; cbn [negb].
  - revert b L. induction a as [|c a IH]; intros [|d b] L; try done. cbn [differing_bits].
    injection L as L. cbn [String.eqb].
    destruct (Ascii.eqb_spec c d) as [->|Ne].
    + rewrite N.lxor_nilpotent, N.lor_0_l. by apply IH.
    + apply N.eqb_neq. intros [E _]%N.lor_eq_0_iff. apply N.lxor_eq in E. apply Ne.
      unfold byte_of in E. by rewrite <-(ascii_N_embedding c), <-(ascii_N_embedding d), E.
  - symmetry. apply String.eqb_neq. by intros ->.
Qed.

Section Reports.
Context `{Driver} `{UuidText} `{UuidV5} `{JsonColumn}.
Hypothesis registry_ids : distinct_templates.

(** The registered templates use no separator. *)
Lemma templates_clean t : t ∈ registry →
  free_of newline (tm_Name t) = true ∧
  ∀ key, is_Some (Item t key) → clean key = true.
Proof.
  intros I. unfold registry, buildRegistry in I. apply list_elem_of_fmap in I as (t0 & -> & I).
  assert (forallb (λ t, free_of newline (tm_Name t) && forallb (λ i, clean (ti_Key i)) (tm_Items t))
            templates = true) as C by (vm_compute; reflexivity).
  rewrite forallb_forall in C. apply list_elem_of_In, C in I.
  apply andb_true_iff in I as [Na It]. split; [exact Na|].
  intros key (item & Ii & <-)%find_item_is_Some. rewrite forallb_forall in It.
  by apply It, list_elem_of_In.
Qed.

Lemma templated_registered s t : templated s t → t ∈ registry.
Proof. intros (A & _). apply List.find_some in A as [I _]. by apply list_elem_of_In. Qed.

Lemma is_target_clean l s : forallb clean l = true → is_target l s = true → clean s = true.
Proof.
  rewrite forallb_forall. intros C I%is_target_spec. by apply C, list_elem_of_In.
Qed.

Lemma legal_pair_clean r v : IsResultSeverityLegal r v = true → clean r = true ∧ clean v = true.
Proof.
  unfold IsResultSeverityLegal, resultSeverityMatrix. cbn [map_get].
  repeat match goal with
  | |- context [String.eqb ?a r] => destruct (String.eqb_spec a r) as [<-|_]
  end; intros I; try discriminate I;
    (split; [reflexivity|]); by eapply is_target_clean, I.
Qed.

Lemma sha_hex_clean s : is_sha256_hex s = true → clean s = true.
Proof.
  unfold is_sha256_hex. intros [_ F]%andb_true_iff. unfold clean, free_of.
  rewrite forallb_forall in F. apply andb_true_iff.
  split; apply forallb_forall; intros c I; specialize (F c I); apply negb_true_iff;
    destruct (Ascii.eqb_spec c ","), (Ascii.eqb_spec c newline); subst; done.
Qed.

(** The rows of a session do not interfere with the canonical text. *)
Lemma rows_clean d id s : insp_ok d → inspection_sessions d !! id = Some s →
  free_of newline (ss_TemplateName s) = true ∧
  forallb clean_finding (SelectLatestFindings (session_findings d id)) = true ∧
  forallb clean_evidence (session_evidence d id) = true.
Proof.
  intros Ok L. destruct (ik_session _ Ok _ _ L) as (Id & _ & _ & t & T).
  pose proof (templates_clean t (templated_registered _ _ T)) as [Na It].
  split_and!.
  - destruct T as (_ & _ & -> & _). done.
  - apply forallb_forall. intros f I%list_elem_of_In.
    apply elem_of_selected in I as [I _].
    + apply elem_of_session_findings in I as [I E].
      destruct (ik_finding _ Ok f I) as (s0 & t0 & L0 & _ & T0 & Kf & Le).
      rewrite E, L in L0. injection L0 as <-. destruct T as (A & _), T0 as (A0 & _).
      rewrite A in A0. injection A0 as <-. unfold clean_finding.
      apply legal_pair_clean in Le as [-> ->]. by rewrite (It _ Kf).
    + unfold session_findings. rewrite merge_sort_Permutation.
      apply (NoDup_fmap_filter fi_ID), Ok.
  - apply forallb_forall. intros e I%list_elem_of_In.
    apply elem_of_session_evidence in I as [I _].
    destruct (ik_evidence _ Ok e I) as (_ & _ & _ & K & Hx & _).
    unfold clean_evidence. rewrite (sha_hex_clean _ Hx), andb_true_r.
    by eapply is_target_clean, K.
Qed.

(** The certified content of a session. *)
Definition certified_text (d : insp_db) (s : Session) : string :=
  BuildReportInput s (SelectLatestFindings (session_findings d (ss_ID s)))
    (session_evidence d (ss_ID s)) 1.

Lemma report_content d r : insp_ok d → r ∈ inspection_reports d →
  ∃ s t F E, inspection_sessions d !! rp_SessionID r = Some s ∧ ss_ID s = rp_SessionID r ∧
    ss_Status s = "REPORT_AVAILABLE" ∧ rp_Version r = 1 ∧
    TemplateByID (ss_TemplateID s) = Some t ∧ templated s t ∧
    rp_ContentHash r = HashReportInput (certified_text d s) ∧
    marshalFindingsSnapshot (SelectLatestFindings (session_findings d (ss_ID s))) = Some F ∧
    marshalEvidenceSnapshot (session_evidence d (ss_ID s)) = Some E ∧
    rp_FindingsSnapshot r = json_text F ∧ rp_EvidenceSnapshot r = json_text E ∧
    session_evidence d (ss_ID s) ≠ [].
Proof.
  intros Ok I. destruct (ik_report _ Ok r I) as (s & t & a & now & fresh & r0 & L & St & As & -> & T & Rd).
  destruct (ik_session _ Ok _ _ L) as (Id & _).
  apply assemble_Some in As as (Rs & V & _ & _ & Ha & Fs & Es).
  exists s, t, (rp_FindingsSnapshot r0), (rp_EvidenceSnapshot r0).
  split_and!; try done.
  - by apply templated_by_id.
  - intros Em. unfold CheckReportReadiness in Rd. rewrite Em in Rd.
    rewrite !app_assoc in Rd. by destruct (app_eq_nil _ _ Rd).
Qed.

(** C18. The content hash of an issued report is the SHA-256 of a text that pins down
    what the report certifies: any other content whose canonical text is the same is
    that of version 1 of the same session, with the same certified fields, the same
    findings (their notes up to their own hash) and the same evidence, in order. *)
Theorem report_certifies `{!UuidPlain} d r (R : insp_reachable d)
    (I : r ∈ inspection_reports d) :
  ∃ s, inspection_sessions d !! rp_SessionID r = Some s ∧
    rp_ContentHash r = sha256Hex (certified_text d s) ∧
    ∀ s' fs es v, four_digit_year (default zero_time (ss_SubmittedAt s)) = true →
      clean_session s' = true → forallb clean_finding fs = true →
      forallb clean_evidence es = true →
      BuildReportInput s' fs es v = certified_text d s →
      v = 1 ∧ same_session s' s ∧
      Forall2 same_finding fs (SelectLatestFindings (session_findings d (ss_ID s))) ∧
      Forall2 same_evidence es (session_evidence d (ss_ID s)).
Proof.
  apply insp_reachable_ok in R as Ok.
  destruct (report_content d r Ok I) as (s & t & F & E & L & Id & _ & _ & _ & _ & Ha & _).
  exists s. split; [done|]. split; [done|]. intros s' fs es v Y Cs Cf Ce Eq.
  rewrite Id in *. destruct (rows_clean d (rp_SessionID r) s Ok L) as (Na & Cf' & Ce').
  unfold certified_text in Eq. rewrite Id in Eq.
  apply BuildReportInput_inj in Eq as (-> & ? & ? & ?); try done.
  unfold clean_session. by rewrite Na, Y.
Qed.

(** ** Verification *)

Context (publisher : option (Event InspPayload → bool)).

(** The verification of an issued report, evaluated. *)
Lemma Verify_run c id version scope w s r :
  insp_ok (iw_db w) → inspection_sessions (iw_db w) !! id = Some s →
  personal_scope scope = false → sees_session scope s = true →
  report_of (iw_db w) id version = Some r →
  ∃ v F E, Verify c id version scope w = (inr v, w) ∧
    marshalFindingsSnapshot (SelectLatestFindings (session_findings (iw_db w) id)) = Some F ∧
    marshalEvidenceSnapshot (session_evidence (iw_db w) id) = Some E ∧
    session_evidence (iw_db w) id ≠ [] ∧
    rv_HashMatch v = true ∧ rv_TemplateMatch v = true ∧
    rv_FindingsMatch v = String.eqb F (json_text F) ∧
    rv_EvidenceMatch v = String.eqb E (json_text E) ∧
    rv_Verified v = String.eqb F (json_text F) && String.eqb E (json_text E).
Proof.
  intros Ok L Pe Vi Rp. pose proof Rp as [I Key]%List.find_some.
  apply list_elem_of_In in I. apply andb_true_iff in Key as [Id _].
  apply bool_decide_eq_true in Id.
  destruct (report_content _ r Ok I) as (s0 & t & F & E & L0 & Ids & _ & Ve & Bt & T & Ha & MF & ME & SF & SE & Ne).
  rewrite Id, L in L0. injection L0 as <-. rewrite Ids, Id in MF, ME, Ne.
  destruct w as [d ev]. cbn [iw_db] in *.
  exists (VerifyReport (ctx_now c) t s (session_findings d id) (session_evidence d id) r), F, E.
  assert (Verify c id version scope (mkInspWorld d ev) =
    (inr (VerifyReport (ctx_now c) t s (session_findings d id) (session_evidence d id) r),
     mkInspWorld d ev)) as ->.
  { unfold Verify, mbind, M_bind, on_db, zoom. cbn [iw_db iw_events].
    rewrite GetSession_eq, (readable_scope _ Pe), L, Vi by done. cbn [iw_db iw_events].
    rewrite (GetReport_eq d id version s scope), Vi, Rp by done. cbn [iw_db iw_events].
    rewrite Bt. cbn [from_option mret M_ret iw_db iw_events].
    rewrite (ListFindings_eq d id s scope), (readable_scope _ Pe), Vi by done.
    cbn [iw_db iw_events].
    rewrite (ListEvidence_eq d id s scope), (readable_scope _ Pe), Vi by done. done. }
  split; [done|]. unfold VerifyReport.
  cbn [rv_HashMatch rv_TemplateMatch rv_FindingsMatch rv_EvidenceMatch rv_Verified].
  unfold snapshot_matches. rewrite MF, ME, SF, SE, Ha, Ve, subtleEqual_spec.
  unfold certified_text. rewrite Ids, Id, String.eqb_refl.
  destruct T as (_ & -> & -> & ->).
  rewrite bool_decide_eq_true_2, String.eqb_refl, Z.eqb_refl by done.
  cbn [andb]. rewrite andb_true_r. by split_and!.
Qed.

(** What verification answers, for whoever sees the session of an issued report
    in any reachable database: it changes nothing, hash and template always match,
    and the report is verified exactly when both snapshot columns give back, byte by
    byte, the text that was written to them. *)
Theorem issued_report_verifies c id version scope w s r
    (R : insp_reachable (iw_db w)) (L : inspection_sessions (iw_db w) !! id = Some s)
    (Pe : personal_scope scope = false) (Vi : sees_session scope s = true)
    (Rp : report_of (iw_db w) id version = Some r) :
  ∃ v F E, Verify c id version scope w = (inr v, w) ∧
    rv_HashMatch v = true ∧ rv_TemplateMatch v = true ∧
    marshalFindingsSnapshot (SelectLatestFindings (session_findings (iw_db w) id)) = Some F ∧
    marshalEvidenceSnapshot (session_evidence (iw_db w) id) = Some E ∧
    (rv_FindingsMatch v = true ↔ json_text F = F) ∧
    (rv_EvidenceMatch v = true ↔ json_text E = E) ∧
    (rv_Verified v = true ↔ json_text F = F ∧ json_text E = E).
Proof.
  apply insp_reachable_ok in R.
  destruct (Verify_run c id version scope w s r R L Pe Vi Rp)
    as (v & F & E & -> & MF & ME & _ & Hm & Tm & Fm & Em & Vm).
  exists v, F, E. rewrite Fm, Em, Vm, andb_true_iff, !String.eqb_eq.
  repeat match goal with |- _ ∧ _ => split end; try done.
  all: first [split; by intros X | split; intros [X Y]; by split].
Qed.

(** PostgreSQL prints a space after the colon that follows a key of a [jsonb]
    object, whatever the text it was given; in a list of objects whose keys have no
    colon this is after the first colon. *)
Definition spaced (t : string) : Prop :=
  ∀ a b, absent ":" a → t = a +:+ String ":" b → ∃ b', b = String " " b'.

Lemma evidence_snapshot_compact es E : marshalEvidenceSnapshot es = Some E → es ≠ [] → ¬ spaced E.
Proof.
  unfold marshalEvidenceSnapshot. intros M N Sp. destruct es as [|e es]; [done|].
  cbn [mapM] in M. unfold mret, option_ret, mbind, option_bind in M.
  destruct (evidenceSnapshot e) as [x|] eqn:Ex; [|done].
  destruct (mapM evidenceSnapshot es) as [xs|]; [|done]. injection M as <-.
  unfold evidenceSnapshot, mbind, option_bind in Ex.
  destruct (json_time (ev_CapturedAt e)) as [cap|]; [|done]. injection Ex as <-.
  set (key := "[{" +:+ json_string "id").
  match type of Sp with
  | spaced ?text => assert (∃ b, text = key +:+ String ":" (String (byte 34%N) b)) as [b Eq]
  end.
  { destruct (json_optional _ _) as [|m ms]; destruct xs as [|y ys]; eexists; reflexivity. }
  rewrite Eq in Sp. destruct (Sp key (String (byte 34%N) b)) as [b' Eb]; [|done|done].
  apply free_of_absent. reflexivity.
Qed.

(** On PostgreSQL no report ever verifies: the snapshots are stored as [jsonb]
    but compared byte by byte with a fresh marshalling, and [jsonb] does not give
    the text back. The hash still matches. *)
Theorem jsonb_reports_never_verify c id version scope w s r
    (R : insp_reachable (iw_db w)) (L : inspection_sessions (iw_db w) !! id = Some s)
    (Pe : personal_scope scope = false) (Vi : sees_session scope s = true)
    (Rp : report_of (iw_db w) id version = Some r)
    (Jsonb : ∀ es E, marshalEvidenceSnapshot es = Some E → es ≠ [] → spaced (json_text E)) :
  ∃ v, Verify c id version scope w = (inr v, w) ∧ rv_HashMatch v = true ∧
    rv_EvidenceMatch v = false ∧ rv_Verified v = false.
Proof.
  apply insp_reachable_ok in R.
  destruct (Verify_run c id version scope w s r R L Pe Vi Rp)
    as (v & F & E & -> & _ & ME & Ne & Hm & Tm & Fm & Em & Vm).
  assert (String.eqb E (json_text E) = false) as Df.
  { apply String.eqb_neq. intros Eq. apply (evidence_snapshot_compact _ _ ME Ne).
    rewrite Eq. by eapply Jsonb. }
  exists v. rewrite Df, ?andb_false_r in *. done.
Qed.

End Reports.

(** * Submitted sessions get their report, or never will

    A successful submission leaves a session that can be reported as long as it
    waits; a finding that slips in between the checks of a submission and its write
    leaves one that never can. A concrete run is the input of the witnesses. *)

Lemma is_sha256_hex_digest b : is_sha256_hex (sha256Hex b) = true.
Proof.
  unfold is_sha256_hex, sha256Hex.
  rewrite hex_encode_length, sha256_length, hex_encode_chars by apply sha256_range. done.
Qed.

Section Live.
Context `{Driver} `{UuidText} `{UuidV5} `{JsonColumn}.
Context (publisher : option (Event InspPayload → bool)).
Hypothesis registry_ids : distinct_templates.

(** The database after a report was issued. *)
Definition issued (now : time) (fresh : uuid) (s : Session) (r : Report) (d : insp_db) : insp_db :=
  with_transition (mkSessionTransition (ss_ID s) "SUBMITTED" "REPORT_AVAILABLE"
                     (rp_IssuedBy r) "report issued" now)
    (with_sessions (insert (ss_ID s) (session_stamp now StatusReportAvailable s))
       (with_report (stored now fresh r) d)).

Lemma no_report_yet d id s : insp_ok d → inspection_sessions d !! id = Some s →
  ss_Status s = "SUBMITTED" → id ∉ rp_SessionID <$> inspection_reports d.
Proof.
  intros Ok L St (q & -> & I)%list_elem_of_fmap.
  destruct (ik_report _ Ok q I) as (s0 & t & a & no & fr & r0 & L0 & S0 & _).
  rewrite L in L0. injection L0 as <-. rewrite St in S0. discriminate S0.
Qed.

Lemma InsertReport_ok now fresh s actor notes r d :
  insp_ok d → inspection_sessions d !! ss_ID s = Some s → ss_Status s = "SUBMITTED" →
  assembled d s actor notes r → session_evidence d (ss_ID s) ≠ [] →
  fresh ∉ rp_ID <$> inspection_reports d →
  ∃ out, InsertReport now fresh r d = (inr out, issued now fresh s r d).
Proof.
  intros Ok L St As Ne N. pose proof (no_report_yet _ _ _ Ok L St) as New.
  assert (rp_ID r = uuid_nil ∧ 0 ≤ rp_FindingsCount r ∧ 0 ≤ rp_EvidenceCount r) as (Nil & Fc & Ec).
  { unfold assembled, assemble in As. destruct (marshalFindingsSnapshot _); [|done].
    destruct (marshalEvidenceSnapshot _); [|done]. apply (inj Some) in As as <-.
    cbn [rp_ID rp_FindingsCount rp_EvidenceCount]. split; [done|]. lia. }
  apply assemble_Some in As as (Rs & Ve & _ & _ & Ha & _ & _).
  assert (is_sha256_hex (rp_ContentHash r) = true) as Hx by (rewrite Ha; apply is_sha256_hex_digest).
  assert (String.eqb (rp_ContentHash r) "" = false) as Hn.
  { apply String.eqb_neq. intros E. by rewrite E in Hx. }
  assert (existsb (λ e, bool_decide (ev_SessionID e = ss_ID s)) (inspection_evidence d) = true) as Ex.
  { destruct (session_evidence d (ss_ID s)) as [|e l] eqn:El; [done|].
    assert (e ∈ session_evidence d (ss_ID s)) as I by (rewrite El; set_solver).
    apply elem_of_session_evidence in I as [I E]. apply existsb_elem. exists e.
    by rewrite bool_decide_eq_true. }
  assert (existsb (λ q, bool_decide (rp_SessionID q = ss_ID s) && (rp_Version q =? 1))
            (inspection_reports d) = false) as Un.
  { apply not_true_is_false. intros (q & I & E)%existsb_elem. apply New.
    apply andb_true_iff in E as [<-%bool_decide_eq_true _]. by apply list_elem_of_fmap_2. }
  assert (assign_id (rp_ID r) fresh = fresh) as Fr by by rewrite Nil.
  assert (insert_report (stored now fresh r) d = (inr tt, with_report (stored now fresh r) d)) as Ins.
  { unfold insert_report. ok_get. cbn [stored rp_SessionID rp_Version rp_FindingsCount
      rp_EvidenceCount rp_ContentHash rp_ID]. rewrite Rs, Ve, Fr.
    ok_ensure; [|exact Ex]. ok_ensure; [|done].
    ok_ensure; [|by apply Z.leb_le]. ok_ensure; [|by apply Z.leb_le]. ok_ensure; [|exact Hx].
    ok_ensure; [|by apply bool_decide_eq_true_2]. ok_ensure; [|by rewrite Un].
    ok_ensure; [done|]. unfold has_session. by rewrite L. }
  eexists. unfold InsertReport. ok_ensure; [|by rewrite Hn].
  apply transact_success. ok_get. erewrite bind_ok; [|apply option_ok; rewrite Rs; exact L].
  ok_ensure; [|by rewrite St]. ok_ensure; [|by rewrite Rs, Ve, no_report_next_version].
  erewrite bind_ok; [|exact Ins]. erewrite bind_ok; [|reflexivity].
  unfold insert_session_transition. erewrite bind_ok; [reflexivity|]. ok_get.
  erewrite bind_ok; [rewrite Rs; reflexivity|]. apply ensure_ok. unfold has_session.
  cbn [st_SessionID inspection_sessions with_sessions]. by rewrite Rs, lookup_insert_eq.
Qed.

(** The times of the rows are those a snapshot can print. *)
Definition printable (d : insp_db) (id : uuid) : Prop :=
  (∀ f, f ∈ session_findings d id → four_digit_year (fi_CreatedAt f) = true) ∧
  (∀ e, e ∈ session_evidence d id → four_digit_year (ev_CapturedAt e) = true).

Lemma mapM_total {A B} (f : A → option B) l : (∀ x, x ∈ l → is_Some (f x)) → is_Some (mapM f l).
Proof.
  intros F. induction l as [|x l IH]; [by eexists|].
  destruct (F x ltac:(set_solver)) as [y E]. destruct IH as [ys Es]; [intros; apply F; set_solver|].
  exists (y :: ys). simpl. by rewrite E, Es.
Qed.

Lemma assemble_total s fs es actor notes :
  NoDup (fi_ID <$> fs) → (∀ f, f ∈ fs → four_digit_year (fi_CreatedAt f) = true) →
  (∀ e, e ∈ es → four_digit_year (ev_CapturedAt e) = true) →
  ∃ r, assemble s fs es actor notes = Some r.
Proof.
  intros Nd Pf Pe. unfold assemble, marshalFindingsSnapshot, marshalEvidenceSnapshot.
  destruct (mapM_total findingSnapshot (SelectLatestFindings fs)) as [a ->].
  { intros f [I _]%elem_of_selected; [|done]. unfold findingSnapshot, json_time.
    rewrite (Pf f I). by eexists. }
  destruct (mapM_total evidenceSnapshot es) as [b ->].
  { intros e I. unfold evidenceSnapshot, json_time. rewrite (Pe e I). by eexists. }
  by eexists.
Qed.

Lemma session_findings_NoDup d id : insp_ok d → NoDup (fi_ID <$> session_findings d id).
Proof.
  intros Ok. unfold session_findings. rewrite merge_sort_Permutation.
  apply NoDup_fmap_filter, Ok.
Qed.

(** Issuing the report of a session that was submitted and is still waiting. *)
Lemma IssueReport_ok c id actor notes scope d ev :
  insp_ok d → submitted id actor scope d → printable d id → (blen notes ≤ MaxNotesLength)%nat →
  ctx_fresh c 0%nat ∉ rp_ID <$> inspection_reports d →
  (∀ broker, publisher = Some broker → ∀ e, broker e = true) →
  ∃ s r out w', inspection_sessions d !! id = Some s ∧
    IssueReport publisher c id actor notes scope (mkInspWorld d ev) = (inr out, w') ∧
    iw_db w' = issued (ctx_now c) (ctx_fresh c 0) s r d ∧ ss_ID s = id ∧
    assembled d s actor notes r.
Proof.
  intros Ok (s & t & (L & Id & Vi & Re) & St & Gu & Bt & Rd) [Pf Pe] Le Fr Br.
  destruct (assemble_total s (session_findings d id) (session_evidence d id) actor notes)
    as [r As]; [by apply session_findings_NoDup|done..|].
  assert (session_evidence d (ss_ID s) ≠ []) as Ne.
  { rewrite Id. intros Em. unfold CheckReportReadiness in Rd. rewrite Em, !app_assoc in Rd.
    by destruct (app_eq_nil _ _ Rd). }
  destruct (InsertReport_ok (ctx_now c) (ctx_fresh c 0) s actor notes r d) as [out Ins];
    [done|by rewrite Id|done|unfold assembled; by rewrite Id|done|done|].
  set (w1 := mkInspWorld (issued (ctx_now c) (ctx_fresh c 0) s r d) ev).
  assert (∀ ty tenant p, ty ≠ "" → ∃ w', publish publisher c (ctx_fresh c 1) ty (rp_ID out)
            (Some actor) tenant p w1 = (inr tt, w') ∧ iw_db w' = iw_db w1) as Pub.
  { intros ty tenant p Ty. destruct (publish _ _ _ _ _ _ _ _ _) as [x w'] eqn:E.
    pose proof E as Db. apply insp_publish_inv in Db as [Db _]; [|done]. exists w'. split; [|done].
    unfold publish in E. destruct publisher as [broker|]; [|by injection E as <- <-].
    rewrite NewEvent_uuid in E by done. cbn [from_option mret M_ret] in E.
    unfold mbind, M_bind in E. cbn [mret M_ret] in E. rewrite (Br broker eq_refl) in E.
    by injection E as <- <-. }
  unfold IssueReport.
  assert (∀ A (k : Session → M insp_world InspError A),
    (on_db (GetSession id scope) ≫= k) (mkInspWorld d ev) = k s (mkInspWorld d ev)) as Rs.
  { intros A k. apply bind_ok. unfold on_db, zoom. cbn [iw_db iw_events].
    by rewrite GetSession_eq, Re, L, Vi. }
  rewrite Rs. unfold guardActor. ok_ensure; [|apply orb_true_iff; destruct Gu as [->| ->];
    [by left|right; by apply bool_decide_eq_true]].
  unfold check_transition. rewrite (proj2 (CanTransition_legal _ _)) by (rewrite St; auto).
  ok_get. erewrite bind_ok; [|by apply option_ok].
  erewrite (bind_ok _ _ _ (session_findings d id) (mkInspWorld d ev));
    [|unfold on_db, zoom; cbn [iw_db iw_events]; by rewrite (ListFindings_eq d id s), Re, Vi].
  erewrite (bind_ok _ _ _ (session_evidence d id) (mkInspWorld d ev));
    [|unfold on_db, zoom; cbn [iw_db iw_events]; by rewrite (ListEvidence_eq d id s), Re, Vi].
  unfold require_ready. rewrite Rd. ok_get. erewrite bind_ok; [|apply option_ok, As].
  ok_ensure; [|apply negb_true_iff, Nat.ltb_ge, Le].
  erewrite (bind_ok _ _ _ out w1);
    [|unfold on_db, zoom; cbn [iw_db iw_events]; by rewrite Ins].
  edestruct (Pub EventReportIssued) as (w' & P & Db); [done|].
  exists s, r, out, w'. split; [done|]. split; [|split; [by rewrite Db|]].
  - erewrite bind_ok; [reflexivity|]. exact P.
  - split; [done|]. unfold assembled. by rewrite Id.
Qed.

(** C19. A submitted session can be reported: after a submission that was successful and
    uninterrupted (its checks and its writes saw one database), and whatever else happened
    since while the session waits, the same principal issues the report with success and
    the session then has it. The identifier drawn for the report must be fresh, the times
    of the rows printable, the notes no longer than allowed and the broker, if there is
    one, up. *)
Theorem submitted_then_reported c id actor scope w s w1 d c' notes ev
    (R : insp_reachable (iw_db w))
    (Sub : Submit publisher c id actor scope w = (inr s, w1))
    (Later : insp_steps (iw_db w1) d)
    (Waits : ∃ s', inspection_sessions d !! id = Some s' ∧ ss_Status s' = "SUBMITTED")
    (Times : printable d id) (Notes : (blen notes ≤ MaxNotesLength)%nat)
    (Fresh : ctx_fresh c' 0%nat ∉ rp_ID <$> inspection_reports d)
    (Broker : ∀ broker, publisher = Some broker → ∀ e, broker e = true) :
  ∃ r w2, IssueReport publisher c' id actor notes scope (mkInspWorld d ev) = (inr r, w2) ∧
    (∃ s2, inspection_sessions (iw_db w2) !! id = Some s2 ∧ ss_Status s2 = "REPORT_AVAILABLE") ∧
    ∃ row, row ∈ inspection_reports (iw_db w2) ∧ rp_SessionID row = id.
Proof.
  apply insp_reachable_ok in R as Ok.
  destruct (Submit_triple publisher c id actor scope w _ _ Ok I Sub) as [S1 Post].
  pose proof (insp_steps_ok _ _ Ok S1) as Ok1.
  destruct Post as (s1 & t & (L & Id & Vi & Re) & St & Gu & Bt & Rd).
  destruct (preserved_steps id s1 _ _ Ok1 L (or_introl St) Later)
    as (s2 & L2 & C2 & Co & Ef & Ee & _).
  destruct Waits as (s3 & L3 & St3). rewrite L2 in L3. injection L3 as ->.
  injection Co as E1 E2 E3 E4 E5 E6 E7 E8 E9 E10 E11 E12 E13.
  destruct (IssueReport_ok c' id actor notes scope d ev) as (s4 & r & out & w2 & L4 & Run & Db & Id4 & As);
    [by eapply insp_steps_ok| |done..|].
  - exists s3, t. split_and!; [split_and!; [done|congruence| |done]|done| | |].
    + unfold sees_session in *. by rewrite E2, E5, E10.
    + by rewrite E10.
    + by rewrite E7.
    + by rewrite Ef, Ee.
  - exists out, w2. split; [done|]. rewrite Db. unfold issued.
    cbn [inspection_sessions inspection_reports with_transition with_sessions with_report].
    rewrite Id4, lookup_insert_eq. split; [by eexists|].
    exists (stored (ctx_now c') (ctx_fresh c' 0) r). split; [set_solver|].
    apply assemble_Some in As as (Rs & _). cbn [stored rp_SessionID]. congruence.
Qed.

(** ** Stranded sessions *)

(** A session that was submitted without being ready never gets a report: in
    every database that follows it is still submitted, and every attempt to issue
    its report fails without changing anything. *)
Theorem unready_submission_stranded d d' id s t (R : insp_reachable d)
    (L : inspection_sessions d !! id = Some s) (St : ss_Status s = "SUBMITTED")
    (T : templated s t)
    (Un : CheckReportReadiness t (session_findings d id) (session_evidence d id) ≠ [])
    (Later : insp_steps d d') :
  (∃ s', inspection_sessions d' !! id = Some s' ∧ ss_Status s' = "SUBMITTED") ∧
  ∀ c actor notes scope ev, ∃ e,
    IssueReport publisher c id actor notes scope (mkInspWorld d' ev) = (inl e, mkInspWorld d' ev).
Proof.
  apply insp_reachable_ok in R as Ok. pose proof (insp_steps_ok _ _ Ok Later) as Ok'.
  destruct (preserved_steps id s d d' Ok L (or_introl St) Later)
    as (s' & L' & C' & Co & Ef & Ee & _).
  injection Co as E1 E2 E3 E4 E5 E6 E7 E8 E9 E10 E11 E12 E13.
  destruct (ik_session _ Ok _ _ L) as (Id & _).
  assert (templated s' t) as T'.
  { destruct T as (A & B & C & D). split_and!; congruence. }
  assert (ss_Status s' = "SUBMITTED") as St'.
  { destruct C' as [C'|C']; [done|]. exfalso.
    destruct (ik_reported _ Ok' _ _ L' C') as (r & I & Er).
    destruct (ik_report _ Ok' r I) as (s0 & t0 & a & no & fr & r0 & L0 & _ & _ & _ & T0 & Rd).
    rewrite Er, L' in L0. injection L0 as <-.
    destruct T' as (A & _), T0 as (A0 & _). rewrite A in A0. injection A0 as <-.
    rewrite E1, Id in Rd. rewrite Ef, Ee in Rd. done. }
  split; [by exists s'|]. intros c actor notes scope ev.
  unfold IssueReport, mbind at 1, M_bind at 1. unfold on_db at 1, zoom at 1.
  cbn [iw_db iw_events]. rewrite GetSession_eq, L' by done. cbn [iw_db iw_events].
  destruct (readable scope) eqn:Re; [|by eexists].
  destruct (sees_session scope s') eqn:Vi; [|by eexists].
  unfold guardActor. destruct (Unrestricted scope || bool_decide (actor = ss_InspectorID s'));
    [|by eexists].
  ok_ensure; [|done]. unfold check_transition.
  rewrite (proj2 (CanTransition_legal _ _)) by (rewrite St'; auto). ok_get.
  erewrite bind_ok; [|apply option_ok, templated_by_id; [done|exact T']].
  erewrite (bind_ok _ _ _ (session_findings d' id) (mkInspWorld d' ev));
    [|unfold on_db, zoom; cbn [iw_db iw_events]; by rewrite (ListFindings_eq d' id s'), Re, Vi].
  erewrite (bind_ok _ _ _ (session_evidence d' id) (mkInspWorld d' ev));
    [|unfold on_db, zoom; cbn [iw_db iw_events]; by rewrite (ListEvidence_eq d' id s'), Re, Vi].
  unfold require_ready. rewrite Ef, Ee.
  destruct (CheckReportReadiness t (session_findings d id) (session_evidence d id)); [done|].
  by eexists.
Qed.

End Live.
