(* ===== verification/InspDemo.v ===== *)
(** * InspDemo: a concrete inspection, from its creation to its report

    A sedan is inspected, the session submitted, its report issued; and a second
    inspector's client records one more finding while the submission is between its
    checks and its write. The properties of the inspections are instantiated here.
    Identifiers print as a letter and their number, template identifiers are the
    bytes they are the hash of, and the report columns come in two kinds: one that
    gives the text back, one that prints a space after the first colon. *)

From Stdlib Require Import Ascii.
From S2P Require Import Prelude Hoare Text Sha256 Platform Sql Money Wire PayMachine PayModels.
From S2P Require Import InspModels InspReport InspReportProps InspStore InspService.
From S2P Require Import InspInvariant InspRefine InspProps.

Open Scope Z_scope.

(** ** The parameters *)

Definition hex_uuid : UuidText := letter_uuid 97.

Definition packed (s : string) : uuid :=
  fold_left (λ n c, (n * 256 + byte_of c)%N) (chars s) 1%N.

Definition packed_v5 : UuidV5 := {| NewSHA1 := packed |}.

#[local] Existing Instances lenient hex_uuid packed_v5.

Lemma hex_uuid_plain : UuidPlain.
Proof.
  split; [|intros u E; injection E; done]. intros u.
  change (forallb uuid_char (chars (pretty u)) = true).
  apply forallb_forall. intros c I%list_elem_of_In.
  assert (is_Some (digit c)) as D.
  { revert c I. apply list.Forall_forall. unfold pretty, pretty_N. case_decide.
    - by repeat constructor.
    - by apply pretty_go_chars. }
  unfold uuid_char. apply orb_true_iff. left. unfold digit in D. unfold lower_hex.
  destruct ((48 <=? byte_of c)%N && (byte_of c <=? 57)%N) eqn:B; [done|by destruct D].
Qed.

Lemma packed_distinct : distinct_templates.
Proof. apply (bool_decide_unpack _). vm_compute. exact I. Qed.

(** Columns that give the text back. *)
Definition text_column : JsonColumn := {| json_text t := t |}.

Fixpoint space_first_colon (t : string) : string :=
  match t with
  | "" => ""
  | String c t => if Ascii.eqb c ":" then String ":" (String " " t)
                  else String c (space_first_colon t)
  end.

(** Columns that do not. *)
Definition spacing_column : JsonColumn := {| json_text := space_first_colon |}.

Lemma spacing_column_spaced t : spaced (@json_text spacing_column t).
Proof.
  change (spaced (space_first_colon t)). induction t as [|c t IH]; intros a b A E.
  - by destruct a.
  - cbn [space_first_colon] in E. destruct (Ascii.eqb_spec c ":") as [->|N].
    + destruct a as [|x a]; [injection E as <-; by eexists|].
      injection E as <- E. by apply absent_cons in A as [? _].
    + destruct a as [|x a]; injection E as -> E; [done|].
      apply absent_cons in A as [_ A]. exact (IH a b A E).
Qed.

(** ** The run *)

Definition at_ (seconds : Z) (first : uuid) : Ctx :=
  mkCtx (seconds * second) "req" (λ k, first + N.of_nat k)%N.

Definition broker : option (Event InspPayload → bool) := Some (λ _, true).
Definition inspector : uuid := 7%N.
Definition inspectors : Scope := mkScope (Some 3%N) None false.
Definition session_id : uuid := 10%N.

Definition requested : Session :=
  mkSession uuid_nil (Some 3%N) (Some 4%N) None None ClassSedan uuid_nil "" 0 inspector ""
    None None None zero_time zero_time.

Definition passed (key : string) : Finding :=
  mkFinding uuid_nil uuid_nil key ResultPass SeverityGreen "fine" None zero_time.
Definition failed (key : string) : Finding :=
  mkFinding uuid_nil uuid_nil key ResultFail SeverityRed "worn" None zero_time.

Definition photo : Evidence :=
  mkEvidence uuid_nil uuid_nil None EvidenceKindPhoto (sha256Hex "photo") (300 * second) None true
    "" zero_time.

Definition sedan_items : list string :=
  ["brakes"; "tyres"; "suspension_steering"; "lights_electrical"; "engine_leaks";
   "transmission"; "odometer_consistency"].

Definition opened_world : insp_world :=
  (Start broker (at_ 200 15) session_id inspector inspectors
     (Insp_CreateSession broker (at_ 100 10) (Some requested) (mkInspWorld empty_insp_db [])).2).2.

Fixpoint record_all (n : Z) (keys : list string) (w : insp_world) : insp_world :=
  match keys with
  | [] => w
  | key :: keys =>
      record_all (n + 1) keys
        (RecordFinding (at_ n (Z.to_N n)) session_id (Some (passed key)) inspector inspectors w).2
  end.

Definition inspected_world : insp_world :=
  (AttachEvidence (at_ 300 300) session_id (Some photo) inspector inspectors
     (record_all 210 sedan_items opened_world)).2.

Definition submission :=
  Submit broker (at_ 400 400) session_id inspector inspectors inspected_world.
Definition submitted_world : insp_world := submission.2.

(** The race: a failed item recorded when the submission has read the findings, the
    submission's write after it. *)
Definition late_finding :=
  RecordFinding (at_ 399 390) session_id (Some (failed "brakes")) inspector inspectors
    inspected_world.
Definition raced_db : insp_db :=
  (UpdateSessionStatus (400 * second) session_id StatusInProgress StatusSubmitted
     (Some inspector) "inspection submitted" (iw_db late_finding.2)).2.

Definition the_session (d : insp_db) : Session :=
  default requested (inspection_sessions d !! session_id).

Abbreviation insp_triple := (triple iw_db insp_ok insp_step) (only parsing).

Section Run.
Context `{JsonColumn}.

Definition issuing :=
  IssueReport broker (at_ 500 500) session_id inspector "done" inspectors submitted_world.
Definition reported_world : insp_world := issuing.2.

Definition the_report : Report :=
  default (mkReport 0%N 0%N 0 None None 0%N 0%N "" 0 "" "" 0 0 "" None "" 0)
    (head (inspection_reports (iw_db reported_world))).

(** ** It is a run *)

Lemma handler_reachable {A} (c : M insp_world InspError A) Q w :
  insp_triple (λ _, True) c Q → insp_reachable (iw_db w) → insp_reachable (iw_db (c w).2).
Proof.
  intros T R. unfold insp_reachable, insp_steps. etrans; [exact R|].
  apply (triple_steps iw_db insp_ok insp_step _ c _ w T); [by apply insp_reachable_ok|done].
Qed.

Lemma opened_reachable : insp_reachable (iw_db opened_world).
Proof.
  unfold opened_world. eapply handler_reachable; [apply Start_triple|].
  eapply handler_reachable; [apply CreateSession_triple|]. apply rtc_refl.
Qed.

Lemma record_all_reachable keys : ∀ n w,
  insp_reachable (iw_db w) → insp_reachable (iw_db (record_all n keys w)).
Proof.
  induction keys as [|key keys IH]; intros n w R; [done|]. apply IH.
  eapply handler_reachable; [apply RecordFinding_triple, packed_distinct|done].
Qed.

Lemma inspected_reachable : insp_reachable (iw_db inspected_world).
Proof.
  unfold inspected_world.
  eapply handler_reachable; [apply AttachEvidence_triple|].
  apply record_all_reachable, opened_reachable.
Qed.

Lemma submitted_reachable : insp_reachable (iw_db submitted_world).
Proof.
  unfold submitted_world, submission.
  eapply handler_reachable; [apply Submit_triple|apply inspected_reachable].
Qed.

Lemma reporting_steps : insp_steps (iw_db submitted_world) (iw_db reported_world).
Proof.
  unfold reported_world, issuing.
  eapply (triple_steps iw_db insp_ok insp_step);
    [apply IssueReport_triple, packed_distinct| |done].
  apply insp_reachable_ok, submitted_reachable.
Qed.

Lemma reported_reachable : insp_reachable (iw_db reported_world).
Proof. unfold insp_reachable, insp_steps. etrans; [apply submitted_reachable|apply reporting_steps]. Qed.

Lemma raced_reachable : insp_reachable raced_db.
Proof.
  apply (rtc_r _ (iw_db late_finding.2)).
  - unfold late_finding. eapply handler_reachable; [apply RecordFinding_triple, packed_distinct|].
    apply inspected_reachable.
  - apply (istep_move _ (400 * second) session_id StatusInProgress StatusSubmitted (Some inspector)
             "inspection submitted" (inr tt)); [reflexivity|done|].
    vm_compute. reflexivity.
Qed.

End Run.

(** ** The properties at the run *)

#[local] Existing Instance text_column.

Lemma submission_run :
  Submit broker (at_ 400 400) session_id inspector inspectors inspected_world =
  (inr (the_session (iw_db submitted_world)), submitted_world).
Proof. vm_compute. reflexivity. Qed.

Lemma submitted_session :
  inspection_sessions (iw_db submitted_world) !! session_id =
  Some (the_session (iw_db submitted_world)).
Proof. vm_compute. reflexivity. Qed.

Lemma reported_session :
  inspection_sessions (iw_db reported_world) !! session_id =
  Some (the_session (iw_db reported_world)).
Proof. vm_compute. reflexivity. Qed.

Lemma raced_session :
  inspection_sessions raced_db !! session_id = Some (the_session raced_db).
Proof. vm_compute. reflexivity. Qed.

Lemma reported_row : the_report ∈ inspection_reports (iw_db reported_world).
Proof.
  assert (inspection_reports (iw_db reported_world) = [the_report]) as ->
    by (vm_compute; reflexivity).
  by constructor.
Qed.

Definition sedan : Template := default (mkTemplate 0%N "" "" 0 [] false) (nth_error registry 1).

Lemma raced_unready :
  CheckReportReadiness sedan (session_findings raced_db session_id)
    (session_evidence raced_db session_id) = [RedWithoutEvidence "brakes" 390%N].
Proof. vm_compute. reflexivity. Qed.

Lemma sedan_templated d : the_session d = the_session raced_db → templated (the_session d) sedan.
Proof. intros ->. split_and!; vm_compute; reflexivity. Qed.

(** Two records of one item, the newer failed. *)
Definition two_records : list Finding :=
  [mkFinding 1%N session_id "brakes" ResultPass SeverityGreen "" None 5;
   mkFinding 2%N session_id "brakes" ResultFail SeverityRed "" None 6].

Lemma SelectLatestFindings_exact_witness :
  SelectLatestFindings two_records = drop 1 two_records ∧
  ∀ l', two_records ≡ₚ l' → SelectLatestFindings l' = drop 1 two_records.
Proof.
  assert (NoDup (fi_ID <$> two_records)) as Nd by (apply (bool_decide_unpack _); exact I).
  assert (SelectLatestFindings two_records = drop 1 two_records) as E by reflexivity.
  split; [exact E|]. intros l' P. rewrite <-E.
  apply (SelectLatestFindings_exact two_records Nd), P.
Defined.

Lemma inspections_refine_steps_witness :
  insp_reachable (iw_db submitted_world) ∧ insp_reachable (iw_db reported_world).
Proof.
  split.
  - destruct (inspections_refine_steps broker packed_distinct inspected_world inspected_reachable)
      as (_ & _ & _ & _ & Su & _).
    exact (Su (at_ 400 400) session_id inspector inspectors).
  - destruct (inspections_refine_steps broker packed_distinct submitted_world submitted_reachable)
      as (_ & _ & _ & _ & _ & Is).
    exact (Is (at_ 500 500) session_id inspector "done" inspectors).
Defined.

Lemma sealed_after_submit_witness :
  ∃ s', inspection_sessions (iw_db reported_world) !! session_id = Some s' ∧
    core s' = core (the_session (iw_db submitted_world)) ∧
    length (session_findings (iw_db reported_world) session_id) = 7%nat.
Proof.
  destruct (sealed_after_submit _ _ session_id _ submitted_reachable reporting_steps
              submitted_session (or_introl eq_refl)) as (s' & L & _ & C & F & _).
  exists s'. split; [exact L|]. split; [exact C|]. rewrite F. vm_compute. reflexivity.
Defined.

Lemma inspection_rows_agree_witness :
  stamped (the_session (iw_db reported_world)) ∧
  ∃ r, r ∈ inspection_reports (iw_db reported_world) ∧ rp_SessionID r = session_id.
Proof.
  destruct (inspection_rows_agree _ _ _ reported_reachable reported_session)
    as (_ & _ & St & _ & [Re _] & _).
  split; [exact St|]. apply Re. vm_compute. reflexivity.
Defined.

#[local] Existing Instance hex_uuid_plain.

Lemma report_certifies_witness :
  ∃ s, rp_ContentHash the_report = sha256Hex (certified_text (iw_db reported_world) s) ∧
    ∀ s' es v, four_digit_year (default zero_time (ss_SubmittedAt s)) = true →
      clean_session s' = true → forallb clean_evidence es = true →
      BuildReportInput s' [] es v = certified_text (iw_db reported_world) s → False.
Proof.
  destruct (report_certifies packed_distinct _ _ reported_reachable reported_row)
    as (s & L & Ha & Inj).
  exists s. split; [exact Ha|]. intros s' es v Y Cs Ce E.
  destruct (Inj s' [] es v Y Cs eq_refl Ce E) as (_ & _ & F & _).
  assert (ss_ID s = session_id) as Id.
  { change (inspection_sessions (iw_db reported_world) !! session_id = Some s) in L.
    rewrite reported_session in L. apply (inj Some) in L as <-. vm_compute. reflexivity. }
  rewrite Id in F. apply Forall2_length in F.
  assert (length (SelectLatestFindings (session_findings (iw_db reported_world) session_id)) = 7%nat)
    as N by (vm_compute; reflexivity).
  rewrite N in F. discriminate F.
Defined.

Lemma reported_report :
  report_of (iw_db reported_world) session_id None = Some the_report.
Proof. vm_compute. reflexivity. Qed.

Lemma issued_report_verifies_witness :
  ∃ v, Verify (at_ 600 600) session_id None inspectors reported_world = (inr v, reported_world) ∧
    rv_Verified v = true.
Proof.
  destruct (issued_report_verifies packed_distinct (at_ 600 600) session_id None inspectors
              reported_world _ _ reported_reachable reported_session eq_refl
              ltac:(vm_compute; reflexivity) reported_report)
    as (v & F & E & R & _ & _ & _ & _ & _ & _ & V).
  exists v. split; [exact R|]. apply V. split; reflexivity.
Defined.

Lemma all_of {A} (p : A → bool) l : forallb p l = true → ∀ x, x ∈ l → p x = true.
Proof. rewrite forallb_forall. intros F x I%list_elem_of_In. by apply F. Qed.

Lemma submitted_printable : printable (iw_db submitted_world) session_id.
Proof.
  split.
  - apply (all_of (λ f, four_digit_year (fi_CreatedAt f))). vm_compute. reflexivity.
  - apply (all_of (λ e, four_digit_year (ev_CapturedAt e))). vm_compute. reflexivity.
Qed.

Lemma no_reports_yet :
  ctx_fresh (at_ 500 500) 0%nat ∉ rp_ID <$> inspection_reports (iw_db submitted_world).
Proof.
  assert (inspection_reports (iw_db submitted_world) = []) as -> by (vm_compute; reflexivity).
  apply not_elem_of_nil.
Qed.

Lemma submitted_then_reported_witness :
  ∃ r w2, IssueReport broker (at_ 500 500) session_id inspector "done" inspectors
            (mkInspWorld (iw_db submitted_world) (iw_events submitted_world)) = (inr r, w2) ∧
    ∃ row, row ∈ inspection_reports (iw_db w2) ∧ rp_SessionID row = session_id.
Proof.
  destruct (submitted_then_reported broker packed_distinct (at_ 400 400) session_id inspector
              inspectors inspected_world _ submitted_world (iw_db submitted_world) (at_ 500 500)
              "done" (iw_events submitted_world) inspected_reachable submission_run
              ltac:(apply rtc_refl)) as (r & w2 & Run & _ & Row).
  - exists (the_session (iw_db submitted_world)). split; [exact submitted_session|].
    vm_compute. reflexivity.
  - exact submitted_printable.
  - apply Nat.leb_le. reflexivity.
  - exact no_reports_yet.
  - intros b E e. by injection E as <-.
  - exists r, w2. split; [exact Run|exact Row].
Defined.

Lemma unready_submission_stranded_witness :
  (∃ t, checkReadiness (the_session (iw_db inspected_world)) inspectors inspected_world =
        (inr tt, t)) ∧
  ss_Status (the_session raced_db) = "SUBMITTED" ∧
  ∀ ev, ∃ e, IssueReport broker (at_ 500 500) session_id inspector "done" inspectors
               (mkInspWorld raced_db ev) = (inl e, mkInspWorld raced_db ev).
Proof.
  split; [eexists; vm_compute; reflexivity|]. split; [vm_compute; reflexivity|]. intros ev.
  destruct (unready_submission_stranded broker packed_distinct raced_db raced_db session_id
              (the_session raced_db) sedan raced_reachable raced_session
              ltac:(vm_compute; reflexivity) (sedan_templated raced_db eq_refl)
              ltac:(rewrite raced_unready; discriminate) ltac:(apply rtc_refl)) as [_ F].
  apply F.
Defined.

#[local] Existing Instance spacing_column.

Lemma jsonb_reports_never_verify_witness :
  ∃ v, Verify (at_ 600 600) session_id None inspectors reported_world = (inr v, reported_world) ∧
    rv_HashMatch v = true ∧ rv_Verified v = false.
Proof.
  destruct (jsonb_reports_never_verify packed_distinct (at_ 600 600) session_id None inspectors
              reported_world (the_session (iw_db reported_world)) the_report reported_reachable
              ltac:(vm_compute; reflexivity) eq_refl ltac:(vm_compute; reflexivity)
              ltac:(vm_compute; reflexivity) (λ es E _ _, spacing_column_spaced E))
    as (v & R & Hm & _ & V).
  exists v. split; [exact R|]. split; [exact Hm|exact V].
Defined.
