(* ===== verification/Base64.v ===== *)
(** * Base64: the unpadded encodings of [encoding/base64]

    [RawStdEncoding] of the password hashes and [RawURLEncoding] of the opaque
    tokens: groups of three bytes as four characters of an alphabet, the rest
    without padding. Decoding skips line ends and ignores the bits left over. *)

From Stdlib Require Import Ascii.
From S2P Require Import Prelude Text.

Open Scope N_scope.

(** The two characters in which the alphabets differ. *)
Definition alphabet := (ascii * ascii)%type.
Definition RawStdEncoding : alphabet := ("+"%char, "/"%char).
Definition RawURLEncoding : alphabet := ("-"%char, "_"%char).

Definition encode_char (enc : alphabet) (n : N) : ascii :=
  if n <? 26 then byte (65 + n)
  else if n <? 52 then byte (71 + n)
  else if n <? 62 then byte (n - 4)
  else if n =? 62 then enc.1 else enc.2.

Definition decode_char (enc : alphabet) (c : ascii) : option N :=
  let n := byte_of c in
  if (65 <=? n) && (n <=? 90) then Some (n - 65)
  else if (97 <=? n) && (n <=? 122) then Some (n - 71)
  else if (48 <=? n) && (n <=? 57) then Some (n + 4)
  else if Ascii.eqb c enc.1 then Some 62
  else if Ascii.eqb c enc.2 then Some 63
  else None.

Fixpoint encode_groups (bytes : list N) : list N :=
  match bytes with
  | a :: b :: c :: rest =>
      a / 4 :: a mod 4 * 16 + b / 16 :: b mod 16 * 4 + c / 64 :: c mod 64 :: encode_groups rest
  | [a; b] => [a / 4; a mod 4 * 16 + b / 16; b mod 16 * 4]
  | [a] => [a / 4; a mod 4 * 16]
  | [] => []
  end.

Fixpoint decode_groups (values : list N) : option (list N) :=
  match values with
  | w :: x :: y :: z :: rest =>
      bytes ← decode_groups rest;
      Some (w * 4 + x / 16 :: x mod 16 * 16 + y / 4 :: y mod 4 * 64 + z :: bytes)
  | [w; x; y] => Some [w * 4 + x / 16; x mod 16 * 16 + y / 4]
  | [w; x] => Some [w * 4 + x / 16]
  | [_] => None
  | [] => Some []
  end.

Definition EncodeToString (enc : alphabet) (bytes : list N) : string :=
  of_chars (map (encode_char enc) (encode_groups bytes)).

Definition line_end (c : ascii) : bool := (byte_of c =? 10) || (byte_of c =? 13).

Definition DecodeString (enc : alphabet) (s : string) : option (list N) :=
  values ← mapM (decode_char enc) (List.filter (λ c, negb (line_end c)) (chars s));
  decode_groups values.

(** ** The round trip *)

(** The alphabets in use. *)
Definition base64_alphabet (enc : alphabet) : Prop := enc = RawStdEncoding ∨ enc = RawURLEncoding.

(** A character of an encoding. *)
Definition base64_char (c : ascii) : bool :=
  match decode_char RawStdEncoding c, decode_char RawURLEncoding c with
  | None, None => false
  | _, _ => true
  end.

Lemma encode_char_spec enc n : base64_alphabet enc → n < 64 →
  decode_char enc (encode_char enc n) = Some n ∧ line_end (encode_char enc n) = false ∧
  base64_char (encode_char enc n) = true.
Proof.
  intros A L.
  assert (∀ enc, base64_alphabet enc → forallb (λ k, let n := N.of_nat k in
      bool_decide (decode_char enc (encode_char enc n) = Some n) &&
      negb (line_end (encode_char enc n)) && base64_char (encode_char enc n)) (seq 0 64) = true) as F
    by (intros e [->| ->]; vm_compute; reflexivity).
  specialize (F enc A). rewrite forallb_forall in F.
  specialize (F (N.to_nat n) ltac:(apply in_seq; lia)). cbv zeta in F.
  rewrite N2Nat.id in F. props. done.
Qed.

Definition is_bytes (l : list N) : Prop := Forall (λ b, b < 256) l.

Lemma encode_groups_spec (n : nat) : ∀ bytes, (length bytes ≤ n)%nat → is_bytes bytes →
  Forall (λ v, v < 64) (encode_groups bytes) ∧ decode_groups (encode_groups bytes) = Some bytes.
Proof.
  assert (∀ x k m, k ≠ 0 → x < k * m → x / k < m) as Dlt
    by (intros; apply N.Div0.div_lt_upper_bound; lia).
  assert (∀ q r k, k ≠ 0 → r < k → (q * k + r) / k = q) as Dadd
    by (intros; rewrite N.add_comm, N.div_add, N.div_small; lia).
  assert (∀ q r k, k ≠ 0 → r < k → (q * k + r) mod k = r) as Madd
    by (intros; rewrite N.add_comm, N.Div0.mod_add, N.mod_small; lia).
  assert (∀ x k, k ≠ 0 → x mod k < k) as Mlt by (intros; by apply N.mod_lt).
  assert (∀ x k, k ≠ 0 → x / k * k + x mod k = x) as Dm
    by (intros x k K; rewrite (N.div_mod x k K) at 3; lia).
  induction n as [|n IH]; intros bytes L B.
  - destruct bytes; [by split|simpl in L; lia].
  - destruct bytes as [|a [|b [|c rest]]]; [by split|..]; inversion_clear B as [|? ? Ba B1].
    + assert (a / 4 < 64) by (apply Dlt; lia). pose proof (Mlt a 4 ltac:(done)).
      cbn [encode_groups decode_groups]. split; [repeat constructor; lia|].
      rewrite <-(N.add_0_r (a mod 4 * 16)), Dadd by lia. by rewrite Dm.
    + inversion_clear B1 as [|? ? Bb B2]. assert (a / 4 < 64) by (apply Dlt; lia).
      assert (b / 16 < 16) by (apply Dlt; lia).
      pose proof (Mlt a 4 ltac:(done)). pose proof (Mlt b 16 ltac:(done)).
      cbn [encode_groups decode_groups]. split; [repeat constructor; lia|].
      rewrite Dadd, Madd, N.div_mul by lia. by rewrite !Dm.
    + inversion_clear B1 as [|? ? Bb B2]. inversion_clear B2 as [|? ? Bc Br].
      assert (a / 4 < 64) by (apply Dlt; lia). assert (b / 16 < 16) by (apply Dlt; lia).
      assert (c / 64 < 4) by (apply Dlt; lia).
      pose proof (Mlt a 4 ltac:(done)). pose proof (Mlt b 16 ltac:(done)).
      pose proof (Mlt c 64 ltac:(done)).
      destruct (IH rest) as [F E]; [simpl in L; lia|done|].
      cbn [encode_groups decode_groups]. split; [repeat constructor; try lia; done|].
      rewrite E. unfold mbind, option_bind. rewrite !Dadd, !Madd by lia. by rewrite !Dm.
Qed.

Lemma mapM_encode enc values : base64_alphabet enc → Forall (λ v, v < 64) values →
  mapM (decode_char enc) (List.filter (λ c, negb (line_end c)) (map (encode_char enc) values)) =
  Some values.
Proof.
  intros A F. induction F as [|v values L F IH]; [done|]. cbn [map List.filter].
  destruct (encode_char_spec enc v A L) as (D & E & _). rewrite E. cbn [negb mapM].
  by rewrite D, IH.
Qed.

Lemma DecodeString_encode enc bytes : base64_alphabet enc → is_bytes bytes →
  DecodeString enc (EncodeToString enc bytes) = Some bytes.
Proof.
  intros A B. destruct (encode_groups_spec (length bytes) bytes) as [F D]; [done..|].
  unfold DecodeString, EncodeToString. rewrite chars_of_chars, mapM_encode by done. exact D.
Qed.

Lemma EncodeToString_chars enc bytes : base64_alphabet enc → is_bytes bytes →
  forallb base64_char (chars (EncodeToString enc bytes)) = true.
Proof.
  intros A B. destruct (encode_groups_spec (length bytes) bytes) as [F _]; [done..|].
  unfold EncodeToString. rewrite chars_of_chars. induction F as [|v values L F IH]; [done|].
  cbn [map forallb]. rewrite IH. by destruct (encode_char_spec enc v A L) as (_ & _ & ->).
Qed.
