(* ===== verification/IdentPassword.v ===== *)
(** * IdentPassword: argon2id password hashes ([backend/identity/password.go])

    The PHC string of a hash, its parser and the comparison. The key derivation
    belongs to golang.org/x/crypto. *)

From Stdlib Require Import Ascii.
From S2P Require Import Prelude Text Platform Wire Base64.

Open Scope Z_scope.

(** [argon2.IDKey(password, salt, time, memory, threads, keyLen)], documented to
    return [keyLen] bytes. *)
Class Argon2 := {
  IDKey : string → list N → Z → Z → Z → Z → list N;
  IDKey_bytes : ∀ p s t m h k, is_bytes (IDKey p s t m h k);
  IDKey_length : ∀ p s t m h k, 0 ≤ k → Z.of_nat (length (IDKey p s t m h k)) = k;
}.

Definition argon2_Version : Z := 19.

Definition MinPasswordLength : nat := 10.
Definition MaxPasswordLength : nat := 128.
Definition argon2MemoryKiB : Z := 64 * 1024.
Definition argon2Time : Z := 3.
Definition argon2Threads : Z := 4.
Definition argon2KeyLength : Z := 32.
Definition argon2SaltLength : nat := 16.
Definition phcAlphabet : alphabet := RawStdEncoding.

Inductive PHCError :=
  | UnknownFormat
  | MalformedHash
  | UnsupportedVersion (v : Z).

Section Password.
Context `{Argon2}.

(** The hash with the given salt. *)
Definition phc_string (salt key : list N) : string :=
  "$argon2id$v=" +:+ pretty argon2_Version +:+ "$m=" +:+ pretty argon2MemoryKiB +:+ ",t=" +:+
  pretty argon2Time +:+ ",p=" +:+ pretty argon2Threads +:+ "$" +:+
  EncodeToString phcAlphabet salt +:+ "$" +:+ EncodeToString phcAlphabet key.

(** [salt] is what [rand.Read] filled. *)
Definition HashPassword (salt : list N) (password : string) : Error + string :=
  if (blen password <? MinPasswordLength)%nat then
    inl (ErrValidation ("password must be at least " +:+ pretty (Z.of_nat MinPasswordLength) +:+
                        " characters") [mkFieldError "password" "too_short"])
  else if (MaxPasswordLength <? blen password)%nat then
    inl (ErrValidation ("password must be at most " +:+ pretty (Z.of_nat MaxPasswordLength) +:+
                        " characters") [mkFieldError "password" "too_long"])
  else inr (phc_string salt
              (IDKey password salt argon2Time argon2MemoryKiB argon2Threads argon2KeyLength)).

Definition parsePHCField (field key : string) : PHCError + Z :=
  if negb (has_prefix field (key +:+ "=")) then inl MalformedHash
  else match ParseInt (trim_prefix field (key +:+ "=")) with
       | Some value => inr value
       | None => inl MalformedHash
       end.

(** The fields of a PHC string, in their order: version, memory, time, threads,
    salt, key. *)
Definition parse_phc (encoded : string) : PHCError + (Z * Z * Z * list N * list N) :=
  if negb (has_prefix encoded "$argon2id$") then inl UnknownFormat
  else match split "$" (trim_prefix encoded "$") with
  | [kind; vs; ps; salt64; key64] =>
      if negb (String.eqb kind "argon2id") then inl UnknownFormat
      else match parsePHCField vs "v" with
      | inl e => inl e
      | inr version =>
          if negb (version =? argon2_Version) then inl (UnsupportedVersion version)
          else match split "," ps with
          | [ms; ts; hs] =>
              match parsePHCField ms "m", parsePHCField ts "t", parsePHCField hs "p" with
              | inr memory, inr timeParam, inr threads =>
                  if (memory <=? 0) || (timeParam <=? 0) || (threads <=? 0) then inl MalformedHash
                  else match DecodeString phcAlphabet salt64, DecodeString phcAlphabet key64 with
                  | Some salt, Some want =>
                      if (length salt =? 0)%nat then inl MalformedHash
                      else if (length want =? 0)%nat || (MaxPasswordLength <? length want)%nat
                      then inl MalformedHash
                      else inr (memory, timeParam, threads, salt, want)
                  | _, _ => inl MalformedHash
                  end
              | _, _, _ => inl MalformedHash
              end
          | _ => inl MalformedHash
          end
      end
  | _ => inl MalformedHash
  end.

(** The conversions to uint32 and uint8 of the call wrap around. *)
Definition VerifyPassword (password encoded : string) : PHCError + bool :=
  match parse_phc encoded with
  | inl e => inl e
  | inr (memory, timeParam, threads, salt, want) =>
      inr (bool_decide (IDKey password salt (timeParam mod 2 ^ 32) (memory mod 2 ^ 32)
                          (threads mod 2 ^ 8) (Z.of_nat (length want)) = want))
  end.

(** ** What is hashed verifies *)

Lemma base64_char_absent c s : base64_char c = false →
  forallb base64_char (chars s) = true → absent c s.
Proof.
  intros N F I. rewrite forallb_forall in F. apply list_elem_of_In, F in I. congruence.
Qed.

Lemma parse_phc_string salt key : is_bytes salt → is_bytes key → salt ≠ [] →
  (0 < length key ≤ MaxPasswordLength)%nat →
  parse_phc (phc_string salt key) = inr (argon2MemoryKiB, argon2Time, argon2Threads, salt, key).
Proof.
  intros Bs Bk Ns Lk. assert (base64_alphabet phcAlphabet) as A by by left.
  unfold phc_string. set (s64 := EncodeToString phcAlphabet salt).
  set (k64 := EncodeToString phcAlphabet key).
  set (text := "$argon2id$v=" +:+ _).
  assert (text = String "$" (join "$" ["argon2id"; "v=19"; "m=65536,t=3,p=4"; s64; k64])) as -> by done.
  unfold parse_phc.
  change (has_prefix _ "$argon2id$") with true.
  change (trim_prefix _ "$") with (join "$" ["argon2id"; "v=19"; "m=65536,t=3,p=4"; s64; k64]).
  rewrite split_join; [|done|].
  - cbv beta iota. change (parsePHCField "v=19" "v") with (@inr PHCError Z 19).
    change (split "," "m=65536,t=3,p=4") with ["m=65536"; "t=3"; "p=4"].
    change (parsePHCField "m=65536" "m") with (@inr PHCError Z 65536).
    change (parsePHCField "t=3" "t") with (@inr PHCError Z 3).
    change (parsePHCField "p=4" "p") with (@inr PHCError Z 4).
    cbv beta iota. unfold s64, k64. rewrite !DecodeString_encode by done.
    change (negb (String.eqb "argon2id" "argon2id")) with false.
    change (negb (19 =? argon2_Version)) with false.
    change ((65536 <=? 0) || (3 <=? 0) || (4 <=? 0)) with false. cbv beta iota.
    destruct salt as [|b salt]; [done|]. change (length (b :: salt) =? 0)%nat with false.
    cbv beta iota. destruct (Nat.eqb_spec (length key) 0); [lia|].
    destruct (Nat.ltb_spec MaxPasswordLength (length key)); [lia|]. done.
  - do 3 (constructor; [by apply free_of_absent|]).
    do 2 (constructor; [by apply base64_char_absent, EncodeToString_chars|]). done.
Qed.

(** A password verifies against the hash of another exactly when both derive the
    same key under the salt of the hash. *)
Lemma VerifyPassword_hash salt password h q :
  is_bytes salt → salt ≠ [] → HashPassword salt password = inr h →
  VerifyPassword q h = inr (bool_decide
    (IDKey q salt argon2Time argon2MemoryKiB argon2Threads argon2KeyLength =
     IDKey password salt argon2Time argon2MemoryKiB argon2Threads argon2KeyLength)).
Proof.
  intros Bs Ns. unfold HashPassword. destruct (_ <? _)%nat; [done|].
  destruct (_ <? _)%nat; [done|]. intros [= <-]. unfold VerifyPassword.
  set (key := IDKey password salt _ _ _ _).
  assert (Z.of_nat (length key) = argon2KeyLength) as L by by apply IDKey_length.
  rewrite parse_phc_string; [|done|apply IDKey_bytes|done|unfold argon2KeyLength, MaxPasswordLength in *; lia].
  cbv iota beta. by rewrite L.
Qed.

(** The limits count bytes, although the refusals speak of characters, as the contract of
    the API does: five characters of two bytes are enough, sixty-five too many. *)
Lemma limits_count_bytes salt :
  (∃ h, HashPassword salt "ééééé" = inr h) ∧
  ∃ e, HashPassword salt (String.concat "é" (repeat "" 66)) = inl e.
Proof. split; eexists; reflexivity. Qed.

(** C28. A password of 10 to 128 bytes of UTF-8, however many characters those are, is
    hashed, any other refused; the hash is a PHC string that parses back, so that exactly
    the passwords that derive the same key under its salt verify against it, the hashed
    one among them. *)
Theorem password_roundtrip salt password (B : is_bytes salt) (N : salt ≠ []) :
  match HashPassword salt password with
  | inr h => (10 <= blen password <= 128)%nat ∧ VerifyPassword password h = inr true ∧
      ∀ q, VerifyPassword q h = inr (bool_decide
        (IDKey q salt argon2Time argon2MemoryKiB argon2Threads argon2KeyLength =
         IDKey password salt argon2Time argon2MemoryKiB argon2Threads argon2KeyLength))
  | inl e => (blen password < 10 ∨ 128 < blen password)%nat
  end.
Proof.
  destruct (HashPassword salt password) as [e|h] eqn:E.
  - unfold HashPassword in E. destruct (Nat.ltb_spec (blen password) MinPasswordLength); [by left|].
    destruct (Nat.ltb_spec MaxPasswordLength (blen password)); [by right|done].
  - split_and!.
    + unfold HashPassword in E. by destruct (Nat.ltb_spec (blen password) MinPasswordLength).
    + unfold HashPassword in E. destruct (_ <? _)%nat; [done|].
      by destruct (Nat.ltb_spec MaxPasswordLength (blen password)).
    + rewrite (VerifyPassword_hash _ _ _ _ B N E). by rewrite bool_decide_eq_true_2.
    + intros q. exact (VerifyPassword_hash _ _ _ _ B N E).
Qed.

End Password.
