(* ===== verification/IdentModels.v ===== *)
(** * IdentModels: the data of the identity domain

    [backend/identity/models.go], the records and configuration of [audit.go],
    [tokens.go] and [config.go], and the claims of [backend/platform/jwt.go] an
    access token is signed over. *)

From Stdlib Require Import Ascii Floats.SpecFloat.
From S2P Require Import Prelude Text Platform.

Open Scope Z_scope.

(** ** Case mapping

    [strings.ToLower] and [LOWER] of PostgreSQL follow the tables of Unicode, which
    are data of their libraries; the code relies on what they do to ASCII. *)
Definition ascii_lower (c : ascii) : ascii :=
  if in_range 65 90 c then byte (byte_of c + 32) else c.
Definition is_ascii (s : string) : bool := forallb (λ c, byte_of c <? 128)%N (chars s).
Definition lower (s : string) : string := of_chars (map ascii_lower (chars s)).

Class CaseMapping := {
  ToLower : string → string;
  sql_lower : string → string;
  ToLower_ascii : ∀ s, is_ascii s = true → ToLower s = lower s;
  sql_lower_ascii : ∀ s, is_ascii s = true → sql_lower s = lower s;
}.

(** ** Roles *)

Definition RoleCustomer : string := "CUSTOMER".
Definition RoleTechnician : string := "TECHNICIAN".
Definition RoleDispatcher : string := "DISPATCHER".
Definition RoleGarage : string := "GARAGE".
Definition RoleFleetAdmin : string := "FLEET_ADMIN".
Definition RoleSupport : string := "SUPPORT".
Definition RoleFinance : string := "FINANCE".
Definition RoleAdmin : string := "ADMIN".
Definition RoleSuperAdmin : string := "SUPER_ADMIN".

Definition rolePriority : list (string * Z) :=
  [(RoleSuperAdmin, 8); (RoleAdmin, 7); (RoleFinance, 6); (RoleSupport, 5); (RoleFleetAdmin, 4);
   (RoleGarage, 3); (RoleDispatcher, 2); (RoleTechnician, 1); (RoleCustomer, 0)].

(** [p, ok := rolePriority[r]] *)
Definition priority (r : string) : option Z :=
  snd <$> List.find (λ e, String.eqb e.1 r) rolePriority.

(** The loop of [HighestRole], from the best priority and role so far. *)
Fixpoint highest (best : Z) (result : string) (roles : list string) : string :=
  match roles with
  | [] => result
  | r :: roles =>
      match priority r with
      | Some p => if best <? p then highest p r roles else highest best result roles
      | None => highest best result roles
      end
  end.

Definition HighestRole (roles : list string) : string := highest (-1) "" roles.

(** ** Accounts *)

Definition StatusActive : string := "active".
Definition StatusSuspended : string := "suspended".
Definition StatusDeleted : string := "deleted".

Record User := mkUser {
  u_ID : uuid;
  u_Email : string;
  u_Phone : string;
  u_FullName : string;
  u_PasswordHash : string;
  u_Status : string;
  u_Roles : list string;
  u_EmailVerifiedAt : option time;
  u_PhoneVerifiedAt : option time;
  u_CreatedAt : time;
  u_UpdatedAt : time;
}.

Definition verificationSatisfied (u : User) : bool :=
  match u_EmailVerifiedAt u with
  | None => false
  | Some _ =>
      if negb (String.eqb (u_Phone u) "") && bool_decide (u_PhoneVerifiedAt u = None)
      then false else true
  end.

Record Session := mkSession {
  se_ID : uuid;
  se_UserID : uuid;
  se_RefreshTokenHash : string;
  se_DeviceName : string;
  se_IPAddress : string;
  se_CreatedAt : time;
  se_ExpiresAt : time;
  se_AbsoluteExpiresAt : time;
  se_RevokedAt : option time;
}.

Record RoleGrant := mkRoleGrant {
  rg_Role : string;
  rg_TenantID : option uuid;
}.

Definition rolesFromGrants (grants : list RoleGrant) : list string := map rg_Role grants.

(** ** Verification tokens *)

Definition ChannelEmail : string := "email".
Definition ChannelPhone : string := "phone".

Definition IsValidVerificationChannel (channel : string) : bool :=
  String.eqb channel ChannelEmail || String.eqb channel ChannelPhone.

Record VerificationToken := mkVerificationToken {
  vt_ID : uuid;
  vt_UserID : uuid;
  vt_Channel : string;
  vt_TokenHash : string;
  vt_ExpiresAt : time;
  vt_ConsumedAt : option time;
  vt_CreatedAt : time;
}.

Record VerificationEcho := mkVerificationEcho {
  ve_Channel : string;
  ve_Token : string;
  ve_ExpiresAt : time;
}.

(** ** Audit ([audit.go]) *)

(** The values writers put into the metadata: the dispatch domain adds binary64 numbers and
    objects of them, whose members are in the order of their names. *)
Inductive meta := MText (s : string) | MInt (z : Z) | MFloat (x : spec_float) | MFloats (l : list (string * spec_float)).

Definition ActionUserRegistered : string := "identity.user.registered".
Definition ActionUserLogin : string := "identity.user.login".
Definition ActionSessionRefreshed : string := "identity.session.refreshed".
Definition ActionSessionRevoked : string := "identity.session.revoked".
Definition ActionRoleGranted : string := "identity.role.granted".
Definition ActionSessionRevokedAll : string := "identity.session.revoked_all".
Definition ActionPasswordChanged : string := "identity.user.password_changed".
Definition ActionBreachCheckUnavailable : string := "identity.password.breach_check_unavailable".
Definition ActionVerificationIssued : string := "identity.verification.issued".
Definition ActionVerificationVerified : string := "identity.verification.verified".
Definition ActionVerificationResent : string := "identity.verification.resent".
Definition ActionUsersListed : string := "identity.users.listed".

Record AuditEntry := mkAuditEntry {
  ae_ActorID : option uuid;
  ae_Action : string;
  ae_ObjectType : string;
  ae_ObjectID : string;
  ae_TenantID : option uuid;
  ae_Metadata : option (gmap string meta);
}.

Record AuditRecord := mkAuditRecord {
  ar_ID : Z;
  ar_ActorID : option uuid;
  ar_Action : string;
  ar_ObjectType : string;
  ar_ObjectID : string;
  ar_TenantID : option uuid;
  ar_Metadata : gmap string meta;
  ar_CreatedAt : time;
}.

Definition defaultAuditListLimit : Z := 20.
Definition maxAuditListLimit : Z := 100.

Record AuditFilter := mkAuditFilter {
  af_ActorID : option uuid;
  af_Action : string;
  af_ObjectType : string;
  af_ObjectID : string;
  af_TenantID : option uuid;
  af_Since : option time;
  af_Until : option time;
  af_Limit : Z;
  af_Offset : Z;
}.

(** ** Configuration ([tokens.go], [config.go]) *)

Definition DefaultAccessTTL : Z := 15 * minute.
Definition DefaultRefreshTTL : Z := 30 * 24 * hour.
Definition DefaultAbsoluteSessionTTL : Z := 90 * 24 * hour.
Definition DefaultVerificationGrace : Z := 24 * hour.
Definition refreshTokenBytes : nat := 32.

Definition DefaultVerificationTokenTTL : Z := 24 * hour.
Definition DefaultResendCooldown : Z := minute.
Definition DefaultResendLimit : Z := 5.
Definition verificationResendLimitWindow : Z := 24 * hour.

Record VerificationConfig := mkVerificationConfig {
  vc_Grace : Z;
  vc_TokenTTL : Z;
  vc_ResendCooldown : Z;
  vc_ResendLimit : Z;
  vc_DevEcho : bool;
}.

Definition DefaultVerificationConfig : VerificationConfig :=
  mkVerificationConfig DefaultVerificationGrace DefaultVerificationTokenTTL DefaultResendCooldown
    DefaultResendLimit false.

(** ** Access tokens

    [AccessClaims] of [backend/platform/jwt.go]; the times are Unix seconds. *)
Record MapClaims := mkMapClaims {
  mc_iss : string;
  mc_aud : string;
  mc_sub : string;
  mc_sid : string;
  mc_tenant_id : string;
  mc_role : string;
  mc_roles : list string;
  mc_iat : Z;
  mc_exp : Z;
}.

(** [time.Time.Unix] *)
Definition unix (t : time) : Z := t / second.

(** Signing belongs to golang-jwt: by algorithm, key and key identifier, and with a
    shared secret. [None] is an error. *)
Class Jwt := {
  private_key : Type;
  sign_asymmetric : string → private_key → string → MapClaims → option string;
  sign_hs256 : string → MapClaims → option string;
}.

(** Of the signer only the fields [Sign] reads; the whole is [Signer.Signer]. *)
Record JWTSigner `{Jwt} := mkJWTSigner {
  js_method : string;
  js_private : private_key;
  js_kid : string;
}.
Arguments mkJWTSigner {_}. Arguments js_method {_}. Arguments js_private {_}. Arguments js_kid {_}.

Definition Sign `{Jwt} (s : JWTSigner) (claims : MapClaims) : option string :=
  sign_asymmetric (js_method s) (js_private s) (js_kid s) claims.

Record AccessResponse := mkAccessResponse {
  at_AccessToken : string;
  at_RefreshToken : string;
  at_ExpiresAt : time;
  at_Verification : list VerificationEcho;
}.
