(* ===== verification/IdentStore.v ===== *)
(** * IdentStore: the tables and the Postgres store of the identity domain
    ([backend/identity/store.go], [backend/migrations/identity])

    Accounts, role grants, refresh sessions, verification tokens and the audit
    log. Accounts, sessions and tokens are updated in place and never deleted;
    grants and audit rows are only appended. *)

From S2P Require Import Prelude Text Platform Sql IdentModels.

Open Scope Z_scope.

(** A NULL phone is [None]. *)
Record user_row := mkUserRow {
  ur_id : uuid;
  ur_email : string;
  ur_phone : option string;
  ur_password_hash : string;
  ur_full_name : string;
  ur_status : string;
  ur_email_verified_at : option time;
  ur_phone_verified_at : option time;
  ur_created_at : time;
  ur_updated_at : time;
}.

(** The identifier is the bigserial of the row. *)
Record role_row := mkRoleRow {
  rr_id : Z;
  rr_user_id : uuid;
  rr_role : string;
  rr_tenant_id : option uuid;
  rr_created_at : time;
}.

Record ident_db := mkIdentDB {
  users : gmap uuid user_row;
  user_roles : list role_row;
  sessions : gmap uuid Session;
  verification_tokens : gmap uuid VerificationToken;
  audit_log : list AuditRecord;
}.

Definition empty_ident_db : ident_db := mkIdentDB ∅ [] ∅ ∅ [].

Definition with_users f (d : ident_db) : ident_db :=
  mkIdentDB (f (users d)) (user_roles d) (sessions d) (verification_tokens d) (audit_log d).
Definition with_role r (d : ident_db) : ident_db :=
  mkIdentDB (users d) (user_roles d ++ [r]) (sessions d) (verification_tokens d) (audit_log d).
Definition with_sessions f (d : ident_db) : ident_db :=
  mkIdentDB (users d) (user_roles d) (f (sessions d)) (verification_tokens d) (audit_log d).
Definition with_tokens f (d : ident_db) : ident_db :=
  mkIdentDB (users d) (user_roles d) (sessions d) (f (verification_tokens d)) (audit_log d).
Definition with_audit r (d : ident_db) : ident_db :=
  mkIdentDB (users d) (user_roles d) (sessions d) (verification_tokens d) (audit_log d ++ [r]).

(** What [errors.Is] and [errors.As] tell about an error: an application error, one
    of the two sentinels, or another. *)
Inductive IdentError :=
  | App (e : Error)
  | ErrUserNotFound
  | ErrVerificationTokenConsumed
  | ErrOther.

Definition isNotFound (e : IdentError) : bool :=
  match e with ErrUserNotFound => true | _ => false end.

Abbreviation db := (M ident_db IdentError) (only parsing).

(** A row of a table keyed by its identifier, by another column. *)
Definition find_row {R} (p : R → bool) (rows : gmap uuid R) : option R :=
  List.find p (map_to_list rows).*2.

Section Store.
Context `{CaseMapping}.

(** ** Constraints *)

Definition user_status_known (status : string) : bool :=
  String.eqb status StatusActive || String.eqb status StatusSuspended ||
  String.eqb status StatusDeleted.

Definition email_taken (email : string) (d : ident_db) : bool :=
  bool_decide (is_Some (find_row (λ u, String.eqb (sql_lower (ur_email u)) (sql_lower email))
                          (users d))).
Definition phone_taken (phone : option string) (d : ident_db) : bool :=
  match phone with
  | Some p => bool_decide (is_Some (find_row (λ u, bool_decide (ur_phone u = Some p)) (users d)))
  | None => false
  end.

(** [mapUserConflict] of the violated constraint. *)
Definition mapUserConflict (constraint : string) : IdentError :=
  App (if String.eqb constraint "users_email_key"
       then ErrConflict "email address is already registered"
       else if String.eqb constraint "users_phone_key"
       then ErrConflict "phone number is already registered"
       else ErrConflict "user already exists").

Definition insert_user (u : user_row) : db unit :=
  d ← get;
  ensure (user_status_known (ur_status u)) ErrOther;;
  ensure (bool_decide (users d !! ur_id u = None)) (mapUserConflict "users_pkey");;
  ensure (negb (email_taken (ur_email u) d)) (mapUserConflict "users_email_key");;
  ensure (negb (phone_taken (ur_phone u) d)) (mapUserConflict "users_phone_key");;
  modify (with_users (insert (ur_id u) u)).

Definition has_user (d : ident_db) (id : uuid) : bool := negb (bool_decide (users d !! id = None)).

(** The same grant; both unique constraints together. *)
Definition role_taken (userID : uuid) (role : string) (tenant : option uuid) (d : ident_db) : bool :=
  existsb (λ r, bool_decide (rr_user_id r = userID) && String.eqb (rr_role r) role &&
                bool_decide (rr_tenant_id r = tenant)) (user_roles d).

Definition insert_role (now : time) (userID : uuid) (role : string) (tenant : option uuid)
    (conflict : IdentError) : db unit :=
  d ← get;
  ensure (bool_decide (is_Some (priority role))) ErrOther;;
  ensure (negb (role_taken userID role tenant d)) conflict;;
  ensure (has_user d userID) ErrOther;;
  modify (with_role (mkRoleRow (Z.of_nat (length (user_roles d)) + 1) userID role tenant now)).

(** ** Accounts *)

Definition scanUser (row : user_row) : User :=
  mkUser (ur_id row) (ur_email row) (default "" (ur_phone row)) (ur_full_name row)
    (ur_password_hash row) (ur_status row) [] (ur_email_verified_at row)
    (ur_phone_verified_at row) (ur_created_at row) (ur_updated_at row).

Definition with_roles (roles : list string) (u : User) : User :=
  mkUser (u_ID u) (u_Email u) (u_Phone u) (u_FullName u) (u_PasswordHash u) (u_Status u) roles
    (u_EmailVerifiedAt u) (u_PhoneVerifiedAt u) (u_CreatedAt u) (u_UpdatedAt u).

Fixpoint insert_roles (now : time) (userID : uuid) (roles : list string) : db unit :=
  match roles with
  | [] => mret tt
  | role :: roles =>
      insert_role now userID role None (mapUserConflict "user_roles");;
      insert_roles now userID roles
  end.

(** The struct after the call. *)
Definition CreateUser (now : time) (u : User) : db User :=
  let email := ToLower (TrimSpace (u_Email u)) in
  let phone := TrimSpace (u_Phone u) in
  let roles := match u_Roles u with [] => [RoleCustomer] | roles => roles end in
  transact (
    insert_user (mkUserRow (u_ID u) email (nullif_empty phone) (u_PasswordHash u) (u_FullName u)
                   (u_Status u) None None now now);;
    insert_roles now (u_ID u) roles);;
  mret (mkUser (u_ID u) email phone (u_FullName u) (u_PasswordHash u) (u_Status u) roles
          (u_EmailVerifiedAt u) (u_PhoneVerifiedAt u) now now).

(** [quote] is the [%q] of the role. *)
Definition AssignRole (quote : string → string) (now : time) (userID : uuid) (role : string)
    (tenantID : option uuid) : db unit :=
  ensure (bool_decide (is_Some (priority role)))
    (App (ErrValidation ("unknown role " +:+ quote role) [mkFieldError "role" "invalid"]));;
  insert_role now userID role tenantID (App (ErrConflict "role already assigned")).

(** ORDER BY created_at, id. *)
Definition grant_order (a b : role_row) : Prop :=
  rr_created_at a < rr_created_at b ∨ rr_created_at a = rr_created_at b ∧ rr_id a <= rr_id b.
#[global] Instance grant_order_dec a b : Decision (grant_order a b).
Proof. unfold grant_order. apply _. Defined.

Definition grants_of (userID : uuid) (d : ident_db) : list RoleGrant :=
  map (λ r, mkRoleGrant (rr_role r) (rr_tenant_id r))
    (merge_sort grant_order
       (List.filter (λ r, bool_decide (rr_user_id r = userID)) (user_roles d))).

Definition GetRoleGrants (userID : uuid) : db (list RoleGrant) := gets (grants_of userID).

(** The grants of a row, as the caller loads them. *)
Definition load_user (row : user_row) : db User :=
  grants ← GetRoleGrants (ur_id row);
  mret (with_roles (rolesFromGrants grants) (scanUser row)).

Definition GetUser (id : uuid) : db User :=
  d ← get;
  row ← from_option (users d !! id) ErrUserNotFound;
  load_user row.

Definition GetUserByEmail (email : string) : db User :=
  d ← get;
  row ← from_option (find_row (λ u, String.eqb (ur_email u) (sql_lower (TrimSpace email))) (users d))
          ErrUserNotFound;
  load_user row.

(** ORDER BY created_at DESC, id. *)
Definition users_order (a b : user_row) : Prop :=
  ur_created_at b < ur_created_at a ∨ ur_created_at a = ur_created_at b ∧ (ur_id a <= ur_id b)%N.
#[global] Instance users_order_dec a b : Decision (users_order a b).
Proof. unfold users_order. apply _. Defined.

(** [batchRoleGrants]: one query for the users of the page. *)
Definition batchRoleGrants (ids : list uuid) : db (gmap uuid (list RoleGrant)) :=
  gets (λ d, list_to_map (map (λ id, (id, grants_of id d)) ids)).

Definition ListUsers (limit offset : Z) : db (list User) :=
  d ← get;
  let rows := page limit offset (merge_sort users_order (map_to_list (users d)).*2) in
  match rows with
  | [] => mret []
  | _ =>
      grantsByUser ← batchRoleGrants (map ur_id rows);
      mret (map (λ row, with_roles (rolesFromGrants (default [] (grantsByUser !! ur_id row)))
                          (scanUser row)) rows)
  end.

Definition UpdatePassword (now : time) (userID : uuid) (passwordHash : string) : db unit :=
  d ← get;
  u ← from_option (users d !! userID) ErrUserNotFound;
  modify (with_users (insert userID
    (mkUserRow (ur_id u) (ur_email u) (ur_phone u) passwordHash (ur_full_name u) (ur_status u)
       (ur_email_verified_at u) (ur_phone_verified_at u) (ur_created_at u) now))).

(** ** Sessions *)

Definition CreateSession (now : time) (s : Session) : db unit :=
  d ← get;
  ensure (bool_decide (sessions d !! se_ID s = None) &&
          bool_decide (find_row (λ o, String.eqb (se_RefreshTokenHash o) (se_RefreshTokenHash s))
                         (sessions d) = None))
    (App (ErrConflict "session already exists"));;
  ensure (has_user d (se_UserID s)) ErrOther;;
  modify (with_sessions (insert (se_ID s)
    (mkSession (se_ID s) (se_UserID s) (se_RefreshTokenHash s) (se_DeviceName s) (se_IPAddress s)
       now (timestamptz (se_ExpiresAt s)) (timestamptz (se_AbsoluteExpiresAt s)) None))).

Definition GetSessionByRefreshHash (hash : string) : db Session :=
  d ← get;
  from_option (find_row (λ s, String.eqb (se_RefreshTokenHash s) hash) (sessions d))
    ErrUserNotFound.

Definition GetSessionByID (id : uuid) : db Session :=
  d ← get;
  from_option (sessions d !! id) ErrUserNotFound.

(** ORDER BY created_at DESC, id. *)
Definition sessions_order (a b : Session) : Prop :=
  se_CreatedAt b < se_CreatedAt a ∨ se_CreatedAt a = se_CreatedAt b ∧ (se_ID a <= se_ID b)%N.
#[global] Instance sessions_order_dec a b : Decision (sessions_order a b).
Proof. unfold sessions_order. apply _. Defined.

Definition ListUserSessions (userID : uuid) : db (list Session) :=
  gets (λ d, merge_sort sessions_order
               (List.filter (λ s, bool_decide (se_UserID s = userID)) (map_to_list (sessions d)).*2)).

Definition revoked (now : time) (s : Session) : Session :=
  mkSession (se_ID s) (se_UserID s) (se_RefreshTokenHash s) (se_DeviceName s) (se_IPAddress s)
    (se_CreatedAt s) (se_ExpiresAt s) (se_AbsoluteExpiresAt s) (Some now).

(** The update has no condition on [revoked_at]. *)
Definition RevokeSession (now : time) (id : uuid) : db unit :=
  d ← get;
  s ← from_option (sessions d !! id) ErrUserNotFound;
  modify (with_sessions (insert id (revoked now s))).

(** A live session of the user. *)
Definition live_of (userID : uuid) (s : Session) : bool :=
  bool_decide (se_UserID s = userID) && bool_decide (se_RevokedAt s = None).

(** The number of rows revoked. *)
Definition RevokeUserSessions (now : time) (userID : uuid) : db nat :=
  d ← get;
  modify (with_sessions (fmap (λ s, if live_of userID s then revoked now s else s)));;
  mret (length (List.filter (live_of userID) (map_to_list (sessions d)).*2)).

(** ** Audit *)

Definition InsertAudit (now : time) (entry : AuditEntry) : db unit :=
  d ← get;
  modify (with_audit (mkAuditRecord (Z.of_nat (length (audit_log d)) + 1) (ae_ActorID entry)
    (ae_Action entry) (ae_ObjectType entry) (ae_ObjectID entry) (ae_TenantID entry)
    (default ∅ (ae_Metadata entry)) now)).

Definition clamp (f : AuditFilter) : AuditFilter :=
  mkAuditFilter (af_ActorID f) (af_Action f) (af_ObjectType f) (af_ObjectID f) (af_TenantID f)
    (af_Since f) (af_Until f) (clamp_limit defaultAuditListLimit maxAuditListLimit (af_Limit f))
    (clamp_offset (af_Offset f)).

(** A constraint that is present. *)
Definition if_set {A} (o : option A) (p : A → bool) : bool :=
  match o with Some a => p a | None => true end.
Definition if_text (s : string) (column : string) : bool := String.eqb s "" || String.eqb column s.

Definition audit_matches (f : AuditFilter) (r : AuditRecord) : bool :=
  if_set (af_ActorID f) (λ a, bool_decide (ar_ActorID r = Some a)) &&
  if_text (af_Action f) (ar_Action r) &&
  if_text (af_ObjectType f) (ar_ObjectType r) &&
  if_text (af_ObjectID f) (ar_ObjectID r) &&
  if_set (af_TenantID f) (λ t, bool_decide (ar_TenantID r = Some t)) &&
  if_set (af_Since f) (λ t, timestamptz t <=? ar_CreatedAt r) &&
  if_set (af_Until f) (λ t, ar_CreatedAt r <? timestamptz t).

(** ORDER BY created_at DESC, id DESC. *)
Definition audit_order (a b : AuditRecord) : Prop :=
  ar_CreatedAt b < ar_CreatedAt a ∨ ar_CreatedAt a = ar_CreatedAt b ∧ ar_ID b <= ar_ID a.
#[global] Instance audit_order_dec a b : Decision (audit_order a b).
Proof. unfold audit_order. apply _. Defined.

Definition ListAudit (filter : AuditFilter) : db (list AuditRecord) :=
  let f := clamp filter in
  gets (λ d, page (af_Limit f) (af_Offset f)
               (merge_sort audit_order (List.filter (audit_matches f) (audit_log d)))).

(** ** Verification tokens *)

Definition CreateVerificationToken (now : time) (t : VerificationToken) : db unit :=
  d ← get;
  ensure (IsValidVerificationChannel (vt_Channel t)) ErrOther;;
  ensure (bool_decide (verification_tokens d !! vt_ID t = None) &&
          bool_decide (find_row (λ o, String.eqb (vt_TokenHash o) (vt_TokenHash t))
                         (verification_tokens d) = None))
    (App (ErrConflict "verification token already exists"));;
  ensure (has_user d (vt_UserID t)) ErrOther;;
  modify (with_tokens (insert (vt_ID t)
    (mkVerificationToken (vt_ID t) (vt_UserID t) (vt_Channel t) (vt_TokenHash t)
       (timestamptz (vt_ExpiresAt t)) None now))).

Definition GetVerificationTokenByHash (hash : string) : db VerificationToken :=
  d ← get;
  from_option (find_row (λ t, String.eqb (vt_TokenHash t) hash) (verification_tokens d))
    ErrUserNotFound.

Definition consumed (at_ : time) (t : VerificationToken) : VerificationToken :=
  mkVerificationToken (vt_ID t) (vt_UserID t) (vt_Channel t) (vt_TokenHash t) (vt_ExpiresAt t)
    (Some (timestamptz at_)) (vt_CreatedAt t).

(** [UPDATE users SET <channel>_verified_at = $2 ... AND <channel>_verified_at IS NULL] *)
Definition mark_verified (channel : string) (at_ : time) (u : user_row) : user_row :=
  let stamp := Some (timestamptz at_) in
  if String.eqb channel ChannelEmail then
    if bool_decide (ur_email_verified_at u = None) then
      mkUserRow (ur_id u) (ur_email u) (ur_phone u) (ur_password_hash u) (ur_full_name u)
        (ur_status u) stamp (ur_phone_verified_at u) (ur_created_at u) (timestamptz at_)
    else u
  else
    if bool_decide (ur_phone_verified_at u = None) then
      mkUserRow (ur_id u) (ur_email u) (ur_phone u) (ur_password_hash u) (ur_full_name u)
        (ur_status u) (ur_email_verified_at u) stamp (ur_created_at u) (timestamptz at_)
    else u.

Definition ConsumeVerificationToken (tokenID userID : uuid) (channel : string) (at_ : time)
    : db unit :=
  transact (
    d ← get;
    t ← from_option (verification_tokens d !! tokenID) ErrVerificationTokenConsumed;
    ensure (bool_decide (vt_ConsumedAt t = None)) ErrVerificationTokenConsumed;;
    modify (with_tokens (insert tokenID (consumed at_ t)));;
    ensure (IsValidVerificationChannel channel) ErrOther;;
    modify (with_users (alter (mark_verified channel at_) userID))).

(** The tokens of a user for a channel. *)
Definition tokens_of (userID : uuid) (channel : string) (d : ident_db) : list VerificationToken :=
  List.filter (λ t, bool_decide (vt_UserID t = userID) && String.eqb (vt_Channel t) channel)
    (map_to_list (verification_tokens d)).*2.

(** [max(created_at)], NULL when there is none. *)
Definition latest (l : list VerificationToken) : option time :=
  match vt_CreatedAt <$> l with
  | [] => None
  | t :: ts => Some (foldr Z.max t ts)
  end.

Definition VerificationTokenStats (userID : uuid) (channel : string) (since : time)
    : db (nat * time) :=
  gets (λ d, let l := tokens_of userID channel d in
             (length (List.filter (λ t, timestamptz since <=? vt_CreatedAt t) l),
              default zero_time (latest l))).

End Store.

#[global] Arguments CreateUser : simpl never.
#[global] Arguments AssignRole : simpl never.
#[global] Arguments GetUser : simpl never.
#[global] Arguments GetUserByEmail : simpl never.
#[global] Arguments ListUsers : simpl never.
#[global] Arguments UpdatePassword : simpl never.
#[global] Arguments CreateSession : simpl never.
#[global] Arguments GetSessionByRefreshHash : simpl never.
#[global] Arguments GetSessionByID : simpl never.
#[global] Arguments ListUserSessions : simpl never.
#[global] Arguments RevokeSession : simpl never.
#[global] Arguments RevokeUserSessions : simpl never.
#[global] Arguments InsertAudit : simpl never.
#[global] Arguments ListAudit : simpl never.
#[global] Arguments CreateVerificationToken : simpl never.
#[global] Arguments GetVerificationTokenByHash : simpl never.
#[global] Arguments ConsumeVerificationToken : simpl never.
#[global] Arguments VerificationTokenStats : simpl never.
