(* ===== verification/IdentService.v ===== *)
(** * IdentService: tokens, sessions, verification and accounts
    ([backend/identity/tokens.go], [service.go], [sessions.go], [verification.go],
    [audit.go], [events.go])

    The issuer and the service over the Postgres store. A call that fails keeps the
    writes made before it. *)

From Stdlib Require Import Ascii.
From S2P Require Import Prelude Text Sha256 Platform Sql Wire Base64 IdentPassword IdentModels.
From S2P Require Import IdentStore.

Open Scope Z_scope.

(** A call draws random bytes besides what [Ctx] gives: [ic_random k] fills the k-th
    buffer of [rand.Read], which does not fail in the Go version of the module. *)
Record IdentCtx := mkIdentCtx {
  ic_ctx : Ctx;
  ic_random : nat → list N;
}.
Definition ic_now (c : IdentCtx) : time := ctx_now (ic_ctx c).
Definition ic_fresh (c : IdentCtx) (k : nat) : uuid := ctx_fresh (ic_ctx c) k.

(** ** Events ([events.go]) *)

Definition IdentEventDomain : string := "identity".
Definition EventUserCreated : string := "user.created.v1".
Definition EventRoleGranted : string := "role.granted.v1".

Inductive IdentPayload :=
  | UserCreatedPayload (UserID : uuid) (Status : string) (Roles : list string)
  | RoleGrantedPayload (UserID : uuid) (Role : string) (TenantID : option uuid).

Record ident_world := mkIdentWorld {
  iw_db : ident_db;
  iw_events : list (string * Event IdentPayload);
}.

Abbreviation svc := (M ident_world IdentError) (only parsing).

Definition on_db {A} (c : M ident_db IdentError A) : svc A :=
  zoom iw_db (λ d w, mkIdentWorld d (iw_events w)) c.

(** [if isNotFound(err) { return other }] *)
Definition not_found_as {A} (other : IdentError) (c : svc A) : svc A :=
  wrap (λ e, if isNotFound e then other else e) c.

(** ** The issuer ([tokens.go]) *)

Record Issuer `{Jwt} := mkIssuer {
  is_secret : string;
  is_signer : option JWTSigner;
  is_issuer : string;
  is_audience : string;
  is_accessTTL : Z;
  is_refreshTTL : Z;
  is_absoluteTTL : Z;
  is_verificationGrace : Z;
}.
Arguments mkIssuer {_}. Arguments is_secret {_}. Arguments is_signer {_}. Arguments is_issuer {_}.
Arguments is_audience {_}. Arguments is_accessTTL {_}. Arguments is_refreshTTL {_}.
Arguments is_absoluteTTL {_}. Arguments is_verificationGrace {_}.

Inductive IssuerOption `{Jwt} :=
  | WithVerificationGrace (grace : Z)
  | WithSigner (signer : option JWTSigner).

Definition apply_issuer_option `{Jwt} (i : Issuer) (o : IssuerOption) : Issuer :=
  match o with
  | WithVerificationGrace grace =>
      mkIssuer (is_secret i) (is_signer i) (is_issuer i) (is_audience i) (is_accessTTL i)
        (is_refreshTTL i) (is_absoluteTTL i) (if 0 <? grace then grace else 0)
  | WithSigner signer =>
      mkIssuer (is_secret i) signer (is_issuer i) (is_audience i) (is_accessTTL i)
        (is_refreshTTL i) (is_absoluteTTL i) (is_verificationGrace i)
  end.

Definition NewIssuer `{Jwt} (secret issuer audience : string) (opts : list IssuerOption) : Issuer :=
  fold_left apply_issuer_option opts
    (mkIssuer secret None issuer audience DefaultAccessTTL DefaultRefreshTTL
       DefaultAbsoluteSessionTTL DefaultVerificationGrace).

Definition verificationRefused (now : time) (u : User) (grace : Z) : bool :=
  if grace <=? 0 then false
  else if verificationSatisfied u then false
  else u_CreatedAt u + grace <=? now.

Definition newOpaqueToken (random : list N) : string := EncodeToString RawURLEncoding random.

Section Issuing.
Context `{CaseMapping} `{Jwt} `{UuidText}.

Definition TokenHash (i : Issuer) (token : string) : string :=
  hex_encode (hmac_sha256 (to_bytes (is_secret i)) (to_bytes token)).

Definition RefreshTokenHash (i : Issuer) (token : string) : string := TokenHash i token.

Definition sign (i : Issuer) (claims : MapClaims) : option string :=
  match is_signer i with
  | Some signer => Sign signer claims
  | None => sign_hs256 (is_secret i) claims
  end.

(** The loop of [claimContext]. *)
Fixpoint best_tenant (best : Z) (tenant : string) (grants : list RoleGrant) : string :=
  match grants with
  | [] => tenant
  | g :: grants =>
      match rg_TenantID g, priority (rg_Role g) with
      | Some t, Some p =>
          if best <? p then best_tenant p (uuid_string t) grants
          else best_tenant best tenant grants
      | _, _ => best_tenant best tenant grants
      end
  end.

(** The store has the grants: the roles are theirs. *)
Definition claimContext (u : User) : svc (string * list string) :=
  grants ← on_db (GetRoleGrants (u_ID u));
  mret (best_tenant (-1) "" grants, rolesFromGrants grants).

(** [AccessClaims] of the platform. *)
Definition AccessClaims (i : Issuer) (userID tenantID : string) (roles : list string)
    (sessionID : string) (issued expires : time) : MapClaims :=
  mkMapClaims (is_issuer i) (is_audience i) userID sessionID tenantID (HighestRole roles) roles
    (unix issued) (unix expires).

Definition grace_ended : IdentError :=
  App (ErrForbidden "account verification is required; the post-registration grace window has ended").

(** The session of [issue]. *)
Definition new_session (i : Issuer) (now : time) (fresh : uuid) (refreshToken : string) (u : User)
    (deviceName ip : string) (absolute : time) : Session :=
  mkSession fresh (u_ID u) (RefreshTokenHash i refreshToken) deviceName ip zero_time
    (now + is_refreshTTL i)
    (if is_zero absolute then now + is_absoluteTTL i else absolute) None.

Definition issue (i : Issuer) (now : time) (fresh : uuid) (random : list N) (u : User)
    (deviceName ip : string) (absolute : time) : svc AccessResponse :=
  ensure (negb (verificationRefused now u (is_verificationGrace i))) grace_ended;;
  '(tenantID, roles) ← claimContext u;
  let refreshToken := newOpaqueToken random in
  on_db (CreateSession now (new_session i now fresh refreshToken u deviceName ip absolute));;
  let expiresAt := now + is_accessTTL i in
  let claims := AccessClaims i (uuid_string (u_ID u)) tenantID roles (uuid_string fresh) now expiresAt in
  signed ← from_option (sign i claims) ErrOther;
  mret (mkAccessResponse signed refreshToken expiresAt []).

Definition Issue (i : Issuer) (now : time) (fresh : uuid) (random : list N) (u : User)
    (deviceName ip : string) : svc AccessResponse :=
  issue i now fresh random u deviceName ip zero_time.

Definition invalid_refresh : IdentError := App (ErrUnauthorized "refresh token is invalid").

(** The checks of [Refresh]: the session and its user. *)
Definition refresh_checks (i : Issuer) (now : time) (refreshToken : string) : svc (Session * User) :=
  ensure (negb (String.eqb refreshToken "")) invalid_refresh;;
  sess ← not_found_as invalid_refresh
           (on_db (GetSessionByRefreshHash (RefreshTokenHash i refreshToken)));
  ensure (bool_decide (se_RevokedAt sess = None)) invalid_refresh;;
  ensure (now <? se_ExpiresAt sess) invalid_refresh;;
  ensure (now <? se_AbsoluteExpiresAt sess) invalid_refresh;;
  u ← not_found_as invalid_refresh (on_db (GetUser (se_UserID sess)));
  ensure (String.eqb (u_Status u) StatusActive) (App (ErrForbidden "account is not active"));;
  ensure (negb (verificationRefused now u (is_verificationGrace i))) grace_ended;;
  mret (sess, u).

(** Its writes. *)
Definition refresh_rotate (i : Issuer) (now : time) (fresh : uuid) (random : list N)
    (sess : Session) (u : User) : svc (AccessResponse * Session) :=
  on_db (RevokeSession now (se_ID sess));;
  resp ← issue i now fresh random u (se_DeviceName sess) (se_IPAddress sess)
           (se_AbsoluteExpiresAt sess);
  mret (resp, sess).

Definition Refresh (i : Issuer) (now : time) (fresh : uuid) (random : list N) (refreshToken : string)
    : svc (AccessResponse * Session) :=
  '(sess, u) ← refresh_checks i now refreshToken;
  refresh_rotate i now fresh random sess u.

Definition Revoke (now : time) (sessionID : uuid) : svc unit := on_db (RevokeSession now sessionID).

End Issuing.

(** ** The service ([service.go]) *)

(** [PasswordBreached] answers or fails with a text; it is a call of another
    service. *)
Record Service `{Jwt} := mkService {
  sv_issuer : Issuer;
  sv_publisher : option (Event IdentPayload → bool);
  sv_breacher : option (string → string + bool);
  sv_breachFailClosed : bool;
  sv_verification : VerificationConfig;
  sv_trustForwarded : bool;
}.
Arguments mkService {_}. Arguments sv_issuer {_}. Arguments sv_publisher {_}.
Arguments sv_breacher {_}. Arguments sv_breachFailClosed {_}. Arguments sv_verification {_}.
Arguments sv_trustForwarded {_}.

Inductive ServiceOption :=
  | WithTrustForwarded (trust : bool)
  | WithPasswordBreacher (breacher : option (string → string + bool)) (failClosed : bool)
  | WithVerification (cfg : VerificationConfig).

Definition apply_service_option `{Jwt} (s : Service) (o : ServiceOption) : Service :=
  match o with
  | WithTrustForwarded trust =>
      mkService (sv_issuer s) (sv_publisher s) (sv_breacher s) (sv_breachFailClosed s)
        (sv_verification s) trust
  | WithPasswordBreacher breacher failClosed =>
      mkService (sv_issuer s) (sv_publisher s) breacher failClosed (sv_verification s)
        (sv_trustForwarded s)
  | WithVerification cfg =>
      mkService (sv_issuer s) (sv_publisher s) (sv_breacher s) (sv_breachFailClosed s) cfg
        (sv_trustForwarded s)
  end.

Definition NewService `{Jwt} (issuer : Issuer) (publisher : option (Event IdentPayload → bool))
    (opts : list ServiceOption) : Service :=
  fold_left apply_service_option opts
    (mkService issuer publisher None false DefaultVerificationConfig false).

(** [emailPattern]: a local part, an @, and a domain that ends in a dot and at least
    two letters; the last dot is the one before the letters. *)
Definition emailPattern (s : string) : bool :=
  let l := chars s in
  let n := run email_local l in
  match drop n l with
  | [] => false
  | at_sign :: domain =>
      let r := rev domain in
      let k := run is_letter r in
      is_char 64 at_sign && (0 <? n)%nat && (2 <=? k)%nat &&
      match drop k r with
      | [] => false
      | dot :: d => is_char 46 dot && negb (bool_decide (d = [])) && forallb email_domain d
      end
  end.

Definition maxEmailLength : nat := 254.
Definition defaultListUsersLimit : Z := 20.
Definition maxListUsersLimit : Z := 100.

Definition invalidLogin : IdentError := App (ErrUnauthorized "invalid email or password").

Definition nil_as_none (actorID : uuid) : option uuid :=
  if bool_decide (actorID = uuid_nil) then None else Some actorID.

Definition RecordAudit (now : time) (entry : AuditEntry) : svc unit :=
  ensure (negb (String.eqb (ae_Action entry) ""))
    (App (ErrValidation "audit action is required" [mkFieldError "action" "required"]));;
  ensure (negb (String.eqb (ae_ObjectType entry) "" || String.eqb (ae_ObjectID entry) ""))
    (App (ErrValidation "audit object type and id are required"
            [mkFieldError "object_type" "required"; mkFieldError "object_id" "required"]));;
  on_db (InsertAudit now entry).

Definition audit (now : time) (actorID : uuid) (action objectType objectID : string)
    (metadata : option (gmap string meta)) : svc unit :=
  RecordAudit now
    (mkAuditEntry (nil_as_none actorID) action objectType objectID None metadata).

Section Service.
Context `{CaseMapping} `{Jwt} `{UuidText} `{Argon2}.
Context (s : Service).

Definition publish (c : IdentCtx) (fresh : uuid) (eventType aggregateID tenantID actorID : string)
    (payload : IdentPayload) : svc unit :=
  match sv_publisher s with
  | None => mret tt
  | Some broker =>
      e ← from_option (NewEvent (ic_now c) fresh eventType aggregateID tenantID actorID
                         (ctx_request_id (ic_ctx c)) payload) ErrOther;
      ensure (broker e) ErrOther;;
      modify (λ w, mkIdentWorld (iw_db w) (iw_events w ++ [(IdentEventDomain, e)]))
  end.

(** The note is empty when nothing is to be recorded. *)
Definition checkPasswordBreach (password : string) : svc string :=
  match sv_breacher s with
  | None => mret ""
  | Some breached =>
      if (blen password <? MinPasswordLength)%nat || (MaxPasswordLength <? blen password)%nat
      then mret ""
      else match breached password with
      | inl err =>
          if sv_breachFailClosed s then
            throw (App (mkError 503 "breach_check_unavailable" "Password breach check unavailable"
              "the password could not be checked against breach lists; try again later" []))
          else mret ("fail-open: breach check unavailable: " +:+ err)
      | inr true =>
          throw (App (ErrValidation "password appears in a known breach or common-password corpus"
                        [mkFieldError "password" "breached"]))
      | inr false => mret ""
      end
  end.

Definition auditBreachNote (now : time) (userID : uuid) (note : string) : svc unit :=
  audit now userID ActionBreachCheckUnavailable "user" (uuid_string userID)
    (Some {["note" := MText note]}).

(** ** Verification ([verification.go]) *)

Definition errInvalidVerificationToken : IdentError :=
  App (ErrUnauthorized "verification token is invalid or expired").

Definition errResendLimited (detail : string) : IdentError :=
  App (mkError 429 "rate_limited" "Too many requests" detail []).

(** The raw token and its expiry. *)
Definition issueVerificationToken (now : time) (fresh : uuid) (random : list N) (u : User)
    (channel via : string) : svc (string * time) :=
  let raw := newOpaqueToken random in
  let expiresAt := now + vc_TokenTTL (sv_verification s) in
  on_db (CreateVerificationToken now
    (mkVerificationToken fresh (u_ID u) channel (TokenHash (sv_issuer s) raw) expiresAt None
       zero_time));;
  let action := if String.eqb via "resend" then ActionVerificationResent
                else ActionVerificationIssued in
  audit now (u_ID u) action "user" (uuid_string (u_ID u))
    (Some {["channel" := MText channel; "expires_at" := MText (RFC3339 expiresAt)]});;
  mret (raw, expiresAt).

(** The channel that was verified. *)
Definition Verify (c : IdentCtx) (rawToken : string) : svc string :=
  let rawToken := TrimSpace rawToken in
  ensure (negb (String.eqb rawToken ""))
    (App (ErrValidation "token is required" [mkFieldError "token" "required"]));;
  token ← not_found_as errInvalidVerificationToken
            (on_db (GetVerificationTokenByHash (TokenHash (sv_issuer s) rawToken)));
  let now := ic_now c in
  ensure (bool_decide (vt_ConsumedAt token = None) && (now <? vt_ExpiresAt token))
    errInvalidVerificationToken;;
  wrap (λ e, match e with ErrVerificationTokenConsumed => errInvalidVerificationToken | e => e end)
    (on_db (ConsumeVerificationToken (vt_ID token) (vt_UserID token) (vt_Channel token) now));;
  audit now (vt_UserID token) ActionVerificationVerified "user" (uuid_string (vt_UserID token))
    (Some {["channel" := MText (vt_Channel token)]});;
  mret (vt_Channel token).

(** The channel needs no token. *)
Definition nothing_to_verify (u : User) (channel : string) : bool :=
  String.eqb channel ChannelEmail && negb (bool_decide (u_EmailVerifiedAt u = None)) ||
  String.eqb channel ChannelPhone &&
    (String.eqb (u_Phone u) "" || negb (bool_decide (u_PhoneVerifiedAt u = None))).

(** The cooldown, then the limit of the window. *)
Definition resend_guard (now : time) (count : nat) (latest : time) : svc unit :=
  let cfg := sv_verification s in
  ensure (negb (negb (is_zero latest) && (0 <? vc_ResendCooldown cfg) &&
                (now - latest <? vc_ResendCooldown cfg)))
    (errResendLimited ("verification resend cooldown active for this channel; retry in " +:+
       seconds_text (round_seconds (vc_ResendCooldown cfg - (now - latest)))));;
  ensure (Z.of_nat count <? vc_ResendLimit cfg)
    (errResendLimited ("verification resend limit reached for this channel; at most " +:+
       pretty (vc_ResendLimit cfg) +:+ " tokens per 24h")).

Definition ResendVerification (c : IdentCtx) (email channel : string)
    : svc (string * option VerificationEcho) :=
  let email := ToLower (TrimSpace email) in
  ensure (negb (String.eqb email ""))
    (App (ErrValidation "email is required" [mkFieldError "email" "required"]));;
  let channel := if String.eqb channel "" then ChannelEmail else channel in
  ensure (IsValidVerificationChannel channel)
    (App (ErrValidation "channel must be email or phone" [mkFieldError "channel" "invalid"]));;
  found ← try (on_db (GetUserByEmail email));
  match found with
  | inl e => if isNotFound e then mret (channel, None) else throw e
  | inr u =>
      if nothing_to_verify u channel then mret (channel, None)
      else
        let now := ic_now c in
        '(count, latest) ← on_db (VerificationTokenStats (u_ID u) channel
                                    (now - verificationResendLimitWindow));
        resend_guard now count latest;;
        '(raw, expiresAt) ← issueVerificationToken now (ic_fresh c 0) (ic_random c 0) u channel
                              "resend";
        mret (channel, if vc_DevEcho (sv_verification s)
                       then Some (mkVerificationEcho channel raw expiresAt) else None)
  end.

(** ** Accounts and sessions *)

Definition device_meta (deviceName ip : string) : gmap string meta :=
  {["device_name" := MText (RedactFreeText deviceName); "ip_address" := MText ip]}.

(** The field errors of a registration. *)
Definition registration_errors (email fullName : string) : list FieldError :=
  (if negb (emailPattern email) || (maxEmailLength <? blen email)%nat
   then [mkFieldError "email" "invalid"] else []) ++
  (if String.eqb fullName "" then [mkFieldError "full_name" "required"] else []).

(** One token of the registration, echoed in development. *)
Definition issueChannel (c : IdentCtx) (k : nat) (u : User) (channel : string)
    : svc (list VerificationEcho) :=
  '(raw, expiresAt) ← issueVerificationToken (ic_now c) (ic_fresh c k) (ic_random c k) u channel
                        "registration";
  mret (if vc_DevEcho (sv_verification s) then [mkVerificationEcho channel raw expiresAt] else []).

Definition Register (c : IdentCtx) (email phone password fullName deviceName ip : string)
    : svc AccessResponse :=
  let now := ic_now c in
  let email := ToLower (TrimSpace email) in
  let phone := TrimSpace phone in
  let fullName := TrimSpace fullName in
  let fields := registration_errors email fullName in
  ensure (bool_decide (fields = []))
    (App (ErrValidation "the registration request is invalid" fields));;
  breachNote ← checkPasswordBreach password;
  hash ← from_sum (match HashPassword (ic_random c 0) password with
                   | inl e => inl (App e) | inr h => inr h end);
  u ← on_db (CreateUser now
    (mkUser (ic_fresh c 0) email phone fullName hash StatusActive [RoleCustomer] None None
       zero_time zero_time));
  (if String.eqb breachNote "" then mret tt else auditBreachNote now (u_ID u) breachNote);;
  resp ← Issue (sv_issuer s) now (ic_fresh c 1) (ic_random c 1) u deviceName ip;
  audit now (u_ID u) ActionUserRegistered "user" (uuid_string (u_ID u))
    (Some (<["email" := MText (u_Email u)]> (device_meta deviceName ip)));;
  echoes ← issueChannel c 2 u ChannelEmail;
  more ← (if String.eqb (u_Phone u) "" then mret [] else issueChannel c 3 u ChannelPhone);
  publish c (ic_fresh c 4) EventUserCreated (uuid_string (u_ID u)) "" (uuid_string (u_ID u))
    (UserCreatedPayload (u_ID u) (u_Status u) (u_Roles u));;
  mret (mkAccessResponse (at_AccessToken resp) (at_RefreshToken resp) (at_ExpiresAt resp)
          (echoes ++ more)).

(** [VerifyPassword] of a call: a malformed hash is an internal error. *)
Definition verify_password (password encoded : string) : svc bool :=
  from_sum (match VerifyPassword password encoded with inl _ => inl ErrOther | inr ok => inr ok end).

Definition Login (c : IdentCtx) (email password deviceName ip : string) : svc AccessResponse :=
  let now := ic_now c in
  u ← not_found_as invalidLogin (on_db (GetUserByEmail (TrimSpace email)));
  ok ← verify_password password (u_PasswordHash u);
  ensure ok invalidLogin;;
  ensure (String.eqb (u_Status u) StatusActive) (App (ErrForbidden "account is not active"));;
  resp ← Issue (sv_issuer s) now (ic_fresh c 0) (ic_random c 0) u deviceName ip;
  audit now (u_ID u) ActionUserLogin "user" (uuid_string (u_ID u))
    (Some (device_meta deviceName ip));;
  mret resp.

Definition ChangePassword (c : IdentCtx) (userID : uuid) (currentPassword newPassword : string)
    : svc unit :=
  let now := ic_now c in
  u ← not_found_as (App (ErrNotFound "user not found")) (on_db (GetUser userID));
  ok ← verify_password currentPassword (u_PasswordHash u);
  ensure ok (App (ErrUnauthorized "current password is incorrect"));;
  breachNote ← checkPasswordBreach newPassword;
  (if String.eqb breachNote "" then mret tt else auditBreachNote now (u_ID u) breachNote);;
  hash ← from_sum (match HashPassword (ic_random c 0) newPassword with
                   | inl e => inl (App e) | inr h => inr h end);
  on_db (UpdatePassword now (u_ID u) hash);;
  count ← on_db (RevokeUserSessions now (u_ID u));
  audit now (u_ID u) ActionPasswordChanged "user" (uuid_string (u_ID u))
    (Some {["sessions_revoked" := MInt (Z.of_nat count)]}).

Definition RefreshTokens (c : IdentCtx) (refreshToken : string) : svc AccessResponse :=
  let now := ic_now c in
  '(resp, previous) ← Refresh (sv_issuer s) now (ic_fresh c 0) (ic_random c 0) refreshToken;
  audit now (se_UserID previous) ActionSessionRefreshed "session" (uuid_string (se_ID previous))
    (Some (device_meta (se_DeviceName previous) (se_IPAddress previous)));;
  mret resp.

Definition Logout (c : IdentCtx) (sessionID actorID : uuid) : svc unit :=
  let now := ic_now c in
  not_found_as (App (ErrNotFound "session not found")) (Revoke now sessionID);;
  audit now actorID ActionSessionRevoked "session" (uuid_string sessionID) None.

Definition LogoutByRefreshToken (c : IdentCtx) (refreshToken : string) (actorID : uuid) : svc unit :=
  let now := ic_now c in
  ensure (negb (String.eqb (TrimSpace refreshToken) ""))
    (App (ErrValidation "refresh_token is required" [mkFieldError "refresh_token" "required"]));;
  sess ← not_found_as invalidLogin
           (on_db (GetSessionByRefreshHash (RefreshTokenHash (sv_issuer s) refreshToken)));
  ensure (bool_decide (se_RevokedAt sess = None)) invalidLogin;;
  on_db (RevokeSession now (se_ID sess));;
  audit now actorID ActionSessionRevoked "session" (uuid_string (se_ID sess))
    (Some {["via" := MText "refresh_token"]}).

Definition without_hash (u : User) : User :=
  mkUser (u_ID u) (u_Email u) (u_Phone u) (u_FullName u) "" (u_Status u) (u_Roles u)
    (u_EmailVerifiedAt u) (u_PhoneVerifiedAt u) (u_CreatedAt u) (u_UpdatedAt u).

Definition Profile (userID : uuid) : svc User :=
  u ← not_found_as (App (ErrNotFound "user not found")) (on_db (GetUser userID));
  mret (without_hash u).

Definition Ident_ListUsers (limit offset : Z) : svc (list User) :=
  us ← on_db (ListUsers (clamp_limit defaultListUsersLimit maxListUsersLimit limit)
                (clamp_offset offset));
  mret (map without_hash us).

Definition ListUsersForAdmin (c : IdentCtx) (actorID : uuid) (tenantID : option uuid)
    (limit offset : Z) : svc (list User) :=
  us ← Ident_ListUsers limit offset;
  RecordAudit (ic_now c)
    (mkAuditEntry (nil_as_none actorID) ActionUsersListed "user" "collection" tenantID
       (Some {["limit" := MInt (clamp_limit defaultListUsersLimit maxListUsersLimit limit);
               "offset" := MInt (clamp_offset offset);
               "returned" := MInt (Z.of_nat (length us))]}));;
  mret us.

Definition Ident_ListAudit (filter : AuditFilter) : svc (list AuditRecord) :=
  on_db (ListAudit (clamp filter)).

Definition Ident_AssignRole (quote : string → string) (c : IdentCtx) (userID : uuid) (role : string)
    (tenantID : option uuid) (actorID : uuid) : svc unit :=
  let now := ic_now c in
  on_db (AssignRole quote now userID role tenantID);;
  audit now actorID ActionRoleGranted "user" (uuid_string userID) (Some {["role" := MText role]});;
  publish c (ic_fresh c 0) EventRoleGranted (uuid_string userID)
    (match tenantID with Some t => uuid_string t | None => "" end)
    (match nil_as_none actorID with Some a => uuid_string a | None => "" end)
    (RoleGrantedPayload userID role tenantID).

(** ** The session API ([sessions.go]) *)

Definition without_token (x : Session) : Session :=
  mkSession (se_ID x) (se_UserID x) "" (se_DeviceName x) (se_IPAddress x) (se_CreatedAt x)
    (se_ExpiresAt x) (se_AbsoluteExpiresAt x) (se_RevokedAt x).

Definition ListSessions (userID : uuid) : svc (list Session) :=
  l ← on_db (ListUserSessions userID);
  mret (map without_token l).

Definition session_not_found : IdentError := App (ErrNotFound "session not found").

Definition Ident_RevokeSession (c : IdentCtx) (userID sessionID actorID : uuid) : svc unit :=
  let now := ic_now c in
  sess ← not_found_as session_not_found (on_db (GetSessionByID sessionID));
  ensure (bool_decide (se_UserID sess = userID)) session_not_found;;
  not_found_as session_not_found (on_db (RevokeSession now sessionID));;
  audit now actorID ActionSessionRevoked "session" (uuid_string sessionID)
    (Some {["via" := MText "sessions_api"; "owner_id" := MText (uuid_string userID);
            "device_name" := MText (RedactFreeText (se_DeviceName sess))]}).

Definition RevokeAllSessions (c : IdentCtx) (userID actorID : uuid) : svc nat :=
  let now := ic_now c in
  count ← on_db (RevokeUserSessions now userID);
  audit now actorID ActionSessionRevokedAll "user" (uuid_string userID)
    (Some {["revoked" := MInt (Z.of_nat count)]});;
  mret count.

End Service.

#[global] Arguments TokenHash : simpl never.
#[global] Arguments newOpaqueToken : simpl never.
#[global] Arguments audit : simpl never.
#[global] Arguments publish : simpl never.
#[global] Arguments issue : simpl never.
#[global] Arguments sign : simpl never.
#[global] Arguments checkPasswordBreach : simpl never.
#[global] Arguments issueVerificationToken : simpl never.
#[global] Arguments verificationRefused : simpl never.
