(* ===== verification/IdentInvariant.v ===== *)
(** * IdentInvariant: reachable identity databases

    What every call of the store does to the tables, the abstract steps the identity
    service takes and the invariant they keep. *)

From S2P Require Import Prelude Text Sha256 Platform Sql Wire IdentPassword IdentModels.
From S2P Require Import IdentStore IdentService.

Open Scope Z_scope.

#[local] Arguments find_row : simpl never.
#[local] Arguments email_taken : simpl never.
#[local] Arguments phone_taken : simpl never.
#[local] Arguments role_taken : simpl never.
#[local] Arguments has_user : simpl never.
#[local] Arguments priority : simpl never.
#[local] Arguments TrimSpace : simpl never.
#[local] Arguments IsValidVerificationChannel : simpl never.
#[local] Arguments user_status_known : simpl never.
#[local] Arguments timestamptz : simpl never.

(** ** Rows found by another column *)

Lemma find_row_Some {R} (p : R → bool) m x : find_row p m = Some x →
  p x = true ∧ ∃ id, m !! id = Some x.
Proof.
  unfold find_row. intros [I P]%List.find_some. split; [done|].
  by apply map_rows, list_elem_of_In.
Qed.

Lemma find_row_None {R} (p : R → bool) m id x : find_row p m = None → m !! id = Some x → p x = false.
Proof.
  unfold find_row. intros F L. eapply List.find_none in F; [exact F|].
  apply list_elem_of_In, map_rows. by exists id.
Qed.

Lemma find_row_None_ne {R} (key : R → string) k (m : gmap uuid R) id x :
  find_row (λ o, String.eqb (key o) k) m = None → m !! id = Some x → key x ≠ k.
Proof. intros F L E. apply (find_row_None _ _ _ _ F) in L. by rewrite E, String.eqb_refl in L. Qed.

(** Found, when no other row has the key. *)
Lemma find_row_unique {R} (p : R → bool) m id x : m !! id = Some x → p x = true →
  (∀ id' y, m !! id' = Some y → p y = true → y = x) → find_row p m = Some x.
Proof.
  intros L P U. destruct (find_row p m) as [y|] eqn:F.
  - apply find_row_Some in F as (Py & id' & L'). by rewrite (U id' y).
  - by rewrite (find_row_None _ _ _ _ F L) in P.
Qed.

Lemma has_user_spec d id : has_user d id = true ↔ is_Some (users d !! id).
Proof.
  unfold has_user. rewrite negb_true_iff, bool_decide_eq_false. apply not_eq_None_Some.
Qed.

Section Runs.
Context `{CaseMapping}.

(** ** What the calls of the store do *)

Definition new_user_row (now : time) (u : User) : user_row :=
  mkUserRow (u_ID u) (ToLower (TrimSpace (u_Email u))) (nullif_empty (TrimSpace (u_Phone u)))
    (u_PasswordHash u) (u_FullName u) (u_Status u) None None now now.

(** The struct of an inserted row. *)
Definition created_user (now : time) (u : User) : User :=
  with_roles [RoleCustomer]
    (mkUser (u_ID u) (ToLower (TrimSpace (u_Email u))) (TrimSpace (u_Phone u)) (u_FullName u)
       (u_PasswordHash u) (u_Status u) [] (u_EmailVerifiedAt u) (u_PhoneVerifiedAt u) now now).

Definition next_role (now : time) (userID : uuid) (role : string) (tenant : option uuid)
    (d : ident_db) : role_row :=
  mkRoleRow (Z.of_nat (length (user_roles d)) + 1) userID role tenant now.

Lemma CreateUser_run now u d r d' : u_Roles u = [RoleCustomer] → CreateUser now u d = (r, d') →
  (∃ e, r = inl e) ∧ d' = d ∨
  r = inr (created_user now u) ∧ users d !! u_ID u = None ∧
  user_status_known (u_Status u) = true ∧
  email_taken (ToLower (TrimSpace (u_Email u))) d = false ∧
  phone_taken (nullif_empty (TrimSpace (u_Phone u))) d = false ∧
  role_taken (u_ID u) RoleCustomer None d = false ∧
  d' = with_role (next_role now (u_ID u) RoleCustomer None d)
         (with_users (insert (u_ID u) (new_user_row now u)) d).
Proof.
  intros Ro R. unfold CreateUser in R. rewrite Ro in R. unfold_run R.
  unfold insert_user, insert_role in R. unfold_run R. case_run R; eauto; right; props.
  by split_and!.
Qed.

Lemma insert_role_run now userID role tenant conflict d r d' :
  insert_role now userID role tenant conflict d = (r, d') →
  (∃ e, r = inl e) ∧ d' = d ∨
  r = inr tt ∧ is_Some (priority role) ∧ role_taken userID role tenant d = false ∧
  is_Some (users d !! userID) ∧ d' = with_role (next_role now userID role tenant d) d.
Proof.
  unfold insert_role. intros R. unfold_run R. case_run R; eauto. right. props.
  split_and!; try done. by apply has_user_spec.
Qed.

Lemma AssignRole_run quote now userID role tenant d r d' :
  AssignRole quote now userID role tenant d = (r, d') →
  (∃ e, r = inl e) ∧ d' = d ∨
  r = inr tt ∧ is_Some (priority role) ∧ role_taken userID role tenant d = false ∧
  is_Some (users d !! userID) ∧ d' = with_role (next_role now userID role tenant d) d.
Proof.
  unfold AssignRole. intros [(e & Q & ->)|([] & d1 & Q & R)]%bind_inv;
    apply ensure_inv in Q as [-> Q].
  - eauto.
  - by apply insert_role_run in R.
Qed.

(** The row a new session becomes. *)
Definition session_row (now : time) (s : Session) : Session :=
  mkSession (se_ID s) (se_UserID s) (se_RefreshTokenHash s) (se_DeviceName s) (se_IPAddress s)
    now (timestamptz (se_ExpiresAt s)) (timestamptz (se_AbsoluteExpiresAt s)) None.

Lemma mint_session_run now s d r d' : CreateSession now s d = (r, d') →
  (∃ e, r = inl e) ∧ d' = d ∨
  r = inr tt ∧ sessions d !! se_ID s = None ∧
  (∀ id o, sessions d !! id = Some o → se_RefreshTokenHash o ≠ se_RefreshTokenHash s) ∧
  is_Some (users d !! se_UserID s) ∧
  d' = with_sessions (insert (se_ID s) (session_row now s)) d.
Proof.
  unfold CreateSession. intros R. unfold_run R. case_run R; eauto. right. props.
  split_and!; try done; [|by apply has_user_spec]. intros id o L E'.
  by match goal with F : find_row _ _ = None |- _ =>
       exact (find_row_None_ne _ _ _ _ _ F L E') end.
Qed.

Lemma RevokeSession_run now id d r d' : RevokeSession now id d = (r, d') →
  r = inl ErrUserNotFound ∧ sessions d !! id = None ∧ d' = d ∨
  ∃ s, r = inr tt ∧ sessions d !! id = Some s ∧ d' = with_sessions (insert id (revoked now s)) d.
Proof.
  unfold RevokeSession. intros R. unfold_run R. destruct (sessions d !! id) as [s|];
    injection R as <- <-; eauto.
Qed.

Definition revoke_live (now : time) (userID : uuid) (s : Session) : Session :=
  if live_of userID s then revoked now s else s.

Lemma RevokeUserSessions_run now userID d r d' : RevokeUserSessions now userID d = (r, d') →
  (∃ n, r = inr n) ∧ d' = with_sessions (fmap (revoke_live now userID)) d.
Proof. unfold RevokeUserSessions. intros R. unfold_run R. injection R as <- <-. eauto. Qed.

Definition with_password (now : time) (hash : string) (u : user_row) : user_row :=
  mkUserRow (ur_id u) (ur_email u) (ur_phone u) hash (ur_full_name u) (ur_status u)
    (ur_email_verified_at u) (ur_phone_verified_at u) (ur_created_at u) now.

Lemma UpdatePassword_run now id hash d r d' : UpdatePassword now id hash d = (r, d') →
  r = inl ErrUserNotFound ∧ d' = d ∨
  ∃ u, r = inr tt ∧ users d !! id = Some u ∧
    d' = with_users (insert id (with_password now hash u)) d.
Proof.
  unfold UpdatePassword. intros R. unfold_run R. destruct (users d !! id) as [u|];
    injection R as <- <-; eauto.
Qed.

Definition audit_row (now : time) (entry : AuditEntry) (d : ident_db) : AuditRecord :=
  mkAuditRecord (Z.of_nat (length (audit_log d)) + 1) (ae_ActorID entry) (ae_Action entry)
    (ae_ObjectType entry) (ae_ObjectID entry) (ae_TenantID entry)
    (default ∅ (ae_Metadata entry)) now.

Lemma InsertAudit_run now entry d r d' : InsertAudit now entry d = (r, d') →
  r = inr tt ∧ d' = with_audit (audit_row now entry d) d.
Proof. unfold InsertAudit. intros R. unfold_run R. by injection R as <- <-. Qed.

Definition token_row (now : time) (t : VerificationToken) : VerificationToken :=
  mkVerificationToken (vt_ID t) (vt_UserID t) (vt_Channel t) (vt_TokenHash t)
    (timestamptz (vt_ExpiresAt t)) None now.

Lemma CreateVerificationToken_run now t d r d' : CreateVerificationToken now t d = (r, d') →
  (∃ e, r = inl e) ∧ d' = d ∨
  r = inr tt ∧ IsValidVerificationChannel (vt_Channel t) = true ∧
  verification_tokens d !! vt_ID t = None ∧
  (∀ id o, verification_tokens d !! id = Some o → vt_TokenHash o ≠ vt_TokenHash t) ∧
  is_Some (users d !! vt_UserID t) ∧ d' = with_tokens (insert (vt_ID t) (token_row now t)) d.
Proof.
  unfold CreateVerificationToken. intros R. unfold_run R. case_run R; eauto. right. props.
  split_and!; try done; [|by apply has_user_spec]. intros id o L E'.
  by match goal with F : find_row _ _ = None |- _ =>
       exact (find_row_None_ne _ _ _ _ _ F L E') end.
Qed.

Lemma ConsumeVerificationToken_run id userID channel at_ d r d' :
  ConsumeVerificationToken id userID channel at_ d = (r, d') →
  (∃ e, r = inl e) ∧ d' = d ∨
  ∃ t, r = inr tt ∧ verification_tokens d !! id = Some t ∧ vt_ConsumedAt t = None ∧
    IsValidVerificationChannel channel = true ∧
    d' = with_users (alter (mark_verified channel at_) userID)
           (with_tokens (insert id (consumed at_ t)) d).
Proof.
  unfold ConsumeVerificationToken. intros R. unfold_run R. case_run R; eauto.
  right. props. eauto 10.
Qed.

End Runs.

(** ** Growth

    What stays of the rows, whatever follows. The instant of a revocation may be
    overwritten; that the session is revoked stays. *)

Definition user_grows (u u' : user_row) : Prop :=
  ur_id u' = ur_id u ∧ ur_email u' = ur_email u ∧ ur_phone u' = ur_phone u ∧
  ur_full_name u' = ur_full_name u ∧ ur_status u' = ur_status u ∧
  ur_created_at u' = ur_created_at u ∧
  (∀ t, ur_email_verified_at u = Some t → ur_email_verified_at u' = Some t) ∧
  (∀ t, ur_phone_verified_at u = Some t → ur_phone_verified_at u' = Some t).

Definition session_grows (s s' : Session) : Prop :=
  s' = mkSession (se_ID s) (se_UserID s) (se_RefreshTokenHash s) (se_DeviceName s)
    (se_IPAddress s) (se_CreatedAt s) (se_ExpiresAt s) (se_AbsoluteExpiresAt s) (se_RevokedAt s') ∧
  (is_Some (se_RevokedAt s) → is_Some (se_RevokedAt s')).

Definition token_grows (t t' : VerificationToken) : Prop :=
  t' = mkVerificationToken (vt_ID t) (vt_UserID t) (vt_Channel t) (vt_TokenHash t)
    (vt_ExpiresAt t) (vt_ConsumedAt t') (vt_CreatedAt t) ∧
  (∀ c, vt_ConsumedAt t = Some c → vt_ConsumedAt t' = Some c).

(** Every row of the one table is still in the other. *)
Definition extends {R} (rel : R → R → Prop) (m m' : gmap uuid R) : Prop :=
  ∀ id x, m !! id = Some x → ∃ x', m' !! id = Some x' ∧ rel x x'.

Record grows (d d' : ident_db) : Prop := {
  gr_users : extends user_grows (users d) (users d');
  gr_roles : user_roles d `prefix_of` user_roles d';
  gr_sessions : extends session_grows (sessions d) (sessions d');
  gr_tokens : extends token_grows (verification_tokens d) (verification_tokens d');
  gr_audit : audit_log d `prefix_of` audit_log d';
}.

#[export] Instance user_grows_preorder : PreOrder user_grows.
Proof.
  split; [by intros u; split_and!|]. intros u v w (A & B & C & D & E & F & G & K)
    (A' & B' & C' & D' & E' & F' & G' & K'). split_and!; try congruence; auto.
Qed.

#[export] Instance session_grows_preorder : PreOrder session_grows.
Proof.
  split; [by intros []; split|].
  intros [] [] [] (A & B) (A' & B'). unfold session_grows in *. simpl in *.
  split; [congruence|auto].
Qed.

#[export] Instance token_grows_preorder : PreOrder token_grows.
Proof.
  split; [by intros []; split|].
  intros [] [] [] (A & B) (A' & B'). unfold token_grows in *. simpl in *.
  split; [congruence|auto].
Qed.

#[export] Instance extends_preorder {R} (rel : R → R → Prop) `{!PreOrder rel} : PreOrder (extends rel).
Proof.
  split; [intros m id x L; by exists x|].
  intros m m' m'' E E' id x L. destruct (E _ _ L) as (y & L' & G).
  destruct (E' _ _ L') as (z & L'' & G'). exists z. split; [done|by etrans].
Qed.

#[export] Instance grows_preorder : PreOrder grows.
Proof. split; [by intros d; split|]. intros a b c [] []. split; by etrans. Qed.

Lemma extends_insert {R} (rel : R → R → Prop) `{!PreOrder rel} (m : gmap uuid R) id x :
  m !! id = None → extends rel m (<[id := x]> m).
Proof.
  intros N i y L. exists y. split; [|done]. by rewrite lookup_insert_ne by congruence.
Qed.

Lemma extends_update {R} (rel : R → R → Prop) `{!PreOrder rel} (m : gmap uuid R) id x x' :
  m !! id = Some x → rel x x' → extends rel m (<[id := x']> m).
Proof.
  intros L G i y L'. destruct (decide (id = i)) as [<-|Ne].
  - rewrite lookup_insert_eq. rewrite L in L'. injection L' as <-. eauto.
  - rewrite lookup_insert_ne by done. by exists y.
Qed.

Lemma extends_fmap {R} (rel : R → R → Prop) (f : R → R) (m : gmap uuid R) :
  (∀ x, rel x (f x)) → extends rel m (f <$> m).
Proof. intros G id x L. exists (f x). by rewrite lookup_fmap, L. Qed.

Lemma revoked_grows now s : session_grows s (revoked now s).
Proof. destruct s. split; [done|by eexists]. Qed.

Lemma revoke_live_grows now userID s : session_grows s (revoke_live now userID s).
Proof. unfold revoke_live. destruct (live_of userID s); [apply revoked_grows|done]. Qed.

Lemma with_password_grows now hash u : user_grows u (with_password now hash u).
Proof. destruct u. by split_and!. Qed.

Lemma mark_verified_grows channel at_ u : user_grows u (mark_verified channel at_ u).
Proof.
  unfold mark_verified. destruct (String.eqb channel ChannelEmail); case_bool_decide as E;
    [|done| |done]; destruct u; simpl in *; subst; by split_and!.
Qed.

Lemma consumed_grows at_ t : vt_ConsumedAt t = None → token_grows t (consumed at_ t).
Proof. destruct t; simpl; intros ->. by split. Qed.

(** ** Steps *)

Section Invariant.
Context `{CaseMapping} `{Jwt}.

(** The settings of the issuer the accounts are judged by. *)
Context (i : Issuer).

(** The account may have sessions at [now]. *)
Definition may_mint (now : time) (d : ident_db) (userID : uuid) : Prop :=
  ∃ u, users d !! userID = Some u ∧
    verificationRefused now (scanUser u) (is_verificationGrace i) = false.

(** The absolute bound of a new session: its own, at a login, or that of the revoked
    session it replaces, at a rotation. *)
Definition inherited (now : time) (d : ident_db) (s : Session) : Prop :=
  ∃ o, sessions d !! se_ID o = Some o ∧ se_UserID o = se_UserID s ∧ is_Some (se_RevokedAt o) ∧
    se_AbsoluteExpiresAt s = se_AbsoluteExpiresAt o ∧ now < se_AbsoluteExpiresAt o.

Definition bounded (now : time) (d : ident_db) (s : Session) : Prop :=
  se_AbsoluteExpiresAt s = now + is_absoluteTTL i ∨ inherited now d s.

(** The steps that mint sessions only as [B] allows. *)
Inductive ident_step_with (B : time → ident_db → Session → Prop) (d : ident_db) : ident_db → Prop :=
  | st_user now u r d' :
      u_Roles u = [RoleCustomer] → u_Status u = StatusActive →
      CreateUser now u d = (r, d') → ident_step_with B d d'
  | st_role quote now userID role tenant r d' :
      AssignRole quote now userID role tenant d = (r, d') → ident_step_with B d d'
  | st_session now s r d' :
      may_mint now d (se_UserID s) → bounded now d s → B now d s →
      CreateSession now s d = (r, d') → ident_step_with B d d'
  | st_revoke now id r d' : RevokeSession now id d = (r, d') → ident_step_with B d d'
  | st_revoke_user now userID r d' : RevokeUserSessions now userID d = (r, d') → ident_step_with B d d'
  | st_password now id hash r d' : UpdatePassword now id hash d = (r, d') → ident_step_with B d d'
  | st_token now t r d' : CreateVerificationToken now t d = (r, d') → ident_step_with B d d'
  | st_consume id userID channel at_ t r d' :
      verification_tokens d !! id = Some t → vt_UserID t = userID → vt_Channel t = channel →
      at_ < vt_ExpiresAt t →
      ConsumeVerificationToken id userID channel at_ d = (r, d') → ident_step_with B d d'
  | st_audit now entry r d' : InsertAudit now entry d = (r, d') → ident_step_with B d d'.

Definition ident_step : ident_db → ident_db → Prop := ident_step_with (λ _ _ _, True).
Definition ident_steps : ident_db → ident_db → Prop := rtc ident_step.
Definition ident_reachable (d : ident_db) : Prop := ident_steps empty_ident_db d.

(** ** The invariant *)

Definition user_ok (id : uuid) (u : user_row) : Prop := ur_id u = id ∧ ur_status u = "active".

(** The role of a grant is known and its account exists. *)
Definition grant_ok (us : gmap uuid user_row) (r : role_row) : Prop :=
  is_Some (us !! rr_user_id r) ∧ is_Some (priority (rr_role r)).

Definition grant_key (r : role_row) : uuid * string * option uuid :=
  (rr_user_id r, rr_role r, rr_tenant_id r).

(** The login a session goes back to gave it its absolute bound. *)
Definition lineage (m : gmap uuid Session) (s : Session) : Prop :=
  ∃ r, m !! se_ID r = Some r ∧ se_UserID r = se_UserID s ∧
    se_AbsoluteExpiresAt s = timestamptz (se_CreatedAt r + is_absoluteTTL i) ∧
    (se_ID r = se_ID s ∨ se_CreatedAt s < se_AbsoluteExpiresAt s).

(** The account of the session was within its grace or verified when it was
    minted, or has been verified since. *)
Definition minted_in_grace (us : gmap uuid user_row) (s : Session) : Prop :=
  ∃ u, us !! se_UserID s = Some u ∧
    verificationRefused (se_CreatedAt s) (scanUser u) (is_verificationGrace i) = false.

Definition channel_stamp (channel : string) (u : user_row) : option time :=
  if String.eqb channel ChannelEmail then ur_email_verified_at u else ur_phone_verified_at u.

(** A stamp of an account is that of a consumed token. *)
Definition stamp_ok (ts : gmap uuid VerificationToken) (id : uuid) (u : user_row) : Prop :=
  ∀ channel c, IsValidVerificationChannel channel = true → channel_stamp channel u = Some c →
  ∃ t, ts !! vt_ID t = Some t ∧ vt_UserID t = id ∧ vt_Channel t = channel ∧
    vt_ConsumedAt t = Some c ∧ c < vt_ExpiresAt t.

(** A consumed token verified its channel. *)
Definition token_ok (us : gmap uuid user_row) (id : uuid) (t : VerificationToken) : Prop :=
  vt_ID t = id ∧ IsValidVerificationChannel (vt_Channel t) = true ∧
  ∃ u, us !! vt_UserID t = Some u ∧
    (is_Some (vt_ConsumedAt t) → is_Some (channel_stamp (vt_Channel t) u)).

Record ident_ok (d : ident_db) : Prop := {
  io_user : map_Forall user_ok (users d);
  io_email : ∀ id id' u u', users d !! id = Some u → users d !! id' = Some u' →
    sql_lower (ur_email u) = sql_lower (ur_email u') → id = id';
  io_grant : Forall (grant_ok (users d)) (user_roles d);
  io_grant_key : NoDup (grant_key <$> user_roles d);
  io_session : map_Forall (λ id s, se_ID s = id ∧ lineage (sessions d) s ∧
    minted_in_grace (users d) s) (sessions d);
  io_hash : ∀ id id' s s', sessions d !! id = Some s → sessions d !! id' = Some s' →
    se_RefreshTokenHash s = se_RefreshTokenHash s' → id = id';
  io_token : map_Forall (token_ok (users d)) (verification_tokens d);
  io_token_hash : ∀ id id' t t', verification_tokens d !! id = Some t →
    verification_tokens d !! id' = Some t' → vt_TokenHash t = vt_TokenHash t' → id = id';
  io_stamp : map_Forall (stamp_ok (verification_tokens d)) (users d);
  io_audit : ar_ID <$> audit_log d = Z.of_nat <$> seq 1 (length (audit_log d));
}.

Lemma empty_ident_ok : ident_ok empty_ident_db.
Proof.
  split; try (by intros ? ?); try (by constructor); intros ? ? ? ? L; by rewrite lookup_empty in L.
Qed.

(** ** What growth keeps *)

Lemma refused_mono now u u' grace : user_grows u u' →
  verificationRefused now (scanUser u) grace = false →
  verificationRefused now (scanUser u') grace = false.
Proof.
  intros (Id & Em & Ph & _ & _ & Cr & Ve & Vp). unfold verificationRefused.
  destruct (grace <=? 0); [done|]. unfold verificationSatisfied, scanUser.
  cbn [u_EmailVerifiedAt u_PhoneVerifiedAt u_Phone u_CreatedAt]. rewrite Ph, Cr.
  destruct (ur_email_verified_at u) as [t|]; [rewrite (Ve t eq_refl)|].
  - destruct (ur_phone_verified_at u) as [t'|]; [by rewrite (Vp t' eq_refl)|].
    destruct (String.eqb _ ""); [done|]. cbn [negb andb].
    rewrite bool_decide_eq_true_2 by done. intros E. by repeat case_match.
  - intros E. by repeat case_match.
Qed.

Lemma minted_mono us us' s s' : extends user_grows us us' → session_grows s s' →
  minted_in_grace us s → minted_in_grace us' s'.
Proof.
  intros E [-> _] (u & L & R). destruct (E _ _ L) as (u' & L' & G).
  exists u'. cbn [se_UserID se_CreatedAt]. eauto using refused_mono.
Qed.

Lemma lineage_mono m m' s s' : extends session_grows m m' → session_grows s s' →
  lineage m s → lineage m' s'.
Proof.
  intros E [-> _] (r & L & U & A & C). destruct (E _ _ L) as (r' & L' & [G _]).
  exists r'. rewrite G. cbn [se_ID se_UserID se_AbsoluteExpiresAt se_CreatedAt].
  rewrite <-G. done.
Qed.

Lemma stamp_kept channel u u' c : user_grows u u' → channel_stamp channel u = Some c →
  channel_stamp channel u' = Some c.
Proof.
  intros (_ & _ & _ & _ & _ & _ & Ve & Vp). unfold channel_stamp. destruct (String.eqb _ _); auto.
Qed.

Lemma token_ok_mono us us' id t : extends user_grows us us' → token_ok us id t → token_ok us' id t.
Proof.
  intros E (Id & Ch & u & L & C). destruct (E _ _ L) as (u' & L' & G).
  split_and!; [done..|]. exists u'. split; [done|]. intros [c S]%C. exists c. by eapply stamp_kept.
Qed.

Lemma stamp_ok_mono ts ts' id u : extends token_grows ts ts' → stamp_ok ts id u → stamp_ok ts' id u.
Proof.
  intros E S channel c V C. destruct (S _ _ V C) as (t & L & U & Ch & Co & Le).
  destruct (E _ _ L) as (t' & L' & [G K]). exists t'. rewrite G.
  cbn [vt_ID vt_UserID vt_Channel vt_ConsumedAt vt_ExpiresAt]. rewrite (K _ Co).
  split_and!; try done. rewrite L', G. by rewrite (K _ Co).
Qed.

Lemma grant_ok_mono us us' r : extends user_grows us us' → grant_ok us r → grant_ok us' r.
Proof. intros E [[u L] P]. destruct (E _ _ L) as (u' & L' & _). split; [by exists u'|done]. Qed.

(** ** Steps keep the invariant *)

Lemma taken_false email d id u : email_taken email d = false → users d !! id = Some u →
  sql_lower (ur_email u) ≠ sql_lower email.
Proof.
  unfold email_taken. rewrite bool_decide_eq_false. intros N%eq_None_not_Some L.
  by apply (find_row_None_ne (λ u, sql_lower (ur_email u)) _ _ _ _ N L).
Qed.

Lemma role_free userID role tenant d : role_taken userID role tenant d = false →
  (userID, role, tenant) ∉ grant_key <$> user_roles d.
Proof.
  unfold role_taken. intros N (r & E & I)%list_elem_of_fmap. apply not_true_iff_false in N.
  apply N. apply existsb_exists. exists r. split; [by apply list_elem_of_In|].
  unfold grant_key in E. injection E as -> -> ->.
  by rewrite !bool_decide_eq_true_2, String.eqb_refl by done.
Qed.

Lemma role_ok now userID role tenant d : ident_ok d → is_Some (priority role) →
  is_Some (users d !! userID) → role_taken userID role tenant d = false →
  ident_ok (with_role (next_role now userID role tenant d) d).
Proof.
  intros [] P U N. split; try done; simpl.
  - apply Forall_app. split; [done|]. by constructor.
  - rewrite fmap_app. apply list.NoDup_app. split; [done|].
    split; [|apply NoDup_singleton]. intros k I ->%list_elem_of_singleton. by apply role_free in N.
Qed.

Lemma user_ok_step now u d : ident_ok d → u_Status u = StatusActive → users d !! u_ID u = None →
  email_taken (ToLower (TrimSpace (u_Email u))) d = false →
  ident_ok (with_users (insert (u_ID u) (new_user_row now u)) d).
Proof.
  intros [] St N Et. assert (extends user_grows (users d) (<[u_ID u := new_user_row now u]> (users d)))
    as X by (apply extends_insert; [apply _|done]).
  split; try done; simpl.
  - apply map_Forall_insert; [done|]. split; [|done]. by split.
  - intros id id' v v' L L' E.
    apply lookup_insert_Some in L as [[<- <-]|[Ne L]], L' as [[<- <-]|[Ne' L']]; try done.
    + by destruct (taken_false _ _ _ _ Et L').
    + by destruct (taken_false _ _ _ _ Et L).
    + by eapply io_email0.
  - eapply list.Forall_impl; [exact io_grant0|]. intros r. by apply grant_ok_mono.
  - intros id s L. destruct (io_session0 _ _ L) as (A & B & C). split_and!; [done..|].
    by eapply minted_mono.
  - intros id t L. by eapply token_ok_mono, io_token0.
  - apply map_Forall_insert; [done|]. split; [|done]. intros channel c _.
    unfold channel_stamp. simpl. by destruct (String.eqb _ _).
Qed.

Lemma timestamptz_le t : timestamptz t <= t.
Proof. unfold timestamptz. pose proof (Z.div_mod t 1000). pose proof (Z.mod_pos_bound t 1000). lia. Qed.

(** A text bound below a stored instant survives the truncation. *)
Lemma timestamptz_fixed d s : ident_ok d → sessions d !! se_ID s = Some s →
  timestamptz (se_AbsoluteExpiresAt s) = se_AbsoluteExpiresAt s.
Proof.
  intros [] L. destruct (io_session0 _ _ L) as (_ & (r & _ & _ & -> & _) & _).
  apply timestamptz_idem.
Qed.

Lemma session_ok_step now s d : ident_ok d → may_mint now d (se_UserID s) → bounded now d s →
  sessions d !! se_ID s = None →
  (∀ id o, sessions d !! id = Some o → se_RefreshTokenHash o ≠ se_RefreshTokenHash s) →
  ident_ok (with_sessions (insert (se_ID s) (session_row now s)) d).
Proof.
  intros Ok M B N U. pose proof Ok as [].
  assert (extends session_grows (sessions d) (<[se_ID s := session_row now s]> (sessions d))) as X
    by (apply extends_insert; [apply _|done]).
  split; try done; simpl.
  - apply map_Forall_insert; [done|]. split.
    + split_and!; [done| |done]. destruct B as [B|(o & L & Us & _ & B & Lt)].
      * exists (session_row now s). cbn [se_ID]. rewrite lookup_insert_eq.
        cbn [session_row se_UserID se_AbsoluteExpiresAt se_CreatedAt se_ID]. rewrite B. auto.
      * destruct (io_session0 _ _ L) as (_ & (r & Lr & Ur & A & _) & _).
        destruct (X _ _ Lr) as (r' & Lr' & [G _]). exists r'. rewrite G.
        cbn [session_row se_UserID se_AbsoluteExpiresAt se_CreatedAt se_ID]. rewrite <-G, B.
        rewrite (timestamptz_fixed d o Ok L). split_and!; [done|congruence|done|by right].
    + intros id o L. destruct (io_session0 _ _ L) as (A & C & D). split_and!; [done| |done].
      by eapply lineage_mono.
  - intros id id' o o' L L' E.
    apply lookup_insert_Some in L as [[<- <-]|[Ne L]], L' as [[<- <-]|[Ne' L']]; try done.
    + by destruct (U _ _ L').
    + by destruct (U _ _ L).
    + by eapply io_hash0.
Qed.

(** Sessions rewritten row by row. *)
Lemma sessions_updated m d : ident_ok d →
  extends session_grows (sessions d) m →
  (∀ id s', m !! id = Some s' → ∃ s, sessions d !! id = Some s ∧ session_grows s s') →
  ident_ok (with_sessions (λ _, m) d).
Proof.
  intros [] X Y. split; try done; simpl.
  - intros id s' L. destruct (Y _ _ L) as (s & L0 & G).
    destruct (io_session0 _ _ L0) as (A & B & C). split_and!.
    + destruct G as [-> _]. done.
    + by eapply lineage_mono.
    + by eapply minted_mono.
  - intros id id' s s' L L' E. destruct (Y _ _ L) as (o & L0 & [G _]), (Y _ _ L') as (o' & L0' & [G' _]).
    rewrite G, G' in E. by eapply io_hash0.
Qed.

Lemma revoke_ok now id s d : ident_ok d → sessions d !! id = Some s →
  ident_ok (with_sessions (insert id (revoked now s)) d).
Proof.
  intros Ok L. apply (sessions_updated (<[id := revoked now s]> (sessions d))); [done| |].
  - eapply extends_update; [apply _|done|apply revoked_grows].
  - intros id' s' [[<- <-]|[Ne L']]%lookup_insert_Some; eauto using revoked_grows.
    by exists s'.
Qed.

Lemma revoke_user_ok now userID d : ident_ok d →
  ident_ok (with_sessions (fmap (revoke_live now userID)) d).
Proof.
  intros Ok. apply (sessions_updated (revoke_live now userID <$> sessions d)); [done| |].
  - apply extends_fmap. intros. apply revoke_live_grows.
  - intros id s' L. rewrite lookup_fmap in L. apply fmap_Some in L as (s & L & ->).
    eauto using revoke_live_grows.
Qed.

Lemma password_ok now id hash u d : ident_ok d → users d !! id = Some u →
  ident_ok (with_users (insert id (with_password now hash u)) d).
Proof.
  intros [] L. assert (extends user_grows (users d) (<[id := with_password now hash u]> (users d))) as X
    by (eapply extends_update; [apply _|done|apply with_password_grows]).
  split; try done; simpl.
  - intros id' v [[<- <-]|[_ L']]%lookup_insert_Some; [|by apply io_user0].
    exact (io_user0 _ _ L).
  - intros id1 id2 v v' [[<- <-]|[_ L1]]%lookup_insert_Some [[<- <-]|[_ L2]]%lookup_insert_Some E;
      try done; by eapply io_email0.
  - eapply list.Forall_impl; [exact io_grant0|]. intros r. by apply grant_ok_mono.
  - intros id' s L'. destruct (io_session0 _ _ L') as (A & B & C). split_and!; [done..|].
    by eapply minted_mono.
  - intros id' t L'. by eapply token_ok_mono, io_token0.
  - intros id' v [[<- <-]|[_ L']]%lookup_insert_Some; [|by apply io_stamp0].
    exact (io_stamp0 _ _ L).
Qed.

Lemma token_ok_step now t d : ident_ok d → IsValidVerificationChannel (vt_Channel t) = true →
  verification_tokens d !! vt_ID t = None →
  (∀ id o, verification_tokens d !! id = Some o → vt_TokenHash o ≠ vt_TokenHash t) →
  is_Some (users d !! vt_UserID t) →
  ident_ok (with_tokens (insert (vt_ID t) (token_row now t)) d).
Proof.
  intros [] V N U [u L].
  assert (extends token_grows (verification_tokens d)
            (<[vt_ID t := token_row now t]> (verification_tokens d))) as X
    by (apply extends_insert; [apply _|done]).
  split; try done; simpl.
  - apply map_Forall_insert; [done|]. split; [|done]. split_and!; [done..|].
    exists u. split; [done|]. by intros [c [=]].
  - intros id id' o o' L1 L2 E.
    apply lookup_insert_Some in L1 as [[<- <-]|[_ L1]], L2 as [[<- <-]|[_ L2]]; try done.
    + by destruct (U _ _ L2).
    + by destruct (U _ _ L1).
    + by eapply io_token_hash0.
  - intros id v L'. by eapply stamp_ok_mono, io_stamp0.
Qed.

Lemma audit_ok now entry d : ident_ok d → ident_ok (with_audit (audit_row now entry d) d).
Proof.
  intros []. split; try done; simpl.
  rewrite fmap_app, length_app, seq_app, fmap_app, io_audit0. simpl. do 2 f_equal. lia.
Qed.

(** ** Consuming a token *)

Lemma valid_channel channel : IsValidVerificationChannel channel = true ↔
  channel = "email" ∨ channel = "phone".
Proof. unfold IsValidVerificationChannel. by rewrite orb_true_iff, !String.eqb_eq. Qed.

Lemma marked channel at_ u : is_Some (channel_stamp channel (mark_verified channel at_ u)).
Proof.
  unfold channel_stamp, mark_verified. destruct (String.eqb channel ChannelEmail); case_bool_decide as E;
    simpl; try by eexists.
  all: by apply not_eq_None_Some.
Qed.

Lemma marked_inv channel channel' at_ u c :
  IsValidVerificationChannel channel = true → IsValidVerificationChannel channel' = true →
  channel_stamp channel' (mark_verified channel at_ u) = Some c →
  channel_stamp channel' u = Some c ∨ channel' = channel ∧ c = timestamptz at_.
Proof.
  rewrite !valid_channel. unfold channel_stamp, mark_verified.
  intros [-> | ->] [-> | ->]; simpl; case_bool_decide; simpl; intros E; auto;
    injection E as <-; auto.
Qed.

Lemma consume_ok id at_ t u d : ident_ok d → verification_tokens d !! id = Some t →
  vt_ConsumedAt t = None → at_ < vt_ExpiresAt t → users d !! vt_UserID t = Some u →
  ident_ok (with_users (insert (vt_UserID t) (mark_verified (vt_Channel t) at_ u))
              (with_tokens (insert id (consumed at_ t)) d)).
Proof.
  intros [] Lt Nc Le Lu. set (u' := mark_verified (vt_Channel t) at_ u).
  pose proof (mark_verified_grows (vt_Channel t) at_ u) as Gu. fold u' in Gu.
  destruct (io_token0 _ _ Lt) as (Id & Ch & _).
  assert (extends user_grows (users d) (<[vt_UserID t := u']> (users d))) as X
    by (eapply extends_update; [apply _|done..]).
  assert (extends token_grows (verification_tokens d)
            (<[id := consumed at_ t]> (verification_tokens d))) as Y
    by (eapply extends_update; [apply _|done|by apply consumed_grows]).
  split; try done; simpl.
  - intros id' v [[<- <-]|[_ L]]%lookup_insert_Some; [|by apply io_user0].
    destruct (io_user0 _ _ Lu) as [A B], Gu as (A' & _ & _ & _ & B' & _). split; congruence.
  - assert (ur_email u' = ur_email u) as Em by apply Gu.
    intros id1 id2 v v' [[<- <-]|[_ L1]]%lookup_insert_Some [[<- <-]|[_ L2]]%lookup_insert_Some E;
      try done; rewrite ?Em in E; by eapply io_email0.
  - eapply list.Forall_impl; [exact io_grant0|]. intros r. by apply grant_ok_mono.
  - intros id' s L. destruct (io_session0 _ _ L) as (A & B & C). split_and!; [done..|].
    by eapply minted_mono.
  - intros id' o [[<- <-]|[_ L]]%lookup_insert_Some; [|by eapply token_ok_mono, io_token0].
    split_and!; [done..|]. exists u'. cbn [consumed vt_UserID vt_Channel vt_ConsumedAt].
    rewrite lookup_insert_eq. split; [done|]. intros _. apply marked.
  - intros id1 id2 o o' [[<- <-]|[_ L1]]%lookup_insert_Some [[<- <-]|[_ L2]]%lookup_insert_Some E;
      try done; by eapply io_token_hash0.
  - intros id' v [[<- <-]|[_ L]]%lookup_insert_Some; [|by eapply stamp_ok_mono, io_stamp0].
    intros channel c V [S|[-> ->]]%marked_inv; try done.
    + exact (stamp_ok_mono _ _ _ _ Y (io_stamp0 _ _ Lu) channel c V S).
    + exists (consumed at_ t). cbn [consumed vt_ID vt_UserID vt_Channel vt_ConsumedAt vt_ExpiresAt].
      rewrite Id, lookup_insert_eq. split_and!; try done. pose proof (timestamptz_le at_). lia.
Qed.

(** ** Every step keeps the invariant and the rows *)

Lemma alter_user f id u (d : ident_db) : users d !! id = Some u →
  with_users (alter f id) d = with_users (insert id (f u)) d.
Proof.
  intros L. unfold with_users. f_equal. apply map_eq. intros j.
  destruct (decide (id = j)) as [<-|Ne].
  - by rewrite lookup_alter_eq, lookup_insert_eq, L.
  - by rewrite lookup_alter_ne, lookup_insert_ne.
Qed.

Lemma ident_step_spec B d d' : ident_ok d → ident_step_with B d d' → ident_ok d' ∧ grows d d'.
Proof.
  intros Ok S. destruct S as [now u r d' Ro St R|quote now userID role tenant r d' R
    |now s r d' M Bo Bs R|now id r d' R|now userID r d' R|now id hash r d' R|now t r d' R
    |id userID channel at_ t r d' L <- <- Le R|now entry r d' R].
  - apply CreateUser_run in R as [[_ ->]|(-> & N & _ & Et & _ & Rt & ->)]; [done| |done].
    pose proof (user_ok_step now u d Ok St N Et) as Ok1. split.
    + by apply (role_ok now (u_ID u) RoleCustomer None) in Ok1;
        [|by eexists|simpl; rewrite lookup_insert_eq; by eexists|].
    + split; simpl; try done; [|by apply prefix_app_r].
      by apply extends_insert; [apply _|].
  - apply AssignRole_run in R as [[_ ->]|(-> & P & N & U & ->)]; [done|].
    split; [by apply role_ok|]. split; simpl; try done. by apply prefix_app_r.
  - apply mint_session_run in R as [[_ ->]|(-> & N & U & _ & ->)]; [done|].
    split; [by apply session_ok_step|]. split; simpl; try done.
    by apply extends_insert; [apply _|].
  - apply RevokeSession_run in R as [(_ & _ & ->)|(s & -> & L & ->)]; [done|].
    split; [by apply revoke_ok|]. split; simpl; try done.
    eapply extends_update; [apply _|done|apply revoked_grows].
  - apply RevokeUserSessions_run in R as [_ ->]. split; [by apply revoke_user_ok|].
    split; simpl; try done. apply extends_fmap. intros. apply revoke_live_grows.
  - apply UpdatePassword_run in R as [[_ ->]|(u & -> & L & ->)]; [done|].
    split; [by apply password_ok|]. split; simpl; try done.
    eapply extends_update; [apply _|done|apply with_password_grows].
  - apply CreateVerificationToken_run in R as [[_ ->]|(-> & V & N & U & Us & ->)]; [done|].
    split; [by apply token_ok_step|]. split; simpl; try done.
    by apply extends_insert; [apply _|].
  - apply ConsumeVerificationToken_run in R as [[_ ->]|(t' & -> & L' & Nc & _ & ->)]; [done|].
    rewrite L in L'. injection L' as <-.
    destruct (io_token _ Ok _ _ L) as (_ & _ & u & Lu & _).
    erewrite alter_user by exact Lu.
    split; [by apply consume_ok|]. split; simpl; try done.
    + eapply extends_update; [apply _|done|apply mark_verified_grows].
    + eapply extends_update; [apply _|done|by apply consumed_grows].
  - apply InsertAudit_run in R as [_ ->]. split; [by apply audit_ok|].
    split; simpl; try done. by apply prefix_app_r.
Qed.

Lemma ident_step_ok B d d' : ident_ok d → ident_step_with B d d' → ident_ok d'.
Proof. intros Ok S. by apply (ident_step_spec B d). Qed.

Lemma ident_steps_spec d d' : ident_ok d → ident_steps d d' → ident_ok d' ∧ grows d d'.
Proof.
  intros Ok S. induction S as [d|d d1 d' S1 S IH]; [done|].
  destruct (ident_step_spec _ _ _ Ok S1) as [Ok1 G1], IH as [Ok' G']; [done|]. split; [done|by etrans].
Qed.

Lemma ident_reachable_ok d : ident_reachable d → ident_ok d.
Proof. intros R. by apply (ident_steps_spec empty_ident_db); [apply empty_ident_ok|]. Qed.

(** ** The logins

    The steps with the identifiers of the sessions that logins have minted. *)

Lemma ident_step_weaken (B B' : time → ident_db → Session → Prop) d d' :
  (∀ now s, B now d s → B' now d s) → ident_step_with B d d' → ident_step_with B' d d'.
Proof.
  intros W []; [eapply st_user|eapply st_role|eapply st_session|eapply st_revoke|eapply st_revoke_user
    |eapply st_password|eapply st_token|eapply st_consume|eapply st_audit]; eauto.
Qed.

Inductive history : gset uuid → ident_db → Prop :=
  | hs_empty : history ∅ empty_ident_db
  | hs_login L d now s d' : history L d →
      may_mint now d (se_UserID s) → se_AbsoluteExpiresAt s = now + is_absoluteTTL i →
      CreateSession now s d = (inr tt, d') → history ({[se_ID s]} ∪ L) d'
  | hs_step L d d' : history L d → ident_step_with inherited d d' → history L d'.

Lemma history_steps L d d' : history L d → rtc (ident_step_with inherited) d d' → history L d'.
Proof. intros Hs St. induction St; [done|]. eauto using hs_step. Qed.

Lemma history_reachable L d : history L d → ident_reachable d.
Proof.
  induction 1 as [|L d now s d' _ R M Bo C|L d d' _ R S]; [apply rtc_refl|..]; (eapply rtc_r; [exact R|]).
  - eapply st_session; [exact M|by left|done|exact C].
  - by eapply ident_step_weaken; [|exact S].
Qed.

Lemma reachable_history d : ident_reachable d → ∃ L, history L d.
Proof.
  intros R. apply rtc_ind_r with (P := λ d, ∃ L, history L d) in R; [done|exists ∅; apply hs_empty|].
  intros d1 d2 _ S [L Hs].
  destruct S as [now u r d' Ro St C|quote now userID role tenant r d' C
    |now s r d' M [Bo|Bo] _ C|now id r d' C|now userID r d' C|now id hash r d' C|now t r d' C
    |id userID channel at_ t r d' Lk U Ch Le C|now entry r d' C].
  3:{ pose proof C as C'. apply mint_session_run in C' as [[_ ->]|(-> & _)]; [by exists L|].
  exists ({[se_ID s]} ∪ L). by eapply hs_login. }
  all: exists L; eapply hs_step; [exact Hs|].
  - by eapply st_user.
  - by eapply st_role.
  - eapply st_session; [exact M|by right|exact Bo|exact C].
  - by eapply st_revoke.
  - by eapply st_revoke_user.
  - by eapply st_password.
  - by eapply st_token.
  - by eapply st_consume.
  - by eapply st_audit.
Qed.

(** What a step makes of the sessions. *)
Lemma step_sessions B d d' id x' : ident_step_with B d d' → sessions d' !! id = Some x' →
  (∃ x, sessions d !! id = Some x ∧ session_grows x x') ∨
  ∃ now s, B now d s ∧ id = se_ID s ∧ x' = session_row now s ∧ sessions d !! id = None.
Proof.
  assert (K : sessions d !! id = Some x' → ∃ x, sessions d !! id = Some x ∧ session_grows x x') by (intros L; by exists x').
  intros S L. destruct S as [now u r d' Ro St R|quote now userID role tenant r d' R
    |now s r d' M Bo Bs R|now ident r d' R|now userID r d' R|now ident hash r d' R|now t r d' R
    |ident userID channel at_ t r d' Lt U Ch Le R|now entry r d' R].
  - apply CreateUser_run in R as [[_ ->]|(_ & _ & _ & _ & _ & _ & ->)]; [auto..|done].
  - apply AssignRole_run in R as [[_ ->]|(_ & _ & _ & _ & ->)]; auto.
  - apply mint_session_run in R as [[_ ->]|(_ & N & _ & _ & ->)]; [auto|].
    cbn in L. apply lookup_insert_Some in L as [[<- <-]|[_ L]]; [right; by exists now, s|auto].
  - apply RevokeSession_run in R as [(_ & _ & ->)|(s & _ & Ls & ->)]; [auto|]. left.
    cbn in L. apply lookup_insert_Some in L as [[<- <-]|[_ L]]; [exists s; eauto using revoked_grows|auto].
  - apply RevokeUserSessions_run in R as [_ ->]. left. cbn in L. rewrite lookup_fmap in L.
    apply fmap_Some in L as (s & L & ->). eauto using revoke_live_grows.
  - apply UpdatePassword_run in R as [[_ ->]|(u & _ & _ & ->)]; auto.
  - apply CreateVerificationToken_run in R as [[_ ->]|(_ & _ & _ & _ & _ & ->)]; auto.
  - apply ConsumeVerificationToken_run in R as [[_ ->]|(t' & _ & _ & _ & _ & ->)]; auto.
  - apply InsertAudit_run in R as [_ ->]. auto.
Qed.

(** The login a session goes back to is one of the logins. *)
Definition logged_in (L : gset uuid) (m : gmap uuid Session) (s : Session) : Prop :=
  ∃ r, m !! se_ID r = Some r ∧ se_ID r ∈ L ∧ se_UserID r = se_UserID s ∧
    se_AbsoluteExpiresAt s = timestamptz (se_CreatedAt r + is_absoluteTTL i) ∧
    (se_ID r = se_ID s ∨ se_CreatedAt s < se_AbsoluteExpiresAt s).

Lemma logged_in_mono L L' m m' s s' : L ⊆ L' → extends session_grows m m' → session_grows s s' →
  logged_in L m s → logged_in L' m' s'.
Proof.
  intros Ls E [-> _] (r & Lr & I & U & A & C). destruct (E _ _ Lr) as (r' & L'' & [G _]).
  exists r'. rewrite G. cbn [se_ID se_UserID se_AbsoluteExpiresAt se_CreatedAt].
  rewrite <-G. split_and!; try done. by apply Ls.
Qed.

Lemma history_logged L d : history L d → map_Forall (λ _ s, logged_in L (sessions d) s) (sessions d).
Proof.
  induction 1 as [|L d now s d' Hs IH M Bo C|L d d' Hs IH S]; [done|..].
  - apply history_reachable in Hs as R%ident_reachable_ok.
    apply mint_session_run in C as [[[e [=]] _]|(_ & N & _ & _ & ->)]. cbn [sessions with_sessions].
    assert (extends session_grows (sessions d) (<[se_ID s := session_row now s]> (sessions d))) as X
      by (apply extends_insert; [apply _|done]).
    apply map_Forall_insert; [done|]. split.
    + exists (session_row now s). cbn [session_row se_ID se_UserID se_AbsoluteExpiresAt se_CreatedAt].
      rewrite lookup_insert_eq, Bo. split_and!; [done|set_solver|done|done|by left].
    + intros id o Lo. eapply logged_in_mono; [|exact X|done|exact (IH _ _ Lo)]. set_solver.
  - pose proof (ident_reachable_ok _ (history_reachable _ _ Hs)) as Ok.
    destruct (ident_step_spec _ _ _ Ok S) as [_ G]. pose proof (gr_sessions _ _ G) as X.
    intros id x' Lx. destruct (step_sessions _ _ _ _ _ S Lx) as [(x & Lo & Gx)|(now & s & B & -> & -> & N)].
    + eapply logged_in_mono; [done|exact X|exact Gx|exact (IH _ _ Lo)].
    + destruct B as (o & Lo & Us & _ & Ab & Lt). destruct (IH _ _ Lo) as (r & Lr & I & U & A & _).
      destruct (X _ _ Lr) as (r' & Lr' & [Gr _]). exists r'. rewrite Gr.
      cbn [session_row se_UserID se_AbsoluteExpiresAt se_CreatedAt se_ID]. rewrite <-Gr, Ab.
      rewrite (timestamptz_fixed d o Ok Lo). split_and!; [done|done|congruence|done|by right].
Qed.

End Invariant.
