(* ===== verification/IdentProps.v ===== *)
(** * IdentProps: what the identity service guarantees

    Each handler as a triple over the store calls: whatever it returns, it only takes the
    steps of [ident_step], and, registration and login apart, none that starts a new
    absolute bound. Then rows that never change, what a session and a verified
    channel go back to, and tokens that are dead for good. *)

From S2P Require Import Prelude Hoare Text Sha256 Platform Sql Wire Base64 IdentPassword.
From S2P Require Import IdentModels IdentStore IdentService IdentInvariant.

Open Scope Z_scope.

Section Refine.
Context `{CaseMapping} `{Jwt} `{UuidText} `{Argon2}.
Context (s : Service).

Abbreviation i := (sv_issuer s) (only parsing).

(** Which sessions may be minted; those of a rotation at least. *)
Context {Mint : time → ident_db → Session → Prop}.
Abbreviation ident_triple := (triple iw_db (ident_ok i) (ident_step_with i Mint)) (only parsing).

Lemma ident_call {A} (P : ident_db → Prop) (c : M ident_db IdentError A) (Q : A → ident_db → Prop) :
  (∀ d r d', ident_ok i d → P d → c d = (r, d') →
     (d' = d ∨ ident_step_with i Mint d d') ∧ match r with inr a => Q a d' | inl _ => True end) →
  ident_triple P (on_db c) Q.
Proof. intros T. by apply triple_store. Qed.

Lemma ident_bind {A B} (P : ident_db → Prop) (c : M ident_world IdentError A) Q
    (f : A → M ident_world IdentError B) R :
  ident_triple P c Q → (∀ a, ident_triple (Q a) (f a) R) → ident_triple P (c ≫= f) R.
Proof. apply (triple_bind iw_db (ident_ok i) (ident_step_with i Mint) (λ d d', ident_step_ok i Mint d d')). Qed.

(** ** Store calls *)

(** A user that was loaded. *)
Definition loaded (u : User) (d : ident_db) : Prop :=
  ∃ row, users d !! u_ID u = Some row ∧ u = with_roles (u_Roles u) (scanUser row).

Lemma with_roles_refused now roles u grace :
  verificationRefused now (with_roles roles u) grace = verificationRefused now u grace.
Proof. done. Qed.

Lemma load_user_run row d : load_user row d =
  (inr (with_roles (rolesFromGrants (grants_of (ur_id row) d)) (scanUser row)), d).
Proof. done. Qed.

(** [GetUser] loads the account with its grants. *)
Lemma GetUser_eq id d : ident_ok i d → GetUser id d =
  (match users d !! id with
   | Some row => inr (with_roles (rolesFromGrants (grants_of id d)) (scanUser row))
   | None => inl ErrUserNotFound
   end, d).
Proof.
  intros Ok. unfold GetUser. unfold_run_goal. destruct (users d !! id) as [row|] eqn:L; [|done].
  destruct (io_user _ _ Ok _ _ L) as [<- _]. done.
Qed.

Lemma GetUserByEmail_inv email d r d' : ident_ok i d → GetUserByEmail email d = (r, d') →
  d' = d ∧ match r with
  | inr u => loaded u d ∧ u_Email u = sql_lower (TrimSpace email)
  | inl e => e = ErrUserNotFound ∧
      ∀ id row, users d !! id = Some row → ur_email row ≠ sql_lower (TrimSpace email)
  end.
Proof.
  intros Ok. unfold GetUserByEmail. unfold_run_goal. destruct (find_row _ (users d)) as [row|] eqn:F.
  - simpl. intros [= <- <-]. split; [done|]. apply find_row_Some in F as (E & id & L).
    apply String.eqb_eq in E. destruct (io_user _ _ Ok _ _ L) as [Id _].
    split; [|done]. exists row. simpl. by rewrite Id.
  - intros [= <- <-]. split_and!; [done..|]. intros id row L. by apply (find_row_None_ne _ _ _ _ _ F L).
Qed.

Lemma GetUser_triple (P : ident_db → Prop) e id :
  ident_triple P (not_found_as e (on_db (GetUser id))) (λ u d, P d ∧ loaded u d ∧ u_ID u = id).
Proof.
  apply triple_wrap. intros w r w' Ok Pw R. unfold on_db, zoom in R. rewrite GetUser_eq in R by done.
  injection R as <- <-. simpl. split; [apply rtc_refl|].
  destruct (users (iw_db w) !! id) as [row|] eqn:L; [|done].
  destruct (io_user _ _ Ok _ _ L) as [Id _]. split_and!; [done| |done].
  exists row. simpl. by rewrite Id.
Qed.

Lemma GetUserByEmail_triple (P : ident_db → Prop) e email :
  ident_triple P (not_found_as e (on_db (GetUserByEmail email))) (λ u d, P d ∧ loaded u d).
Proof.
  apply triple_wrap. intros w r w' Ok Pw R. unfold on_db, zoom in R.
  destruct (GetUserByEmail email (iw_db w)) as [x d1] eqn:G. injection R as <- <-. simpl.
  apply GetUserByEmail_inv in G as [-> G]; [|done]. split; [apply rtc_refl|].
  destruct x as [|u]; [done|]. by destruct G.
Qed.

(** A session found by the digest of its token. *)
Lemma session_triple (P : ident_db → Prop) e hash :
  ident_triple P (not_found_as e (on_db (GetSessionByRefreshHash hash)))
    (λ x d, P d ∧ sessions d !! se_ID x = Some x ∧ se_RefreshTokenHash x = hash).
Proof.
  apply triple_wrap. intros w r w' Ok Pw R. unfold on_db, zoom, GetSessionByRefreshHash in R.
  unfold_run R. destruct (find_row _ _) as [x|] eqn:F; injection R as <- <-; simpl;
    (split; [apply rtc_refl|]); [|done].
  apply find_row_Some in F as (E & id & L). apply String.eqb_eq in E.
  destruct (io_session _ _ Ok _ _ L) as (Id & _). split_and!; [done| |done]. by rewrite Id.
Qed.

Lemma revoke_triple (P : ident_db → Prop) now id :
  ident_triple P (on_db (RevokeSession now id))
    (λ _ d', ∃ d x, P d ∧ sessions d !! id = Some x ∧
       d' = with_sessions (insert id (revoked now x)) d).
Proof.
  apply ident_call. intros d r d' Ok Pd R. split; [right; by eapply st_revoke|].
  apply RevokeSession_run in R as [(-> & _)|(x & -> & L & ->)]; [done|]. eauto.
Qed.

(** A call that only takes a step. *)
Lemma step_triple {A} (P : ident_db → Prop) (c : M ident_db IdentError A) :
  (∀ d r d', P d → c d = (r, d') → ident_step_with i Mint d d') → ident_triple P (on_db c) (λ _ _, True).
Proof.
  intros S. apply ident_call. intros d r d' Ok Pd R. split; [right; by eapply S|]. by destruct r.
Qed.

Lemma audit_triple (P : ident_db → Prop) now actor action ty id m :
  (∀ d r, P d → P (with_audit r d)) →
  ident_triple P (audit now actor action ty id m) (λ _ d, P d).
Proof.
  intros K. unfold audit, RecordAudit. eapply ident_bind; [apply triple_ensure|intros []].
  eapply ident_bind; [apply triple_ensure|intros []].
  apply ident_call. intros d r d' Ok [[Pd _] _] R. split; [right; by eapply st_audit|].
  apply InsertAudit_run in R as [-> ->]. by apply K.
Qed.

Lemma ident_publish_triple (P : ident_db → Prop) c fresh ty agg tenant actor p :
  ident_triple P (publish s c fresh ty agg tenant actor p) (λ _ d, P d).
Proof.
  apply triple_pure. intros w r w' _ Pw R. unfold publish in R.
  destruct (sv_publisher s) as [broker|]; [|by injection R as <- <-].
  apply bind_inv in R as [(e & Q & ->)|(e & w1 & Q & R)];
    apply from_option_inv in Q as [-> Q]; [done|].
  apply bind_inv in R as [(e' & Q' & ->)|([] & w1 & Q' & R)];
    apply ensure_inv in Q' as [-> Q']; [done|]. by injection R as <- <-.
Qed.

(** ** The issuer *)

(** The bound [issue] is given: none, or that of a session just revoked. *)
Definition bound_given (now : time) (u : User) (absolute : time) (d : ident_db) : Prop :=
  is_zero absolute = true ∨
  ∃ o, sessions d !! se_ID o = Some o ∧ se_UserID o = u_ID u ∧ is_Some (se_RevokedAt o) ∧
    absolute = se_AbsoluteExpiresAt o ∧ now < se_AbsoluteExpiresAt o.

Lemma issue_triple (P : ident_db → Prop) now fresh random u device ip absolute :
  (∀ d, P d → loaded u d ∧ bound_given now u absolute d ∧
     ∀ token, Mint now d (new_session i now fresh token u device ip absolute)) →
  ident_triple P (issue i now fresh random u device ip absolute) (λ _ _, True).
Proof.
  intros I. unfold issue. eapply ident_bind; [apply triple_ensure|intros []].
  eapply (ident_bind _ _ (λ _ d, P d ∧ verificationRefused now u (is_verificationGrace i) = false)).
  { apply triple_pure. intros w r w' _ [Pd N] R. injection R as <- <-.
    by apply negb_true_iff in N. }
  intros [tenant roles]. eapply ident_bind.
  { apply step_triple. intros d r d' [Pd N] R. destruct (I d Pd) as ((row & L & Eu) & Bg & Bs).
    refine (st_session _ _ _ now _ r d' _ _ (Bs _) R).
    - exists row. split; [done|]. by rewrite Eu in N.
    - unfold bounded, inherited. cbn [new_session se_AbsoluteExpiresAt se_UserID].
      destruct Bg as [->|(o & Lo & Uo & Ro & Ao & Lt)]; [by left|].
      destruct (is_zero absolute); [by left|]. right. exists o. by split_and!. }
  intros []. eapply ident_bind; [apply triple_option|intros signed].
  by apply triple_ret.
Qed.

(** A session that could be refreshed, with its account. *)
Definition refreshable (now : time) (x : Session) (u : User) (d : ident_db) : Prop :=
  sessions d !! se_ID x = Some x ∧ se_RevokedAt x = None ∧ now < se_ExpiresAt x ∧
  now < se_AbsoluteExpiresAt x ∧ loaded u d ∧ u_ID u = se_UserID x ∧ u_Status u = "active" ∧
  verificationRefused now u (is_verificationGrace i) = false.

Lemma refresh_checks_triple (P : ident_db → Prop) now token :
  ident_triple P (refresh_checks i now token)
    (λ xu d, P d ∧ refreshable now xu.1 xu.2 d ∧
       se_RefreshTokenHash xu.1 = RefreshTokenHash i token).
Proof.
  unfold refresh_checks. eapply ident_bind; [apply triple_ensure|intros []].
  eapply ident_bind; [apply session_triple|intros x].
  do 3 (eapply ident_bind; [apply triple_ensure|intros []]).
  eapply ident_bind; [apply GetUser_triple|intros u].
  do 2 (eapply ident_bind; [apply triple_ensure|intros []]).
  apply triple_ret. intros d Pd. unfold refreshable. cbn [fst snd]. props. done.
Qed.

(** A rotation mints only a session that inherits its bound, at any time but before the
    zero instant of Go, which [issue] takes for no bound. *)
Definition rotations (now : time) : Prop :=
  ∀ d x, (zero_time <= now → inherited now d x) → Mint now d x.

Lemma Refresh_triple now fresh random token : rotations now →
  ident_triple (λ _, True) (Refresh i now fresh random token) (λ _ _, True).
Proof.
  intros Rot. unfold Refresh. eapply ident_bind; [apply refresh_checks_triple|intros [x u]].
  unfold refresh_rotate. eapply ident_bind; [apply revoke_triple|intros []].
  eapply ident_bind; [|intros resp; by apply triple_ret].
  apply issue_triple. cbn [fst snd]. intros d' (d & x' & (_ & (L & _ & _ & Lt & (row & Lu & Eu) & Id & _) & _) & L' & ->).
  rewrite L in L'. injection L' as <-.
  assert (Lr : sessions (with_sessions (insert (se_ID x) (revoked now x)) d) !! se_ID (revoked now x) = Some (revoked now x))
    by (cbn [revoked se_ID sessions with_sessions]; by rewrite lookup_insert_eq).
  split; [by exists row|]. split; [right; exists (revoked now x); by split_and!|].
  intros fresh_token. apply Rot. intros Z. exists (revoked now x).
  cbn [new_session se_UserID se_AbsoluteExpiresAt revoked se_RevokedAt].
  assert (is_zero (se_AbsoluteExpiresAt x) = false) as -> by (apply bool_decide_eq_false; lia).
  by split_and!.
Qed.

(** ** The handlers *)

Lemma checkPasswordBreach_triple (P : ident_db → Prop) password :
  ident_triple P (checkPasswordBreach s password) (λ _ d, P d).
Proof.
  apply triple_pure. unfold checkPasswordBreach. intros w r w' _ Pw R.
  destruct (sv_breacher s) as [breached|]; [|by injection R as <- <-].
  destruct (_ || _); [by injection R as <- <-|].
  destruct (breached password) as [e|[]]; [destruct (sv_breachFailClosed s)|..];
    by injection R as <- <-.
Qed.

Lemma verify_password_triple (P : ident_db → Prop) password encoded :
  ident_triple P (verify_password password encoded) (λ _ d, P d).
Proof.
  apply triple_pure. unfold verify_password, from_sum. intros w r w' _ Pw [= <- <-]. by destruct (VerifyPassword password encoded).
Qed.

Lemma issueVerificationToken_triple now fresh random u channel via :
  ident_triple (λ _, True) (issueVerificationToken s now fresh random u channel via) (λ _ _, True).
Proof.
  unfold issueVerificationToken. eapply ident_bind.
  { apply step_triple. intros d r d' _ R. by eapply st_token. }
  intros []. eapply ident_bind; [by apply audit_triple|]. intros []. by apply triple_ret.
Qed.

Lemma issueChannel_triple c k u channel :
  ident_triple (λ _, True) (issueChannel s c k u channel) (λ _ _, True).
Proof.
  eapply ident_bind; [apply issueVerificationToken_triple|]. intros [raw expires]. by apply triple_ret.
Qed.

Lemma note_triple (P : ident_db → Prop) now id note : (∀ d r, P d → P (with_audit r d)) →
  ident_triple P (if String.eqb note "" then mret tt else auditBreachNote now id note)
    (λ _ d, P d).
Proof.
  intros K. destruct (String.eqb note ""); [by apply triple_ret|]. by apply audit_triple.
Qed.

Lemma loaded_audit u d r : loaded u d → loaded u (with_audit r d).
Proof. done. Qed.

Lemma ChangePassword_triple c id current new :
  ident_triple (λ _, True) (ChangePassword s c id current new) (λ _ _, True).
Proof.
  unfold ChangePassword. eapply ident_bind; [apply GetUser_triple|intros u].
  eapply ident_bind; [apply verify_password_triple|intros ok].
  eapply ident_bind; [apply triple_ensure|intros []].
  eapply ident_bind; [apply checkPasswordBreach_triple|intros note].
  eapply ident_bind; [by apply note_triple|intros []].
  eapply ident_bind; [apply triple_sum|intros hash].
  eapply ident_bind; [apply step_triple; intros; by eapply st_password|intros []].
  eapply ident_bind; [apply step_triple; intros; by eapply st_revoke_user|intros n].
  by apply audit_triple.
Qed.

Lemma RefreshTokens_triple c token : rotations (ic_now c) →
  ident_triple (λ _, True) (RefreshTokens s c token) (λ _ _, True).
Proof.
  intros Rot. unfold RefreshTokens. eapply ident_bind; [by apply Refresh_triple|intros [resp previous]].
  eapply ident_bind; [by apply audit_triple|intros []]. by apply triple_ret.
Qed.

Lemma Logout_triple c id actor : ident_triple (λ _, True) (Logout c id actor) (λ _ _, True).
Proof.
  unfold Logout, Revoke. eapply (ident_bind _ _ (λ _ _, True)).
  { apply triple_wrap. intros w r w' Ok _ R.
    apply (step_triple (λ _, True) (RevokeSession (ic_now c) id)) in R; try done.
    intros; by eapply st_revoke. }
  intros []. by apply audit_triple.
Qed.

Lemma LogoutByRefreshToken_triple c token actor :
  ident_triple (λ _, True) (LogoutByRefreshToken s c token actor) (λ _ _, True).
Proof.
  unfold LogoutByRefreshToken. eapply ident_bind; [apply triple_ensure|intros []].
  eapply ident_bind; [apply session_triple|intros x].
  eapply ident_bind; [apply triple_ensure|intros []].
  eapply ident_bind; [apply step_triple; intros; by eapply st_revoke|intros []].
  by apply audit_triple.
Qed.

Lemma RevokeSession_triple c userID id actor :
  ident_triple (λ _, True) (Ident_RevokeSession c userID id actor) (λ _ _, True).
Proof.
  unfold Ident_RevokeSession. eapply (ident_bind _ _ (λ _ _, True)).
  { apply triple_wrap. intros w r w' _ _ R. unfold on_db, zoom, GetSessionByID in R.
    unfold_run R. destruct (sessions _ !! id); injection R as <- <-; (split; [apply rtc_refl|done]). }
  intros x. eapply ident_bind; [apply triple_ensure|intros []].
  eapply (ident_bind _ _ (λ _ _, True)).
  { apply triple_wrap. intros w r w' Ok _ R.
    apply (step_triple (λ _, True) (RevokeSession (ic_now c) id)) in R; try done.
    intros; by eapply st_revoke. }
  intros []. by apply audit_triple.
Qed.

Lemma RevokeAllSessions_triple c userID actor :
  ident_triple (λ _, True) (RevokeAllSessions c userID actor) (λ _ _, True).
Proof.
  unfold RevokeAllSessions.
  eapply ident_bind; [apply step_triple; intros; by eapply st_revoke_user|intros n].
  eapply ident_bind; [by apply audit_triple|intros []]. by apply triple_ret.
Qed.

Lemma Verify_triple c token : ident_triple (λ _, True) (Verify s c token) (λ _ _, True).
Proof.
  unfold Verify. eapply ident_bind; [apply triple_ensure|intros []].
  eapply (ident_bind _ _ (λ t d, verification_tokens d !! vt_ID t = Some t)).
  { apply triple_wrap. intros w r w' Ok _ R. unfold on_db, zoom, GetVerificationTokenByHash in R.
    unfold_run R. destruct (find_row _ _) as [t|] eqn:F; injection R as <- <-;
      (split; [apply rtc_refl|]); [|done].
    apply find_row_Some in F as (_ & id & L). destruct (io_token _ _ Ok _ _ L) as [Id _].
    simpl. by rewrite Id. }
  intros t. eapply ident_bind; [apply triple_ensure|intros []].
  eapply (ident_bind _ _ (λ _ _, True)).
  { apply triple_wrap. intros w r w' Ok [L G] R.
    apply (step_triple (λ d, verification_tokens d !! vt_ID t = Some t)
             (ConsumeVerificationToken (vt_ID t) (vt_UserID t) (vt_Channel t) (ic_now c))) in R;
      [done| |done|done].
    intros d x d' L' R'. eapply st_consume; [exact L'|done|done| |exact R']. by props. }
  intros []. eapply ident_bind; [by apply audit_triple|intros []]. by apply triple_ret.
Qed.

Lemma ResendVerification_triple c email channel :
  ident_triple (λ _, True) (ResendVerification s c email channel) (λ _ _, True).
Proof.
  unfold ResendVerification. do 2 (eapply ident_bind; [apply triple_ensure|intros []]).
  eapply (ident_bind _ _ (λ _ _, True)).
  { apply triple_pure. intros w r w' Ok _ R. unfold try, on_db, zoom in R.
    destruct (GetUserByEmail _ (iw_db w)) as [x d1] eqn:G. injection R as <- <-.
    by apply GetUserByEmail_inv in G as [-> _]. }
  intros [e|u].
  - destruct (isNotFound e); [by apply triple_ret|].
    apply triple_pure. intros w r w' _ _ R. by injection R as <- <-.
  - destruct (nothing_to_verify u _); [by apply triple_ret|].
    eapply (ident_bind _ _ (λ _ _, True)).
    { apply triple_pure. intros [d ev] r w' _ _ R. by injection R as <- <-. }
    intros [count latest]. eapply (ident_bind _ _ (λ _ _, True)).
    { unfold resend_guard. eapply ident_bind; [apply triple_ensure|intros []].
      eapply triple_weaken; [apply (triple_ensure _ _ _ (λ _, True))|done|done]. }
    intros []. eapply ident_bind; [apply issueVerificationToken_triple|intros [raw expires]].
    by apply triple_ret.
Qed.

Lemma AssignRole_triple quote c userID role tenant actor :
  ident_triple (λ _, True) (Ident_AssignRole s quote c userID role tenant actor) (λ _ _, True).
Proof.
  unfold Ident_AssignRole.
  eapply ident_bind; [apply step_triple; intros; by eapply st_role|intros []].
  eapply ident_bind; [by apply audit_triple|intros []]. apply ident_publish_triple.
Qed.

Lemma ListUsersForAdmin_triple c actor tenant limit offset :
  ident_triple (λ _, True) (ListUsersForAdmin c actor tenant limit offset) (λ _ _, True).
Proof.
  unfold ListUsersForAdmin. eapply (ident_bind _ _ (λ _ _, True)).
  { apply triple_pure. intros w r w' _ _ R. unfold Ident_ListUsers, on_db, zoom, ListUsers in R.
    unfold_run R. destruct (page _ _ _); by injection R as <- <-. }
  intros us. unfold RecordAudit. eapply (ident_bind _ _ (λ _ _, True)).
  { do 2 (eapply ident_bind; [apply triple_ensure|intros []]).
    apply step_triple. intros; by eapply st_audit. }
  intros []. by apply triple_ret.
Qed.

End Refine.

(** ** The handlers that begin a session *)

Section Logins.
Context `{CaseMapping} `{Jwt} `{UuidText} `{Argon2}.
Context (s : Service).

Abbreviation ident_triple := (triple iw_db (ident_ok (sv_issuer s)) (ident_step (sv_issuer s))) (only parsing).

Lemma any_rotation now : rotations (Mint := λ _ _ _, True) now.
Proof. done. Qed.

Lemma Register_triple c email phone password name device ip :
  ident_triple (λ _, True) (Register s c email phone password name device ip) (λ _ _, True).
Proof.
  unfold Register. eapply ident_bind; [apply triple_ensure|intros []].
  eapply ident_bind; [apply checkPasswordBreach_triple|intros note].
  eapply ident_bind; [apply triple_sum|intros hash].
  eapply (ident_bind _ _ _ loaded).
  { apply ident_call. intros d r d' _ _ R. split; [right; eapply st_user; [| |exact R]; done|].
    apply CreateUser_run in R as [[(e & ->) _]|(-> & _ & _ & _ & _ & _ & ->)]; [done| |done].
    eexists. cbn [users with_role with_users]. rewrite lookup_insert_eq. split; [done|].
    unfold created_user, with_roles, scanUser, new_user_row. simpl. f_equal.
    unfold nullif_empty. by destruct (String.eqb_spec (TrimSpace (TrimSpace phone)) "") as [->|]. }
  intros u. eapply ident_bind; [by apply note_triple|intros []].
  eapply ident_bind.
  { apply issue_triple. intros d L. split; [exact L|]. split; [by left|done]. }
  intros resp. eapply ident_bind; [by apply audit_triple|intros []].
  eapply ident_bind; [apply issueChannel_triple|intros echoes].
  eapply (ident_bind _ _ _ (λ _ _, True)).
  { destruct (String.eqb (u_Phone u) ""); [by apply triple_ret|]. apply issueChannel_triple. }
  intros more. eapply ident_bind; [apply ident_publish_triple|intros []]. by apply triple_ret.
Qed.

Lemma Login_triple c email password device ip :
  ident_triple (λ _, True) (Login s c email password device ip) (λ _ _, True).
Proof.
  unfold Login. eapply ident_bind; [apply GetUserByEmail_triple|intros u].
  eapply ident_bind; [apply verify_password_triple|intros ok].
  do 2 (eapply ident_bind; [apply triple_ensure|intros []]).
  eapply ident_bind.
  { apply issue_triple. intros d (((_ & L) & _) & _). split; [exact L|]. split; [by left|done]. }
  intros resp. eapply ident_bind; [by apply audit_triple|intros []]. by apply triple_ret.
Qed.

End Logins.

(** * What the identity service guarantees

    Rows that never change, what a session and a verified channel go back to, tokens
    that are dead for good, and the outcomes of refreshing, logging in, changing a
    password and resending a verification. *)

Section Props.
Context `{CaseMapping} `{Jwt} `{UuidText} `{Argon2}.
Context (s : Service).

Abbreviation i := (sv_issuer s) (only parsing).
Abbreviation reachable := (ident_reachable i) (only parsing).
Abbreviation steps := (ident_steps i) (only parsing).

(** The identity service refines its abstract steps: every handler, whether it
    succeeds, fails half way or is refused, leads from a reachable database to a
    reachable one. *)
Theorem identity_refines_steps w (R : reachable (iw_db w)) :
  (∀ c email phone password name device ip,
     reachable (iw_db (Register s c email phone password name device ip w).2)) ∧
  (∀ c email password device ip, reachable (iw_db (Login s c email password device ip w).2)) ∧
  (∀ c token, reachable (iw_db (RefreshTokens s c token w).2)) ∧
  (∀ c id current new, reachable (iw_db (ChangePassword s c id current new w).2)) ∧
  (∀ c id actor, reachable (iw_db (Logout c id actor w).2)) ∧
  (∀ c token actor, reachable (iw_db (LogoutByRefreshToken s c token actor w).2)) ∧
  (∀ c user id actor, reachable (iw_db (Ident_RevokeSession c user id actor w).2)) ∧
  (∀ c user actor, reachable (iw_db (RevokeAllSessions c user actor w).2)) ∧
  (∀ c token, reachable (iw_db (Verify s c token w).2)) ∧
  (∀ c email channel, reachable (iw_db (ResendVerification s c email channel w).2)) ∧
  (∀ quote c user role tenant actor,
     reachable (iw_db (Ident_AssignRole s quote c user role tenant actor w).2)) ∧
  (∀ c actor tenant limit offset,
     reachable (iw_db (ListUsersForAdmin c actor tenant limit offset w).2)).
Proof.
  apply ident_reachable_ok in R as Ok.
  assert (∀ A (c : M ident_world IdentError A) (Q : A → ident_db → Prop),
    triple iw_db (ident_ok i) (ident_step i) (λ _, True) c Q → reachable (iw_db (c w).2)) as Go.
  { intros A c Q T. unfold ident_reachable, ident_steps. etrans; [exact R|].
    by apply (triple_steps iw_db (ident_ok i) (ident_step i) _ c _ w T). }
  split_and!; intros; eapply Go; eauto using any_rotation, Register_triple, Login_triple, RefreshTokens_triple,
    ChangePassword_triple, Logout_triple, LogoutByRefreshToken_triple, RevokeSession_triple,
    RevokeAllSessions_triple, Verify_triple, ResendVerification_triple, AssignRole_triple,
    ListUsersForAdmin_triple.
Qed.

(** Whatever follows, no account, session, token, grant or audit row disappears;
    an account keeps its email, phone, status and verification stamps, a session its
    account, token digest and both bounds, and stays revoked once it is; a consumed
    token stays consumed; the grants and the audit log only grow. *)
Theorem identity_rows_kept d d' (R : reachable d) (S : steps d d') : grows d d'.
Proof. by apply (ident_steps_spec i d d' (ident_reachable_ok _ _ R)). Qed.

(** C24. A reachable database has a history of the sessions that logins have minted (with
    a registration, the first one). Every refresh session belongs to an active account that
    was verified or within its grace when the session was minted, or has been verified
    since; it goes back to one of those logins, of that account, whose instant fixed its
    absolute bound; and its token digest is its alone. A refresh, also one that fails, adds
    no login: what it mints inherits the bound of a revoked session of the account, so no
    rotation extends it. *)
Theorem sessions_accounted d (R : reachable d) :
  (∃ L, history i L d) ∧ ∀ L, history i L d →
  (∀ id x, sessions d !! id = Some x →
     se_ID x = id ∧
     (∃ u, users d !! se_UserID x = Some u ∧ ur_status u = "active" ∧
        verificationRefused (se_CreatedAt x) (scanUser u) (is_verificationGrace i) = false) ∧
     (∃ login, sessions d !! se_ID login = Some login ∧ se_ID login ∈ L ∧
        se_UserID login = se_UserID x ∧
        se_AbsoluteExpiresAt x = timestamptz (se_CreatedAt login + is_absoluteTTL i) ∧
        (se_ID login = id ∨ se_CreatedAt x < se_AbsoluteExpiresAt x)) ∧
     ∀ id' y, sessions d !! id' = Some y → se_RefreshTokenHash y = se_RefreshTokenHash x → y = x) ∧
  ∀ ev c token, zero_time <= ic_now c →
    history i L (iw_db (RefreshTokens s c token (mkIdentWorld d ev)).2).
Proof.
  split; [by apply reachable_history|]. intros L Hs. apply ident_reachable_ok in R as Ok. split.
  - intros id x Lx. destruct (io_session _ _ Ok _ _ Lx) as (Id & _ & u & Lu & V).
    destruct (io_user _ _ Ok _ _ Lu) as [_ St]. split; [done|]. split; [by exists u|]. split.
    + destruct (history_logged _ _ _ Hs _ _ Lx) as (r & Lr & I & U & A & C). exists r. rewrite <-Id. done.
    + intros id' y L' E. assert (id' = id) as -> by by eapply io_hash.
      rewrite Lx in L'. by injection L'.
  - intros ev c token Z. eapply history_steps; [exact Hs|].
    eapply (triple_steps iw_db (ident_ok i) (ident_step_with i inherited) _ _ _ (mkIdentWorld d ev));
      [by apply RefreshTokens_triple; intros d' x In; apply In|exact Ok|done].
Qed.

(** ** Dead tokens *)

Lemma find_session d x : ident_ok i d → sessions d !! se_ID x = Some x →
  GetSessionByRefreshHash (se_RefreshTokenHash x) d = (inr x, d).
Proof.
  intros Ok L. unfold GetSessionByRefreshHash. unfold_run_goal.
  rewrite (find_row_unique _ _ _ x L); [done|by rewrite String.eqb_refl|].
  intros id' y L' E%String.eqb_eq. assert (id' = se_ID x) as -> by by eapply io_hash.
  rewrite L in L'. by injection L'.
Qed.

(** C26. A refresh token is dead for good once its session is revoked, by a rotation,
    a logout, a password change or a sweep: in every database that follows, refreshing
    with it and logging out with it are refused, and nothing changes. *)
Theorem revoked_token_dead d d' ev c actor token x (R : reachable d) (S : steps d d')
    (L : sessions d !! se_ID x = Some x) (Rv : is_Some (se_RevokedAt x))
    (Tk : se_RefreshTokenHash x = TokenHash i token) (Ne : TrimSpace token ≠ "") :
  RefreshTokens s c token (mkIdentWorld d' ev) = (inl invalid_refresh, mkIdentWorld d' ev) ∧
  LogoutByRefreshToken s c token actor (mkIdentWorld d' ev) =
    (inl invalidLogin, mkIdentWorld d' ev).
Proof.
  apply ident_reachable_ok in R as Ok. destruct (ident_steps_spec i d d' Ok S) as [Ok' G].
  destruct (gr_sessions _ _ G _ _ L) as (x' & L' & [E K]).
  assert (se_ID x' = se_ID x ∧ se_RefreshTokenHash x' = se_RefreshTokenHash x) as [Id Hs]
    by (by rewrite E).
  assert (bool_decide (se_RevokedAt x' = None) = false) as Dead
    by (apply bool_decide_eq_false, not_eq_None_Some, K, Rv).
  assert (on_db (GetSessionByRefreshHash (RefreshTokenHash i token)) (mkIdentWorld d' ev) =
          (inr x', mkIdentWorld d' ev)) as F.
  { unfold on_db, zoom, RefreshTokenHash. cbn [iw_db iw_events].
    rewrite <-Tk, <-Hs, find_session; [done..|by rewrite Id]. }
  assert (String.eqb token "" = false) as N1 by (apply String.eqb_neq; by intros ->).
  assert (String.eqb (TrimSpace token) "" = false) as N2 by by apply String.eqb_neq.
  split.
  - unfold RefreshTokens, Refresh, refresh_checks, not_found_as, wrap. rewrite N1.
    unfold mbind, M_bind. cbn [negb ensure mret M_ret]. rewrite F. cbn. rewrite Dead. done.
  - unfold LogoutByRefreshToken, not_found_as, wrap. rewrite N2.
    unfold mbind, M_bind. cbn [negb ensure mret M_ret]. rewrite F. cbn. rewrite Dead. done.
Qed.

(** ** Issuing *)

Lemma audit_run now actor action ty id m w : action ≠ "" → ty ≠ "" → id ≠ "" →
  audit now actor action ty id m w =
  (inr tt, mkIdentWorld (with_audit (audit_row now
     (mkAuditEntry (nil_as_none actor) action ty id None m) (iw_db w)) (iw_db w)) (iw_events w)).
Proof.
  intros A T I. unfold audit, RecordAudit. cbn [ae_Action ae_ObjectType ae_ObjectID].
  destruct (String.eqb_spec action ""), (String.eqb_spec ty ""), (String.eqb_spec id ""); done.
Qed.

(** The claims of an access token of [u] for the session [sid]. *)
Definition claims_of (d : ident_db) (u : User) (sid : uuid) (now : time) : MapClaims :=
  let grants := grants_of (u_ID u) d in
  AccessClaims i (uuid_string (u_ID u)) (best_tenant (-1) "" grants) (rolesFromGrants grants)
    (uuid_string sid) now (now + is_accessTTL i).

(** The row of a new session. *)
Definition minted (now : time) (fresh : uuid) (random : list N) (u : User) (device ip : string)
    (absolute : time) : Session :=
  session_row now (new_session i now fresh (newOpaqueToken random) u device ip absolute).

Lemma issue_inv now fresh random u device ip absolute w r w' :
  issue i now fresh random u device ip absolute w = (r, w') →
  (∃ e, r = inl e) ∧ w' = w ∨
  verificationRefused now u (is_verificationGrace i) = false ∧
  sessions (iw_db w) !! fresh = None ∧
  w' = mkIdentWorld (with_sessions (insert fresh (minted now fresh random u device ip absolute))
                       (iw_db w)) (iw_events w) ∧
  match r with
  | inr resp => ∃ signed, sign i (claims_of (iw_db w) u fresh now) = Some signed ∧
      resp = mkAccessResponse signed (newOpaqueToken random) (now + is_accessTTL i) []
  | inl e => e = ErrOther ∧ sign i (claims_of (iw_db w) u fresh now) = None
  end.
Proof.
  destruct w as [d ev]. unfold issue. intros [(e & Q & ->)|([] & w1 & Q & R)]%bind_inv;
    apply ensure_inv in Q as [-> Q]; [eauto|].
  destruct Q as [[Nr _]|[_ Q]]; [|discriminate Q]. apply negb_true_iff in Nr.
  apply bind_inv in R as [(e & Q & ->)|([tenant roles] & w1 & Q & R)]; [discriminate Q|].
  injection Q as <- <- <-.
  apply bind_inv in R as [(e & Q & ->)|([] & w1 & Q & R)]; unfold on_db, zoom in Q;
    cbn [iw_db iw_events] in Q; destruct (CreateSession _ _ d) as [x d1] eqn:Cs;
    apply mint_session_run in Cs as [[[e' ->] ->]|(-> & N & _ & _ & ->)]; try discriminate Q.
  - injection Q as <- <-. left. eauto.
  - injection Q as <-. right. cbn [iw_db iw_events new_session se_ID] in *.
    apply bind_inv in R as [(e & Q & ->)|(signed & w1 & Q & R)];
      apply from_option_inv in Q as [-> Q].
    + destruct Q as [(a & _ & Q)|[Sg Q]]; [discriminate Q|]. injection Q as <-. done.
    + injection R as <- <-. destruct Q as [(a & Sg & Q)|[_ Q]]; [|discriminate Q].
      injection Q as <-. split_and!; try done. by eexists.
Qed.

(** When the new session finds its place, it is minted. *)
Lemma issue_ok now fresh random u device ip absolute w signed :
  verificationRefused now u (is_verificationGrace i) = false →
  sessions (iw_db w) !! fresh = None →
  (∀ id o, sessions (iw_db w) !! id = Some o →
     se_RefreshTokenHash o ≠ TokenHash i (newOpaqueToken random)) →
  is_Some (users (iw_db w) !! u_ID u) →
  sign i (claims_of (iw_db w) u fresh now) = Some signed →
  issue i now fresh random u device ip absolute w =
  (inr (mkAccessResponse signed (newOpaqueToken random) (now + is_accessTTL i) []),
   mkIdentWorld (with_sessions (insert fresh (minted now fresh random u device ip absolute))
                   (iw_db w)) (iw_events w)).
Proof.
  destruct w as [d ev]. cbn [iw_db iw_events]. intros Nr N U [row L] Sg. unfold issue.
  ok_ensure; [|by rewrite Nr]. cbv beta.
  rewrite (bind_ok _ _ _ (best_tenant (-1) "" (grants_of (u_ID u) d),
    rolesFromGrants (grants_of (u_ID u) d)) (mkIdentWorld d ev)) by done. cbv beta iota.
  assert (CreateSession now (new_session i now fresh (newOpaqueToken random) u device ip absolute) d =
    (inr tt, with_sessions (insert fresh (minted now fresh random u device ip absolute)) d)) as Cs.
  { unfold CreateSession. ok_get. cbn [new_session se_ID se_RefreshTokenHash se_UserID].
    ok_ensure; [|rewrite !bool_decide_eq_true_2; [done| |done]].
    - ok_ensure; [done|]. by apply has_user_spec.
    - destruct (find_row _ _) as [o|] eqn:F; [|done]. exfalso.
      apply find_row_Some in F as (E%String.eqb_eq & id & Lo). by apply (U id o). }
  erewrite (bind_ok _ _ _ tt); [|unfold on_db, zoom; cbn [iw_db iw_events]; by rewrite Cs].
  erewrite bind_ok; [|by apply option_ok]. done.
Qed.

End Props.
