(* ===== verification/IdentFlows.v ===== *)
(** * IdentFlows: the outcomes of the identity handlers

    Refreshing, alone and overlapped by other calls, logging in, changing a password,
    verifying a channel and asking for another token; which role and tenant an access
    token names, and when another verification token is issued. *)

From S2P Require Import Prelude Hoare Text Sha256 Platform Sql Wire Base64 IdentPassword.
From S2P Require Import IdentModels IdentStore IdentService IdentInvariant IdentProps.

Open Scope Z_scope.

Section Flows.
Context `{CaseMapping} `{Jwt} `{UuidText} `{Argon2}.
Context (s : Service).

Abbreviation i := (sv_issuer s) (only parsing).
Abbreviation reachable := (ident_reachable i) (only parsing).
Abbreviation steps := (ident_steps i) (only parsing).

(** A database of a world, with an audit row of a handler. *)
Definition audited (now : time) (actor : uuid) (action ty : string) (id : uuid)
    (m : option (gmap string meta)) (d : ident_db) : ident_db :=
  with_audit (audit_row now (mkAuditEntry (nil_as_none actor) action ty (uuid_string id) None m) d) d.

Lemma audit_eq now actor action ty id m d ev : action ≠ "" → ty ≠ "" →
  audit now actor action ty (uuid_string id) m (mkIdentWorld d ev) =
  (inr tt, mkIdentWorld (audited now actor action ty id m d) ev).
Proof. intros A T. rewrite audit_run by (try done; apply uuid_string_nonempty). done. Qed.

(** ** Refreshing *)

Lemma refresh_checks_reads now token : reads (refresh_checks i now token).
Proof.
  unfold refresh_checks. apply reads_bind; [apply reads_ensure|intros []].
  apply reads_bind; [|intros x].
  { apply reads_wrap, reads_zoom; [by intros []|]. intros d. unfold GetSessionByRefreshHash.
    unfold_run_goal. by destruct (find_row _ _). }
  do 3 (apply reads_bind; [apply reads_ensure|intros []]).
  apply reads_bind; [|intros u].
  { apply reads_wrap, reads_zoom; [by intros []|]. intros d. unfold GetUser.
    unfold_run_goal. by destruct (users d !! _). }
  do 2 (apply reads_bind; [apply reads_ensure|intros []]). apply reads_ret.
Qed.

Lemma refresh_checks_inv now token w r w' : ident_ok i (iw_db w) →
  refresh_checks i now token w = (r, w') →
  w' = w ∧ match r with
  | inr (x, u) => refreshable s now x u (iw_db w) ∧ se_RefreshTokenHash x = RefreshTokenHash i token
  | inl _ => True
  end.
Proof.
  intros Ok R. pose proof (refresh_checks_reads now token w) as E. rewrite R in E. simpl in E.
  subst w'. split; [done|].
  destruct (refresh_checks_triple s (Mint := λ _ _ _, True) (λ _, True) now token w r w Ok I R) as [_ Post].
  destruct r as [e|[x u]]; [done|]. by destruct Post as (_ & A & B).
Qed.

(** The database after a rotation. *)
Definition rotated (now : time) (fresh : uuid) (random : list N) (x : Session) (u : User)
    (d : ident_db) : ident_db :=
  with_sessions (insert fresh (minted s now fresh random u (se_DeviceName x) (se_IPAddress x)
                                 (se_AbsoluteExpiresAt x)))
    (with_sessions (insert (se_ID x) (revoked now x)) d).

Lemma claims_of_sessions f d u sid now : claims_of s (with_sessions f d) u sid now = claims_of s d u sid now.
Proof. done. Qed.

(** C25. A refresh exchanges the token for a new one exactly once: on success the
    presented session was live, within both of its bounds and of an active account;
    it is now revoked, the new session lives under the same absolute bound, the access
    token is signed over the claims of the account, and the audit log has one more row.
    On an error nothing changed, or the presented session is already revoked: the new
    identifier or token was taken, or the new session is there and its access token
    could not be signed. *)
Theorem refresh_outcomes c token w r w' (R : reachable (iw_db w))
    (Run : RefreshTokens s c token w = (r, w')) :
  match r with
  | inr resp => ∃ x u signed, refreshable s (ic_now c) x u (iw_db w) ∧
      se_RefreshTokenHash x = TokenHash i token ∧
      sign i (claims_of s (iw_db w) u (ic_fresh c 0) (ic_now c)) = Some signed ∧
      resp = mkAccessResponse signed (newOpaqueToken (ic_random c 0)) (ic_now c + is_accessTTL i) [] ∧
      w' = mkIdentWorld (audited (ic_now c) (se_UserID x) ActionSessionRefreshed "session" (se_ID x)
             (Some (device_meta (se_DeviceName x) (se_IPAddress x)))
             (rotated (ic_now c) (ic_fresh c 0) (ic_random c 0) x u (iw_db w))) (iw_events w)
  | inl e => w' = w ∨
      ∃ x u, refreshable s (ic_now c) x u (iw_db w) ∧
      se_RefreshTokenHash x = TokenHash i token ∧
      (w' = mkIdentWorld (with_sessions (insert (se_ID x) (revoked (ic_now c) x)) (iw_db w))
              (iw_events w) ∨
       e = ErrOther ∧ sign i (claims_of s (iw_db w) u (ic_fresh c 0) (ic_now c)) = None ∧
       w' = mkIdentWorld (rotated (ic_now c) (ic_fresh c 0) (ic_random c 0) x u (iw_db w))
              (iw_events w))
  end.
Proof.
  apply ident_reachable_ok in R as Ok. destruct w as [d ev]. cbn [iw_db iw_events] in *.
  unfold RefreshTokens, Refresh in Run.
  apply bind_inv in Run as [(e & Q & ->)|([resp x] & w1 & Q & Run)];
    apply bind_inv in Q as [(e' & Q & E)|([x0 u] & w2 & Q & Rot)];
    apply refresh_checks_inv in Q as [-> Q]; try done; cbn [iw_db] in *.
  - by left.
  - destruct Q as [Rf Hs]. right. exists x0, u. split; [done|]. split; [done|].
    unfold refresh_rotate in Rot. apply bind_inv in Rot as [(e2 & Q & _)|([] & w1 & Q & Rot)].
    + unfold on_db, zoom, RevokeSession in Q. cbn [iw_db] in Q. destruct Rf as (L & _).
      unfold_run Q. rewrite L in Q. discriminate Q.
    + unfold on_db, zoom, RevokeSession in Q. cbn [iw_db iw_events] in Q. pose proof Rf as (L & _).
      unfold_run Q. rewrite L in Q. injection Q as <-.
      apply bind_inv in Rot as [(e2 & Q & E2)|(resp & w1 & Q & Rot)]; [|discriminate Rot].
      injection E2 as ->. apply issue_inv in Q as [[_ ->]|(_ & N & -> & Sg)]; [by left|].
      right. destruct Sg as [-> Sg]. split_and!; [done|exact Sg|done].
  - destruct Q as [Rf Hs]. pose proof Rf as (L & _).
    unfold refresh_rotate in Rot. apply bind_inv in Rot as [(e2 & Q & E)|([] & w2 & Q & Rot)];
      [discriminate E|].
    unfold on_db, zoom, RevokeSession in Q. cbn [iw_db iw_events] in Q.
    unfold_run Q. rewrite L in Q. injection Q as <-.
    apply bind_inv in Rot as [(e2 & Q & E)|(resp' & w2 & Q & Rot)]; [discriminate E|].
    injection Rot as <- <- <-.
    apply issue_inv in Q as [[[e E] _]|(_ & N & -> & signed & Sg & ->)]; [discriminate E|].
    rewrite (bind_ok _ _ _ tt (mkIdentWorld (audited (ic_now c) (se_UserID x0) ActionSessionRefreshed
      "session" (se_ID x0) (Some (device_meta (se_DeviceName x0) (se_IPAddress x0)))
      (rotated (ic_now c) (ic_fresh c 0) (ic_random c 0) x0 u d)) ev)) in Run by by apply audit_eq.
    injection Run as <- <-. exists x0, u, signed. split_and!; try done.
Qed.

(** The checks of a refresh and its writes are separate calls: once the checks
    have passed, the token is exchanged for a live session whatever ran in between,
    another refresh with the same token, a revocation of every session of the account
    or a password change. *)
Theorem stale_refresh_mints now fresh random token w x u w1 d signed
    (R : reachable (iw_db w)) (Ch : refresh_checks i now token w = (inr (x, u), w1))
    (S : steps (iw_db w) d) (N : sessions d !! fresh = None)
    (U : ∀ id o, sessions d !! id = Some o →
       se_RefreshTokenHash o ≠ TokenHash i (newOpaqueToken random))
    (Sg : sign i (claims_of s d u fresh now) = Some signed) :
  ∃ d', refresh_rotate i now fresh random x u (mkIdentWorld d (iw_events w)) =
    (inr (mkAccessResponse signed (newOpaqueToken random) (now + is_accessTTL i) [], x),
     mkIdentWorld d' (iw_events w)) ∧
  ∃ y, sessions d' !! fresh = Some y ∧ se_UserID y = se_UserID x ∧ se_RevokedAt y = None ∧
    se_RefreshTokenHash y = TokenHash i (newOpaqueToken random) ∧
    se_ExpiresAt y = timestamptz (now + is_refreshTTL i).
Proof.
  apply ident_reachable_ok in R as Ok. apply refresh_checks_inv in Ch as [-> [Rf Hs]]; [|done].
  destruct Rf as (L & _ & _ & _ & (row & Lu & Eu) & Id & _ & Nr).
  destruct (ident_steps_spec i _ _ Ok S) as [Ok' G].
  destruct (gr_sessions _ _ G _ _ L) as (x' & L' & Gx & _).
  destruct (gr_users _ _ G _ _ Lu) as (row' & Lu' & _).
  eexists. split.
  - unfold refresh_rotate.
    rewrite (bind_ok _ _ _ tt (mkIdentWorld (with_sessions (insert (se_ID x) (revoked now x')) d)
      (iw_events w))).
    2:{ unfold on_db, zoom, RevokeSession. cbn [iw_db iw_events]. unfold_run_goal. by rewrite L'. }
    erewrite bind_ok; [|eapply issue_ok; cbn [iw_db iw_events sessions with_sessions users];
      [exact Nr| | |by eexists|exact Sg]]; [reflexivity| |].
    + rewrite lookup_insert_ne; [done|]. intros E. by rewrite E, N in L'.
    + intros id o [[<- <-]|[_ Lo]]%lookup_insert_Some; [exact (U _ _ L')|exact (U _ _ Lo)].
  - eexists. cbn [sessions with_sessions]. rewrite lookup_insert_eq. split; [done|].
    by split_and!.
Qed.

(** ** Verifying *)

Definition usable (now : time) (raw : string) (t : VerificationToken) (d : ident_db) : Prop :=
  verification_tokens d !! vt_ID t = Some t ∧ vt_TokenHash t = TokenHash i raw ∧
  vt_ConsumedAt t = None ∧ now < vt_ExpiresAt t.

(** The channel of the token verified. *)
Definition verified (now : time) (t : VerificationToken) (d : ident_db) : ident_db :=
  with_users (alter (mark_verified (vt_Channel t) now) (vt_UserID t))
    (with_tokens (insert (vt_ID t) (consumed now t)) d).

Lemma find_token d t : ident_ok i d → verification_tokens d !! vt_ID t = Some t →
  find_row (λ o, String.eqb (vt_TokenHash o) (vt_TokenHash t)) (verification_tokens d) = Some t.
Proof.
  intros Ok L. eapply find_row_unique; [exact L|by rewrite String.eqb_refl|].
  intros id' y L' E%String.eqb_eq. assert (id' = vt_ID t) as -> by by eapply io_token_hash.
  rewrite L in L'. by injection L'.
Qed.

Lemma Verify_accepts c token t d ev : ident_ok i d → TrimSpace token ≠ "" →
  usable (ic_now c) (TrimSpace token) t d →
  Verify s c token (mkIdentWorld d ev) = (inr (vt_Channel t), mkIdentWorld
    (audited (ic_now c) (vt_UserID t) ActionVerificationVerified "user" (vt_UserID t)
       (Some {["channel" := MText (vt_Channel t)]}) (verified (ic_now c) t d)) ev).
Proof.
  intros Ok Ne%String.eqb_neq (L & Hs & Nc & Lt). unfold Verify. rewrite Ne.
  ok_ensure; [|done]. rewrite (bind_ok _ _ _ t (mkIdentWorld d ev)).
  2:{ unfold not_found_as, wrap, on_db, zoom, GetVerificationTokenByHash. cbn [iw_db iw_events].
      unfold_run_goal. by rewrite <-Hs, find_token. }
  ok_ensure; [|by rewrite bool_decide_eq_true_2, (proj2 (Z.ltb_lt _ _) Lt)].
  destruct (io_token _ _ Ok _ _ L) as (_ & V & _).
  rewrite (bind_ok _ _ _ tt (mkIdentWorld (verified (ic_now c) t d) ev)).
  2:{ unfold wrap, on_db, zoom, ConsumeVerificationToken. cbn [iw_db iw_events].
      unfold_run_goal. rewrite L. rewrite bool_decide_eq_true_2 by done. by rewrite V. }
  erewrite bind_ok; [|by apply audit_eq]. done.
Qed.

Lemma Verify_refuses c token d ev : ident_ok i d → TrimSpace token ≠ "" →
  (¬ ∃ t, usable (ic_now c) (TrimSpace token) t d) →
  Verify s c token (mkIdentWorld d ev) = (inl errInvalidVerificationToken, mkIdentWorld d ev).
Proof.
  intros Ok Ne%String.eqb_neq No. unfold Verify. rewrite Ne.
  set (raw := TrimSpace token) in *. ok_ensure; [|done].
  unfold not_found_as, wrap, on_db, zoom, GetVerificationTokenByHash.
  unfold mbind at 1, M_bind at 1. cbn [iw_db iw_events]. unfold_run_goal.
  destruct (find_row _ _) as [t|] eqn:F; [|done].
  apply find_row_Some in F as (Hs%String.eqb_eq & id & L).
  destruct (io_token _ _ Ok _ _ L) as (Id & _ & _). simpl.
  destruct (bool_decide _ && _) eqn:B; [|done]. props. destruct No. exists t.
  split_and!; [by rewrite Id|done..].
Qed.

(** A run that accepts a token found a usable one. *)
Lemma Verify_found c token channel d ev w' : ident_ok i d →
  Verify s c token (mkIdentWorld d ev) = (inr channel, w') →
  TrimSpace token ≠ "" ∧ ∃ t, usable (ic_now c) (TrimSpace token) t d.
Proof.
  intros Ok Run. unfold Verify in Run. set (raw := TrimSpace token) in *.
  apply bind_inv in Run as [(e & _ & [=])|([] & w1 & Q & Run)].
  apply ensure_inv in Q as [-> [[Ne _]|[_ [=]]]]. split; [by props|].
  apply bind_inv in Run as [(e & _ & [=])|(t & w1 & Q & Run)].
  unfold not_found_as, wrap, on_db, zoom, GetVerificationTokenByHash in Q.
  cbn [iw_db iw_events] in Q. unfold_run Q.
  destruct (find_row _ _) as [t0|] eqn:F; [|discriminate Q]. injection Q as -> <-.
  apply bind_inv in Run as [(e & _ & [=])|([] & w2 & Q & _)].
  apply ensure_inv in Q as [-> [[B _]|[_ [=]]]].
  apply find_row_Some in F as (Hs%String.eqb_eq & id & L).
  destruct (io_token _ _ Ok _ _ L) as (Id & _ & _). exists t. props.
  split_and!; [by rewrite Id|done..].
Qed.

(** Verifying consumes the token exactly when its digest is on record, it was
    not consumed and has not expired: the token is consumed and the channel of its
    account stamped in one transaction, with an audit row. Every other token gets one
    and the same answer and changes nothing. *)
Theorem Verify_outcomes c token d ev (R : reachable d) (Ne : TrimSpace token ≠ "") :
  (∀ t, usable (ic_now c) (TrimSpace token) t d →
     Verify s c token (mkIdentWorld d ev) = (inr (vt_Channel t), mkIdentWorld
       (audited (ic_now c) (vt_UserID t) ActionVerificationVerified "user" (vt_UserID t)
          (Some {["channel" := MText (vt_Channel t)]})
          (verified (ic_now c) t d)) ev)) ∧
  ((¬ ∃ t, usable (ic_now c) (TrimSpace token) t d) →
     Verify s c token (mkIdentWorld d ev) = (inl errInvalidVerificationToken, mkIdentWorld d ev)).
Proof.
  apply ident_reachable_ok in R as Ok.
  split; intros; [by apply Verify_accepts|by apply Verify_refuses].
Qed.

(** A verification token works once: after it was accepted, in every database
    that follows and at any instant, it is refused and nothing changes. *)
Theorem verification_single_use c c' token channel d w' d' ev ev' (R : reachable d)
    (Run : Verify s c token (mkIdentWorld d ev) = (inr channel, w')) (S : steps (iw_db w') d') :
  Verify s c' token (mkIdentWorld d' ev') =
  (inl errInvalidVerificationToken, mkIdentWorld d' ev').
Proof.
  apply ident_reachable_ok in R as Ok.
  destruct (Verify_found _ _ _ _ _ _ Ok Run) as (Ne & t & U).
  pose proof (triple_steps iw_db (ident_ok i) (ident_step i) _ _ _ (mkIdentWorld d ev)
    (Verify_triple s c token) Ok I) as S0.
  rewrite (Verify_accepts _ _ t) in Run, S0 by done. injection Run as <- <-.
  cbn [fst snd iw_db] in S0, S.
  destruct (ident_steps_spec i _ _ Ok S0) as [Ok1 _].
  destruct (ident_steps_spec i _ _ Ok1 S) as [Ok' G].
  apply Verify_refuses; [done..|]. intros (t' & L' & Hs' & Nc' & _).
  destruct U as (L & Hs & _ & _).
  destruct (gr_tokens _ _ G (vt_ID t) (consumed (ic_now c) t)) as (t2 & L2 & E2 & K2).
  { cbn. by rewrite lookup_insert_eq. }
  assert (vt_ID t' = vt_ID t) as Id.
  { eapply (io_token_hash _ _ Ok'); [exact L'|exact L2|]. rewrite E2, Hs'. by symmetry. }
  rewrite Id, L2 in L'. injection L' as <-. by rewrite (K2 _ eq_refl) in Nc'.
Qed.

(** The stamp of a channel and the consumed tokens agree: an account is verified
    by email (or phone) exactly when a token of its own for that channel was consumed,
    and the stamp is the instant one was consumed, before that token expired. *)
Theorem verified_iff_consumed d id u channel (R : reachable d) (L : users d !! id = Some u)
    (V : IsValidVerificationChannel channel = true) :
  (is_Some (channel_stamp channel u) ↔
   ∃ t, verification_tokens d !! vt_ID t = Some t ∧ vt_UserID t = id ∧ vt_Channel t = channel ∧
     is_Some (vt_ConsumedAt t)) ∧
  ∀ c, channel_stamp channel u = Some c →
   ∃ t, verification_tokens d !! vt_ID t = Some t ∧ vt_UserID t = id ∧ vt_Channel t = channel ∧
     vt_ConsumedAt t = Some c ∧ c < vt_ExpiresAt t.
Proof.
  apply ident_reachable_ok in R as Ok. pose proof (io_stamp _ _ Ok _ _ L) as St. split.
  - split.
    + intros [c C]. destruct (St _ _ V C) as (t & A & B & D & E & _). eauto 8.
    + intros (t & A & B & D & E). destruct (io_token _ _ Ok _ _ A) as (_ & _ & u' & Lu & K).
      rewrite B, L in Lu. injection Lu as <-. rewrite <-D. by apply K.
  - intros c C. by apply St.
Qed.

(** ** Logging in and changing a password *)

Definition account (email : string) (id : uuid) (row : user_row) (d : ident_db) : Prop :=
  users d !! id = Some row ∧ ur_email row = sql_lower (TrimSpace email).

(** The struct of an account with its grants. *)
Definition user_of (id : uuid) (row : user_row) (d : ident_db) : User :=
  with_roles (rolesFromGrants (grants_of id d)) (scanUser row).

Lemma GetUserByEmail_account email id row d : ident_ok i d → account email id row d →
  GetUserByEmail email d = (inr (user_of id row d), d).
Proof.
  intros Ok [L E]. unfold GetUserByEmail. unfold_run_goal.
  rewrite (find_row_unique _ _ _ row L); [|by apply String.eqb_eq|].
  - destruct (io_user _ _ Ok _ _ L) as [Id _]. unfold load_user, GetRoleGrants. unfold_run_goal.
    by rewrite Id.
  - intros id' y L' E'%String.eqb_eq. assert (id' = id) as ->.
    { eapply (io_email _ _ Ok); [exact L'|exact L|]. by rewrite E', E. }
    rewrite L in L'. by injection L'.
Qed.

(** Logging in tells an unknown email from a wrong password by nothing: both get
    the same answer and change nothing. With the right password of an account that is
    verified or within its grace a session is minted with fresh bounds, its access
    token is signed over the claims of the account and the audit log has one more row;
    past the grace nothing changes. *)
Theorem login_outcomes c email password device ip d ev (R : reachable d) :
  ((∀ id row, account email id row d → VerifyPassword password (ur_password_hash row) = inr false) →
   Login s c email password device ip (mkIdentWorld d ev) = (inl invalidLogin, mkIdentWorld d ev)) ∧
  (∀ id row, account email id row d → VerifyPassword password (ur_password_hash row) = inr true →
   let u := user_of id row d in
   if verificationRefused (ic_now c) u (is_verificationGrace i)
   then Login s c email password device ip (mkIdentWorld d ev) = (inl grace_ended, mkIdentWorld d ev)
   else ∀ signed, sessions d !! ic_fresh c 0 = None →
     (∀ id' o, sessions d !! id' = Some o →
        se_RefreshTokenHash o ≠ TokenHash i (newOpaqueToken (ic_random c 0))) →
     sign i (claims_of s d u (ic_fresh c 0) (ic_now c)) = Some signed →
     Login s c email password device ip (mkIdentWorld d ev) =
     (inr (mkAccessResponse signed (newOpaqueToken (ic_random c 0)) (ic_now c + is_accessTTL i) []),
      mkIdentWorld (audited (ic_now c) id ActionUserLogin "user" id (Some (device_meta device ip))
        (with_sessions (insert (ic_fresh c 0)
           (minted s (ic_now c) (ic_fresh c 0) (ic_random c 0) u device ip zero_time)) d)) ev)).
Proof.
  apply ident_reachable_ok in R as Ok. split.
  - intros Wrong. unfold Login, not_found_as, wrap, on_db, zoom.
    unfold mbind at 1, M_bind at 1. cbn [iw_db iw_events].
    destruct (GetUserByEmail (TrimSpace email) d) as [r d'] eqn:G.
    apply (GetUserByEmail_inv s) in G as [-> G]; [|done]. destruct r as [e|u].
    + by destruct G as [-> _].
    + destruct G as [(row & L & Eu) Em].
      assert (VerifyPassword password (u_PasswordHash u) = inr false) as V.
      { rewrite Eu. cbn. apply (Wrong (u_ID u)). split; [done|].
        rewrite Eu in Em. cbn in Em. rewrite Em. f_equal. apply TrimSpace_idem. }
      unfold verify_password. rewrite V. done.
  - intros id row Ac V u. destruct (io_user _ _ Ok _ _ (proj1 Ac)) as [Id St].
    assert (∀ w, w = mkIdentWorld d ev → not_found_as invalidLogin
              (on_db (GetUserByEmail (TrimSpace email))) w = (inr u, w)) as G.
    { intros w ->. unfold not_found_as, wrap, on_db, zoom. cbn [iw_db iw_events].
      erewrite GetUserByEmail_account; [done|done|]. split; [apply Ac|].
      rewrite TrimSpace_idem. apply Ac. }
    assert (∀ w, verify_password password (u_PasswordHash u) w = (inr true, w)) as Vp
      by (intros w; unfold verify_password; change (u_PasswordHash u) with (ur_password_hash row);
          by rewrite V).
    destruct (verificationRefused _ u _) eqn:Nr.
    + unfold Login. rewrite (bind_ok _ _ _ _ _ (G _ eq_refl)), (bind_ok _ _ _ _ _ (Vp _)).
      ok_ensure; [|done]. ok_ensure; [|change (u_Status u) with (ur_status row); by rewrite St].
      unfold Issue, issue. by rewrite Nr.
    + intros signed N U Sg.
      unfold Login. rewrite (bind_ok _ _ _ _ _ (G _ eq_refl)), (bind_ok _ _ _ _ _ (Vp _)).
      ok_ensure; [|done]. ok_ensure; [|change (u_Status u) with (ur_status row); by rewrite St].
      assert (u_ID u = id) as Iu by exact Id.
      erewrite bind_ok; [|eapply (issue_ok s); [exact Nr|exact N|exact U| |exact Sg]].
      2:{ rewrite Iu. eexists. apply Ac. }
      erewrite bind_ok; [|by apply audit_eq]. by rewrite Iu.
Qed.

(** The database after a password change: the new hash, every session revoked. *)
Definition password_changed (now : time) (id : uuid) (hash : string) (row : user_row)
    (d : ident_db) : ident_db :=
  with_sessions (fmap (revoke_live now id)) (with_users (insert id (with_password now hash row)) d).

(** A password changes only for who gives the current one, and the change ends
    every session: the account has the new hash, which the new password verifies
    against, no session of the account is live any more, other accounts and sessions
    are as they were and the audit log has one more row. With a wrong current password
    nothing changes. *)
Theorem ChangePassword_outcomes c id current new d ev row (R : reachable d)
    (L : users d !! id = Some row) :
  (VerifyPassword current (ur_password_hash row) = inr false →
   ChangePassword s c id current new (mkIdentWorld d ev) =
   (inl (App (ErrUnauthorized "current password is incorrect")), mkIdentWorld d ev)) ∧
  (∀ hash, VerifyPassword current (ur_password_hash row) = inr true →
   checkPasswordBreach s new (mkIdentWorld d ev) = (inr "", mkIdentWorld d ev) →
   HashPassword (ic_random c 0) new = inr hash →
   is_bytes (ic_random c 0) → ic_random c 0 ≠ [] →
   let d' := password_changed (ic_now c) id hash row d in
   (∃ n, ChangePassword s c id current new (mkIdentWorld d ev) =
     (inr tt, mkIdentWorld (audited (ic_now c) id ActionPasswordChanged "user" id
        (Some {["sessions_revoked" := MInt n]}) d') ev)) ∧
   (∃ row', users d' !! id = Some row' ∧ VerifyPassword new (ur_password_hash row') = inr true) ∧
   (∀ sid x, sessions d' !! sid = Some x → se_UserID x = id → is_Some (se_RevokedAt x)) ∧
   (∀ sid x, sessions d !! sid = Some x → se_UserID x ≠ id → sessions d' !! sid = Some x) ∧
   (∀ id', id' ≠ id → users d' !! id' = users d !! id')).
Proof.
  apply ident_reachable_ok in R as Ok. destruct (io_user _ _ Ok _ _ L) as [Id _].
  assert (∀ e, not_found_as e (on_db (GetUser id)) (mkIdentWorld d ev) =
            (inr (user_of id row d), mkIdentWorld d ev)) as G.
  { intros e. unfold not_found_as, wrap, on_db, zoom. cbn [iw_db iw_events].
    by rewrite (GetUser_eq s), L. }
  assert (∀ ok w, VerifyPassword current (ur_password_hash row) = inr ok →
    verify_password current (u_PasswordHash (user_of id row d)) w = (inr ok, w)) as Vp.
  { intros ok w V. unfold verify_password. cbn [user_of with_roles scanUser u_PasswordHash].
    by rewrite V. }
  assert (u_ID (user_of id row d) = id) as Iu by exact Id.
  split.
  - intros V. unfold ChangePassword. rewrite (bind_ok _ _ _ _ _ (G _)).
    by rewrite (bind_ok _ _ _ _ _ (Vp _ _ V)).
  - intros hash V Br Hp Bs Ns d'. split_and!.
    + exists (Z.of_nat (length (List.filter (live_of id) (map_to_list (sessions d)).*2))).
      unfold ChangePassword. rewrite (bind_ok _ _ _ _ _ (G _)).
      rewrite (bind_ok _ _ _ _ _ (Vp _ _ V)). ok_ensure; [|done].
      rewrite (bind_ok _ _ _ _ _ Br), (bind_ok _ _ _ tt (mkIdentWorld d ev)) by done.
      rewrite (bind_ok _ _ _ hash (mkIdentWorld d ev)) by by rewrite Hp.
      rewrite Iu, (bind_ok _ _ _ tt (mkIdentWorld
        (with_users (insert id (with_password (ic_now c) hash row)) d) ev)).
      2:{ unfold on_db, zoom, UpdatePassword. cbn [iw_db iw_events]. unfold_run_goal. by rewrite L. }
      erewrite bind_ok; [|reflexivity]. by apply audit_eq.
    + eexists. cbn [d' password_changed users with_users with_sessions].
      rewrite lookup_insert_eq. split; [done|]. cbn [with_password ur_password_hash].
      rewrite (VerifyPassword_hash _ _ _ _ Bs Ns Hp). by rewrite bool_decide_eq_true_2.
    + intros sid x Lx Ux. cbn [d' password_changed sessions with_users with_sessions] in Lx.
      rewrite lookup_fmap in Lx. apply fmap_Some in Lx as (y & _ & ->).
      destruct (revoke_live_grows (ic_now c) id y) as [E _]. rewrite E in Ux. cbn in Ux.
      unfold revoke_live, live_of. rewrite (bool_decide_eq_true_2 _ Ux). cbn [andb].
      case_bool_decide; [by eexists|by apply not_eq_None_Some].
    + intros sid x Lx Ux. cbn [d' password_changed sessions with_users with_sessions].
      rewrite lookup_fmap, Lx. cbn. unfold revoke_live, live_of.
      by rewrite bool_decide_eq_false_2 by done.
    + intros id' Ne. cbn [d' password_changed users with_users with_sessions].
      by rewrite lookup_insert_ne.
Qed.

End Flows.

(** * Claims of the access tokens and limits of the resends

    Which role and tenant an access token names, and when another verification
    token is issued. *)

(** ** The best candidate

    [HighestRole] and the tenant of [claimContext] are the same loop over candidates
    with their priority. *)
Fixpoint pick (best : Z) (result : string) (l : list (Z * string)) : string :=
  match l with
  | [] => result
  | (p, x) :: l => if best <? p then pick p x l else pick best result l
  end.

Definition role_candidate (r : string) : option (Z * string) :=
  p ← priority r; Some (p, r).

Definition tenant_candidate `{UuidText} (g : RoleGrant) : option (Z * string) :=
  t ← rg_TenantID g; p ← priority (rg_Role g); Some (p, uuid_string t).

Lemma highest_pick best result roles :
  highest best result roles = pick best result (omap role_candidate roles).
Proof.
  revert best result. induction roles as [|r roles IH]; intros; simpl; [done|].
  unfold role_candidate at 1. destruct (priority r); simpl; [|done]. by case_match.
Qed.

Lemma best_tenant_pick `{UuidText} best result grants :
  best_tenant best result grants = pick best result (omap tenant_candidate grants).
Proof.
  revert best result. induction grants as [|[r t] grants IH]; intros; simpl; [done|].
  unfold tenant_candidate at 1. cbn [rg_TenantID rg_Role].
  destruct t, (priority r); simpl; try done. by case_match.
Qed.

(** The result beats what was best before, or nothing does. *)
Lemma pick_spec best result l :
  (pick best result l = result ∧ Forall (λ c, c.1 <= best) l) ∨
  ∃ p, (p, pick best result l) ∈ l ∧ best < p ∧ Forall (λ c, c.1 <= p) l.
Proof.
  revert best result. induction l as [|[p x] l IH]; intros; simpl; [left; by split|].
  destruct (Z.ltb_spec best p) as [Lt|Ge].
  - right. destruct (IH p x) as [[-> F]|(q & I & Lq & F)].
    + exists p. split_and!; [by left|done|]. constructor; simpl; [lia|done].
    + exists q. split_and!; [by right|lia|]. constructor; simpl; [lia|done].
  - destruct (IH best result) as [[-> F]|(q & I & Lq & F)].
    + left. split; [done|]. by constructor.
    + right. exists q. split_and!; [by right|done|]. constructor; simpl; [lia|done].
Qed.

Lemma priority_nonneg r p : priority r = Some p → 0 <= p.
Proof.
  unfold priority. destruct (List.find _ rolePriority) as [e|] eqn:F; simpl; [|done].
  intros [= <-]. apply List.find_some in F as [I _]. unfold rolePriority in I. simpl in I.
  repeat destruct I as [<-|I]; simpl; lia.
Qed.

Section Rules.
Context `{CaseMapping} `{Jwt} `{UuidText} `{Argon2}.
Context (s : Service).

Abbreviation i := (sv_issuer s) (only parsing).
Abbreviation reachable := (ident_reachable i) (only parsing).

(** A grant of an account. *)
Definition granted (id : uuid) (role : string) (tenant : option uuid) (d : ident_db) : Prop :=
  ∃ row, row ∈ user_roles d ∧ rr_user_id row = id ∧ rr_role row = role ∧ rr_tenant_id row = tenant.

Lemma grants_granted id g d : g ∈ grants_of id d ↔ granted id (rg_Role g) (rg_TenantID g) d.
Proof.
  unfold grants_of, granted. rewrite list_elem_of_In, in_map_iff. split.
  - intros (row & <- & I). exists row. cbn [rg_Role rg_TenantID].
    rewrite <-list_elem_of_In, merge_sort_Permutation, list_elem_of_In, List.filter_In in I.
    destruct I as [I E%bool_decide_eq_true]. by rewrite list_elem_of_In.
  - intros (row & I & E & Er & Et). exists row. split; [destruct g; simpl in *; congruence|].
    rewrite <-list_elem_of_In, merge_sort_Permutation, list_elem_of_In, List.filter_In.
    split; [by apply list_elem_of_In|by apply bool_decide_eq_true].
Qed.

(** The claims of an access token are those of the account's grants: the roles are
    the granted ones, the primary role is a granted one that none outranks, the tenant
    is that of a tenant grant that no other tenant grant outranks; without grants, and
    without tenant grants, they are empty. The token names the account and the session
    and ends with the access lifetime. *)
Theorem access_claims_exact d u sid now (R : reachable d) :
  let C := claims_of s d u sid now in
  mc_sub C = uuid_string (u_ID u) ∧ mc_sid C = uuid_string sid ∧
  mc_iat C = unix now ∧ mc_exp C = unix (now + is_accessTTL i) ∧
  (∀ r, r ∈ mc_roles C ↔ ∃ t, granted (u_ID u) r t d) ∧
  (mc_role C = "" ∧ mc_roles C = [] ∨
   mc_role C ∈ mc_roles C ∧ ∃ p, priority (mc_role C) = Some p ∧
     ∀ r q, r ∈ mc_roles C → priority r = Some q → q <= p) ∧
  (mc_tenant_id C = "" ∧ (∀ r t, granted (u_ID u) r t d → t = None) ∨
   ∃ r t p, granted (u_ID u) r (Some t) d ∧ mc_tenant_id C = uuid_string t ∧
     priority r = Some p ∧
     ∀ r' t' q, granted (u_ID u) r' (Some t') d → priority r' = Some q → q <= p).
Proof.
  apply ident_reachable_ok in R as Ok. cbn [claims_of AccessClaims mc_sub mc_sid mc_iat mc_exp
    mc_roles mc_role mc_tenant_id].
  assert (∀ r t, granted (u_ID u) r t d → is_Some (priority r)) as K.
  { intros r t (row & I & _ & <- & _). pose proof (io_grant _ _ Ok) as F.
    rewrite list.Forall_forall in F. apply (F _ I). }
  split_and!; [done..| | |].
  - intros r. unfold rolesFromGrants. rewrite list_elem_of_In, in_map_iff. split.
    + intros (g & <- & I). exists (rg_TenantID g). by apply grants_granted, list_elem_of_In.
    + intros [t G]. exists (mkRoleGrant r t). split; [done|].
      by apply list_elem_of_In, grants_granted.
  - unfold HighestRole. rewrite highest_pick. set (roles := rolesFromGrants _).
    assert (∀ r, r ∈ roles → is_Some (priority r)) as Kr.
    { unfold roles, rolesFromGrants. intros r (g & <- & I)%list_elem_of_In%in_map_iff.
      apply list_elem_of_In, grants_granted in I. by eapply K. }
    destruct (pick_spec (-1) "" (omap role_candidate roles)) as [[-> F]|(p & I & _ & F)].
    + left. split; [done|]. destruct roles as [|r roles]; [done|]. exfalso.
      destruct (Kr r) as [p P]; [by left|]. rewrite list.Forall_forall in F.
      pose proof (priority_nonneg _ _ P).
      enough (p <= -1) by lia. apply (F (p, r)), list_elem_of_omap. exists r.
      split; [by left|]. unfold role_candidate. by rewrite P.
    + right. set (best := pick _ _ _) in *. apply list_elem_of_omap in I as (r & I & E). unfold role_candidate in E.
      destruct (priority r) as [p'|] eqn:P; [|discriminate E]. simpl in E. injection E as -> E.
      rewrite <-E. split; [done|]. exists p. split; [done|]. intros r' q I' P'.
      rewrite list.Forall_forall in F. apply (F (q, r')). apply list_elem_of_omap.
      exists r'. split; [done|]. unfold role_candidate. by rewrite P'.
  - rewrite best_tenant_pick.
    assert (∀ r t q, granted (u_ID u) r (Some t) d → priority r = Some q →
      (q, uuid_string t) ∈ omap tenant_candidate (grants_of (u_ID u) d)) as Cand.
    { intros r t q G P. apply list_elem_of_omap. exists (mkRoleGrant r (Some t)).
      split; [by apply grants_granted|]. unfold tenant_candidate. simpl. by rewrite P. }
    destruct (pick_spec (-1) "" (omap tenant_candidate (grants_of (u_ID u) d)))
      as [[-> F]|(p & I & _ & F)]; rewrite list.Forall_forall in F.
    + left. split; [done|]. intros r [t|] G; [|done]. exfalso. destruct (K _ _ G) as [q P].
      specialize (F _ (Cand _ _ _ G P)). cbn in F. pose proof (priority_nonneg _ _ P). lia.
    + right. set (best := pick _ _ _) in *. apply list_elem_of_omap in I as (g & I & E). unfold tenant_candidate in E.
      destruct (rg_TenantID g) as [t|] eqn:T; [|discriminate E]. simpl in E.
      destruct (priority (rg_Role g)) as [q|] eqn:P; [|discriminate E]. simpl in E.
      injection E as -> E. exists (rg_Role g), t, p. split_and!; [|done..|].
      * rewrite <-T. by apply grants_granted.
      * intros r' t' q' G P'. by apply (F _ (Cand _ _ _ G P')).
Qed.

(** ** Asking for another token *)

(** A token of the account for the channel. *)
Definition token_of (id : uuid) (channel : string) (t : VerificationToken) (d : ident_db) : Prop :=
  verification_tokens d !! vt_ID t = Some t ∧ vt_UserID t = id ∧ vt_Channel t = channel.

Lemma tokens_of_spec id channel t d : ident_ok i d →
  t ∈ tokens_of id channel d ↔ token_of id channel t d.
Proof.
  intros Ok. unfold tokens_of, token_of. rewrite list_elem_of_In, List.filter_In,
    <-list_elem_of_In, map_rows, andb_true_iff, bool_decide_eq_true, String.eqb_eq.
  split.
  - intros [[k L] [U C]]. destruct (io_token _ _ Ok _ _ L) as [Id _]. by rewrite Id.
  - intros (L & U & C). eauto.
Qed.

Lemma latest_ge l t : t ∈ l → vt_CreatedAt t <= default zero_time (latest l).
Proof.
  unfold latest. destruct l as [|x l]; [by intros ?%elem_of_nil|]. simpl.
  intros [->|I]%elem_of_cons.
  - induction l as [|y l IH]; simpl; lia.
  - induction l as [|y l IH]; [by apply elem_of_nil in I|]. simpl.
    apply elem_of_cons in I as [->|I]; [lia|]. specialize (IH I). lia.
Qed.

Lemma guard_inv now count last d ev r w' :
  resend_guard s now count last (mkIdentWorld d ev) = (r, w') →
  w' = mkIdentWorld d ev ∧ match r with
  | inr _ => (zero_time < last → 0 < vc_ResendCooldown (sv_verification s) →
                vc_ResendCooldown (sv_verification s) <= now - last) ∧
      Z.of_nat count < vc_ResendLimit (sv_verification s)
  | inl _ => True
  end.
Proof.
  unfold resend_guard. intros [(e & Q & ->)|([] & w1 & Q & R)]%bind_inv;
    apply ensure_inv in Q as [-> Q]; [done|].
  apply ensure_inv in R as [-> [[B ->]|[B ->]]]; [|done]. split; [done|].
  destruct Q as [[G _]|[_ [=]]]. split; [|by props]. intros Z C. apply negb_true_iff in G.
  rewrite (proj2 (Z.ltb_lt _ _) C), andb_true_r in G. unfold is_zero in G.
  rewrite bool_decide_eq_false_2 in G by lia. simpl in G. by props.
Qed.

(** The database with another token. *)
Definition resent (now : time) (fresh : uuid) (random : list N) (id : uuid) (channel : string)
    (d : ident_db) : ident_db :=
  with_tokens (insert fresh (token_row now (mkVerificationToken fresh id channel
    (TokenHash i (newOpaqueToken random)) (now + vc_TokenTTL (sv_verification s)) None zero_time))) d.

Lemma issueVerificationToken_inv now fresh random u channel via d ev r w' :
  issueVerificationToken s now fresh random u channel via (mkIdentWorld d ev) = (r, w') →
  match r with
  | inr (raw, expires) => raw = newOpaqueToken random ∧
      expires = now + vc_TokenTTL (sv_verification s) ∧
      verification_tokens d !! fresh = None ∧
      w' = mkIdentWorld (audited now (u_ID u)
             (if String.eqb via "resend" then ActionVerificationResent
              else ActionVerificationIssued) "user" (u_ID u)
             (Some {["channel" := MText channel; "expires_at" := MText (RFC3339 expires)]})
             (resent now fresh random (u_ID u) channel d)) ev
  | inl _ => w' = mkIdentWorld d ev
  end.
Proof.
  unfold issueVerificationToken. set (t := mkVerificationToken _ _ _ _ _ _ _).
  intros [(e & Q & ->)|([] & w1 & Q & R)]%bind_inv; unfold on_db, zoom in Q; cbn [iw_db iw_events] in Q;
    destruct (CreateVerificationToken now t d) as [x d1] eqn:C;
    apply CreateVerificationToken_run in C as [[[e' ->] ->]|(-> & _ & N & _ & _ & ->)];
    try discriminate Q; injection Q.
  - by intros <-.
  - intros <-. erewrite bind_ok in R; [|apply audit_eq; [by destruct (String.eqb via "resend")|done]].
    injection R as <- <-. by split_and!.
Qed.

(** Asking for another verification token tells nothing of the accounts: an email
    without an account and a channel without anything to verify get the same neutral
    answer and change nothing. A token is issued only when the cooldown since the
    latest token of the account for the channel has passed and fewer than the limit
    were created in the window; otherwise nothing changes. *)
Theorem ResendVerification_outcomes c email channel d ev r w' (R : reachable d)
    (Run : ResendVerification s c email channel (mkIdentWorld d ev) = (r, w')) :
  match r with
  | inl _ => w' = mkIdentWorld d ev
  | inr (ch, echo) =>
      ch = (if String.eqb channel "" then "email" else channel) ∧
      ((w' = mkIdentWorld d ev ∧ echo = None ∧
        ∀ id row, account (ToLower (TrimSpace email)) id row d →
          nothing_to_verify (user_of id row d) ch = true) ∨
       ∃ id row, account (ToLower (TrimSpace email)) id row d ∧
        nothing_to_verify (user_of id row d) ch = false ∧
        (∀ t, token_of id ch t d → zero_time < vt_CreatedAt t →
           0 < vc_ResendCooldown (sv_verification s) →
           vc_ResendCooldown (sv_verification s) <= ic_now c - vt_CreatedAt t) ∧
        Z.of_nat (length (List.filter (λ t, timestamptz (ic_now c - 24 * hour) <=? vt_CreatedAt t)
                            (tokens_of id ch d))) < vc_ResendLimit (sv_verification s) ∧
        let expires := ic_now c + vc_TokenTTL (sv_verification s) in
        echo = (if vc_DevEcho (sv_verification s)
                then Some (mkVerificationEcho ch (newOpaqueToken (ic_random c 0)) expires) else None) ∧
        w' = mkIdentWorld (audited (ic_now c) id ActionVerificationResent "user" id
               (Some {["channel" := MText ch; "expires_at" := MText (RFC3339 expires)]})
               (resent (ic_now c) (ic_fresh c 0) (ic_random c 0) id ch d)) ev)
  end.
Proof.
  apply ident_reachable_ok in R as Ok. unfold ResendVerification in Run.
  apply bind_inv in Run as [(e & Q & ->)|([] & w1 & Q & Run)];
    apply ensure_inv in Q as [-> Q]; [done|]. clear Q.
  apply bind_inv in Run as [(e & Q & ->)|([] & w1 & Q & Run)];
    apply ensure_inv in Q as [-> Q]; [done|]. clear Q.
  set (mail := ToLower (TrimSpace email)) in *.
  set (ch := if String.eqb channel "" then ChannelEmail else channel) in *.
  apply bind_inv in Run as [(e & Q & ->)|(found & w1 & Q & Run)];
    unfold try, on_db, zoom in Q; cbn [iw_db iw_events] in Q;
    destruct (GetUserByEmail mail d) as [x d1] eqn:G; [discriminate Q|].
  injection Q as <- <-. apply (GetUserByEmail_inv s) in G as [-> G]; [|done].
  destruct x as [e|u].
  { destruct G as [-> No]. injection Run as <- <-. split; [done|]. left. split_and!; [done..|].
    intros id row [L E]. by destruct (No _ _ L). }
  destruct G as [(row & L & Eu) Em]. set (id := u_ID u) in *.
  destruct (io_user _ _ Ok _ _ L) as [Id _].
  assert (account mail id row d) as Ac.
  { split; [done|]. rewrite Eu in Em. exact Em. }
  destruct (nothing_to_verify u ch) eqn:Nt.
  { injection Run as <- <-. split; [done|]. left. split_and!; [done..|]. intros id' row' [L' E'].
    assert (id' = id) as -> by (eapply (io_email _ _ Ok); [exact L'|exact L|]; destruct Ac; congruence).
    rewrite L in L'. injection L' as <-. rewrite <-Nt, Eu. done. }
  apply bind_inv in Run as [(e & Q & ->)|([count last] & w1 & Q & Run)]; [discriminate Q|].
  unfold on_db, zoom, VerificationTokenStats in Q. unfold_run Q. injection Q as <- <- <-.
  apply bind_inv in Run as [(e & Q & ->)|([] & w1 & Q & Run)]; apply guard_inv in Q as [-> Q]; [done|].
  destruct Q as [Cool Lim].
  apply bind_inv in Run as [(e & Q & ->)|([raw expires] & w1 & Q & Run)];
    apply issueVerificationToken_inv in Q; [done|]. destruct Q as (-> & -> & N & ->).
  injection Run as <- <-. split; [done|]. right. exists id, row. split_and!; try done.
  - rewrite <-Nt, Eu. done.
  - intros t T Z C. apply (tokens_of_spec _ _ _ _ Ok), latest_ge in T. specialize (Cool ltac:(lia) C). lia.
Qed.

(** The refusals of a resend tell accounts apart all the same: while the cooldown
    of an account that has something to verify runs, asking for it is refused with 429,
    and asking for an email without an account is answered as a success. *)
Theorem resend_discloses_accounts c email email' channel d ev id row t (R : reachable d)
    (Ch : IsValidVerificationChannel channel = true)
    (Ne : ToLower (TrimSpace email) ≠ "") (Ne' : ToLower (TrimSpace email') ≠ "")
    (Ac : account (ToLower (TrimSpace email)) id row d)
    (Nt : nothing_to_verify (user_of id row d) channel = false)
    (T : token_of id channel t d) (Z : zero_time < vt_CreatedAt t)
    (C : ic_now c - vt_CreatedAt t < vc_ResendCooldown (sv_verification s))
    (Pos : 0 < vc_ResendCooldown (sv_verification s))
    (No : ∀ id row, ¬ account (ToLower (TrimSpace email')) id row d) :
  (∃ e, ResendVerification s c email channel (mkIdentWorld d ev) = (inl (App e), mkIdentWorld d ev) ∧
     Status e = 429) ∧
  ResendVerification s c email' channel (mkIdentWorld d ev) = (inr (channel, None), mkIdentWorld d ev).
Proof.
  apply ident_reachable_ok in R as Ok. apply String.eqb_neq in Ne, Ne'.
  assert (String.eqb channel "" = false) as Nc by by (apply String.eqb_neq; intros ->).
  unfold ResendVerification. rewrite Nc. split.
  - eexists. ok_ensure; [|by rewrite Ne]. ok_ensure; [|done].
    rewrite (bind_ok _ _ _ (inr (user_of id row d)) (mkIdentWorld d ev)).
    2:{ unfold try, on_db, zoom. cbn [iw_db iw_events]. by rewrite (GetUserByEmail_account s _ _ _ _ Ok Ac). }
    cbn beta iota. rewrite Nt. ok_get. cbn beta iota.
    change (u_ID (user_of id row d)) with (ur_id row).
    destruct (io_user _ _ Ok _ _ (proj1 Ac)) as [-> _].
    apply (tokens_of_spec _ _ _ _ Ok), latest_ge in T.
    unfold resend_guard. cbn [iw_db iw_events]. set (last := default zero_time _) in *.
    assert (is_zero last = false) as Iz by (apply bool_decide_eq_false; lia).
    rewrite Iz, (proj2 (Z.ltb_lt _ _) Pos), (proj2 (Z.ltb_lt (ic_now c - last) _)) by lia.
    by split.
  - ok_ensure; [|by rewrite Ne']. ok_ensure; [|done].
    rewrite (bind_ok _ _ _ (inl ErrUserNotFound) (mkIdentWorld d ev)); [done|].
    unfold try, on_db, zoom. cbn [iw_db iw_events].
    destruct (GetUserByEmail (ToLower (TrimSpace email')) d) as [x d'] eqn:G.
    apply (GetUserByEmail_inv s) in G as [-> G]; [|done]. destruct x as [e|u]; [by destruct G as [-> _]|].
    destruct G as [(row' & L & Eu) Em]. exfalso. apply (No (u_ID u) row'). split; [done|].
    rewrite Eu in Em. exact Em.
Qed.

End Rules.
