(* ===== verification/IdentDemo.v ===== *)
(** * IdentDemo: a concrete account, from its registration on

    An account registers, verifies its email, refreshes, changes its password and
    logs in; a refresh whose checks passed is overtaken by a sweep of the sessions.
    The properties of the identity service are instantiated here. Keys are derived
    from a digest, access tokens name their account and session. *)

From S2P Require Import Prelude Hoare Text Sha256 Platform Sql Wire Base64 IdentPassword.
From S2P Require Import IdentModels IdentStore IdentService IdentInvariant IdentProps.
From S2P Require Import IdentFlows.

Open Scope Z_scope.

(** ** The parameters *)

Definition ascii_cases : CaseMapping.
Proof. by refine {| ToLower := lower; sql_lower := lower |}. Defined.

Definition naming_jwt : Jwt := {|
  private_key := unit;
  sign_asymmetric _ _ kid claims := Some (kid +:+ "." +:+ mc_sub claims +:+ "." +:+ mc_sid claims);
  sign_hs256 _ claims := Some (mc_sub claims +:+ "." +:+ mc_sid claims);
|}.

Definition letter_ids : UuidText := letter_uuid 105.

(** The digest of salt and password, cut or extended with zeros to its length. *)
Definition digest_key (p : string) (salt : list N) (k : Z) : list N :=
  resize (Z.to_nat k) 0%N (sha256 (salt ++ to_bytes p)).

Lemma digest_key_bytes p salt k : is_bytes (digest_key p salt k).
Proof. apply Forall_resize; [done|apply sha256_range]. Qed.

Lemma digest_key_length p salt k : 0 <= k → Z.of_nat (length (digest_key p salt k)) = k.
Proof. unfold digest_key. rewrite length_resize. lia. Qed.

Definition digest_argon2 : Argon2.
Proof.
  refine {| IDKey p salt _ _ _ k := digest_key p salt k |}.
  - intros. apply digest_key_bytes.
  - intros. by apply digest_key_length.
Defined.

#[local] Existing Instances ascii_cases naming_jwt letter_ids digest_argon2.

(** ** The run *)

Definition service : Service :=
  NewService (NewIssuer "s3cret" "motivra" "api" []) None [].

Definition at_ (seconds : Z) (first : N) : IdentCtx :=
  mkIdentCtx (mkCtx (seconds * second) "req" (λ k, first + N.of_nat k)%N)
    (λ k, [first; N.of_nat k; 7])%N.

Definition ann : uuid := 10%N.
Definition ann_token : string := newOpaqueToken (ic_random (at_ 1000 10) 1).
Definition ann_email_token : string := newOpaqueToken (ic_random (at_ 1000 10) 2).

Definition registering :=
  Register service (at_ 1000 10) " Ann@Example.com" "" "correct horse" "Ann" "phone" "10.0.0.1"
    (mkIdentWorld empty_ident_db []).
Definition registered_world : ident_world := registering.2.
Definition registered_db : ident_db := iw_db registered_world.

Definition verifying := Verify service (at_ 1100 20) ann_email_token (mkIdentWorld registered_db []).
Definition refreshing := RefreshTokens service (at_ 1200 30) ann_token registered_world.
Definition refreshed_db : ident_db := iw_db refreshing.2.

(** The sweep between the checks of a refresh and its writes. *)
Definition swept_db : ident_db := iw_db (RevokeAllSessions (at_ 1200 40) ann ann registered_world).2.

Lemma ident_handler_reachable {A} (c : M ident_world IdentError A) Q w :
  triple iw_db (ident_ok (sv_issuer service)) (ident_step (sv_issuer service)) (λ _, True) c Q →
  ident_reachable (sv_issuer service) (iw_db w) →
  ident_steps (sv_issuer service) (iw_db w) (iw_db (c w).2) ∧
  ident_reachable (sv_issuer service) (iw_db (c w).2).
Proof.
  intros T R. assert (ident_steps (sv_issuer service) (iw_db w) (iw_db (c w).2)) as S.
  { apply (triple_steps iw_db _ (ident_step (sv_issuer service)) _ c _ w T); [|done].
    by apply ident_reachable_ok. }
  split; [exact S|]. unfold ident_reachable, ident_steps. etrans; [exact R|exact S].
Qed.

Lemma ident_registered : ident_reachable (sv_issuer service) registered_db.
Proof. eapply ident_handler_reachable; [apply Register_triple|apply rtc_refl]. Qed.

Lemma ident_refreshed : ident_steps (sv_issuer service) registered_db refreshed_db.
Proof. eapply ident_handler_reachable; [by apply RefreshTokens_triple|apply ident_registered]. Qed.

Lemma ident_swept : ident_steps (sv_issuer service) registered_db swept_db.
Proof. eapply ident_handler_reachable; [apply RevokeAllSessions_triple|apply ident_registered]. Qed.

Definition ann_row : user_row :=
  default (mkUserRow 0%N "" None "" "" "" None None 0 0) (users registered_db !! ann).
Definition ann_session (d : ident_db) (id : uuid) : Session :=
  default (mkSession 0%N 0%N "" "" "" 0 0 0 None) (sessions d !! id).

Lemma ann_registered : users registered_db !! ann = Some ann_row.
Proof. vm_compute. reflexivity. Qed.

Example registered_email : ur_email ann_row = "ann@example.com".
Proof. vm_compute. reflexivity. Qed.

Example refreshed_once :
  se_RevokedAt (ann_session refreshed_db 11%N) = Some (1200 * second) ∧
  se_RevokedAt (ann_session refreshed_db 30%N) = None.
Proof. vm_compute. done. Qed.

(** ** The properties at the run *)

Abbreviation the_issuer := (sv_issuer service) (only parsing).

Lemma identity_refines_steps_witness :
  ident_reachable the_issuer refreshed_db ∧ ident_reachable the_issuer swept_db.
Proof.
  destruct (identity_refines_steps service registered_world ident_registered)
    as (_ & _ & Rf & _ & _ & _ & _ & Sw & _).
  split; [exact (Rf (at_ 1200 30) ann_token)|exact (Sw (at_ 1200 40) ann ann)].
Defined.

Lemma refreshed_reachable : ident_reachable the_issuer refreshed_db.
Proof. unfold ident_reachable, ident_steps. etrans; [apply ident_registered|apply ident_refreshed]. Qed.

Lemma new_session_found : sessions refreshed_db !! 30%N = Some (ann_session refreshed_db 30%N).
Proof. vm_compute. reflexivity. Qed.

Lemma old_session_found :
  sessions refreshed_db !! se_ID (ann_session refreshed_db 11%N) =
  Some (ann_session refreshed_db 11%N).
Proof. vm_compute. reflexivity. Qed.

(** The rotated session still ends 90 days after a login. *)
Lemma sessions_accounted_witness :
  ∃ L, history the_issuer L refreshed_db ∧
  ∃ login, sessions refreshed_db !! se_ID login = Some login ∧ se_ID login ∈ L ∧ se_UserID login = ann ∧
    se_AbsoluteExpiresAt (ann_session refreshed_db 30%N) =
      timestamptz (se_CreatedAt login + 90 * 24 * hour).
Proof.
  destruct (sessions_accounted service refreshed_db refreshed_reachable) as [[L Hs] Acc].
  exists L. split; [exact Hs|]. destruct (Acc L Hs) as [S _].
  destruct (S _ _ new_session_found) as (_ & _ & (login & Lo & I & U & A & _) & _).
  exists login. split; [exact Lo|]. split; [exact I|]. split; [|exact A]. rewrite U. vm_compute. reflexivity.
Defined.

Lemma revoked_token_dead_witness :
  RefreshTokens service (at_ 1300 50) ann_token (mkIdentWorld refreshed_db []) =
  (inl invalid_refresh, mkIdentWorld refreshed_db []).
Proof.
  apply (revoked_token_dead service refreshed_db refreshed_db [] (at_ 1300 50) ann ann_token
           (ann_session refreshed_db 11%N)).
  - exact refreshed_reachable.
  - apply rtc_refl.
  - exact old_session_found.
  - exists (1200 * second). vm_compute. reflexivity.
  - vm_compute. reflexivity.
  - vm_compute. discriminate.
Defined.

Lemma refreshing_run : ∃ resp, RefreshTokens service (at_ 1200 30) ann_token registered_world =
  (inr resp, refreshing.2).
Proof. eexists. vm_compute. reflexivity. Qed.

Lemma refresh_outcomes_witness :
  ∃ x u, refreshable service (1200 * second) x u registered_db ∧
    se_RefreshTokenHash x = TokenHash the_issuer ann_token.
Proof.
  destruct refreshing_run as [resp Run].
  destruct (refresh_outcomes service _ _ _ _ _ ident_registered Run)
    as (x & u & signed & Rf & Hs & _).
  exists x, u. split; [exact Rf|exact Hs].
Defined.

Definition checked := refresh_checks the_issuer (1200 * second) ann_token registered_world.

Lemma checked_run : ∃ x u, refresh_checks the_issuer (1200 * second) ann_token registered_world =
  (inr (x, u), registered_world) ∧ x = ann_session registered_db 11%N ∧
  sign the_issuer (claims_of service swept_db u 30%N (1200 * second)) = Some "i10.i30".
Proof. eexists _, _. split_and!; vm_compute; reflexivity. Qed.

Lemma swept_hashes : forallb (λ o, negb (String.eqb (se_RefreshTokenHash o)
    (TokenHash the_issuer (newOpaqueToken (ic_random (at_ 1200 30) 0)))))
  (map_to_list (sessions swept_db)).*2 = true.
Proof. vm_compute. reflexivity. Qed.

(** Every session was swept, and the refresh still mints a live one. *)
Lemma stale_refresh_mints_witness :
  forallb (λ o, negb (bool_decide (se_RevokedAt o = None))) (map_to_list (sessions swept_db)).*2 = true ∧
  ∃ d' y, sessions d' !! 30%N = Some y ∧ se_UserID y = ann ∧ se_RevokedAt y = None.
Proof.
  split; [vm_compute; reflexivity|].
  destruct checked_run as (x & u & Ch & E & Sg).
  destruct (stale_refresh_mints service (1200 * second) 30%N (ic_random (at_ 1200 30) 0) ann_token
              registered_world x u registered_world swept_db "i10.i30" ident_registered Ch ident_swept)
    as (d' & _ & y & L & U & Rv & _).
  - vm_compute. reflexivity.
  - intros id o L E'. pose proof swept_hashes as F. rewrite forallb_forall in F.
    specialize (F o). rewrite E', String.eqb_refl in F. discriminate F.
    apply list_elem_of_In, map_rows. exists id. exact L.
  - exact Sg.
  - exists d', y. split; [exact L|]. split; [|exact Rv]. rewrite U, E. vm_compute. reflexivity.
Defined.

Lemma verifying_run : Verify service (at_ 1100 20) ann_email_token (mkIdentWorld registered_db []) =
  (inr "email", verifying.2).
Proof. vm_compute. reflexivity. Qed.

Definition verified_db : ident_db := iw_db verifying.2.

Lemma verification_single_use_witness :
  Verify service (at_ 1101 60) ann_email_token (mkIdentWorld verified_db []) =
  (inl errInvalidVerificationToken, mkIdentWorld verified_db []).
Proof.
  exact (verification_single_use service (at_ 1100 20) (at_ 1101 60) ann_email_token "email"
           registered_db verifying.2 verified_db [] [] ident_registered verifying_run
           (rtc_refl _ verified_db)).
Defined.

Lemma verified_reachable : ident_reachable the_issuer (iw_db verifying.2).
Proof. eapply ident_handler_reachable; [apply Verify_triple|apply ident_registered]. Qed.

Definition verified_row : user_row := default ann_row (users (iw_db verifying.2) !! ann).

Lemma verified_iff_consumed_witness :
  ∃ t, verification_tokens (iw_db verifying.2) !! vt_ID t = Some t ∧ vt_UserID t = ann ∧
    vt_ConsumedAt t = Some (1100 * second).
Proof.
  destruct (verified_iff_consumed service (iw_db verifying.2) ann verified_row "email"
              verified_reachable ltac:(vm_compute; reflexivity) eq_refl) as [_ K].
  destruct (K (1100 * second) ltac:(vm_compute; reflexivity)) as (t & L & U & _ & C & _).
  exists t. split; [exact L|]. split; [exact U|exact C].
Defined.

Lemma only_ann : users registered_db = {[ann := ann_row]}.
Proof. vm_compute. reflexivity. Qed.

Lemma account_ann email id row : account email id row registered_db →
  id = ann ∧ row = ann_row ∧ "ann@example.com" = lower (TrimSpace email).
Proof.
  intros [L E]. rewrite only_ann in L. apply lookup_singleton_Some in L as [<- <-].
  split_and!; [done..|]. rewrite <-registered_email. exact E.
Qed.

Lemma wrong_password : VerifyPassword "wrong horses" (ur_password_hash ann_row) = inr false.
Proof. vm_compute. reflexivity. Qed.

Lemma right_password : VerifyPassword "correct horse" (ur_password_hash ann_row) = inr true.
Proof. vm_compute. reflexivity. Qed.

(** A stranger and a wrong password get one answer. *)
Lemma login_outcomes_witness :
  Login service (at_ 1400 70) "bob@example.com" "correct horse" "" "" (mkIdentWorld registered_db []) =
    (inl invalidLogin, mkIdentWorld registered_db []) ∧
  Login service (at_ 1400 70) "ANN@example.com " "wrong horses" "" "" (mkIdentWorld registered_db []) =
    (inl invalidLogin, mkIdentWorld registered_db []).
Proof.
  split.
  - apply (login_outcomes service (at_ 1400 70) "bob@example.com" "correct horse" "" ""
             registered_db [] ident_registered).
    intros id row (_ & _ & E)%account_ann. vm_compute in E. discriminate E.
  - apply (login_outcomes service (at_ 1400 70) "ANN@example.com " "wrong horses" "" ""
             registered_db [] ident_registered).
    intros id row (_ & -> & _)%account_ann. exact wrong_password.
Defined.

Lemma changed_hash : ∃ hash, HashPassword (ic_random (at_ 1500 80) 0) "battery staple" = inr hash.
Proof. eexists. vm_compute. reflexivity. Qed.

Lemma ChangePassword_outcomes_witness :
  ∃ w', ChangePassword service (at_ 1500 80) ann "correct horse" "battery staple"
          (mkIdentWorld registered_db []) = (inr tt, w') ∧
    ∀ sid x, sessions (iw_db w') !! sid = Some x → se_UserID x = ann → is_Some (se_RevokedAt x).
Proof.
  destruct changed_hash as [hash Hp].
  destruct (ChangePassword_outcomes service (at_ 1500 80) ann "correct horse" "battery staple"
              registered_db [] ann_row ident_registered ann_registered) as [_ Go].
  destruct (Go hash right_password eq_refl Hp) as ([n Run] & _ & Rv & _).
  - repeat constructor.
  - discriminate.
  - eexists. split; [exact Run|]. exact Rv.
Defined.

Lemma access_claims_exact_witness :
  mc_role (claims_of service registered_db (user_of ann ann_row registered_db) 11%N 0) = "CUSTOMER" ∧
  ∀ r, r ∈ mc_roles (claims_of service registered_db (user_of ann ann_row registered_db) 11%N 0) →
    ∃ t, granted ann r t registered_db.
Proof.
  split; [vm_compute; reflexivity|].
  destruct (access_claims_exact service registered_db (user_of ann ann_row registered_db) 11%N 0
              ident_registered) as (_ & _ & _ & _ & Ro & _).
  intros r I. exact (proj1 (Ro r) I).
Defined.

Lemma resent_run : ∃ w', ResendVerification service (at_ 1100 90) "ann@example.com" ""
  (mkIdentWorld registered_db []) = (inr ("email", None), w').
Proof. eexists. vm_compute. reflexivity. Qed.

Lemma ResendVerification_outcomes_witness :
  ∃ w', ResendVerification service (at_ 1100 90) "ann@example.com" "" (mkIdentWorld registered_db []) =
          (inr ("email", None), w') ∧
    ∀ t, token_of ann "email" t registered_db → minute <= 1100 * second - vt_CreatedAt t.
Proof.
  destruct resent_run as [w' Run]. exists w'. split; [exact Run|].
  destruct (ResendVerification_outcomes service _ _ _ _ _ _ _ ident_registered Run)
    as [_ [(_ & _ & No)|(id & row & Ac & _ & Cool & _)]].
  - assert (account (lower (TrimSpace "ann@example.com")) ann ann_row registered_db) as Ac
      by (split; [exact ann_registered|vm_compute; reflexivity]).
    specialize (No _ _ Ac). vm_compute in No. discriminate No.
  - apply account_ann in Ac as (-> & _ & _). intros t T.
    assert (vt_CreatedAt t = 1000 * second) as C.
    { destruct T as (L & _ & Ch).
      assert (forallb (λ t, (vt_CreatedAt t =? 1000 * second)) (map_to_list (verification_tokens registered_db)).*2 = true)
        as F by (vm_compute; reflexivity).
      rewrite forallb_forall in F. apply Z.eqb_eq, F, list_elem_of_In, map_rows. by exists (vt_ID t). }
    apply (Cool t T); rewrite ?C; vm_compute; reflexivity.
Defined.

Lemma password_roundtrip_witness :
  ∃ h, HashPassword [1; 2; 3]%N "correct horse" = inr h ∧ VerifyPassword "correct horse" h = inr true.
Proof.
  assert (∃ h, HashPassword [1; 2; 3]%N "correct horse" = inr h) as [h E]
    by (eexists; vm_compute; reflexivity).
  exists h. split; [exact E|].
  pose proof (password_roundtrip [1; 2; 3]%N "correct horse" ltac:(repeat constructor) ltac:(discriminate)) as P.
  rewrite E in P. destruct P as (_ & V & _). exact V.
Defined.

Lemma resend_discloses_accounts_witness :
  (∃ e, ResendVerification service (at_ 1030 95) "ann@example.com" "email" (mkIdentWorld registered_db []) =
          (inl (App e), mkIdentWorld registered_db []) ∧ Status e = 429) ∧
  ResendVerification service (at_ 1030 95) "bob@example.com" "email" (mkIdentWorld registered_db []) =
    (inr ("email", None), mkIdentWorld registered_db []).
Proof.
  apply (resend_discloses_accounts service (at_ 1030 95) "ann@example.com" "bob@example.com" "email"
           registered_db [] ann ann_row (default (mkVerificationToken 0%N 0%N "" "" 0 None 0)
             (verification_tokens registered_db !! 12%N)) ident_registered).
  - reflexivity.
  - vm_compute. discriminate.
  - vm_compute. discriminate.
  - split; [exact ann_registered|vm_compute; reflexivity].
  - vm_compute. reflexivity.
  - split_and!; vm_compute; reflexivity.
  - vm_compute. reflexivity.
  - vm_compute. reflexivity.
  - vm_compute. reflexivity.
  - intros id row (_ & _ & E)%account_ann. vm_compute in E. discriminate E.
Defined.
