(* ===== verification/Float64.v ===== *)
(** * Float64: binary64 arithmetic

    The operations of [float64] on [SpecFloat], [math.Round], [Min] and [Max], and the
    bounds of rounding the scores rest on. Fused operations, which some processors use
    for a product and a sum, are not modelled. *)

From Stdlib Require Import Floats.SpecFloat.
From S2P Require Import Prelude.

Open Scope Z_scope.

Abbreviation float64 := spec_float (only parsing).

Definition fadd : float64 → float64 → float64 := SFadd 53 1024.
Definition fsub : float64 → float64 → float64 := SFsub 53 1024.
Definition fmul : float64 → float64 → float64 := SFmul 53 1024.
Definition fdiv : float64 → float64 → float64 := SFdiv 53 1024.

(** [float64(n)] *)
Definition of_int (z : Z) : float64 := binary_normalize 53 1024 z 0 false.

Definition fzero : float64 := S754_zero false.
Definition fone : float64 := S754_finite false 4503599627370496 (-52).

Definition fabs : float64 → float64 := SFabs.

(** [math.Round]: half away from zero. *)
Definition math_Round (x : float64) : float64 :=
  match x with
  | S754_finite s m e =>
      if 0 <=? e then x
      else
        let k := (Zpos m + 2 ^ (- e - 1)) / 2 ^ (- e) in
        if k =? 0 then S754_zero s else binary_normalize 53 1024 (cond_Zopp s k) 0 s
  | x => x
  end.

Definition is_inf (s : bool) (x : float64) : bool :=
  match x with S754_infinity s' => Bool.eqb s s' | _ => false end.
Definition is_nan (x : float64) : bool := match x with S754_nan => true | _ => false end.
Definition is_zero64 (x : float64) : bool := match x with S754_zero _ => true | _ => false end.
Definition signbit (x : float64) : bool :=
  match x with S754_zero s | S754_finite s _ _ | S754_infinity s => s | S754_nan => false end.

Definition math_Max (x y : float64) : float64 :=
  if is_inf false x || is_inf false y then S754_infinity false
  else if is_nan x || is_nan y then S754_nan
  else if is_zero64 x && is_zero64 y then if signbit x then y else x
  else if SFltb y x then x else y.

Definition math_Min (x y : float64) : float64 :=
  if is_inf true x || is_inf true y then S754_infinity true
  else if is_nan x || is_nan y then S754_nan
  else if is_zero64 x && is_zero64 y then if signbit x then x else y
  else if SFltb x y then x else y.

Example round_half : map math_Round
  [fdiv (of_int 5) (of_int 2); fdiv (of_int (-5)) (of_int 2); fdiv (of_int 9) (of_int 20); of_int 7] =
  [of_int 3; of_int (-3); S754_zero false; of_int 7].
Proof. reflexivity. Qed.

(** ** Texts

    [fmt]'s [%g] and [%.nf], and the number [encoding/json] writes for a finite float. *)
Class FloatText := {
  fmt_g : float64 → string;
  fmt_fixed : nat → float64 → string;
  float_json : float64 → string;
}.

(** [None]: a number that JSON does not have. *)
Definition json_float `{FloatText} (x : float64) : option string :=
  match x with
  | S754_nan | S754_infinity _ => None
  | _ => Some (float_json x)
  end.

(** ** Digits *)

Lemma digits2_spec p : 2 ^ (Zpos (digits2_pos p) - 1) ≤ Zpos p < 2 ^ Zpos (digits2_pos p).
Proof.
  induction p as [p IH|p IH|]; cbn [digits2_pos]; [| |done];
    rewrite Pos2Z.inj_succ; replace (Z.succ (Zpos (digits2_pos p)) - 1) with (Zpos (digits2_pos p)) by lia;
    rewrite Z.pow_succ_r by lia;
    assert (E : 2 ^ Zpos (digits2_pos p) = 2 * 2 ^ (Zpos (digits2_pos p) - 1))
      by (rewrite <-Z.pow_succ_r by lia; f_equal; lia);
    lia.
Qed.

(** ** Shifting

    A mantissa with its rounding and sticky bits stands for the value [n / u]. *)
Definition stands (mrs : shr_record) (n u : Z) : Prop :=
  0 ≤ shr_m mrs ∧ 0 < u ∧
  match mrs with
  | {| shr_m := m; shr_r := false; shr_s := false |} => n = m * u
  | {| shr_m := m; shr_r := false; shr_s := true |} => m * u < n ∧ 2 * n < 2 * (m * u) + u
  | {| shr_m := m; shr_r := true; shr_s := false |} => 2 * n = 2 * (m * u) + u
  | {| shr_m := m; shr_r := true; shr_s := true |} => 2 * (m * u) + u < 2 * n ∧ n < m * u + u
  end.

Lemma stands_shr_1 mrs n u : stands mrs n u → stands (shr_1 mrs) n (2 * u).
Proof.
  destruct mrs as [m r s]. unfold stands. cbn [shr_m]. intros (M & U & V).
  destruct m as [|[p|p|]|]; [| | | |lia]; cbn [shr_1 shr_m];
    (split; [lia|split; [lia|]]); clear M.
  - rewrite !Z.mul_0_l in *. destruct r, s; cbn [orb]; lia.
  - rewrite (Pos2Z.inj_xI p), Z.mul_add_distr_r, <-Z.mul_assoc in V. replace (Zpos p * (2 * u)) with (2 * (Zpos p * u)) by ring.
    revert V. generalize (Zpos p * u). intros q V. destruct r, s; cbn [orb]; lia.
  - rewrite (Pos2Z.inj_xO p), <-Z.mul_assoc in V. replace (Zpos p * (2 * u)) with (2 * (Zpos p * u)) by ring.
    revert V. generalize (Zpos p * u). intros q V. destruct r, s; cbn [orb]; lia.
  - destruct r, s; cbn [orb]; lia.
Qed.

Lemma iter_stands p : ∀ mrs n u, stands mrs n u → stands (SpecFloat.iter_pos shr_1 p mrs) n (2 ^ Zpos p * u).
Proof.
  induction p as [p IH|p IH|]; intros mrs n u S; cbn [SpecFloat.iter_pos].
  - apply stands_shr_1, IH, IH in S.
    assert (2 ^ Zpos p~1 = 2 * (2 ^ Zpos p * 2 ^ Zpos p)) as ->
      by (rewrite (Pos2Z.inj_xI p), Z.pow_add_r, Z.pow_twice_r by lia; lia).
    by replace (2 * (2 ^ Zpos p * 2 ^ Zpos p) * u) with (2 ^ Zpos p * (2 ^ Zpos p * (2 * u))) by ring.
  - rewrite (Pos2Z.inj_xO p), Z.pow_twice_r. apply IH, IH in S. by rewrite <-Z.mul_assoc.
  - change (2 ^ 1) with 2. by apply stands_shr_1.
Qed.

(** Rounding to the nearest, to even on a tie; no integer lies strictly between. *)
Definition nearest (m n u : Z) : Prop :=
  0 ≤ m ∧ 0 < u ∧ 2 * (m * u) ≤ 2 * n + u ∧ 2 * n ≤ 2 * (m * u) + u ∧
  (2 * (m * u) = 2 * n + u ∨ 2 * n = 2 * (m * u) + u → Z.even m = true).

Lemma stands_nearest mrs n u : stands mrs n u →
  nearest (round_nearest_even (shr_m mrs) (loc_of_shr_record mrs)) n u.
Proof.
  destruct mrs as [m r s]. unfold stands, nearest. cbn [shr_m]. intros (M & U & V).
  destruct r, s; cbn [loc_of_shr_record round_nearest_even]; [| |..];
    [|destruct (Z.even m) eqn:Ev|..]; (split_and!; [lia|lia|lia|lia|]); intros T; try done; try lia.
  rewrite Z.add_1_r, Z.even_succ, <-Z.negb_even. by rewrite Ev.
Qed.

Lemma nearest_le m n u c : nearest m n u → n ≤ c * u → m ≤ c.
Proof.
  intros (M & U & N & _) C. destruct (Z.le_gt_cases m c) as [|G]; [done|].
  assert ((c + 1) * u ≤ m * u) by (apply Z.mul_le_mono_nonneg_r; lia). lia.
Qed.

Lemma nearest_ge m n u c : nearest m n u → c * u ≤ n → c ≤ m.
Proof.
  intros (M & U & _ & N & _) C. destruct (Z.le_gt_cases c m) as [|G]; [done|].
  assert ((m + 1) * u ≤ c * u) by (apply Z.mul_le_mono_nonneg_r; lia). lia.
Qed.

Lemma nearest_mono m n m' n' u : nearest m n u → nearest m' n' u → n ≤ n' → m ≤ m'.
Proof.
  intros (M & U & N & _ & Ev) (M' & _ & _ & N' & Ev') L.
  destruct (Z.le_gt_cases m m') as [|G]; [done|].
  assert (B : (m' + 1) * u ≤ m * u) by (apply Z.mul_le_mono_nonneg_r; lia).
  rewrite Z.mul_add_distr_r, Z.mul_1_l in B.
  assert (E : m = m' + 1) by (apply (Z.mul_reg_r _ _ u); lia).
  rewrite E, Z.mul_add_distr_r, Z.mul_1_l in *.
  assert (A : Z.even (m' + 1) = true) by (apply Ev; left; lia).
  assert (A' : Z.even m' = true) by (apply Ev'; right; lia).
  rewrite Z.add_1_r, Z.even_succ, <-Z.negb_even, A' in A. done.
Qed.

Lemma nearest_exact m u : 0 ≤ m → 0 < u → nearest m (m * u) u.
Proof. intros M U. split_and!; [done|done|lia|lia|]. intros [?|?]; lia. Qed.

(** ** Values

    A float that is not negative, in units of the smallest positive one. *)
Definition mantissa (m e : Z) : Prop := 0 < m < 2 ^ 53 ∧ -1074 ≤ e ≤ 971 ∧ (e = -1074 ∨ 2 ^ 52 ≤ m).

Definition is_val (x : float64) (v : Z) : Prop :=
  match x with
  | S754_zero _ => v = 0
  | S754_finite false m e => mantissa (Zpos m) e ∧ v = Zpos m * 2 ^ (e + 1074)
  | _ => False
  end.

(** Or an overflow of a value out of range. *)
Definition fits (x : float64) (v : Z) : Prop :=
  is_val x v ∨ (x = S754_infinity false ∧ 2 ^ 2098 ≤ v).

Lemma is_val_cases x v : is_val x v →
  (v = 0 ∧ ∃ s, x = S754_zero s) ∨
  ∃ m e, x = S754_finite false m e ∧ mantissa (Zpos m) e ∧ v = Zpos m * 2 ^ (e + 1074).
Proof. destruct x as [s|?| |[|] m e]; cbn [is_val]; try done; [left; eauto|intros [? ?]; right; eauto 10]. Qed.

Lemma is_val_nonneg x v : is_val x v → 0 ≤ v.
Proof.
  intros V. destruct (is_val_cases x v V) as [[-> _]|(m & e & _ & _ & ->)]; [done|].
  apply Z.mul_nonneg_nonneg; [done|apply Z.pow_nonneg; done].
Qed.

Lemma fits_nonneg x v : fits x v → 0 ≤ v.
Proof.
  intros [V|[_ L]]; [by eapply is_val_nonneg|]. etransitivity; [|exact L]. by apply Z.pow_nonneg.
Qed.

Lemma fits_val x v : fits x v → v < 2 ^ 2098 → is_val x v.
Proof. intros [V|[_ L]] G; [done|]. by apply Z.lt_nge in G. Qed.

(** ** Rounding *)

Lemma fexp_eq x : fexp 53 1024 x = Z.max (x - 53) (-1074).
Proof. reflexivity. Qed.

(** The exponent a mantissa of [d] digits is rounded at. *)
Definition rexp (d e : Z) : Z := Z.max (d + e - 53) (-1074).

Lemma shr_fexp_stands m e l n u : stands (shr_record_of_loc m l) n u → e ≤ rexp (Zdigits2 m) e →
  ∃ mrs, shr_fexp 53 1024 m e l = (mrs, rexp (Zdigits2 m) e) ∧
    stands mrs n (2 ^ (rexp (Zdigits2 m) e - e) * u).
Proof.
  intros S G. unfold shr_fexp, shr. rewrite fexp_eq. change (Z.max _ _) with (rexp (Zdigits2 m) e).
  destruct (rexp (Zdigits2 m) e - e) as [|p|p] eqn:F; [| |lia].
  - exists (shr_record_of_loc m l). rewrite Z.mul_1_l. split; [f_equal; lia|done].
  - eexists. split; [f_equal; lia|]. by apply iter_stands.
Qed.

Lemma digits_le p k : 0 ≤ k → Zpos p < 2 ^ k → Zpos (digits2_pos p) ≤ k.
Proof.
  intros K L. destruct (digits2_spec p) as [D _].
  destruct (Z.le_gt_cases (Zpos (digits2_pos p)) k); [done|].
  assert (2 ^ k ≤ 2 ^ (Zpos (digits2_pos p) - 1)) by (apply Z.pow_le_mono_r; lia). lia.
Qed.

(** The float of a rounded mantissa. *)
Definition packed (m e : Z) : float64 :=
  match m with
  | Zpos p =>
      if m =? 2 ^ 53 then if e + 1 <=? 971 then S754_finite false 4503599627370496 (e + 1) else S754_infinity false
      else if e <=? 971 then S754_finite false p e else S754_infinity false
  | _ => S754_zero false
  end.

Lemma pack_eq m e : 0 ≤ m ≤ 2 ^ 53 → -1074 ≤ e →
  (let '(mrs, e) := shr_fexp 53 1024 m e loc_Exact in
   match shr_m mrs with
   | Z0 => S754_zero false
   | Zpos m => if e <=? 1024 - 53 then S754_finite false m e else S754_infinity false
   | Zneg _ => S754_nan
   end) = packed m e.
Proof.
  intros M E. destruct (Z.eq_dec m (2 ^ 53)) as [->|N].
  { unfold shr_fexp. rewrite fexp_eq. change (Zdigits2 (2 ^ 53)) with 54.
    replace (Z.max (54 + e - 53) (-1074) - e) with 1 by lia. reflexivity. }
  assert (F : fexp 53 1024 (Zdigits2 m + e) - e ≤ 0).
  { rewrite fexp_eq. destruct m as [|p|p]; [cbn [Zdigits2]; lia| |lia].
    cbn [Zdigits2]. pose proof (digits_le p 53). lia. }
  unfold shr_fexp, shr. destruct (fexp 53 1024 (Zdigits2 m + e) - e) as [|q|q]; [|lia|];
    (destruct m as [|p|p]; [done| |lia]; cbn [shr_record_of_loc shr_m packed];
     by rewrite (proj2 (Z.eqb_neq _ _) N)).
Qed.

Lemma packed_fits m e : 0 ≤ m ≤ 2 ^ 53 → -1074 ≤ e → (m = 0 ∨ e = -1074 ∨ 2 ^ 52 ≤ m) →
  fits (packed m e) (m * 2 ^ (e + 1074)).
Proof.
  intros M E C. destruct m as [|p|p]; [by left| |lia]. cbn [packed].
  assert (Big : ∀ k, 2098 ≤ k + (e + 1074) → 0 ≤ k → 2 ^ k ≤ Zpos p → 2 ^ 2098 ≤ Zpos p * 2 ^ (e + 1074)).
  { intros k G K L. apply Z.le_trans with (2 ^ k * 2 ^ (e + 1074)).
    - rewrite <-Z.pow_add_r by lia. apply Z.pow_le_mono_r; lia.
    - apply Z.mul_le_mono_nonneg_r; [apply Z.pow_nonneg; lia|done]. }
  destruct (Z.eqb_spec (Zpos p) (2 ^ 53)) as [Q|Q].
  - destruct (Z.leb_spec (e + 1) 971); [left|right; split; [done|]; apply (Big 53); lia].
    split; [split_and!; lia|]. rewrite Q. replace (e + 1 + 1074) with (1 + (e + 1074)) by lia.
    rewrite (Z.pow_add_r 2 1) by lia. change (2 ^ 53) with (4503599627370496 * 2). change (2 ^ 1) with 2. ring.
  - destruct (Z.leb_spec e 971); [left|right; split; [done|]; apply (Big 52); lia].
    split; [split_and!; lia|done].
Qed.

Lemma zdigits_lt m : 0 ≤ m → m < 2 ^ Zdigits2 m.
Proof. destruct m as [|p|p]; cbn [Zdigits2]; [done| |lia]. intros _. apply digits2_spec. Qed.

Lemma stands_mantissa m l n u : stands (shr_record_of_loc m l) n u → m * u ≤ n ∧ n < (m + 1) * u ∧ 0 < u.
Proof.
  assert (shr_m (shr_record_of_loc m l) = m) as E by (destruct l as [|[]]; done).
  destruct (shr_record_of_loc m l) as [m' r s]. cbn in E. subst m'. unfold stands. cbn [shr_m].
  destruct r, s; lia.
Qed.

(** The float an operation returns for [n / u] at the exponent [e]. *)
Lemma round_fits m e l n u : stands (shr_record_of_loc m l) n u → 0 ≤ m → e ≤ rexp (Zdigits2 m) e →
  ∃ m', nearest m' n (2 ^ (rexp (Zdigits2 m) e - e) * u) ∧
    fits (binary_round_aux 53 1024 false m e l) (m' * 2 ^ (rexp (Zdigits2 m) e + 1074)).
Proof.
  intros S M G. destruct (shr_fexp_stands m e l n u S G) as (mrs & F & S').
  exists (round_nearest_even (shr_m mrs) (loc_of_shr_record mrs)).
  pose proof (stands_nearest _ _ _ S') as N. split; [done|].
  destruct (stands_mantissa _ _ _ _ S) as (Lo & Hi & U).
  set (k := rexp (Zdigits2 m) e - e) in *. assert (K : Zdigits2 m ≤ 53 + k) by (unfold k, rexp; lia).
  assert (B : round_nearest_even (shr_m mrs) (loc_of_shr_record mrs) ≤ 2 ^ 53).
  { apply (nearest_le _ _ _ _ N). rewrite Z.mul_assoc, <-Z.pow_add_r by lia.
    apply Z.lt_le_incl, (Z.lt_le_trans _ _ _ Hi), Z.mul_le_mono_nonneg_r; [lia|].
    pose proof (zdigits_lt m M). assert (2 ^ Zdigits2 m ≤ 2 ^ (53 + k)) by (apply Z.pow_le_mono_r; lia). lia. }
  unfold binary_round_aux. rewrite F, pack_eq; [|split; [exact (proj1 N)|done]|unfold rexp; lia].
  apply packed_fits; [split; [exact (proj1 N)|done]|unfold rexp; lia|].
  destruct m as [|p|p]; [| |lia].
  { cbn [Zdigits2] in G. right. left. unfold rexp in *. cbn [Zdigits2] in *. lia. }
  destruct (Z.eq_dec (rexp (Zdigits2 (Zpos p)) e) (-1074)) as [Q|Q]; [by right; left|right; right].
  assert (k = Zdigits2 (Zpos p) - 53) as Ek by (unfold k, rexp in *; lia).
  apply (nearest_ge _ _ _ _ N). apply Z.le_trans with (Zpos p * u); [|done].
  rewrite Z.mul_assoc, <-Z.pow_add_r by lia. apply Z.mul_le_mono_nonneg_r; [lia|].
  replace (52 + k) with (Zdigits2 (Zpos p) - 1) by lia. apply (proj1 (digits2_spec p)).
Qed.

(** Rounding does not go above a float the exact value is not above. *)
Lemma round_le m e l n u b eb : stands (shr_record_of_loc m l) n u → 0 ≤ m → e ≤ rexp (Zdigits2 m) e →
  0 ≤ b < 2 ^ 53 → -1074 ≤ eb → e ≤ eb → n ≤ b * 2 ^ (eb - e) * u →
  ∃ v, fits (binary_round_aux 53 1024 false m e l) v ∧ v ≤ b * 2 ^ (eb + 1074).
Proof.
  intros S M G B Eb Le L. destruct (round_fits m e l n u S M G) as (m' & N & F).
  eexists. split; [exact F|]. destruct (stands_mantissa _ _ _ _ S) as (Lo & _ & U).
  set (E := rexp (Zdigits2 m) e) in *.
  assert (Q : E ≤ eb).
  { unfold E, rexp. enough (Zdigits2 m + e - 53 ≤ eb) by lia.
    destruct m as [|p|p]; [cbn [Zdigits2]; lia| |lia]. cbn [Zdigits2].
    destruct (digits2_spec p) as [D _].
    assert (Zpos p * u < 2 ^ (53 + (eb - e)) * u).
    { rewrite Z.pow_add_r by lia. apply Z.le_lt_trans with (b * 2 ^ (eb - e) * u); [lia|].
      apply Z.mul_lt_mono_pos_r; [done|]. apply Z.mul_lt_mono_pos_r; [apply Z.pow_pos_nonneg; lia|lia]. }
    assert (Zpos p < 2 ^ (53 + (eb - e))) by (apply (Z.mul_lt_mono_pos_r u); [done|lia]).
    assert (Zpos (digits2_pos p) - 1 < 53 + (eb - e)) by (apply (Z.pow_lt_mono_r_iff 2); lia). lia. }
  replace (eb + 1074) with ((eb - E) + (E + 1074)) by lia.
  assert (-1074 ≤ E) by (unfold E, rexp; lia).
  rewrite (Z.pow_add_r 2 (eb - E)), Z.mul_assoc by lia.
  apply Z.mul_le_mono_nonneg_r; [apply Z.pow_nonneg; lia|]. apply (nearest_le _ _ _ _ N).
  etransitivity; [exact L|]. apply Z.eq_le_incl. rewrite !Z.mul_assoc. f_equal.
  rewrite <-Z.mul_assoc, <-Z.pow_add_r by lia. do 2 f_equal. lia.
Qed.

(** ** Products *)

Lemma stands_exact m : 0 ≤ m → stands (shr_record_of_loc m loc_Exact) m 1.
Proof. intros M. split_and!; cbn; lia. Qed.

(** At least the exponent. *)
Lemma digits_ge p k : 0 ≤ k → 2 ^ k ≤ Zpos p → k < Zpos (digits2_pos p).
Proof.
  intros K L. destruct (digits2_spec p) as [_ D]. apply (Z.pow_lt_mono_r_iff 2); [lia|lia|lia].
Qed.

Lemma product_rexp m e m' e' : mantissa (Zpos m) e → mantissa (Zpos m') e' →
  e + e' ≤ rexp (Zdigits2 (Zpos (m * m'))) (e + e').
Proof.
  intros (M & E & C) (M' & E' & C'). unfold rexp. cbn [Zdigits2].
  enough (-1074 < e + e' → 53 ≤ Zpos (digits2_pos (m * m'))) by lia. intros G.
  enough (52 < Zpos (digits2_pos (m * m'))) by lia. apply digits_ge; [done|]. rewrite Pos2Z.inj_mul.
  destruct C as [->|C]; destruct C' as [->|C']; [lia|nia|nia|].
  change (2 ^ 52) with 4503599627370496 in *. nia.
Qed.

(** A product is at most a float its exact value is not above. *)
Lemma fmul_le x y v w b eb : is_val x v → is_val y w → 0 ≤ b < 2 ^ 53 → -1074 ≤ eb →
  (∀ m e m' e', x = S754_finite false m e → y = S754_finite false m' e' →
     e + e' ≤ eb ∧ Zpos m * Zpos m' ≤ b * 2 ^ (eb - (e + e'))) →
  ∃ z, fits (fmul x y) z ∧ z ≤ b * 2 ^ (eb + 1074).
Proof.
  intros X Y B Eb L.
  assert (Z : 0 ≤ b * 2 ^ (eb + 1074)) by (apply Z.mul_nonneg_nonneg; [lia|apply Z.pow_nonneg; lia]).
  destruct (is_val_cases x v X) as [(_ & s & ->)|(m & e & -> & M & _)].
  { destruct (is_val_cases y w Y) as [(_ & s' & ->)|(m' & e' & -> & _)]; (exists 0; split; [by left|done]). }
  destruct (is_val_cases y w Y) as [(_ & s' & ->)|(m' & e' & -> & M' & _)]; [exists 0; split; [by left|done]|].
  destruct (L m e m' e' eq_refl eq_refl) as [Le Lm]. unfold fmul. cbn [SFmul xorb].
  apply (round_le _ _ _ (Zpos (m * m')) 1 b eb); [by apply stands_exact|done| |done|done|done|].
  - by apply product_rexp.
  - rewrite Z.mul_1_r. exact Lm.
Qed.

Lemma fmul_nonneg x y v w : is_val x v → is_val y w → ∃ z, fits (fmul x y) z.
Proof.
  intros X Y. destruct (is_val_cases x v X) as [(_ & s & ->)|(m & e & -> & M & _)];
    destruct (is_val_cases y w Y) as [(_ & s' & ->)|(m' & e' & -> & M' & _)]; try (exists 0; by left).
  unfold fmul. cbn [SFmul xorb].
  destruct (round_fits (Zpos (m * m')) (e + e') loc_Exact (Zpos (m * m')) 1) as (z & _ & F);
    [by apply stands_exact|done|by apply product_rexp|eauto].
Qed.

(** In units, [1.0] is [2 ^ 1074]. *)
Definition unit64 : Z := 2 ^ 1074.

Lemma is_val_one : is_val fone unit64.
Proof. split; [split_and!; lia|reflexivity]. Qed.

Lemma below_one m e : mantissa (Zpos m) e → Zpos m * 2 ^ (e + 1074) ≤ unit64 →
  e ≤ -52 ∧ Zpos m ≤ 2 ^ (- e).
Proof.
  intros (M & E & C) L. unfold unit64 in L.
  assert (e ≤ -52).
  { destruct C as [->|C]; [done|]. destruct (Z.le_gt_cases e (-52)) as [|G]; [done|].
    assert (2 ^ 52 * 2 ^ (e + 1074) ≤ Zpos m * 2 ^ (e + 1074)) as T
      by (apply Z.mul_le_mono_nonneg_r; [apply Z.pow_nonneg|]; lia).
    rewrite <-Z.pow_add_r in T by lia.
    assert (52 + (e + 1074) ≤ 1074) by (apply (Z.pow_le_mono_r_iff 2); [lia|lia|]; etransitivity; [exact T|exact L]).
    lia. }
  split; [done|]. apply (Z.mul_le_mono_pos_r _ _ (2 ^ (e + 1074))); [apply Z.pow_pos_nonneg; lia|].
  rewrite <-Z.pow_add_r by lia. by replace (- e + (e + 1074)) with 1074 by lia.
Qed.

(** A product with a factor of at most one is at most the other. *)
Lemma fmul_le_left x y v w : is_val x v → is_val y w → w ≤ unit64 → ∃ z, is_val (fmul x y) z ∧ z ≤ v.
Proof.
  intros X Y W. destruct (is_val_cases x v X) as [(-> & s & ->)|(m & e & -> & M & ->)].
  { exists 0. destruct (is_val_cases y w Y) as [(_ & s' & ->)|(m' & e' & -> & _)]; done. }
  destruct (fmul_le (S754_finite false m e) y _ w (Zpos m) e X Y) as (z & F & L); [unfold mantissa in M; lia..| |].
  { intros m0 e0 m' e' [= <- <-] ->. destruct Y as [M' ->]. destruct (below_one m' e' M' W) as [G L].
    split; [lia|]. replace (e - (e + e')) with (- e') by lia. apply Z.mul_le_mono_nonneg_l; lia. }
  exists z. split; [|done]. apply (fits_val _ _ F). apply Z.le_lt_trans with (Zpos m * 2 ^ (e + 1074)); [exact L|].
  destruct M as (M & E & _). apply Z.lt_le_trans with (2 ^ 53 * 2 ^ (e + 1074)).
  - apply Z.mul_lt_mono_pos_r; [apply Z.pow_pos_nonneg; lia|lia].
  - rewrite <-Z.pow_add_r by lia. apply Z.pow_le_mono_r; lia.
Qed.

(** ** Exact values

    A whole number of units, rounded. *)
Definition coarse (n : Z) : Z := Z.max 0 (Zdigits2 n - 53).
Definition rounded (n v : Z) : Prop := ∃ m, nearest m n (2 ^ coarse n) ∧ v = m * 2 ^ coarse n.

Lemma digits_unique p d : 0 < d → 2 ^ (d - 1) ≤ Zpos p < 2 ^ d → Zpos (digits2_pos p) = d.
Proof.
  intros D [L G]. destruct (digits2_spec p) as [L' G'].
  assert (Zpos (digits2_pos p) - 1 < d) by (apply (Z.pow_lt_mono_r_iff 2); lia).
  assert (d - 1 < Zpos (digits2_pos p)) by (apply (Z.pow_lt_mono_r_iff 2); lia). lia.
Qed.

Lemma digits_shift p k q : 0 ≤ k → Zpos q = Zpos p * 2 ^ k → Zpos (digits2_pos q) = Zpos (digits2_pos p) + k.
Proof.
  intros K Q. destruct (digits2_spec p) as [L G]. assert (0 < 2 ^ k) by (apply Z.pow_pos_nonneg; lia).
  apply digits_unique; [lia|]. rewrite Q. split.
  - replace (Zpos (digits2_pos p) + k - 1) with (Zpos (digits2_pos p) - 1 + k) by lia.
    rewrite Z.pow_add_r by lia. apply Z.mul_le_mono_nonneg_r; lia.
  - rewrite Z.pow_add_r by lia. apply Z.mul_lt_mono_pos_r; lia.
Qed.

Lemma iter_xO p d : Zpos (Pos.iter xO p d) = Zpos p * 2 ^ Zpos d.
Proof.
  induction d as [|d IH] using Pos.peano_ind; [cbn [Pos.iter]; lia|].
  rewrite Pos.iter_succ, Pos2Z.inj_succ, Z.pow_succ_r by done. rewrite (Pos2Z.inj_xO), IH. lia.
Qed.

Lemma shl_align_spec p e t : ∃ q, shl_align p e t = (q, Z.min e t) ∧ Zpos q = Zpos p * 2 ^ (e - Z.min e t).
Proof.
  unfold shl_align. destruct (t - e) as [|d|d] eqn:D; eexists; (split; [f_equal; lia|]).
  - replace (e - Z.min e t) with 0 by lia. lia.
  - replace (e - Z.min e t) with 0 by lia. lia.
  - rewrite iter_xO. do 2 f_equal. lia.
Qed.

Lemma nearest_scale m n u c : 0 < c → nearest m n u → nearest m (n * c) (u * c).
Proof.
  intros C (M & U & A & B & Ev). split_and!; [done|nia|nia|nia|]. intros T. apply Ev. nia.
Qed.

Lemma round_exact p e : -1074 ≤ e → ∃ v, rounded (Zpos p * 2 ^ (e + 1074)) v ∧ fits (binary_round 53 1024 false p e) v.
Proof.
  intros E. unfold binary_round.
  destruct (shl_align_spec p e (fexp 53 1024 (Zpos (digits2_pos p) + e))) as (q & -> & Q).
  rewrite fexp_eq in *. set (t := Z.min e _) in *. assert (T : t ≤ e ∧ -1074 ≤ t) by (unfold t; lia).
  pose proof (digits_shift p (e - t) q ltac:(lia) Q) as D.
  destruct (round_fits (Zpos q) t loc_Exact (Zpos q) 1) as (m & N & F);
    [by apply stands_exact|done|unfold rexp; cbn [Zdigits2]; unfold t; lia|].
  eexists. split; [|exact F]. exists m. rewrite Z.mul_1_r in N.
  assert (P : Zpos p * 2 ^ (e + 1074) = Zpos q * 2 ^ (t + 1074))
    by (rewrite Q, <-Z.mul_assoc, <-Z.pow_add_r by lia; do 2 f_equal; lia).
  set (n := Zpos p * 2 ^ (e + 1074)) in *.
  assert (0 < n) by (apply Z.mul_pos_pos; [done|apply Z.pow_pos_nonneg; lia]).
  assert (C : coarse n = rexp (Zdigits2 (Zpos q)) t + 1074).
  { unfold coarse, rexp. destruct n as [|n0|] eqn:En; [done| |done]. cbn [Zdigits2].
    rewrite (digits_shift q (t + 1074) n0); lia. }
  rewrite C. split; [|done]. rewrite P.
  replace (2 ^ (rexp (Zdigits2 (Zpos q)) t + 1074)) with (2 ^ (rexp (Zdigits2 (Zpos q)) t - t) * 2 ^ (t + 1074)).
  { apply nearest_scale; [apply Z.pow_pos_nonneg; lia|done]. }
  rewrite <-Z.pow_add_r; [f_equal; lia| |lia]. unfold rexp, t. cbn [Zdigits2]. unfold t in D. lia.
Qed.

Lemma coarse_mono n n' : 0 ≤ n ≤ n' → coarse n ≤ coarse n'.
Proof.
  intros [N L]. unfold coarse. enough (Zdigits2 n ≤ Zdigits2 n') by lia.
  destruct n as [|p|p]; [destruct n'; cbn [Zdigits2]; lia| |lia]. destruct n' as [|p'|p']; [lia| |lia].
  cbn [Zdigits2]. apply digits_le; [lia|]. destruct (digits2_spec p'). lia.
Qed.

Lemma rounded_mono n v n' v' : 0 ≤ n ≤ n' → rounded n v → rounded n' v' → v ≤ v'.
Proof.
  intros N (m & R & ->) (m' & R' & ->). pose proof (coarse_mono n n' N) as C.
  assert (0 ≤ coarse n) by (unfold coarse; lia).
  destruct (Z.eq_dec (coarse n) (coarse n')) as [Q|Q].
  { rewrite Q in *. apply Z.mul_le_mono_nonneg_r; [apply Z.pow_nonneg; lia|]. apply (nearest_mono m n m' n' _ R R'). lia. }
  (* the larger one has more digits: it is at least the power of two between them *)
  set (k := coarse n) in *. set (k' := coarse n') in *.
  assert (Dn : n < 2 ^ (53 + k)).
  { pose proof (zdigits_lt n (proj1 N)). assert (2 ^ Zdigits2 n ≤ 2 ^ (53 + k)) by (apply Z.pow_le_mono_r; unfold k, coarse; lia). lia. }
  assert (Dn' : 2 ^ (52 + k') ≤ n').
  { destruct n' as [|p|p]; [unfold k', coarse in *; cbn in *; lia| |lia].
    replace (52 + k') with (Zpos (digits2_pos p) - 1) by (unfold k', coarse in *; cbn [Zdigits2] in *; lia).
    apply digits2_spec. }
  apply Z.le_trans with (2 ^ 53 * 2 ^ k).
  - apply Z.mul_le_mono_nonneg_r; [apply Z.pow_nonneg; lia|]. apply (nearest_le _ _ _ _ R).
    rewrite <-Z.pow_add_r by lia. lia.
  - apply Z.le_trans with (2 ^ 52 * 2 ^ k').
    + rewrite <-!Z.pow_add_r by lia. apply Z.pow_le_mono_r; lia.
    + apply Z.mul_le_mono_nonneg_r; [apply Z.pow_nonneg; lia|]. apply (nearest_ge _ _ _ _ R').
      rewrite <-Z.pow_add_r by lia. lia.
Qed.

(** A float is its own rounding. *)
Lemma rounded_self b j : 0 ≤ b < 2 ^ 53 → 0 ≤ j → rounded (b * 2 ^ j) (b * 2 ^ j).
Proof.
  intros B J. assert (C : 0 ≤ coarse (b * 2 ^ j) ≤ j).
  { unfold coarse. split; [lia|]. destruct b as [|b|b]; [done| |lia].
    destruct (Zpos b * 2 ^ j) as [|p|p] eqn:P; [cbn; lia| |lia]. cbn [Zdigits2].
    rewrite (digits_shift b j p) by done. pose proof (digits_le b 53). lia. }
  unfold rounded. set (k := coarse _) in *. clearbody k. exists (b * 2 ^ (j - k)).
  replace (b * 2 ^ j) with (b * 2 ^ (j - k) * 2 ^ k) by (rewrite <-Z.mul_assoc, <-Z.pow_add_r by lia; do 2 f_equal; lia).
  split; [|done]. apply nearest_exact; [|apply Z.pow_pos_nonneg; lia].
  apply Z.mul_nonneg_nonneg; [lia|apply Z.pow_nonneg; lia].
Qed.

Lemma is_val_self x v : is_val x v → rounded v v.
Proof.
  intros V. destruct (is_val_cases x v V) as [(-> & _)|(m & e & _ & (M & E & _) & ->)].
  - by apply (rounded_self 0 0).
  - apply rounded_self; lia.
Qed.

(** ** Sums *)

Lemma fadd_fits x y v w : is_val x v → is_val y w → ∃ z, rounded (v + w) z ∧ fits (fadd x y) z.
Proof.
  intros X Y. destruct (is_val_cases x v X) as [(-> & s & ->)|(m & e & -> & M & ->)].
  { exists w. rewrite Z.add_0_l. split; [by apply (is_val_self y)|].
    destruct (is_val_cases y w Y) as [(-> & s' & ->)|(m' & e' & -> & _)]; [by left; destruct s, s'|by left]. }
  destruct (is_val_cases y w Y) as [(-> & s' & ->)|(m' & e' & -> & M' & ->)].
  { eexists. rewrite Z.add_0_r. split; [by apply (is_val_self _ _ X)|by left]. }
  unfold fadd. cbn [SFadd cond_Zopp].
  destruct (shl_align_spec m e (Z.min e e')) as (q & -> & Q).
  destruct (shl_align_spec m' e' (Z.min e e')) as (q' & -> & Q'). cbn [fst].
  destruct M as (_ & E & _), M' as (_ & E' & _).
  replace (Z.min e (Z.min e e')) with (Z.min e e') in Q by lia.
  replace (Z.min e' (Z.min e e')) with (Z.min e e') in Q' by lia.
  replace (Zpos m * 2 ^ (e + 1074)) with (Zpos q * 2 ^ (Z.min e e' + 1074))
    by (rewrite Q, <-Z.mul_assoc, <-Z.pow_add_r by lia; do 2 f_equal; lia).
  replace (Zpos m' * 2 ^ (e' + 1074)) with (Zpos q' * 2 ^ (Z.min e e' + 1074))
    by (rewrite Q', <-Z.mul_assoc, <-Z.pow_add_r by lia; do 2 f_equal; lia).
  rewrite <-Z.mul_add_distr_r. change (Zpos q + Zpos q') with (Zpos (q + q')). cbn [binary_normalize].
  apply round_exact. lia.
Qed.

Lemma fsub_fits x y v w : is_val x v → is_val y w → w < v → ∃ z, rounded (v - w) z ∧ fits (fsub x y) z.
Proof.
  intros X Y L. pose proof (is_val_nonneg y w Y) as W.
  destruct (is_val_cases x v X) as [(-> & s & ->)|(m & e & -> & M & ->)]; [lia|].
  destruct (is_val_cases y w Y) as [(-> & s' & ->)|(m' & e' & -> & M' & ->)].
  { eexists. rewrite Z.sub_0_r. split; [by apply (is_val_self _ _ X)|by left]. }
  unfold fsub. cbn [SFsub cond_Zopp].
  destruct (shl_align_spec m e (Z.min e e')) as (q & -> & Q).
  destruct (shl_align_spec m' e' (Z.min e e')) as (q' & -> & Q'). cbn [fst].
  destruct M as (_ & E & _), M' as (_ & E' & _).
  replace (Z.min e (Z.min e e')) with (Z.min e e') in Q by lia.
  replace (Z.min e' (Z.min e e')) with (Z.min e e') in Q' by lia.
  assert (R : Zpos m * 2 ^ (e + 1074) = Zpos q * 2 ^ (Z.min e e' + 1074))
    by (rewrite Q, <-Z.mul_assoc, <-Z.pow_add_r by lia; do 2 f_equal; lia).
  assert (R' : Zpos m' * 2 ^ (e' + 1074) = Zpos q' * 2 ^ (Z.min e e' + 1074))
    by (rewrite Q', <-Z.mul_assoc, <-Z.pow_add_r by lia; do 2 f_equal; lia).
  rewrite R, R' in *. rewrite <-Z.mul_sub_distr_r.
  assert (Zpos q' < Zpos q) by (apply (Z.mul_lt_mono_pos_r (2 ^ (Z.min e e' + 1074))); [apply Z.pow_pos_nonneg; lia|lia]).
  destruct (Zpos q - Zpos q') as [|p|p] eqn:P; [lia| |lia]. cbn [binary_normalize]. apply round_exact. lia.
Qed.

(** ** Quotients *)

Lemma new_location_eq d r : new_location d r =
  if r =? 0 then loc_Exact
  else loc_Inexact (if Z.even d then 2 * r ?= d else match 2 * r + 1 ?= d with Gt => Gt | _ => Lt end).
Proof.
  unfold new_location, new_location_even, new_location_odd.
  change (r =? 0) with (IntDef.Z.eqb r 0). change (Z.even d) with (IntDef.Z.even d).
  by destruct (IntDef.Z.even d), (IntDef.Z.eqb r 0).
Qed.

Lemma new_location_stands q r d : 0 ≤ q → 0 ≤ r < d → stands (shr_record_of_loc q (new_location d r)) (q * d + r) d.
Proof.
  intros Q R. rewrite new_location_eq. unfold stands. destruct (Z.eqb_spec r 0) as [E|N].
  { cbn [shr_record_of_loc shr_m]. lia. }
  destruct (Z.even d) eqn:Ev.
  - destruct (Z.compare_spec (2 * r) d); cbn [shr_record_of_loc shr_m]; lia.
  - apply (f_equal negb) in Ev. rewrite Z.negb_even in Ev. apply Z.odd_spec in Ev as [c ->].
    destruct (Z.compare_spec (2 * r + 1) (2 * c + 1)); cbn [shr_record_of_loc shr_m]; lia.
Qed.

(** The quotient of two positive floats before it is rounded. *)
Lemma div_core m e m' e' :
  let D := Zpos (digits2_pos m) + e - (Zpos (digits2_pos m') + e') in
  let t := Z.min (rexp D 0) (e - e') in
  ∃ q l, SFdiv_core_binary 53 1024 (Zpos m) e (Zpos m') e' = (q, t, l) ∧ 0 ≤ q ∧
    stands (shr_record_of_loc q l) (Zpos m * 2 ^ (e - e' - t)) (Zpos m') ∧ t ≤ rexp (Zdigits2 q) t.
Proof.
  cbn zeta. unfold SFdiv_core_binary. cbn [Zdigits2]. rewrite fexp_eq.
  set (D := Zpos (digits2_pos m) + e - (Zpos (digits2_pos m') + e')).
  assert (Z.max (D - 53) (-1074) = rexp D 0) as -> by (unfold rexp; f_equal; lia).
  set (t := Z.min (rexp D 0) (e - e')). set (s := e - e' - t). assert (S : 0 ≤ s) by (unfold s, t; lia).
  assert ((match s with Zpos _ => Z.shiftl (Zpos m) s | Z0 => Zpos m | Zneg _ => Z0 end) = Zpos m * 2 ^ s) as ->.
  { destruct s as [|s'|]; [lia|by rewrite Z.shiftl_mul_pow2|lia]. }
  rewrite (surjective_pairing (Z.div_eucl _ _)). change (Z.div_eucl ?a ?b).1 with (a / b).
  change (Z.div_eucl ?a ?b).2 with (a mod b).
  set (n := Zpos m * 2 ^ s). assert (N : 0 < n) by (apply Z.mul_pos_pos; [done|apply Z.pow_pos_nonneg; lia]).
  assert (Q : 0 ≤ n / Zpos m') by (apply Z.div_pos; lia).
  exists (n / Zpos m'), (new_location (Zpos m') (n mod Zpos m')). split; [done|split; [done|split]].
  - pose proof (Z.mod_pos_bound n (Zpos m') ltac:(lia)) as R.
    pose proof (new_location_stands (n / Zpos m') _ _ Q R) as St.
    replace (n / Zpos m' * Zpos m' + n mod Zpos m') with n in St; [done|].
    rewrite (Z.mul_comm (n / _)). apply Z.div_mod. lia.
  - assert (Dq : D - t ≤ Zdigits2 (n / Zpos m')).
    { destruct (Z.le_gt_cases (D - t) (Zdigits2 (n / Zpos m'))) as [|G]; [done|exfalso].
      set (dq := Zdigits2 (n / Zpos m')) in *. assert (0 ≤ dq) by (unfold dq; destruct (n / Zpos m'); cbn; lia).
      pose proof (zdigits_lt _ Q) as Lq. fold dq in Lq.
      assert (n < 2 ^ dq * Zpos m').
      { apply Z.lt_le_trans with ((n / Zpos m' + 1) * Zpos m').
        - pose proof (Z.mul_succ_div_gt n (Zpos m')). lia.
        - apply Z.mul_le_mono_nonneg_r; lia. }
      destruct (digits2_spec m) as [Lm _], (digits2_spec m') as [_ Gm].
      assert (2 ^ (Zpos (digits2_pos m) - 1 + s) ≤ n) by (rewrite Z.pow_add_r by lia; apply Z.mul_le_mono_nonneg_r; [apply Z.pow_nonneg; lia|done]).
      assert (2 ^ dq * Zpos m' ≤ 2 ^ (dq + Zpos (digits2_pos m'))) by (rewrite Z.pow_add_r by lia; apply Z.mul_le_mono_nonneg_l; [apply Z.pow_nonneg|]; lia).
      assert (Zpos (digits2_pos m) - 1 + s < dq + Zpos (digits2_pos m')) by (apply (Z.pow_lt_mono_r_iff 2); lia).
      unfold s, D in *. lia. }
    clearbody n D. unfold t in *. unfold rexp in *. lia.
Qed.

Lemma fdiv_nonneg x y v w : is_val x v → is_val y w → 0 < w → ∃ z, fits (fdiv x y) z.
Proof.
  intros X Y W. destruct (is_val_cases y w Y) as [(-> & _)|(m' & e' & -> & M' & _)]; [lia|].
  destruct (is_val_cases x v X) as [(_ & s & ->)|(m & e & -> & M & _)]; [exists 0; by left|].
  unfold fdiv. cbn [SFdiv xorb]. destruct (div_core m e m' e') as (q & l & -> & Q & S & G).
  destruct (round_fits q _ l _ _ S Q G) as (z & _ & F). eauto.
Qed.

(** A quotient by something at least as large is at most one. *)
Lemma fdiv_le_one x y v w : is_val x v → is_val y w → 0 < w → v ≤ w → ∃ z, is_val (fdiv x y) z ∧ z ≤ unit64.
Proof.
  intros X Y W L. destruct (is_val_cases y w Y) as [(-> & _)|(m' & e' & -> & M' & ->)]; [lia|].
  destruct (is_val_cases x v X) as [(_ & s & ->)|(m & e & -> & M & ->)].
  { exists 0. split; [done|]. unfold unit64. apply Z.pow_nonneg. lia. }
  unfold fdiv. cbn [SFdiv xorb]. pose proof (div_core m e m' e') as C. cbn zeta in C.
  destruct C as (q & l & -> & Q & S & G). destruct M as (M & E & _), M' as (M' & E' & _).
  set (D := Zpos (digits2_pos m) + e - (Zpos (digits2_pos m') + e')) in *.
  assert (Dn : D ≤ 0).
  { destruct (digits2_spec m) as [Lm _], (digits2_spec m') as [_ Gm].
    assert (2 ^ (Zpos (digits2_pos m) - 1 + (e + 1074)) < 2 ^ (Zpos (digits2_pos m') + (e' + 1074))).
    { rewrite (Z.pow_add_r 2 (Zpos (digits2_pos m) - 1)), (Z.pow_add_r 2 (Zpos (digits2_pos m'))) by lia.
      apply Z.le_lt_trans with (Zpos m * 2 ^ (e + 1074)).
      - apply Z.mul_le_mono_nonneg_r; [apply Z.pow_nonneg|]; lia.
      - apply (Z.le_lt_trans _ _ _ L). apply Z.mul_lt_mono_pos_r; [apply Z.pow_pos_nonneg|]; lia. }
    assert (Zpos (digits2_pos m) - 1 + (e + 1074) < Zpos (digits2_pos m') + (e' + 1074))
      by (apply (Z.pow_lt_mono_r_iff 2); lia). unfold D. lia. }
  set (t := Z.min (rexp D 0) (e - e')) in *. assert (T : t ≤ -53) by (unfold t, rexp; lia).
  destruct (round_le q t l _ _ 4503599627370496 (-52) S Q G) as (z & F & B); [lia|lia|lia| |].
  { change 4503599627370496 with (2 ^ 52). rewrite <-Z.pow_add_r by lia.
    replace (52 + (-52 - t)) with (- t) by lia.
    apply (Z.mul_le_mono_pos_r _ _ (2 ^ (e' + 1074))); [apply Z.pow_pos_nonneg; lia|].
    rewrite <-!Z.mul_assoc, <-Z.pow_add_r by (unfold t; lia).
    replace (e - e' - t + (e' + 1074)) with ((e + 1074) + - t) by lia.
    rewrite Z.pow_add_r, !Z.mul_assoc, (Z.mul_comm _ (2 ^ - t)), <-!Z.mul_assoc by lia.
    apply Z.mul_le_mono_nonneg_l; [apply Z.pow_nonneg; lia|exact L]. }
  exists z. split; [|exact B]. apply (fits_val _ _ F). apply (Z.le_lt_trans _ _ _ B). reflexivity.
Qed.

(** ** Comparison *)

Lemma pos_compare_cont a b : Pos.compare_cont Eq a b = (Zpos a ?= Zpos b).
Proof. reflexivity. Qed.

Lemma compare_val x y v w : is_val x v → is_val y w → SFcompare x y = Some (v ?= w).
Proof.
  assert (Pos' : ∀ m e, mantissa (Zpos m) e → 0 < Zpos m * 2 ^ (e + 1074))
    by (intros m e (M & E & _); apply Z.mul_pos_pos; [lia|apply Z.pow_pos_nonneg; lia]).
  assert (Lt' : ∀ m e m' e', mantissa (Zpos m) e → mantissa (Zpos m') e' → e < e' →
    Zpos m * 2 ^ (e + 1074) < Zpos m' * 2 ^ (e' + 1074)).
  { intros m e m' e' (M & E & _) (M' & E' & C') L. destruct C' as [->|C']; [lia|].
    apply Z.lt_le_trans with (2 ^ 53 * 2 ^ (e + 1074)); [apply Z.mul_lt_mono_pos_r; [apply Z.pow_pos_nonneg|]; lia|].
    apply Z.le_trans with (2 ^ 52 * 2 ^ (e' + 1074)).
    - rewrite <-!Z.pow_add_r by lia. apply Z.pow_le_mono_r; lia.
    - apply Z.mul_le_mono_nonneg_r; [apply Z.pow_nonneg|]; lia. }
  intros X Y. destruct (is_val_cases x v X) as [(-> & s & ->)|(m & e & -> & M & ->)];
    destruct (is_val_cases y w Y) as [(-> & s' & ->)|(m' & e' & -> & M' & ->)]; cbn [SFcompare].
  - done.
  - f_equal. symmetry. apply Z.compare_lt_iff. by apply Pos'.
  - f_equal. symmetry. apply Z.compare_gt_iff. by apply Pos'.
  - f_equal. change (IntDef.Z.compare e e') with (e ?= e'). destruct (Z.compare_spec e e') as [->|L|L].
    + rewrite pos_compare_cont. destruct (Z.compare_spec (Zpos m) (Zpos m')) as [->|L|L]; symmetry.
      * apply Z.compare_refl.
      * apply Z.compare_lt_iff, Z.mul_lt_mono_pos_r; [|done]. destruct M as (_ & E & _). apply Z.pow_pos_nonneg; lia.
      * apply Z.compare_gt_iff, Z.mul_lt_mono_pos_r; [|done]. destruct M as (_ & E & _). apply Z.pow_pos_nonneg; lia.
    + symmetry. apply Z.compare_lt_iff. by apply Lt'.
    + symmetry. apply Z.compare_gt_iff. by apply Lt'.
Qed.

Lemma leb_val x y v w : is_val x v → is_val y w → SFleb x y = (v <=? w).
Proof. intros X Y. unfold SFleb. rewrite (compare_val x y v w X Y). unfold Z.leb. by destruct (v ?= w). Qed.

Lemma ltb_val x y v w : is_val x v → is_val y w → SFltb x y = (v <? w).
Proof. intros X Y. unfold SFltb. rewrite (compare_val x y v w X Y). unfold Z.ltb. by destruct (v ?= w). Qed.

Lemma eqb_val x y v w : is_val x v → is_val y w → SFeqb x y = (v =? w).
Proof.
  intros X Y. unfold SFeqb. rewrite (compare_val x y v w X Y). rewrite Z.eqb_compare. by destruct (v ?= w).
Qed.

(** ** Whole numbers *)

Lemma of_int_fits z : 0 ≤ z → ∃ v, rounded (z * unit64) v ∧ fits (of_int z) v.
Proof.
  destruct z as [|p|p]; [| |lia]; intros _.
  - exists 0. split; [by apply (rounded_self 0 0)|by left].
  - unfold of_int, unit64. cbn [binary_normalize]. by apply (round_exact p 0).
Qed.

(** Exact up to [2 ^ 53]. *)
Lemma of_int_val z : 0 ≤ z < 2 ^ 53 → is_val (of_int z) (z * unit64).
Proof.
  intros Z. destruct (of_int_fits z) as (v & R & F); [lia|].
  assert (v = z * unit64) as ->.
  { pose proof (rounded_self z 1074 Z ltac:(lia)) as R'. change (2 ^ 1074) with unit64 in R'.
    assert (0 ≤ z * unit64) by (apply Z.mul_nonneg_nonneg; [lia|by apply Z.pow_nonneg]).
    apply Z.le_antisymm; [by apply (rounded_mono (z * unit64) v (z * unit64))|by apply (rounded_mono (z * unit64) _ (z * unit64))]. }
  apply (fits_val _ _ F). apply Z.lt_le_trans with (2 ^ 53 * unit64); [apply Z.mul_lt_mono_pos_r; [done|lia]|].
  unfold unit64. rewrite <-Z.pow_add_r by lia. apply Z.pow_le_mono_r; lia.
Qed.

(** A sum of at most a float is at most it, so does not overflow. *)
Lemma rounded_bound n v c x y : rounded n v → is_val y c → 0 ≤ n ≤ c → fits x v → is_val x v ∧ v ≤ c.
Proof.
  intros R Y N F. pose proof (rounded_mono _ _ _ _ N R (is_val_self y c Y)) as L. split; [|done].
  apply (fits_val _ _ F). apply (Z.le_lt_trans _ _ _ L).
  destruct (is_val_cases y c Y) as [(-> & _)|(m & e & _ & (M & E & _) & ->)]; [by apply Z.pow_pos_nonneg|].
  apply Z.lt_le_trans with (2 ^ 53 * 2 ^ (e + 1074)); [apply Z.mul_lt_mono_pos_r; [apply Z.pow_pos_nonneg|]; lia|].
  rewrite <-Z.pow_add_r by lia. apply Z.pow_le_mono_r; lia.
Qed.

(** Rounding what is less than half above [N] gives at most [N]. *)
Lemma math_Round_le x v N : is_val x v → 0 ≤ N < 2 ^ 53 → 2 * v < (2 * N + 1) * unit64 →
  ∃ z, is_val (math_Round x) z ∧ z ≤ N * unit64.
Proof.
  intros X B L. assert (U : 0 < unit64) by by apply Z.pow_pos_nonneg.
  destruct (is_val_cases x v X) as [(-> & s & ->)|(m & e & -> & M & Ev)].
  { exists 0. split; [done|]. apply Z.mul_nonneg_nonneg; lia. }
  cbn [math_Round]. destruct M as (M & E & C). rewrite Ev in *. destruct (Z.leb_spec 0 e) as [G|G].
  - eexists. split; [exact X|]. replace (2 ^ (e + 1074)) with (2 ^ e * unit64) in * by (unfold unit64; rewrite <-Z.pow_add_r by lia; done).
    rewrite Z.mul_assoc in *. apply Z.mul_le_mono_nonneg_r; [lia|].
    assert (2 * (Zpos m * 2 ^ e) < 2 * N + 1) by (apply (Z.mul_lt_mono_pos_r unit64); lia). lia.
  - set (k := (Zpos m + 2 ^ (- e - 1)) / 2 ^ (- e)).
    assert (K : 0 ≤ k ≤ N).
    { unfold k. assert (P : 0 < 2 ^ (- e)) by (apply Z.pow_pos_nonneg; lia).
      assert (Q : 0 < 2 ^ (e + 1074)) by (apply Z.pow_pos_nonneg; lia).
      assert (Hh : 2 ^ (- e) = 2 * 2 ^ (- e - 1)) by (rewrite <-Z.pow_succ_r by lia; f_equal; lia).
      assert (Uu : unit64 = 2 ^ (- e) * 2 ^ (e + 1074)) by (unfold unit64; rewrite <-Z.pow_add_r by lia; f_equal; lia).
      rewrite Uu, !Z.mul_assoc in L. apply (Z.mul_lt_mono_pos_r _ _ _ Q) in L.
      split; [apply Z.div_pos; lia|]. apply Z.lt_succ_r, Z.div_lt_upper_bound; lia. }
    clearbody k. destruct (Z.eqb_spec k 0) as [->|N0]; [exists 0; split; [done|lia]|]. cbn [cond_Zopp].
    assert (binary_normalize 53 1024 k 0 false = of_int k) as -> by done.
    exists (k * unit64). split; [apply of_int_val; lia|apply Z.mul_le_mono_nonneg_r; lia].
Qed.
