(* ===== verification/Http.v ===== *)
(** * Http: responses ([backend/platform/errors.go]), what handlers share, and requests

    A response is its status, content type and body. Routing, the other headers and the
    decoding of request bodies are not modelled: a handler gets what
    [platform.DecodeJSON] returned, the path and query parameters as text and the claims
    the authentication put into the context. *)

From S2P Require Import Prelude Text Platform Wire PayModels Float64.

Open Scope Z_scope.

Record Response := mkResponse {
  rs_Status : Z;
  rs_ContentType : string;
  rs_Body : string;
}.

(** ** JSON members *)

Definition member (name value : string) : list (string * string) := [(name, value)].

(** [omitempty] *)
Definition optional (name : string) (value : option string) : list (string * string) :=
  match value with Some v => [(name, v)] | None => [] end.
Definition nonempty (name text : string) : list (string * string) :=
  if String.eqb text "" then [] else [(name, json_string text)].

Definition json_int (z : Z) : string := pretty z.
(** A number that JSON may not have. *)
Definition number `{FloatText} (name : string) (x : float64) : option (list (string * string)) :=
  v ← json_float x; Some (member name v).

Definition json_uuid `{UuidText} (u : uuid) : string := json_string (uuid_string u).

(** ** Errors *)

Definition field_error_json (f : FieldError) : string :=
  json_object (member "field" (json_string (fe_Field f)) ++ member "issue" (json_string (fe_Issue f))).

Definition error_json (e : Error) : string :=
  json_object (member "code" (json_string (Code e)) ++ member "title" (json_string (Title e)) ++
    nonempty "detail" (Detail e) ++
    (if bool_decide (length (FieldErrors e) = 0%nat) then []
     else member "errors" (json_array (map field_error_json (FieldErrors e))))).

(** [None]: an error that is not of the application. *)
Definition WriteError (err : option Error) : Response :=
  let e := AsError err in mkResponse (Status e) "application/problem+json" (error_json e).

(** [writeJSON] of the domains: the encoder ends the value with a line feed, and writes
    nothing when a value cannot be encoded. *)
Definition writeJSON (status : Z) (body : option string) : Response :=
  mkResponse status "application/json" (match body with Some b => b +:+ String (byte 10%N) "" | None => "" end).

Definition NoContent : Response := mkResponse 204 "" "".

(** A handler: what it writes and the world it leaves. *)
Definition serve {W E} (app : E → option Error) (c : M W E Response) (w : W) : Response * W :=
  match c w with
  | (inr r, w') => (r, w')
  | (inl e, w') => (WriteError (app e), w')
  end.

Definition authentication_required : Error := ErrUnauthorized "authentication required".

Example not_found_body : rs_Body (WriteError (Some (ErrNotFound "vehicle not found"))) =
  of_chars (map (λ c, if is_char 39 c then byte 34%N else c)
    (chars "{'code':'not_found','title':'Resource not found','detail':'vehicle not found'}")).
Proof. reflexivity. Qed.

(** Whatever fails, the response has the status of its error and nothing internal. *)
Lemma serve_error {W E} (app : E → option Error) (c : M W E Response) w e w' :
  c w = (inl e, w') → serve app c w = (WriteError (app e), w').
Proof. unfold serve. by intros ->. Qed.

Lemma serve_ok {W E} (app : E → option Error) (c : M W E Response) w r w' :
  c w = (inr r, w') → serve app c w = (r, w').
Proof. unfold serve. by intros ->. Qed.

(** ** Requests the services send *)

Record HttpRequest := mkHttpRequest {
  hq_Method : string;
  hq_URL : string;
  hq_Headers : list (string * string);
  hq_Body : string;
}.

(** The status and what reading the body gives: its bytes, or the text of an error. *)
Record HttpAnswer := mkHttpAnswer { ha_Status : Z; ha_Body : string + string }.

(** [net/http]: why a URL makes no request, and the exchange of one request with the
    state of the remote side; the text is that of a transport error. *)
Class HttpClient (X : Type) := {
  bad_request : string → option string;
  exchange : HttpRequest → X → (string + HttpAnswer) * X;
}.

(** [io.ReadAll] of at most [limit] bytes of the body. *)
Definition read_all (limit : Z) (answer : HttpAnswer) : string + string :=
  match ha_Body answer with inl e => inl e | inr raw => inr (truncate (Z.to_nat limit) raw) end.

#[global] Arguments read_all : simpl never.

(** ** Parameters *)

(** [strconv.Atoi] of a query parameter that may be absent. *)
Definition int_param (err : Error) (default : Z) (raw : string) : Error + Z :=
  if String.eqb raw "" then inr default
  else match ParseInt raw with Some n => inr n | None => inl err end.

(** A path parameter that must be an identifier. *)
Definition uuid_param `{UuidText} (missing malformed : Error) (raw : string) : Error + uuid :=
  let raw := TrimSpace raw in
  if String.eqb raw "" then inl missing
  else match uuid_parse raw with Some u => inr u | None => inl malformed end.

Definition limit_not_number : Error :=
  ErrValidation "limit is not a number" [mkFieldError "limit" "must be an integer"].
Definition limit_not_positive : Error :=
  ErrValidation "limit must be positive" [mkFieldError "limit" "must be at least 1"].
Definition offset_not_number : Error :=
  ErrValidation "offset is not a number" [mkFieldError "offset" "must be an integer"].
Definition offset_negative : Error :=
  ErrValidation "offset must be non-negative" [mkFieldError "offset" "must be at least 0"].

(** The page a listing asks for: the limit, at most [max], and the offset. *)
Definition page_params (default max : Z) (limit offset : string) : Error + Z * Z :=
  match int_param limit_not_number default limit with
  | inl e => inl e
  | inr limit =>
      match int_param offset_not_number 0 offset with
      | inl e => inl e
      | inr offset =>
          if limit <? 1 then inl limit_not_positive
          else
            let limit := if max <? limit then max else limit in
            if offset <? 0 then inl offset_negative else inr (limit, offset)
      end
  end.

(** ** The principal *)

Definition bad_tenant : Error :=
  ErrUnauthorized "authenticated tenant claim is not a tenant identifier".
Definition bad_subject : Error :=
  ErrUnauthorized "authenticated subject is not a user identifier".

(** The tenant, absent for a personal account; [None]: not an identifier. *)
Definition tenant_claim `{UuidText} (claims : Claims) : option (option uuid) :=
  if String.eqb (c_TenantID claims) "" then Some None
  else match uuid_parse (c_TenantID claims) with Some t => Some (Some t) | None => None end.
