(* ===== verification/Auth.v ===== *)
(** * Auth: the authentication and role gates ([backend/platform/auth.go])

    A handler gets the claims of the request context and threads the world. The
    middleware asks a validator, whose state (the keys it has cached) is a part of the
    world. The attribute the middleware adds to the request's logger is not modelled.

    The second part reasons about the handlers behind the gates. The endpoints of a
    domain are computations over its world, answered through [serve] and wrapped in the
    gates. Two questions are asked of every one of them: what may it change and for whom
    ([governed]), and on which parts of the world does its answer depend ([same],
    [indistinct]). The rules follow the structure of the handlers. *)

From Stdlib Require Import Ascii.
From S2P Require Import Prelude Hoare Text Platform PayModels Http.

Open Scope Z_scope.

(** ** The bearer token *)

(** [strings.SplitN(s, sep, 2)] of a one-byte separator: what comes before the first
    separator and after it, if there is one. *)
Fixpoint cut (sep : ascii) (s : string) : string * option string :=
  match s with
  | "" => ("", None)
  | String c s =>
      if Ascii.eqb c sep then ("", Some s)
      else let '(before, after) := cut sep s in (String c before, after)
  end%string.

(** [strings.EqualFold] with a text of ASCII letters other than k and s: no character
    outside ASCII folds to one of those. *)
Definition lower_char (c : ascii) : ascii := if in_range 65 90 c then byte (byte_of c + 32) else c.
Definition equal_fold (s t : string) : bool :=
  bool_decide (map lower_char (chars s) = map lower_char (chars t)).

Definition bearerToken (authorization : string) : string :=
  let header := TrimSpace authorization in
  if String.eqb header "" then ""
  else match cut " " header with
       | (scheme, Some credential) => if equal_fold scheme "Bearer" then TrimSpace credential else ""
       | (_, None) => ""
       end.

Example bearer_tokens : map bearerToken
  [""; "Bearer abc"; " bEARER   a b  "; "Bearer"; "Basic abc"; "Bearerabc"] =
  [""; "abc"; "a b"; ""; ""; ""].
Proof. reflexivity. Qed.

(** ** The gates *)

Section Gates.
Context {W : Type}.

Definition Handler := option Claims → W → Response * W.

Definition RequireAuthenticated (h : Handler) : Handler := λ claims w,
  match claims with
  | None => (WriteError (Some authentication_required), w)
  | Some _ => h claims w
  end.

Definition insufficient_role : Error := ErrForbidden "insufficient role".

Definition RequireRole (roles : list string) (h : Handler) : Handler := λ claims w,
  match claims with
  | None => (WriteError (Some authentication_required), w)
  | Some c =>
      if existsb (String.eqb (c_Role c)) roles then h claims w
      else (WriteError (Some insufficient_role), w)
  end.

Definition TenantScopeFrom (claims : option Claims) : option string :=
  match claims with
  | Some c => if String.eqb (c_TenantID c) "" then None else Some (c_TenantID c)
  | None => None
  end.

(** [None]: no validator is bound yet. The request comes without claims. *)
Definition AuthMiddlewareFunc {E} (validator : option (string → M W E Claims)) (authorization : string)
    (next : Handler) (w : W) : Response * W :=
  let token := bearerToken authorization in
  match validator with
  | None =>
      if String.eqb token "" then next None w
      else (WriteError (Some (ErrUnauthorized
              "access token cannot be verified while the service is starting")), w)
  | Some validate =>
      if String.eqb token "" then next None w
      else match validate token w with
           | (inl _, w) => (WriteError (Some (ErrUnauthorized "access token is invalid or expired")), w)
           | (inr claims, w) => next (Some claims) w
           end
  end.

Definition AuthMiddleware {E} (validate : string → M W E Claims) := AuthMiddlewareFunc (Some validate).

(** ** What gets through *)

(** The request was refused: an answer 401 or 403 that the handler did not give. *)
Definition refused (r : Response) : Prop := rs_Status r = 401 ∨ rs_Status r = 403.

(** A token that the validator took. *)
Definition admitted {E} (validator : option (string → M W E Claims)) (authorization : string)
    (w : W) (claims : Claims) (w' : W) : Prop :=
  ∃ validate, validator = Some validate ∧ bearerToken authorization ≠ "" ∧
    validate (bearerToken authorization) w = (inr claims, w').

(** The world after the validator, which runs at most once. *)
Definition validated {E} (validator : option (string → M W E Claims)) (authorization : string) (w : W) : W :=
  match validator with
  | Some validate =>
      if String.eqb (bearerToken authorization) "" then w else (validate (bearerToken authorization) w).2
  | None => w
  end.

Lemma middleware_cases {E} (validator : option (string → M W E Claims)) authorization next w :
  let out := AuthMiddlewareFunc validator authorization next w in
  (∃ claims w', admitted validator authorization w claims w' ∧ out = next (Some claims) w') ∨
  (bearerToken authorization = "" ∧ out = next None w) ∨
  (refused out.1 ∧ out.2 = validated validator authorization w).
Proof.
  unfold AuthMiddlewareFunc, admitted, validated.
  destruct (String.eqb_spec (bearerToken authorization) "") as [T|T]; destruct validator as [validate|].
  1-2: right; by left.
  - destruct (validate (bearerToken authorization) w) as [[e|claims] w'] eqn:V; cbn zeta.
    + right; right. split; [by left|reflexivity].
    + left. exists claims, w'. split; [|done]. by exists validate.
  - right; right. split; [by left|reflexivity].
Qed.

(** C29. ** No bypass

    A handler behind the middleware and the two gates runs only for a request whose
    bearer token the validator took, with the claims of that token, and only when their
    role is one of the listed ones. Any other request is answered 401 or 403, and
    changes nothing but what the validator caches; while no validator is bound nothing
    gets through. *)
Theorem gate_no_bypass {E} (validator : option (string → M W E Claims)) authorization roles h w :
  let out := AuthMiddlewareFunc validator authorization
               (RequireAuthenticated (RequireRole roles h)) w in
  (∃ claims w', admitted validator authorization w claims w' ∧ c_Role claims ∈ roles ∧
     out = h (Some claims) w') ∨
  (refused out.1 ∧ out.2 = validated validator authorization w).
Proof.
  cbn zeta. destruct (middleware_cases validator authorization (RequireAuthenticated (RequireRole roles h)) w)
    as [(claims & w' & A & ->)|[(T & ->)|R]]; [| |by right].
  - cbn [RequireAuthenticated RequireRole].
    destruct (existsb (String.eqb (c_Role claims)) roles) eqn:X.
    + left. exists claims, w'. split_and!; [done| |done].
      apply existsb_exists in X as (role & X & Q). apply String.eqb_eq in Q as ->.
      by apply list_elem_of_In.
    + right. split; [by right|]. destruct A as (validate & -> & T & V).
      unfold validated. destruct (String.eqb_spec (bearerToken authorization) ""); [done|].
      by rewrite V.
  - right. split; [by left|]. unfold validated. rewrite T. by destruct validator.
Qed.

End Gates.

(** * Reasoning about the handlers behind the gates

    The endpoints of a domain are computations over its world, answered through [serve]
    and wrapped in the gates of [Auth]. Two questions are asked of every one of them: what
    may it change and for whom ([governed]), and on which parts of the world does its
    answer depend ([same], [indistinct]). The rules follow the structure of the handlers. *)

Lemma RequireRole_cases {W} roles (h : Handler (W := W)) claims w :
  (∃ cl, claims = Some cl ∧ c_Role cl ∈ roles ∧ RequireRole roles h claims w = h claims w) ∨
  Auth.refused (RequireRole roles h claims w).1 ∧ (RequireRole roles h claims w).2 = w.
Proof.
  unfold RequireRole. destruct claims as [cl|]; [|right; split; [by left|done]].
  destruct (existsb (String.eqb (c_Role cl)) roles) eqn:X; [left; exists cl; split_and!; [done| |done]|right; split; [by right|done]].
  apply existsb_exists in X as (role & X & Q). apply String.eqb_eq in Q as ->. by apply list_elem_of_In.
Qed.

Section Handlers.
Context {W F : Type} (domain_error : F → option Error).

Abbreviation web A := (M W F A) (only parsing).
Definition answered (h : option Claims → web Response) : Handler (W := W) := λ claims, serve domain_error (h claims).

Lemma answered_world h claims w : (answered h claims w).2 = (h claims w).2.
Proof. unfold answered, serve. by destruct (h claims w) as [[e|a] w1]. Qed.

(** ** What a handler may change *)

Section Governed.
Context (Inv : W → Prop).

(** The invariant survives a run, also one that fails. *)
Definition keeps {E A} (h : M W E A) : Prop := ∀ w, Inv w → Inv (h w).2.

Lemma keeps_bind {E A B} (h : M W E A) (f : A → M W E B) : keeps h → (∀ a, keeps (f a)) → keeps (h ≫= f).
Proof.
  intros K G w R. unfold mbind, M_bind. specialize (K w R). destruct (h w) as [[e|a] w1]; [done|by apply G].
Qed.

Lemma keeps_reads {E A} (h : M W E A) : reads h → keeps h.
Proof. intros D w R. by rewrite D. Qed.

Lemma keeps_wrap {E E' A} (g : E → E') (c : M W E A) : keeps c → keeps (wrap g c).
Proof. intros K w R. unfold wrap. specialize (K w R). by destruct (c w) as [[e|a] w1]. Qed.

(** Whoever sends a request, the invariant survives; and the request changes something
    only if it [may]. *)
Definition governed (may : option Claims → Prop) (h : Handler (W := W)) : Prop :=
  ∀ claims w, Inv w → Inv (h claims w).2 ∧ ((h claims w).2 ≠ w → may claims).

Lemma governed_weaken (may may' : option Claims → Prop) h :
  governed may h → (∀ claims, may claims → may' claims) → governed may' h.
Proof. intros G I claims w R. destruct (G claims w R). split; auto. Qed.

Lemma governed_answered (may : option Claims → Prop) h : (∀ claims, keeps (h claims)) →
  (∀ claims w, (h claims w).2 ≠ w → may claims) → governed may (answered h).
Proof. intros K N claims w R. rewrite answered_world. split; [by apply K|apply N]. Qed.

Lemma governed_reads may h : (∀ claims, reads (h claims)) → governed may (answered h).
Proof. intros D. apply governed_answered; intros claims; [apply keeps_reads, D|intros w N; by rewrite D in N]. Qed.

Lemma governed_any h : (∀ claims, keeps (h claims)) → governed (λ _, True) (answered h).
Proof. intros K. by apply governed_answered. Qed.

Lemma governed_authenticated may h : governed may h →
  governed (λ claims, ∃ cl, claims = Some cl ∧ may claims) (RequireAuthenticated h).
Proof.
  intros G [cl|] w R; [|by split]. cbn [RequireAuthenticated]. destruct (G (Some cl) w R) as [K N].
  split; [done|]. intros X. exists cl. split; [done|by apply N].
Qed.

Lemma governed_role may roles h : governed may h →
  governed (λ claims, ∃ cl, claims = Some cl ∧ c_Role cl ∈ roles ∧ may claims) (RequireRole roles h).
Proof.
  intros G claims w R. destruct (RequireRole_cases roles h claims w) as [(cl & -> & I & ->)|[_ ->]]; [|by split].
  destruct (G (Some cl) w R) as [K N]. split; [done|]. intros X. exists cl. split; [done|]. split; [done|by apply N].
Qed.

End Governed.

(** ** What an answer depends on *)

(** Two worlds between which a run does not distinguish; it changes neither. *)
Definition same {E A} (h : M W E A) (w w' : W) : Prop := ∃ r, h w = (r, w) ∧ h w' = (r, w').

Lemma same_bind {E A B} (h : M W E A) (f : A → M W E B) w w' :
  same h w w' → (∀ a, h w = (inr a, w) → same (f a) w w') → same (h ≫= f) w w'.
Proof.
  intros (r & R & R') G. unfold same, mbind, M_bind. rewrite R, R'. destruct r as [e|a]; [by exists (inl e)|by apply G].
Qed.

(** A run that fails in both worlds with the same error hides what follows it. *)
Lemma same_fails {E A B} (h : M W E A) (f : A → M W E B) w w' :
  (∃ e, h w = (inl e, w) ∧ h w' = (inl e, w')) → same (h ≫= f) w w'.
Proof. intros (e & R & R'). exists (inl e). unfold mbind, M_bind. by rewrite R, R'. Qed.

Lemma same_ret {E A} (a : A) w w' : same (E := E) (mret a) w w'.
Proof. by exists (inr a). Qed.
Lemma same_throw {E A} (e : E) w w' : same (A := A) (throw e) w w'.
Proof. by exists (inl e). Qed.
Lemma same_sum {E A} (r : E + A) w w' : same (from_sum r) w w'.
Proof. by exists r. Qed.
Lemma same_option {E A} (o : option A) (e : E) w w' : same (from_option o e) w w'.
Proof. destruct o; [apply same_ret|apply same_throw]. Qed.
Lemma same_ensure {E} b (e : E) w w' : same (ensure b e) w w'.
Proof. destruct b; [apply same_ret|apply same_throw]. Qed.

Lemma same_wrap {E E' A} (g : E → E') (c : M W E A) w w' : same c w w' → same (wrap g c) w w'.
Proof.
  intros (r & R & R'). unfold same, wrap. rewrite R, R'. destruct r as [e|a]; [by exists (inl (g e))|by exists (inr a)].
Qed.

(** The same response, byte for byte, and nothing changed. *)
Definition indistinct (h : Handler (W := W)) (claims : option Claims) (w w' : W) : Prop :=
  (h claims w).1 = (h claims w').1 ∧ (h claims w).2 = w ∧ (h claims w').2 = w'.

Lemma indistinct_answered h claims w w' : same (h claims) w w' → indistinct (answered h) claims w w'.
Proof. intros (r & R & R'). unfold indistinct, answered, serve. rewrite R, R'. by destruct r. Qed.

Lemma indistinct_authenticated h claims w w' :
  indistinct h claims w w' → indistinct (RequireAuthenticated h) claims w w'.
Proof. unfold indistinct, RequireAuthenticated. by destruct claims. Qed.

Lemma indistinct_role roles h claims w w' :
  indistinct h claims w w' → indistinct (RequireRole roles h) claims w w'.
Proof. unfold indistinct, RequireRole. destruct claims; [case_match|]; done. Qed.

End Handlers.

(** A call on a part of the world. *)
Lemma same_zoom {W T E A} (view : W → T) set (c : M T E A) w w' :
  (∀ s, set (view s) s = s) → same c (view w) (view w') → same (zoom view set c) w w'.
Proof. intros V (r & R & R'). unfold same, zoom. rewrite R, R', !V. by exists r. Qed.

(** The failing first read of a call of the service ends the handler. *)
Lemma call_fails {W T E E' A B C} (view : W → T) set (g : E → E') (c : M T E A) (f : A → M W E B) (k : B → M W E' C) w w' :
  (∀ s, set (view s) s = s) →
  (∃ e, c (view w) = (inl e, view w) ∧ c (view w') = (inl e, view w')) →
  same (wrap g (zoom view set c ≫= f) ≫= k) w w'.
Proof.
  intros V (e & R & R'). apply same_fails. exists (g e). unfold wrap, zoom, mbind, M_bind. by rewrite R, R', !V.
Qed.

Lemma read_fails {W T E E' A C} (view : W → T) set (g : E → E') (c : M T E A) (k : A → M W E' C) w w' :
  (∀ s, set (view s) s = s) →
  (∃ e, c (view w) = (inl e, view w) ∧ c (view w') = (inl e, view w')) →
  same (wrap g (zoom view set c) ≫= k) w w'.
Proof. intros V (e & R & R'). apply same_fails. exists (g e). unfold wrap, zoom. by rewrite R, R', !V. Qed.

(** A parameter that is there. *)
Lemma same_given {W E A B} (a : A) (e : E) (f : A → M W E B) w w' :
  same (f a) w w' → same (from_option (Some a) e ≫= f) w w'.
Proof. done. Qed.

(** An identifier in the path that parses. *)
Lemma same_uuid_param `{UuidText} {W F B} missing malformed raw id (f : uuid → M W (Error + F) B) w w' :
  uuid_parse (TrimSpace raw) = Some id → same (f id) w w' →
  same (from_sum (match uuid_param missing malformed raw with inl e => inl (inl e) | inr u => inr u end) ≫= f) w w'.
Proof.
  intros P S. apply same_bind; [apply same_sum|]. intros a [= R]. unfold uuid_param, from_sum in R.
  cbv zeta in R. destruct (String.eqb _ _); [done|]. rewrite P in R. by injection R as <-.
Qed.
