(* ===== verification/TimeParse.v ===== *)
(** * TimeParse: [time.Parse]

    The layouts [time.RFC3339Nano], [time.RFC3339] and ["15:04"], and that parsing undoes
    formatting. The parser takes more than the formatter gives: an hour of one digit, a
    comma before the fraction, digits beyond the nanoseconds, a zone. *)

From Stdlib Require Import Ascii.
From S2P Require Import Prelude Text Platform Money Wire.

Open Scope Z_scope.

(** ** The instant of a date *)

Definition is_leap (y : Z) : bool :=
  (y mod 4 =? 0) && (negb (y mod 100 =? 0) || (y mod 400 =? 0)).

Definition days_in (m y : Z) : Z :=
  if m =? 2 then if is_leap y then 29 else 28
  else if (m =? 4) || (m =? 6) || (m =? 9) || (m =? 11) then 30 else 31.

(** The days from 1970-01-01, by the eras of [civil]. *)
Definition days_of (d : date) : Z :=
  let y := if month d <=? 2 then year d - 1 else year d in
  let mp := if month d <=? 2 then month d + 9 else month d - 3 in
  y / 400 * 146097 + days_before (y mod 400) + (153 * mp + 2) / 5 + dom d - 1 - 719468.

Example days_of_leap : days_of (mkDate 2000 2 29) = 11016.
Proof. reflexivity. Qed.

(** ** Pieces *)

Definition digit_value (c : ascii) : option Z :=
  if is_digit c then Some (Z.of_N (byte_of c) - 48) else None.

(** [getnum]: two digits, or one when the width is not fixed. *)
Definition getnum (fixed : bool) (l : list ascii) : option (Z * list ascii) :=
  match l with
  | [] => None
  | c :: l =>
      d ← digit_value c;
      match l with
      | c' :: l' => match digit_value c' with
                    | Some d' => Some (10 * d + d', l')
                    | None => if fixed then None else Some (d, l)
                    end
      | [] => if fixed then None else Some (d, [])
      end
  end.

(** The four digits of [2006]. *)
Definition year4 (l : list ascii) : option (Z * list ascii) :=
  '(h, l) ← getnum true l; '(t, l) ← getnum true l; Some (100 * h + t, l).

(** [skip] of a prefix of one character. *)
Definition skip (c : ascii) (l : list ascii) : option (list ascii) :=
  match l with c' :: l => if Ascii.eqb c' c then Some l else None | [] => None end.

Definition in_bounds (lo hi z : Z) : option unit := if (lo <=? z) && (z <=? hi) then Some tt else None.

(** [parseNanoseconds]: digits beyond the ninth are dropped. *)
Definition decimal (acc : Z) (l : list ascii) : Z :=
  foldl (λ acc c, 10 * acc + default 0 (digit_value c)) acc l.
Definition nanos (l : list ascii) : Z :=
  decimal 0 (take 9 l) * 10 ^ Z.of_nat (9 - length (take 9 l)).

(** A fraction, absent or a period or comma with digits. *)
Definition parse_fraction (l : list ascii) : Z * list ascii :=
  match l with
  | c :: l' =>
      if is_char 46 c || is_char 44 c then
        match run is_digit l' with
        | O => (0, l)
        | n => (nanos (take n l'), drop n l')
        end
      else (0, l)
  | [] => (0, [])
  end.

(** [Z07:00]: the offset in seconds. Offsets of 24 hours or 60 minutes are let through. *)
Definition parse_zone (l : list ascii) : option (Z * list ascii) :=
  match l with
  | c :: l =>
      if Ascii.eqb c "Z" then Some (0, l)
      else
        '(h, l) ← getnum true l; l ← skip ":" l; '(m, l) ← getnum true l;
        in_bounds 0 24 h;; in_bounds 0 60 m;;
        let offset := (h * 60 + m) * 60 in
        if Ascii.eqb c "+" then Some (offset, l)
        else if Ascii.eqb c "-" then Some (- offset, l) else None
  | [] => None
  end.

(** ** The layouts *)

(** [time.Parse(time.RFC3339Nano, s)] and [time.Parse(time.RFC3339, s)]. *)
Definition parse_rfc3339 (l : list ascii) : option time :=
  '(y, l) ← year4 l; l ← skip "-" l;
  '(m, l) ← getnum true l; in_bounds 1 12 m;; l ← skip "-" l;
  '(d, l) ← getnum true l; l ← skip "T" l;
  '(h, l) ← getnum false l; in_bounds 0 23 h;; l ← skip ":" l;
  '(mi, l) ← getnum true l; in_bounds 0 59 mi;; l ← skip ":" l;
  '(s, l) ← getnum true l; in_bounds 0 59 s;;
  let '(ns, l) := parse_fraction l in
  '(offset, l) ← parse_zone l;
  match l with
  | [] =>
      in_bounds 1 (days_in m y) d;;
      Some (days_of (mkDate y m d) * day + h * hour + mi * minute + s * second + ns - offset * second)
  | _ => None
  end.

Definition ParseRFC3339 (s : string) : option time := parse_rfc3339 (chars s).

(** [time.Parse("15:04", s)]: the hour and the minute. *)
Definition ParseClock (s : string) : option (Z * Z) :=
  '(h, l) ← getnum false (chars s); in_bounds 0 23 h;; l ← skip ":" l;
  '(m, l) ← getnum true l; in_bounds 0 59 m;;
  match l with [] => Some (h, m) | _ => None end.

(** [Format("15:04")] *)
Definition fmt_clock (h m : Z) : string := fmt_02d h +:+ ":" +:+ fmt_02d m.

Example parse_plain : ParseRFC3339 "2023-11-14T22:13:20.12Z" = Some 1700000000120000000.
Proof. reflexivity. Qed.
Example parse_lenient : ParseRFC3339 "2023-11-14T9:13:20,1234567891+02:00" =
  ParseRFC3339 "2023-11-14T07:13:20.123456789Z".
Proof. reflexivity. Qed.
Example parse_refused : map ParseRFC3339
  ["2023-02-29T00:00:00Z"; "2023-01-01T24:00:00Z"; "2023-01-01T00:00:60Z"; "2023-01-01 00:00:00Z";
   "2023-1-01T00:00:00Z"; "2023-01-01T00:00:00"; "2023-01-01T00:00:00Z "] =
  [None; None; None; None; None; None; None].
Proof. reflexivity. Qed.
Example parse_clock : map ParseClock ["08:00"; "8:05"; "24:00"; "08:0"; "08:00 "] =
  [Some (8, 0); Some (8, 5); None; None; None].
Proof. reflexivity. Qed.

(** ** Parsing undoes formatting *)

#[local] Ltac Zify.zify_post_hook ::= Z.div_mod_to_equations.

(** The last day of a year of an era is a 29th of February. *)
Lemma leap_day doe : 0 ≤ doe < 146097 → (year_and_day doe).2 = 365 → is_leap ((year_and_day doe).1 + 1) = true.
Proof.
  unfold year_and_day, is_leap. intros R. cbn [fst snd].
  set (c := Z.min 3 (doe / 36524)). assert (0 ≤ c ≤ 3) by (subst c; lia).
  set (doc := doe - 36524 * c). assert (0 ≤ doc ≤ 36524) by (subst doc c; lia).
  assert (c ≠ 3 → doc < 36524) by (subst doc c; lia).
  set (q := doc / 1461). assert (0 ≤ q ≤ 24) by (subst q; lia).
  set (doq := doc - 1461 * q). assert (0 ≤ doq ≤ 1460) by (subst doq q; lia).
  set (y := Z.min 3 (doq / 365)). assert (0 ≤ y ≤ 3) by (subst y; lia).
  intros E. assert (y = 3) as Ey by (subst y; lia). assert (q = 24 → c = 3) by (subst doq q; lia).
  rewrite andb_true_iff, orb_true_iff, negb_true_iff, !Z.eqb_eq, Z.eqb_neq. lia.
Qed.

Lemma days_of_civil days : days_of (civil days) = days.
Proof.
  unfold civil. pose proof (Z.mod_pos_bound (days + 719468) 146097 ltac:(lia)) as R.
  pose proof (Z.div_mod (days + 719468) 146097 ltac:(lia)) as D.
  pose proof (year_and_day_range _ R) as Y. pose proof (year_and_day_days _ R) as Q.
  destruct (year_and_day ((days + 719468) mod 146097)) as [yoe doy]. cbn [fst snd] in *.
  set (era := (days + 719468) / 146097) in *. set (mp := (5 * doy + 2) / 153).
  assert (0 ≤ mp ≤ 11) as Mp by (subst mp; lia).
  unfold days_of. cbn [year month dom].
  destruct (Z.ltb_spec mp 10);
    [rewrite (proj2 (Z.leb_gt (mp + 3) 2)) by lia|rewrite (proj2 (Z.leb_le (mp - 9) 2)) by lia].
  - replace (mp + 3 - 3) with mp by lia. replace (yoe + era * 400 + 0) with (yoe + era * 400) by lia.
    rewrite Z.div_add, Z.mod_add, Z.div_small, Z.mod_small by lia. lia.
  - replace (mp - 9 + 9) with mp by lia.
    replace (yoe + era * 400 + 1 - 1) with (yoe + era * 400) by lia.
    rewrite Z.div_add, Z.mod_add, Z.div_small, Z.mod_small by lia. lia.
Qed.

Lemma civil_dom days :
  1 ≤ dom (civil days) ≤ days_in (month (civil days)) (year (civil days)).
Proof.
  unfold civil. pose proof (Z.mod_pos_bound (days + 719468) 146097 ltac:(lia)) as R.
  pose proof (year_and_day_range _ R) as Y. pose proof (leap_day _ R) as Le.
  destruct (year_and_day ((days + 719468) mod 146097)) as [yoe doy]. cbn [fst snd year month dom] in *.
  set (era := (days + 719468) / 146097) in *. set (mp := (5 * doy + 2) / 153).
  assert (0 ≤ mp ≤ 11) as Mp by (subst mp; lia).
  assert (is_leap (yoe + era * 400 + 1) = is_leap (yoe + 1)) as Er.
  { unfold is_leap. replace ((yoe + era * 400 + 1) mod 4) with ((yoe + 1) mod 4) by lia.
    replace ((yoe + era * 400 + 1) mod 100) with ((yoe + 1) mod 100) by lia.
    by replace ((yoe + era * 400 + 1) mod 400) with ((yoe + 1) mod 400) by lia. }
  unfold days_in.
  assert (mp = 11 → doy = 365 → is_leap (yoe + 1) = true) as Last by auto.
  destruct (Z.ltb_spec mp 10).
  - destruct (Z.eqb_spec (mp + 3) 2); [lia|].
    destruct (Z.eqb_spec (mp + 3) 4), (Z.eqb_spec (mp + 3) 6), (Z.eqb_spec (mp + 3) 9),
      (Z.eqb_spec (mp + 3) 11); cbn [orb]; subst mp; lia.
  - destruct (Z.leb_spec (mp - 9) 2); [|lia].
    destruct (Z.eqb_spec (mp - 9) 2).
    + rewrite Er. destruct (is_leap (yoe + 1)); [subst mp; lia|].
      assert (doy ≠ 365) by (intros E; specialize (Last ltac:(lia) E); done). subst mp; lia.
    + replace (mp - 9 =? 4) with false by (symmetry; apply Z.eqb_neq; lia).
      replace (mp - 9 =? 6) with false by (symmetry; apply Z.eqb_neq; lia).
      replace (mp - 9 =? 9) with false by (symmetry; apply Z.eqb_neq; lia).
      replace (mp - 9 =? 11) with false by (symmetry; apply Z.eqb_neq; lia). cbn [orb]. subst mp; lia.
Qed.

(** The character of a digit. *)
Definition digit_char (n : Z) : ascii := byte (Z.to_N (48 + n)).

Lemma digit_char_value n : 0 ≤ n < 10 → digit_value (digit_char n) = Some n.
Proof.
  intros R. refine (bool_decide_eq_true_1 _ _).
  assert (∀ r, 0 ≤ r < 100 → negb (r <? 10) || bool_decide (digit_value (digit_char r) = Some r) = true) as T
    by (apply two_digits_ind; vm_compute; reflexivity).
  specialize (T n ltac:(lia)). by rewrite (proj2 (Z.ltb_lt n 10)) in T by lia.
Qed.

Lemma chars_fmt_02d n : 0 ≤ n < 100 → chars (fmt_02d n) = [digit_char (n / 10); digit_char (n mod 10)].
Proof.
  intros R. refine (bool_decide_eq_true_1 _ _).
  revert n R. apply two_digits_ind. vm_compute. reflexivity.
Qed.

Lemma getnum_02d fixed n l : 0 ≤ n < 100 → getnum fixed (chars (fmt_02d n) ++ l) = Some (n, l).
Proof.
  intros R. rewrite chars_fmt_02d by done. cbn [app getnum].
  rewrite !digit_char_value by lia. cbn [mbind option_bind]. f_equal. f_equal. lia.
Qed.

Lemma year4_fmt n l : 0 ≤ n ≤ 9999 → year4 (chars (fmt_04d n) ++ l) = Some (n, l).
Proof.
  intros R. unfold year4, fmt_04d. rewrite chars_app, <-app_assoc, getnum_02d by lia.
  cbn [mbind option_bind]. rewrite getnum_02d by lia. cbn [mbind option_bind]. f_equal. f_equal. lia.
Qed.

Lemma in_bounds_ok lo hi z : lo ≤ z ≤ hi → in_bounds lo hi z = Some tt.
Proof.
  intros R. unfold in_bounds. by rewrite (proj2 (Z.leb_le lo z)), (proj2 (Z.leb_le z hi)) by lia.
Qed.

Lemma ParseClock_fmt h m : 0 ≤ h ≤ 23 → 0 ≤ m ≤ 59 → ParseClock (fmt_clock h m) = Some (h, m).
Proof.
  intros Hh Hm. unfold ParseClock, fmt_clock. rewrite !chars_app, getnum_02d by lia.
  cbn [mbind option_bind]. rewrite in_bounds_ok by done. cbn [mbind option_bind chars app skip].
  change (Ascii.eqb ":" ":") with true. cbv iota. cbn [mbind option_bind].
  rewrite <-(app_nil_r (chars (fmt_02d m))), getnum_02d by lia. cbn [mbind option_bind].
  by rewrite in_bounds_ok.
Qed.

(** Padding with zeros does not change a fraction. *)
Lemma chars_zeros n : chars (zeros n) = replicate n "0"%char.
Proof. induction n as [|n IH]; [done|]. cbn [zeros chars]. by rewrite IH. Qed.

Lemma decimal_app acc l l' : decimal acc (l ++ l') = decimal (decimal acc l) l'.
Proof. unfold decimal. by rewrite foldl_app. Qed.

Lemma decimal_zeros n acc : decimal acc (replicate n "0"%char) = acc * 10 ^ Z.of_nat n.
Proof.
  revert acc. induction n as [|n IH]; intros acc; [simpl; lia|].
  change (replicate (S n) "0"%char) with ("0"%char :: replicate n "0"%char).
  unfold decimal in *. cbn [foldl]. rewrite IH. change (default 0 (digit_value "0")) with 0.
  rewrite Nat2Z.inj_succ, Z.pow_succ_r by lia. lia.
Qed.

Lemma nanos_padded l n : (length l + n = 9)%nat → nanos l = decimal 0 (l ++ replicate n "0"%char).
Proof.
  intros L. unfold nanos. rewrite take_ge by lia. rewrite decimal_app, decimal_zeros. do 2 f_equal. lia.
Qed.

Lemma decimal_02d acc n l : 0 ≤ n < 100 → decimal acc (chars (fmt_02d n) ++ l) = decimal (100 * acc + n) l.
Proof.
  intros R. rewrite chars_fmt_02d by done. unfold decimal. cbn [app foldl].
  rewrite !digit_char_value by lia. cbn [default option.from_option id]. f_equal. lia.
Qed.

Lemma chars_digit n : 0 ≤ n < 10 → chars (pretty n) = [digit_char n].
Proof.
  intros R. refine (bool_decide_eq_true_1 _ _).
  assert (∀ r, 0 ≤ r < 100 → negb (r <? 10) || bool_decide (chars (pretty r) = [digit_char r]) = true) as T
    by (apply two_digits_ind; vm_compute; reflexivity).
  specialize (T n ltac:(lia)). by rewrite (proj2 (Z.ltb_lt n 10)) in T by lia.
Qed.

Lemma decimal_09d ns : 0 ≤ ns < second → decimal 0 (chars (fmt_09d ns)) = ns.
Proof.
  unfold second. intros R. unfold fmt_09d. rewrite !chars_app, !decimal_02d by lia.
  rewrite chars_digit by lia. unfold decimal. cbn [foldl]. rewrite digit_char_value by lia.
  cbn [default option.from_option id]. lia.
Qed.

(** The digits before the zone. *)
Lemma run_digits l l' : Forall (λ c, is_digit c = true) l →
  run is_digit (l ++ "Z"%char :: l') = length l.
Proof. induction 1 as [|c l D _ IH]; [done|]. simpl. by rewrite D, IH. Qed.

Lemma fmt_02d_digits n : 0 ≤ n < 100 → Forall (λ c, is_digit c = true) (chars (fmt_02d n)).
Proof.
  intros R. rewrite list.Forall_forall. intros c I. revert c I. apply list.Forall_forall.
  refine (bool_decide_eq_true_1 _ _). revert n R. apply two_digits_ind. vm_compute. reflexivity.
Qed.

Lemma parse_fraction_fmt ns l : 0 ≤ ns < second →
  parse_fraction (chars (fraction ns) ++ "Z"%char :: l) = (ns, "Z"%char :: l).
Proof.
  intros R. pose proof (decimal_09d ns R) as V. unfold fraction.
  destruct (trim_zeros_pad (fmt_09d ns)) as (n & E & L). rewrite fmt_09d_length in L by done.
  assert (Forall (λ c, is_digit c = true) (chars (trim_zeros (fmt_09d ns)))) as D.
  { apply trim_zeros_Forall. unfold second in R. unfold fmt_09d. rewrite !chars_app, !Forall_app.
    split_and!; try (apply fmt_02d_digits; lia). rewrite chars_digit by lia. constructor; [|constructor].
    pose proof (digit_char_value (ns mod 10) ltac:(lia)) as Dv. unfold digit_value in Dv.
    by destruct (is_digit _). }
  rewrite E, chars_app, chars_zeros in V.
  destruct (trim_zeros (fmt_09d ns)) as [|c s] eqn:T.
  - cbn [chars app] in *. rewrite decimal_zeros in V. simpl. f_equal. lia.
  - set (ds := String c s) in *. cbn [chars app]. unfold parse_fraction.
    change (is_char 46 "." || is_char 44 ".") with true. cbv iota. rewrite run_digits by done.
    assert (length (chars ds) = S (length (chars s))) as Ls by done. rewrite Ls. cbv iota beta.
    rewrite <-Ls, take_app_length, drop_app_length. f_equal.
    rewrite (nanos_padded _ n); [done|]. rewrite chars_length. lia.
Qed.

(** Parsing undoes formatting, on all instants of the years 0 to 9999. *)
Lemma ParseRFC3339_format t (Y : four_digit_year t = true) : ParseRFC3339 (RFC3339Nano t) = Some t.
Proof.
  apply fmt_year_four in Y as [Y F]. unfold ParseRFC3339, RFC3339Nano, parse_rfc3339. rewrite F.
  pose proof (civil_ranges (t / day)) as [Rm _]. pose proof (civil_dom (t / day)) as Rd.
  pose proof (days_of_civil (t / day)) as Dc.
  assert (days_in (month (civil (t / day))) (year (civil (t / day))) ≤ 31) as R31
    by (unfold days_in; repeat case_match; lia).
  destruct (civil (t / day)) as [y m d]. cbn [year month dom] in *.
  set (ns := t mod day). assert (0 ≤ ns < day) as B by (unfold ns, day, hour, minute, second; lia).
  assert (0 ≤ ns / hour < 24) by (unfold day, hour, minute, second in *; lia).
  rewrite !chars_app, year4_fmt by done.
  repeat first
    [ progress cbn [mbind option_bind chars app skip]
    | progress change (Ascii.eqb "-" "-") with true
    | progress change (Ascii.eqb "T" "T") with true
    | progress change (Ascii.eqb ":" ":") with true
    | rewrite getnum_02d by lia | rewrite in_bounds_ok by lia ].
  rewrite parse_fraction_fmt by (unfold second; lia). cbv iota beta.
  change (parse_zone ["Z"%char]) with (Some (0, @nil ascii)). cbn [mbind option_bind].
  f_equal. rewrite Dc. pose proof (Z.div_mod t day ltac:(done)) as Q. fold ns in Q.
  rewrite Q at 2. clear -B. generalize (t / day). revert B. generalize ns.
  unfold hour, minute, second, day. intros n B k. lia.
Qed.
