(* ===== verification/Vin.v ===== *)
(** * Vin: vehicle identification numbers ([backend/vehicles/vin.go])

    Normalization, the ISO 3779 check digit and what it detects. Upper-casing
    follows the tables of Unicode and is a parameter; the [%q] verb is not
    modelled, an error is what it says. *)

From Stdlib Require Import Ascii.
From S2P Require Import Prelude Text Platform Wire.

Open Scope Z_scope.

Definition ascii_upper (c : ascii) : ascii :=
  if in_range 97 122 c then byte (byte_of c - 32) else c.
Definition upper (s : string) : string := of_chars (map ascii_upper (chars s)).
Definition ascii_only (s : string) : bool := forallb (λ c, byte_of c <? 128)%N (chars s).

(** [strings.ToUpper]; the code relies on what it does to ASCII. *)
Class UpperMapping := {
  ToUpper : string → string;
  ToUpper_ascii : ∀ s, ascii_only s = true → ToUpper s = upper s;
}.

Definition vinLength : nat := 17.
Definition vinForbidden : list ascii := chars "IOQ".
Definition vinCheckDigitChars : list ascii := chars "0123456789X".

(** The values of the letters, in the order of the alphabet; [None] for I, O and Q. *)
Definition letter_values : list (option Z) :=
  [Some 1; Some 2; Some 3; Some 4; Some 5; Some 6; Some 7; Some 8; None;
   Some 1; Some 2; Some 3; Some 4; Some 5; None; Some 7; None; Some 9;
   Some 2; Some 3; Some 4; Some 5; Some 6; Some 7; Some 8; Some 9].

(** [vinCharValues[c]] *)
Definition vinCharValue (c : ascii) : option Z :=
  if is_digit c then Some (Z.of_N (byte_of c) - 48)
  else if in_range 65 90 c then mjoin (letter_values !! N.to_nat (byte_of c - 65))
  else None.

Definition vinPositionWeights : list Z := [8; 7; 6; 5; 4; 3; 2; 10; 0; 9; 8; 7; 6; 5; 4; 3; 2].

(** The positions count from 1. *)
Inductive VinError :=
  | VinLength (n : nat)
  | VinInvalid (c : ascii) (position : nat)
  | VinForbidden (c : ascii) (position : nat)
  | VinMismatch (want got : ascii).

(** [strings.Map] of the function that drops spaces and hyphens: rune by rune, a byte
    that is not UTF-8 becoming U+FFFD. [skip] bytes of the current rune are left. *)
Fixpoint strip_separators (skip : nat) (l : list ascii) : list ascii :=
  match l with
  | [] => []
  | c :: l' =>
      match skip with
      | S n => c :: strip_separators n l'
      | O =>
          if is_char 32 c || is_char 45 c then strip_separators 0 l'
          else match rune_length l with
               | Some n => c :: strip_separators (pred n) l'
               | None => bytes_of [239; 191; 189]%N ++ strip_separators 0 l'
               end
      end
  end.

(** The loop of [NormalizeVIN]. *)
Fixpoint check_vin_chars (position : nat) (l : list ascii) : option VinError :=
  match l with
  | [] => None
  | c :: l =>
      if negb (in_range 65 90 c || is_digit c) then Some (VinInvalid c position)
      else if existsb (Ascii.eqb c) vinForbidden then Some (VinForbidden c position)
      else check_vin_chars (S position) l
  end.

(** The loop of [vinCheckDigit]. *)
Fixpoint vin_sum (position : nat) (sum : Z) (l : list ascii) (weights : list Z) : VinError + Z :=
  match l, weights with
  | c :: l, w :: weights =>
      match vinCharValue c with
      | Some v => vin_sum (S position) (sum + v * w) l weights
      | None => inl (VinInvalid c position)
      end
  | _, _ => inr sum
  end.

Definition vinCheckDigit (vin : string) : VinError + ascii :=
  if negb (blen vin =? vinLength)%nat then inl (VinLength (blen vin))
  else match vin_sum 1 0 (chars vin) vinPositionWeights with
  | inl e => inl e
  | inr sum => inr (nth (Z.to_nat (sum mod 11)) vinCheckDigitChars zero)
  end.

Section Vin.
Context `{UpperMapping}.

Definition NormalizeVIN (raw : string) : VinError + string :=
  let stripped := of_chars (strip_separators 0 (chars raw)) in
  let vin := ToUpper stripped in
  if negb (blen vin =? vinLength)%nat then inl (VinLength (blen vin))
  else match check_vin_chars 1 (chars vin) with
  | Some e => inl e
  | None => inr vin
  end.

Definition ValidateVIN (raw : string) : VinError + string :=
  match NormalizeVIN raw with
  | inl e => inl e
  | inr vin =>
      match vinCheckDigit vin with
      | inl e => inl e
      | inr want =>
          let got := nth 8 (chars vin) zero in
          if negb (Ascii.eqb got want) then inl (VinMismatch want got) else inr vin
      end
  end.

End Vin.

Example iso_sample : vinCheckDigit "1M8GDM9AXKP042788" = inr "X"%char.
Proof. reflexivity. Qed.

(** ** The alphabet *)

(** A character of a normalized number. *)
Definition vin_char (c : ascii) : bool :=
  (in_range 65 90 c || is_digit c) && negb (existsb (Ascii.eqb c) vinForbidden).

(** Exactly the characters of the alphabet have a value, a digit. *)
Lemma vinCharValue_range c :
  if vin_char c then ∃ v, vinCharValue c = Some v ∧ 0 <= v <= 9 else vinCharValue c = None.
Proof.
  assert ((if vin_char c
           then match vinCharValue c with Some v => (0 <=? v) && (v <=? 9) | None => false end
           else bool_decide (vinCharValue c = None)) = true) as E.
  { revert c. apply all_chars. vm_compute. reflexivity. }
  destruct (vin_char c); [|by apply bool_decide_eq_true in E].
  destruct (vinCharValue c) as [v|]; [|done]. props. eauto.
Qed.

Lemma vin_char_upper c : vin_char c = true → ascii_upper c = c.
Proof.
  assert (negb (vin_char c) || Ascii.eqb (ascii_upper c) c = true) as E.
  { revert c. apply all_chars. vm_compute. reflexivity. }
  intros V. rewrite V in E. by apply Ascii.eqb_eq in E.
Qed.

Lemma vin_char_plain c : vin_char c = true →
  is_char 32 c || is_char 45 c = false ∧ (byte_of c <? 128)%N = true.
Proof.
  assert (negb (vin_char c) || negb (is_char 32 c || is_char 45 c) && (byte_of c <? 128)%N = true) as E.
  { revert c. apply all_chars. vm_compute. reflexivity. }
  intros V. rewrite V in E. cbn [negb orb] in E.
  by apply andb_true_iff in E as [->%negb_true_iff ->].
Qed.

Lemma check_vin_chars_spec n l : check_vin_chars n l = None ↔ forallb vin_char l = true.
Proof.
  revert n. induction l as [|c l IH]; intros n; [done|]. cbn [check_vin_chars forallb].
  unfold vin_char at 1. destruct (in_range 65 90 c || is_digit c); cbn [negb andb]; [|by split].
  destruct (existsb _ vinForbidden); cbn [negb andb]; [by split|]. apply IH.
Qed.

(** ** The weighted sum *)

Definition char_value (c : ascii) : Z := default 0 (vinCharValue c).

Definition weighted (l : list ascii) (weights : list Z) : Z :=
  foldr Z.add 0 (zip_with (λ c w, char_value c * w) l weights).

Lemma vin_sum_eq n acc l weights : forallb vin_char l = true →
  vin_sum n acc l weights = inr (acc + weighted l weights).
Proof.
  revert n acc weights. induction l as [|c l IH]; intros n acc weights F.
  - cbn. by rewrite Z.add_0_r.
  - cbn [forallb] in F. apply andb_true_iff in F as [V F].
    destruct weights as [|w weights]; [cbn; by rewrite Z.add_0_r|].
    pose proof (vinCharValue_range c) as R. rewrite V in R. destruct R as (v & E & _).
    cbn [vin_sum]. rewrite E, IH by done. unfold weighted. cbn [zip_with foldr].
    unfold char_value. rewrite E. cbn [default]. f_equal. simpl. lia.
Qed.

(** Changing one character changes the sum by its weight. *)
Lemma weighted_insert l weights p c c' w : l !! p = Some c → weights !! p = Some w →
  weighted (<[p := c']> l) weights = weighted l weights + (char_value c' - char_value c) * w.
Proof.
  revert weights p. induction l as [|x l IH]; intros [|w' weights] [|p] L W; try done.
  - injection L as ->. injection W as ->. unfold weighted. cbn [insert list_insert zip_with foldr].
    ring.
  - cbn in L, W. specialize (IH weights p L W). unfold weighted in *.
    change (<[S p:=c']> (x :: l)) with (x :: <[p:=c']> l). cbn [zip_with foldr]. rewrite IH. ring.
Qed.

Lemma forallb_insert (p : ascii → bool) l n c : forallb p l = true → p c = true →
  forallb p (<[n := c]> l) = true.
Proof.
  revert n. induction l as [|x l IH]; intros [|n]; simpl; [done..| |];
    rewrite !andb_true_iff; intuition.
Qed.

Lemma forallb_lookup (p : ascii → bool) l n c : forallb p l = true → l !! n = Some c → p c = true.
Proof. rewrite forallb_forall. intros F L. apply F, list_elem_of_In. by eapply list_elem_of_lookup_2. Qed.

(** 11 is a prime: a difference of values times a weight is not a multiple of it. *)
Lemma not_multiple a b : -10 <= a <= 10 → a ≠ 0 → 1 <= b <= 10 → (a * b) mod 11 ≠ 0.
Proof.
  intros A Na B E.
  assert (forallb (λ x, forallb (λ y, (x =? 0) || negb ((x * y) mod 11 =? 0))
    (map (λ n, Z.of_nat n) (seq 1 10))) (map (λ n, Z.of_nat n - 10) (seq 0 21)) = true) as F
    by (vm_compute; reflexivity).
  rewrite forallb_forall in F. specialize (F a). rewrite forallb_forall in F.
  specialize (F ltac:(apply in_map_iff; exists (Z.to_nat (a + 10)); split; [lia|apply in_seq; lia]) b
    ltac:(apply in_map_iff; exists (Z.to_nat b); split; [lia|apply in_seq; lia])).
  props. destruct F; props; lia.
Qed.

Definition check_char (sum : Z) : ascii := nth (Z.to_nat (sum mod 11)) vinCheckDigitChars zero.

(** The check digit tells the remainders apart. *)
Lemma check_char_inj x y : check_char x = check_char y → (x - y) mod 11 = 0.
Proof.
  unfold check_char. pose proof (Z.mod_pos_bound x 11). pose proof (Z.mod_pos_bound y 11). intros E.
  assert (NoDup vinCheckDigitChars) as N by (apply (bool_decide_unpack _); vm_compute; exact I).
  apply NoDup_ListNoDup in N. rewrite (List.NoDup_nth _ zero) in N.
  apply N in E; [|cbn; lia..]. apply Z2Nat.inj in E; [|lia..].
  rewrite Zminus_mod, E, Z.sub_diag. done.
Qed.

(** ** What is accepted *)

Section Accepted.
Context `{UpperMapping}.

Lemma strip_plain l :
  forallb (λ c, byte_of c <? 128)%N l = true →
  strip_separators 0 l = List.filter (λ c, negb (is_char 32 c || is_char 45 c)) l.
Proof.
  induction l as [|c l IH]; [done|]. cbn [forallb strip_separators List.filter].
  intros [A F]%andb_true_iff. destruct (is_char 32 c || is_char 45 c); cbn [negb]; [by apply IH|].
  assert (rune_length (c :: l) = Some 1%nat) as ->.
  { assert ((0 <=? byte_of c)%N && (byte_of c <=? 127)%N = true) as E.
    { apply N.ltb_lt in A. apply andb_true_iff. split; apply N.leb_le; lia. }
    unfold rune_length. cbv zeta. change ((c :: l) !! 0%nat) with (Some c). cbv iota. by rewrite E. }
  cbn [pred]. by rewrite IH.
Qed.

Lemma upper_ascii l : forallb (λ c, byte_of c <? 128)%N l = true → ToUpper (of_chars l) = of_chars (map ascii_upper l).
Proof.
  intros F. rewrite ToUpper_ascii; [unfold upper|unfold ascii_only]; by rewrite chars_of_chars.
Qed.

Lemma normalized_plain l : forallb vin_char l = true →
  forallb (λ c, byte_of c <? 128)%N l = true ∧
  List.filter (λ c, negb (is_char 32 c || is_char 45 c)) l = l ∧ map ascii_upper l = l.
Proof.
  induction l as [|c l IH]; [done|]. cbn [forallb List.filter map].
  intros [V F]%andb_true_iff. destruct (IH F) as (A & Fi & U).
  destruct (vin_char_plain c V) as [S P]. rewrite P, A, S, Fi, U, vin_char_upper by done. done.
Qed.

(** The shape of an accepted number. *)
Definition well_formed (vin : string) : Prop :=
  blen vin = vinLength ∧ forallb vin_char (chars vin) = true.

Lemma NormalizeVIN_inv raw vin : NormalizeVIN raw = inr vin → well_formed vin.
Proof.
  unfold NormalizeVIN, well_formed. set (v := ToUpper _).
  destruct (Nat.eqb_spec (blen v) vinLength) as [L|];
    cbn [negb]; [|done].
  destruct (check_vin_chars _ _) eqn:C; [done|]. intros [= <-]. split; [done|].
  by apply check_vin_chars_spec in C.
Qed.

Lemma NormalizeVIN_fixed vin : well_formed vin → NormalizeVIN vin = inr vin.
Proof.
  intros [L F]. destruct (normalized_plain _ F) as (A & Fi & U). unfold NormalizeVIN.
  rewrite strip_plain, Fi, upper_ascii, U, of_chars_chars by done. rewrite L, Nat.eqb_refl. cbn [negb].
  rewrite (proj2 (check_vin_chars_spec 1 _) F). done.
Qed.

Lemma vinCheckDigit_eq vin : well_formed vin →
  vinCheckDigit vin = inr (check_char (weighted (chars vin) vinPositionWeights)).
Proof.
  intros [L F]. unfold vinCheckDigit. rewrite L, Nat.eqb_refl. cbn [negb].
  by rewrite vin_sum_eq.
Qed.

Lemma ValidateVIN_fixed vin : well_formed vin → ValidateVIN vin =
  let want := check_char (weighted (chars vin) vinPositionWeights) in
  if Ascii.eqb (nth 8 (chars vin) zero) want then inr vin
  else inl (VinMismatch want (nth 8 (chars vin) zero)).
Proof.
  intros W. unfold ValidateVIN. rewrite NormalizeVIN_fixed, vinCheckDigit_eq by done.
  cbv zeta. by destruct (Ascii.eqb _ _).
Qed.

Lemma ValidateVIN_inv raw vin : ValidateVIN raw = inr vin →
  well_formed vin ∧ nth 8 (chars vin) zero = check_char (weighted (chars vin) vinPositionWeights).
Proof.
  unfold ValidateVIN. destruct (NormalizeVIN raw) as [e|v] eqn:N; [done|].
  apply NormalizeVIN_inv in N. rewrite vinCheckDigit_eq by done.
  destruct (Ascii.eqb_spec (nth 8 (chars v) zero) (check_char (weighted (chars v) vinPositionWeights)));
    cbn [negb]; [|done]. by intros [= <-].
Qed.

Lemma ValidateVIN_idem raw vin : ValidateVIN raw = inr vin → ValidateVIN vin = inr vin.
Proof.
  intros [W D]%ValidateVIN_inv. rewrite ValidateVIN_fixed by done. cbv zeta.
  by rewrite D, Ascii.eqb_refl.
Qed.

(** Validation gives the canonical form: 17 characters of the alphabet with the right
    check digit, which validates to itself; of an ASCII text it is the text without
    spaces and hyphens in capitals, and exactly the texts whose capitals are such a
    number are accepted. *)
Theorem ValidateVIN_canonical raw vin :
  (ValidateVIN raw = inr vin → well_formed vin ∧ ValidateVIN vin = inr vin) ∧
  (ascii_only raw = true →
   ValidateVIN raw = inr vin ↔
   vin = upper (of_chars (List.filter (λ c, negb (is_char 32 c || is_char 45 c)) (chars raw))) ∧
   well_formed vin ∧ vinCheckDigit vin = inr (nth 8 (chars vin) zero)).
Proof.
  split.
  - intros V. split; [by apply ValidateVIN_inv in V as [W _]|by eapply ValidateVIN_idem].
  - intros A. assert (ToUpper (of_chars (strip_separators 0 (chars raw))) =
      upper (of_chars (List.filter (λ c, negb (is_char 32 c || is_char 45 c)) (chars raw)))) as E.
    { rewrite strip_plain by done. rewrite ToUpper_ascii; [done|]. unfold ascii_only in *.
      rewrite chars_of_chars. apply forallb_forall. intros c [I _]%List.filter_In.
      rewrite forallb_forall in A. by apply A. }
    split.
    + intros V. pose proof (ValidateVIN_inv _ _ V) as [W D].
      split_and!; [|done|by rewrite vinCheckDigit_eq, D].
      unfold ValidateVIN, NormalizeVIN in V. rewrite E in V.
      destruct (negb _); [done|]. destruct (check_vin_chars _ _); [done|].
      destruct (vinCheckDigit _); [done|]. destruct (negb _); [done|]. by injection V.
    + intros (-> & W & D). unfold ValidateVIN, NormalizeVIN. rewrite E.
      set (vin := upper _) in *. destruct W as [L F]. rewrite L, Nat.eqb_refl. cbn [negb].
      rewrite (proj2 (check_vin_chars_spec 1 _) F), D. by rewrite Ascii.eqb_refl.
Qed.

(** ** What the check digit detects *)

Lemma weight_at p c vin : well_formed vin → chars vin !! p = Some c →
  ∃ w, vinPositionWeights !! p = Some w ∧ (p ≠ 8%nat → 2 <= w <= 10) ∧ (p = 8%nat → w = 0).
Proof.
  intros [L _] K. apply lookup_lt_Some in K. rewrite chars_length, L in K. unfold vinLength in K.
  do 17 (destruct p as [|p]; [eexists; split; [reflexivity|]; split; [lia|lia]|]). lia.
Qed.

Lemma value_range c : 0 <= char_value c <= 9.
Proof.
  unfold char_value. pose proof (vinCharValue_range c) as R. destruct (vin_char c).
  - destruct R as (v & -> & V). exact V.
  - rewrite R. cbn. lia.
Qed.

Lemma well_formed_insert vin p c : well_formed vin → vin_char c = true →
  well_formed (of_chars (<[p := c]> (chars vin))).
Proof.
  intros [L F] V. unfold well_formed. rewrite <-chars_length, chars_of_chars, length_insert, chars_length.
  split; [done|by apply forallb_insert].
Qed.

(** The sums of an accepted number and of another with the same ninth character agree
    modulo 11 when the other is accepted. *)
Lemma accepted_close raw raw' vin vin' : ValidateVIN raw = inr vin → ValidateVIN raw' = inr vin' →
  chars vin !! 8%nat = chars vin' !! 8%nat →
  (weighted (chars vin) vinPositionWeights - weighted (chars vin') vinPositionWeights) mod 11 = 0.
Proof.
  intros [W D]%ValidateVIN_inv [W' D']%ValidateVIN_inv E. apply check_char_inj.
  rewrite <-D, <-D'. destruct W as [L _]. rewrite <-chars_length in L.
  destruct (lookup_lt_is_Some_2 (chars vin) 8) as [c K]; [rewrite L; unfold vinLength; lia|].
  rewrite (nth_lookup_Some _ _ _ _ K). symmetry. apply nth_lookup_Some. by rewrite <-E.
Qed.

(** C38. The check digit detects every single wrong character: put another character of
    the alphabet in one place of an accepted number and it is refused, unless the two
    stand for the same digit; the check digit itself has no such twin. *)
Theorem single_error_detected raw vin p c c' (A : ValidateVIN raw = inr vin)
    (L : chars vin !! p = Some c) (V : vin_char c' = true)
    (Ne : if decide (p = 8%nat) then c' ≠ c else char_value c' ≠ char_value c) :
  ∃ want got, ValidateVIN (of_chars (<[p := c']> (chars vin))) = inl (VinMismatch want got).
Proof.
  pose proof (ValidateVIN_inv _ _ A) as [W D]. pose proof (well_formed_insert vin p c' W V) as W'.
  destruct (weight_at p c vin W L) as (w & Hw & Big & Nil).
  rewrite ValidateVIN_fixed by done. cbv zeta. rewrite chars_of_chars.
  destruct (Ascii.eqb_spec (nth 8 (<[p:=c']> (chars vin)) zero)
    (check_char (weighted (<[p:=c']> (chars vin)) vinPositionWeights))) as [E|]; [|by eexists _, _].
  exfalso. rewrite (weighted_insert _ _ _ _ _ _ L Hw) in E.
  destruct (decide (p = 8%nat)) as [->|Np].
  - rewrite Nil, Z.mul_0_r, Z.add_0_r, <-D, (nth_lookup_Some _ _ _ _ L) in E by done. apply Ne.
    rewrite <-E. symmetry. apply nth_lookup_Some, list_lookup_insert_eq. by eapply lookup_lt_Some.
  - assert (nth 8 (<[p:=c']> (chars vin)) zero = nth 8 (chars vin) zero) as N8.
    { by rewrite !nth_lookup, list_lookup_insert_ne. }
    rewrite N8, D in E. apply check_char_inj in E.
    pose proof (value_range c). pose proof (value_range c').
    apply (not_multiple (char_value c - char_value c') w); [lia|lia|pose proof (Big Np); lia|].
    rewrite <-E. f_equal. ring.
Qed.

(** The weights of two places. *)
Lemma weighted_swap l weights p q c c' w w' : p ≠ q → l !! p = Some c → l !! q = Some c' →
  weights !! p = Some w → weights !! q = Some w' →
  weighted (<[p := c']> (<[q := c]> l)) weights =
  weighted l weights + (char_value c' - char_value c) * (w - w').
Proof.
  intros N P Q W W'. rewrite (weighted_insert _ _ p c c' w); [|by rewrite list_lookup_insert_ne|done].
  rewrite (weighted_insert _ _ q c' c w') by done. ring.
Qed.

(** It also detects every exchange of two characters whose places weigh differently,
    neighbours in particular, unless the two stand for the same digit; the check digit
    itself must stay in place. *)
Theorem exchange_detected raw vin p q c c' w w' (A : ValidateVIN raw = inr vin)
    (P : chars vin !! p = Some c) (Q : chars vin !! q = Some c')
    (W : vinPositionWeights !! p = Some w) (W' : vinPositionWeights !! q = Some w')
    (Np : p ≠ 8%nat) (Nq : q ≠ 8%nat) (Nw : w ≠ w') (Nv : char_value c ≠ char_value c') :
  ∃ want got, ValidateVIN (of_chars (<[p := c']> (<[q := c]> (chars vin)))) =
    inl (VinMismatch want got).
Proof.
  assert (p ≠ q) as Npq by (intros ->; congruence).
  pose proof (ValidateVIN_inv _ _ A) as [Wf D]. pose proof Wf as [_ F].
  pose proof (well_formed_insert vin q c Wf (forallb_lookup _ _ _ _ F P)) as W1.
  pose proof (well_formed_insert _ p c' W1 (forallb_lookup _ _ _ _ F Q)) as W2.
  rewrite chars_of_chars in W2. rewrite ValidateVIN_fixed by done. cbv zeta. rewrite chars_of_chars.
  destruct (Ascii.eqb_spec (nth 8 (<[p:=c']> (<[q:=c]> (chars vin))) zero)
    (check_char (weighted (<[p:=c']> (<[q:=c]> (chars vin))) vinPositionWeights))) as [E|];
    [|by eexists _, _].
  exfalso. rewrite (weighted_swap _ _ p q c c' w w') in E by done.
  assert (nth 8 (<[p:=c']> (<[q:=c]> (chars vin))) zero = nth 8 (chars vin) zero) as N8
    by by rewrite !nth_lookup, !list_lookup_insert_ne.
  rewrite N8, D in E. apply check_char_inj in E.
  destruct (weight_at p c vin Wf P) as (x & Hx & Bx & _). rewrite W in Hx. injection Hx as <-.
  destruct (weight_at q c' vin Wf Q) as (y & Hy & By & _). rewrite W' in Hy. injection Hy as <-.
  specialize (Bx Np). specialize (By Nq).
  pose proof (value_range c). pose proof (value_range c').
  destruct (Z.lt_ge_cases w w').
  - apply (not_multiple (char_value c' - char_value c) (w' - w)); [lia..|]. rewrite <-E. f_equal. ring.
  - apply (not_multiple (char_value c - char_value c') (w - w')); [lia..|]. rewrite <-E. f_equal. ring.
Qed.

End Accepted.
