(* ===== verification/Vehicles.v ===== *)
(** * Vehicles: the registry, its history, the Postgres store and the service
    ([backend/vehicles/models.go], [store.go], [service.go], [backend/migrations/vehicles])

    The registry and the append-only service history; the passport is a view. The
    table of components, which no code uses, is left out. The service registers, reads,
    records events and mileage. *)

From Stdlib Require Import Ascii.
From S2P Require Import Prelude Text Platform Sql Wire PayModels Vin.

Open Scope Z_scope.

(** ** Models *)

Record Vehicle := mkVehicle {
  v_ID : uuid;
  v_TenantID : option uuid;
  v_OwnerUserID : uuid;
  v_VIN : string;
  v_Make : string;
  v_Model : string;
  v_Year : Z;
  v_Plate : string;
  v_Color : string;
  v_MileageLatestKm : Z;
  v_CreatedAt : time;
  v_UpdatedAt : time;
}.

#[export] Instance Vehicle_eq_dec : EqDecision Vehicle.
Proof. solve_decision. Defined.

Record HistoryEvent := mkHistoryEvent {
  h_ID : uuid;
  h_VehicleID : uuid;
  h_EventType : string;
  h_Summary : string;
  h_EvidenceRef : string;
  h_OccurredAt : time;
  h_OdometerKm : option Z;
  h_RecordedBy : option uuid;
  h_CreatedAt : time;
}.

#[export] Instance HistoryEvent_eq_dec : EqDecision HistoryEvent.
Proof. solve_decision. Defined.

Record Passport := mkPassport {
  p_ID : uuid;
  p_TenantID : option uuid;
  p_OwnerUserID : uuid;
  p_VIN : string;
  p_Make : string;
  p_Model : string;
  p_Year : Z;
  p_Plate : string;
  p_Color : string;
  p_MileageLatestKm : Z;
  p_ServiceEventCount : Z;
  p_LastServiceAt : option time;
  p_CreatedAt : time;
}.

Definition HistoryEventTypeService : string := "service".
Definition HistoryEventTypeRepair : string := "repair".
Definition HistoryEventTypeInspection : string := "inspection".
Definition HistoryEventTypeMileage : string := "mileage".
Definition HistoryEventTypeIncident : string := "incident".
Definition HistoryEventTypeModification : string := "modification".
Definition HistoryEventTypeNote : string := "note".

Definition historyEventTypes : list string :=
  [HistoryEventTypeService; HistoryEventTypeRepair; HistoryEventTypeInspection;
   HistoryEventTypeMileage; HistoryEventTypeIncident; HistoryEventTypeModification;
   HistoryEventTypeNote].

Definition ValidHistoryEventType (t : string) : bool := existsb (String.eqb t) historyEventTypes.

Definition MinYearOfManufacture : Z := 1950.
Definition MaxYearOfManufacture : Z := 2100.

(** ** The data boundary *)

Record VehicleScope := mkVehicleScope {
  sc_TenantID : option uuid;
  sc_OwnerID : option uuid;
  explicitUnrestricted : bool;
}.

Definition UnrestrictedScope : VehicleScope := mkVehicleScope None None true.

Definition Unrestricted (s : VehicleScope) : bool :=
  explicitUnrestricted s && bool_decide (sc_TenantID s = None) && bool_decide (sc_OwnerID s = None).

Definition vehicleScopePredicate (scope : VehicleScope) (tenantCol ownerCol : string)
    (nextParam : nat) : option cond * list value :=
  if Unrestricted scope then (None, [])
  else match sc_TenantID scope, sc_OwnerID scope with
  | Some t, _ => (Some (CEq tenantCol nextParam), [VUuid t])
  | None, Some o => (Some (CAnd (CIsNull tenantCol) (CEq ownerCol nextParam)), [VUuid o])
  | None, None => (Some CFalse, [])
  end.

(** ** The tables *)

(** The history is in the order of its insertions. *)
Record veh_db := mkVehDB {
  vehicles : gmap uuid Vehicle;
  vehicle_service_history : list HistoryEvent;
}.

Definition empty_veh_db : veh_db := mkVehDB ∅ [].

Definition with_vehicles f (d : veh_db) : veh_db :=
  mkVehDB (f (vehicles d)) (vehicle_service_history d).
Definition with_history h (d : veh_db) : veh_db :=
  mkVehDB (vehicles d) (vehicle_service_history d ++ [h]).

(** An application error, [ErrVehicleNotFound], a unique violation of the database, or
    another error. *)
Inductive VehError :=
  | VehApp (e : Error)
  | ErrVehicleNotFound
  | UniqueViolation
  | VehOther.

Definition IsUniqueViolation (e : VehError) : bool :=
  match e with UniqueViolation => true | _ => false end.

Abbreviation db := (M veh_db VehError) (only parsing).

(** The number is taken. *)
Definition vin_taken (vin : string) (d : veh_db) : bool :=
  existsb (λ v, String.eqb (v_VIN v) vin) (map_to_list (vehicles d)).*2.

Definition insert_vehicle (v : Vehicle) : db unit :=
  d ← get;
  ensure ((1950 <=? v_Year v) && (v_Year v <=? 2100)) VehOther;;
  ensure (bool_decide (vehicles d !! v_ID v = None) && negb (vin_taken (v_VIN v) d)) UniqueViolation;;
  modify (with_vehicles (insert (v_ID v) v)).

(** A foreign key violation is the missing vehicle ([isForeignKeyViolation]). *)
Definition insert_history (h : HistoryEvent) : db unit :=
  d ← get;
  ensure (ValidHistoryEventType (h_EventType h)) VehOther;;
  ensure (negb (existsb (λ o, bool_decide (h_ID o = h_ID h)) (vehicle_service_history d)))
    UniqueViolation;;
  ensure (negb (bool_decide (vehicles d !! h_VehicleID h = None))) ErrVehicleNotFound;;
  modify (with_history h).

(** ** The store *)

Definition defaultHistoryLimit : Z := 50.
Definition maxHistoryLimit : Z := 200.
Definition defaultListLimit : Z := 50.
Definition maxListLimit : Z := 100.
Definition initialHistorySummary : string := "Vehicle registered on Motivra".

Record VehicleCursor := mkVehicleCursor {
  vc_CreatedAt : time;
  vc_ID : uuid;
}.

Definition vehicle_env (v : Vehicle) : env := λ column,
  if String.eqb column "id" then VUuid (v_ID v)
  else if String.eqb column "tenant_id" then of_uuid (v_TenantID v)
  else if String.eqb column "owner_user_id" then VUuid (v_OwnerUserID v)
  else VNull.

(** A row of the history joined with its vehicle. *)
Definition history_env (v : Vehicle) (h : HistoryEvent) : env := λ column,
  if String.eqb column "h.vehicle_id" then VUuid (h_VehicleID h)
  else if String.eqb column "v.tenant_id" then of_uuid (v_TenantID v)
  else if String.eqb column "v.owner_user_id" then VUuid (v_OwnerUserID v)
  else VNull.

(** The rows of a vehicle. *)
Definition history_of (id : uuid) (d : veh_db) : list HistoryEvent :=
  List.filter (λ h, bool_decide (h_VehicleID h = id)) (vehicle_service_history d).

(** A row of the view [vehicle_passports]. *)
Definition passport_row (d : veh_db) (v : Vehicle) : Passport :=
  let rows := history_of (v_ID v) d in
  mkPassport (v_ID v) (v_TenantID v) (v_OwnerUserID v) (v_VIN v) (v_Make v) (v_Model v) (v_Year v)
    (v_Plate v) (v_Color v) (v_MileageLatestKm v) (Z.of_nat (length rows))
    (match h_OccurredAt <$> rows with [] => None | t :: ts => Some (foldr Z.max t ts) end)
    (v_CreatedAt v).

Definition passport_env (p : Passport) : env := λ column,
  if String.eqb column "vehicle_id" then VUuid (p_ID p)
  else if String.eqb column "tenant_id" then of_uuid (p_TenantID p)
  else if String.eqb column "owner_user_id" then VUuid (p_OwnerUserID p)
  else VNull.

(** ORDER BY occurred_at DESC *)
Definition occurred_desc (a b : HistoryEvent) : Prop := h_OccurredAt b <= h_OccurredAt a.
#[export] Instance occurred_desc_dec a b : Decision (occurred_desc a b).
Proof. unfold occurred_desc. apply _. Defined.
#[export] Instance occurred_desc_total : Total occurred_desc.
Proof. intros a b. unfold occurred_desc. lia. Qed.
#[export] Instance occurred_desc_trans : Transitive occurred_desc.
Proof. intros a b c. unfold occurred_desc. lia. Qed.

Section Store.
Context `{Driver} `{!RowOrder HistoryEvent}.

Definition send_query (used : list nat) (args : list value) : db unit :=
  ensure (accepts used (length args)) VehOther.

(** The struct after the call. [clock] is [time.Now], [now] is [now()], which has the
    precision of the columns, and [historyID] the default of its column. *)
Definition CreateVehicle (now clock : time) (fresh historyID : uuid) (v : Vehicle) : db Vehicle :=
  let v := mkVehicle (assign_id (v_ID v) fresh) (v_TenantID v) (v_OwnerUserID v) (v_VIN v)
             (v_Make v) (v_Model v) (v_Year v) (v_Plate v) (v_Color v) (v_MileageLatestKm v)
             (timestamptz now) (timestamptz now) in
  transact (
    insert_vehicle v;;
    insert_history (mkHistoryEvent historyID (v_ID v) HistoryEventTypeNote initialHistorySummary ""
                      (timestamptz clock) None (Some (v_OwnerUserID v)) (timestamptz now));;
    mret v).

Definition GetVehicle (vehicleID : uuid) (scope : VehicleScope) : db Vehicle :=
  let '(pred, predArgs) := vehicleScopePredicate scope "tenant_id" "owner_user_id" 2 in
  let where_ := and_pred (CEq "id" 1) pred in
  let args := VUuid vehicleID :: predArgs in
  send_query (placeholders where_) args;;
  d ← get;
  match vehicles d !! vehicleID with
  | Some v => if eval None args (vehicle_env v) where_ then mret v else throw ErrVehicleNotFound
  | None => throw ErrVehicleNotFound
  end.

(** [(created_at, id) < ($n, $m)] *)
Definition before_cursor (cursor : option VehicleCursor) (v : Vehicle) : bool :=
  match cursor with
  | None => true
  | Some c =>
      let at_ := timestamptz (vc_CreatedAt c) in
      (v_CreatedAt v <? at_) || (v_CreatedAt v =? at_) && (v_ID v <? vc_ID c)%N
  end.

(** The placeholders of the whole query: the scope, the cursor, the limit. *)
Definition list_placeholders (where_ : cond) (predArgs : list value) (cursor : option VehicleCursor)
    : list nat :=
  let n := length predArgs in
  placeholders where_ ++
  match cursor with Some _ => [S n; S (S n); S (S (S n))] | None => [S n] end.

Definition ListVehicles (scope : VehicleScope) (cursor : option VehicleCursor) (limit : Z)
    : db (list Vehicle * option VehicleCursor) :=
  let limit := clamp_limit defaultListLimit maxListLimit limit in
  let '(pred, predArgs) := vehicleScopePredicate scope "tenant_id" "owner_user_id" 1 in
  let where_ := default CTrue pred in
  let args := predArgs ++
    match cursor with Some c => [VInt (vc_CreatedAt c); VUuid (vc_ID c)] | None => [] end ++
    [VInt (limit + 1)] in
  send_query (list_placeholders where_ predArgs cursor) args;;
  d ← get;
  let rows := List.filter (λ v, eval None args (vehicle_env v) where_ && before_cursor cursor v)
                (map_to_list (vehicles d)).*2 in
  let out := page (limit + 1) 0 (merge_sort (newest_first v_CreatedAt v_ID) rows) in
  if limit <? Z.of_nat (length out) then
    let out := take (Z.to_nat limit) out in
    mret (out, (λ v, mkVehicleCursor (v_CreatedAt v) (v_ID v)) <$> list.last out)
  else mret (out, None).

Definition RecordHistoryEvent (now : time) (fresh : uuid) (e : HistoryEvent) : db unit :=
  insert_history (mkHistoryEvent (assign_id (h_ID e) fresh) (h_VehicleID e) (h_EventType e)
                    (h_Summary e) (h_EvidenceRef e) (timestamptz (h_OccurredAt e)) (h_OdometerKm e)
                    (h_RecordedBy e) (timestamptz now)).

Definition ListHistory (vehicleID : uuid) (scope : VehicleScope) (limit offset : Z)
    : db (list HistoryEvent) :=
  let limit := clamp_limit defaultHistoryLimit maxHistoryLimit limit in
  let offset := clamp_offset offset in
  let '(pred, predArgs) := vehicleScopePredicate scope "v.tenant_id" "v.owner_user_id" 2 in
  let where_ := and_pred (CEq "h.vehicle_id" 1) pred in
  let args := VUuid vehicleID :: predArgs ++ [VInt limit; VInt offset] in
  send_query (placeholders where_ ++ [(length args - 1)%nat; length args]) args;;
  d ← get;
  let joined h := match vehicles d !! h_VehicleID h with
                  | Some v => eval None args (history_env v h) where_
                  | None => false
                  end in
  let rows := List.filter joined (vehicle_service_history d) in
  mret (page limit offset (merge_sort occurred_desc (row_order rows))).

Definition GetPassport (vehicleID : uuid) (scope : VehicleScope) : db Passport :=
  let '(pred, predArgs) := vehicleScopePredicate scope "tenant_id" "owner_user_id" 2 in
  let where_ := and_pred (CEq "vehicle_id" 1) pred in
  let args := VUuid vehicleID :: predArgs in
  send_query (placeholders where_) args;;
  d ← get;
  match vehicles d !! vehicleID with
  | Some v => let p := passport_row d v in
              if eval None args (passport_env p) where_ then mret p else throw ErrVehicleNotFound
  | None => throw ErrVehicleNotFound
  end.

Definition with_mileage (now : time) (km : Z) (v : Vehicle) : Vehicle :=
  mkVehicle (v_ID v) (v_TenantID v) (v_OwnerUserID v) (v_VIN v) (v_Make v) (v_Model v) (v_Year v)
    (v_Plate v) (v_Color v) km (v_CreatedAt v) now.

(** The update has no condition on the reading it replaces. *)
Definition UpdateMileage (now clock : time) (historyID : uuid) (vehicleID : uuid) (km : Z) : db unit :=
  ensure (0 <=? km) VehOther;;
  transact (
    d ← get;
    v ← from_option (vehicles d !! vehicleID) ErrVehicleNotFound;
    modify (with_vehicles (insert vehicleID (with_mileage (timestamptz now) km v)));;
    insert_history (mkHistoryEvent historyID vehicleID HistoryEventTypeMileage
                      ("Odometer reading recorded: " +:+ pretty km +:+ " km") ""
                      (timestamptz clock) (Some km) None (timestamptz now))).

End Store.

#[global] Arguments CreateVehicle : simpl never.
#[global] Arguments GetVehicle : simpl never.
#[global] Arguments ListVehicles : simpl never.
#[global] Arguments RecordHistoryEvent : simpl never.
#[global] Arguments ListHistory : simpl never.
#[global] Arguments GetPassport : simpl never.
#[global] Arguments UpdateMileage : simpl never.

(** * The vehicles service ([backend/vehicles/service.go])

    Registration, reads, history and mileage. *)

Definition VehEventDomain : string := "vehicles".
Definition EventVehicleCreated : string := "vehicle.created.v1".
Definition EventVehicleHistoryUpdated : string := "vehicle.history.updated.v1".
Definition EventVehicleMileageRecorded : string := "vehicle.mileage.recorded.v1".

(** The payload maps; the instant of a history event is its text. *)
Inductive VehPayload :=
  | VehicleCreated (vehicle_id : uuid) (vin make model : string) (year : Z) (plate color : string)
      (mileage : Z) (owner : uuid)
  | HistoryUpdated (vehicle_id history_event_id : uuid) (event_type summary occurred_at : string)
      (evidence_ref : string) (odometer_km : option Z)
  | MileageRecorded (vehicle_id : uuid) (old_km new_km : Z).

Record veh_world := mkVehWorld {
  vw_db : veh_db;
  vw_events : list (string * Event VehPayload);
}.

Abbreviation svc := (M veh_world VehError) (only parsing).

Definition on_db {A} (c : M veh_db VehError A) : svc A :=
  zoom vw_db (λ d w, mkVehWorld d (vw_events w)) c.

Definition vin_error_text (quote_byte : ascii → string) (e : VinError) : string :=
  match e with
  | VinLength n => "vin must be exactly " +:+ pretty (Z.of_nat vinLength) +:+
      " characters after normalization, got " +:+ pretty (Z.of_nat n)
  | VinInvalid c p => "vin contains invalid character " +:+ quote_byte c +:+ " at position " +:+
      pretty (Z.of_nat p)
  | VinForbidden c p => "vin contains forbidden character " +:+ quote_byte c +:+ " at position " +:+
      pretty (Z.of_nat p)
  | VinMismatch want got => "vin check digit mismatch at position 9: expected " +:+
      quote_byte want +:+ ", got " +:+ quote_byte got
  end.

Definition required (field : string) : VehError :=
  VehApp (ErrValidation (field +:+ " is required") [mkFieldError field "is required"]).

Definition vehicle_not_found : VehError := VehApp (ErrNotFound "vehicle not found").

(** [if errors.Is(err, ErrVehicleNotFound) { return ErrNotFound }] *)
Definition not_found {A} (c : svc A) : svc A :=
  wrap (λ e, match e with ErrVehicleNotFound => vehicle_not_found | e => e end) c.

Section Service.
Context `{Driver} `{!RowOrder HistoryEvent} `{UuidText} `{UpperMapping}.
Context (publisher : option (Event VehPayload → bool)).

Definition publish (c : Ctx) (fresh : uuid) (eventType : string) (aggregateID : uuid)
    (tenantID actorID : option uuid) (payload : VehPayload) : svc unit :=
  match publisher with
  | None => mret tt
  | Some broker =>
      let tenant := match tenantID with Some t => uuid_string t | None => "" end in
      let actor := match actorID with
                   | Some a => if bool_decide (a = uuid_nil) then "" else uuid_string a
                   | None => ""
                   end in
      e ← from_option (NewEvent (ctx_now c) fresh eventType (uuid_string aggregateID) tenant actor
                         (ctx_request_id c) payload) VehOther;
      ensure (broker e) VehOther;;
      modify (λ w, mkVehWorld (vw_db w) (vw_events w ++ [(VehEventDomain, e)]))
  end.

(** The validation of a registration, the number already canonical; [VehicleID] is
    assigned by the caller. *)
Definition check_registration (v : Vehicle) : svc unit :=
  ensure (negb (bool_decide (v_OwnerUserID v = uuid_nil))) (required "owner_user_id");;
  ensure ((MinYearOfManufacture <=? v_Year v) && (v_Year v <=? MaxYearOfManufacture))
    (VehApp (ErrValidation ("year_of_manufacture must be between " +:+ pretty MinYearOfManufacture +:+
       " and " +:+ pretty MaxYearOfManufacture) [mkFieldError "year_of_manufacture" "out of range"]));;
  ensure (negb (String.eqb (TrimSpace (v_Make v)) "")) (required "make");;
  ensure (negb (String.eqb (TrimSpace (v_Model v)) "")) (required "model");;
  ensure (0 <=? v_MileageLatestKm v)
    (VehApp (ErrValidation "mileage must be non-negative"
       [mkFieldError "mileage_latest_km" "must be non-negative"])).

(** The struct after the call. *)
Definition RegisterVehicle (quote_byte : ascii → string) (c : Ctx) (v : option Vehicle)
    (actorID : uuid) : svc Vehicle :=
  v ← from_option v (VehApp (ErrValidation "vehicle is required" []));
  vin ← from_sum (match ValidateVIN (v_VIN v) with
                  | inl e => inl (VehApp (ErrValidation "vin is not valid"
                                    [mkFieldError "vin" (vin_error_text quote_byte e)]))
                  | inr vin => inr vin
                  end);
  check_registration v;;
  let v := mkVehicle (assign_id (v_ID v) (ctx_fresh c 0)) (v_TenantID v) (v_OwnerUserID v) vin
             (TrimSpace (v_Make v)) (TrimSpace (v_Model v)) (v_Year v) (TrimSpace (v_Plate v))
             (TrimSpace (v_Color v)) (v_MileageLatestKm v) (v_CreatedAt v) (v_UpdatedAt v) in
  v ← wrap (λ e, if IsUniqueViolation e
                 then VehApp (ErrConflict "a vehicle with this VIN is already registered") else e)
        (on_db (CreateVehicle (ctx_now c) (ctx_now c) (ctx_fresh c 1) (ctx_fresh c 2) v));
  publish c (ctx_fresh c 3) EventVehicleCreated (v_ID v) (v_TenantID v) (Some actorID)
    (VehicleCreated (v_ID v) (v_VIN v) (v_Make v) (v_Model v) (v_Year v) (v_Plate v) (v_Color v)
       (v_MileageLatestKm v) (v_OwnerUserID v));;
  mret v.

Definition Veh_GetVehicle (vehicleID : uuid) (scope : VehicleScope) : svc Vehicle :=
  not_found (on_db (GetVehicle vehicleID scope)).

Definition RecordEvent (c : Ctx) (e : option HistoryEvent) : svc HistoryEvent :=
  e ← from_option e (VehApp (ErrValidation "history event is required" []));
  ensure (negb (bool_decide (h_VehicleID e = uuid_nil))) (required "vehicle_id");;
  ensure (ValidHistoryEventType (h_EventType e))
    (VehApp (ErrValidation "event_type is not supported" [mkFieldError "event_type"
       "must be one of service, repair, inspection, mileage, incident, modification, note"]));;
  ensure (negb (String.eqb (TrimSpace (h_Summary e)) "")) (required "summary");;
  let e := mkHistoryEvent (assign_id (h_ID e) (ctx_fresh c 0)) (h_VehicleID e) (h_EventType e)
             (TrimSpace (h_Summary e)) (h_EvidenceRef e)
             (if is_zero (h_OccurredAt e) then ctx_now c else h_OccurredAt e) (h_OdometerKm e)
             (h_RecordedBy e) (h_CreatedAt e) in
  not_found (on_db (RecordHistoryEvent (ctx_now c) (ctx_fresh c 1) e));;
  publish c (ctx_fresh c 2) EventVehicleHistoryUpdated (h_VehicleID e) None (h_RecordedBy e)
    (HistoryUpdated (h_VehicleID e) (h_ID e) (h_EventType e) (h_Summary e)
       (RFC3339Nano (h_OccurredAt e)) (h_EvidenceRef e) (h_OdometerKm e));;
  mret e.

Definition Veh_ListVehicles (scope : VehicleScope) (cursor : option VehicleCursor) (limit : Z)
    : svc (list Vehicle * option VehicleCursor) :=
  on_db (ListVehicles scope cursor limit).

Definition History (vehicleID : uuid) (scope : VehicleScope) (limit offset : Z)
    : svc (list HistoryEvent) :=
  on_db (ListHistory vehicleID scope limit offset).

Definition Veh_Passport (vehicleID : uuid) (scope : VehicleScope) : svc Passport :=
  not_found (on_db (GetPassport vehicleID scope)).

(** The checks of a reading: the vehicle it is for. *)
Definition mileage_guard (vehicleID : uuid) (km : Z) (scope : VehicleScope) : svc Vehicle :=
  ensure (0 <=? km) (VehApp (ErrValidation "mileage must be non-negative"
                      [mkFieldError "odometer_km" "must be non-negative"]));;
  current ← not_found (on_db (GetVehicle vehicleID scope));
  ensure (v_MileageLatestKm current <=? km)
    (VehApp (ErrConflict ("odometer cannot decrease from " +:+ pretty (v_MileageLatestKm current) +:+
       " km to " +:+ pretty km +:+ " km")));;
  mret current.

(** The writes of a reading. *)
Definition mileage_commit (c : Ctx) (vehicleID : uuid) (km : Z) (recordedBy : option uuid)
    (current : Vehicle) : svc unit :=
  not_found (on_db (UpdateMileage (ctx_now c) (ctx_now c) (ctx_fresh c 0) vehicleID km));;
  publish c (ctx_fresh c 1) EventVehicleMileageRecorded vehicleID (v_TenantID current) recordedBy
    (MileageRecorded vehicleID (v_MileageLatestKm current) km).

Definition RecordMileage (c : Ctx) (vehicleID : uuid) (km : Z) (recordedBy : option uuid)
    (scope : VehicleScope) : svc unit :=
  current ← mileage_guard vehicleID km scope;
  mileage_commit c vehicleID km recordedBy current.

End Service.

#[global] Arguments publish : simpl never.
#[global] Arguments RecordMileage : simpl never.
