(* ===== verification/VehHttp.v ===== *)
(** * VehHttp: the HTTP layer of the vehicles domain
    ([backend/vehicles/cursor.go], [http.go])

    The opaque cursor of the listing, the scope and the permissions a principal gets from
    its claims, the parameters of a request and the handlers, with the bodies they answer.
    A request body is what [platform.DecodeJSON] made of it, the new value or the error. *)

From Stdlib Require Import Ascii.
From S2P Require Import Prelude Text Platform Sql Money Wire PayModels Base64 Http TimeParse.
From S2P Require Import Auth Vin Vehicles.

Open Scope Z_scope.

#[local] Arguments TrimSpace : simpl never.

Definition cursorVersion : string := "v1".
Definition cursorSeparator : ascii := "|".

(** [strings.Cut] *)
Fixpoint cut_at (sep : ascii) (s : string) : option (string * string) :=
  match s with
  | "" => None
  | String c s =>
      if Ascii.eqb c sep then Some ("", s)
      else match cut_at sep s with Some (a, b) => Some (String c a, b) | None => None end
  end.

(** [strings.SplitN(s, sep, 3)] when it has three parts. *)
Definition split3 (sep : ascii) (s : string) : option (string * string * string) :=
  '(a, r) ← cut_at sep s; '(b, c) ← cut_at sep r; Some (a, b, c).

Definition bad_cursor : Error :=
  ErrValidation "cursor is not valid"
    [mkFieldError "cursor" "must be the opaque cursor from a previous response"].

Section Cursor.
Context `{UuidText}.

(** [None]: the identifier is required. *)
Definition EncodeVehicleCursor (c : VehicleCursor) : option string :=
  if bool_decide (vc_ID c = uuid_nil) then None
  else
    let payload := join cursorSeparator
      [cursorVersion; RFC3339Nano (vc_CreatedAt c); uuid_string (vc_ID c)] in
    Some (EncodeToString RawURLEncoding (map byte_of (chars payload))).

Definition ParseVehicleCursor (raw : string) : Error + VehicleCursor :=
  match DecodeString RawURLEncoding (TrimSpace raw) with
  | None => inl bad_cursor
  | Some decoded =>
      match split3 cursorSeparator (of_chars (map byte decoded)) with
      | None => inl bad_cursor
      | Some (version, at_, id) =>
          if negb (String.eqb version cursorVersion) then inl bad_cursor
          else match ParseRFC3339 at_ with
          | None => inl bad_cursor
          | Some createdAt =>
              match uuid_parse id with
              | Some id => if bool_decide (id = uuid_nil) then inl bad_cursor
                           else inr (mkVehicleCursor createdAt id)
              | None => inl bad_cursor
              end
          end
      end
  end.

Lemma cut_at_join sep s r : absent sep s → cut_at sep (s +:+ String sep r) = Some (s, r).
Proof.
  induction s as [|c s IH].
  - intros _. change ("" +:+ String sep r) with (String sep r). cbn [cut_at]. by rewrite Ascii.eqb_refl.
  - intros [Nc A]%absent_cons. change (String c s +:+ String sep r) with (String c (s +:+ String sep r)).
    cbn [cut_at]. destruct (Ascii.eqb_spec c sep); [done|]. by rewrite IH.
Qed.

Lemma bytes_round_trip s : of_chars (map byte (map byte_of (chars s))) = s.
Proof.
  rewrite map_map. assert (map (λ c, byte (byte_of c)) (chars s) = chars s) as ->.
  { etrans; [|apply map_id]. apply map_ext. intros c. apply ascii_N_embedding. }
  apply of_chars_chars.
Qed.

Lemma chars_bytes s : is_bytes (map byte_of (chars s)).
Proof.
  unfold is_bytes. rewrite Forall_fmap. apply list.Forall_forall. intros c _. apply N_ascii_bounded.
Qed.

Lemma base64_visible c : base64_char c = true → visible c = true.
Proof.
  assert (negb (base64_char c) || visible c = true) as E.
  { revert c. apply all_chars. vm_compute. reflexivity. }
  intros B. by rewrite B in E.
Qed.

(** Decoding undoes the encoding of a position in the years 0 to 9999. *)
Lemma ParseVehicleCursor_encode c s : four_digit_year (vc_CreatedAt c) = true →
  EncodeVehicleCursor c = Some s → ParseVehicleCursor s = inr c.
Proof.
  intros Y. unfold EncodeVehicleCursor. case_bool_decide as N; [done|]. cbv zeta.
  set (payload := join cursorSeparator
    [cursorVersion; RFC3339Nano (vc_CreatedAt c); uuid_string (vc_ID c)]).
  assert (payload = "v1" +:+ String cursorSeparator (RFC3339Nano (vc_CreatedAt c) +:+
    String cursorSeparator (uuid_string (vc_ID c)))) as Ep by done.
  clearbody payload. intros Q.
  assert (s = EncodeToString RawURLEncoding (map byte_of (chars payload))) as -> by congruence.
  unfold ParseVehicleCursor.
  assert (base64_alphabet RawURLEncoding) as Al by by right.
  rewrite TrimSpace_visible.
  2: { pose proof (EncodeToString_chars _ _ Al (chars_bytes payload)) as F. apply forallb_forall.
       rewrite forallb_forall in F.
       intros x I. apply base64_visible, F, I. }
  rewrite (DecodeString_encode _ _ Al (chars_bytes payload)), bytes_round_trip.
  unfold split3. rewrite Ep. rewrite cut_at_join by (apply free_of_absent; reflexivity).
  cbn [mbind option_bind].
  rewrite cut_at_join.
  2: { eapply absent_class; [apply RFC3339Nano_chars|].
       intros [[[d D]|D]|I]; [by vm_compute in D|done|]. set_solver. }
  cbn [mbind option_bind]. rewrite String.eqb_refl. cbn [negb].
  rewrite ParseRFC3339_format, uuid_parse_string by done.
  by rewrite bool_decide_eq_false_2; [destruct c|].
Qed.

End Cursor.

(** * The HTTP layer of the vehicles domain ([backend/vehicles/http.go])

    The scope and the permissions a principal gets from its claims, the parameters of a
    request and the handlers, with the bodies they answer. A request body is what
    [platform.DecodeJSON] made of it, the new value or the error. *)

Definition RoleAdmin : string := "ADMIN".
Definition RoleSuperAdmin : string := "SUPER_ADMIN".

Record createVehicleRequest := mkCreateVehicleRequest {
  cv_VIN : string;
  cv_Make : string;
  cv_Model : string;
  cv_YearOfManufacture : Z;
  cv_Plate : string;
  cv_Color : string;
}.

Record mileageRequest := mkMileageRequest { mr_OdometerKm : option Z }.

(** The application error a handler's error is, if it is one. *)
Definition veh_app (e : VehError) : option Error := match e with VehApp e => Some e | _ => None end.

Section Http.
Context `{Driver} `{!RowOrder HistoryEvent} `{UuidText} `{UpperMapping}.
Context (publisher : option (Event VehPayload → bool)).

(** ** Responses *)

Definition vehicleResponse (v : Vehicle) : option string :=
  created ← json_time (v_CreatedAt v);
  updated ← json_time (v_UpdatedAt v);
  Some (json_object (
    member "id" (json_uuid (v_ID v)) ++
    optional "tenant_id" (json_uuid <$> v_TenantID v) ++
    member "owner_user_id" (json_uuid (v_OwnerUserID v)) ++
    member "vin" (json_string (v_VIN v)) ++
    member "make" (json_string (v_Make v)) ++
    member "model" (json_string (v_Model v)) ++
    member "year_of_manufacture" (json_int (v_Year v)) ++
    nonempty "plate" (v_Plate v) ++
    nonempty "color" (v_Color v) ++
    member "mileage_latest_km" (json_int (v_MileageLatestKm v)) ++
    member "created_at" created ++
    member "updated_at" updated)).

Definition historyEventResponse (e : HistoryEvent) : option string :=
  occurred ← json_time (h_OccurredAt e);
  created ← json_time (h_CreatedAt e);
  Some (json_object (
    member "id" (json_uuid (h_ID e)) ++
    member "vehicle_id" (json_uuid (h_VehicleID e)) ++
    member "event_type" (json_string (h_EventType e)) ++
    member "summary" (json_string (h_Summary e)) ++
    nonempty "evidence_ref" (h_EvidenceRef e) ++
    member "occurred_at" occurred ++
    optional "odometer_km" (json_int <$> h_OdometerKm e) ++
    optional "recorded_by" (json_uuid <$> h_RecordedBy e) ++
    member "created_at" created)).

Definition vehicleListResponse (rows : list Vehicle) (next : option string) : option string :=
  out ← mapM vehicleResponse rows;
  Some (json_object (member "vehicles" (json_array out) ++
    optional "next_cursor" (json_string <$> next))).

Definition passportResponse (p : Passport) : option string :=
  last ← match p_LastServiceAt p with
         | Some t => t ← json_time t; Some (Some t)
         | None => Some None
         end;
  created ← json_time (p_CreatedAt p);
  Some (json_object (
    member "id" (json_uuid (p_ID p)) ++
    optional "tenant_id" (json_uuid <$> p_TenantID p) ++
    member "owner_user_id" (json_uuid (p_OwnerUserID p)) ++
    member "vin" (json_string (p_VIN p)) ++
    member "make" (json_string (p_Make p)) ++
    member "model" (json_string (p_Model p)) ++
    member "year_of_manufacture" (json_int (p_Year p)) ++
    nonempty "plate" (p_Plate p) ++
    nonempty "color" (p_Color p) ++
    member "mileage_latest_km" (json_int (p_MileageLatestKm p)) ++
    member "service_event_count" (json_int (p_ServiceEventCount p)) ++
    optional "last_service_at" last ++
    member "created_at" created)).

(** ** The principal *)

Definition is_admin (claims : Claims) : bool :=
  String.eqb (c_Role claims) RoleAdmin || String.eqb (c_Role claims) RoleSuperAdmin.

Definition canMutate (claims : Claims) (v : Vehicle) : bool :=
  if is_admin claims then true
  else match uuid_parse (c_UserID claims) with
       | Some userID => bool_decide (userID = v_OwnerUserID v)
       | None => false
       end.

Definition tenantIDFromClaims : Claims → option (option uuid) := tenant_claim.

Definition scopeFromClaims (claims : Claims) : Error + VehicleScope :=
  if is_admin claims then inr UnrestrictedScope
  else match tenantIDFromClaims claims with
  | None => inl bad_tenant
  | Some (Some t) => inr (mkVehicleScope (Some t) None false)
  | Some None =>
      match uuid_parse (c_UserID claims) with
      | Some o => inr (mkVehicleScope None (Some o) false)
      | None => inl bad_subject
      end
  end.

(** ** Parameters *)

Definition vehicleIDFromRequest (raw : string) : Error + uuid :=
  uuid_param (ErrValidation "vehicle id is required" [mkFieldError "vehicle_id" "is required"])
    (ErrValidation "vehicle id is not a valid identifier" [mkFieldError "vehicle_id" "must be a uuid"]) raw.

Definition listVehiclesPagination (limit cursor : string) : Error + Z * option VehicleCursor :=
  match int_param limit_not_number defaultListLimit limit with
  | inl e => inl e
  | inr limit =>
      if limit <? 1 then inl limit_not_positive
      else
        let limit := if maxListLimit <? limit then maxListLimit else limit in
        if String.eqb cursor "" then inr (limit, None)
        else match ParseVehicleCursor cursor with
             | inl e => inl e
             | inr c => inr (limit, Some c)
             end
  end.

Definition historyPagination (limit offset : string) : Error + Z * Z :=
  page_params defaultHistoryLimit maxHistoryLimit limit offset.

(** ** Handlers *)

Definition app {A} (r : Error + A) : M veh_world VehError A :=
  from_sum (match r with inl e => inl (VehApp e) | inr a => inr a end).

Definition authenticated (claims : option Claims) : M veh_world VehError Claims :=
  from_option claims (VehApp authentication_required).

Definition handleCreateVehicle (quote_byte : ascii → string) (c : Ctx) (claims : option Claims)
    (body : Error + createVehicleRequest) : M veh_world VehError Response :=
  claims ← authenticated claims;
  ownerID ← from_option (uuid_parse (c_UserID claims)) (VehApp bad_subject);
  tenantID ← from_option (tenantIDFromClaims claims) (VehApp bad_tenant);
  req ← app body;
  v ← RegisterVehicle publisher quote_byte c
    (Some (mkVehicle uuid_nil tenantID ownerID (cv_VIN req) (cv_Make req) (cv_Model req)
             (cv_YearOfManufacture req) (cv_Plate req) (cv_Color req) 0 zero_time zero_time))
    ownerID;
  mret (writeJSON 201 (vehicleResponse v)).

Definition handleGetVehicle (claims : option Claims) (rawID : string) : M veh_world VehError Response :=
  claims ← authenticated claims;
  vehicleID ← app (vehicleIDFromRequest rawID);
  scope ← app (scopeFromClaims claims);
  v ← Veh_GetVehicle vehicleID scope;
  mret (writeJSON 200 (vehicleResponse v)).

Definition handleGetPassport (claims : option Claims) (rawID : string) : M veh_world VehError Response :=
  claims ← authenticated claims;
  vehicleID ← app (vehicleIDFromRequest rawID);
  scope ← app (scopeFromClaims claims);
  p ← Veh_Passport vehicleID scope;
  mret (writeJSON 200 (passportResponse p)).

Definition handleListHistory (claims : option Claims) (rawID limit offset : string)
    : M veh_world VehError Response :=
  claims ← authenticated claims;
  vehicleID ← app (vehicleIDFromRequest rawID);
  scope ← app (scopeFromClaims claims);
  '(limit, offset) ← app (historyPagination limit offset);
  events ← History vehicleID scope limit offset;
  mret (writeJSON 200 (json_array <$> mapM historyEventResponse events)).

Definition handleRecordMileage (c : Ctx) (claims : option Claims) (rawID : string)
    (body : Error + mileageRequest) : M veh_world VehError Response :=
  claims ← authenticated claims;
  vehicleID ← app (vehicleIDFromRequest rawID);
  scope ← app (scopeFromClaims claims);
  req ← app body;
  km ← from_option (mr_OdometerKm req) (required "odometer_km");
  v ← Veh_GetVehicle vehicleID scope;
  ensure (canMutate claims v)
    (VehApp (ErrForbidden "only the vehicle owner or an administrator may record mileage"));;
  recorder ← from_option (uuid_parse (c_UserID claims)) (VehApp bad_subject);
  RecordMileage publisher c vehicleID km (Some recorder) scope;;
  mret NoContent.

(** The rows of the page and its cursor, before they are rendered. *)
Definition list_page (claims : option Claims) (limit cursor : string)
    : M veh_world VehError (list Vehicle * option string) :=
  claims ← authenticated claims;
  scope ← app (scopeFromClaims claims);
  '(limit, cursor) ← app (listVehiclesPagination limit cursor);
  '(rows, next) ← Veh_ListVehicles scope cursor limit;
  match next with
  | None => mret (rows, None)
  | Some next => encoded ← from_option (EncodeVehicleCursor next) VehOther; mret (rows, Some encoded)
  end.

Definition handleListVehicles (claims : option Claims) (limit cursor : string)
    : M veh_world VehError Response :=
  '(rows, next) ← list_page claims limit cursor;
  mret (writeJSON 200 (vehicleListResponse rows next)).

(** ** The routes *)

Inductive vehicle_call :=
  | CreateVehicleCall (body : Error + createVehicleRequest)
  | ListVehiclesCall (limit cursor : string)
  | GetVehicleCall (vehicleID : string)
  | GetPassportCall (vehicleID : string)
  | ListHistoryCall (vehicleID limit offset : string)
  | RecordMileageCall (vehicleID : string) (body : Error + mileageRequest).

(** [Routes] with the gate of authentication. *)
Definition vehicle_route (quote_byte : ascii → string) (c : Ctx) (r : vehicle_call) : Handler (W := veh_world) :=
  RequireAuthenticated (answered veh_app (λ claims,
    match r with
    | CreateVehicleCall body => handleCreateVehicle quote_byte c claims body
    | ListVehiclesCall limit cursor => handleListVehicles claims limit cursor
    | GetVehicleCall id => handleGetVehicle claims id
    | GetPassportCall id => handleGetPassport claims id
    | ListHistoryCall id limit offset => handleListHistory claims id limit offset
    | RecordMileageCall id body => handleRecordMileage c claims id body
    end)).

End Http.
