(* ===== verification/VehInvariant.v ===== *)
(** * VehInvariant: reachable vehicle registries and their scoped reads

    What the calls of the store that write do, the abstract steps the vehicles
    service takes, the invariant they keep and what no step changes; then what the reads
    return for a principal: exactly the rows its scope sees. *)

From S2P Require Import Prelude Hoare Text Platform Sql Wire Vin Vehicles.

Open Scope Z_scope.

#[local] Arguments TrimSpace : simpl never.
#[local] Arguments vin_taken : simpl never.
#[local] Arguments ValidHistoryEventType : simpl never.
#[local] Arguments timestamptz : simpl never.

(** ** What the calls that write do *)

(** The identifier of a history row is new. *)
Definition fresh_row (h : HistoryEvent) (d : veh_db) : Prop :=
  h_ID h ∉ h_ID <$> vehicle_service_history d.

Lemma fresh_row_spec h d :
  existsb (λ o, bool_decide (h_ID o = h_ID h)) (vehicle_service_history d) = false ↔ fresh_row h d.
Proof.
  unfold fresh_row. rewrite <-not_true_iff_false, existsb_exists, list_elem_of_fmap.
  setoid_rewrite <-list_elem_of_In. setoid_rewrite bool_decide_eq_true. firstorder.
Qed.

Lemma vin_taken_spec vin d :
  vin_taken vin d = true ↔ ∃ id v, vehicles d !! id = Some v ∧ v_VIN v = vin.
Proof.
  unfold vin_taken. rewrite existsb_exists. setoid_rewrite <-list_elem_of_In.
  setoid_rewrite map_rows. setoid_rewrite String.eqb_eq. naive_solver.
Qed.

Lemma insert_history_run h d r d' : insert_history h d = (r, d') →
  (∃ e, r = inl e) ∧ d' = d ∧ (r = inl ErrVehicleNotFound → vehicles d !! h_VehicleID h = None) ∨
  r = inr tt ∧ ValidHistoryEventType (h_EventType h) = true ∧ fresh_row h d ∧
  is_Some (vehicles d !! h_VehicleID h) ∧ d' = with_history h d.
Proof.
  unfold insert_history. intros R. unfold_run R.
  destruct (ValidHistoryEventType _) eqn:V; [|left; injection R as <- <-; by split_and!; eauto].
  destruct (existsb _ _) eqn:F; [left; injection R as <- <-; by split_and!; eauto|].
  apply fresh_row_spec in F. cbn [negb] in R.
  case_bool_decide as L; cbn [negb] in R; [left; injection R as <- <-; by split_and!; eauto|].
  right. injection R as <- <-. split_and!; try done. by apply not_eq_None_Some.
Qed.

Lemma insert_history_ok h d : ValidHistoryEventType (h_EventType h) = true → fresh_row h d →
  is_Some (vehicles d !! h_VehicleID h) → insert_history h d = (inr tt, with_history h d).
Proof.
  intros V F%fresh_row_spec L. unfold insert_history. unfold_run_goal. rewrite V, F. cbn [negb].
  rewrite bool_decide_eq_false_2; [done|]. by apply not_eq_None_Some.
Qed.

(** The row a new vehicle becomes and its first event. *)
Definition vehicle_row (now : time) (fresh : uuid) (v : Vehicle) : Vehicle :=
  mkVehicle (assign_id (v_ID v) fresh) (v_TenantID v) (v_OwnerUserID v) (v_VIN v)
    (v_Make v) (v_Model v) (v_Year v) (v_Plate v) (v_Color v) (v_MileageLatestKm v)
    (timestamptz now) (timestamptz now).

Definition first_event (now clock : time) (historyID : uuid) (v : Vehicle) : HistoryEvent :=
  mkHistoryEvent historyID (v_ID v) HistoryEventTypeNote initialHistorySummary ""
    (timestamptz clock) None (Some (v_OwnerUserID v)) (timestamptz now).

Lemma CreateVehicle_run now clock fresh historyID v d r d' :
  let row := vehicle_row now fresh v in
  let h := first_event now clock historyID row in
  CreateVehicle now clock fresh historyID v d = (r, d') →
  (∃ e, r = inl e) ∧ d' = d ∧ r ≠ inl ErrVehicleNotFound ∨
  r = inr row ∧ 1950 <= v_Year row <= 2100 ∧ vehicles d !! v_ID row = None ∧
  vin_taken (v_VIN row) d = false ∧ fresh_row h d ∧
  d' = with_history h (with_vehicles (insert (v_ID row) row) d).
Proof.
  intros row h. unfold CreateVehicle. fold (vehicle_row now fresh v). fold row. cbv zeta.
  intros R. unfold transact in R. destruct ((insert_vehicle row;; _) d) as [[e|a] d1] eqn:Q;
    injection R as <- <-.
  - left. split_and!; [eauto|done|]. intros [= ->].
    apply bind_inv in Q as [(e & Q & [= <-])|([] & d2 & Q & R)].
    + unfold insert_vehicle in Q. unfold_run Q. case_run Q.
    + apply bind_inv in R as [(e & R & [= <-])|([] & d3 & R & R')]; [|done].
      apply insert_history_run in R as [(_ & _ & N)|([=] & _)]. specialize (N eq_refl). revert N.
      unfold insert_vehicle in Q. unfold_run Q. case_run Q.
      change (vehicles d !! v_ID row = None) with (<[v_ID row := row]> (vehicles d) !! v_ID row = None).
      by rewrite lookup_insert_eq.
  - apply bind_inv in Q as [(e & Q & [=])|([] & d2 & Q & R)].
    apply bind_inv in R as [(e & R & [=])|([] & d3 & R & R')].
    injection R' as -> ->. right.
    apply insert_history_run in R as [((e & [=]) & _)|(_ & _ & F & _ & ->)].
    unfold insert_vehicle in Q. unfold_run Q. case_run Q. props. split_and!; try done.
Qed.

(** The row a history event becomes. *)
Definition history_row (now : time) (fresh : uuid) (e : HistoryEvent) : HistoryEvent :=
  mkHistoryEvent (assign_id (h_ID e) fresh) (h_VehicleID e) (h_EventType e)
    (h_Summary e) (h_EvidenceRef e) (timestamptz (h_OccurredAt e)) (h_OdometerKm e)
    (h_RecordedBy e) (timestamptz now).

(** The event of a reading. *)
Definition mileage_event (now clock : time) (historyID vehicleID : uuid) (km : Z) : HistoryEvent :=
  mkHistoryEvent historyID vehicleID HistoryEventTypeMileage
    ("Odometer reading recorded: " +:+ pretty km +:+ " km") ""
    (timestamptz clock) (Some km) None (timestamptz now).

Lemma UpdateMileage_run now clock historyID id km d r d' :
  let h := mileage_event now clock historyID id km in
  UpdateMileage now clock historyID id km d = (r, d') →
  (∃ e, r = inl e) ∧ d' = d ∧ (r = inl ErrVehicleNotFound → vehicles d !! id = None) ∨
  ∃ v, r = inr tt ∧ 0 <= km ∧ vehicles d !! id = Some v ∧ fresh_row h d ∧
  d' = with_history h (with_vehicles (insert id (with_mileage (timestamptz now) km v)) d).
Proof.
  intros h. unfold UpdateMileage. fold h. intros R.
  apply bind_inv in R as [(e & Q & ->)|([] & d1 & Q & R)].
  { apply ensure_inv in Q as [-> [[? [=]]|[? [= ->]]]]. left. split_and!; [eauto|done..]. }
  apply ensure_inv in Q as [-> [[K _]|[_ [=]]]]. apply Z.leb_le in K.
  unfold transact in R. destruct ((get ≫= _) d) as [[e|a] d1] eqn:Q; injection R as <- <-.
  all: unfold get, mbind, M_bind in Q; destruct (vehicles d !! id) as [v|] eqn:L;
    [|by left; injection Q as <- <-; split_and!; eauto].
  all: set (d2 := with_vehicles (insert id (with_mileage (timestamptz now) km v)) d).
  - change (insert_history h d2 = (inl e, d1)) in Q. left. split_and!; [eauto|done|]. intros [= ->].
    apply insert_history_run in Q as [(_ & _ & N)|([=] & _)]. specialize (N eq_refl). simpl in N.
    by rewrite lookup_insert_eq in N.
  - right. change (insert_history h d2 = (inr a, d1)) in Q. destruct a.
    apply insert_history_run in Q as [((e & [=]) & _)|(_ & _ & F & _ & ->)]. by exists v.
Qed.

Lemma UpdateMileage_ok now clock historyID id km v d :
  let h := mileage_event now clock historyID id km in
  0 <= km → vehicles d !! id = Some v → fresh_row h d →
  UpdateMileage now clock historyID id km d =
  (inr tt, with_history h (with_vehicles (insert id (with_mileage (timestamptz now) km v)) d)).
Proof.
  intros h K L F. unfold UpdateMileage. apply Z.leb_le in K. rewrite K. erewrite bind_ok; [|reflexivity].
  apply transact_success. erewrite bind_ok; [|reflexivity]. rewrite L.
  erewrite bind_ok; [|reflexivity]. erewrite bind_ok; [|reflexivity].
  apply (insert_history_ok h); [done..|]. simpl. by rewrite lookup_insert_eq.
Qed.

(** ** Steps *)

Section Invariant.
Context `{UpperMapping}.

Definition registrable (v : Vehicle) : Prop :=
  ValidateVIN (v_VIN v) = inr (v_VIN v) ∧ 1950 <= v_Year v <= 2100 ∧ 0 <= v_MileageLatestKm v ∧
  v_OwnerUserID v ≠ uuid_nil ∧ v_Make v ≠ "" ∧ v_Model v ≠ "" ∧
  timestamptz (v_CreatedAt v) = v_CreatedAt v.

(** What a call of the store writes when it succeeds. *)
Inductive veh_write : veh_db → veh_db → Prop :=
  | write_register now clock fresh historyID v d :
      let row := vehicle_row now fresh v in
      let h := first_event now clock historyID row in
      registrable row → vehicles d !! v_ID row = None → vin_taken (v_VIN row) d = false →
      fresh_row h d →
      veh_write d (with_history h (with_vehicles (insert (v_ID row) row) d))
  | write_history h d :
      ValidHistoryEventType (h_EventType h) = true → h_Summary h ≠ "" → fresh_row h d →
      is_Some (vehicles d !! h_VehicleID h) →
      veh_write d (with_history h d)
  | write_mileage now clock historyID id km v d :
      let h := mileage_event now clock historyID id km in
      0 <= km → vehicles d !! id = Some v → fresh_row h d →
      veh_write d (with_history h (with_vehicles (insert id (with_mileage (timestamptz now) km v)) d)).

(** What the service has checked of a vehicle it hands to the store. *)
Definition admitted (v : Vehicle) : Prop :=
  ValidateVIN (v_VIN v) = inr (v_VIN v) ∧ 0 <= v_MileageLatestKm v ∧
  v_OwnerUserID v ≠ uuid_nil ∧ v_Make v ≠ "" ∧ v_Model v ≠ "".

(** A step is one call of the store, whatever it answers: a registration of a vehicle
    the service admits, an event with a summary, or a reading. *)
Inductive veh_step (d : veh_db) : veh_db → Prop :=
  | step_register now clock fresh historyID v r d' :
      admitted v → CreateVehicle now clock fresh historyID v d = (r, d') → veh_step d d'
  | step_history now fresh e r d' :
      h_Summary e ≠ "" → RecordHistoryEvent now fresh e d = (r, d') → veh_step d d'
  | step_mileage now clock historyID id km r d' :
      UpdateMileage now clock historyID id km d = (r, d') → veh_step d d'.

(** A call that fails writes nothing, one that succeeds makes one of the writes. *)
Lemma veh_step_write d d' : veh_step d d' → d' = d ∨ veh_write d d'.
Proof.
  destruct 1 as [now clock fresh historyID v r d' (A & M & O & Mk & Md) R
                |now fresh e r d' S R|now clock historyID id km r d' R].
  - apply CreateVehicle_run in R as [(_ & -> & _)|(-> & Y & N & T & F & ->)]; [by left|].
    right. apply write_register; [|done..].
    repeat apply conj; try done; [apply Y..|apply timestamptz_idem].
  - apply insert_history_run in R as [(_ & -> & _)|(-> & V & F & I & ->)]; [by left|].
    right. by apply write_history.
  - apply UpdateMileage_run in R as [(_ & -> & _)|(v & -> & K & L & F & ->)]; [by left|].
    right. by apply write_mileage.
Qed.

(** ** The invariant *)

Record veh_ok (d : veh_db) : Prop := {
  vk_id : ∀ id v, vehicles d !! id = Some v → v_ID v = id;
  vk_row : ∀ id v, vehicles d !! id = Some v → registrable v;
  vk_vin : ∀ id id' v v', vehicles d !! id = Some v → vehicles d !! id' = Some v' →
    v_VIN v = v_VIN v' → id = id';
  vk_history : Forall (λ h, is_Some (vehicles d !! h_VehicleID h) ∧
    ValidHistoryEventType (h_EventType h) = true ∧ h_Summary h ≠ "")
    (vehicle_service_history d);
  vk_rows : NoDup (h_ID <$> vehicle_service_history d);
  vk_first : ∀ id v, vehicles d !! id = Some v →
    ∃ h, h ∈ history_of id d ∧ h_EventType h = HistoryEventTypeNote ∧
      h_Summary h = initialHistorySummary ∧ h_RecordedBy h = Some (v_OwnerUserID v);
}.

Lemma empty_veh_ok : veh_ok empty_veh_db.
Proof.
  split; cbn [vehicles vehicle_service_history empty_veh_db]; try (intros * L; by rewrite lookup_empty in L).
  - constructor.
  - constructor.
Qed.

Lemma history_of_app id h d :
  history_of id (with_history h d) =
  history_of id d ++ (if bool_decide (h_VehicleID h = id) then [h] else []).
Proof.
  unfold history_of. simpl. rewrite List.filter_app. simpl. by case_bool_decide.
Qed.

Lemma history_of_vehicles id f d : history_of id (with_vehicles f d) = history_of id d.
Proof. done. Qed.

(** One more row of the history. *)
Lemma with_history_ok h d : veh_ok d → ValidHistoryEventType (h_EventType h) = true →
  h_Summary h ≠ "" → fresh_row h d → is_Some (vehicles d !! h_VehicleID h) →
  veh_ok (with_history h d).
Proof.
  intros Ok V S F I. split; simpl; [apply Ok..| | |].
  - apply list.Forall_app. split; [apply Ok|]. by repeat constructor.
  - rewrite list.fmap_app, list.NoDup_app. split; [apply Ok|]. split; [|apply NoDup_singleton].
    intros x Ix E. apply F. simpl in E. apply list_elem_of_singleton in E. by subst.
  - intros id v L. destruct (vk_first _ Ok _ _ L) as (h' & Ih & P). exists h'. split; [|done].
    rewrite history_of_app. set_solver.
Qed.

Lemma mileage_event_valid now clock historyID id km :
  let h := mileage_event now clock historyID id km in
  ValidHistoryEventType (h_EventType h) = true ∧ h_Summary h ≠ "".
Proof. done. Qed.

Lemma veh_write_ok d d' : veh_ok d → veh_write d d' → veh_ok d'.
Proof.
  intros Ok S. destruct S as [now clock fresh historyID v d row h R N T F|h d V Sm F I
                             |now clock historyID id km v d h K L F].
  - set (d1 := with_vehicles (insert (v_ID row) row) d).
    assert (∀ id x, vehicles d1 !! id = Some x →
      id = v_ID row ∧ x = row ∨ id ≠ v_ID row ∧ vehicles d !! id = Some x) as Look.
    { intros id x. simpl. destruct (decide (id = v_ID row)) as [->|Ne].
      - rewrite lookup_insert_eq. intros [= <-]. auto.
      - rewrite lookup_insert_ne by done. auto. }
    assert (∀ id x, vehicles d !! id = Some x → v_VIN x ≠ v_VIN row) as Vin.
    { intros id x L E. apply not_true_iff_false in T. apply T, vin_taken_spec. eauto. }
    split.
    + intros id x [[-> ->]|[_ L]]%Look; [done|by eapply vk_id].
    + intros id x [[-> ->]|[_ L]]%Look; [done|by eapply vk_row].
    + intros id id' x x' [[-> ->]|[_ L]]%Look [[-> ->]|[_ L']]%Look E; [done|..].
      * by destruct (Vin _ _ L').
      * by destruct (Vin _ _ L).
      * by eapply vk_vin.
    + apply list.Forall_app. split.
      * eapply list.Forall_impl; [apply Ok|]. intros x ((y & L) & P). split; [|done]. simpl.
        destruct (decide (h_VehicleID x = v_ID row)) as [->|]; [by rewrite lookup_insert_eq|].
        rewrite lookup_insert_ne by done. eauto.
      * constructor; [|constructor]. split; [|done]. simpl. by rewrite lookup_insert_eq.
    + simpl. rewrite list.fmap_app, list.NoDup_app. split; [apply Ok|].
      split; [|apply NoDup_singleton].
      intros x Ix E. apply F. simpl in E. apply list_elem_of_singleton in E. by subst.
    + intros id x Lx. rewrite history_of_app. change (history_of id d1) with (history_of id d). apply Look in Lx as [[-> ->]|[_ L]].
      * exists h. split; [|done]. rewrite bool_decide_eq_true_2 by done. set_solver.
      * destruct (vk_first _ Ok _ _ L) as (h' & Ih & P). exists h'. split; [set_solver|done].
  - by apply with_history_ok.
  - destruct (mileage_event_valid now clock historyID id km) as [V Sm].
    apply with_history_ok; [|done..|].
    2:{ simpl. by rewrite lookup_insert_eq. }
    assert (∀ i x, vehicles (with_vehicles (insert id (with_mileage (timestamptz now) km v)) d) !! i = Some x →
      ∃ y, vehicles d !! i = Some y ∧ v_ID x = v_ID y ∧ v_VIN x = v_VIN y ∧
           v_OwnerUserID x = v_OwnerUserID y ∧ (registrable y → registrable x)) as Look.
    { intros i x. simpl. destruct (decide (i = id)) as [->|Ne].
      - rewrite lookup_insert_eq. intros [= <-]. exists v. split_and!; try done.
        intros (A & B & _ & D). exact (conj A (conj B (conj K D))).
      - rewrite lookup_insert_ne by done. intros Lx. by exists x. }
    split.
    + intros i x (y & Ly & -> & _)%Look. by eapply vk_id.
    + intros i x (y & Ly & _ & _ & _ & Rg)%Look. by eapply Rg, vk_row.
    + intros i i' x x' (y & Ly & _ & -> & _)%Look (y' & Ly' & _ & -> & _)%Look. by eapply vk_vin.
    + eapply list.Forall_impl; [apply Ok|]. intros x ((y & Lx) & P). split; [|done]. simpl.
      destruct (decide (h_VehicleID x = id)) as [->|]; [by rewrite lookup_insert_eq|].
      rewrite lookup_insert_ne by done. eauto.
    + apply Ok.
    + intros i x (y & Ly & _ & _ & -> & _)%Look. rewrite history_of_vehicles. by eapply vk_first.
Qed.

Lemma veh_step_ok d d' : veh_ok d → veh_step d d' → veh_ok d'.
Proof. intros Ok [->|W]%veh_step_write; [done|by eapply veh_write_ok]. Qed.

Lemma veh_steps_ok d d' : veh_ok d → rtc veh_step d d' → veh_ok d'.
Proof. intros Ok S. induction S; [done|]. eauto using veh_step_ok. Qed.

(** ** What no step changes *)

Definition same_identity (v v' : Vehicle) : Prop :=
  with_mileage (v_UpdatedAt v) (v_MileageLatestKm v) v' = v.

Definition veh_kept (d d' : veh_db) : Prop :=
  vehicle_service_history d `prefix_of` vehicle_service_history d' ∧
  ∀ id v, vehicles d !! id = Some v → ∃ v', vehicles d' !! id = Some v' ∧ same_identity v v'.

Lemma same_identity_refl v : same_identity v v.
Proof. by destruct v. Qed.

#[export] Instance veh_kept_preorder : PreOrder veh_kept.
Proof.
  split.
  - intros d. split; [done|]. intros id v L. exists v. split; [done|apply same_identity_refl].
  - intros d1 d2 d3 [P1 K1] [P2 K2]. split; [by etrans|]. intros id v L.
    destruct (K1 _ _ L) as (v2 & L2 & E2). destruct (K2 _ _ L2) as (v3 & L3 & E3).
    exists v3. split; [done|]. unfold same_identity in *. by rewrite <-E2, <-E3.
Qed.

Lemma veh_write_kept d d' : veh_write d d' → veh_kept d d'.
Proof.
  intros S. destruct S as [now clock fresh historyID v d row h R N T F|h d V Sm F I
                          |now clock historyID id km v d h K L F];
    (split; [by eexists|]); intros i x Lx.
  - exists x. split; [|apply same_identity_refl]. simpl. rewrite lookup_insert_ne; [done|].
    intros <-. by pose proof (eq_trans (eq_sym N) Lx).
  - exists x. split; [done|apply same_identity_refl].
  - simpl. destruct (decide (i = id)) as [->|Ne].
    + exists (with_mileage (timestamptz now) km v). rewrite lookup_insert_eq. split; [done|].
      assert (x = v) as -> by congruence. by destruct v.
    + exists x. rewrite lookup_insert_ne by done. split; [done|apply same_identity_refl].
Qed.

Lemma veh_step_kept d d' : veh_step d d' → veh_kept d d'.
Proof. intros [->|W]%veh_step_write; [done|by apply veh_write_kept]. Qed.

Lemma veh_steps_kept d d' : rtc veh_step d d' → veh_kept d d'.
Proof. intros S. induction S as [d|d1 d2 d3 S1 _ IH]; [done|]. etrans; [by apply veh_step_kept|done]. Qed.

End Invariant.

(** * The scoped reads of the vehicles store

    What the reads return for a principal: exactly the rows its scope sees. The
    placeholders and the arguments of every query match. *)

(** A tenant sees its vehicles, a personal principal the vehicles it owns outside any
    tenant, the control plane all, the zero value none. *)
Definition sees_vehicle (scope : VehicleScope) (v : Vehicle) : bool :=
  Unrestricted scope ||
  match sc_TenantID scope, sc_OwnerID scope with
  | Some t, _ => bool_decide (v_TenantID v = Some t)
  | None, Some o => bool_decide (v_TenantID v = None) && bool_decide (v_OwnerUserID v = o)
  | None, None => false
  end.

(** The placeholders of the predicate are the ones its arguments take. *)
Lemma predicate_placeholders scope a b k :
  let '(pred, args) := vehicleScopePredicate scope a b k in
  match pred with Some p => placeholders p | None => [] end = seq k (length args).
Proof.
  unfold vehicleScopePredicate. destruct (Unrestricted scope); [done|].
  by destruct (sc_TenantID scope), (sc_OwnerID scope).
Qed.

Lemma of_uuid_null o : bool_decide (of_uuid o = VNull) = bool_decide (o = None).
Proof. apply bool_decide_ext. by destruct o. Qed.

(** The predicate selects what the scope sees. *)
Lemma scope_predicate_sees scope v (row : string → value) a b pre more :
  row a = of_uuid (v_TenantID v) → row b = VUuid (v_OwnerUserID v) →
  let '(pred, args) := vehicleScopePredicate scope a b (S (length pre)) in
  match pred with
  | Some p => eval None (pre ++ args ++ more) row p = sees_vehicle scope v
  | None => sees_vehicle scope v = true
  end.
Proof.
  intros E1 E2. unfold vehicleScopePredicate, sees_vehicle.
  destruct (Unrestricted scope); [done|].
  destruct (sc_TenantID scope) as [t|]; [|destruct (sc_OwnerID scope) as [u|]];
    cbn [eval orb app]; rewrite ?E1, ?E2, ?arg_app, ?of_uuid_null; [apply sql_eq_uuid| |done].
  f_equal. apply sql_eq_VUuid.
Qed.

Section Reads.
Context `{Driver} `{!RowOrder HistoryEvent} `{UpperMapping}.

Lemma scope_accepted scope col a b :
  let '(pred, args) := vehicleScopePredicate scope a b 2 in
  accepts (placeholders (and_pred (CEq col 1) pred)) (S (length args)) = true.
Proof.
  pose proof (predicate_placeholders scope a b 2) as Ph.
  destruct (vehicleScopePredicate scope a b 2) as [pred args].
  apply accepts_exact. intros k.
  assert (placeholders (and_pred (CEq col 1) pred) = seq 1 (S (length args))) as ->
    by (destruct pred; cbn [and_pred placeholders app seq]; by rewrite <-Ph).
  rewrite list_elem_of_In, in_seq. lia.
Qed.

(** One row by its identifier. *)
Lemma scoped_row scope v (row : string → value) col a b : row col = VUuid (v_ID v) →
  row a = of_uuid (v_TenantID v) → row b = VUuid (v_OwnerUserID v) →
  let '(pred, args) := vehicleScopePredicate scope a b 2 in
  eval None (VUuid (v_ID v) :: args) row (and_pred (CEq col 1) pred) = sees_vehicle scope v.
Proof.
  intros E0 E1 E2.
  pose proof (scope_predicate_sees scope v row a b [VUuid (v_ID v)] [] E1 E2) as Se. cbn [length] in Se.
  destruct (vehicleScopePredicate scope a b 2) as [pred args]. rewrite app_nil_r in Se.
  assert (sql_eq (VUuid (v_ID v)) (VUuid (v_ID v)) = true) as Q by by apply sql_eq_refl.
  destruct pred; cbn [and_pred eval];
    rewrite E0; change (arg (VUuid (v_ID v) :: args) 1) with (VUuid (v_ID v)); rewrite Q; [exact Se|].
  by rewrite Se.
Qed.

Lemma GetVehicle_eq d id scope : veh_ok d → GetVehicle id scope d =
  (match vehicles d !! id with
   | Some v => if sees_vehicle scope v then inr v else inl ErrVehicleNotFound
   | None => inl ErrVehicleNotFound
   end, d).
Proof.
  intros Ok. unfold GetVehicle, send_query.
  pose proof (scope_accepted scope "id" "tenant_id" "owner_user_id") as Ac.
  pose proof (λ v, scoped_row scope v (vehicle_env v) "id" "tenant_id" "owner_user_id"
    eq_refl eq_refl eq_refl) as Se.
  destruct (vehicleScopePredicate scope _ _ 2) as [pred args]. cbn [length]. rewrite Ac.
  unfold_run_goal. destruct (vehicles d !! id) as [v|] eqn:L; [|done].
  pose proof (Se v) as Ev. rewrite (vk_id _ Ok _ _ L) in Ev. rewrite Ev. by destruct (sees_vehicle _ _).
Qed.

Lemma GetPassport_eq d id scope : veh_ok d → GetPassport id scope d =
  (match vehicles d !! id with
   | Some v => if sees_vehicle scope v then inr (passport_row d v) else inl ErrVehicleNotFound
   | None => inl ErrVehicleNotFound
   end, d).
Proof.
  intros Ok. unfold GetPassport, send_query.
  pose proof (scope_accepted scope "vehicle_id" "tenant_id" "owner_user_id") as Ac.
  pose proof (λ v, scoped_row scope v (passport_env (passport_row d v)) "vehicle_id" "tenant_id"
    "owner_user_id" eq_refl eq_refl eq_refl) as Se.
  destruct (vehicleScopePredicate scope _ _ 2) as [pred args]. cbn [length]. rewrite Ac.
  unfold_run_goal. destruct (vehicles d !! id) as [v|] eqn:L; [|done].
  pose proof (Se v) as Ev. rewrite (vk_id _ Ok _ _ L) in Ev. rewrite Ev. by destruct (sees_vehicle _ _).
Qed.

(** The rows of the history, newest first. *)
Definition sorted_history (id : uuid) (d : veh_db) : list HistoryEvent :=
  merge_sort occurred_desc (row_order (history_of id d)).

Lemma ListHistory_eq d id scope limit offset : veh_ok d → ListHistory id scope limit offset d =
  (inr (page (clamp_limit defaultHistoryLimit maxHistoryLimit limit) (clamp_offset offset)
     (match vehicles d !! id with
      | Some v => if sees_vehicle scope v then sorted_history id d else []
      | None => []
      end)), d).
Proof.
  intros Ok. unfold ListHistory, send_query.
  set (l := clamp_limit _ _ limit). set (o := clamp_offset offset).
  pose proof (predicate_placeholders scope "v.tenant_id" "v.owner_user_id" 2) as Ph.
  pose proof (λ v h more, scope_predicate_sees scope v (history_env v h) "v.tenant_id" "v.owner_user_id"
    [VUuid id] more eq_refl eq_refl) as Se. cbn [length] in Se.
  destruct (vehicleScopePredicate scope _ _ 2) as [pred args].
  assert (accepts (placeholders (and_pred (CEq "h.vehicle_id" 1) pred) ++
    [(length (VUuid id :: args ++ [VInt l; VInt o]) - 1)%nat; length (VUuid id :: args ++ [VInt l; VInt o])])
    (length (VUuid id :: args ++ [VInt l; VInt o])) = true) as ->.
  { apply accepts_exact. intros k.
    assert (placeholders (and_pred (CEq "h.vehicle_id" 1) pred) = seq 1 (S (length args))) as ->
      by (destruct pred; cbn [and_pred placeholders app seq]; by rewrite <-Ph).
    rewrite elem_of_app, list_elem_of_In, in_seq, !elem_of_cons, elem_of_nil. cbn [length].
    rewrite length_app. cbn [length]. lia. }
  unfold_run_goal. f_equal. f_equal. unfold sorted_history. f_equal.
  set (joined h := match vehicles d !! h_VehicleID h with Some v => _ | None => false end).
  assert (∀ h, joined h = bool_decide (h_VehicleID h = id) &&
    match vehicles d !! id with Some v => sees_vehicle scope v | None => false end) as J.
  { intros h. unfold joined. case_bool_decide as E; cbn [andb].
    - rewrite E. destruct (vehicles d !! id) as [v|]; [|done].
      specialize (Se v h [VInt l; VInt o]). cbn [app] in Se.
      assert (history_env v h "h.vehicle_id" = VUuid id) as Eh by (cbn; by rewrite E).
      destruct pred as [p|]; cbn [and_pred eval]; rewrite Eh;
        change (arg (VUuid id :: args ++ [VInt l; VInt o]) 1) with (VUuid id);
        rewrite (sql_eq_refl (VUuid id)) by done; [by rewrite Se|by rewrite Se].
    - destruct (vehicles d !! h_VehicleID h) as [v|]; [|done].
      assert (sql_eq (history_env v h "h.vehicle_id") (VUuid id) = false) as Eh.
      { change (sql_eq (VUuid (h_VehicleID h)) (VUuid id) = false). rewrite sql_eq_VUuid.
        by apply bool_decide_eq_false. }
      destruct pred as [p|]; cbn [and_pred eval];
        change (arg (VUuid id :: args ++ [VInt l; VInt o]) 1) with (VUuid id); by rewrite Eh. }
  rewrite (List.filter_ext _ _ J).
  assert (∀ (rows : list HistoryEvent), rows = [] → merge_sort occurred_desc (row_order rows) = []) as Nil.
  { intros rows ->. apply Permutation_nil. symmetry. rewrite merge_sort_Permutation. apply row_order_perm. }
  destruct (vehicles d !! id) as [v|]; [destruct (sees_vehicle scope v)|].
  - f_equal. f_equal. apply List.filter_ext. intros h. apply andb_true_r.
  - apply Nil, filter_none. intros h _. apply andb_false_r.
  - apply Nil, filter_none. intros h _. apply andb_false_r.
Qed.

(** ** The listing *)

(** The vehicles a scope sees, newest first. *)
Definition visible_vehicles (scope : VehicleScope) (d : veh_db) : list Vehicle :=
  merge_sort (newest_first v_CreatedAt v_ID)
    (List.filter (sees_vehicle scope) (map_to_list (vehicles d)).*2).

Definition cursor_of (v : Vehicle) : VehicleCursor := mkVehicleCursor (v_CreatedAt v) (v_ID v).

Lemma rows_keyed d : veh_ok d → keyed v_CreatedAt v_ID (map_to_list (vehicles d)).*2.
Proof.
  intros Ok x y (i & Lx)%map_rows (j & Ly)%map_rows _ E.
  rewrite (vk_id _ Ok _ _ Lx), (vk_id _ Ok _ _ Ly) in E. congruence.
Qed.

Lemma rows_nodup d : veh_ok d → NoDup (map_to_list (vehicles d)).*2.
Proof.
  intros Ok. apply NoDup_fmap_2_strong; [|apply NoDup_map_to_list].
  intros [i x] [j y] Lx%elem_of_map_to_list Ly%elem_of_map_to_list. simpl. intros ->.
  apply (vk_id _ Ok) in Lx as <-. by apply (vk_id _ Ok) in Ly as <-.
Qed.

Lemma ListVehicles_eq d scope cursor limit : veh_ok d → ListVehicles scope cursor limit d =
  (let l := clamp_limit defaultListLimit maxListLimit limit in
   let rows := List.filter (before_cursor cursor) (visible_vehicles scope d) in
   inr (take (Z.to_nat l) rows,
     if l <? Z.of_nat (length rows) then cursor_of <$> list.last (take (Z.to_nat l) rows) else None), d).
Proof.
  intros Ok. unfold ListVehicles, send_query. cbv zeta.
  assert (1 <= clamp_limit defaultListLimit maxListLimit limit) as L1.
  { unfold clamp_limit, defaultListLimit, maxListLimit.
    destruct (Z.leb_spec limit 0); [done|]. destruct (Z.gtb_spec limit 100); lia. }
  set (l := clamp_limit _ _ limit) in *.
  pose proof (predicate_placeholders scope "tenant_id" "owner_user_id" 1) as Ph.
  pose proof (λ v more, scope_predicate_sees scope v (vehicle_env v) "tenant_id" "owner_user_id"
    [] more eq_refl eq_refl) as Se. cbn [length] in Se.
  destruct (vehicleScopePredicate scope _ _ 1) as [pred args].
  set (all := args ++ _ ++ [VInt (l + 1)]).
  assert (accepts (list_placeholders (default CTrue pred) args cursor) (length all) = true) as ->.
  { apply accepts_exact. intros k. unfold list_placeholders.
    assert (placeholders (default CTrue pred) = seq 1 (length args)) as ->
      by (destruct pred; cbn [default placeholders]; by rewrite <-Ph).
    unfold all. destruct cursor as [c|]; rewrite elem_of_app, list_elem_of_In, in_seq, !elem_of_cons,
      elem_of_nil, !length_app; cbn [length]; lia. }
  unfold_run_goal.
  set (rows := List.filter (before_cursor cursor) (visible_vehicles scope d)).
  assert (merge_sort (newest_first v_CreatedAt v_ID) (List.filter
    (λ v, eval None all (vehicle_env v) (default CTrue pred) && before_cursor cursor v)
    (map_to_list (vehicles d)).*2) = rows) as ->.
  { unfold rows, visible_vehicles. rewrite !sort_filter by by apply rows_keyed.
    rewrite filter_filter_and. apply List.filter_ext. intros v. rewrite andb_comm. f_equal.
    specialize (Se v ([] ++ drop (length args) all)). cbn [app] in Se. unfold all in Se |- *.
    rewrite drop_app_length in Se. destruct pred as [p|]; cbn [default eval]; [exact Se|by rewrite Se]. }
  unfold page. change (Z.to_nat 0) with 0%nat. rewrite drop_0, length_take, take_take.
  rewrite Z2Nat.inj_add by lia. change (Z.to_nat 1) with 1%nat.
  destruct (Z.ltb_spec l (Z.of_nat (length rows))).
  - replace (l <? _) with true by (symmetry; apply Z.ltb_lt; lia).
    f_equal. f_equal. f_equal; [f_equal; lia|]. f_equal. f_equal. f_equal. lia.
  - replace (l <? _) with false by (symmetry; apply Z.ltb_ge; lia).
    f_equal. f_equal. f_equal. rewrite !take_ge by lia. done.
Qed.

End Reads.
