(* ===== verification/VehProps.v ===== *)
(** * VehProps: what the vehicles domain guarantees

    Each handler as a triple over the store calls: whatever it returns, it only takes
    the steps of [veh_step]. Then the guarantees: the registry and its history,
    registration, odometer readings and the reads. *)

From Stdlib Require Import Ascii.
From S2P Require Import Prelude Hoare Text Platform Sql Wire PayModels Http Vin Vehicles.
From S2P Require Import VehHttp VehInvariant.

Open Scope Z_scope.

#[local] Arguments TrimSpace : simpl never.
#[local] Arguments timestamptz : simpl never.

Section Refine.
Context `{Driver} `{!RowOrder HistoryEvent} `{UuidText} `{UpperMapping}.
Context (publisher : option (Event VehPayload → bool)).

Abbreviation veh_triple := (triple vw_db veh_ok veh_step) (only parsing).

Lemma veh_call {A} (P : veh_db → Prop) (c : M veh_db VehError A) (Q : A → veh_db → Prop) :
  (∀ d r d', veh_ok d → P d → c d = (r, d') →
     (d' = d ∨ veh_step d d') ∧ match r with inr a => Q a d' | inl _ => True end) →
  veh_triple P (on_db c) Q.
Proof. intros T. by apply triple_store. Qed.

Lemma veh_bind {A B} (P : veh_db → Prop) (c : M veh_world VehError A) Q
    (f : A → M veh_world VehError B) R :
  veh_triple P c Q → (∀ a, veh_triple (Q a) (f a) R) → veh_triple P (c ≫= f) R.
Proof. apply (triple_bind vw_db veh_ok veh_step veh_step_ok). Qed.

Lemma not_found_triple {A} (P : veh_db → Prop) (c : M veh_db VehError A) (Q : A → veh_db → Prop) :
  veh_triple P (on_db c) Q → veh_triple P (not_found (on_db c)) Q.
Proof. intros T. by apply triple_wrap. Qed.

(** ** Publishing *)

(** The events a publication adds: the one built, or none when the broker refuses or
    there is none. *)
Lemma publish_run c fresh ty agg tenant actor p w r w' :
  publish publisher c fresh ty agg tenant actor p w = (r, w') →
  vw_db w' = vw_db w ∧
  (r = inl VehOther ∧ vw_events w' = vw_events w ∨
   r = inr tt ∧ (publisher = None ∧ vw_events w' = vw_events w ∨
     ∃ e, vw_events w' = vw_events w ++ [(VehEventDomain, e)] ∧ EventType e = ty ∧
       AggregateID e = uuid_string agg ∧ Payload e = p)).
Proof.
  unfold publish. destruct publisher as [broker|]; [|intros [= <- <-]; eauto 6].
  intros [(e & Q & ->)|(e & w1 & Q & R)]%bind_inv; apply from_option_inv in Q as [-> Q].
  { destruct Q as [(? & _ & [=])|[_ [= ->]]]. eauto. }
  destruct Q as [(e' & Ne & [= <-])|[_ [=]]].
  apply bind_inv in R as [(e' & Q & ->)|([] & w1 & Q & R)]; apply ensure_inv in Q as [-> Q].
  { destruct Q as [[_ [=]]|[_ [= ->]]]. eauto. }
  injection R as <- <-. split; [done|]. right. split; [done|]. right. exists e.
  unfold NewEvent in Ne. destruct (_ || _); [done|]. by injection Ne as <-.
Qed.

Lemma veh_publish_triple (P : veh_db → Prop) c fresh ty agg tenant actor p :
  veh_triple P (publish publisher c fresh ty agg tenant actor p) (λ _ d, P d).
Proof.
  apply triple_pure. intros w r w' _ Pw R. apply publish_run in R as [-> _]. split; [done|].
  by destruct r.
Qed.

(** ** Reads *)

Lemma on_db_reads {A} (P : veh_db → Prop) (c : M veh_db VehError A) :
  (∀ d, veh_ok d → (c d).2 = d) → veh_triple P (on_db c) (λ _ d, P d).
Proof.
  intros R. apply veh_call. intros d r d' Ok Pd E. specialize (R d Ok). rewrite E in R. simpl in R.
  subst. split; [by left|]. by destruct r.
Qed.

Lemma GetVehicle_triple (P : veh_db → Prop) id scope :
  veh_triple P (Veh_GetVehicle id scope)
    (λ v d, P d ∧ vehicles d !! id = Some v ∧ sees_vehicle scope v = true).
Proof.
  apply not_found_triple, veh_call. intros d r d' Ok Pd R. rewrite GetVehicle_eq in R by done.
  injection R as <- <-. split; [by left|]. destruct (vehicles d !! id) as [v|]; [|done].
  by destruct (sees_vehicle scope v) eqn:S.
Qed.

(** ** Registration *)

(** What passes the checks is registrable once it is trimmed. *)
Lemma check_registration_run v w r w' : check_registration v w = (r, w') → w' = w ∧
  (r = inr tt ↔ v_OwnerUserID v ≠ uuid_nil ∧ 1950 <= v_Year v <= 2100 ∧
     TrimSpace (v_Make v) ≠ "" ∧ TrimSpace (v_Model v) ≠ "" ∧ 0 <= v_MileageLatestKm v) ∧
  (r ≠ inr tt → ∃ e, r = inl (VehApp e) ∧ Status e = 422).
Proof.
  assert (∀ e (P : Prop), ¬ P → Status e = 422 → (inl (VehApp e), w) = (r, w') → w' = w ∧
    (r = inr tt ↔ P) ∧ (r ≠ inr tt → ∃ e, r = inl (VehApp e) ∧ Status e = 422)) as Refused
    by (intros e P N S [= <- <-]; split_and!; [done|split; [done|tauto]|eauto]).
  unfold check_registration. intros R. unfold_run R. unfold MinYearOfManufacture, MaxYearOfManufacture in R.
  case_bool_decide as O; cbn [negb] in R; [eapply Refused; [| |exact R]; [tauto|done]|].
  destruct (Z.leb_spec 1950 (v_Year v)); cbn [andb] in R; [|eapply Refused; [| |exact R]; [lia|done]].
  destruct (Z.leb_spec (v_Year v) 2100); [|eapply Refused; [| |exact R]; [lia|done]].
  destruct (String.eqb_spec (TrimSpace (v_Make v)) ""); cbn [negb] in R;
    [eapply Refused; [| |exact R]; [tauto|done]|].
  destruct (String.eqb_spec (TrimSpace (v_Model v)) ""); cbn [negb] in R;
    [eapply Refused; [| |exact R]; [tauto|done]|].
  destruct (Z.leb_spec 0 (v_MileageLatestKm v)); [|eapply Refused; [| |exact R]; [lia|done]].
  injection R as <- <-. by split_and!.
Qed.

(** The struct a registration hands to the store. *)
Definition canonical_vehicle (c : Ctx) (vin : string) (v : Vehicle) : Vehicle :=
  mkVehicle (assign_id (v_ID v) (ctx_fresh c 0)) (v_TenantID v) (v_OwnerUserID v) vin
    (TrimSpace (v_Make v)) (TrimSpace (v_Model v)) (v_Year v) (TrimSpace (v_Plate v))
    (TrimSpace (v_Color v)) (v_MileageLatestKm v) (v_CreatedAt v) (v_UpdatedAt v).

(** The row it becomes. *)
Definition registered_row (c : Ctx) (vin : string) (v : Vehicle) : Vehicle :=
  vehicle_row (ctx_now c) (ctx_fresh c 1) (canonical_vehicle c vin v).

Definition registered_event (c : Ctx) (vin : string) (v : Vehicle) : HistoryEvent :=
  first_event (ctx_now c) (ctx_now c) (ctx_fresh c 2) (registered_row c vin v).

(** The payload of the event of a registration. *)
Definition created_payload (row : Vehicle) : VehPayload :=
  VehicleCreated (v_ID row) (v_VIN row) (v_Make row) (v_Model row) (v_Year row) (v_Plate row)
    (v_Color row) (v_MileageLatestKm row) (v_OwnerUserID row).

Lemma RegisterVehicle_run quote c v actor w r w' :
  RegisterVehicle publisher quote c (Some v) actor w = (r, w') →
  (∃ e, r = inl e) ∧ vw_db w' = vw_db w ∧ vw_events w' = vw_events w ∨
  ∃ vin, let row := registered_row c vin v in
    ValidateVIN (v_VIN v) = inr vin ∧ registrable row ∧ vehicles (vw_db w) !! v_ID row = None ∧
    vin_taken vin (vw_db w) = false ∧ fresh_row (registered_event c vin v) (vw_db w) ∧
    vw_db w' = with_history (registered_event c vin v)
                 (with_vehicles (insert (v_ID row) row) (vw_db w)) ∧
    (r = inl VehOther ∧ vw_events w' = vw_events w ∨
     r = inr row ∧ (publisher = None ∧ vw_events w' = vw_events w ∨
       ∃ e, vw_events w' = vw_events w ++ [(VehEventDomain, e)] ∧
         EventType e = EventVehicleCreated ∧ AggregateID e = uuid_string (v_ID row) ∧
         Payload e = created_payload row)).
Proof.
  unfold RegisterVehicle. intros R.
  apply bind_inv in R as [(e & Q & ->)|(v0 & w1 & Q & R)]; apply from_option_inv in Q as [-> Q];
    [left; eauto|]. destruct Q as [(? & [= <-] & [= ->])|[[=] _]].
  apply bind_inv in R as [(e & Q & ->)|(vin & w1 & Q & R)]; injection Q as V <-; [left; eauto|].
  destruct (ValidateVIN (v_VIN v)) as [|vin'] eqn:Va; [done|]. injection V as ->.
  apply bind_inv in R as [(e & Q & ->)|([] & w1 & Q & R)];
    apply check_registration_run in Q as (-> & [Ck _] & _); [left; eauto|].
  specialize (Ck eq_refl) as (O & Y & Mk & Md & Mi).
  fold (canonical_vehicle c vin v) in R. cbv zeta in R.
  apply bind_inv in R as [(e & Q & ->)|(row & w1 & Q & R)].
  - unfold wrap, on_db, zoom in Q.
    destruct (CreateVehicle _ _ _ _ _ _) as [x d'] eqn:Cr. destruct x as [e'|]; [|done]. injection Q as _ <-.
    apply CreateVehicle_run in Cr as [(_ & -> & _)|([=] & _)]. left. eauto.
  - unfold wrap, on_db, zoom in Q.
    destruct (CreateVehicle _ _ _ _ _ _) as [x d'] eqn:Cr. destruct x as [e'|x]; [done|]. injection Q as -> <-.
    apply CreateVehicle_run in Cr as [((e & [=]) & _)|(E & _ & N & T & F & ->)]. injection E as ->.
    fold (registered_row c vin v) in *.
    assert (registrable (registered_row c vin v)) as Rg.
    { repeat apply conj; try done; [by eapply ValidateVIN_idem|apply Y..|apply timestamptz_idem]. }
    right. exists vin. cbv zeta.
    apply bind_inv in R as [(e & Q & ->)|([] & w2 & Q & R)]; [|injection R as <- <-];
      apply publish_run in Q as [Db Q]; cbn [vw_db vw_events] in *;
      (split_and!; [done|exact Rg|done..|]).
    + left. destruct Q as [[[= ->] Ev]|[[=] _]]. done.
    + right. split; [done|]. destruct Q as [[[=] _]|[_ Q]]. exact Q.
Qed.

Lemma check_registration_triple (P : veh_db → Prop) v :
  veh_triple P (check_registration v) (λ _ d, P d ∧ v_OwnerUserID v ≠ uuid_nil ∧
    TrimSpace (v_Make v) ≠ "" ∧ TrimSpace (v_Model v) ≠ "" ∧ 0 <= v_MileageLatestKm v).
Proof.
  apply triple_pure. intros w r w' _ Pw R. apply check_registration_run in R as (-> & [Ck _] & _).
  split; [done|]. destruct r as [e|[]]; [done|]. specialize (Ck eq_refl) as (O & _ & A). auto.
Qed.

Lemma RegisterVehicle_triple quote c v actor :
  veh_triple (λ _, True) (RegisterVehicle publisher quote c v actor) (λ _ _, True).
Proof.
  unfold RegisterVehicle. eapply veh_bind; [apply triple_option|intros v0].
  eapply veh_bind; [apply triple_sum|intros vin].
  eapply veh_bind; [apply check_registration_triple|intros []]. cbv zeta.
  fold (canonical_vehicle c vin v0). eapply (veh_bind _ _ (λ _ _, True)).
  - apply triple_wrap. refine (veh_call (λ d, (_ ∧ _) ∧ _) _ (λ _ _, True) _).
    intros d r d' Ok ((_ & V) & O & Mk & Md & K) R. split; [|by destruct r].
    right. eapply step_register; [|exact R]. destruct (ValidateVIN (v_VIN v0)) eqn:E; [done|].
    injection V as ->. repeat apply conj; try done. by eapply ValidateVIN_idem.
  - intros row. eapply veh_bind; [apply veh_publish_triple|]. intros []. by apply triple_ret.
Qed.

(** ** The history *)

Lemma RecordEvent_triple c e :
  veh_triple (λ _, True) (RecordEvent publisher c e) (λ _ _, True).
Proof.
  unfold RecordEvent. eapply veh_bind; [apply triple_option|intros h].
  eapply veh_bind; [apply triple_ensure|intros []]. eapply veh_bind; [apply triple_ensure|intros []].
  eapply veh_bind; [apply triple_ensure|intros []]. cbv zeta.
  eapply (veh_bind _ _ (λ _ _, True)).
  - apply not_found_triple, veh_call. intros d r d' Ok [_ S] R. split; [|by destruct r].
    right. eapply step_history; [|exact R]. by apply negb_true_iff, String.eqb_neq in S.
  - intros []. eapply veh_bind; [apply veh_publish_triple|]. intros []. by apply triple_ret.
Qed.

(** ** Readings *)

Lemma mileage_guard_triple (P : veh_db → Prop) id km scope :
  veh_triple P (mileage_guard id km scope)
    (λ v d, P d ∧ vehicles d !! id = Some v ∧ v_MileageLatestKm v <= km).
Proof.
  unfold mileage_guard. eapply veh_bind; [apply triple_ensure|intros []].
  eapply veh_bind; [apply GetVehicle_triple|intros v]. eapply veh_bind; [apply triple_ensure|intros []].
  apply triple_ret. intros d (((Pd & _) & L & _) & K). apply Z.leb_le in K. auto.
Qed.

(** The writes of a reading, whatever happened since its checks. *)
Lemma mileage_commit_triple (P : veh_db → Prop) c id km by_ current :
  veh_triple P (mileage_commit publisher c id km by_ current) (λ _ _, True).
Proof.
  unfold mileage_commit. eapply (veh_bind _ _ (λ _ _, True)).
  - apply not_found_triple, veh_call. intros d r d' Ok _ R. split; [|by destruct r].
    right. by eapply step_mileage.
  - intros []. eapply triple_weaken; [apply veh_publish_triple| |done]. intros d X; exact X.
Qed.

Lemma RecordMileage_triple (P : veh_db → Prop) c id km by_ scope :
  veh_triple P (RecordMileage publisher c id km by_ scope) (λ _ _, True).
Proof. eapply veh_bind; [apply mileage_guard_triple|]. intros v. apply mileage_commit_triple. Qed.

(** ** Handlers *)

Lemma app_triple {A} (P : veh_db → Prop) (r : Error + A) : veh_triple P (app r) (λ _ d, P d).
Proof.
  eapply triple_weaken; [apply triple_sum|intros d X; exact X|]. by intros a d [X _].
Qed.

Lemma option_triple {A} (P : veh_db → Prop) (o : option A) (e : VehError) :
  veh_triple P (from_option o e) (λ _ d, P d).
Proof.
  eapply triple_weaken; [apply triple_option|intros d X; exact X|]. by intros a d [X _].
Qed.

Lemma handleCreateVehicle_triple quote c claims body :
  veh_triple (λ _, True) (handleCreateVehicle publisher quote c claims body) (λ _ _, True).
Proof.
  unfold handleCreateVehicle, authenticated. eapply veh_bind; [apply option_triple|intros who].
  eapply veh_bind; [apply option_triple|intros owner]. eapply veh_bind; [apply option_triple|intros tenant].
  eapply veh_bind; [apply app_triple|intros req]. eapply veh_bind; [apply RegisterVehicle_triple|intros v].
  by apply triple_ret.
Qed.

Lemma handleRecordMileage_triple c claims raw body :
  veh_triple (λ _, True) (handleRecordMileage publisher c claims raw body) (λ _ _, True).
Proof.
  unfold handleRecordMileage, authenticated. eapply veh_bind; [apply option_triple|intros who].
  eapply veh_bind; [apply app_triple|intros id]. eapply veh_bind; [apply app_triple|intros scope].
  eapply veh_bind; [apply app_triple|intros req]. eapply veh_bind; [apply option_triple|intros km].
  eapply veh_bind; [apply GetVehicle_triple|intros v]. eapply veh_bind; [apply triple_ensure|intros []].
  eapply veh_bind; [apply option_triple|intros recorder].
  eapply veh_bind; [apply RecordMileage_triple|intros []]. by apply triple_ret.
Qed.

End Refine.

(** * What the vehicles domain guarantees

    The registry and its history, registration, odometer readings and the reads. *)

Section Props.
Context `{Driver} `{!RowOrder HistoryEvent} `{UuidText} `{UpperMapping}.
Context (publisher : option (Event VehPayload → bool)).

(** From any registry that satisfies the invariant, every handler of the domain,
    on every branch, changes the database only by registering a vehicle with its first
    event, appending to the history, or storing a reading with its event, and so does
    the second half of a reading on its own, whatever ran since its first half. *)
Theorem vehicle_handlers_refine_steps quote c v actor e id km by_ scope current claims raw
    body body' w (Ok : veh_ok (vw_db w)) :
  rtc veh_step (vw_db w) (vw_db (RegisterVehicle publisher quote c v actor w).2) ∧
  rtc veh_step (vw_db w) (vw_db (RecordEvent publisher c e w).2) ∧
  rtc veh_step (vw_db w) (vw_db (RecordMileage publisher c id km by_ scope w).2) ∧
  rtc veh_step (vw_db w) (vw_db (mileage_commit publisher c id km by_ current w).2) ∧
  rtc veh_step (vw_db w) (vw_db (handleCreateVehicle publisher quote c claims body w).2) ∧
  rtc veh_step (vw_db w) (vw_db (handleRecordMileage publisher c claims raw body' w).2).
Proof.
  split_and!; apply (triple_steps vw_db veh_ok veh_step (λ _, True) _ (λ _ _, True)); try done.
  - apply RegisterVehicle_triple.
  - apply RecordEvent_triple.
  - apply RecordMileage_triple.
  - apply mileage_commit_triple.
  - apply handleCreateVehicle_triple.
  - apply handleRecordMileage_triple.
Qed.


(** ** Registration *)

(** The checks a registration passes before the store. *)
Definition acceptable (v : Vehicle) : Prop :=
  v_OwnerUserID v ≠ uuid_nil ∧ 1950 <= v_Year v <= 2100 ∧
  TrimSpace (v_Make v) ≠ "" ∧ TrimSpace (v_Model v) ≠ "" ∧ 0 <= v_MileageLatestKm v.

(** Past the checks a registration is the call of the store and the event. *)
Lemma RegisterVehicle_checked quote c v actor vin w : ValidateVIN (v_VIN v) = inr vin → acceptable v →
  RegisterVehicle publisher quote c (Some v) actor w =
  (row ← wrap (λ e, if IsUniqueViolation e
                    then VehApp (ErrConflict "a vehicle with this VIN is already registered") else e)
           (on_db (CreateVehicle (ctx_now c) (ctx_now c) (ctx_fresh c 1) (ctx_fresh c 2)
                     (canonical_vehicle c vin v)));
   publish publisher c (ctx_fresh c 3) EventVehicleCreated (v_ID row) (v_TenantID row) (Some actor)
     (created_payload row);;
   mret row) w.
Proof.
  intros V A. unfold RegisterVehicle. erewrite bind_ok; [|reflexivity].
  rewrite V. erewrite bind_ok; [|reflexivity].
  destruct (check_registration v w) as [r w'] eqn:R.
  pose proof (check_registration_run _ _ _ _ R) as (-> & [_ Ck] & _). rewrite (Ck A) in R.
  by rewrite (bind_ok _ _ _ _ _ R).
Qed.

(** A number is registered once, however it is written: an acceptable registration
    whose text normalizes to a number in the registry is answered with the conflict and
    leaves no trace. *)
Theorem duplicate_vin_conflict quote c v actor vin id v0 w
    (V : ValidateVIN (v_VIN v) = inr vin) (L : vehicles (vw_db w) !! id = Some v0)
    (E : v_VIN v0 = vin) (A : acceptable v) :
  RegisterVehicle publisher quote c (Some v) actor w =
    (inl (VehApp (ErrConflict "a vehicle with this VIN is already registered")), w).
Proof.
  rewrite (RegisterVehicle_checked _ _ _ _ _ _ V A).
  assert (CreateVehicle (ctx_now c) (ctx_now c) (ctx_fresh c 1) (ctx_fresh c 2)
    (canonical_vehicle c vin v) (vw_db w) = (inl UniqueViolation, vw_db w)) as C.
  { unfold CreateVehicle. unfold transact, insert_vehicle. unfold_run_goal.
    change (v_Year (vehicle_row _ _ _)) with (v_Year v). destruct A as (_ & [Y1 Y2] & _).
    apply Z.leb_le in Y1 as ->. apply Z.leb_le in Y2 as ->. cbn [andb].
    assert (vin_taken vin (vw_db w) = true) as T by (apply vin_taken_spec; eauto).
    simpl. rewrite T, andb_false_r. done. }
  unfold mbind, M_bind, wrap, on_db, zoom. rewrite C. simpl. by destruct w.
Qed.

(** A registration is all or nothing: an error leaves the registry as it was, unless
    it is the broker that refused the event of a vehicle already stored; a success is
    the vehicle under its canonical number with its trimmed texts, stored under a new
    identifier with its first event, and its event published. *)
Theorem RegisterVehicle_outcomes quote c v actor w :
  let '(r, w') := RegisterVehicle publisher quote c (Some v) actor w in
  (∃ e, r = inl e) ∧ vw_db w' = vw_db w ∧ vw_events w' = vw_events w ∨
  ∃ vin, let row := registered_row c vin v in
    ValidateVIN (v_VIN v) = inr vin ∧ vin_taken vin (vw_db w) = false ∧
    vehicles (vw_db w) !! v_ID row = None ∧
    vw_db w' = with_history (registered_event c vin v)
                 (with_vehicles (insert (v_ID row) row) (vw_db w)) ∧
    (r = inl VehOther ∧ vw_events w' = vw_events w ∨
     r = inr row ∧ (publisher = None ∨ ∃ e, vw_events w' = vw_events w ++ [(VehEventDomain, e)] ∧
       EventType e = EventVehicleCreated ∧ AggregateID e = uuid_string (v_ID row) ∧
       Payload e = created_payload row)).
Proof.
  destruct (RegisterVehicle _ _ _ _ _ w) as [r w'] eqn:R.
  apply RegisterVehicle_run in R as [R|(vin & V & _ & N & T & _ & Db & R)]; [by left|].
  right. exists vin. cbv zeta. split_and!; try done. destruct R as [R|(-> & [[P _]|P])]; eauto.
Qed.

(** ** Readings *)

Lemma not_found_eq {A} (c : M veh_db VehError A) w r d : c (vw_db w) = (r, d) →
  not_found (on_db c) w =
  (match r with
   | inl ErrVehicleNotFound => inl vehicle_not_found
   | inl e => inl e
   | inr a => inr a
   end, mkVehWorld d (vw_events w)).
Proof. intros E. unfold not_found, wrap, on_db, zoom. rewrite E. by destruct r as [[]|]. Qed.

Lemma world_eta (w : veh_world) : mkVehWorld (vw_db w) (vw_events w) = w.
Proof. by destruct w. Qed.

(** The checks of a reading, evaluated. *)
Lemma mileage_guard_eq id km scope w : veh_ok (vw_db w) →
  mileage_guard id km scope w =
  (if 0 <=? km then
     match vehicles (vw_db w) !! id with
     | Some v => if sees_vehicle scope v then
         if v_MileageLatestKm v <=? km then inr v
         else inl (VehApp (ErrConflict ("odometer cannot decrease from " +:+
                pretty (v_MileageLatestKm v) +:+ " km to " +:+ pretty km +:+ " km")))
         else inl vehicle_not_found
     | None => inl vehicle_not_found
     end
   else inl (VehApp (ErrValidation "mileage must be non-negative"
               [mkFieldError "odometer_km" "must be non-negative"])), w).
Proof.
  intros Ok. unfold mileage_guard. destruct (0 <=? km); [|done].
  erewrite bind_ok; [|reflexivity]. unfold mbind, M_bind.
  rewrite (not_found_eq _ _ _ _ (GetVehicle_eq _ _ _ Ok)), world_eta.
  destruct (vehicles (vw_db w) !! id) as [v|]; [|done]. destruct (sees_vehicle scope v); [|done].
  by destruct (v_MileageLatestKm v <=? km).
Qed.

(** The writes of a reading on a vehicle that is there, evaluated up to the event. *)
Lemma mileage_commit_db c id km by_ current v w : veh_ok (vw_db w) →
  vehicles (vw_db w) !! id = Some v → 0 <= km →
  fresh_row (mileage_event (ctx_now c) (ctx_now c) (ctx_fresh c 0) id km) (vw_db w) →
  vw_db (mileage_commit publisher c id km by_ current w).2 =
    with_history (mileage_event (ctx_now c) (ctx_now c) (ctx_fresh c 0) id km)
      (with_vehicles (insert id (with_mileage (timestamptz (ctx_now c)) km v)) (vw_db w)).
Proof.
  intros Ok L K F. unfold mileage_commit.
  unfold mbind, M_bind.
  rewrite (not_found_eq _ _ _ _ (UpdateMileage_ok _ _ _ _ _ _ _ K L F)).
  destruct (publish _ _ _ _ _ _ _ _ _) as [r w'] eqn:P. apply publish_run in P as [Db _].
  simpl. by rewrite Db.
Qed.

(** Readings taken one at a time never turn an odometer back: whatever a reading
    answers, no vehicle shows less afterwards; a reading below the stored one of a
    visible vehicle is a conflict, and a reading that succeeds is stored. *)
Theorem RecordMileage_monotone c id km by_ scope w (Ok : veh_ok (vw_db w)) :
  let '(r, w') := RecordMileage publisher c id km by_ scope w in
  (∀ i v, vehicles (vw_db w) !! i = Some v → ∃ v', vehicles (vw_db w') !! i = Some v' ∧
     v_MileageLatestKm v <= v_MileageLatestKm v') ∧
  (r = inr tt → ∃ v, vehicles (vw_db w') !! id = Some v ∧ v_MileageLatestKm v = km) ∧
  (∀ v, vehicles (vw_db w) !! id = Some v → sees_vehicle scope v = true → 0 <= km →
     km < v_MileageLatestKm v →
     w' = w ∧ r = inl (VehApp (ErrConflict ("odometer cannot decrease from " +:+
                pretty (v_MileageLatestKm v) +:+ " km to " +:+ pretty km +:+ " km")))).
Proof.
  destruct (RecordMileage _ _ _ _ _ _ w) as [r w'] eqn:R. unfold RecordMileage, mbind, M_bind in R.
  rewrite mileage_guard_eq in R by done.
  assert (∀ e, (inl e, w) = (r, w') → (∀ i v, vehicles (vw_db w) !! i = Some v →
     ∃ v', vehicles (vw_db w') !! i = Some v' ∧ v_MileageLatestKm v <= v_MileageLatestKm v') ∧
     (r = inr tt → ∃ v, vehicles (vw_db w') !! id = Some v ∧ v_MileageLatestKm v = km)) as Refused
    by (intros e [= <- <-]; split; [intros i v L; exists v; split; [done|lia]|done]).
  destruct (Z.leb_spec 0 km); [|destruct (Refused _ R); split_and!; [done..|lia]].
  destruct (vehicles (vw_db w) !! id) as [v|] eqn:L; [|destruct (Refused _ R); by split_and!].
  destruct (sees_vehicle scope v) eqn:Se;
    [|destruct (Refused _ R); split_and!; [done..|intros ? [= <-]; congruence]].
  destruct (Z.leb_spec (v_MileageLatestKm v) km).
  2:{ destruct (Refused _ R); split_and!; [done..|]. injection R as <- <-. by intros ? [= <-]. }
  split_and!; [| |intros ? [= <-]; lia].
  all: unfold mileage_commit, mbind, M_bind in R;
    destruct (UpdateMileage (ctx_now c) (ctx_now c) (ctx_fresh c 0) id km (vw_db w)) as [x d] eqn:U;
    rewrite (not_found_eq _ _ _ _ U) in R;
    apply UpdateMileage_run in U as [((e & ->) & -> & _)|(v' & -> & _ & L' & _ & ->)];
    [assert (vw_db w' = vw_db w ∧ ∃ e', r = inl e') as [Db (e' & ->)]
       by (destruct e; injection R as <- <-; eauto)
    |apply publish_run in R as [Db _]; cbn [vw_db] in Db; assert (v' = v) as -> by congruence].
  - intros i x Lx. exists x. rewrite Db. split; [done|lia].
  - intros i x Lx. rewrite Db. simpl. destruct (decide (i = id)) as [->|Ne].
    + exists (with_mileage (timestamptz (ctx_now c)) km v). rewrite lookup_insert_eq.
      split; [done|]. assert (x = v) as -> by congruence. done.
    + exists x. rewrite lookup_insert_ne by done. split; [done|lia].
  - done.
  - intros _. exists (with_mileage (timestamptz (ctx_now c)) km v). rewrite Db. simpl.
    by rewrite lookup_insert_eq.
Qed.

(** Two readings at the same time do turn it back: the update has no condition on
    the reading it replaces. When the checks of the lower reading pass, the higher one
    is recorded completely, and then the lower one is written, the vehicle shows the
    lower reading and the history ends with both. *)
Theorem overlapping_readings_decrease c c' id lo hi by_ by' scope v w
    (Ok : veh_ok (vw_db w)) (L : vehicles (vw_db w) !! id = Some v)
    (Se : sees_vehicle scope v = true) (B : 0 <= v_MileageLatestKm v <= lo) (Lt : lo < hi)
    (F : fresh_row (mileage_event (ctx_now c') (ctx_now c') (ctx_fresh c' 0) id hi) (vw_db w))
    (F' : fresh_row (mileage_event (ctx_now c) (ctx_now c) (ctx_fresh c 0) id lo) (vw_db w))
    (Ne : ctx_fresh c 0 ≠ ctx_fresh c' 0) :
  let '(checked, _) := mileage_guard id lo scope w in
  let w1 := (RecordMileage publisher c' id hi by' scope w).2 in
  let w2 := (mileage_commit publisher c id lo by_ v w1).2 in
  checked = inr v ∧
  (∃ v1, vehicles (vw_db w1) !! id = Some v1 ∧ v_MileageLatestKm v1 = hi) ∧
  (∃ v2, vehicles (vw_db w2) !! id = Some v2 ∧ v_MileageLatestKm v2 = lo) ∧
  h_OdometerKm <$> vehicle_service_history (vw_db w2) =
    (h_OdometerKm <$> vehicle_service_history (vw_db w)) ++ [Some hi; Some lo].
Proof.
  rewrite mileage_guard_eq, L, Se by done.
  replace (0 <=? lo) with true by (symmetry; apply Z.leb_le; lia).
  replace (v_MileageLatestKm v <=? lo) with true by (symmetry; apply Z.leb_le; lia).
  intros w1 w2.
  assert (w1 = (mileage_commit publisher c' id hi by' v w).2) as E1.
  { unfold w1, RecordMileage. rewrite (bind_ok _ _ _ v w); [done|]. rewrite mileage_guard_eq, L, Se by done.
    replace (0 <=? hi) with true by (symmetry; apply Z.leb_le; lia).
    by replace (v_MileageLatestKm v <=? hi) with true by (symmetry; apply Z.leb_le; lia). }
  pose proof (mileage_commit_db c' id hi by' v v w Ok L ltac:(lia) F) as D1. rewrite <-E1 in D1.
  assert (veh_ok (vw_db w1)) as Ok1.
  { rewrite D1. eapply veh_step_ok; [exact Ok|].
    eapply step_mileage, UpdateMileage_ok; [lia|done..]. }
  set (v1 := with_mileage (timestamptz (ctx_now c')) hi v) in *.
  assert (vehicles (vw_db w1) !! id = Some v1) as L1 by (rewrite D1; apply lookup_insert_eq).
  assert (vw_db w2 = with_history (mileage_event (ctx_now c) (ctx_now c) (ctx_fresh c 0) id lo)
    (with_vehicles (insert id (with_mileage (timestamptz (ctx_now c)) lo v1)) (vw_db w1))) as D2.
  { apply mileage_commit_db; [done..|lia|]. rewrite D1. unfold fresh_row in *. simpl.
    rewrite list.fmap_app, elem_of_app. intros [I|I%list_elem_of_singleton]; [by apply F'|done]. }
  split_and!; [done| | |].
  - by exists v1.
  - exists (with_mileage (timestamptz (ctx_now c)) lo v1). rewrite D2. simpl.
    by rewrite lookup_insert_eq.
  - rewrite D2, D1. simpl. by rewrite !list.fmap_app, <-app_assoc.
Qed.

(** ** Reads *)

(** Every read returns exactly what the scope of its principal sees: a vehicle and
    its passport are found when they exist and are visible, and the history of an
    invisible vehicle is an empty page, not an error; the passport counts all events
    of the vehicle, at least one, and dates the latest. *)
Theorem vehicle_reads_exact id scope limit offset w (Ok : veh_ok (vw_db w)) :
  let d := vw_db w in
  let visible := match vehicles d !! id with
                 | Some v => if sees_vehicle scope v then Some v else None
                 | None => None
                 end in
  Veh_GetVehicle id scope w =
    (match visible with Some v => inr v | None => inl vehicle_not_found end, w) ∧
  Veh_Passport id scope w =
    (match visible with Some v => inr (passport_row d v) | None => inl vehicle_not_found end, w) ∧
  History id scope limit offset w =
    (inr (page (clamp_limit defaultHistoryLimit maxHistoryLimit limit) (clamp_offset offset)
       (match visible with Some v => sorted_history id d | None => [] end)), w) ∧
  (∀ v, visible = Some v →
     let p := passport_row d v in
     1 <= p_ServiceEventCount p ∧ p_ServiceEventCount p = Z.of_nat (length (history_of id d)) ∧
     ∃ t, p_LastServiceAt p = Some t ∧ t ∈ h_OccurredAt <$> history_of id d ∧
       Forall (λ h, h_OccurredAt h <= t) (history_of id d)).
Proof.
  cbv zeta. split_and!.
  - unfold Veh_GetVehicle. rewrite (not_found_eq _ _ _ _ (GetVehicle_eq _ _ _ Ok)), world_eta.
    destruct (vehicles (vw_db w) !! id) as [v|]; [|done]. by destruct (sees_vehicle scope v).
  - unfold Veh_Passport. rewrite (not_found_eq _ _ _ _ (GetPassport_eq _ _ _ Ok)), world_eta.
    destruct (vehicles (vw_db w) !! id) as [v|]; [|done]. by destruct (sees_vehicle scope v).
  - unfold History, on_db, zoom. rewrite ListHistory_eq, world_eta by done. f_equal. f_equal. f_equal.
    destruct (vehicles (vw_db w) !! id) as [v|]; [|done]. by destruct (sees_vehicle scope v).
  - intros v V. destruct (vehicles (vw_db w) !! id) as [x|] eqn:L; [|done].
    destruct (sees_vehicle scope x); [|done]. injection V as ->.
    destruct (vk_first _ Ok _ _ L) as (h & I & _). unfold passport_row. cbn [p_ServiceEventCount p_LastServiceAt].
    rewrite (vk_id _ Ok _ _ L). destruct (history_of id (vw_db w)) as [|h0 hs] eqn:E; [by apply elem_of_nil in I|].
    split_and!; [simpl; lia|done|]. eexists. split; [reflexivity|].
    clear. change (list_fmap _ _ h_OccurredAt hs) with (h_OccurredAt <$> hs). rewrite fmap_cons.
    assert (∀ t l, foldr Z.max t l ∈ t :: l ∧ Forall (λ x, x <= foldr Z.max t l) (t :: l)) as M.
    { intros t l. induction l as [|x l [I F]]; simpl; [split; [set_solver|by repeat constructor]|].
      split.
      - destruct (Z.max_spec x (foldr Z.max t l)) as [[_ ->]|[_ ->]]; set_solver.
      - apply list.Forall_cons in F as [F0 F]. repeat constructor; [lia|lia|].
        eapply list.Forall_impl; [exact F|]. intros y Y. simpl in Y. lia. }
    destruct (M (h_OccurredAt h0) (h_OccurredAt <$> hs)) as [I F]. split; [exact I|].
    change (h_OccurredAt h0 :: (h_OccurredAt <$> hs)) with (h_OccurredAt <$> (h0 :: hs)) in F.
    by rewrite Forall_fmap in F.
Qed.

End Props.
