(* ===== verification/VehWeb.v ===== *)
(** * VehWeb: what the HTTP layer of the vehicles domain guarantees

    Following the cursors of the listing, what a principal can learn, and who may record
    a reading. A concrete registry, two vehicles of a tenant and a private one with a
    reading that overtakes a lower one, is the input of the witnesses of the domain. *)

From Stdlib Require Import Ascii.
From S2P Require Import Prelude Hoare Text Platform Sql Wire PayModels Http Auth TimeParse Vin.
From S2P Require Import Vehicles VehHttp VehInvariant VehProps.

Open Scope Z_scope.

#[local] Arguments timestamptz : simpl never.

Section Web.
Context `{Driver} `{!RowOrder HistoryEvent} `{UuidText} `{UpperMapping}.
Context (publisher : option (Event VehPayload → bool)).

(** ** The listing *)

(** A client that asks for a page and follows [next_cursor] until there is none. *)
Fixpoint follow (fuel : nat) (claims : Claims) (limit cursor : string) (w : veh_world)
    : option (list Vehicle) :=
  match fuel with
  | O => None
  | S fuel =>
      match (list_page (Some claims) limit cursor w).1 with
      | inl _ => None
      | inr (rows, None) => Some rows
      | inr (rows, Some next) => rest ← follow fuel claims limit next w; Some (rows ++ rest)
      end
  end.

Lemma pagination_range limit cursor l c : listVehiclesPagination limit cursor = inr (l, c) → 1 <= l <= 100.
Proof.
  unfold listVehiclesPagination. destruct (int_param _ _ _) as [|n]; [done|].
  destruct (Z.ltb_spec n 1); [done|]. unfold maxListLimit.
  destruct (String.eqb cursor ""); [|destruct (ParseVehicleCursor cursor); [done|]];
    intros [= <- _]; destruct (Z.ltb_spec 100 n); lia.
Qed.

Lemma pagination_cursor limit l c s : listVehiclesPagination limit "" = inr (l, None) →
  four_digit_year (vc_CreatedAt c) = true → EncodeVehicleCursor c = Some s →
  listVehiclesPagination limit s = inr (l, Some c).
Proof.
  intros P Y E. pose proof (ParseVehicleCursor_encode _ _ Y E) as Pa.
  assert (s ≠ "") as Ne.
  { intros ->. vm_compute in Pa. done. }
  unfold listVehiclesPagination in *. destruct (int_param _ _ _) as [|n]; [done|].
  destruct (n <? 1); [done|]. rewrite String.eqb_refl in P. injection P as <-.
  destruct (String.eqb_spec s ""); [done|]. by rewrite Pa.
Qed.

Lemma Veh_ListVehicles_eq scope cursor limit w : veh_ok (vw_db w) →
  Veh_ListVehicles scope cursor limit w =
  (let l := clamp_limit defaultListLimit maxListLimit limit in
   let rows := List.filter (before_cursor cursor) (visible_vehicles scope (vw_db w)) in
   inr (take (Z.to_nat l) rows,
     if l <? Z.of_nat (length rows) then cursor_of <$> list.last (take (Z.to_nat l) rows) else None), w).
Proof.
  intros Ok. unfold Veh_ListVehicles, on_db, zoom. rewrite ListVehicles_eq by done. cbv zeta.
  by rewrite world_eta.
Qed.

(** A page, evaluated. *)
Lemma list_page_eq claims limit cursor scope l c w : veh_ok (vw_db w) →
  scopeFromClaims claims = inr scope → listVehiclesPagination limit cursor = inr (l, c) →
  let rows := List.filter (before_cursor c) (visible_vehicles scope (vw_db w)) in
  (list_page (Some claims) limit cursor w).1 =
    if l <? Z.of_nat (length rows) then
      match cursor_of <$> list.last (take (Z.to_nat l) rows) with
      | Some next => match EncodeVehicleCursor next with
                     | Some text => inr (take (Z.to_nat l) rows, Some text)
                     | None => inl VehOther
                     end
      | None => inr (take (Z.to_nat l) rows, None)
      end
    else inr (take (Z.to_nat l) rows, None).
Proof.
  intros Ok Sc Pg rows. pose proof (pagination_range _ _ _ _ Pg) as R. unfold list_page, authenticated.
  erewrite bind_ok; [|reflexivity]. unfold app at 1. rewrite Sc. erewrite bind_ok; [|reflexivity].
  unfold app. rewrite Pg. erewrite bind_ok; [|reflexivity].
  unfold mbind, M_bind. rewrite Veh_ListVehicles_eq by done.
  assert (clamp_limit defaultListLimit maxListLimit l = l) as ->.
  { unfold clamp_limit, defaultListLimit, maxListLimit.
    destruct (Z.leb_spec l 0); [lia|]. destruct (Z.gtb_spec l 100); [lia|done]. }
  cbv zeta. fold rows. destruct (l <? _); [|done]. destruct (cursor_of <$> _) as [next|]; [|done].
  by destruct (EncodeVehicleCursor next).
Qed.

Lemma follow_suffix claims limit scope l w : veh_ok (vw_db w) →
  scopeFromClaims claims = inr scope → listVehiclesPagination limit "" = inr (l, None) →
  Forall (λ v, four_digit_year (v_CreatedAt v) = true ∧ v_ID v ≠ uuid_nil)
    (visible_vehicles scope (vw_db w)) →
  ∀ fuel rest cursor c, (length rest < fuel)%nat →
  listVehiclesPagination limit cursor = inr (l, c) →
  List.filter (before_cursor c) (visible_vehicles scope (vw_db w)) = rest →
  (∃ front, visible_vehicles scope (vw_db w) = front ++ rest) →
  follow fuel claims limit cursor w = Some rest.
Proof.
  intros Ok Sc P0 All fuel. pose proof (pagination_range _ _ _ _ P0) as R.
  induction fuel as [|fuel IH]; intros rest cursor c Len Pg Fi [front Fr]; [lia|].
  cbn [follow]. rewrite (list_page_eq _ _ _ _ _ _ _ Ok Sc Pg). cbv zeta. rewrite Fi.
  destruct (Z.ltb_spec l (Z.of_nat (length rest))) as [Lt|Ge]; [|by rewrite take_ge by lia].
  set (page_ := take (Z.to_nat l) rest). set (tail := drop (Z.to_nat l) rest).
  assert (rest = page_ ++ tail) as Er by (symmetry; apply take_drop).
  destruct (list.last page_) as [x|] eqn:La.
  2:{ apply last_None in La. apply (f_equal length) in La. unfold page_ in La.
      rewrite length_take in La. simpl in La. lia. }
  apply last_Some in La as (init & Ep). cbn [fmap option_fmap option_map].
  assert (visible_vehicles scope (vw_db w) = (front ++ init) ++ x :: tail) as Ev.
  { rewrite Fr, Er, Ep. by rewrite <-!app_assoc. }
  assert (x ∈ visible_vehicles scope (vw_db w)) as Ix by (rewrite Ev; set_solver).
  rewrite list.Forall_forall in All. destruct (All x Ix) as [Y N].
  destruct (EncodeVehicleCursor (cursor_of x)) as [text|] eqn:En.
  2:{ unfold EncodeVehicleCursor in En. simpl in En. by rewrite bool_decide_eq_false_2 in En. }
  cbv iota beta. rewrite (IH tail text (Some (cursor_of x))).
  - cbn [mbind option_bind]. by rewrite <-Er.
  - unfold tail. rewrite length_drop. lia.
  - exact (pagination_cursor limit l (cursor_of x) text P0 Y En).
  - unfold visible_vehicles in Ev |- *. set (rows := List.filter _ _) in Ev |- *.
    rewrite <-(after_tail v_CreatedAt v_ID rows (front ++ init) x tail); [|..|exact Ev].
    + apply List.filter_ext. intros v. unfold before_cursor, after. cbn [cursor_of vc_CreatedAt vc_ID].
      assert (timestamptz (v_CreatedAt x) = v_CreatedAt x) as ->; [|done].
      unfold visible_vehicles in Ix. rewrite merge_sort_Permutation in Ix.
      apply list_elem_of_In, List.filter_In in Ix as [Ix _]. apply list_elem_of_In, map_rows in Ix as (i & Lx).
      apply (vk_row _ Ok _ _ Lx).
    + intros a b A B. apply (rows_keyed _ Ok);
        [apply list_elem_of_In in A; apply List.filter_In in A as [A _]; by apply list_elem_of_In
        |apply list_elem_of_In in B; apply List.filter_In in B as [B _]; by apply list_elem_of_In].
    + apply NoDup_ListNoDup, List.NoDup_filter, NoDup_ListNoDup, (rows_nodup _ Ok).
  - exists ((front ++ init) ++ [x]). rewrite Ev. by rewrite <-!app_assoc.
Qed.

(** C37. The listing is complete and terminates: a principal that follows [next_cursor]
    through the encoded texts, with any limit the handler takes, gets every vehicle it
    may see exactly once, newest first, and then no further cursor. *)
Theorem listing_complete claims limit scope l fuel w (Ok : veh_ok (vw_db w))
    (Sc : scopeFromClaims claims = inr scope) (Lm : listVehiclesPagination limit "" = inr (l, None))
    (All : Forall (λ v, four_digit_year (v_CreatedAt v) = true ∧ v_ID v ≠ uuid_nil)
             (visible_vehicles scope (vw_db w)))
    (Fuel : (length (visible_vehicles scope (vw_db w)) < fuel)%nat) :
  follow fuel claims limit "" w = Some (visible_vehicles scope (vw_db w)) ∧
  StronglySorted (newest_first v_CreatedAt v_ID) (visible_vehicles scope (vw_db w)) ∧
  NoDup (visible_vehicles scope (vw_db w)) ∧
  (∀ v, v ∈ visible_vehicles scope (vw_db w) ↔
     vehicles (vw_db w) !! v_ID v = Some v ∧ sees_vehicle scope v = true).
Proof.
  split_and!.
  - apply (follow_suffix _ _ _ _ _ Ok Sc Lm All fuel _ "" None Fuel Lm).
    + generalize (visible_vehicles scope (vw_db w)). intros rows.
      induction rows as [|v rows IH]; [done|]. simpl. by rewrite IH.
    + by exists [].
  - apply StronglySorted_merge_sort; apply _.
  - unfold visible_vehicles. rewrite merge_sort_Permutation.
    apply NoDup_ListNoDup, List.NoDup_filter, NoDup_ListNoDup, (rows_nodup _ Ok).
  - intros v. unfold visible_vehicles. rewrite merge_sort_Permutation, list_elem_of_In, List.filter_In,
      <-list_elem_of_In, map_rows. split; intros [L Se]; (split; [|done]).
    + destruct L as (i & L). by rewrite (vk_id _ Ok _ _ L).
    + by exists (v_ID v).
Qed.

(** ** What a principal can learn *)

(** Two registries look the same to a scope: the same vehicles are visible in both, with
    the same events. *)
Definition alike (scope : VehicleScope) (d d' : veh_db) : Prop :=
  (∀ id v, sees_vehicle scope v = true → vehicles d !! id = Some v ↔ vehicles d' !! id = Some v) ∧
  (∀ id v, sees_vehicle scope v = true → vehicles d !! id = Some v → history_of id d = history_of id d').

Lemma alike_row scope d d' id : alike scope d d' →
  (match vehicles d !! id with Some v => if sees_vehicle scope v then Some v else None | None => None end) =
  (match vehicles d' !! id with Some v => if sees_vehicle scope v then Some v else None | None => None end).
Proof.
  intros [A _]. destruct (vehicles d !! id) as [v|] eqn:L.
  - destruct (sees_vehicle scope v) eqn:Se.
    + apply (A _ _ Se) in L. by rewrite L, Se.
    + destruct (vehicles d' !! id) as [v'|] eqn:L'; [|done]. destruct (sees_vehicle scope v') eqn:Se'; [|done].
      apply (A _ _ Se') in L'. congruence.
  - destruct (vehicles d' !! id) as [v'|] eqn:L'; [|done]. destruct (sees_vehicle scope v') eqn:Se'; [|done].
    apply (A _ _ Se') in L'. congruence.
Qed.

Lemma alike_visible scope d d' : veh_ok d → veh_ok d' → alike scope d d' →
  visible_vehicles scope d = visible_vehicles scope d'.
Proof.
  intros Ok Ok' [A _].
  assert (∀ d, veh_ok d → ∀ v, v ∈ List.filter (sees_vehicle scope) (map_to_list (vehicles d)).*2 ↔
    sees_vehicle scope v = true ∧ ∃ id, vehicles d !! id = Some v) as El.
  { intros e Oe v. rewrite list_elem_of_In, List.filter_In, <-list_elem_of_In, map_rows. tauto. }
  assert (∀ d, veh_ok d → NoDup (List.filter (sees_vehicle scope) (map_to_list (vehicles d)).*2)) as Nd.
  { intros e Oe. apply NoDup_ListNoDup, List.NoDup_filter, NoDup_ListNoDup, (rows_nodup _ Oe). }
  assert (List.filter (sees_vehicle scope) (map_to_list (vehicles d)).*2 ≡ₚ
          List.filter (sees_vehicle scope) (map_to_list (vehicles d')).*2) as Pm.
  { apply NoDup_Permutation; [by apply Nd..|]. intros v. rewrite (El d Ok), (El d' Ok').
    split; intros [Se (i & L)]; (split; [done|]); exists i; by apply (A _ _ Se). }
  apply (StronglySorted_unique_strong (newest_first v_CreatedAt v_ID)).
  - intros x y. unfold visible_vehicles. rewrite !merge_sort_Permutation, <-Pm.
    rewrite !(El d Ok). intros [_ (i & Lx)] [_ (j & Ly)].
    apply (order_antisym _ _ _ _ _ (rows_keyed d Ok)); apply map_rows; eauto.
  - apply StronglySorted_merge_sort; apply _.
  - apply StronglySorted_merge_sort; apply _.
  - unfold visible_vehicles. by rewrite !merge_sort_Permutation.
Qed.

(** Nothing outside its scope reaches a principal: two registries that look the same
    to it get the same responses from every endpoint that reads, and the reads change
    nothing. In particular another tenant's vehicle answers as a missing one does. *)
Theorem vehicle_reads_blind claims scope raw limit offset cursor w w'
    (Ok : veh_ok (vw_db w)) (Ok' : veh_ok (vw_db w')) (Sc : scopeFromClaims claims = inr scope)
    (A : alike scope (vw_db w) (vw_db w')) :
  (serve veh_app (handleGetVehicle (Some claims) raw) w).1 =
    (serve veh_app (handleGetVehicle (Some claims) raw) w').1 ∧
  (serve veh_app (handleGetPassport (Some claims) raw) w).1 =
    (serve veh_app (handleGetPassport (Some claims) raw) w').1 ∧
  (serve veh_app (handleListHistory (Some claims) raw limit offset) w).1 =
    (serve veh_app (handleListHistory (Some claims) raw limit offset) w').1 ∧
  (serve veh_app (handleListVehicles (Some claims) limit cursor) w).1 =
    (serve veh_app (handleListVehicles (Some claims) limit cursor) w').1.
Proof.
  assert (∀ (c : M veh_world VehError Response),
    (c w).1 = (c w').1 → (serve veh_app c w).1 = (serve veh_app c w').1) as Serve.
  { intros c E. unfold serve. destruct (c w) as [x1 w1], (c w') as [x2 w2]. simpl in E. subst.
    by destruct x2. }
  split_and!; apply Serve.
  all: unfold handleGetVehicle, handleGetPassport, handleListHistory, handleListVehicles, authenticated.
  1-3: (erewrite !(bind_ok _ _ _ claims); [|reflexivity..]);
    unfold app; destruct (vehicleIDFromRequest raw) as [|id]; [done|];
    (erewrite !(bind_ok _ _ _ id); [|reflexivity..]); rewrite Sc;
    (erewrite !(bind_ok _ _ _ scope); [|reflexivity..]); pose proof (alike_row scope _ _ id A) as Row.
  - unfold mbind, M_bind, Veh_GetVehicle.
    rewrite (not_found_eq _ _ _ _ (GetVehicle_eq _ _ _ Ok)), (not_found_eq _ _ _ _ (GetVehicle_eq _ _ _ Ok')).
    destruct (vehicles (vw_db w) !! id) as [v|], (vehicles (vw_db w') !! id) as [v'|];
      repeat destruct (sees_vehicle scope _); simplify_eq; done.
  - unfold mbind, M_bind, Veh_Passport.
    rewrite (not_found_eq _ _ _ _ (GetPassport_eq _ _ _ Ok)), (not_found_eq _ _ _ _ (GetPassport_eq _ _ _ Ok')).
    destruct A as [_ Hi].
    destruct (vehicles (vw_db w) !! id) as [v|] eqn:L, (vehicles (vw_db w') !! id) as [v'|] eqn:L';
      try destruct (sees_vehicle scope v) eqn:Se; try destruct (sees_vehicle scope v') eqn:Se';
      try done; try (injection Row as <-).
    assert (passport_row (vw_db w) v = passport_row (vw_db w') v) as ->; [|done].
    unfold passport_row. rewrite (vk_id _ Ok _ _ L). by rewrite (Hi _ _ Se L).
  - destruct (historyPagination limit offset) as [|[li off]]; [done|].
    (erewrite !(bind_ok _ _ _ (li, off)); [|reflexivity..]).
    unfold History, on_db, zoom, mbind, M_bind. rewrite !ListHistory_eq by done.
    destruct A as [_ Hi].
    destruct (vehicles (vw_db w) !! id) as [v|] eqn:L, (vehicles (vw_db w') !! id) as [v'|] eqn:L';
      try destruct (sees_vehicle scope v) eqn:Se; try destruct (sees_vehicle scope v') eqn:Se';
      try done; try (injection Row as <-).
    unfold sorted_history. by rewrite (Hi _ _ Se L).
  - assert ((list_page (Some claims) limit cursor w).1 = (list_page (Some claims) limit cursor w').1) as E.
    { destruct (listVehiclesPagination limit cursor) as [e|[l c]] eqn:Pg.
      - unfold list_page, authenticated, app, mbind, M_bind, from_option, from_sum, mret, M_ret.
        by rewrite Sc, Pg.
      - rewrite (list_page_eq _ _ _ _ _ _ _ Ok Sc Pg), (list_page_eq _ _ _ _ _ _ _ Ok' Sc Pg). cbv zeta.
        by rewrite (alike_visible scope _ _ Ok Ok' A). }
    unfold mbind, M_bind. destruct (list_page _ _ _ w) as [x1 w1], (list_page _ _ _ w') as [x2 w2].
    simpl in E. subst. destruct x2 as [|[]]; done.
Qed.

(** ** Who may record a reading *)

(** A reading changes the registry only for a principal that is authenticated, sees
    the vehicle, and owns it or is an administrator; then the change is one reading of
    that vehicle. Everything else is refused with the status of its reason and changes
    nothing. *)
Theorem mileage_needs_owner c claims raw body w (Ok : veh_ok (vw_db w)) :
  let '(resp, w') := serve veh_app (handleRecordMileage publisher c claims raw body) w in
  vw_db w' = vw_db w ∨
  ∃ cl id scope km v, claims = Some cl ∧ vehicleIDFromRequest raw = inr id ∧
    scopeFromClaims cl = inr scope ∧ body = inr (mkMileageRequest (Some km)) ∧
    vehicles (vw_db w) !! id = Some v ∧ sees_vehicle scope v = true ∧
    (is_admin cl = true ∨ uuid_parse (c_UserID cl) = Some (v_OwnerUserID v)) ∧
    v_MileageLatestKm v <= km ∧
    vw_db w' = with_history (mileage_event (ctx_now c) (ctx_now c) (ctx_fresh c 0) id km)
                 (with_vehicles (insert id (with_mileage (timestamptz (ctx_now c)) km v)) (vw_db w)).
Proof.
  destruct (serve _ _ w) as [resp w'] eqn:S. unfold serve in S.
  destruct (handleRecordMileage publisher c claims raw body w) as [x w1] eqn:R.
  assert (w' = w1) as -> by (by destruct x; injection S as <- <-). clear S resp.
  unfold handleRecordMileage, authenticated, app in R.
  apply bind_inv in R as [(e & Q & ->)|(cl & w2 & Q & R)]; apply from_option_inv in Q as [-> Q]; [by left|].
  destruct Q as [(? & -> & [= <-])|[_ [=]]].
  apply bind_inv in R as [(e & Q & ->)|(id & w2 & Q & R)]; injection Q as Q <-; [by left|].
  destruct (vehicleIDFromRequest raw) as [|id'] eqn:Vi; [done|]. injection Q as ->.
  apply bind_inv in R as [(e & Q & ->)|(scope & w2 & Q & R)]; injection Q as Q <-; [by left|].
  destruct (scopeFromClaims cl) as [|scope'] eqn:Sc; [done|]. injection Q as ->.
  apply bind_inv in R as [(e & Q & ->)|(req & w2 & Q & R)]; injection Q as Q <-; [by left|].
  destruct body as [|req']; [done|]. injection Q as ->.
  apply bind_inv in R as [(e & Q & ->)|(km & w2 & Q & R)]; apply from_option_inv in Q as [-> Q]; [by left|].
  destruct Q as [(? & Km & [= <-])|[_ [=]]].
  assert (∀ r w0, Veh_GetVehicle id scope w = (r, w0) → w0 = w ∧ (∀ v, r = inr v →
    vehicles (vw_db w) !! id = Some v ∧ sees_vehicle scope v = true)) as Get.
  { intros r w0 G. unfold Veh_GetVehicle in G.
    rewrite (not_found_eq _ _ _ _ (GetVehicle_eq _ _ _ Ok)), world_eta in G. injection G as <- <-.
    split; [done|]. intros v E. destruct (vehicles (vw_db w) !! id) as [x0|]; [|done].
    destruct (sees_vehicle scope x0) eqn:Se; [|done]. by injection E as ->. }
  apply bind_inv in R as [(e & Q & ->)|(v & w2 & Q & R)]; apply Get in Q as [-> Q]; [by left|].
  destruct (Q v eq_refl) as [L Se].
  apply bind_inv in R as [(e & Q' & ->)|([] & w2 & Q' & R)]; apply ensure_inv in Q' as [-> Q']; [by left|].
  destruct Q' as [[Cm _]|[_ [=]]].
  apply bind_inv in R as [(e & Q' & ->)|(rec & w2 & Q' & R)]; apply from_option_inv in Q' as [-> Q']; [by left|].
  apply bind_inv in R as [(e & Q2 & ->)|([] & w2 & Q2 & R)];
    [|injection R as _ <-]; unfold RecordMileage, mbind, M_bind in Q2;
    rewrite mileage_guard_eq, L, Se in Q2 by done.
  all: destruct (Z.leb_spec 0 km); [|injection Q2; intros; subst; by left].
  all: destruct (Z.leb_spec (v_MileageLatestKm v) km); [|injection Q2; intros; subst; by left].
  all: unfold mileage_commit, mbind, M_bind in Q2;
    destruct (UpdateMileage (ctx_now c) (ctx_now c) (ctx_fresh c 0) id km (vw_db w)) as [x1 d1] eqn:U;
    rewrite (not_found_eq _ _ _ _ U) in Q2;
    apply UpdateMileage_run in U as [((e' & ->) & -> & _)|(v1 & -> & _ & L1 & _ & ->)];
    [left; destruct e'; injection Q2; intros; subst; done|];
    apply publish_run in Q2 as [Db _]; cbn [vw_db] in Db; right;
    exists cl, id, scope, km, v; assert (v1 = v) as -> by congruence;
    split_and!; try done; [by destruct req; simpl in Km; subst|];
    unfold canMutate in Cm; destruct (is_admin cl); [by left|]; right;
    destruct (uuid_parse (c_UserID cl)); [|done]; by apply bool_decide_eq_true in Cm as ->.
Qed.

(** ** The endpoints *)

Section From.
Context (d0 : veh_db) (R0 : rtc veh_step empty_veh_db d0).

Abbreviation sound := (λ w, rtc veh_step d0 (vw_db w)) (only parsing).

#[local] Lemma sound_ok w : sound w → veh_ok (vw_db w).
Proof using R0. intros S. eapply veh_steps_ok, S. eapply veh_steps_ok, R0. apply empty_veh_ok. Qed.

Lemma veh_triple_keeps {A} (c : M veh_world VehError A) Q :
  triple vw_db veh_ok veh_step (λ _, True) c Q → keeps sound c.
Proof using R0.
  intros T w S. destruct (c w) as [r w'] eqn:R. destruct (T w r w' (sound_ok _ S) I R) as [K _]. by etrans.
Qed.

(** A call of the store that reads, behind the checks of a handler. *)
Lemma veh_reads_keeps {A} (c : M veh_db VehError A) : (∀ d, veh_ok d → (c d).2 = d) → keeps sound (on_db c).
Proof using R0. intros Rd. eapply veh_triple_keeps, (on_db_reads (λ _, True)), Rd. Qed.

Lemma vehicle_handler_keeps quote c r claims : keeps sound
  match r with
  | CreateVehicleCall body => handleCreateVehicle publisher quote c claims body
  | ListVehiclesCall limit cursor => handleListVehicles claims limit cursor
  | GetVehicleCall id => handleGetVehicle claims id
  | GetPassportCall id => handleGetPassport claims id
  | ListHistoryCall id limit offset => handleListHistory claims id limit offset
  | RecordMileageCall id body => handleRecordMileage publisher c claims id body
  end.
Proof using R0.
  destruct r; try (by eapply veh_triple_keeps; (apply handleCreateVehicle_triple || apply handleRecordMileage_triple));
    unfold handleListVehicles, list_page, handleGetVehicle, handleGetPassport, handleListHistory, authenticated;
    repeat match goal with
      | |- keeps _ (from_option _ _) => apply keeps_reads, reads_option
      | |- keeps _ (app _) => apply keeps_reads, reads_sum
      | |- keeps _ (mret _) => apply keeps_reads, reads_ret
      | |- keeps _ (let '(_, _) := ?p in _) => destruct p
      | |- keeps _ (match ?o with _ => _ end) => destruct o
      | |- keeps _ (_ ≫= _) => apply keeps_bind; [|intros ?]
      end.
  - apply veh_reads_keeps. intros d Ok. by rewrite ListVehicles_eq.
  - apply keeps_wrap, veh_reads_keeps. intros d Ok. by rewrite GetVehicle_eq.
  - apply keeps_wrap, veh_reads_keeps. intros d Ok. by rewrite GetPassport_eq.
  - apply veh_reads_keeps. intros d Ok. by rewrite ListHistory_eq.
Qed.

Lemma vehicle_route_governed quote c r :
  governed sound (λ claims, ∃ cl, claims = Some cl ∧ True) (vehicle_route publisher quote c r).
Proof using R0. apply governed_authenticated, governed_any. intros claims. apply vehicle_handler_keeps. Qed.

End From.

End Web.

(** * A concrete registry

    Two vehicles of a tenant and a private one are registered, a reading is recorded,
    another overtakes a lower one. The properties of the vehicles domain are
    instantiated here. *)

(** ** The parameters *)

Definition ascii_upper_case : UpperMapping.
Proof. by refine {| ToUpper := upper |}. Defined.

Definition vehicle_ids : UuidText := letter_uuid 118.

#[local] Existing Instances pgx insertion_order ascii_upper_case vehicle_ids.

Definition quoted (c : ascii) : string := "'" +:+ String c "'".

Definition at_time (seconds : Z) (first : N) : Ctx :=
  mkCtx (seconds * second) "req" (λ k, first + N.of_nat k)%N.

Definition owner : uuid := 7%N.
Definition fleet : uuid := 3%N.
Definition owner_claims : Claims := mkClaims "v7" "" "CUSTOMER" "" 0 0.
Definition fleet_claims : Claims := mkClaims "v8" "v3" "FLEET_MANAGER" "" 0 0.

(** ** The run *)

Definition private_car : createVehicleRequest :=
  mkCreateVehicleRequest "1m8-gdm9a xkp042788" " Toyota " "Hilux" 2015 "KAA 001A" "white".
Definition truck (n : Z) (vin : string) : createVehicleRequest :=
  mkCreateVehicleRequest vin "Isuzu" "FRR" n "" "".

Definition w0 : veh_world := mkVehWorld empty_veh_db [].
Definition w1 : veh_world :=
  (handleCreateVehicle None quoted (at_time 1000 100) (Some owner_claims) (inr private_car) w0).2.
Definition w2 : veh_world :=
  (handleCreateVehicle None quoted (at_time 1010 200) (Some fleet_claims)
     (inr (truck 2019 "11111111111111111")) w1).2.
Definition w3 : veh_world :=
  (handleCreateVehicle None quoted (at_time 1020 300) (Some fleet_claims)
     (inr (truck 2020 "5GZCZ43D13S812715")) w2).2.

Definition car : uuid := 100%N.
Definition fleet_scope : VehicleScope := mkVehicleScope (Some fleet) None false.

Example car_registered :
  (λ v, (v_VIN v, v_Make v, v_TenantID v, v_OwnerUserID v)) <$> vehicles (vw_db w3) !! car =
  Some ("1M8GDM9AXKP042788", "Toyota", None, owner).
Proof. vm_compute. reflexivity. Qed.

Example fleet_registered : bool_decide ((map_to_list (vehicles (vw_db w3))).*1 ≡ₚ [100; 200; 300]%N) = true.
Proof. vm_compute. reflexivity. Qed.

Lemma handleCreateVehicle_steps quote c claims body w : veh_ok (vw_db w) →
  rtc veh_step (vw_db w) (vw_db (handleCreateVehicle None quote c claims body w).2).
Proof.
  intros Ok. exact (triple_steps vw_db veh_ok veh_step _ _ _ w
    (handleCreateVehicle_triple None quote c claims body) Ok I).
Qed.

Lemma w_reachable : rtc veh_step empty_veh_db (vw_db w1) ∧ rtc veh_step empty_veh_db (vw_db w3).
Proof.
  pose proof (handleCreateVehicle_steps quoted (at_time 1000 100) (Some owner_claims)
    (inr private_car) w0 empty_veh_ok) as S1. fold w1 in S1.
  pose proof (veh_steps_ok _ _ empty_veh_ok S1) as Ok1.
  pose proof (handleCreateVehicle_steps quoted (at_time 1010 200) (Some fleet_claims)
    (inr (truck 2019 "11111111111111111")) w1 Ok1) as S2. fold w2 in S2.
  pose proof (veh_steps_ok _ _ Ok1 S2) as Ok2.
  pose proof (handleCreateVehicle_steps quoted (at_time 1020 300) (Some fleet_claims)
    (inr (truck 2020 "5GZCZ43D13S812715")) w2 Ok2) as S3. fold w3 in S3.
  split; [exact S1|]. etrans; [exact S1|]. by etrans.
Qed.

Lemma w3_ok : veh_ok (vw_db w3).
Proof. exact (veh_steps_ok _ _ empty_veh_ok (proj2 w_reachable)). Qed.


(** ** Witnesses *)

Lemma ValidateVIN_canonical_witness :
  ascii_only "1m8-gdm9a xkp042788" = true ∧
  ValidateVIN "1m8-gdm9a xkp042788" = inr "1M8GDM9AXKP042788".
Proof.
  split; [reflexivity|].
  apply (proj2 (ValidateVIN_canonical "1m8-gdm9a xkp042788" "1M8GDM9AXKP042788") eq_refl).
  split; [reflexivity|split; [split; reflexivity|reflexivity]].
Defined.

Lemma single_error_detected_witness :
  ∃ want got, ValidateVIN (of_chars (<[0%nat := "2"%char]> (chars "1M8GDM9AXKP042788"))) =
    inl (VinMismatch want got).
Proof.
  apply (single_error_detected "1m8-gdm9a xkp042788" "1M8GDM9AXKP042788" 0 "1"%char "2"%char);
    [reflexivity..|]. vm_compute. discriminate.
Defined.

Lemma exchange_detected_witness :
  ∃ want got, ValidateVIN (of_chars (<[0%nat := "M"%char]> (<[1%nat := "1"%char]>
    (chars "1M8GDM9AXKP042788")))) = inl (VinMismatch want got).
Proof.
  apply (exchange_detected "1M8GDM9AXKP042788" "1M8GDM9AXKP042788" 0 1 "1"%char "M"%char 8 7);
    [reflexivity..|done|done|done|vm_compute; discriminate].
Defined.

Lemma vehicle_handlers_refine_steps_witness :
  rtc veh_step (vw_db w3) (vw_db (RecordMileage None (at_time 2000 400) car 1500 (Some owner)
    UnrestrictedScope w3).2).
Proof.
  exact (proj1 (proj2 (proj2 (vehicle_handlers_refine_steps None quoted (at_time 2000 400) None owner
    None car 1500 (Some owner) UnrestrictedScope
    (mkVehicle 0 None 0 "" "" "" 0 "" "" 0 0 0) None "" (inl bad_cursor) (inl bad_cursor) w3 w3_ok)))).
Defined.


(** A second registration of the car, written differently. *)
Definition again : Vehicle :=
  mkVehicle 0 None 9 "1M8GDM9AXKP042788" "Toyota" "Hilux" 2015 "" "" 0 0 0.

Lemma duplicate_vin_conflict_witness :
  RegisterVehicle None quoted (at_time 3000 500) (Some again) 9 w3 =
  (inl (VehApp (ErrConflict "a vehicle with this VIN is already registered")), w3).
Proof.
  destruct (vehicles (vw_db w3) !! car) as [v|] eqn:L; [|vm_compute in L; discriminate].
  apply (duplicate_vin_conflict None quoted (at_time 3000 500) again 9 "1M8GDM9AXKP042788" car v);
    [reflexivity|exact L| |repeat split; vm_compute; discriminate].
  pose proof (f_equal (fmap v_VIN) L) as E. vm_compute in E. by injection E.
Defined.

Lemma RecordMileage_monotone_witness :
  let '(r, w') := RecordMileage None (at_time 2000 400) car 1500 (Some owner) UnrestrictedScope w3 in
  r = inr tt ∧ ∃ v, vehicles (vw_db w') !! car = Some v ∧ v_MileageLatestKm v = 1500.
Proof.
  pose proof (RecordMileage_monotone None (at_time 2000 400) car 1500 (Some owner) UnrestrictedScope w3 w3_ok) as P.
  assert ((RecordMileage None (at_time 2000 400) car 1500 (Some owner) UnrestrictedScope w3).1 = inr tt) as E
    by (vm_compute; reflexivity).
  destruct (RecordMileage None (at_time 2000 400) car 1500 (Some owner) UnrestrictedScope w3) as [r w'].
  cbn [fst] in E. split; [exact E|]. destruct P as (_ & P & _). exact (P E).
Defined.

Lemma fresh_at seconds first km : bool_decide (first ∈ [102; 202; 302]%N) = false →
  fresh_row (mileage_event (ctx_now (at_time seconds first)) (ctx_now (at_time seconds first))
    (ctx_fresh (at_time seconds first) 0) car km) (vw_db w3).
Proof.
  intros N%bool_decide_eq_false. unfold fresh_row. cbn [h_ID mileage_event at_time ctx_fresh].
  assert (h_ID <$> vehicle_service_history (vw_db w3) = [102; 202; 302]%N) as -> by (vm_compute; reflexivity).
  by rewrite N.add_0_r.
Qed.

Lemma overlapping_readings_decrease_witness :
  ∃ v, vehicles (vw_db w3) !! car = Some v ∧
  let w4 := (RecordMileage None (at_time 2001 500) car 1600 (Some owner) UnrestrictedScope w3).2 in
  let w5 := (mileage_commit None (at_time 2000 400) car 1500 (Some owner) v w4).2 in
  ∃ v5, vehicles (vw_db w5) !! car = Some v5 ∧ v_MileageLatestKm v5 = 1500.
Proof.
  destruct (vehicles (vw_db w3) !! car) as [v|] eqn:L; [|vm_compute in L; discriminate].
  exists v. split; [done|]. cbv zeta.
  assert (v_MileageLatestKm v = 0) as M.
  { pose proof (f_equal (fmap v_MileageLatestKm) L) as E. vm_compute in E. by injection E. }
  assert (ctx_fresh (at_time 2000 400) 0 ≠ ctx_fresh (at_time 2001 500) 0) as Ne by (vm_compute; discriminate).
  assert (0 <= v_MileageLatestKm v <= 1500) as B by (rewrite M; lia).
  pose proof (overlapping_readings_decrease None (at_time 2000 400) (at_time 2001 500) car 1500 1600
    (Some owner) (Some owner) UnrestrictedScope v w3 w3_ok L eq_refl B ltac:(lia)
    (fresh_at 2001 500 1600 eq_refl)
    (fresh_at 2000 400 1500 eq_refl) Ne) as P.
  destruct (mileage_guard car 1500 UnrestrictedScope w3) as [r wg]. exact (proj1 (proj2 (proj2 P))).
Defined.

Lemma vehicle_reads_exact_witness :
  p_ServiceEventCount <$> match (Veh_Passport car (mkVehicleScope None (Some owner) false) w3).1 with
                          | inr p => Some p | inl _ => None end = Some 1 ∧
  (Veh_GetVehicle car fleet_scope w3).1 = inl vehicle_not_found.
Proof.
  split; [vm_compute; reflexivity|].
  rewrite (proj1 (vehicle_reads_exact car fleet_scope 0 0 w3 w3_ok)).
  vm_compute. reflexivity.
Defined.

Lemma fleet_rows : Forall (λ v, four_digit_year (v_CreatedAt v) = true ∧ v_ID v ≠ uuid_nil)
  (visible_vehicles fleet_scope (vw_db w3)).
Proof.
  assert (forallb (λ v, four_digit_year (v_CreatedAt v) && negb (v_ID v =? 0)%N)
    (visible_vehicles fleet_scope (vw_db w3)) = true) as F by (vm_compute; reflexivity).
  rewrite forallb_forall in F. apply list.Forall_forall. intros v I%list_elem_of_In.
  apply F in I. apply andb_true_iff in I as [Y N]. apply negb_true_iff, N.eqb_neq in N. by split.
Qed.

Lemma listing_complete_witness :
  v_ID <$> default [] (follow 3 fleet_claims "1" "" w3) = [300; 200]%N.
Proof.
  assert (v_ID <$> visible_vehicles fleet_scope (vw_db w3) = [300; 200]%N) as E
    by (vm_compute; reflexivity).
  assert (length (visible_vehicles fleet_scope (vw_db w3)) < 3)%nat as Len
    by (apply Nat.ltb_lt; vm_compute; reflexivity).
  assert (scopeFromClaims fleet_claims = inr fleet_scope) as Sc by (vm_compute; reflexivity).
  assert (listVehiclesPagination "1" "" = inr (1, None)) as Lm by (vm_compute; reflexivity).
  destruct (listing_complete fleet_claims "1" fleet_scope 1 3 w3 w3_ok Sc Lm fleet_rows Len) as [F _].
  rewrite F. exact E.
Defined.

Lemma vehicle_reads_blind_witness :
  (serve veh_app (handleListVehicles (Some owner_claims) "" "") w1).1 =
  (serve veh_app (handleListVehicles (Some owner_claims) "" "") w3).1.
Proof.
  assert (scopeFromClaims owner_claims = inr (mkVehicleScope None (Some owner) false)) as Sc
    by (vm_compute; reflexivity).
  assert (alike (mkVehicleScope None (Some owner) false) (vw_db w1) (vw_db w3)) as A.
  2:{ destruct (vehicle_reads_blind owner_claims (mkVehicleScope None (Some owner) false)
        "v100" "" "" "" w1 w3 (veh_steps_ok _ _ empty_veh_ok (proj1 w_reachable))
        w3_ok Sc A) as (_ & _ & _ & P). exact P. }
  split.
  - intros id v Se. split; intros L.
    + assert (bool_decide (map_Forall (λ id v, vehicles (vw_db w3) !! id = Some v)
        (vehicles (vw_db w1))) = true) as F by (vm_compute; reflexivity).
      apply bool_decide_eq_true in F. exact (F id v L).
    + assert (bool_decide (map_Forall (λ id v, sees_vehicle (mkVehicleScope None (Some owner) false) v = false ∨
        vehicles (vw_db w1) !! id = Some v) (vehicles (vw_db w3))) = true) as F by (vm_compute; reflexivity).
      apply bool_decide_eq_true in F. destruct (F id v L) as [N|Y]; [congruence|exact Y].
  - intros id v Se L.
    assert (bool_decide (map_Forall (λ id _, history_of id (vw_db w1) = history_of id (vw_db w3))
      (vehicles (vw_db w1))) = true) as F by (vm_compute; reflexivity).
    apply bool_decide_eq_true in F. exact (F id v L).
Defined.

Lemma mileage_needs_owner_witness :
  let '(resp, w') := serve veh_app (handleRecordMileage None (at_time 2000 400) (Some fleet_claims) "v100"
    (inr (mkMileageRequest (Some 1500)))) w3 in
  rs_Status resp = 404 ∧ (vw_db w' = vw_db w3 ∨ is_admin fleet_claims = true).
Proof.
  pose proof (mileage_needs_owner None (at_time 2000 400) (Some fleet_claims) "v100"
    (inr (mkMileageRequest (Some 1500))) w3 w3_ok) as P.
  assert (rs_Status (serve veh_app (handleRecordMileage None (at_time 2000 400) (Some fleet_claims) "v100"
    (inr (mkMileageRequest (Some 1500)))) w3).1 = 404) as E by (vm_compute; reflexivity).
  destruct (serve veh_app _ w3) as [resp w']. cbn [fst] in E. split; [exact E|].
  destruct P as [P|(cl & id & scope & km & v & Cl & Id & Sc & Bd & L & Se & _)]; [by left|]. exfalso.
  assert (cl = fleet_claims) as -> by congruence.
  assert (scopeFromClaims fleet_claims = inr fleet_scope) as Sc' by (vm_compute; reflexivity).
  assert (vehicleIDFromRequest "v100" = inr car) as Id' by (vm_compute; reflexivity).
  assert (scope = fleet_scope) as -> by congruence. assert (id = car) as -> by congruence.
  pose proof (f_equal (fmap (sees_vehicle fleet_scope)) L) as Q.
  cbn [fmap option_fmap option_map] in Q. rewrite Se in Q. vm_compute in Q. discriminate.
Defined.
