(* ===== verification/RateLimit.v ===== *)
(** * RateLimit: the two limiters ([backend/platform/ratelimit.go], [ratelimit_redis.go])

    The in-process limiter counts in windows that begin with the first request of a
    key; the other keeps the instants of the last minute in Redis. Instants are
    nanoseconds, those of the script milliseconds; clocks do not run backwards. *)

From Stdlib Require Import Ascii.
From S2P Require Import Prelude Text Platform Wire Http.

Open Scope Z_scope.

(** ** The fixed window *)

Record rateBucket := mkRateBucket { rb_count : Z; rb_starts : time }.

Record RateLimiter := mkRateLimiter {
  rl_rpm : Z;
  rl_buckets : gmap string rateBucket;
  rl_window : Z;
}.

Definition NewRateLimiter (rpm : Z) : RateLimiter := mkRateLimiter rpm ∅ minute.

(** The window has not passed: [now.Sub(b.starts) < l.window]. *)
Definition live (window now : Z) (b : rateBucket) : bool := now - rb_starts b <? window.

(** The bucket a request at [now] counts in. *)
Definition bucket_at (window now : Z) (b : option rateBucket) : rateBucket :=
  match b with
  | Some b => if live window now b then b else mkRateBucket 0 now
  | None => mkRateBucket 0 now
  end.

Definition sweep (l : RateLimiter) (now : time) : gmap string rateBucket :=
  if 4 * rl_rpm l + 1024 <? Z.of_nat (size (rl_buckets l))
  then filter (λ kb, live (rl_window l) now kb.2 = true) (rl_buckets l) else rl_buckets l.

Definition with_buckets (l : RateLimiter) (m : gmap string rateBucket) : RateLimiter :=
  mkRateLimiter (rl_rpm l) m (rl_window l).

(** The counter is incremented through the pointer, in the map if it is still there. *)
Definition Allow (l : RateLimiter) (key : string) (now : time) : bool * RateLimiter :=
  if rl_rpm l <=? 0 then (true, l)
  else
    let b := bucket_at (rl_window l) now (rl_buckets l !! key) in
    let l := with_buckets l (<[key := b]> (rl_buckets l)) in
    let l := with_buckets l (sweep l now) in
    if rl_rpm l <=? rb_count b then (false, l)
    else (true, with_buckets l
                  (alter (λ b, mkRateBucket (rb_count b + 1) (rb_starts b)) key (rl_buckets l))).

(** The bucket that began last, of whatever key; [clock] is [time.Now]. *)
Definition latest_start (l : RateLimiter) : time :=
  map_fold (λ _ b latest, if latest <? rb_starts b then rb_starts b else latest) zero_time (rl_buckets l).

Definition RetryAfter (l : RateLimiter) (clock : time) : Z :=
  if rl_rpm l <=? 0 then 0
  else
    let latest := latest_start l in
    if is_zero latest then rl_window l
    else
      let d := latest + rl_window l - clock in
      if 0 <? d then d else second.

(** The refusal: the value of the Retry-After header and the response. *)
Definition too_many (retry : Z) : string * Response :=
  let retry := seconds_text (round_seconds retry) in
  (retry, mkResponse 429 "application/problem+json" (json_object (
     member "code" (json_string "rate_limited") ++ member "retry_after" (json_string retry) ++
     member "title" (json_string "Too many requests")))).

Definition Middleware {W} (key : string) (now clock : time) (next : W → Response * W)
    (l : RateLimiter) (w : W) : option string * Response * (RateLimiter * W) :=
  match Allow l key now with
  | (true, l) => let '(r, w) := next w in (None, r, (l, w))
  | (false, l) => let '(retry, r) := too_many (RetryAfter l clock) in (Some retry, r, (l, w))
  end.

Example retry_after_text : too_many (59 * second + 400000000) =
  ("59s", (too_many (59 * second)).2).
Proof. reflexivity. Qed.

(** ** Its specification

    Each key has a counter of its own; nothing is ever swept. *)
Fixpoint windowed (rpm window : Z) (b : option rateBucket) (times : list time) : list bool :=
  match times with
  | [] => []
  | t :: times =>
      let b := bucket_at window t b in
      if rb_count b <? rpm then true :: windowed rpm window (Some (mkRateBucket (rb_count b + 1) (rb_starts b))) times
      else false :: windowed rpm window (Some b) times
  end.

(** Requests, their keys and instants, in the order of the lock. *)
Fixpoint Allow_all (l : RateLimiter) (requests : list (string * time)) : list bool :=
  match requests with
  | [] => []
  | (key, now) :: requests => let '(ok, l) := Allow l key now in ok :: Allow_all l requests
  end.

Definition of_key {A} (key : string) (l : list (string * A)) : list A :=
  (List.filter (λ ka, String.eqb ka.1 key) l).*2.

Definition decisions_of (key : string) (requests : list (string * time)) (l : list bool) : list bool :=
  of_key key (zip requests.*1 l).

(** The instants do not decrease. *)
Definition ordered (requests : list (string * time)) : Prop := StronglySorted Z.le requests.*2.

Section Refinement.
Context (rpm window : Z) (rpm_pos : 0 < rpm) (window_pos : 0 < window).

(** What the map holds of a key whose counter is [b]: the counter, or nothing when its
    window has passed. *)
Definition agrees (now : time) (held b : option rateBucket) : Prop :=
  held = b ∨ held = None ∧ ∀ c, b = Some c → live window now c = false.

Lemma agrees_later now now' held b : now ≤ now' → agrees now held b → agrees now' held b.
Proof.
  intros L [A|[A B]]; [by left|right]. split; [done|]. intros c C. specialize (B c C).
  unfold live in *. lia.
Qed.

Lemma agrees_bucket now held b : agrees now held b → bucket_at window now held = bucket_at window now b.
Proof.
  intros [->|[-> B]]; [done|]. destruct b as [c|]; [|done]. cbn. by rewrite (B c eq_refl).
Qed.

Lemma bucket_live now b : live window now (bucket_at window now b) = true.
Proof.
  destruct b as [b|]; cbn; [destruct (live window now b) eqn:L; [done|]|]; unfold live; cbn; lia.
Qed.

Lemma sweep_agrees l now key b :
  rl_window l = window → agrees now (rl_buckets l !! key) b → agrees now (sweep l now !! key) b.
Proof.
  intros Wd A. unfold sweep. case_match; [|done]. rewrite map_lookup_filter, Wd.
  destruct (rl_buckets l !! key) as [c|] eqn:C; cbn; [|by destruct A as [<-|A]; [left|right]].
  destruct A as [<-|[A _]]; [|done].
  destruct (live window now c) eqn:L.
  - left. by rewrite option_guard_True.
  - right. rewrite option_guard_False by congruence. split; [done|]. congruence.
Qed.

(** The bucket a request counts in is not swept. *)
Lemma sweep_keeps l now key b :
  rl_window l = window → rl_buckets l !! key = Some b → live window now b = true →
  sweep l now !! key = Some b.
Proof.
  intros Wd B L. unfold sweep. case_match; [|done].
  apply map_lookup_filter_Some_2; [done|]. by rewrite Wd.
Qed.

Definition with_params (l : RateLimiter) : Prop := rl_rpm l = rpm ∧ rl_window l = window.

(** One request: the decision is that of the key's counter, every other key agrees as
    before. *)
Lemma Allow_step l key now b (P : with_params l) (A : agrees now (rl_buckets l !! key) b) :
  let c := bucket_at window now b in
  let b' := if rb_count c <? rpm then mkRateBucket (rb_count c + 1) (rb_starts c) else c in
  (Allow l key now).1 = (rb_count c <? rpm) ∧ with_params (Allow l key now).2 ∧
  rl_buckets (Allow l key now).2 !! key = Some b' ∧
  ∀ key' d, key' ≠ key → agrees now (rl_buckets l !! key') d →
    agrees now (rl_buckets (Allow l key now).2 !! key') d.
Proof.
  destruct P as [Pr Pw]. unfold Allow. rewrite Pr, Pw, (proj2 (Z.leb_gt rpm 0) rpm_pos), (agrees_bucket _ _ _ A).
  set (c := bucket_at window now b). set (l1 := with_buckets l _). cbn zeta.
  change (rl_rpm (with_buckets l1 (sweep l1 now))) with (rl_rpm l). rewrite Pr.
  assert (S : sweep l1 now !! key = Some c).
  { apply sweep_keeps; [done|apply lookup_insert_eq|apply bucket_live]. }
  assert (O : ∀ key' d, key' ≠ key → agrees now (rl_buckets l !! key') d → agrees now (sweep l1 now !! key') d).
  { intros key' d N A'. apply sweep_agrees; [done|]. unfold l1; cbn. by rewrite lookup_insert_ne. }
  destruct (Z.leb_spec rpm (rb_count c)) as [G|G].
  - rewrite (proj2 (Z.ltb_ge _ _) G). split_and!; [done|by split|done|done].
  - rewrite (proj2 (Z.ltb_lt _ _) G). split_and!; [done|by split| |]; cbn.
    + by rewrite lookup_alter_eq, S.
    + intros key' d N A'. rewrite lookup_alter_ne by done. by apply O.
Qed.

Lemma decisions_cons_eq key now requests ok l :
  decisions_of key ((key, now) :: requests) (ok :: l) = ok :: decisions_of key requests l.
Proof. unfold decisions_of, of_key. cbn. by rewrite String.eqb_refl. Qed.

Lemma decisions_cons_ne key key' now requests ok l : key' ≠ key →
  decisions_of key ((key', now) :: requests) (ok :: l) = decisions_of key requests l.
Proof. intros N. unfold decisions_of, of_key. cbn. by destruct (String.eqb_spec key' key). Qed.

Lemma of_key_cons {A} key key' (a : A) l :
  of_key key ((key', a) :: l) = if String.eqb key' key then a :: of_key key l else of_key key l.
Proof. unfold of_key. cbn. by case_match. Qed.

Lemma Allow_all_windowed requests : ∀ l key b now, with_params l →
  StronglySorted Z.le (now :: requests.*2) → agrees now (rl_buckets l !! key) b →
  decisions_of key requests (Allow_all l requests) = windowed rpm window b (of_key key requests).
Proof.
  induction requests as [|[key' t] requests IH]; intros l key b now P S A; [done|].
  cbn [fmap list_fmap fst snd] in S. apply StronglySorted_inv in S as [S L].
  apply Forall_inv in L. apply (agrees_later _ _ _ _ L) in A.
  cbn [Allow_all]. destruct (Allow l key' t) as [ok l'] eqn:Run.
  rewrite of_key_cons. destruct (String.eqb_spec key' key) as [->|N].
  - pose proof (Allow_step l key t b P A) as (D & P' & B & _). rewrite Run in D, P', B. cbn in D, P', B.
    rewrite decisions_cons_eq. cbn [windowed].
    destruct (rb_count (bucket_at window t b) <? rpm); subst ok; f_equal;
      (eapply IH; [done|exact S|by left]).
  - pose proof (Allow_step l key' t _ P (or_introl eq_refl)) as (_ & P' & _ & O).
    rewrite Run in P', O. rewrite decisions_cons_ne by done.
    apply (IH l' key b t P' S). by apply O.
Qed.

End Refinement.

Definition first_instant (requests : list (string * time)) : time := default 0 (head requests.*2).

Lemma from_first requests : ordered requests → StronglySorted Z.le (first_instant requests :: requests.*2).
Proof.
  unfold ordered, first_instant. intros O. destruct requests.*2 as [|t times]; [repeat constructor|].
  apply SSorted_cons; [done|]. apply StronglySorted_inv in O as [_ O]. by apply Forall_cons.
Qed.

(** The limiter decides each request as a counter of its key would: the sweep and the
    other keys are not observable. *)
Theorem Allow_refines_windowed rpm key requests (P : 0 < rpm) (O : ordered requests) :
  decisions_of key requests (Allow_all (NewRateLimiter rpm) requests) =
  windowed rpm minute None (of_key key requests).
Proof.
  apply (Allow_all_windowed rpm minute P eq_refl _ _ _ _ (first_instant requests));
    [by split|by apply from_first|by left].
Qed.

Definition eleven : list (string * time) :=
  [("a", 0); ("b", 1); ("a", 2); ("a", 3); ("b", 4); ("a", minute); ("b", minute); ("a", minute + 1); ("a", minute + 2)].

Theorem Allow_refines_windowed_witness :
  decisions_of "a" eleven (Allow_all (NewRateLimiter 2) eleven) = [true; true; false; true; true; false].
Proof.
  rewrite (Allow_refines_windowed 2 "a" eleven); [vm_compute; reflexivity|reflexivity|].
  unfold ordered, eleven. repeat (apply SSorted_cons || apply SSorted_nil || apply Forall_cons || apply Forall_nil); vm_compute; discriminate.
Defined.

(** ** How many requests of a key get through *)

Lemma ordered_of_key key requests : ordered requests → StronglySorted Z.le (of_key key requests).
Proof.
  unfold ordered. induction requests as [|[key' t] requests IH]; intros S; [constructor|].
  cbn [fmap list_fmap fst snd] in S. apply StronglySorted_inv in S as [S L]. rewrite of_key_cons.
  case_match; [|by apply IH]. apply SSorted_cons; [by apply IH|].
  apply list.Forall_forall. intros u U. apply list_elem_of_fmap in U as ([k v] & -> & U).
  apply list_elem_of_In, filter_In in U as [U _].
  apply (proj1 (list.Forall_forall _ _) L). apply list_elem_of_fmap. exists (k, v). by apply list_elem_of_In in U.
Qed.

(** The admitted instants. *)
Definition admitted_times (times : list time) (decisions : list bool) : list time :=
  (List.filter snd (zip times decisions)).*1.

(** How many of them are in the interval of one window from [t0]. *)
Definition within (t0 window : Z) (times : list time) : nat :=
  length (List.filter (λ t, (t0 <=? t) && (t <? t0 + window)) times).

Section FixedBound.
Context (rpm window t0 : Z) (rpm_pos : 0 < rpm) (window_pos : 0 < window).

Definition through (b : option rateBucket) (times : list time) : Z :=
  Z.of_nat (within t0 window (admitted_times times (windowed rpm window b times))).

Definition inside (t : Z) : Z := if (t0 <=? t) && (t <? t0 + window) then 1 else 0.

Lemma through_cons b t times :
  through b (t :: times) =
  let c := bucket_at window t b in
  if rb_count c <? rpm then inside t + through (Some (mkRateBucket (rb_count c + 1) (rb_starts c))) times
  else through (Some c) times.
Proof.
  unfold through, within, admitted_times, inside. cbn [windowed]. cbn zeta.
  destruct (rb_count (bucket_at window t b) <? rpm); cbn; [|done].
  destruct ((t0 <=? t) && (t <? t0 + window)); cbn; lia.
Qed.

Lemma sorted_tail (t : Z) times : StronglySorted Z.le (t :: times) → StronglySorted Z.le times ∧ Forall (Z.le t) times.
Proof. apply StronglySorted_inv. Qed.

Lemma through_after times : ∀ b, Forall (Z.le (t0 + window)) times → through b times = 0.
Proof.
  induction times as [|t times IH]; intros b A; [done|].
  rewrite through_cons. cbn zeta. pose proof (Forall_inv A). apply Forall_inv_tail in A.
  rewrite !IH by done. unfold inside. repeat case_match; lia.
Qed.

(** A bucket that began inside the interval lasts until its end. *)
Lemma through_inside times : ∀ b, StronglySorted Z.le times → Forall (Z.le t0) times →
  t0 ≤ rb_starts b → rb_count b ≤ rpm → through (Some b) times ≤ rpm - rb_count b.
Proof.
  induction times as [|t times IH]; intros b S Lt G C; [unfold through; cbn; lia|].
  rewrite through_cons. cbn zeta. cbn [bucket_at].
  apply sorted_tail in S as [S St]. apply Forall_inv_tail in Lt.
  unfold live. destruct (Z.ltb_spec (t - rb_starts b) window) as [L|L].
  - destruct (Z.ltb_spec (rb_count b) rpm) as [A|A]; [|by apply IH].
    specialize (IH (mkRateBucket (rb_count b + 1) (rb_starts b)) S Lt G). cbn in IH.
    unfold inside. case_match; lia.
  - cbn. assert (A : Forall (Z.le (t0 + window)) times).
    { eapply list.Forall_impl; [exact St|]. intros u Hu. cbn in Hu. lia. }
    rewrite !through_after by done. unfold inside. repeat case_match; lia.
Qed.

(** The bucket in which the interval begins and the one after it. *)
Lemma through_from times : ∀ b, StronglySorted Z.le times → Forall (Z.le t0) times →
  1 ≤ rb_count b ≤ rpm → through (Some b) times ≤ 2 * rpm - rb_count b.
Proof.
  induction times as [|t times IH]; intros b S Lt C; [unfold through; cbn; lia|].
  rewrite through_cons. cbn zeta. cbn [bucket_at].
  apply sorted_tail in S as [S St]. pose proof (Forall_inv Lt) as L0. apply Forall_inv_tail in Lt.
  unfold live. destruct (Z.ltb_spec (t - rb_starts b) window) as [L|L].
  - destruct (Z.ltb_spec (rb_count b) rpm) as [A|A]; [|by apply IH].
    specialize (IH (mkRateBucket (rb_count b + 1) (rb_starts b)) S Lt). cbn in IH.
    unfold inside. case_match; lia.
  - cbn [rb_count rb_starts]. rewrite (proj2 (Z.ltb_lt _ _) rpm_pos).
    pose proof (through_inside times (mkRateBucket (0 + 1) t) S Lt L0) as I. cbn in I.
    unfold inside. cbn. case_match; lia.
Qed.

Lemma through_bound times : ∀ b, StronglySorted Z.le times →
  (∀ c, b = Some c → 1 ≤ rb_count c ≤ rpm) → through b times ≤ 2 * rpm - 1.
Proof.
  induction times as [|t times IH]; intros b S C; [unfold through; cbn; lia|].
  destruct (Z.leb_spec t0 t) as [L0|L0].
  - assert (Lt : Forall (Z.le t0) (t :: times)).
    { apply Forall_cons; [done|]. eapply list.Forall_impl; [apply (sorted_tail _ _ S)|].
      intros u Hu. cbn in Hu. lia. }
    destruct b as [b|].
    + specialize (C b eq_refl). pose proof (through_from _ b S Lt C). lia.
    + rewrite through_cons. cbn. rewrite (proj2 (Z.ltb_lt _ _) rpm_pos).
      apply sorted_tail in S as [S _]. apply Forall_inv_tail in Lt.
      pose proof (through_inside times (mkRateBucket (0 + 1) t) S Lt L0) as I. cbn in I.
      unfold inside. case_match; lia.
  - apply sorted_tail in S as [S _]. rewrite through_cons. cbn zeta.
    assert (inside t = 0) as -> by (unfold inside; case_match; lia).
    assert (B : 0 ≤ rb_count (bucket_at window t b) ≤ rpm ∧
      (rb_count (bucket_at window t b) < rpm ∨ 1 ≤ rb_count (bucket_at window t b))).
    { destruct b as [b|]; cbn; [specialize (C b eq_refl); case_match; cbn; lia|lia]. }
    destruct (Z.ltb_spec (rb_count (bucket_at window t b)) rpm) as [A|A];
      apply IH; try done; intros c [= <-]; cbn; lia.
Qed.

End FixedBound.

(** A key gets fewer than twice the limit in any interval of one minute, wherever it
    begins; the limiter's own window is a minute from the first request of the key. *)
Theorem fixed_window_bound rpm key requests t0 (P : 0 < rpm) (O : ordered requests) :
  Z.of_nat (within t0 minute (admitted_times (of_key key requests)
    (decisions_of key requests (Allow_all (NewRateLimiter rpm) requests)))) ≤ 2 * rpm - 1.
Proof.
  rewrite (Allow_all_windowed rpm minute P eq_refl requests (NewRateLimiter rpm) key None
             (first_instant requests)); [|by split|by apply from_first|by left].
  apply (through_bound rpm minute t0 P); [|done]. by apply ordered_of_key.
Qed.

(** The bound is reached: around the end of a window a client gets 2 rpm - 1 requests
    through within 200 ms. *)
Definition burst : list (string * time) :=
  map (λ t, ("a", t)) [0; minute - 100000000; minute - 90000000; minute; minute + 1; minute + 2; minute + 3].

Theorem fixed_window_bound_witness :
  within (minute - 100000000) minute (admitted_times (of_key "a" burst)
    (decisions_of "a" burst (Allow_all (NewRateLimiter 3) burst))) = 5%nat ∧
  Z.of_nat (within (minute - 100000000) minute (admitted_times (of_key "a" burst)
    (decisions_of "a" burst (Allow_all (NewRateLimiter 3) burst)))) ≤ 2 * 3 - 1.
Proof.
  split; [vm_compute; reflexivity|]. apply fixed_window_bound; [reflexivity|].
  unfold ordered, burst. repeat (apply SSorted_cons || apply SSorted_nil || apply Forall_cons || apply Forall_nil); vm_compute; discriminate.
Defined.

(** ** Memory *)

(** After a request the map is small, or every bucket in it is in its window. *)
Theorem buckets_bounded l key now (P : 0 < rl_rpm l) :
  Z.of_nat (size (rl_buckets (Allow l key now).2)) ≤ 4 * rl_rpm l + 1024 ∨
  map_Forall (λ _ b, live (rl_window l) now b = true) (rl_buckets (Allow l key now).2).
Proof.
  unfold Allow. rewrite (proj2 (Z.leb_gt _ _) P). set (l1 := with_buckets l _).
  assert (B : Z.of_nat (size (sweep l1 now)) ≤ 4 * rl_rpm l + 1024 ∨
    map_Forall (λ _ b, live (rl_window l) now b = true) (sweep l1 now)).
  { unfold sweep. change (rl_rpm l1) with (rl_rpm l). case_match eqn:G; [right|left; lia].
    intros k b Hb. by apply map_lookup_filter_Some in Hb as [_ Hb]. }
  destruct (_ <=? _); cbn; [exact B|].
  destruct B as [B|B]; [left|right].
  - rewrite <-(size_dom (D := gset string)), dom_alter, (size_dom (D := gset string)). exact B.
  - intros k b Hb. apply lookup_alter_Some in Hb as [(-> & c & Hc & ->)|[_ Hb]]; [|by apply (B k)].
    exact (B _ _ Hc).
Qed.

(** ** The sliding window in Redis

    A sorted set of instants (ms) per key, with the instant at which Redis drops the
    key. The script runs atomically; its clock and the server's are one. *)

Definition redisWindow : Z := 60000.

Record rl_bucket := mkRlBucket { members : gmap string Z; expires : Z }.
Abbreviation redis_db := (gmap string rl_bucket) (only parsing).

(** [ZREMRANGEBYSCORE key -inf (now - window)] *)
Definition pruned (now window : Z) (b : option rl_bucket) : gmap string Z :=
  match b with
  | Some b => if expires b <=? now then ∅ else filter (λ ms, now - window < ms.2) (members b)
  | None => ∅
  end.

(** [ZRANGE key 0 0 WITHSCORES] *)
Definition lowest (m : gmap string Z) : option Z :=
  map_fold (λ _ s o, Some (match o with Some s' => Z.min s s' | None => s end)) None m.

(** [redisSlidingWindowLua]: whether the request is allowed, the hint and what is stored. *)
Definition sliding_window (now window limit : Z) (member : string) (b : option rl_bucket)
    : Z * Z * option rl_bucket :=
  let m := pruned now window b in
  if Z.of_nat (size m) <? limit then
    (1, 0, Some (mkRlBucket (<[member := now]> m) (now + window)))
  else
    let retry := match lowest m with
                 | Some oldest => if oldest + window - now <? 1 then 1 else oldest + window - now
                 | None => window
                 end in
    (0, retry, match b with Some b => Some (mkRlBucket m (expires b)) | None => None end).

Definition redis_key (key : string) : string := "motivra:rl:" +:+ key.

(** The script on the key's bucket; [up] is whether Redis answers. *)
Definition run_script (up : bool) (key : string) (nowMS limit : Z) (member : string)
    : M redis_db unit (Z * Z) := λ db,
  if up then
    let '(r, retry, b) := sliding_window nowMS redisWindow limit member (db !! redis_key key) in
    (inr (r, retry), match b with Some b => <[redis_key key := b]> db | None => db end)
  else (inl tt, db).

Definition UnixMilli (t : time) : Z := t / 1000000.

(** [suffix]: the sixteen digits of the eight random bytes. *)
Definition member_of (now : time) (suffix : string) : string := pretty now +:+ "-" +:+ suffix.

Definition Redis_Allow (up : bool) (rpm : Z) (key : string) (now : time) (suffix : string)
    : M redis_db unit bool :=
  if rpm <=? 0 then mret true
  else '(allowed, _) ← run_script up key (UnixMilli now) rpm (member_of now suffix);
       mret (Z.eqb allowed 1).

(** The probe is a run of the same script, which adds a member when the window has room. *)
Definition Redis_RetryAfter (up : bool) (rpm : Z) (key : string) (now : time) : M redis_db unit Z :=
  if rpm <=? 0 then mret 0
  else r ← try (run_script up key (UnixMilli now) rpm "probe");
       mret (match r with
             | inl _ => minute
             | inr (_, ms) => if ms <=? 0 then second else ms * 1000000
             end).

(** Errors fail open; [later] is the clock of the probe. *)
Definition Redis_Middleware {W} (up : bool) (rpm : Z) (key : string) (now later : time) (suffix : string)
    (next : W → Response * W) (db : redis_db) (w : W) : option string * Response * (redis_db * W) :=
  match Redis_Allow up rpm key now suffix db with
  | (inr false, db) =>
      let '(retry, db) := Redis_RetryAfter up rpm key later db in
      let '(retry, r) := too_many (match retry with inr d => d | inl _ => minute end) in
      (Some retry, r, (db, w))
  | (_, db) => let '(r, w) := next w in (None, r, (db, w))
  end.

(** *** The bound *)

(** Runs of the script on one key, of requests ([Some] member) and probes. *)
Fixpoint slides (limit : Z) (b : option rl_bucket) (runs : list (Z * option string))
    : list (string * Z) * option rl_bucket :=
  match runs with
  | [] => ([], b)
  | (now, request) :: runs =>
      let '(r, _, b) := sliding_window now redisWindow limit (default "probe" request) b in
      let '(l, b) := slides limit b runs in
      (match request with Some m => if Z.eqb r 1 then (m, now) :: l else l | None => l end, b)
  end.

(** The admitted requests of the window that ends at [t]. *)
Definition in_window (t : Z) (l : list (string * Z)) : list (string * Z) :=
  List.filter (λ ms, (t - redisWindow <? ms.2) && (ms.2 <=? t)) l.

Section Sliding.
Context (limit : Z).

Definition held (b : option rl_bucket) (m : string) (s : Z) : Prop :=
  ∃ c, b = Some c ∧ members c !! m = Some s ∧ s + redisWindow ≤ expires c.

Record slid (now : Z) (past : list (string * Z)) (b : option rl_bucket) : Prop := {
  slid_past : ∀ m s, (m, s) ∈ past → s ≤ now;
  slid_held : ∀ m s, (m, s) ∈ past → now - redisWindow < s → held b m s;
  slid_fresh : NoDup past.*1;
  slid_bound : ∀ t, Z.of_nat (length (in_window t past)) ≤ limit;
}.

Lemma held_pruned now b m s : held b m s → now - redisWindow < s →
  pruned now redisWindow b !! m = Some s.
Proof.
  intros (c & -> & M & E) L. cbn. rewrite (proj2 (Z.leb_gt _ _)) by lia.
  by apply map_lookup_filter_Some_2.
Qed.

Lemma length_le_size (l : list string) (m : gmap string Z) :
  NoDup l → (∀ x, x ∈ l → is_Some (m !! x)) → (length l ≤ size m)%nat.
Proof.
  intros N S. rewrite <-(size_list_to_set (C := gset string) l N), <-(size_dom (D := gset string)).
  apply subseteq_size. intros x X. apply elem_of_list_to_set in X. by apply elem_of_dom, S.
Qed.

Lemma in_window_app t l l' : in_window t (l ++ l') = in_window t l ++ in_window t l'.
Proof. apply List.filter_app. Qed.

Lemma in_window_NoDup t l : NoDup l.*1 → NoDup (in_window t l).*1.
Proof.
  induction l as [|[m s] l IH]; cbn; [done|]. intros N. apply list.NoDup_cons in N as [N D].
  case_match; [|by apply IH]. cbn. apply list.NoDup_cons. split; [|by apply IH].
  intros X. apply N. apply list_elem_of_fmap in X as (y & -> & Y).
  apply list_elem_of_In, filter_In in Y as [Y _]. apply list_elem_of_fmap. exists y. by apply list_elem_of_In in Y.
Qed.

(** The window that ends now or later is stored. *)
Lemma slid_size now now' past b t : slid now past b → now ≤ now' → now' ≤ t →
  Z.of_nat (length (in_window t past)) ≤ Z.of_nat (size (pruned now' redisWindow b)).
Proof.
  intros I L T. apply Nat2Z.inj_le. rewrite <-(length_map fst). apply length_le_size.
  - apply in_window_NoDup, I.
  - intros x X. apply list_elem_of_fmap in X as ([m s] & -> & X).
    apply list_elem_of_In, filter_In in X as [X C]. cbn in C. apply list_elem_of_In in X.
    exists s. apply held_pruned; [|lia]. eapply slid_held; [done..|lia].
Qed.

(** What is held stays, whatever other member the run adds. *)
Lemma slides_held now m member b s : held b m s → now - redisWindow < s → m ≠ member → s ≤ now →
  held (sliding_window now redisWindow limit member b).2 m s.
Proof.
  intros Hd L N Le. pose proof (held_pruned now b m s Hd L) as P. unfold sliding_window.
  case_match; cbn [snd].
  - eexists. split; [done|]. cbn. rewrite lookup_insert_ne by done. split; [done|lia].
  - destruct Hd as (c & -> & M & E). eexists. split; [done|]. by split.
Qed.

Lemma slid_step now now' past b request : slid now past b → now ≤ now' →
  default "probe" request ∉ past.*1 →
  let out := sliding_window now' redisWindow limit (default "probe" request) b in
  slid now' (past ++ match request with
                     | Some m => if Z.eqb out.1.1 1 then [(m, now')] else []
                     | None => [] end) out.2.
Proof.
  intros I L N. cbn zeta. set (member := default "probe" request) in *.
  set (new := match request with Some m => _ | None => [] end).
  assert (W : new = [] ∨ new = [(member, now')] ∧
    Z.of_nat (size (pruned now' redisWindow b)) < limit ∧
    (sliding_window now' redisWindow limit member b).2 =
      Some (mkRlBucket (<[member := now']> (pruned now' redisWindow b)) (now' + redisWindow))).
  { unfold new, member in *. destruct request as [m|]; [|by left]. cbn [default].
    unfold sliding_window. destruct (Z.ltb_spec (Z.of_nat (size (pruned now' redisWindow b))) limit);
      [right|left]; done. }
  assert (X : ∀ m s, (m, s) ∈ past ++ new → (m, s) ∈ past ∨ m = member ∧ s = now' ∧ new = [(member, now')]).
  { intros m s E. apply elem_of_app in E as [E|E]; [by left|right].
    destruct W as [->|(-> & _)]; [by apply not_elem_of_nil in E|].
    apply list_elem_of_singleton in E as [= -> ->]. done. }
  split.
  - intros m s E. destruct (X m s E) as [P|(_ & -> & _)]; [|done]. pose proof (slid_past _ _ _ I _ _ P). lia.
  - intros m s E R. destruct (X m s E) as [P|(-> & -> & Q)].
    + pose proof (slid_past _ _ _ I _ _ P). apply slides_held; [|done| |lia].
      * eapply slid_held; [done..|lia].
      * intros ->. apply N. apply list_elem_of_fmap. by exists (member, s).
    + destruct W as [W|(_ & _ & ->)]; [congruence|]. eexists. split; [done|]. cbn.
      by rewrite lookup_insert_eq.
  - destruct W as [->|(-> & _)]; [rewrite app_nil_r; apply I|]. rewrite list.fmap_app.
    apply list.NoDup_app. split_and!; [apply I| |apply NoDup_singleton].
    cbn. intros x P Q. apply list_elem_of_singleton in Q as ->. done.
  - intros t. rewrite in_window_app, length_app. pose proof (slid_bound _ _ _ I t) as Bd.
    destruct W as [->|(-> & S & _)]; [cbn; lia|].
    destruct (Z.leb_spec now' t) as [T|T].
    + pose proof (slid_size _ _ _ _ t I L T). cbn. case_match; cbn; lia.
    + cbn. rewrite (proj2 (Z.leb_gt now' t)) by done. rewrite andb_false_r. cbn. lia.
Qed.

Definition requests_of (runs : list (Z * option string)) : list string := omap snd runs.

Lemma slides_slid runs : ∀ now past b, slid now past b → StronglySorted Z.le (now :: runs.*1) →
  NoDup (past.*1 ++ requests_of runs) → "probe" ∉ past.*1 ++ requests_of runs →
  ∀ t, Z.of_nat (length (in_window t (past ++ (slides limit b runs).1))) ≤ limit.
Proof.
  induction runs as [|[now' request] runs IH]; intros now past b I S N P t.
  { rewrite app_nil_r. apply I. }
  cbn [fmap list_fmap fst] in S. apply StronglySorted_inv in S as [S L]. apply Forall_inv in L.
  pose proof (slid_step now now' past b request I L) as I'.
  assert (F : default "probe" request ∉ past.*1).
  { intros E. destruct request as [m|]; cbn in E, N.
    - apply list.NoDup_app in N as (_ & N & _). apply (N m E). by apply list_elem_of_here.
    - apply P, elem_of_app. by left. }
  specialize (I' F). cbn zeta in I'. cbn [slides].
  destruct (sliding_window now' redisWindow limit (default "probe" request) b) as [[r retry] b'] eqn:Run.
  cbn [fst snd] in I'. set (new := match request with Some m => _ | None => [] end) in I'.
  assert (Q : (past ++ new).*1 ++ requests_of runs ≡ₚ past.*1 ++ requests_of ((now', request) :: runs) ∨
              (past ++ new).*1 ++ requests_of runs = past.*1 ++ requests_of runs).
  { unfold new. destruct request as [m|]; [|right; by rewrite app_nil_r].
    destruct (Z.eqb r 1); [left|right; by rewrite app_nil_r].
    rewrite list.fmap_app, <-app_assoc. done. }
  assert (Sub : ∀ x, x ∈ past.*1 ++ requests_of runs → x ∈ past.*1 ++ requests_of ((now', request) :: runs)).
  { intros x X. apply elem_of_app in X as [X|X]; apply elem_of_app; [by left|right].
    destruct request; cbn; [by apply list_elem_of_further|done]. }
  specialize (IH now' (past ++ new) b' I' S). destruct (slides limit b' runs) as [l b'']. cbn [fst] in *.
  assert (A : past ++ (match request with Some m => if Z.eqb r 1 then (m, now') :: l else l | None => l end) =
    (past ++ new) ++ l).
  { rewrite <-app_assoc. unfold new. destruct request; [|done]. by destruct (Z.eqb r 1). }
  rewrite A. apply IH; destruct Q as [Q| ->].
  - by rewrite Q.
  - destruct request as [m|]; [|done]. apply list.NoDup_app in N as (N1 & N2 & N3).
    apply list.NoDup_cons in N3 as [N3 N4]. apply list.NoDup_app. split_and!; [done| |done].
    intros x X Y. apply (N2 x X). by apply list_elem_of_further.
  - by rewrite Q.
  - intros E. by apply P, Sub.
Qed.

End Sliding.

(** In any window of a minute, wherever it ends, Redis admits at most the limit: the
    other limiter's bound is almost twice that. Probes for the hint between the requests
    do not matter. *)
Theorem sliding_window_bound limit runs t (P : 0 ≤ limit) (O : StronglySorted Z.le runs.*1)
    (N : NoDup (requests_of runs)) (Q : "probe" ∉ requests_of runs) :
  Z.of_nat (length (in_window t (slides limit None runs).1)) ≤ limit.
Proof.
  apply (slides_slid limit runs (default 0 (head runs.*1)) [] None); [| |done..].
  - split; [intros m s E|intros m s E|constructor|intros u; cbn; lia]; by apply not_elem_of_nil in E.
  - destruct runs.*1 as [|s l]; [repeat constructor|]. apply SSorted_cons; [done|].
    apply StronglySorted_inv in O as [_ O]. by apply Forall_cons.
Qed.

(** A member is never the probe's. *)
Lemma member_not_probe now suffix : member_of now suffix ≠ "probe".
Proof.
  unfold member_of. intros E. assert (X : "-"%char ∈ chars "probe").
  { rewrite <-E, !chars_app. apply elem_of_app. right. apply elem_of_app. left. by apply list_elem_of_here. }
  by apply (bool_decide_eq_true_2 _) in X.
Qed.

(** The refused requests of [burst] are admitted only once the window has moved. *)
Definition slid_burst : list (Z * option string) :=
  [(0, Some "a"); (59900, Some "b"); (59910, Some "c"); (59920, Some "d"); (59920, None);
   (60000, Some "e"); (60001, Some "f")].

Theorem sliding_window_bound_witness :
  (slides 3 None slid_burst).1 = [("a", 0); ("b", 59900); ("c", 59910); ("e", 60000)] ∧
  Z.of_nat (length (in_window 60001 (slides 3 None slid_burst).1)) ≤ 3.
Proof.
  split; [vm_compute; reflexivity|]. apply sliding_window_bound; [discriminate| | |].
  - unfold slid_burst. repeat (apply SSorted_cons || apply SSorted_nil || apply Forall_cons || apply Forall_nil); vm_compute; discriminate.
  - refine (bool_decide_eq_true_1 _ _); vm_compute; reflexivity.
  - refine (bool_decide_eq_true_1 _ _); vm_compute; reflexivity.
Defined.
