(* ===== verification/Jwks.v ===== *)
(** * Jwks: the public keys of the issuer ([backend/platform/jwks.go])

    The keys as they are advertised, their round trip, and the cache of a verifying
    service. Fetching is what the endpoint answered, [None] for anything that is not a
    document; the text of an error is not modelled, nor is [sanitizeJWKSLogURL]. *)

From Stdlib Require Import Ascii.
From S2P Require Import Prelude Text Base64.

Open Scope Z_scope.

(** ** Keys *)

(** The dynamic type of a [crypto.PublicKey]. *)
Inductive PublicKey :=
  | Ed25519 (bytes : list N)
  | RSA (n : N) (e : Z)
  | OtherKey.

#[export] Instance PublicKey_eq_dec : EqDecision PublicKey.
Proof. solve_decision. Defined.

Definition AlgorithmEdDSA : string := "EdDSA".
Definition AlgorithmRS256 : string := "RS256".
Definition AlgorithmHS256 : string := "HS256".

Definition algMatchesKey (alg : string) (key : PublicKey) : bool :=
  match key with
  | Ed25519 _ => String.eqb alg AlgorithmEdDSA
  | RSA _ _ => String.eqb alg AlgorithmRS256
  | OtherKey => false
  end.

Record JWK := mkJWK {
  Kty : string; Kid : string; Alg : string; Use : string;
  Crv : string; jwk_X : string; jwk_N : string; jwk_E : string;
}.

(** [big.Int.Bytes] and [SetBytes]: big-endian, without leading zeros. *)
Fixpoint big_bytes_go (fuel : nat) (n : N) (acc : list N) : list N :=
  match fuel with
  | O => acc
  | S fuel => if (n =? 0)%N then acc else big_bytes_go fuel (n / 256)%N ((n mod 256)%N :: acc)
  end.
Definition big_bytes (n : N) : list N := big_bytes_go (N.to_nat (N.size n)) n [].
Definition of_bytes (l : list N) : N := foldl (λ acc b, acc * 256 + b)%N 0%N l.

Definition bigIntBase64URL (n : N) : string := EncodeToString RawURLEncoding (big_bytes n).

Definition publicKeyToJWK (pub : PublicKey) (kid alg : string) : JWK :=
  match pub with
  | Ed25519 k => mkJWK "OKP" kid alg "sig" "Ed25519" (EncodeToString RawURLEncoding k) "" ""
  | RSA n e => mkJWK "RSA" kid alg "sig" "" "" (bigIntBase64URL n) (bigIntBase64URL (Z.abs_N e))
  | OtherKey => mkJWK "" "" "" "" "" "" "" ""
  end.

Definition exponent (e : list N) : Z := foldl (λ exp b, Z.lor (Z.shiftl exp 8) (Z.of_N b)) 0 e.

Definition jwkToPublicKey (j : JWK) : option PublicKey :=
  if String.eqb (Kty j) "OKP" then
    if negb (String.eqb (Crv j) "Ed25519") then None
    else raw ← DecodeString RawURLEncoding (jwk_X j);
         if bool_decide (length raw = 32%nat) then Some (Ed25519 raw) else None
  else if String.eqb (Kty j) "RSA" then
    n ← DecodeString RawURLEncoding (jwk_N j);
    if bool_decide (length n = 0%nat) then None
    else
      e ← DecodeString RawURLEncoding (jwk_E j);
      if bool_decide (length e = 0%nat) || bool_decide (4 < length e)%nat then None
      else Some (RSA (of_bytes n) (exponent e))
  else None.

(** *** The round trip *)

Lemma big_bytes_go_spec fuel : ∀ n acc, (n < 2 ^ N.of_nat fuel)%N →
  ∃ l, big_bytes_go fuel n acc = l ++ acc ∧ is_bytes l ∧ of_bytes l = n ∧
    (∀ k, (n < 256 ^ N.of_nat k)%N → (length l <= k)%nat).
Proof.
  induction fuel as [|fuel IH]; intros n acc L.
  { exists []. change (2 ^ N.of_nat 0)%N with 1%N in L. assert (n = 0%N) as -> by lia.
    split_and!; [done|constructor|done|cbn; lia]. }
  cbn [big_bytes_go]. destruct (N.eqb_spec n 0%N) as [->|Z].
  { exists []. split_and!; [done|constructor|done|cbn; lia]. }
  destruct (IH (n / 256)%N ((n mod 256)%N :: acc)) as (l & -> & B & V & G).
  { rewrite Nat2N.inj_succ, N.pow_succ_r' in L. apply N.Div0.div_lt_upper_bound. lia. }
  exists (l ++ [(n mod 256)%N]). split_and!.
  - by rewrite <-app_assoc.
  - apply Forall_app. split; [done|]. constructor; [|constructor]. by apply N.mod_lt.
  - unfold of_bytes in *. rewrite foldl_snoc, V. pose proof (N.div_mod n 256). lia.
  - intros [|k] K; [change (256 ^ N.of_nat 0)%N with 1%N in K; lia|].
    rewrite length_app. cbn. enough (length l <= k)%nat by lia. apply G.
    rewrite Nat2N.inj_succ, N.pow_succ_r' in K. apply N.Div0.div_lt_upper_bound. lia.
Qed.

Lemma big_bytes_spec n : is_bytes (big_bytes n) ∧ of_bytes (big_bytes n) = n ∧
  (∀ k, (n < 256 ^ N.of_nat k)%N → (length (big_bytes n) <= k)%nat).
Proof.
  unfold big_bytes. destruct (big_bytes_go_spec (N.to_nat (N.size n)) n []) as (l & -> & S).
  - rewrite N2Nat.id. apply N.size_gt.
  - by rewrite app_nil_r.
Qed.

Lemma lor_byte x b : 0 ≤ b < 256 → Z.lor (Z.shiftl x 8) b = 256 * x + b.
Proof.
  intros B.
  assert (Z.land (Z.shiftl x 8) b = 0) as L.
  { apply Z.bits_inj'. intros i I. rewrite Z.land_spec, Z.bits_0, Z.shiftl_spec by done.
    destruct (Z.ltb_spec i 8); [by rewrite Z.testbit_neg_r by lia|].
    destruct (Z.eqb_spec b 0) as [->|]; [by rewrite Z.bits_0, andb_false_r|].
    rewrite (Z.bits_above_log2 b i), andb_false_r; [done|lia|].
    apply Z.log2_lt_pow2; [lia|]. apply Z.lt_le_trans with (2 ^ 8); [lia|].
    apply Z.pow_le_mono_r; lia. }
  pose proof (Z.add_lor_land (Z.shiftl x 8) b) as A. rewrite L in *.
  rewrite !Z.shiftl_mul_pow2 in A |- * by done. change (2 ^ 8) with 256 in *. lia.
Qed.

Lemma exponent_bytes l : is_bytes l → exponent l = Z.of_N (of_bytes l).
Proof.
  intros B. enough (G : ∀ acc, foldl (λ exp b, Z.lor (Z.shiftl exp 8) (Z.of_N b)) (Z.of_N acc) l =
    Z.of_N (foldl (λ acc b, acc * 256 + b)%N acc l)) by exact (G 0%N).
  induction B as [|b l L B IH]; intros acc; [done|]. cbn [foldl]. rewrite <-IH. f_equal.
  rewrite lor_byte by lia. lia.
Qed.

Lemma raw_url_decode l : is_bytes l → DecodeString RawURLEncoding (EncodeToString RawURLEncoding l) = Some l.
Proof. apply DecodeString_encode. by right. Qed.

(** The keys the issuer holds: the exponent of an RSA key is positive and fits four
    bytes. *)
Definition issuer_key (pub : PublicKey) : Prop :=
  match pub with
  | Ed25519 k => is_bytes k ∧ length k = 32%nat
  | RSA n e => (0 < n)%N ∧ 0 < e < 2 ^ 32
  | OtherKey => False
  end.

Lemma big_bytes_nonempty n : (0 < n)%N → length (big_bytes n) ≠ 0%nat.
Proof.
  intros P L. destruct (big_bytes_spec n) as (_ & V & _).
  apply nil_length_inv in L. rewrite L in V. cbn in V. lia.
Qed.

(** A verifier reads the key the issuer advertised. *)
Theorem jwk_round_trip pub kid alg (I : issuer_key pub) :
  jwkToPublicKey (publicKeyToJWK pub kid alg) = Some pub.
Proof.
  destruct pub as [k|n e|]; [| |done]; unfold jwkToPublicKey;
    cbn [publicKeyToJWK Kty Crv jwk_X jwk_N jwk_E String.eqb Ascii.eqb Bool.eqb negb].
  - destruct I as [B L]. rewrite raw_url_decode by done. cbn. by rewrite bool_decide_eq_true_2.
  - destruct I as [P E]. unfold bigIntBase64URL.
    pose proof (big_bytes_spec n) as (Bn & Vn & _). pose proof (big_bytes_spec (Z.abs_N e)) as (Be & Ve & Le).
    rewrite !raw_url_decode by done. cbn.
    rewrite (bool_decide_eq_false_2 (length (big_bytes n) = 0%nat)) by by apply big_bytes_nonempty.
    rewrite (bool_decide_eq_false_2 (length (big_bytes (Z.abs_N e)) = 0%nat)) by (apply big_bytes_nonempty; lia).
    rewrite (bool_decide_eq_false_2 (4 < _)%nat).
    + cbn. rewrite Vn, exponent_bytes, Ve by done. do 2 f_equal. lia.
    + pose proof (Le 4%nat). change (256 ^ N.of_nat 4)%N with (2 ^ 32)%N in *.
      assert (Z.abs_N e < 2 ^ 32)%N by (apply N2Z.inj_lt; rewrite N2Z.inj_abs_N; cbn; lia). lia.
Qed.

Theorem jwk_round_trip_witness :
  jwkToPublicKey (publicKeyToJWK (RSA 3233 65537) "k" "RS256") = Some (RSA 3233 65537) ∧
  jwk_E (publicKeyToJWK (RSA 3233 65537) "k" "RS256") = "AQAB".
Proof. split; [apply jwk_round_trip; vm_compute; split_and!; reflexivity|reflexivity]. Defined.

(** ** The document *)

Definition usable (j : JWK) : bool :=
  (String.eqb (Use j) "" || String.eqb (Use j) "sig") && negb (String.eqb (Kid j) "") &&
  (String.eqb (Alg j) "" || String.eqb (Alg j) AlgorithmEdDSA || String.eqb (Alg j) AlgorithmRS256).

(** The keys of a decoded document, the last one of a name; one malformed key that is not
    skipped refuses the whole. *)
Fixpoint collect (keys : gmap string PublicKey) (doc : list JWK) : option (gmap string PublicKey) :=
  match doc with
  | [] => Some keys
  | j :: doc =>
      if usable j then pub ← jwkToPublicKey j; collect (<[Kid j := pub]> keys) doc
      else collect keys doc
  end.

(** [None]: the endpoint did not answer a document. *)
Definition fetchJWKS (answer : option (list JWK)) : option (gmap string PublicKey) :=
  doc ← answer; keys ← collect ∅ doc;
  if bool_decide (size keys = 0%nat) then None else Some keys.

(** ** The cache *)

Definition jwksCacheTTL : Z := 5 * minute.
Definition jwksMinRefreshGap : Z := second.

Record jwksCache := mkJwksCache {
  minRefresh : Z;
  jc_keys : gmap string PublicKey;
  fetchedAt : time;
  lastTry : time;
  lastErr : bool;
}.

Definition newJWKSCache : jwksCache := mkJwksCache jwksMinRefreshGap ∅ zero_time zero_time false.

(** A failed fetch keeps the keys. [answer] is what the endpoint would say now. *)
Definition fetchLocked (c : jwksCache) (now : time) (answer : option (list JWK)) : jwksCache :=
  match fetchJWKS answer with
  | None => mkJwksCache (minRefresh c) (jc_keys c) (fetchedAt c) (lastTry c) true
  | Some keys => mkJwksCache (minRefresh c) keys now (lastTry c) false
  end.

Definition known (c : jwksCache) (kid : string) : bool := bool_decide (is_Some (jc_keys c !! kid)).

(** The gap since the last fetch for an unknown name has not passed. *)
Definition throttled (c : jwksCache) (now : time) : bool :=
  negb (is_zero (lastTry c)) && (now - lastTry c <? minRefresh c).

Definition stale (c : jwksCache) (now : time) : bool := jwksCacheTTL <? now - fetchedAt c.

(** The cache once [lookup] has refreshed it, and whether it asked the endpoint. *)
Definition refreshed (c : jwksCache) (kid : string) (now : time) (answer : option (list JWK))
    : bool * jwksCache :=
  if negb (known c kid) then
    if throttled c now then (false, c)
    else (true, fetchLocked (mkJwksCache (minRefresh c) (jc_keys c) (fetchedAt c) now (lastErr c)) now answer)
  else if stale c now then (true, fetchLocked c now answer)
  else (false, c).

Definition lookup (kid alg : string) (now : time) (answer : option (list JWK))
    : M jwksCache unit PublicKey := λ c,
  if negb (known c kid) && throttled c now then (inl tt, c)
  else
    let c := (refreshed c kid now answer).2 in
    match jc_keys c !! kid with
    | None => (inl tt, c)
    | Some key => if algMatchesKey alg key then (inr key, c) else (inl tt, c)
    end.

Definition healthy (c : option jwksCache) : bool :=
  match c with
  | None => true
  | Some c => negb (lastErr c) && negb (bool_decide (size (jc_keys c) = 0%nat))
  end.

Definition ensure_keys (now : time) (answer : option (list JWK)) (c : jwksCache) : jwksCache :=
  if bool_decide (size (jc_keys c) = 0%nat) then fetchLocked c now answer else c.

(** ** What the cache serves

    The operations, with the fetches they made: the instant and the answer. *)
Inductive cache_op :=
  | OpLookup (kid alg : string)
  | OpEnsure.

Definition fetches (op : cache_op) (now : time) (c : jwksCache) : bool :=
  match op with
  | OpLookup kid _ => (refreshed c kid now None).1
  | OpEnsure => bool_decide (size (jc_keys c) = 0%nat)
  end.

Definition after (op : cache_op) (now : time) (answer : option (list JWK)) (c : jwksCache) : jwksCache :=
  match op with
  | OpLookup kid alg => (lookup kid alg now answer c).2
  | OpEnsure => ensure_keys now answer c
  end.

(** The caches of a service that has run, newest fetch first. *)
Inductive cached : list (time * option (list JWK)) → jwksCache → Prop :=
  | cached_new gap : cached [] (mkJwksCache gap ∅ zero_time zero_time false)
  | cached_op h c op now answer :
      cached h c →
      cached (if fetches op now c then (now, answer) :: h else h) (after op now answer c).

Lemma lookup_state kid alg now answer c : (lookup kid alg now answer c).2 = (refreshed c kid now answer).2.
Proof.
  unfold lookup, refreshed. destruct (known c kid); cbn [negb andb].
  - destruct (jc_keys _ !! kid); [case_match|]; done.
  - destruct (throttled c now); [done|]. destruct (jc_keys _ !! kid); [case_match|]; done.
Qed.

Lemma lookup_key kid alg now answer c key c' : lookup kid alg now answer c = (inr key, c') →
  c' = (refreshed c kid now answer).2 ∧ jc_keys c' !! kid = Some key ∧ algMatchesKey alg key = true.
Proof.
  intros R. pose proof (f_equal snd R) as S. rewrite lookup_state in S. cbn in S. split; [done|].
  revert R. unfold lookup. destruct (_ && _); [done|]. rewrite S.
  destruct (jc_keys c' !! kid) as [k|]; [|done]. case_match eqn:A; [|done]. by intros [= ->].
Qed.

Lemma refreshed_asks c kid now answer : (refreshed c kid now answer).1 = (refreshed c kid now None).1.
Proof. unfold refreshed. by repeat case_match. Qed.

(** The keys are those of the newest document that could be used, fetched when the cache
    says; what came after it failed. *)
Definition newest_document (h : list (time * option (list JWK))) (c : jwksCache) : Prop :=
  (jc_keys c = ∅ ∧ fetchedAt c = zero_time ∧ Forall (λ f, fetchJWKS f.2 = None) h) ∨
  ∃ failed answer older, h = failed ++ (fetchedAt c, answer) :: older ∧
    fetchJWKS answer = Some (jc_keys c) ∧ Forall (λ f, fetchJWKS f.2 = None) failed.

Lemma fetchLocked_newest h c t now answer : newest_document h c →
  newest_document ((now, answer) :: h)
    (fetchLocked (mkJwksCache (minRefresh c) (jc_keys c) (fetchedAt c) t (lastErr c)) now answer).
Proof.
  unfold fetchLocked, newest_document. intros I. destruct (fetchJWKS answer) as [keys|] eqn:F; cbn.
  - right. by exists [], answer, h.
  - destruct I as [(K & Z & A)|(failed & a & older & -> & A & B)]; [left|right].
    + split_and!; [done..|]. by apply Forall_cons.
    + exists ((now, answer) :: failed), a, older. split_and!; [done..|]. by apply Forall_cons.
Qed.

Lemma fetchLocked_same c now answer :
  fetchLocked c now answer = fetchLocked (mkJwksCache (minRefresh c) (jc_keys c) (fetchedAt c) (lastTry c) (lastErr c)) now answer.
Proof. by destruct c. Qed.

Lemma cached_newest h c : cached h c → newest_document h c.
Proof.
  induction 1 as [gap|h c op now answer R IH].
  - left. cbn. split_and!; [done..|constructor].
  - destruct op as [kid alg|]; cbn [fetches after].
    + rewrite lookup_state. unfold refreshed.
      destruct (known c kid); cbn [negb]; [destruct (stale c now)|destruct (throttled c now)];
        cbn [fst snd]; [|done|done|by apply fetchLocked_newest].
      rewrite fetchLocked_same. by apply fetchLocked_newest.
    + unfold ensure_keys. case_bool_decide; [|done].
      rewrite fetchLocked_same. by apply fetchLocked_newest.
Qed.

(** C31. A key is served only for the name under which the newest usable document of the
    endpoint has it, and for its own family of algorithms; that document is at most the
    cache's lifetime old unless the endpoint failed to answer a document this very time.
    So a key the issuer withdrew is refused at the first use after that. *)
Theorem served_key_published h c kid alg now answer key c' (R : cached h c)
    (L : lookup kid alg now answer c = (inr key, c')) :
  algMatchesKey alg key = true ∧
  ∃ at_ document older failed keys, 
    (if fetches (OpLookup kid alg) now c then (now, answer) :: h else h) =
      failed ++ (at_, document) :: older ∧
    fetchJWKS document = Some keys ∧ keys !! kid = Some key ∧
    Forall (λ f, fetchJWKS f.2 = None) failed ∧
    (now - at_ ≤ jwksCacheTTL ∨ fetchJWKS answer = None).
Proof.
  apply lookup_key in L as (S & K & A). split; [done|].
  pose proof (cached_newest _ _ (cached_op h c (OpLookup kid alg) now answer R)) as N.
  cbn [after] in N. rewrite lookup_state, <-S in N.
  destruct N as [(E & _)|(failed & document & older & H & F & Fs)]; [by rewrite E in K|].
  exists (fetchedAt c'), document, older, failed, (jc_keys c'). split_and!; [done..|].
  rewrite S. unfold refreshed, fetchLocked.
  destruct (known c kid) eqn:Kn; cbn [negb].
  - destruct (stale c now) eqn:St; cbn [snd].
    + destruct (fetchJWKS answer); [left; cbn [fetchedAt]; unfold jwksCacheTTL, minute, second; lia|by right].
    + left. unfold stale in St. lia.
  - destruct (throttled c now) eqn:T; cbn [snd].
    + exfalso. assert (c' = c) as -> by (subst c'; unfold refreshed; by rewrite Kn, T).
      unfold known in Kn. by rewrite K, bool_decide_true in Kn.
    + destruct (fetchJWKS answer); [left; cbn [fetchedAt]; unfold jwksCacheTTL, minute, second; lia|by right].
Qed.

(** ** Unknown names

    The instants at which an unknown name made the cache ask. *)
Fixpoint unknown_fetches (c : jwksCache) (lookups : list (time * string * string * option (list JWK)))
    : list time :=
  match lookups with
  | [] => []
  | (now, kid, alg, answer) :: lookups =>
      let l := unknown_fetches (lookup kid alg now answer c).2 lookups in
      if negb (known c kid) && negb (throttled c now) then now :: l else l
  end.

Lemma refreshed_params c kid now answer :
  minRefresh (refreshed c kid now answer).2 = minRefresh c ∧
  lastTry (refreshed c kid now answer).2 =
    if negb (known c kid) && negb (throttled c now) then now else lastTry c.
Proof. unfold refreshed, fetchLocked. destruct (known c kid), (throttled c now), (stale c now), (fetchJWKS answer); done. Qed.

Definition instants (lookups : list (time * string * string * option (list JWK))) : list time :=
  map (λ l, l.1.1.1) lookups.

Lemma unknown_fetches_from lookups : ∀ c, StronglySorted Z.le (instants lookups) →
  Forall (λ t, zero_time < t) (instants lookups) → 0 ≤ minRefresh c →
  StronglySorted (λ t u, t + minRefresh c ≤ u) (unknown_fetches c lookups) ∧
  Forall (λ t, lastTry c = zero_time ∨ lastTry c + minRefresh c ≤ t) (unknown_fetches c lookups).
Proof.
  induction lookups as [|[[[now kid] alg] answer] lookups IH]; intros c S P G; [split; constructor|].
  cbn [instants map fst] in S, P. apply StronglySorted_inv in S as [S L].
  pose proof (Forall_inv P) as Pn. cbn in Pn. apply Forall_inv_tail in P.
  cbn [unknown_fetches]. rewrite lookup_state.
  destruct (refreshed_params c kid now answer) as [Gp Lt].
  specialize (IH (refreshed c kid now answer).2 S P). rewrite Gp, Lt in IH. destruct (IH G) as [So Fo].
  destruct (negb (known c kid) && negb (throttled c now)) eqn:U; cbn zeta; [|done].
  assert (Fo' : Forall (λ t, now + minRefresh c ≤ t)
    (unknown_fetches (refreshed c kid now answer).2 lookups)).
  { eapply list.Forall_impl; [exact Fo|]. intros t [Z|Z]; lia. }
  apply andb_true_iff in U as [_ U]. unfold throttled in U.
  assert (Q : lastTry c = zero_time ∨ lastTry c + minRefresh c ≤ now).
  { unfold is_zero in U. case_bool_decide; [by left|right]. cbn in U. lia. }
  split; [by apply SSorted_cons|]. apply Forall_cons; [done|].
  eapply list.Forall_impl; [exact Fo'|]. intros t T. cbn in T. destruct Q; [by left|right; lia].
Qed.

(** Forged names cannot make a verifier flood the issuer: the fetches they cause are at
    least the gap apart, however many of them there are and whatever is answered. *)
Theorem unknown_fetches_spaced lookups (S : StronglySorted Z.le (instants lookups))
    (P : Forall (λ t, zero_time < t) (instants lookups)) :
  StronglySorted (λ t u, t + jwksMinRefreshGap ≤ u) (unknown_fetches newJWKSCache lookups).
Proof. by apply (unknown_fetches_from lookups newJWKSCache). Qed.

(** ** A rotation *)

Definition key_a : PublicKey := Ed25519 (replicate 32 7%N).
Definition key_b : PublicKey := Ed25519 (replicate 32 8%N).
Definition document (kid : string) (key : PublicKey) : list JWK := [publicKeyToJWK key kid "EdDSA"].

(** First sighting of a, then a again: served from the cache; an unknown name is refused;
    after the rotation b is fetched and a is gone. *)
Definition rotation : list (time * string * string * option (list JWK)) :=
  [(0, "a", "EdDSA", Some (document "a" key_a)); (1, "a", "EdDSA", None);
   (2, "x", "EdDSA", None); (second, "x", "EdDSA", None);
   (3 * second, "b", "EdDSA", Some (document "b" key_b)); (3 * second + 1, "a", "EdDSA", None)].

Fixpoint look_all (c : jwksCache) (lookups : list (time * string * string * option (list JWK)))
    : list (option PublicKey) * jwksCache :=
  match lookups with
  | [] => ([], c)
  | (now, kid, alg, answer) :: lookups =>
      let '(r, c) := lookup kid alg now answer c in
      let '(rs, c) := look_all c lookups in
      (match r with inr key => Some key | inl _ => None end :: rs, c)
  end.

Example rotation_run : (look_all newJWKSCache rotation).1 =
  [Some key_a; Some key_a; None; None; Some key_b; None].
Proof. vm_compute. reflexivity. Qed.

Theorem unknown_fetches_spaced_witness :
  unknown_fetches newJWKSCache rotation = [0; second; 3 * second] ∧
  StronglySorted (λ t u, t + jwksMinRefreshGap ≤ u) (unknown_fetches newJWKSCache rotation).
Proof.
  split; [vm_compute; reflexivity|]. apply unknown_fetches_spaced; unfold instants, rotation; cbn [map fst];
    repeat (apply SSorted_cons || apply SSorted_nil || apply Forall_cons || apply Forall_nil);
    vm_compute; (reflexivity || discriminate).
Defined.

Theorem served_key_published_witness :
  ∃ h c c', cached h c ∧ lookup "a" "EdDSA" 1 None c = (inr key_a, c') ∧
    ∃ at_ document older failed keys,
    (if fetches (OpLookup "a" "EdDSA") 1 c then (1, None) :: h else h) =
      failed ++ (at_, document) :: older ∧
    fetchJWKS document = Some keys ∧ keys !! "a" = Some key_a.
Proof.
  pose (h := [(0, Some (document "a" key_a))] : list (time * option (list JWK))).
  pose (c := after (OpLookup "a" "EdDSA") 0 (Some (document "a" key_a)) newJWKSCache).
  assert (R : cached h c) by exact (cached_op [] newJWKSCache (OpLookup "a" "EdDSA") 0 (Some (document "a" key_a)) (cached_new _)).
  assert (L : lookup "a" "EdDSA" 1 None c = (inr key_a, c)) by (vm_compute; reflexivity).
  exists h, c, c. split_and!; [exact R|exact L|].
  destruct (served_key_published h c "a" "EdDSA" 1 None key_a c R L)
    as (_ & a & d & o & f & k & E & F & K & _).
  by exists a, d, o, f, k.
Defined.
