(* ===== verification/Jwt.v ===== *)
(** * Jwt: the validator of access tokens ([backend/platform/jwt.go])

    Which keys a validator holds and what a token needs to pass. Parsing, the signature
    and the registered claims belong to golang-jwt, a parameter of the model; reading a
    key file too. Error texts are not modelled. *)

From S2P Require Import Prelude Text PayModels Jwks.

Open Scope Z_scope.

(** ** golang-jwt *)

Inductive SigningKey :=
  | KeySecret (secret : string)
  | KeyPublic (key : PublicKey).

(** What the key function reads of a parsed token; [None]: [kid] is not a string. *)
Record Token := mkToken { tk_alg : string; tk_kid : option string }.

(** The claims that are strings, the audience, and what [GetExpirationTime] and
    [GetIssuedAt] find. *)
Record RawClaims := mkRawClaims {
  rc_strings : gmap string string;
  rc_aud : list string;
  rc_exp : option time;
  rc_iat : option time;
}.

(** The options of the parser, with the clock. *)
Record ParserOptions := mkParserOptions {
  po_methods : list string;
  po_issuer : string;
  po_audience : string;
  po_leeway : Z;
  po_now : time;
}.

(** [payload]: the claims the text of a token encodes. What passes is the claims of the
    text: the algorithm is one of the listed ones, the key function gave the key
    the signature verifies with, the issuer and the audience are the expected ones where
    one is expected, and the token has an expiry that has not passed. *)
Class GoJwt := {
  ParseWithClaims {S : Type} :
    ParserOptions → string → (Token → M S unit SigningKey) → M S unit RawClaims;
  header : string → option Token;
  payload : string → option RawClaims;
  verifies : string → string → SigningKey → Prop;
  parse_sound {S} o text (keyFunc : Token → M S unit SigningKey) s raw s' :
    ParseWithClaims o text keyFunc s = (inr raw, s') →
    payload text = Some raw ∧
    ∃ token key, header text = Some token ∧ tk_alg token ∈ po_methods o ∧
      keyFunc token s = (inr key, s') ∧ verifies text (tk_alg token) key ∧
      (po_issuer o ≠ "" → rc_strings raw !! "iss" = Some (po_issuer o)) ∧
      (po_audience o ≠ "" → po_audience o ∈ rc_aud raw) ∧
      ∃ e, rc_exp raw = Some e ∧ po_now o < e + po_leeway o;
  parse_refused {S} o text (keyFunc : Token → M S unit SigningKey) s e s' :
    ParseWithClaims o text keyFunc s = (inl e, s') →
    s' = s ∨ ∃ token, header text = Some token ∧ s' = (keyFunc token s).2;
}.

(** ** The validator *)

Record JWTValidator := mkJWTValidator {
  issuer : string;
  audience : string;
  leeway : Z;
  secret : option string;
  staticKeys : gmap string PublicKey;
  jwks : option jwksCache;
}.

Definition NewJWTValidator (sec iss aud : string) : JWTValidator :=
  mkJWTValidator iss aud (30 * second) (Some sec) ∅ None.

Inductive ValidatorOption :=
  | WithValidatorIssuerAudience (iss aud : string)
  | WithJWKSURL
  | WithJWKSRefreshGap (d : Z)
  | WithPublicKeyPEM (kid : string) (pub : PublicKey)
  | WithLegacyHS256 (sec : string).

Definition apply_option (v : JWTValidator) (o : ValidatorOption) : JWTValidator :=
  match o with
  | WithValidatorIssuerAudience iss aud =>
      mkJWTValidator iss aud (leeway v) (secret v) (staticKeys v) (jwks v)
  | WithJWKSURL =>
      mkJWTValidator (issuer v) (audience v) (leeway v) (secret v) (staticKeys v) (Some newJWKSCache)
  | WithJWKSRefreshGap d =>
      mkJWTValidator (issuer v) (audience v) (leeway v) (secret v) (staticKeys v)
        ((λ c, mkJwksCache d (jc_keys c) (fetchedAt c) (lastTry c) (lastErr c)) <$> jwks v)
  | WithPublicKeyPEM kid pub =>
      mkJWTValidator (issuer v) (audience v) (leeway v) (secret v) (<[kid := pub]> (staticKeys v)) (jwks v)
  | WithLegacyHS256 sec =>
      mkJWTValidator (issuer v) (audience v) (leeway v) (Some sec) (staticKeys v) (jwks v)
  end.

Definition NewValidator (opts : list ValidatorOption) : JWTValidator :=
  foldl apply_option (mkJWTValidator "" "" (30 * second) None ∅ None) opts.

Definition HasPrivateKeyMaterial (v : option JWTValidator) : bool :=
  match v with Some v => bool_decide (is_Some (secret v)) | None => false end.

Definition acceptedAlgorithms (v : JWTValidator) : list string :=
  (if bool_decide (size (staticKeys v) = 0%nat) && bool_decide (jwks v = None) then []
   else [AlgorithmEdDSA; AlgorithmRS256]) ++
  (if bool_decide (is_Some (secret v)) then [AlgorithmHS256] else []).

(** The lookup in the remote key set, whose cache changes. *)
Definition with_jwks (v : JWTValidator) (c : jwksCache) : JWTValidator :=
  mkJWTValidator (issuer v) (audience v) (leeway v) (secret v) (staticKeys v) (Some c).

Definition keyFor (now : time) (answer : option (list JWK)) (t : Token)
    : M JWTValidator unit SigningKey := λ v,
  let kid := default "" (tk_kid t) in
  if String.eqb (tk_alg t) AlgorithmHS256 then
    (match secret v with Some s => inr (KeySecret s) | None => inl tt end, v)
  else if String.eqb (tk_alg t) AlgorithmEdDSA || String.eqb (tk_alg t) AlgorithmRS256 then
    if String.eqb kid "" then (inl tt, v)
    else match staticKeys v !! kid with
    | Some pub => (if algMatchesKey (tk_alg t) pub then inr (KeyPublic pub) else inl tt, v)
    | None =>
        match jwks v with
        | Some c =>
            let '(r, c) := lookup kid (tk_alg t) now answer c in
            (match r with inr pub => inr (KeyPublic pub) | inl _ => inl tt end, with_jwks v c)
        | None => (inl tt, v)
        end
    end
  else (inl tt, v).

Definition stringClaim (raw : RawClaims) (key : string) : string := default "" (rc_strings raw !! key).

Inductive TokenError := TokenEmpty | NoVerificationKeys | InvalidToken | MissingSubject.

(** [ReadyCheck]: ready, and the validator whose cache it has warmed. *)
Definition ReadyCheck (now : time) (answer : option (list JWK)) (v : JWTValidator) : bool * JWTValidator :=
  match jwks v with
  | None => (true, v)
  | Some c => let c := ensure_keys now answer c in (healthy (Some c), with_jwks v c)
  end.

Section Validate.
Context `{GoJwt}.

Definition Validate (now : time) (answer : option (list JWK)) (tokenString : string)
    : M JWTValidator TokenError Claims :=
  ensure (negb (String.eqb (TrimSpace tokenString) "")) TokenEmpty;;
  v ← get;
  let algs := acceptedAlgorithms v in
  ensure (negb (bool_decide (length algs = 0%nat))) NoVerificationKeys;;
  raw ← wrap (λ _, InvalidToken)
    (ParseWithClaims (mkParserOptions algs (issuer v) (audience v) (leeway v) now) tokenString
       (keyFor now answer));
  ensure (negb (String.eqb (stringClaim raw "sub") "")) MissingSubject;;
  mret (mkClaims (stringClaim raw "sub") (stringClaim raw "tenant_id") (stringClaim raw "role")
          (stringClaim raw "sid") (default zero_time (rc_iat raw)) (default zero_time (rc_exp raw))).

(** ** What a token that passes is *)

(** The key a validator trusts for a token: its shared secret for HS256; for the
    asymmetric algorithms a key of that family under the token's name, distributed or
    else in the remote set as it is cached afterwards. *)
Inductive trusted (v v' : JWTValidator) (t : Token) : SigningKey → Prop :=
  | trusted_secret s :
      tk_alg t = AlgorithmHS256 → secret v = Some s → trusted v v' t (KeySecret s)
  | trusted_static kid pub :
      tk_alg t ∈ [AlgorithmEdDSA; AlgorithmRS256] → tk_kid t = Some kid → kid ≠ "" →
      staticKeys v !! kid = Some pub → algMatchesKey (tk_alg t) pub = true →
      trusted v v' t (KeyPublic pub)
  | trusted_remote kid pub c :
      tk_alg t ∈ [AlgorithmEdDSA; AlgorithmRS256] → tk_kid t = Some kid → kid ≠ "" →
      staticKeys v !! kid = None → jwks v' = Some c → jc_keys c !! kid = Some pub →
      algMatchesKey (tk_alg t) pub = true → trusted v v' t (KeyPublic pub).

Lemma keyFor_trusted now answer t v key v' :
  keyFor now answer t v = (inr key, v') → trusted v v' t key.
Proof.
  unfold keyFor. destruct (String.eqb_spec (tk_alg t) AlgorithmHS256) as [A|_].
  { destruct (secret v) as [s|] eqn:S; [|done]. intros [= <- <-]. by apply trusted_secret. }
  destruct (_ || _) eqn:A; [|done].
  assert (Alg : tk_alg t ∈ [AlgorithmEdDSA; AlgorithmRS256]).
  { apply orb_true_iff in A as [A|A]; apply String.eqb_eq in A as ->; repeat constructor. }
  destruct (String.eqb_spec (default "" (tk_kid t)) "") as [_|K]; [done|].
  destruct (tk_kid t) as [kid|] eqn:T; [|done]. cbn [default option.from_option id] in *.
  destruct (staticKeys v !! kid) as [pub|] eqn:P.
  - destruct (algMatchesKey (tk_alg t) pub) eqn:M; [|done]. intros [= <- <-]. by eapply trusted_static.
  - destruct (jwks v) as [c|]; [|done].
    destruct (lookup kid (tk_alg t) now answer c) as [[[]|pub] c'] eqn:L; [done|].
    intros R. assert (key = KeyPublic pub) as -> by congruence.
    assert (v' = with_jwks v c') as -> by congruence.
    apply lookup_key in L as (_ & L & M). by eapply trusted_remote.
Qed.

(** What a validator is configured with never changes. *)
Definition same_keys (v v' : JWTValidator) : Prop :=
  issuer v' = issuer v ∧ audience v' = audience v ∧ leeway v' = leeway v ∧
  secret v' = secret v ∧ staticKeys v' = staticKeys v ∧ (jwks v' = None ↔ jwks v = None).

Lemma keyFor_same now answer t v : same_keys v (keyFor now answer t v).2.
Proof.
  unfold keyFor, same_keys. destruct (String.eqb (tk_alg t) _); [done|].
  destruct (_ || _); [|done]. destruct (String.eqb _ _); [done|].
  destruct (staticKeys v !! _); [done|]. destruct (jwks v) as [c|] eqn:J; [|done]. destruct (lookup _ _ _ _ c) as [r c'].
  cbn. naive_solver.
Qed.

Lemma Validate_inv now answer text v r v' : Validate now answer text v = (r, v') →
  same_keys v v' ∧ ∀ claims, r = inr claims →
  ∃ raw, ParseWithClaims (mkParserOptions (acceptedAlgorithms v) (issuer v) (audience v) (leeway v) now)
      text (keyFor now answer) v = (inr raw, v') ∧
    stringClaim raw "sub" ≠ "" ∧
    claims = mkClaims (stringClaim raw "sub") (stringClaim raw "tenant_id") (stringClaim raw "role")
      (stringClaim raw "sid") (default zero_time (rc_iat raw)) (default zero_time (rc_exp raw)).
Proof.
  assert (Rf : same_keys v v) by by split_and!.
  unfold Validate. intros R. apply bind_inv in R as [(e & R & ->)|(? & ? & R & R')].
  { apply ensure_inv in R as [-> _]. split; [done|congruence]. }
  apply ensure_inv in R as [-> _].
  apply bind_inv in R' as [(e & R & _)|(? & ? & [= <- <-] & R')]; [done|].
  apply bind_inv in R' as [(e & R & ->)|(? & ? & R & R')].
  { apply ensure_inv in R as [-> _]. split; [done|congruence]. }
  apply ensure_inv in R as [-> _].
  apply bind_inv in R' as [(e & R & ->)|(raw & v1 & R & R')].
  { split; [|congruence]. revert R. unfold wrap.
    destruct (ParseWithClaims _ _ _ v) as [[u|raw] v1] eqn:P; [|done]. intros [= _ <-].
    apply parse_refused in P as [->|(t & _ & ->)]; [done|apply keyFor_same]. }
  revert R. unfold wrap. destruct (ParseWithClaims _ _ _ v) as [[u|raw'] v2] eqn:P; [done|].
  intros [= -> ->].
  apply bind_inv in R' as [(e & R & ->)|(? & ? & R & R')]; apply ensure_inv in R as [-> S].
  - split; [|congruence]. destruct (parse_sound _ _ _ _ _ _ P) as (_ & t & key & _ & _ & K & _).
    pose proof (keyFor_same now answer t v) as Sm. by rewrite K in Sm.
  - split.
    + destruct (parse_sound _ _ _ _ _ _ P) as (_ & t & key & _ & _ & K & _).
      pose proof (keyFor_same now answer t v) as Sm. rewrite K in Sm. by injection R' as _ <-.
    + intros claims ->. injection R' as <- <-. exists raw. split_and!; [done| |done].
      destruct S as [[S _]|[_ ?]]; [|done]. apply negb_true_iff in S. by apply String.eqb_neq in S.
Qed.

Lemma accepted now answer text v claims v' : Validate now answer text v = (inr claims, v') →
  same_keys v v' ∧ ∃ token key raw,
    header text = Some token ∧ payload text = Some raw ∧
    verifies text (tk_alg token) key ∧ trusted v v' token key ∧
    claims = mkClaims (stringClaim raw "sub") (stringClaim raw "tenant_id") (stringClaim raw "role")
      (stringClaim raw "sid") (default zero_time (rc_iat raw)) (default zero_time (rc_exp raw)) ∧
    stringClaim raw "sub" ≠ "" ∧
    (issuer v ≠ "" → rc_strings raw !! "iss" = Some (issuer v)) ∧
    (audience v ≠ "" → audience v ∈ rc_aud raw) ∧
    ∃ e, rc_exp raw = Some e ∧ now < e + leeway v.
Proof.
  intros R. destruct (Validate_inv _ _ _ _ _ _ R) as [Sm I]. split; [done|].
  destruct (I claims eq_refl) as (raw & P & S & ->).
  destruct (parse_sound _ _ _ _ _ _ P) as (Py & t & key & Hd & _ & K & V & Is & Au & E).
  exists t, key, raw. apply keyFor_trusted in K. done.
Qed.

(** C30. ** No forging

    A token that is accepted carries a signature that verifies with a key the validator
    trusts under its algorithm, an unexpired lifetime (thirty seconds of leeway when the
    validator was built here), the expected issuer and audience, and the claims the
    handlers get are those its text encodes, field by field. Whatever the token, the keys configured do not change. *)
Theorem accepted_token_trusted now answer text v claims v' 
    (R : Validate now answer text v = (inr claims, v')) :
  same_keys v v' ∧ ∃ token key raw,
    header text = Some token ∧ payload text = Some raw ∧
    verifies text (tk_alg token) key ∧ trusted v v' token key ∧
    c_UserID claims = stringClaim raw "sub" ∧ c_UserID claims ≠ "" ∧
    c_TenantID claims = stringClaim raw "tenant_id" ∧ c_Role claims = stringClaim raw "role" ∧
    c_SessionID claims = stringClaim raw "sid" ∧
    (issuer v ≠ "" → rc_strings raw !! "iss" = Some (issuer v)) ∧
    (audience v ≠ "" → audience v ∈ rc_aud raw) ∧
    rc_exp raw = Some (c_ExpiresAt claims) ∧ now < c_ExpiresAt claims + leeway v.
Proof.
  destruct (accepted _ _ _ _ _ _ R) as [Sm (t & key & raw & Hd & Py & V & T & -> & S & Is & Au & e & E & L)].
  split; [done|]. exists t, key, raw. cbn. by rewrite E.
Qed.

(** A validator without the shared secret cannot sign, and takes no HS256 token: the
    secret of another service, or a public key used as one, is of no use. *)
Theorem verifiers_take_no_hs256 now answer text v claims v' (S : HasPrivateKeyMaterial (Some v) = false)
    (R : Validate now answer text v = (inr claims, v')) :
  HasPrivateKeyMaterial (Some v') = false ∧
  ∃ token pub, header text = Some token ∧ tk_alg token ∈ [AlgorithmEdDSA; AlgorithmRS256] ∧
    algMatchesKey (tk_alg token) pub = true ∧ verifies text (tk_alg token) (KeyPublic pub).
Proof.
  cbn in S. apply bool_decide_eq_false in S.
  destruct (accepted _ _ _ _ _ _ R) as [Sm (t & key & raw & Hd & _ & V & T & _)].
  split.
  - cbn. destruct Sm as (_ & _ & _ & -> & _). by apply bool_decide_eq_false.
  - destruct T as [s _ E|kid pub A _ _ _ M|kid pub c A _ _ _ _ _ M]; [by destruct S; rewrite E|..];
      by exists t, pub.
Qed.

End Validate.

(** ** A parser that keeps the laws *)

Section Parser.
Context (header_of : string → option Token) (claims_of : string → RawClaims)
  (checks : string → string → SigningKey → bool).

Definition claims_ok (o : ParserOptions) (raw : RawClaims) : bool :=
  (String.eqb (po_issuer o) "" || bool_decide (rc_strings raw !! "iss" = Some (po_issuer o))) &&
  (String.eqb (po_audience o) "" || bool_decide (po_audience o ∈ rc_aud raw)) &&
  match rc_exp raw with Some e => po_now o <? e + po_leeway o | None => false end.

Definition parse {S} (o : ParserOptions) (text : string) (keyFunc : Token → M S unit SigningKey)
    : M S unit RawClaims := λ s,
  match header_of text with
  | None => (inl tt, s)
  | Some t =>
      if bool_decide (tk_alg t ∈ po_methods o) then
        match keyFunc t s with
        | (inl _, s) => (inl tt, s)
        | (inr key, s) =>
            if checks text (tk_alg t) key && claims_ok o (claims_of text)
            then (inr (claims_of text), s) else (inl tt, s)
        end
      else (inl tt, s)
  end.

Definition parser : GoJwt.
Proof.
  refine {| ParseWithClaims := @parse; header := header_of; payload text := Some (claims_of text);
            verifies text alg key := checks text alg key = true |}.
  - intros S o text kf s raw s'. unfold parse. destruct (header_of text) as [t|]; [|done].
    case_bool_decide as A; [|done]. destruct (kf t s) as [[[]|key] s1] eqn:K; [done|].
    destruct (checks text (tk_alg t) key) eqn:C; [|done]. cbn [andb].
    destruct (claims_ok o (claims_of text)) eqn:Ok; [|done]. intros [= <- <-].
    split; [done|]. unfold claims_ok in Ok. rewrite !andb_true_iff, !orb_true_iff, !String.eqb_eq, !bool_decide_eq_true in Ok.
    destruct (rc_exp (claims_of text)) as [e|] eqn:E; [|by destruct Ok].
    exists t, key. split_and!; try done; [naive_solver..|]. exists e. split; [done|].
    destruct Ok as [_ L]. by apply Z.ltb_lt.
  - intros S o text kf s e s'. unfold parse. destruct (header_of text) as [t|]; [|intros [= _ <-]; by left].
    case_bool_decide; [|intros [= _ <-]; by left]. destruct (kf t s) as [[[]|key] s1] eqn:K.
    + intros [= _ <-]. right. exists t. by rewrite K.
    + destruct (_ && _); [done|]. intros [= _ <-]. right. exists t. by rewrite K.
Defined.

End Parser.

(** A token of a user, signed with [key_a], and one signed with a shared secret. *)
Definition demo_header (text : string) : option Token :=
  if String.eqb text "signed" then Some (mkToken AlgorithmEdDSA (Some "a"))
  else if String.eqb text "forged" then Some (mkToken AlgorithmHS256 (Some "a")) else None.
Definition demo_claims (_ : string) : RawClaims :=
  mkRawClaims {["iss" := "motivra-identity"; "sub" := "u"; "role" := "ADMIN"]} ["motivra"] (Some minute) (Some 0).
Definition demo_checks (text alg : string) (key : SigningKey) : bool :=
  match key with
  | KeyPublic pub => String.eqb text "signed" && bool_decide (pub = key_a)
  | KeySecret s => String.eqb text "forged"
  end.
Definition demo_jwt : GoJwt := parser demo_header demo_claims demo_checks.

Definition verifier : JWTValidator :=
  NewValidator [WithValidatorIssuerAudience "motivra-identity" "motivra"; WithJWKSURL].
Definition demo_principal : Claims := mkClaims "u" "" "ADMIN" "" 0 minute.

Lemma demo_validated :
  Validate (H := demo_jwt) 0 (Some (document "a" key_a)) "signed" verifier =
  (inr demo_principal, state_of (Validate (H := demo_jwt) 0 (Some (document "a" key_a)) "signed" verifier)).
Proof. vm_compute. reflexivity. Qed.

Example demo_forged :
  (Validate (H := demo_jwt) 0 (Some (document "a" key_a)) "forged" verifier).1 = inl InvalidToken.
Proof. vm_compute. reflexivity. Qed.

Theorem accepted_token_trusted_witness :
  ∃ token key, header (GoJwt := demo_jwt) "signed" = Some token ∧
    verifies (GoJwt := demo_jwt) "signed" (tk_alg token) key ∧ c_UserID demo_principal ≠ "".
Proof.
  destruct (accepted_token_trusted (H := demo_jwt) _ _ _ _ _ _ demo_validated)
    as [_ (t & key & raw & Hd & _ & V & _ & _ & U & _)].
  by exists t, key.
Defined.

Theorem verifiers_take_no_hs256_witness :
  HasPrivateKeyMaterial (Some verifier) = false ∧
  ∃ token, header (GoJwt := demo_jwt) "signed" = Some token ∧ tk_alg token ∈ [AlgorithmEdDSA; AlgorithmRS256].
Proof.
  split; [reflexivity|].
  destruct (verifiers_take_no_hs256 (H := demo_jwt) _ _ _ verifier _ _ eq_refl demo_validated)
    as [_ (t & pub & Hd & A & _)]. by exists t.
Defined.
