(* ===== verification/Config.v ===== *)
(** * Config: the configuration of a service ([backend/platform/config.go])

    Loading it from the environment, its validation, and the keys it gives a validator
    and the issuer. [time.ParseDuration], the quoting of [%q] and the reading of key files
    are parameters. *)

From S2P Require Import Prelude Text Platform Wire Jwks Jwt.

Open Scope Z_scope.

Definition EnvDevelopment : string := "development".
Definition EnvTest : string := "test".
Definition EnvStaging : string := "staging".
Definition EnvProduction : string := "production".

Record JWTConfig := mkJWTConfig {
  jw_Secret : string; jw_Issuer : string; jw_Audience : string; jw_PrivateKeyFile : string;
  jw_KeyID : string; jw_JWKSURL : string; jw_PublicKeyFile : string; jw_AllowHS256 : bool;
}.

Record Config := mkConfig {
  cf_Name : string; cf_Env : string; cf_Port : string;
  cf_DatabaseURL : string; cf_RedisURL : string; cf_NATSURL : string;
  cf_TemporalHostPort : string; cf_TemporalNamespace : string;
  cf_JWT : JWTConfig;
  cf_OTelEndpoint : string; cf_OTelEnabled : bool;
  cf_ShutdownTimeout : Z;
  cf_MetricsAddr : string;
  cf_TrustForwarded : bool;
  cf_AuthRateLimitRPM : Z;
}.

Definition legacyDevJWTSecret : string := "dev-only-insecure-jwt-secret-change-me-32b".

(** ** The environment *)

Section Load.
Context (getenv : string → string) (ParseDuration : string → option Z).

Definition envOr (key fallback : string) : string :=
  let v := TrimSpace (getenv key) in if String.eqb v "" then fallback else v.

(** [strconv.ParseBool] *)
Definition ParseBool (s : string) : option bool :=
  if existsb (String.eqb s) ["1"; "t"; "T"; "true"; "TRUE"; "True"] then Some true
  else if existsb (String.eqb s) ["0"; "f"; "F"; "false"; "FALSE"; "False"] then Some false
  else None.

Definition envBool (key : string) (fallback : bool) : bool :=
  let v := TrimSpace (getenv key) in
  if String.eqb v "" then fallback else default fallback (ParseBool v).

Definition envDuration (key : string) (fallback : Z) : Z :=
  let v := TrimSpace (getenv key) in
  if String.eqb v "" then fallback
  else match ParseDuration v with Some d => if 0 <? d then d else fallback | None => fallback end.

Definition envInt (key : string) (fallback : Z) : Z :=
  let v := TrimSpace (getenv key) in
  if String.eqb v "" then fallback else default fallback (ParseInt v).

Definition Load : Config :=
  let env := envOr "MOTIVRA_ENV" EnvDevelopment in
  mkConfig (envOr "MOTIVRA_APP_NAME" "motivra") env (envOr "PORT" (envOr "MOTIVRA_PORT" "8080"))
    (getenv "MOTIVRA_DATABASE_URL") (getenv "MOTIVRA_REDIS_URL") (getenv "MOTIVRA_NATS_URL")
    (getenv "MOTIVRA_TEMPORAL_ADDRESS") (envOr "MOTIVRA_TEMPORAL_NAMESPACE" "default")
    (mkJWTConfig (getenv "MOTIVRA_JWT_SECRET") (envOr "MOTIVRA_JWT_ISSUER" "motivra-identity")
       (envOr "MOTIVRA_JWT_AUDIENCE" "motivra") (getenv "MOTIVRA_JWT_PRIVATE_KEY_FILE")
       (getenv "MOTIVRA_JWT_KEY_ID") (getenv "MOTIVRA_JWT_JWKS_URL")
       (getenv "MOTIVRA_JWT_PUBLIC_KEY_FILE") (envBool "MOTIVRA_JWT_ALLOW_HS256" false))
    (getenv "OTEL_EXPORTER_OTLP_ENDPOINT") (envBool "MOTIVRA_OTEL_ENABLED" (String.eqb env EnvProduction))
    (envDuration "MOTIVRA_SHUTDOWN_TIMEOUT" (15 * second))
    (envOr "MOTIVRA_METRICS_ADDR" ":9090") (envBool "MOTIVRA_TRUST_FORWARDED" false)
    (envInt "MOTIVRA_AUTH_RATE_LIMIT_RPM" 60).

End Load.

(** ** Validation *)

Definition known_env (env : string) : bool :=
  existsb (String.eqb env) [EnvDevelopment; EnvTest; EnvStaging; EnvProduction].

Definition valid_port (port : string) : bool :=
  match ParseInt port with Some n => (1 <=? n) && (n <=? 65535) | None => false end.

(** The strict environments: staging, production and every unknown one. *)
Definition strict (env : string) : bool := negb (String.eqb env EnvTest) && negb (String.eqb env EnvDevelopment).

Definition problem (b : bool) (text : string) : list string := if b then [text] else [].

Definition has_key_source (j : JWTConfig) : bool :=
  negb (String.eqb (jw_JWKSURL j) "") || negb (String.eqb (jw_PublicKeyFile j) "") ||
  jw_AllowHS256 j && negb (String.eqb (jw_Secret j) "").

(** The rules for the secrets and keys. *)
Definition secret_problems (c : Config) : list string :=
  let j := cf_JWT c in
  if String.eqb (cf_Env c) EnvTest then []
   else if String.eqb (cf_Env c) EnvDevelopment then
     problem (String.eqb (jw_Secret j) legacyDevJWTSecret)
       "MOTIVRA_JWT_SECRET must not be the historical development placeholder (generate one: openssl rand -base64 48)"
   else
     problem (negb (String.eqb (jw_Secret j) "") && (Z.of_nat (String.length (jw_Secret j)) <? 32))
       ("MOTIVRA_JWT_SECRET must be at least 32 bytes in " +:+ cf_Env c) ++
     problem (String.eqb (jw_Secret j) legacyDevJWTSecret)
       "MOTIVRA_JWT_SECRET must not be the historical development placeholder" ++
     problem (negb (has_key_source j))
       ("token verification keys are required in " +:+ cf_Env c +:+ ": set MOTIVRA_JWT_JWKS_URL or MOTIVRA_JWT_PUBLIC_KEY_FILE (or MOTIVRA_JWT_ALLOW_HS256=1 with MOTIVRA_JWT_SECRET for the documented migration window)").

Definition ValidateProblems (quote : string → string) (c : Config) : list string :=
  let j := cf_JWT c in
  problem (String.eqb (cf_DatabaseURL c) "" && negb (String.eqb (cf_Env c) EnvTest))
    "MOTIVRA_DATABASE_URL is required" ++
  problem (negb (known_env (cf_Env c))) ("MOTIVRA_ENV " +:+ quote (cf_Env c) +:+ " is not a known environment") ++
  problem (negb (valid_port (cf_Port c))) ("MOTIVRA_PORT " +:+ quote (cf_Port c) +:+ " is not a valid port") ++
  secret_problems c ++
  problem (jw_AllowHS256 j && String.eqb (jw_Secret j) "" && negb (String.eqb (cf_Env c) EnvTest))
    "MOTIVRA_JWT_ALLOW_HS256 requires MOTIVRA_JWT_SECRET (the legacy HS256 path is the shared secret)" ++
  problem (cf_OTelEnabled c && String.eqb (cf_OTelEndpoint c) "")
    "OTEL_EXPORTER_OTLP_ENDPOINT is required when OTEL tracing is enabled" ++
  problem (cf_ShutdownTimeout c <=? 0) "MOTIVRA_SHUTDOWN_TIMEOUT must be positive" ++
  problem (cf_AuthRateLimitRPM c <? 0) "MOTIVRA_AUTH_RATE_LIMIT_RPM must not be negative".

(** [strings.Join] with "; " *)
Fixpoint join_problems (l : list string) : string :=
  match l with
  | [] => ""
  | [p] => p
  | p :: l => p +:+ "; " +:+ join_problems l
  end.

(** The error, if there is one. *)
Definition Config_Validate (quote : string → string) (c : Config) : option string :=
  match ValidateProblems quote c with
  | [] => None
  | problems => Some ("invalid configuration: " +:+ join_problems problems)
  end.

(** [strings.Repeat("test-secret-", 4)] *)
Definition LoadForTest : Config :=
  mkConfig "motivra-test" EnvTest "8080" "" "" "" "" ""
    (mkJWTConfig "test-secret-test-secret-test-secret-test-secret-" "motivra-identity" "motivra" "" "" "" "" false)
    "" false (5 * second) "" false 0.

(** ** The keys *)

(** [read_public_key]: [LoadJWTPublicKeyFromPEMFile] with the fingerprint of the key,
    [None] when it cannot be read; the fingerprint is empty when there is none. *)
Definition NewValidatorFromConfig (read_public_key : string → option (PublicKey * string)) (c : Config)
    : option JWTValidator :=
  let j := cf_JWT c in
  let opts := [WithValidatorIssuerAudience (jw_Issuer j) (jw_Audience j)] in
  let test := String.eqb (cf_Env c) EnvTest in
  file ← (if String.eqb (jw_PublicKeyFile j) "" then Some []
          else '(pub, kid) ← read_public_key (jw_PublicKeyFile j); Some [WithPublicKeyPEM kid pub]);
  let remote := if negb (String.eqb (jw_JWKSURL j) "") || negb test then [WithJWKSURL] else [] in
  let legacy := if jw_AllowHS256 j && negb (String.eqb (jw_Secret j) "")
                then [WithLegacyHS256 (jw_Secret j)] else [] in
  let configured := negb (bool_decide (length (file ++ remote ++ legacy) = 0%nat)) in
  if configured then Some (NewValidator (opts ++ file ++ remote ++ legacy))
  else if test && negb (String.eqb (jw_Secret j) "")
  then Some (NewValidator (opts ++ [WithLegacyHS256 (jw_Secret j)]))
  else None.

(** Where the issuer's signing key comes from. *)
Inductive SignerSource := SignerFile (path : string) | SignerEphemeral.

Definition NewSignerFromConfig (c : Config) : option SignerSource :=
  if negb (String.eqb (jw_PrivateKeyFile (cf_JWT c)) "") then Some (SignerFile (jw_PrivateKeyFile (cf_JWT c)))
  else if String.eqb (cf_Env c) EnvDevelopment || String.eqb (cf_Env c) EnvTest then Some SignerEphemeral
  else None.

(** ** What a configuration without problems is *)

Definition sound (c : Config) : Prop :=
  let j := cf_JWT c in
  (cf_Env c ≠ EnvTest → cf_DatabaseURL c ≠ "") ∧
  cf_Env c ∈ [EnvDevelopment; EnvTest; EnvStaging; EnvProduction] ∧
  (∃ n, ParseInt (cf_Port c) = Some n ∧ 1 ≤ n ≤ 65535) ∧
  (cf_Env c ≠ EnvTest → jw_Secret j ≠ legacyDevJWTSecret) ∧
  (cf_Env c ∈ [EnvStaging; EnvProduction] →
     (jw_Secret j ≠ "" → 32 ≤ Z.of_nat (String.length (jw_Secret j))) ∧ has_key_source j = true) ∧
  (cf_Env c ≠ EnvTest → jw_AllowHS256 j = true → jw_Secret j ≠ "") ∧
  (cf_OTelEnabled c = true → cf_OTelEndpoint c ≠ "") ∧
  0 < cf_ShutdownTimeout c ∧ 0 ≤ cf_AuthRateLimitRPM c.

Lemma problem_nil b text : problem b text = [] ↔ b = false.
Proof. by destruct b. Qed.

Lemma known_env_spec env : known_env env = true ↔ env ∈ [EnvDevelopment; EnvTest; EnvStaging; EnvProduction].
Proof.
  unfold known_env. rewrite existsb_exists. split.
  - intros (x & X & E). apply String.eqb_eq in E as ->. by apply list_elem_of_In.
  - intros E. exists env. split; [by apply list_elem_of_In|apply String.eqb_refl].
Qed.

Lemma valid_port_spec port : valid_port port = true ↔ ∃ n, ParseInt port = Some n ∧ 1 ≤ n ≤ 65535.
Proof.
  unfold valid_port. destruct (ParseInt port) as [n|]; [|naive_solver].
  rewrite andb_true_iff, !Z.leb_le. naive_solver.
Qed.

Lemma eqb_ne (s t : string) : String.eqb s t = false ↔ s ≠ t.
Proof. apply String.eqb_neq. Qed.

Lemma secret_problems_nil c : secret_problems c = [] ↔
  (cf_Env c ≠ EnvTest → jw_Secret (cf_JWT c) ≠ legacyDevJWTSecret) ∧
  (cf_Env c ≠ EnvTest → cf_Env c ≠ EnvDevelopment →
    (jw_Secret (cf_JWT c) ≠ "" → 32 ≤ Z.of_nat (String.length (jw_Secret (cf_JWT c)))) ∧
    has_key_source (cf_JWT c) = true).
Proof.
  unfold secret_problems. cbn zeta.
  destruct (String.eqb_spec (cf_Env c) EnvTest) as [T|T]; [naive_solver|].
  destruct (String.eqb_spec (cf_Env c) EnvDevelopment) as [D|D].
  { rewrite problem_nil, eqb_ne. naive_solver. }
  rewrite !app_nil, !problem_nil, andb_false_iff, !negb_false_iff, String.eqb_eq, eqb_ne, Z.ltb_ge.
  destruct (decide (jw_Secret (cf_JWT c) = "")); naive_solver.
Qed.

(** The validation finds exactly the configurations that are not sound. *)
Theorem ValidateProblems_exact quote c : ValidateProblems quote c = [] ↔ sound c.
Proof.
  unfold ValidateProblems, sound. cbn zeta.
  rewrite !app_nil, secret_problems_nil, !problem_nil, !andb_false_iff, !negb_false_iff,
    known_env_spec, valid_port_spec, !String.eqb_eq, !eqb_ne, Z.leb_gt, Z.ltb_ge.
  assert (E : cf_Env c ∈ [EnvDevelopment; EnvTest; EnvStaging; EnvProduction] →
    cf_Env c ≠ EnvTest ∧ cf_Env c ≠ EnvDevelopment ↔ cf_Env c ∈ [EnvStaging; EnvProduction]).
  { intros E. rewrite !elem_of_cons, elem_of_nil in E. destruct E as [->|[->|[->|[->|[]]]]];
      rewrite !elem_of_cons, elem_of_nil; unfold EnvTest, EnvDevelopment, EnvStaging, EnvProduction; naive_solver. }
  destruct (decide (cf_Env c = EnvTest)) as [T|T]; destruct (jw_AllowHS256 (cf_JWT c)), (cf_OTelEnabled c); naive_solver.
Qed.

(** ** The keys of a sound configuration *)

(** A deployment whose configuration has no problems gets a validator that can verify
    tokens, provided its key file can be read. In staging and production it holds the
    shared secret just when the migration flag is set. *)
Theorem sound_config_verifies quote read c (P : ValidateProblems quote c = [])
    (E : cf_Env c ∈ [EnvStaging; EnvProduction])
    (F : jw_PublicKeyFile (cf_JWT c) ≠ "" → is_Some (read (jw_PublicKeyFile (cf_JWT c)))) :
  ∃ v, NewValidatorFromConfig read c = Some v ∧ acceptedAlgorithms v ≠ [] ∧
    HasPrivateKeyMaterial (Some v) = jw_AllowHS256 (cf_JWT c) ∧
    issuer v = jw_Issuer (cf_JWT c) ∧ audience v = jw_Audience (cf_JWT c) ∧ leeway v = 30 * second.
Proof.
  apply ValidateProblems_exact in P as (_ & _ & _ & _ & _ & H & _).
  assert (T : String.eqb (cf_Env c) EnvTest = false).
  { rewrite !elem_of_cons, elem_of_nil in E. by destruct E as [->|[->|[]]]. }
  specialize (H (proj1 (String.eqb_neq _ _) T)).
  unfold NewValidatorFromConfig. cbn zeta. rewrite T. cbn [negb].
  rewrite (orb_true_r (negb (String.eqb (jw_JWKSURL (cf_JWT c)) ""))).
  assert (L : jw_AllowHS256 (cf_JWT c) && negb (String.eqb (jw_Secret (cf_JWT c)) "") = jw_AllowHS256 (cf_JWT c)).
  { destruct (jw_AllowHS256 (cf_JWT c)); [|done]. cbn. apply negb_true_iff, String.eqb_neq. by apply H. }
  rewrite L.
  destruct (String.eqb_spec (jw_PublicKeyFile (cf_JWT c)) "") as [N|N].
  - cbn. destruct (jw_AllowHS256 (cf_JWT c)); eexists; split_and!; done.
  - destruct (F N) as [[pub kid] ->]. cbn. destruct (jw_AllowHS256 (cf_JWT c)); eexists; split_and!; try done;
      unfold acceptedAlgorithms; cbn; by rewrite andb_false_r.
Qed.

Definition plain_quote (s : string) : string := s.
Definition no_keys (_ : string) : option (PublicKey * string) := None.

Definition production (j : JWTConfig) : Config :=
  mkConfig "gateway" EnvProduction "8080" "postgres://db" "" "" "" "default" j "" false (15 * second) ":9090" false 60.

Theorem sound_config_verifies_witness :
  ∃ v, NewValidatorFromConfig no_keys
         (production (mkJWTConfig "" "motivra-identity" "motivra" "" "" "https://id/jwks" "" false)) = Some v ∧
    HasPrivateKeyMaterial (Some v) = false.
Proof.
  destruct (sound_config_verifies plain_quote no_keys
    (production (mkJWTConfig "" "motivra-identity" "motivra" "" "" "https://id/jwks" "" false)))
    as (v & V & _ & K & _); [vm_compute; reflexivity|by apply list_elem_of_further, list_elem_of_here| |by exists v].
  intros N. by destruct N.
Defined.

(** The default of the compose topology cannot be relied on: a production service with no
    key settings is refused by the validation, although the validator it would get is
    usable. *)
Theorem default_jwks_refused quote read :
  let c := production (mkJWTConfig "" "motivra-identity" "motivra" "" "" "" "" false) in
  ValidateProblems quote c ≠ [] ∧
  ∃ v, NewValidatorFromConfig read c = Some v ∧ jwks v = Some newJWKSCache.
Proof. cbn zeta. split; [vm_compute; discriminate|]. by eexists. Qed.
