(* ===== verification/Boot.v ===== *)
(** * Boot: degraded boot and readiness ([backend/platform/boot.go], [server.go])

    The wiring loop and what the server answers before, during and after it. A step of a
    pass changes the variables of the process it captured and the coordinator, and returns
    an error or none; the loop's timer and the cancellation of its context bound the number
    of passes. Logging and the locks are not modelled: the loop is one goroutine, and the
    only one that blocks. *)

From stdpp Require Import sorting.
From S2P Require Import Prelude Text Platform Wire PayModels Http Auth.

Open Scope Z_scope.

(** ** The coordinator *)

Definition defaultWireBackoffBase : Z := 250000000.
Definition defaultWireBackoffMax : Z := 10 * second.

(** [hooks] are the answers of the shutdown hooks in the order of their registration, [H]
    the handlers that can be installed. *)
Record Boot {H : Type} := mkBoot {
  blockers : gmap string string;
  degradations : gmap string string;
  permanent : gset string;
  hooks : list (option string);
  ready : bool;
  domain : option H;
}.
Arguments Boot : clear implicits.
Arguments mkBoot {H}.

Section Boot.
Context {H V : Type}.
Abbreviation boot := (Boot H) (only parsing).

Definition NewBoot : boot := mkBoot ∅ ∅ ∅ [] false None.

Definition Block (name reason : string) (b : boot) : boot :=
  mkBoot (<[name := reason]> (blockers b)) (degradations b) (permanent b) (hooks b) false (domain b).

Definition BlockPermanent (name reason : string) (b : boot) : boot :=
  Block name reason
    (mkBoot (blockers b) (degradations b) ({[name]} ∪ permanent b) (hooks b) (ready b) (domain b)).

Definition isPermanent (name : string) (b : boot) : bool := bool_decide (name ∈ permanent b).
Definition remainingBlockers (b : boot) : nat := size (blockers b).

Definition Unblock (name : string) (b : boot) : boot :=
  mkBoot (delete name (blockers b)) (degradations b) (permanent b) (hooks b) (ready b) (domain b).

Definition Degraded (name reason : string) (b : boot) : boot :=
  mkBoot (blockers b) (<[name := reason]> (degradations b)) (permanent b) (hooks b) (ready b) (domain b).

Definition SetDomainHandler (h : H) (b : boot) : boot :=
  mkBoot (blockers b) (degradations b) (permanent b) (hooks b) (ready b) (Some h).

Definition OnShutdown (hook : option string) (b : boot) : boot :=
  mkBoot (blockers b) (degradations b) (permanent b) (hooks b ++ [hook]) (ready b) (domain b).

(** The hook of a step that starts something to stop, if it does. *)
Definition with_hook (hook : option (option string)) (b : boot) : boot :=
  match hook with Some h => OnShutdown h b | None => b end.

Definition markReady (b : boot) : boot :=
  mkBoot (blockers b) (degradations b) (permanent b) (hooks b) true (domain b).

(** The names, sorted. *)
Definition sorted_names (m : gmap string string) : list string := merge_sort String.le (map_to_list m).*1.
Definition PublicReasons (b : boot) : list string := sorted_names (blockers b).
Definition Degradations (b : boot) : list string := sorted_names (degradations b).

(** The hooks are run last first; the first error, after all of them. *)
Definition run_cleanups (cleanups : list (option string)) : option string :=
  foldr (λ result first, match first with Some e => Some e | None => result end) None cleanups.

(** [Graceful], from the signal on: the error of the server, unless it was merely closed,
    before that of a cleanup. *)
Definition Graceful (serverErr : option string) (cleanups : list (option string)) : option string :=
  let firstErr := run_cleanups cleanups in
  match serverErr with Some e => Some e | None => firstErr end.

Definition RunShutdownHooks (b : boot) : option string := run_cleanups (hooks b).

(** ** The wiring loop *)

(** A process: the variables its steps capture, and its coordinator. *)
Definition process : Type := V * boot.

Definition coordinate (f : boot → boot) (p : process) : process := (p.1, f p.2).

(** [Run] gets the number of the pass. *)
Record BootStep := mkBootStep {
  Name : string;
  Permanent : bool;
  Run : nat → process → process * option string;
}.

Definition runStep (n : nat) (step : BootStep) (p : process) : process * option string :=
  match Run step n p with
  | (p, None) => (coordinate (Unblock (Name step)) p, None)
  | (p, Some e) => (p, Some e)
  end.

(** One pass: whether it was blocked. *)
Fixpoint pass (n : nat) (steps : list BootStep) (p : process) : process * bool :=
  match steps with
  | [] => (p, false)
  | step :: steps =>
      if isPermanent (Name step) p.2 then pass n steps p
      else match runStep n step p with
           | (p, None) => pass n steps p
           | (p, Some e) =>
               (coordinate (if Permanent step then BlockPermanent (Name step) e else Block (Name step) e) p, true)
           end
  end.

(** The loop from pass [n], for at most [fuel] passes: [None] when the context was
    cancelled before it returned. With the delays it waited. *)
Fixpoint runWire (fuel n : nat) (delay : Z) (steps : list BootStep) (p : process)
    : option process * list Z :=
  match fuel with
  | O => (None, [])
  | S fuel =>
      match pass n steps p with
      | (p, false) =>
          (Some (if bool_decide (remainingBlockers p.2 = 0%nat) then coordinate markReady p else p), [])
      | (p, true) =>
          let next := if defaultWireBackoffMax <? 2 * delay then defaultWireBackoffMax else 2 * delay in
          let '(r, delays) := runWire fuel (S n) next steps p in (r, delay :: delays)
      end
  end.

(** The processes a request can meet while the loop runs: before each step, after what it
    has run, and after its blocker is lifted or set. *)
Definition blocked (step : BootStep) (e : string) : boot → boot :=
  if Permanent step then BlockPermanent (Name step) e else Block (Name step) e.

Fixpoint pass_trace (n : nat) (steps : list BootStep) (p : process) : list process :=
  p :: match steps with
       | [] => []
       | step :: steps =>
           if isPermanent (Name step) p.2 then pass_trace n steps p
           else (Run step n p).1 ::
                match runStep n step p with
                | (p, None) => pass_trace n steps p
                | (p, Some e) => [coordinate (blocked step e) p]
                end
       end.

Fixpoint wire_trace (fuel n : nat) (steps : list BootStep) (p : process) : list process :=
  match fuel with
  | O => []
  | S fuel => pass_trace n steps p ++
      match pass n steps p with
      | (p, true) => wire_trace fuel (S n) steps p
      | (_, false) => []
      end
  end.

Definition Wire (passes : nat) (steps : list BootStep) (p : process) : option process * list Z :=
  runWire passes 0 defaultWireBackoffBase steps p.

(** ** The server *)

Definition json_names (names : list string) : string := json_array (map json_string names).

Definition not_ready_members (names : list string) : list (string * string) :=
  member "code" (json_string "not_ready") ++ member "failed" (json_names names).
Definition not_ready_title : list (string * string) := member "title" (json_string "Service is not ready").

Definition writeNotReady (b : boot) : Response :=
  mkResponse 503 "application/problem+json"
    (json_object (not_ready_members (PublicReasons b) ++ not_ready_title)).

Definition handleLiveness : Response :=
  mkResponse 200 "application/json" (json_object (member "status" (json_string "ok"))).

Definition bootOperatorRoles : list string := ["ADMIN"; "SUPER_ADMIN"].

Definition isOperator (claims : option Claims) : bool :=
  match claims with Some c => existsb (String.eqb (c_Role c)) bootOperatorRoles | None => false end.

(** The failures: what the checkers answered, overlaid with the blockers. *)
Definition readiness_failures (checkers : gmap string (option string)) (b : option boot) : gmap string string :=
  match b with Some b => blockers b ∪ omap id checkers | None => omap id checkers end.

(** A JSON object of a map: the members by name. *)
Definition json_map (m : gmap string string) : string :=
  json_object (map (λ name, (name, json_string (default "" (m !! name)))) (sorted_names m)).

Definition handleReadiness (checkers : gmap string (option string)) (b : option boot)
    (claims : option Claims) : Response :=
  let failures := readiness_failures checkers b in
  if bool_decide (size failures = 0%nat) then
    match b with
    | Some b =>
        if bool_decide (length (Degradations b) = 0%nat)
        then mkResponse 200 "application/json" (json_object (member "status" (json_string "ready")))
        else mkResponse 200 "application/json" (json_object (
               member "degraded" (json_names (Degradations b)) ++ member "status" (json_string "ready")))
    | None => mkResponse 200 "application/json" (json_object (member "status" (json_string "ready")))
    end
  else
    mkResponse 503 "application/problem+json" (json_object (
      not_ready_members (sorted_names failures) ++
      (if isOperator claims then member "reasons" (json_map failures) else []) ++ not_ready_title)).

(** [http.NotFound] *)
Definition plain_not_found : Response :=
  mkResponse 404 "text/plain; charset=utf-8" ("404 page not found" +:+ String (byte 10%N) "").

(** [serve]: what an installed handler does with a request. *)
Definition serveDomainGate {W} (serve : H → W → Response * W) (b : boot) (w : W) : Response * W :=
  if negb (ready b) then (writeNotReady b, w)
  else match domain b with Some h => serve h w | None => (plain_not_found, w) end.

Definition serveMethodGate (b : boot) : Response :=
  if negb (ready b) then writeNotReady b
  else mkResponse 405 "application/problem+json" (json_object (
         member "code" (json_string "method_not_allowed") ++ member "title" (json_string "Method not allowed"))).

(** ** What the loop comes to *)

(** A step that leaves the readiness to the loop. *)
Definition quiet (step : BootStep) : Prop := ∀ n p,
  let b := (Run step n p).1.2 in
  blockers b = blockers p.2 ∧ permanent b = permanent p.2 ∧ ready b = ready p.2.

Definition succeeds (n : nat) (step : BootStep) : Prop := ∀ p, (Run step n p).2 = None.

Section Loop.
Context (steps : list BootStep) (Q : Forall quiet steps).

(** The steps whose failure is for good and that have not failed yet. *)
Definition pending (l : list BootStep) (b : boot) : nat :=
  length (List.filter (λ s, Permanent s && negb (isPermanent (Name s) b)) l).

Abbreviation keys m := (base.dom (D := gset string) m) (only parsing).

(** While the loop runs: not ready, the blockers are of steps, the permanent ones among
    them. *)
Record wiring (b : boot) : Prop := {
  wiring_gated : ready b = false;
  wiring_names : ∀ name, name ∈ keys (blockers b) → name ∈ map Name steps;
  wiring_permanent : permanent b ⊆ keys (blockers b);
}.

Lemma pending_le l b b' : permanent b ⊆ permanent b' → (pending l b' <= pending l b)%nat.
Proof.
  intros S. unfold pending. induction l as [|s l IH]; cbn; [done|].
  destruct (Permanent s && negb (isPermanent (Name s) b')) eqn:P; [|case_match; cbn; lia].
  apply andb_true_iff in P as [-> P]. unfold isPermanent in P.
  assert (isPermanent (Name s) b = false) as ->; [|cbn; lia].
  unfold isPermanent. apply bool_decide_eq_false. apply negb_true_iff, bool_decide_eq_false in P. set_solver.
Qed.

Lemma pending_lt l s b b' : s ∈ l → Permanent s = true → Name s ∉ permanent b →
  Name s ∈ permanent b' → permanent b ⊆ permanent b' → (pending l b' < pending l b)%nat.
Proof.
  intros E P N N' S. induction l as [|t l IH]; [by apply not_elem_of_nil in E|].
  pose proof (pending_le l b b' S) as L. unfold pending in *. cbn.
  apply elem_of_cons in E as [<-|E].
  - rewrite P. unfold isPermanent at 1. rewrite (bool_decide_eq_true_2 _ N'). cbn.
    unfold isPermanent at 2. rewrite (bool_decide_eq_false_2 _ N). cbn. lia.
  - specialize (IH E). destruct (Permanent t && negb (isPermanent (Name t) b')) eqn:Pt; [|case_match; cbn; lia].
    apply andb_true_iff in Pt as [-> Pt]. apply negb_true_iff, bool_decide_eq_false in Pt.
    assert (isPermanent (Name t) b = false) as ->; [|cbn; lia]. apply bool_decide_eq_false. set_solver.
Qed.

(** What a pass does, for the part [l] of the steps it has still to run. *)
Definition passed (n : nat) (l : list BootStep) (b b' : boot) (blocked : bool) : Prop :=
  wiring b' ∧ permanent b ⊆ permanent b' ∧
  (blocked = false →
    permanent b' = permanent b ∧
    (∀ name, name ∈ keys (blockers b') → name ∈ keys (blockers b) ∧ (name ∉ map Name l ∨ name ∈ permanent b))) ∧
  (blocked = true → Forall (λ s, Permanent s = false → succeeds n s) l →
    (pending steps b' < pending steps b)%nat).

Lemma wiring_unblock name b b1 : wiring b → name ∉ permanent b →
  blockers b1 = blockers b → permanent b1 = permanent b → ready b1 = ready b → wiring (Unblock name b1).
Proof.
  intros [G N P] F Eb Ep E. split; cbn; [congruence| |]; rewrite Eb, ?Ep, dom_delete_L; [|set_solver].
  intros x X. apply N. set_solver.
Qed.

Lemma wiring_block name e b b1 : wiring b → name ∈ map Name steps →
  blockers b1 = blockers b → permanent b1 ⊆ {[name]} ∪ permanent b → wiring (Block name e b1).
Proof.
  intros [G N P] F E S. split; cbn; [done| |]; rewrite E, dom_insert_L; [|set_solver].
  intros x X. apply elem_of_union in X as [X|X]; [|by apply N]. apply elem_of_singleton in X as ->. done.
Qed.

Lemma pass_spec n l : ∀ p p' blocked, Forall quiet l → (∀ s, s ∈ l → s ∈ steps) → wiring p.2 →
  pass n l p = (p', blocked) → passed n l p.2 p'.2 blocked.
Proof.
  induction l as [|s l IH]; intros [v b] p' blocked Ql Sub I; cbn [pass snd] in *.
  { intros [= <- <-]. split_and!; [done|done| |done]. intros _. split; [done|]. cbn. set_solver. }
  pose proof (Forall_inv Ql) as Qs. apply Forall_inv_tail in Ql.
  assert (Sub' : ∀ s, s ∈ l → s ∈ steps) by (intros t T; apply Sub; by apply list_elem_of_further).
  assert (Sin : s ∈ steps) by (apply Sub, list_elem_of_here).
  destruct (isPermanent (Name s) b) eqn:P.
  { intros R. destruct (IH (v, b) p' blocked Ql Sub' I R) as (I' & Pe & Un & Bl). split_and!; [done|done| |].
    - intros E. destruct (Un E) as [Pm D]. split; [done|]. intros name Nm. destruct (D name Nm) as [D1 D2].
      split; [done|]. apply bool_decide_eq_true in P. cbn.
      destruct (decide (name = Name s)) as [->|]; [by right|]. destruct D2; [left|by right]. set_solver.
    - intros E F. apply Bl; [done|]. by apply Forall_inv_tail in F. }
  apply bool_decide_eq_false in P. unfold runStep. pose proof (Qs n (v, b)) as (Qb & Qp & Qr).
  destruct (Run s n (v, b)) as [[v1 b1] [e|]] eqn:Rn; cbn [fst snd] in Qb, Qp, Qr; unfold coordinate; cbn [fst snd].
  - assert (Nm : Name s ∈ map Name steps) by by apply list_elem_of_fmap_2.
    destruct (Permanent s) eqn:Ps; intros [= <- <-]; cbn [snd]; (split_and!; [| |done|]).
    + by apply (wiring_block _ _ b); cbn; rewrite ?Qp.
    + cbn. rewrite Qp. set_solver.
    + intros _ _. apply (pending_lt _ s); cbn; rewrite ?Qp; try done; set_solver.
    + apply (wiring_block _ _ b); rewrite ?Qp; try done. set_solver.
    + cbn. by rewrite Qp.
    + intros _ F. pose proof (Forall_inv F Ps (v, b)) as Sc. by rewrite Rn in Sc.
  - intros R. destruct (IH (v1, Unblock (Name s) b1) p' blocked Ql Sub') as (I' & Pe & Un & Bl);
      [by apply (wiring_unblock _ b)|done|]. cbn [Unblock permanent blockers snd] in Pe, Un, Bl.
    rewrite Qp, Qb in *. split_and!; [done|done| |].
    + intros E. destruct (Un E) as [Pm D]. split; [done|]. intros name Nm. destruct (D name Nm) as [D1 D2].
      rewrite dom_delete_L in D1. cbn. split; [set_solver|]. destruct D2; [left|by right]. set_solver.
    + intros E F. apply Forall_inv_tail in F. specialize (Bl E F).
      enough (pending steps (Unblock (Name s) b1) <= pending steps b)%nat by lia.
      apply pending_le. cbn. by rewrite Qp.
Qed.

(** The pass that is not blocked leaves the permanent blockers, and only those. *)
Lemma last_pass n p p' : wiring p.2 → pass n steps p = (p', false) → keys (blockers p'.2) = permanent p'.2.
Proof.
  intros I R. destruct (pass_spec n steps p p' false Q (λ s X, X) I R) as ([_ N P] & _ & Un & _).
  destruct (Un eq_refl) as [Pm D]. apply set_eq. intros name. split.
  - intros X. rewrite Pm. destruct (D name X) as [Y [Z|Z]]; [|done].
    destruct Z. by apply I.
  - apply P.
Qed.

(** The process the loop leaves: the last pass was not blocked, and started with whatever
    the blocked ones before it keep. *)
Lemma wire_last (Inv : process → Prop) fuel : (∀ n p p', Inv p → pass n steps p = (p', true) → Inv p') →
  ∀ n delay p p' delays, wiring p.2 → Inv p → runWire fuel n delay steps p = (Some p', delays) →
  ∃ k p0 p1, wiring p0.2 ∧ Inv p0 ∧ pass k steps p0 = (p1, false) ∧
    p' = if bool_decide (remainingBlockers p1.2 = 0%nat) then coordinate markReady p1 else p1.
Proof.
  intros K. induction fuel as [|fuel IH]; intros n delay p p' delays I Ip; cbn [runWire]; [done|].
  destruct (pass n steps p) as [p1 [|]] eqn:P.
  - destruct (runWire fuel _ _ steps p1) as [r ds] eqn:R. intros [= -> <-].
    eapply IH; [|by eapply K|exact R]. by apply (pass_spec n steps p p1 true Q (λ s X, X) I P).
  - intros [= <- <-]. by exists n, p, p1.
Qed.

Lemma wire_outcome fuel n delay p p' delays : wiring p.2 →
  runWire fuel n delay steps p = (Some p', delays) →
  keys (blockers p'.2) = permanent p'.2 ∧ ready p'.2 = bool_decide (permanent p'.2 = ∅).
Proof.
  intros I R. destruct (wire_last (λ _, True) fuel) with (2 := I) (4 := R) as (k & p0 & p1 & I0 & _ & P & ->); [done..|].
  pose proof (last_pass _ _ _ I0 P) as L.
  destruct (pass_spec k steps p0 p1 false Q (λ s X, X) I0 P) as ([G _ _] & _).
  assert (E0 : remainingBlockers p1.2 = size (permanent p1.2)) by (unfold remainingBlockers; by rewrite <-(size_dom (D := gset string)), L).
  destruct (bool_decide_reflect (remainingBlockers p1.2 = 0%nat)) as [E|E]; rewrite E0 in E.
  - apply size_empty_inv, leibniz_equiv in E. cbn. by rewrite L, bool_decide_true.
  - rewrite bool_decide_false; [done|]. intros Z. apply E. by rewrite Z.
Qed.

(** What a step that succeeds has established, and no step undoes, holds once a pass has
    gone through with nothing blocked for good. *)
Definition established (step : BootStep) (Φ : V → Prop) : Prop :=
  ∀ n p p', Run step n p = (p', None) → Φ p'.1.
Definition undone_by_none (l : list BootStep) (Φ : V → Prop) : Prop :=
  Forall (λ step, ∀ n p, Φ p.1 → Φ (Run step n p).1.1) l.

Lemma pass_keeps n l Φ : undone_by_none l Φ → ∀ p p' blocked, pass n l p = (p', blocked) → Φ p.1 → Φ p'.1.
Proof.
  intros U. induction l as [|s l IH]; intros p p' blocked; cbn [pass]; [by intros [= <- _]|].
  pose proof (Forall_inv U) as Us. apply Forall_inv_tail in U. destruct (isPermanent _ _); [by apply IH|].
  unfold runStep. pose proof (Us n p) as K. destruct (Run s n p) as [p1 [e|]]; cbn [fst] in K.
  - intros [= <- _] F. by apply K.
  - intros R F. eapply IH; [done|exact R|]. by apply K.
Qed.

(** While the loop runs nothing is ready, and what no step undoes holds. *)
Lemma pass_gated n l : ∀ p p' b, Forall quiet l → pass n l p = (p', b) → ready p.2 = false → ready p'.2 = false.
Proof.
  induction l as [|s l IH]; intros p p' b Ql; cbn [pass]; [by intros [= <- _]|].
  pose proof (Forall_inv Ql n p) as (_ & _ & Qr). apply Forall_inv_tail in Ql.
  destruct (isPermanent _ _); [by apply IH|]. unfold runStep. destruct (Run s n p) as [p1 [e|]]; cbn [fst] in Qr.
  - intros [= <- _] _. by destruct (Permanent s).
  - intros R G. eapply IH; [done|exact R|]. cbn. congruence.
Qed.

Lemma pass_trace_gated n l Φ : Forall quiet l → undone_by_none l Φ → ∀ p, ready p.2 = false → Φ p.1 →
  Forall (λ q, ready q.2 = false ∧ Φ q.1) (pass_trace n l p).
Proof.
  intros Ql U. induction l as [|s l IH]; intros p G F; cbn [pass_trace]; [by constructor|].
  pose proof (Forall_inv Ql n p) as (_ & _ & Qr). pose proof (Forall_inv U n p F) as K. cbn beta in K.
  apply Forall_inv_tail in Ql, U. constructor; [done|]. destruct (isPermanent _ _); [by apply IH|].
  unfold runStep. destruct (Run s n p) as [p1 [e|]]; cbn [fst] in *; constructor; try (split; congruence || done).
  - constructor; [|done]. split; [|done]. unfold blocked. by destruct (Permanent s).
  - apply IH; [done..| |done]. cbn. congruence.
Qed.

Lemma wire_trace_gated l Φ : Forall quiet l → undone_by_none l Φ → ∀ fuel n p, ready p.2 = false → Φ p.1 →
  Forall (λ q, ready q.2 = false ∧ Φ q.1) (wire_trace fuel n l p).
Proof.
  intros Ql U fuel. induction fuel as [|fuel IH]; intros n p G F; cbn [wire_trace]; [done|].
  apply Forall_app. split; [by apply pass_trace_gated|]. destruct (pass n l p) as [p' [|]] eqn:P; [|done].
  apply IH; [by eapply pass_gated|by eapply pass_keeps].
Qed.

Lemma pass_app n l l' p p' : pass n (l ++ l') p = (p', false) →
  ∃ pm, pass n l p = (pm, false) ∧ pass n l' pm = (p', false).
Proof.
  revert p. induction l as [|s l IH]; intros p; cbn [pass app]; [by exists p|].
  destruct (isPermanent _ _); [by apply IH|]. destruct (runStep n s p) as [p1 [e|]]; [done|]. by apply IH.
Qed.

Lemma pass_permanent n l : ∀ p p' b, Forall quiet l → pass n l p = (p', b) → permanent p.2 ⊆ permanent p'.2.
Proof.
  induction l as [|s l IH]; intros p p' b Ql; cbn [pass]; [by intros [= <- _]|].
  pose proof (Forall_inv Ql n p) as (_ & Qp & _). apply Forall_inv_tail in Ql.
  destruct (isPermanent _ _); [by apply IH|]. unfold runStep. destruct (Run s n p) as [p1 [e|]]; cbn [fst] in Qp.
  - intros [= <- _]. destruct (Permanent s); cbn; rewrite Qp; set_solver.
  - intros R. apply IH in R; [|done]. cbn in R. by rewrite Qp in R.
Qed.

Lemma pass_through n l s Φ : established s Φ → undone_by_none l Φ → s ∈ l → ∀ p p',
  pass n l p = (p', false) → permanent p'.2 = ∅ → Forall quiet l → Φ p'.1.
Proof.
  intros Es U. revert Es. induction l as [|t l IH]; intros Es In p p'; [by apply not_elem_of_nil in In|].
  cbn [pass]. intros R Em Ql. pose proof (Forall_inv Ql) as Qt. apply Forall_inv_tail in Ql.
  pose proof (Forall_inv_tail U) as Ul.
  destruct (isPermanent (Name t) p.2) eqn:P.
  { apply bool_decide_eq_true in P. apply (pass_permanent _ _ _ _ _ Ql) in R. set_solver. }
  unfold runStep in R. destruct (Run t n p) as [p1 [e|]] eqn:Rt; [done|].
  apply elem_of_cons in In as [->|In].
  - eapply (pass_keeps n l Φ Ul _ _ _ R). cbn. by eapply Es.
  - by eapply IH.
Qed.

Lemma wire_returns fuel : ∀ n delay p, wiring p.2 →
  (∀ k, (n <= k)%nat → Forall (λ s, Permanent s = false → succeeds k s) steps) →
  (pending steps p.2 < fuel)%nat → ∃ p' delays, runWire fuel n delay steps p = (Some p', delays).
Proof.
  induction fuel as [|fuel IH]; intros n delay p I Sc L; [lia|]. cbn [runWire].
  destruct (pass n steps p) as [p1 [|]] eqn:P; [|by eexists _, _].
  destruct (pass_spec n steps p p1 true Q (λ s X, X) I P) as (I1 & _ & _ & Bl).
  specialize (Bl eq_refl (Sc n (le_n n))).
  destruct (IH (S n) (if defaultWireBackoffMax <? 2 * delay then defaultWireBackoffMax else 2 * delay) p1)
    as (p' & ds & R); [done|intros k K; apply Sc; lia|lia|].
  rewrite R. by eexists _, _.
Qed.

(** More fuel, the same result. *)
Lemma wire_skip k : ∀ n delay p, wiring p.2 →
  ∃ p1 d, wiring p1.2 ∧ (pending steps p1.2 <= pending steps p.2)%nat ∧
    ((∃ p' ds, ∀ fuel, (k <= fuel)%nat → runWire fuel n delay steps p = (Some p', ds)) ∨
     ∃ ds, ∀ fuel, runWire (k + fuel) n delay steps p =
       let '(r, rest) := runWire fuel (n + k) d steps p1 in (r, ds ++ rest)).
Proof.
  induction k as [|k IH]; intros n delay p I.
  { exists p, delay. split_and!; [done|done|]. right. exists []. intros fuel. cbn. rewrite Nat.add_0_r.
    by destruct (runWire fuel n delay steps p). }
  destruct (pass n steps p) as [p2 [|]] eqn:P.
  - destruct (pass_spec n steps p p2 true Q (λ s X, X) I P) as (I2 & Pe & _).
    destruct (IH (S n) (if defaultWireBackoffMax <? 2 * delay then defaultWireBackoffMax else 2 * delay) p2 I2)
      as (p1 & d & I1 & L1 & [(p' & ds & F)|(ds & F)]);
      exists p1, d; (split_and!; [done|pose proof (pending_le steps p.2 p2.2 Pe); lia|]).
    + left. exists p', (delay :: ds). intros [|fuel] K; [lia|]. cbn [runWire]. rewrite P, F by lia. done.
    + right. exists (delay :: ds). intros fuel. cbn [Nat.add runWire]. rewrite P, F, Nat.add_succ_r.
      by destruct (runWire fuel _ d steps p1).
  - exists p, delay. split_and!; [done|done|]. left. eexists _, _. intros [|fuel] K; [lia|].
    cbn [runWire]. by rewrite P.
Qed.

End Loop.

(** The start of a process. *)
Lemma new_wiring steps : wiring steps NewBoot.
Proof. split; cbn; [done| |set_solver]. intros name. rewrite dom_empty_L. set_solver. Qed.


(** *** The last step installs the handler *)

Lemma pass_names n name l : (∀ s, s ∈ l → Permanent s = true → Name s ≠ name) → Forall quiet l →
  ∀ p p' b, pass n l p = (p', b) → name ∉ permanent p.2 → name ∉ permanent p'.2.
Proof.
  induction l as [|s l IH]; intros Pl Ql p p' b; cbn [pass]; [by intros [= <- _]|].
  pose proof (Forall_inv Ql n p) as (_ & Qp & _). apply Forall_inv_tail in Ql.
  specialize (IH (λ t T, Pl t (list_elem_of_further _ _ _ T)) Ql). specialize (Pl s (list_elem_of_here _ _)).
  destruct (isPermanent _ _); [by apply IH|]. unfold runStep. destruct (Run s n p) as [p1 [e|]]; cbn [fst] in Qp.
  - intros [= <- _] N. destruct (Permanent s) eqn:Ps; cbn; rewrite Qp; [|done]. specialize (Pl eq_refl). set_solver.
  - intros Pa N. eapply IH; [exact Pa|]. cbn. by rewrite Qp.
Qed.

Section Install.
Context (init : list BootStep) (last : BootStep) (build : V → H) (also : V → V) (hook : option (option string)).
Context (Q : Forall quiet (init ++ [last])) (PL : Permanent last = false).
Context (untouched : Forall (λ s, ∀ n p, domain (Run s n p).1.2 = domain p.2) init).
Context (installs : ∀ n p, Run last n p =
  match domain p.2 with
  | Some _ => (p, None)
  | None => ((also p.1, with_hook hook (SetDomainHandler (build p.1) p.2)), None)
  end).

Lemma pass_domain n l : Forall (λ s, ∀ n p, domain (Run s n p).1.2 = domain p.2) l →
  ∀ p p' b, pass n l p = (p', b) → domain p'.2 = domain p.2.
Proof using.
  intros U. induction l as [|s l IH]; intros p p' b; cbn [pass]; [by intros [= <- _]|].
  pose proof (Forall_inv U n p) as D. apply Forall_inv_tail in U. destruct (isPermanent _ _); [by apply IH|].
  unfold runStep. destruct (Run s n p) as [p1 [e|]]; cbn [fst] in D.
  - intros [= <- _]. by destruct (Permanent s).
  - intros R. by apply IH in R as ->.
Qed.

Lemma blocked_pass_domain n l : ∀ p p', Forall (λ s, ∀ n p, domain (Run s n p).1.2 = domain p.2) l →
  pass n (l ++ [last]) p = (p', true) → domain p'.2 = domain p.2.
Proof using installs.
  induction l as [|s l IH]; intros p p' U; cbn [pass app].
  - destruct (isPermanent _ _); [done|]. unfold runStep. rewrite installs. by destruct (domain p.2).
  - pose proof (Forall_inv U n p) as D. apply Forall_inv_tail in U. destruct (isPermanent _ _); [by apply IH|].
    unfold runStep. destruct (Run s n p) as [p1 [e|]]; cbn [fst] in D.
    + intros [= <-]. by destruct (Permanent s).
    + intros R. by apply IH in R as ->.
Qed.

(** When the loop has ended, ready or not, the handler is made of what the other steps
    left in the pass that went through; whatever every step keeps holds of it. *)
Lemma wire_installs (Inv : V → Prop) passes v p delays : undone_by_none (init ++ [last]) Inv → Inv v →
  Name last ∉ map Name init → Wire passes (init ++ [last]) (v, NewBoot) = (Some p, delays) →
  ∃ n p0 pm, pass n init p0 = (pm, false) ∧ permanent pm.2 = permanent p.2 ∧ Inv pm.1 ∧
    domain p.2 = Some (build pm.1) ∧ p.1 = also pm.1.
Proof using Q PL untouched installs.
  intros U Iv Nm R. assert (Qi : Forall quiet init) by by apply Forall_app in Q as [? _].
  assert (Ni : ∀ s, s ∈ init → Permanent s = true → Name s ≠ Name last).
  { intros s In _ E. apply Nm. rewrite <-E. by apply list_elem_of_fmap_2. }
  set (I := λ p : process, domain p.2 = None ∧ Inv p.1 ∧ Name last ∉ permanent p.2).
  destruct (wire_last (init ++ [last]) Q I passes) with (2 := new_wiring (init ++ [last])) (4 := R)
    as (k & p0 & p1 & W0 & (D0 & I0 & N0) & P & ->).
  - intros n q q' (D & J & N) Pa. split_and!; [by rewrite (blocked_pass_domain _ _ _ _ untouched Pa)|by eapply pass_keeps|].
    eapply (pass_names n _ (init ++ [last])); [|done|exact Pa|done].
    intros s [In|In%list_elem_of_singleton]%elem_of_app; [by apply Ni|]. subst. congruence.
  - split_and!; [done|done|cbn; set_solver].
  - apply pass_app in P as (pm & Pi & Pl). exists k, p0, pm.
    assert (Dm : domain pm.2 = None) by by rewrite (pass_domain _ _ untouched _ _ _ Pi).
    pose proof (pass_names k _ init Ni Qi _ _ _ Pi N0) as Nl.
    cbn [pass] in Pl. unfold isPermanent in Pl. rewrite (bool_decide_eq_false_2 _ Nl) in Pl.
    unfold runStep in Pl. rewrite installs, Dm in Pl. injection Pl as <-.
    assert (Iv' : Inv pm.1) by (apply Forall_app in U as [U _]; by eapply pass_keeps).
    split_and!; [done| |done| |]; destruct hook; by destruct (bool_decide _).
Qed.

End Install.

(** The loop ends with the blockers that are permanent and no other, and the process is
    ready just when there is none; a process that is not ready answers every path of a
    domain 503 and touches nothing. *)
Theorem wiring_outcome passes steps (v : V) p delays (Q : Forall quiet steps)
    (R : Wire passes steps (v, NewBoot) = (Some p, delays)) :
  let b := p.2 in
  base.dom (D := gset string) (blockers b) = permanent b ∧
  ready b = bool_decide (permanent b = ∅) ∧
  (ready b = false → ∀ W (serve : H → W → Response * W) w,
    rs_Status (serveDomainGate serve b w).1 = 503 ∧ (serveDomainGate serve b w).2 = w).
Proof.
  destruct (wire_outcome steps Q _ _ _ (v, NewBoot) _ _ (new_wiring steps) R) as [K Rd].
  split_and!; [done|done|]. intros G W serve w. unfold serveDomainGate. by rewrite G.
Qed.

(** Once the steps that can recover do succeed, whatever failed before, the loop returns
    after at most one more pass for each permanent step: the process becomes ready unless
    a permanent step has failed. *)
Theorem wiring_converges n passes steps (v : V) (Q : Forall quiet steps)
    (Sc : ∀ k, (n <= k)%nat → Forall (λ s, Permanent s = false → succeeds k s) steps)
    (L : (n + length (List.filter Permanent steps) < passes)%nat) :
  ∃ p delays, Wire passes steps (v, NewBoot) = (Some p, delays) ∧
    (ready p.2 = true ↔ permanent p.2 = ∅).
Proof.
  assert (P : (pending steps NewBoot <= length (List.filter Permanent steps))%nat).
  { unfold pending. clear. induction steps as [|s l IH]; cbn; [done|].
    destruct (Permanent s); cbn; [|done]. case_match; cbn; lia. }
  assert (E : ∃ p delays, Wire passes steps (v, NewBoot) = (Some p, delays)).
  { unfold Wire. destruct (wire_skip steps Q n 0 defaultWireBackoffBase (v, NewBoot) (new_wiring steps))
      as (p1 & d & I1 & L1 & [(p' & ds & F)|(ds & F)]).
    - exists p', ds. apply F. lia.
    - replace passes with (n + (passes - n))%nat by lia. rewrite F. cbn [snd] in L1.
      destruct (wire_returns steps Q (passes - n) (0 + n) d p1 I1) as (p' & rest & R);
        [intros k K; apply Sc; lia|lia|]. rewrite R. by eexists _, _. }
  destruct E as (p & delays & R). exists p, delays. split; [done|].
  destruct (wire_outcome steps Q _ _ _ (v, NewBoot) _ _ (new_wiring steps) R) as [_ ->]. apply bool_decide_eq_true.
Qed.

(** ** The delays *)

Definition backoff (k : nat) : Z := Z.min (defaultWireBackoffBase * 2 ^ Z.of_nat k) defaultWireBackoffMax.

Lemma backoff_next k : (if defaultWireBackoffMax <? 2 * backoff k then defaultWireBackoffMax else 2 * backoff k) =
  backoff (S k).
Proof.
  unfold backoff. rewrite Nat2Z.inj_succ, Z.pow_succ_r by lia.
  destruct (Z.ltb_spec defaultWireBackoffMax
    (2 * Z.min (defaultWireBackoffBase * 2 ^ Z.of_nat k) defaultWireBackoffMax)); unfold defaultWireBackoffMax, second in *; lia.
Qed.

Lemma runWire_delays steps fuel : ∀ n k (p : process),
  let delays := (runWire fuel n (backoff k) steps p).2 in
  delays = map backoff (seq k (length delays)) ∧ (length delays <= fuel)%nat.
Proof.
  induction fuel as [|fuel IH]; intros n k p; cbn [runWire]; [done|].
  destruct (pass n steps p) as [p1 [|]]; [|cbn; split; [done|lia]].
  rewrite backoff_next. specialize (IH (S n) (S k) p1).
  destruct (runWire fuel (S n) (backoff (S k)) steps p1) as [r ds]. cbn in *. destruct IH as [IH Le].
  split; [by rewrite <-IH|lia].
Qed.

(** The delays double from a quarter of a second up to ten seconds. *)
Theorem wiring_delays passes steps (p : process) :
  let delays := (Wire passes steps p).2 in delays = map backoff (seq 0 (length delays)).
Proof. apply (runWire_delays steps passes 0 0 p). Qed.

(** ** Readiness and the gate disagree

    Before any step has failed a process with nothing wrong answers /readyz with 200
    while every path of a domain answers 503; and once the loop has ended, a checker that
    fails turns /readyz to 503 while the domains are served. *)
Theorem readiness_disagrees_with_gate {W} (serve : H → W → Response * W) (w : W) (h : H) (claims : option Claims) :
  rs_Status (handleReadiness ∅ (Some NewBoot) claims) = 200 ∧
  rs_Status (serveDomainGate serve NewBoot w).1 = 503 ∧
  let b := markReady (SetDomainHandler h NewBoot) in
  rs_Status (handleReadiness {["database" := Some "down"]} (Some b) claims) = 503 ∧
  serveDomainGate serve b w = serve h w.
Proof. split; [reflexivity|]. split; [reflexivity|]. cbn zeta. split; reflexivity. Qed.

End Boot.

(** ** A process whose database comes up at the third pass *)

Abbreviation demo_step := (BootStep (H := unit) (V := unit)) (only parsing).
Definition ok_step (name : string) : demo_step := mkBootStep name false (λ _ p, (p, None)).
Definition late_step : demo_step :=
  mkBootStep "database" false (λ n p, (p, if (n <? 2)%nat then Some "refused" else None)).
Definition problem_step (problems : option string) : demo_step :=
  mkBootStep "config" true (λ _ p, (p, problems)).
Definition install_step : demo_step :=
  mkBootStep "routes" false (λ _ p, (coordinate (SetDomainHandler tt) p, None)).

Definition demo_steps (problems : option string) : list demo_step :=
  [problem_step problems; late_step; ok_step "jwks"; install_step].

Lemma demo_quiet problems : Forall quiet (demo_steps problems).
Proof. repeat constructor. Qed.

Definition demo_wired (problems : option string) : option process * list Z :=
  Wire 5 (demo_steps problems) (tt, NewBoot).

Theorem wiring_outcome_witness :
  ∃ p, demo_wired (Some "bad port") = (Some p, [250000000; 500000000]) ∧
    permanent p.2 = {["config"]} ∧ ready p.2 = false ∧
    rs_Status (serveDomainGate (λ _ w, (NoContent, w)) p.2 tt).1 = 503.
Proof.
  destruct (demo_wired (Some "bad port")) as [[p|] delays] eqn:R; [|vm_compute in R; discriminate].
  destruct (wiring_outcome _ _ _ _ _ (demo_quiet _) R) as (_ & _ & G).
  assert (delays = [250000000; 500000000]) as ->.
  { change delays with ((Some p, delays).2). rewrite <-R. vm_compute. reflexivity. }
  assert (F : ready p.2 = false).
  { assert (X : (λ p, ready p.2) <$> (demo_wired (Some "bad port")).1 = Some false) by (vm_compute; reflexivity).
    rewrite R in X. cbn in X. congruence. }
  exists p. split_and!; [done| |done|by apply G].
  assert (X : (λ p, bool_decide (permanent p.2 = {["config"]})) <$> (demo_wired (Some "bad port")).1 = Some true)
    by (vm_compute; reflexivity).
  rewrite R in X. cbn in X. apply (bool_decide_eq_true_1 _). congruence.
Defined.

Theorem wiring_converges_witness :
  ∃ p delays, Wire 4 (demo_steps None) (tt, NewBoot) = (Some p, delays) ∧ (ready p.2 = true ↔ permanent p.2 = ∅).
Proof.
  apply (wiring_converges 2); [apply demo_quiet| |vm_compute; reflexivity || (cbn; lia)].
  intros k K. unfold demo_steps.
  apply Forall_cons; [intros _ p; reflexivity|].
  apply Forall_cons; [intros _ p; cbn [Run late_step snd]; destruct (Nat.ltb_spec k 2); [lia|reflexivity]|].
  repeat (apply Forall_cons; [intros _ p; reflexivity|]). apply Forall_nil.
Defined.
