(* ===== verification/Garages.v ===== *)
(** * Garages: the declared capacity of a garage ([backend/garages],
    [backend/migrations/garages])

    The record and its validation, the scope of a principal, the table with one row for
    each tenant, the service and the two endpoints. The texts of database and broker
    errors are parameters: they reach the client. *)

From S2P Require Import Prelude Text Platform Wire PayModels Http TimeParse Auth.

Open Scope Z_scope.

(** ** The record ([capacity.go]) *)

Definition DefaultOpeningTime : string := "08:00".
Definition DefaultClosingTime : string := "18:00".

Record Capacity := mkCapacity {
  gc_TenantID : uuid;
  gc_Bays : Z;
  gc_OpeningTime : string;
  gc_ClosingTime : string;
  gc_TechnicianSlots : Z;
  gc_UpdatedBy : option uuid;
  gc_CreatedAt : time;
  gc_UpdatedAt : time;
}.

(** [Before] of two times of the zero date. *)
Definition clock_before (a b : Z * Z) : bool := a.1 * 60 + a.2 <? b.1 * 60 + b.2.

(** The text of the error, if there is one. *)
Definition validate (c : Capacity) : option string :=
  if gc_Bays c <? 0 then Some "garages: capacity: bays must be >= 0"
  else if gc_TechnicianSlots c <? 0 then Some "garages: capacity: technician_slots must be >= 0"
  else match ParseClock (gc_OpeningTime c) with
  | None => Some "garages: capacity: opening_time must be HH:MM"
  | Some opening =>
      match ParseClock (gc_ClosingTime c) with
      | None => Some "garages: capacity: closing_time must be HH:MM"
      | Some closing =>
          if negb (clock_before opening closing)
          then Some "garages: capacity: opening_time must be before closing_time" else None
      end
  end.

Definition defaultCapacity (tenantID : uuid) : Capacity :=
  mkCapacity tenantID 0 DefaultOpeningTime DefaultClosingTime 0 None zero_time zero_time.

(** ** The scope ([scope.go]) *)

Definition RoleGarage : string := "GARAGE".
Definition OperatorRoles : list string := ["DISPATCHER"; "ADMIN"; "SUPER_ADMIN"].
Definition IsOperatorRole (role : string) : bool := existsb (String.eqb role) OperatorRoles.

Record Scope := mkScope { sc_TenantID : option uuid; sc_Operator : bool }.

Definition readScope `{UuidText} (claims : option Claims) : option Scope :=
  match claims with
  | None => None
  | Some c =>
      if String.eqb (c_TenantID c) "" then Some (mkScope None (IsOperatorRole (c_Role c)))
      else match uuid_parse (c_TenantID c) with
           | Some t => Some (mkScope (Some t) (IsOperatorRole (c_Role c)))
           | None => None
           end
  end.

Definition tenant_required : Error :=
  ErrForbidden "garage endpoints operate on the caller's own tenant; a tenant_id claim is required".

(** With the tenant, which the handlers read back out of the scope. *)
Definition garageScope `{UuidText} (claims : option Claims) : Error + (Scope * uuid) :=
  match readScope claims with
  | None => inl authentication_required
  | Some scope =>
      match sc_TenantID scope with
      | Some t => if sc_Operator scope then inl tenant_required else inr (scope, t)
      | None => inl tenant_required
      end
  end.

(** ** The table and the store ([store.go]) *)

(** The columns of [type time] are an hour and a minute. *)
Record capacity_row := mkCapacityRow {
  cr_bays : Z;
  cr_opening : Z * Z;
  cr_closing : Z * Z;
  cr_slots : Z;
  cr_updated_by : option uuid;
  cr_created_at : time;
  cr_updated_at : time;
}.

(** One row for each tenant. *)
Abbreviation garage_db := (gmap uuid capacity_row) (only parsing).

(** An application error, [ErrCapacityNotFound], or another with its text. *)
Inductive GarageError :=
  | GarageApp (e : Error)
  | ErrCapacityNotFound
  | GarageFailed (text : string).

(** What an [integer] column takes. *)
Definition int4 (z : Z) : bool := (- 2 ^ 31 <=? z) && (z <? 2 ^ 31).

(** The constraints of the table. *)
Definition row_checks (r : capacity_row) : bool :=
  int4 (cr_bays r) && int4 (cr_slots r) && (0 <=? cr_bays r) && (0 <=? cr_slots r) &&
  clock_before (cr_opening r) (cr_closing r).

Definition scanCapacity (tenantID : uuid) (r : capacity_row) : Capacity :=
  mkCapacity tenantID (cr_bays r) (fmt_clock (cr_opening r).1 (cr_opening r).2)
    (fmt_clock (cr_closing r).1 (cr_closing r).2) (cr_slots r) (cr_updated_by r)
    (cr_created_at r) (cr_updated_at r).

Definition Store_Capacity (tenantID : uuid) : M garage_db GarageError Capacity :=
  d ← get; r ← from_option (d !! tenantID) ErrCapacityNotFound; mret (scanCapacity tenantID r).

(** [upsert_text] is the text of a database error, [parse_text] that of a time that
    does not parse. *)
Definition UpsertCapacity (upsert_text : string) (parse_text : string → string) (now : time)
    (c : Capacity) : M garage_db GarageError Capacity :=
  let failed text := GarageFailed ("garages: upsert capacity: " +:+ text) in
  ensure (negb (bool_decide (gc_TenantID c = uuid_nil))) (failed "tenant_id is required");;
  opening ← from_option (ParseClock (gc_OpeningTime c)) (failed (parse_text (gc_OpeningTime c)));
  closing ← from_option (ParseClock (gc_ClosingTime c)) (failed (parse_text (gc_ClosingTime c)));
  d ← get;
  let created := match d !! gc_TenantID c with Some r => cr_created_at r | None => timestamptz now end in
  let r := mkCapacityRow (gc_Bays c) opening closing (gc_TechnicianSlots c) (gc_UpdatedBy c)
             created (timestamptz now) in
  ensure (row_checks r) (failed upsert_text);;
  put (<[gc_TenantID c := r]> d);;
  mret (mkCapacity (gc_TenantID c) (gc_Bays c) (gc_OpeningTime c) (gc_ClosingTime c)
          (gc_TechnicianSlots c) (gc_UpdatedBy c) created (timestamptz now)).

(** ** The service ([service.go]) *)

Definition GarageEventDomain : string := "garages".
Definition EventCapacityUpdated : string := "capacity.updated.v1".

Record CapacityUpdatedPayload := mkCapacityUpdatedPayload {
  cu_TenantID : uuid;
  cu_Bays : Z;
  cu_OpeningTime : string;
  cu_ClosingTime : string;
  cu_TechnicianSlots : Z;
  cu_UpdatedBy : option uuid;
}.

Record garage_world := mkGarageWorld {
  gw_db : gmap uuid capacity_row;
  gw_events : list (string * Event CapacityUpdatedPayload);
}.

Definition on_garage_db {A} (c : M garage_db GarageError A) : M garage_world GarageError A :=
  zoom gw_db (λ d w, mkGarageWorld d (gw_events w)) c.

(** The texts of the errors that are not of this code. *)
Record garage_texts := mkGarageTexts {
  gt_upsert : string;
  gt_parse : string → string;
  gt_build : string;
  gt_publish : string;
}.

Section Service.
Context `{UuidText}.
Context (publisher : option (Event CapacityUpdatedPayload → bool)) (texts : garage_texts).

Definition Svc_Capacity (tenantID : uuid) : M garage_world GarageError Capacity :=
  r ← try (on_garage_db (Store_Capacity tenantID));
  match r with
  | inr capacity => mret capacity
  | inl ErrCapacityNotFound => mret (defaultCapacity tenantID)
  | inl (GarageFailed text) => throw (GarageFailed ("garages: capacity: " +:+ text))
  | inl (GarageApp e) => throw (GarageApp e)
  end.

Definition publish (c : Ctx) (fresh : uuid) (eventType : string) (aggregateID tenantID : uuid)
    (actorID : option uuid) (payload : CapacityUpdatedPayload) : M garage_world GarageError unit :=
  match publisher with
  | None => mret tt
  | Some broker =>
      let actor := match actorID with
                   | Some a => if bool_decide (a = uuid_nil) then "" else uuid_string a
                   | None => ""
                   end in
      e ← from_option (NewEvent (ctx_now c) fresh eventType (uuid_string aggregateID)
                         (uuid_string tenantID) actor (ctx_request_id c) payload)
        (GarageFailed ("garages: build " +:+ eventType +:+ " event: " +:+ gt_build texts));
      ensure (broker e) (GarageFailed ("garages: publish " +:+ eventType +:+ ": " +:+ gt_publish texts));;
      modify (λ w, mkGarageWorld (gw_db w) (gw_events w ++ [(GarageEventDomain, e)]))
  end.

Definition UpdateCapacity (c : Ctx) (scope : Scope) (actorID : option uuid) (bays : Z)
    (openingTime closingTime : string) (technicianSlots : Z) : M garage_world GarageError Capacity :=
  tenant ← from_option (sc_TenantID scope)
    (GarageFailed "garages: update capacity: a tenant scope is required");
  let capacity := mkCapacity tenant bays openingTime closingTime technicianSlots actorID zero_time zero_time in
  match validate capacity with
  | Some text => throw (GarageFailed text)
  | None =>
      capacity ← wrap (λ e, match e with
                            | GarageFailed text => GarageFailed ("garages: update capacity: " +:+ text)
                            | e => e
                            end)
        (on_garage_db (UpsertCapacity (gt_upsert texts) (gt_parse texts) (ctx_now c) capacity));
      publish c (ctx_fresh c 0) EventCapacityUpdated tenant tenant actorID
        (mkCapacityUpdatedPayload tenant (gc_Bays capacity) (gc_OpeningTime capacity)
           (gc_ClosingTime capacity) (gc_TechnicianSlots capacity) (gc_UpdatedBy capacity));;
      mret capacity
  end.

(** ** The endpoints ([http.go]) *)

Record capacityRequest := mkCapacityRequest {
  cq_Bays : option Z;
  cq_OpeningTime : string;
  cq_ClosingTime : string;
  cq_TechnicianSlots : option Z;
}.

Definition capacityWriteRoles : list string := [RoleGarage].

Definition capacityResponse (c : Capacity) : option string :=
  updated ← (if is_zero (gc_UpdatedAt c) then Some None
             else t ← json_time (gc_UpdatedAt c); Some (Some t));
  Some (json_object (
    member "bays" (json_int (gc_Bays c)) ++
    member "opening_time" (json_string (gc_OpeningTime c)) ++
    member "closing_time" (json_string (gc_ClosingTime c)) ++
    member "technician_slots" (json_int (gc_TechnicianSlots c)) ++
    optional "updated_at" updated ++
    optional "updated_by" (json_uuid <$> gc_UpdatedBy c))).

(** [writeDomainError]: every other error is a validation error with its text. *)
Definition domain_error (e : GarageError) : option Error :=
  match e with
  | GarageApp e => Some e
  | ErrCapacityNotFound => Some (ErrNotFound "capacity not configured")
  | GarageFailed text => Some (ErrValidation text [])
  end.

Definition app {A} (r : Error + A) : M garage_world GarageError A :=
  from_sum (match r with inl e => inl (GarageApp e) | inr a => inr a end).

Definition field_required (field : string) : GarageError :=
  GarageApp (ErrValidation (field +:+ " is required") [mkFieldError field "is required"]).

Definition get_capacity (claims : option Claims) : M garage_world GarageError Response :=
  '(_, tenant) ← app (garageScope claims);
  capacity ← Svc_Capacity tenant;
  mret (writeJSON 200 (capacityResponse capacity)).

Definition put_capacity (c : Ctx) (body : Error + capacityRequest) (claims : option Claims)
    : M garage_world GarageError Response :=
  '(scope, _) ← app (garageScope claims);
  claims ← from_option claims (GarageApp authentication_required);
  actorID ← from_option (uuid_parse (c_UserID claims))
    (GarageApp (ErrUnauthorized "authenticated subject is not a user identifier"));
  req ← app body;
  bays ← from_option (cq_Bays req) (field_required "bays");
  slots ← from_option (cq_TechnicianSlots req) (field_required "technician_slots");
  ensure (negb (String.eqb (cq_OpeningTime req) "")) (field_required "opening_time");;
  ensure (negb (String.eqb (cq_ClosingTime req) "")) (field_required "closing_time");;
  capacity ← UpdateCapacity c scope (Some actorID) bays (cq_OpeningTime req) (cq_ClosingTime req) slots;
  mret (writeJSON 200 (capacityResponse capacity)).

Definition handleGetCapacity : Handler (W := garage_world) := λ claims, serve domain_error (get_capacity claims).
Definition handlePutCapacity (c : Ctx) (body : Error + capacityRequest) : Handler (W := garage_world) :=
  λ claims, serve domain_error (put_capacity c body claims).

(** The routes, behind the gates. *)
Definition GetCapacity : Handler := RequireAuthenticated (RequireRole capacityWriteRoles handleGetCapacity).
Definition PutCapacity (c : Ctx) (body : Error + capacityRequest) : Handler :=
  RequireAuthenticated (RequireRole capacityWriteRoles (handlePutCapacity c body)).

End Service.
