(* ===== verification/GarageProps.v ===== *)
(** * GarageProps: what the garages domain guarantees

    The table, the writes on every branch, and what is read back. *)

From S2P Require Import Prelude Hoare Text Platform Wire PayModels Http TimeParse Auth Garages.

Open Scope Z_scope.

#[local] Arguments timestamptz : simpl never.
#[local] Arguments UpdateCapacity : simpl never.

(** ** Times *)

Definition clock_ok (t : Z * Z) : Prop := 0 ≤ t.1 ≤ 23 ∧ 0 ≤ t.2 ≤ 59.

Lemma in_bounds_inv lo hi z : in_bounds lo hi z = Some tt → lo ≤ z ≤ hi.
Proof. unfold in_bounds. case_match eqn:B; [|done]. intros _. apply andb_true_iff in B as [? ?]. lia. Qed.

Lemma ParseClock_range s t : ParseClock s = Some t → clock_ok t.
Proof.
  unfold ParseClock. intros P.
  apply bind_Some in P as ([h l] & _ & P). apply bind_Some in P as ([] & H & P).
  apply bind_Some in P as (l1 & _ & P). apply bind_Some in P as ([m l2] & _ & P).
  apply bind_Some in P as ([] & M & P). destruct l2; [|done]. injection P as <-.
  apply in_bounds_inv in H, M. by split.
Qed.

Lemma fmt_clock_parse t : clock_ok t → ParseClock (fmt_clock t.1 t.2) = Some t.
Proof. destruct t as [h m]. intros [H M]. by apply ParseClock_fmt. Qed.

(** ** The table *)

Definition row_ok (r : capacity_row) : Prop :=
  row_checks r = true ∧ clock_ok (cr_opening r) ∧ clock_ok (cr_closing r).

Definition garage_ok (d : gmap uuid capacity_row) : Prop := map_Forall (λ t r, t ≠ uuid_nil ∧ row_ok r) d.

Definition stored (now : time) (d : gmap uuid capacity_row) (c : Capacity) (opening closing : Z * Z)
    : capacity_row :=
  mkCapacityRow (gc_Bays c) opening closing (gc_TechnicianSlots c) (gc_UpdatedBy c)
    (match d !! gc_TenantID c with Some r => cr_created_at r | None => timestamptz now end)
    (timestamptz now).

Lemma UpsertCapacity_inv up pa now c d r d' : UpsertCapacity up pa now c d = (r, d') →
  (∃ text, r = inl (GarageFailed text) ∧ d' = d) ∨
  ∃ opening closing, let row := stored now d c opening closing in
    gc_TenantID c ≠ uuid_nil ∧ ParseClock (gc_OpeningTime c) = Some opening ∧
    ParseClock (gc_ClosingTime c) = Some closing ∧ row_checks row = true ∧
    d' = <[gc_TenantID c := row]> d ∧
    r = inr (mkCapacity (gc_TenantID c) (gc_Bays c) (gc_OpeningTime c) (gc_ClosingTime c)
               (gc_TechnicianSlots c) (gc_UpdatedBy c) (cr_created_at row) (timestamptz now)).
Proof.
  unfold UpsertCapacity. intros R. unfold_run R.
  destruct (bool_decide (gc_TenantID c = uuid_nil)) eqn:T; cbn in R; [left; injection R as <- <-; eauto|].
  apply bool_decide_eq_false in T.
  destruct (ParseClock (gc_OpeningTime c)) as [o|]; [|left; injection R as <- <-; eauto].
  destruct (ParseClock (gc_ClosingTime c)) as [cl|]; [|left; injection R as <- <-; eauto].
  destruct (row_checks _) eqn:K; [|left; injection R as <- <-; eauto].
  right. exists o, cl. injection R as <- <-. split_and!; done.
Qed.

Section Props.
Context `{UuidText}.
Context (publisher : option (Event CapacityUpdatedPayload → bool)) (texts : garage_texts).

(** A write of the service: the row of the tenant, and then the event, published or
    not. *)
Definition wrote (c : Ctx) (by_ : option uuid) (tenant : uuid) (bays : Z) (openingTime closingTime : string)
    (slots : Z) (w : garage_world) (r : GarageError + Capacity) (w' : garage_world) : Prop :=
  let capacity := mkCapacity tenant bays openingTime closingTime slots by_ zero_time zero_time in
  ∃ opening closing, let row := stored (ctx_now c) (gw_db w) capacity opening closing in
    tenant ≠ uuid_nil ∧ validate capacity = None ∧
    ParseClock openingTime = Some opening ∧ ParseClock closingTime = Some closing ∧
    row_checks row = true ∧ gw_db w' = <[tenant := row]> (gw_db w) ∧
    ((∃ e, publisher = Some e) ∧ (∃ text, r = inl (GarageFailed text)) ∧ gw_events w' = gw_events w ∨
     r = inr (mkCapacity tenant bays openingTime closingTime slots by_ (cr_created_at row) (cr_updated_at row)) ∧
     match publisher with
     | None => gw_events w' = gw_events w
     | Some broker => ∃ e, broker e = true ∧ EventType e = EventCapacityUpdated ∧
         Payload e = mkCapacityUpdatedPayload tenant bays openingTime closingTime slots by_ ∧
         gw_events w' = gw_events w ++ [(GarageEventDomain, e)]
     end).

Lemma UpdateCapacity_inv c scope by_ bays o cl slots w r w' :
  UpdateCapacity publisher texts c scope by_ bays o cl slots w = (r, w') →
  (∃ text, r = inl (GarageFailed text) ∧ w' = w) ∨
  ∃ tenant, sc_TenantID scope = Some tenant ∧ wrote c by_ tenant bays o cl slots w r w'.
Proof.
  unfold UpdateCapacity. intros R.
  destruct (sc_TenantID scope) as [t|]; [|left; injection R as <- <-; eauto].
  change ((from_option (Some t) _ ≫= ?f) w) with (f t w) in R. cbv beta zeta in R.
  destruct (validate _) as [text|] eqn:V; [left; injection R as <- <-; eauto|].
  apply bind_inv in R as [(e & R & ->)|(cap & w1 & R & R')].
  - left. revert R. unfold wrap, on_garage_db, zoom.
    destruct (UpsertCapacity _ _ _ _ (gw_db w)) as [r1 d1] eqn:U.
    apply UpsertCapacity_inv in U as [(text & -> & ->)|(oo & cc & _ & _ & _ & _ & _ & ->)]; [|done].
    intros [= <- <-]. destruct w. eauto.
  - right. exists t. split; [done|]. revert R. unfold wrap, on_garage_db, zoom.
    destruct (UpsertCapacity _ _ _ _ (gw_db w)) as [r1 d1] eqn:U.
    apply UpsertCapacity_inv in U as [(text & -> & ->)|(oo & cc & N & Po & Pc & K & -> & ->)]; [done|].
    intros [= <- <-]. exists oo, cc. split_and!; [done..| |].
    + revert R'. unfold publish. destruct publisher as [broker|]; intros R'; unfold_run R'.
      * repeat case_match; by simplify_eq.
      * by injection R' as <- <-.
    + revert R'. unfold publish. destruct publisher as [broker|]; intros R'.
      * rewrite NewEvent_uuid in R' by done. unfold_run R'.
        destruct (broker _) eqn:B; injection R' as <- <-; [right|left; eauto 6].
        split; [done|]. eexists. split_and!; [exact B|done|done|done].
      * right. unfold_run R'. by injection R' as <- <-.
Qed.

(** The principal of a write: the garage of its own tenant. *)
Definition garage_principal (claims : option Claims) (tenant actor : uuid) : Prop :=
  ∃ cl, claims = Some cl ∧ c_Role cl = RoleGarage ∧
    uuid_parse (c_TenantID cl) = Some tenant ∧ uuid_parse (c_UserID cl) = Some actor.

Lemma garageScope_inv claims scope t : garageScope claims = inr (scope, t) →
  sc_TenantID scope = Some t ∧ ∃ cl, claims = Some cl ∧ uuid_parse (c_TenantID cl) = Some t.
Proof.
  unfold garageScope, readScope. destruct claims as [cl|]; [|done].
  destruct (String.eqb (c_TenantID cl) ""); [done|].
  destruct (uuid_parse (c_TenantID cl)) as [u|] eqn:U; [|done]. cbn [sc_TenantID sc_Operator].
  destruct (IsOperatorRole (c_Role cl)); [done|]. intros [= <- <-]. split; [done|]. by exists cl.
Qed.

Lemma garageScope_status claims e : garageScope claims = inl e →
  bool_decide (Status e ∈ [401; 403; 404; 422]) = true.
Proof.
  unfold garageScope, readScope. destruct claims as [cl|]; [|by intros [= <-]].
  destruct (String.eqb (c_TenantID cl) ""); [by intros [= <-]|].
  destruct (uuid_parse (c_TenantID cl)); cbn [sc_TenantID sc_Operator]; [|by intros [= <-]].
  destruct (IsOperatorRole (c_Role cl)); [by intros [= <-]|done].
Qed.

(** A gate of one role. *)
Lemma garage_gate (h : Handler (W := garage_world)) claims w :
  (∃ cl, claims = Some cl ∧ c_Role cl = RoleGarage ∧
     RequireAuthenticated (RequireRole capacityWriteRoles h) claims w = h claims w) ∨
  ∃ err, RequireAuthenticated (RequireRole capacityWriteRoles h) claims w = (WriteError (Some err), w) ∧
    Status err ∈ [401; 403].
Proof.
  destruct claims as [cl|]; [|right; eexists; split; [done|by apply list_elem_of_here]].
  cbn. rewrite orb_false_r. destruct (String.eqb_spec (c_Role cl) RoleGarage); [left; by exists cl|right].
  eexists. split; [done|by apply list_elem_of_further, list_elem_of_here].
Qed.

(** An error of this code, or the one decoding the body gave. *)
Definition refusal (body : Error + capacityRequest) (err : Error) : Prop :=
  Status err ∈ [401; 403; 404; 422] ∨ body = inl err.

Definition refuses (body : Error + capacityRequest) (e : GarageError) : Prop :=
  match e with GarageApp err => refusal body err | _ => True end.

Lemma domain_error_some body e : refuses body e → ∃ err, domain_error e = Some err ∧ refusal body err.
Proof. destruct e; intros R; eexists; (split; [done|]); [done|left|left]; refine (bool_decide_eq_true_1 _ _); reflexivity. Qed.

(** ** Writing

    A write is either refused, with an error response and the world as it was; or it
    stored the row the request asks for, checked, under the tenant of the token alone, for
    a principal with the garage role. Then the answer is the record and the change is
    announced; but when the broker refuses the event the answer is an error 422 although
    the row is stored. *)
Theorem put_outcomes c body claims w :
  let out := PutCapacity publisher texts c body claims w in
  ((∃ err, out.1 = WriteError (Some err) ∧ refusal body err) ∧ out.2 = w) ∨
  ∃ req tenant actor bays slots r,
    garage_principal claims tenant actor ∧ body = inr req ∧
    cq_Bays req = Some bays ∧ cq_TechnicianSlots req = Some slots ∧
    wrote c (Some actor) tenant bays (cq_OpeningTime req) (cq_ClosingTime req) slots w r out.2 ∧
    match r with
    | inr capacity => out.1 = writeJSON 200 (capacityResponse capacity)
    | inl _ => rs_Status out.1 = 422
    end.
Proof.
  cbv zeta. unfold PutCapacity.
  destruct (garage_gate (handlePutCapacity publisher texts c body) claims w)
    as [(cl & -> & Rl & ->)|(err & -> & St)]; [|left; split; [|done]; exists err; split; [done|left; set_solver]].
  unfold handlePutCapacity, serve.
  destruct (put_capacity publisher texts c body (Some cl) w) as [r w'] eqn:R.
  assert (Refused : ∀ e, refuses body e → r = inl e → w' = w →
    ((∃ err, (match r with inl e => (WriteError (domain_error e), w') | inr r => (r, w') end).1 = WriteError (Some err) ∧
        refusal body err) ∧
     (match r with inl e => (WriteError (domain_error e), w') | inr r => (r, w') end).2 = w)).
  { intros e Re -> ->. cbn. destruct (domain_error_some body e Re) as (err & -> & Rf). split; [by eexists|done]. }
  assert (Own : ∀ err, bool_decide (Status err ∈ [401; 403; 404; 422]) = true → refuses body (GarageApp err)).
  { intros err B. left. by apply bool_decide_eq_true in B. }
  unfold put_capacity, app in R. unfold_run R.
  destruct (garageScope (Some cl)) as [e|[scope t]] eqn:G.
  { left. injection R as <- <-. eapply Refused; [|done|done]. by eapply Own, garageScope_status. }
  apply garageScope_inv in G as (Sc & cl' & [= <-] & T).
  destruct (uuid_parse (c_UserID cl)) as [a|] eqn:A;
    [|left; injection R as <- <-; eapply Refused; [|done|done]; by apply Own].
  destruct body as [e|req]; [left; injection R as <- <-; eapply Refused; [|done|done]; by right|].
  destruct (cq_Bays req) as [bays|] eqn:B; [|left; injection R as <- <-; eapply Refused; [|done|done]; by apply Own].
  destruct (cq_TechnicianSlots req) as [slots|] eqn:S; [|left; injection R as <- <-; eapply Refused; [|done|done]; by apply Own].
  destruct (String.eqb (cq_OpeningTime req) ""); [left; injection R as <- <-; eapply Refused; [|done|done]; by apply Own|].
  destruct (String.eqb (cq_ClosingTime req) ""); [left; injection R as <- <-; eapply Refused; [|done|done]; by apply Own|].
  cbn [negb] in R.
  destruct (UpdateCapacity publisher texts c scope (Some a) bays _ _ slots w) as [u w1] eqn:U.
  apply UpdateCapacity_inv in U as [(text & -> & ->)|(t' & T' & Wr)].
  { left. injection R as <- <-. by apply (Refused (GarageFailed text)). }
  assert (t' = t) as -> by congruence.
  right. exists req, t, a, bays, slots, u. split_and!; try done; [by exists cl| |].
  - destruct u; by injection R as <- <-.
  - destruct u as [e|cap]; injection R as <- <-; [|done].
    destruct Wr as (oo & cc & _ & _ & _ & _ & _ & _ & [(_ & (text & [= ->]) & _)|([=] & _)]). done.
Qed.

(** ** The table *)

(** Requests, writing and reading, from an empty table. *)
Inductive garage_step (w w' : garage_world) : Prop :=
  | gs_put c body claims : w' = (PutCapacity publisher texts c body claims w).2 → garage_step w w'
  | gs_get claims : w' = (GetCapacity claims w).2 → garage_step w w'.

Lemma on_garage_db_read {A} (c : M (gmap uuid capacity_row) GarageError A) w :
  reads c → (on_garage_db c w).2 = w.
Proof.
  unfold on_garage_db, zoom, reads. intros R. specialize (R (gw_db w)).
  destruct (c (gw_db w)) as [r d]. cbn in *. subst. by destruct w.
Qed.

(** What a garage reads: its row, or the defaults. *)
Definition own_record (d : gmap uuid capacity_row) (t : uuid) : Capacity :=
  match d !! t with Some r => scanCapacity t r | None => defaultCapacity t end.

Lemma Svc_Capacity_eq t w : Svc_Capacity t w = (inr (own_record (gw_db w) t), w).
Proof.
  unfold own_record. destruct w as [d es]. unfold Svc_Capacity, Store_Capacity, on_garage_db.
  unfold_run_goal. by destruct (d !! t).
Qed.

(** ** Reading *)

Lemma get_outcomes claims w :
  (∃ err, GetCapacity claims w = (WriteError (Some err), w)) ∨
  ∃ cl t, claims = Some cl ∧ c_Role cl = RoleGarage ∧ uuid_parse (c_TenantID cl) = Some t ∧
    GetCapacity claims w = (writeJSON 200 (capacityResponse (own_record (gw_db w) t)), w).
Proof.
  unfold GetCapacity. destruct (garage_gate handleGetCapacity claims w)
    as [(cl & -> & Rl & ->)|(err & -> & St)]; [|left; by eexists].
  unfold handleGetCapacity, serve, get_capacity, app.
  destruct (garageScope (Some cl)) as [e|[scope t]] eqn:G; [left; by eexists|right].
  apply garageScope_inv in G as (Sc & cl' & [= <-] & T). exists cl, t. split_and!; [done..|].
  unfold_run_goal. rewrite Svc_Capacity_eq. done.
Qed.

Lemma garage_step_ok w w' : garage_ok (gw_db w) → garage_step w w' → garage_ok (gw_db w').
Proof.
  intros Ok [c body claims ->|claims ->].
  - destruct (put_outcomes c body claims w) as [[_ ->]|(req & t & a & bays & slots & r & _ & _ & _ & _ & Wr & _)];
      [done|].
    destruct Wr as (oo & cc & N & _ & Po & Pc & K & -> & _).
    apply map_Forall_insert_2; [|done]. split; [done|]. split; [done|].
    by split; eapply ParseClock_range.
  - by destruct (get_outcomes claims w) as [(err & ->)|(cl & t & _ & _ & _ & ->)].
Qed.

Lemma GetCapacity_eq cl t w : c_Role cl = RoleGarage → c_TenantID cl = uuid_string t →
  GetCapacity (Some cl) w = (writeJSON 200 (capacityResponse (own_record (gw_db w) t)), w).
Proof.
  intros Rl T. unfold GetCapacity. cbn. rewrite orb_false_r, Rl. cbn.
  unfold handleGetCapacity, serve, get_capacity, app, garageScope, readScope. rewrite T, uuid_parse_string.
  destruct (String.eqb_spec (uuid_string t) "") as [E|_]; [by apply uuid_string_nonempty in E|].
  rewrite Rl. unfold_run_goal. by rewrite Svc_Capacity_eq.
Qed.

(** In every reachable table the counts are not negative, fit the columns, and the garage
    opens before it closes; a garage reads its row with hours of two digits, and the
    defaults before it has written one. *)
Theorem garage_table_ok w claims (R : rtc garage_step (mkGarageWorld ∅ []) w) :
  garage_ok (gw_db w) ∧
  ∀ cl t, claims = Some cl → c_Role cl = RoleGarage → c_TenantID cl = uuid_string t →
    GetCapacity claims w = (writeJSON 200 (capacityResponse (own_record (gw_db w) t)), w) ∧
    validate (own_record (gw_db w) t) = None.
Proof.
  assert (Ok : garage_ok (gw_db w)).
  { remember (mkGarageWorld ∅ []) as w0 eqn:E. assert (Ok : garage_ok (gw_db w0)) by (subst; apply map_Forall_empty).
    clear E. induction R as [|w0 w1 w R1 R IH]; [done|]. apply IH. by eapply garage_step_ok. }
  split; [done|]. intros cl t -> Rl T. split; [by apply GetCapacity_eq|].
  unfold own_record. destruct (gw_db w !! t) as [r|] eqn:L; [|reflexivity].
    destruct (Ok t r L) as (_ & K & Co & Cc). unfold validate, scanCapacity. cbn [gc_Bays gc_TechnicianSlots gc_OpeningTime gc_ClosingTime].
    rewrite !fmt_clock_parse by done. unfold row_checks in K. rewrite !andb_true_iff in K.
    destruct K as ((((_ & _) & B) & S) & Cb). rewrite Cb.
    rewrite (proj2 (Z.ltb_ge _ _)) by lia. rewrite (proj2 (Z.ltb_ge _ _)) by lia. done.
Qed.

(** What a garage wrote is what it reads afterwards, with its hours in two digits, and no
    other garage reads anything else than before. *)
Theorem capacity_read_back c req claims cl t w r w'
    (P : PutCapacity publisher texts c (inr req) claims w = (r, w')) (S : rs_Status r = 200)
    (Rl : c_Role cl = RoleGarage) (T : c_TenantID cl = uuid_string t) :
  ∃ tenant actor row, garage_principal claims tenant actor ∧
    cq_Bays req = Some (cr_bays row) ∧ cq_TechnicianSlots req = Some (cr_slots row) ∧
    ParseClock (cq_OpeningTime req) = Some (cr_opening row) ∧
    ParseClock (cq_ClosingTime req) = Some (cr_closing row) ∧ cr_updated_by row = Some actor ∧
    if bool_decide (t = tenant)
    then GetCapacity (Some cl) w' = (writeJSON 200 (capacityResponse (scanCapacity tenant row)), w')
    else (GetCapacity (Some cl) w').1 = (GetCapacity (Some cl) w).1.
Proof.
  pose proof (put_outcomes c (inr req) claims w) as O. cbv zeta in O. rewrite P in O. cbn [fst snd] in O.
  destruct O as [[(err & -> & [F|F]) _]|(req' & tenant & a & bays & slots & u & G & [= <-] & B & Sl & Wr & _)]; [|done|].
  { exfalso. revert F. change (rs_Status (WriteError (Some err))) with (Status err) in S. rewrite S.
    intros F. by apply (bool_decide_eq_true_2 _) in F. }
  destruct Wr as (oo & cc & _ & _ & Po & Pc & _ & D & _).
  match type of D with _ = <[_ := ?row]> _ => exists tenant, a, row end. split_and!; [exact G|exact B|exact Sl|exact Po|exact Pc|done|].
  rewrite !(GetCapacity_eq cl t) by done. rewrite D. unfold own_record. case_bool_decide as E.
  - subst t. by rewrite lookup_insert_eq.
  - cbn [fst]. by rewrite lookup_insert_ne.
Qed.

(** When the event cannot be published a write that is stored is answered as invalid: the
    row has changed, the client is told 422, and nobody is told of the change. *)
Theorem unpublished_write_answers_422 c body claims w (B : ∃ broker, publisher = Some broker ∧ ∀ e, broker e = false)
    (D : gw_db (PutCapacity publisher texts c body claims w).2 ≠ gw_db w) :
  rs_Status (PutCapacity publisher texts c body claims w).1 = 422 ∧
  gw_events (PutCapacity publisher texts c body claims w).2 = gw_events w.
Proof.
  destruct B as (broker & Pb & B).
  destruct (put_outcomes c body claims w) as [[_ E]|(req & t & a & bays & slots & u & _ & _ & _ & _ & Wr & O)];
    [by rewrite E in D|].
  destruct Wr as (oo & cc & _ & _ & _ & _ & _ & _ & [(_ & (text & ->) & Ev)|(-> & Ev)]); [done|].
  exfalso. clear O D. revert Ev. rewrite Pb. intros (e & Be & _). by rewrite B in Be.
Qed.

End Props.

(** ** Two garages *)

#[local] Instance garage_uuid : UuidText := letter_uuid 97.

Definition garage_claims (tenant user : uuid) : Claims :=
  mkClaims (uuid_string user) (uuid_string tenant) RoleGarage "" 0 0.
Definition garage_ctx : Ctx := mkCtx 1700000000000000000 "req" (λ k, N.of_nat (k + 9)).
Definition garage_request : capacityRequest := mkCapacityRequest (Some 3) "8:05" "17:30" (Some 4).
Definition no_texts : garage_texts := mkGarageTexts "db" (λ s, s) "event" "broker".
Definition empty_garages : garage_world := mkGarageWorld ∅ [].
Definition first_put (accepts : bool) : Response * garage_world :=
  PutCapacity (Some (λ _, accepts)) no_texts garage_ctx (inr garage_request)
    (Some (garage_claims 1 5)) empty_garages.

Example first_put_echo : rs_Body (first_put true).1 ≠ rs_Body (GetCapacity (Some (garage_claims 1 5)) (first_put true).2).1.
Proof. vm_compute. discriminate. Qed.

Theorem garage_table_ok_witness :
  garage_ok (gw_db (first_put true).2) ∧ rs_Status (first_put true).1 = 200.
Proof.
  split; [|vm_compute; reflexivity].
  apply (garage_table_ok (Some (λ _, true)) no_texts (first_put true).2 None).
  apply rtc_once. eapply gs_put. reflexivity.
Defined.

Theorem capacity_read_back_witness :
  rs_Status (first_put true).1 = 200 ∧
  ∃ row, cr_opening row = (8, 5) ∧
    GetCapacity (Some (garage_claims 1 5)) (first_put true).2 =
      (writeJSON 200 (capacityResponse (scanCapacity 1 row)), (first_put true).2).
Proof.
  split; [vm_compute; reflexivity|].
  destruct (capacity_read_back (Some (λ _, true)) no_texts garage_ctx garage_request
    (Some (garage_claims 1 5)) (garage_claims 1 5) 1%N empty_garages (first_put true).1 (first_put true).2)
    as (tenant & a & row & (cl & Cl & _ & Tp & _) & _ & _ & O & _ & _ & G);
    [unfold first_put; destruct (PutCapacity _ _ _ _ _ _); reflexivity|vm_compute; reflexivity|reflexivity|reflexivity|].
  assert (tenant = 1%N) as ->.
  { assert (cl = garage_claims 1 5) as -> by congruence. cbn [garage_claims c_TenantID] in Tp.
    rewrite uuid_parse_string in Tp. congruence. }
  rewrite bool_decide_true in G by reflexivity. exists row. split; [|exact G].
  assert (Some (cr_opening row) = Some (8, 5)) as X by (rewrite <-O; vm_compute; reflexivity). congruence.
Defined.

Theorem unpublished_write_answers_422_witness :
  rs_Status (first_put false).1 = 422 ∧ gw_db (first_put false).2 ≠ ∅.
Proof.
  assert (D : gw_db (first_put false).2 ≠ ∅).
  { intros E. apply (f_equal (λ d : gmap uuid capacity_row, size d)) in E. vm_compute in E. discriminate. }
  split; [|exact D].
  apply (unpublished_write_answers_422 (Some (λ _, false)) no_texts garage_ctx (inr garage_request)
    (Some (garage_claims 1 5)) empty_garages); [by eexists|exact D].
Defined.
