(* ===== verification/Dispatch.v ===== *)
(** * Dispatch: the scoring engine and its API ([backend/dispatch])

    Six factors for each candidate, the total, the order of the candidates, the reasons,
    the validation of a request and the record of a decision. The texts of
    floating-point numbers and the folding of case outside ASCII are parameters. *)

From S2P Require Import Prelude Text Sha256 Platform Wire PayModels Float64 Http Auth.

From Stdlib Require Import Ascii Floats.SpecFloat.

Open Scope Z_scope.

Definition is_ascii (s : string) : Prop := Forall (λ c, (byte_of c < 128)%N) (chars s).

(** [strings.EqualFold] *)
Class CaseFolding := {
  EqualFold : string → string → bool;
  EqualFold_ascii : ∀ s t, is_ascii s → is_ascii t → EqualFold s t = equal_fold s t;
}.

(** A literal with a decimal fraction. *)
Definition lit (n d : Z) : float64 := fdiv (of_int n) (of_int d).

(** ** The stable sort

    [sort.SliceStable] of a comparison. *)
Fixpoint insert_before {A} (less : A → A → bool) (x : A) (l : list A) : list A :=
  match l with
  | [] => [x]
  | y :: l => if less y x then y :: insert_before less x l else x :: y :: l
  end.
Definition SliceStable {A} (less : A → A → bool) (l : list A) : list A :=
  fold_right (insert_before less) [] l.

(** ** The data ([scoring.go]) *)

Definition FactorTechnicalFit : string := "technical_fit".
Definition FactorProximity : string := "proximity".
Definition FactorAvailability : string := "availability".
Definition FactorEquipment : string := "equipment".
Definition FactorParts : string := "parts".
Definition FactorPerformance : string := "performance".

Definition etaScaleMinutes : float64 := of_int 30.
Definition declinedLastPenalty : float64 := lit 1 2.
Definition makeMismatchBonus : float64 := lit 1 2.
Definition partsPartialCredit : float64 := lit 1 2.
Definition performanceCompletionWeight : float64 := lit 4 10.
Definition performanceRatingWeight : float64 := lit 4 10.
Definition performanceAcceptanceWeight : float64 := lit 2 10.
Definition ratingScale : float64 := of_int 5.
Definition roundUnit : float64 := of_int 10000.
Definition defaultTopReasons : Z := 3.

Record Candidate := mkCandidate {
  cd_TechnicianID : uuid;
  cd_DistanceKm : float64;
  cd_ETAMinutes : Z;
  cd_Skills : list string;
  cd_VehicleMakes : list string;
  cd_Available : bool;
  cd_HasEquipment : bool;
  cd_HasRequiredParts : bool;
  cd_CompletedJobs : Z;
  cd_AcceptanceRate : float64;
  cd_CompletionRate : float64;
  cd_AvgCustomerRating : float64;
  cd_DeclinedLast : bool;
}.

(** A list that is absent is not the empty one for the digest. *)
Record JobContext := mkJobContext {
  jc_RequiredSkills : option (list string);
  jc_VehicleMake : string;
  jc_RequiredParts : option (list string);
}.

Definition requiredSkills (j : JobContext) : list string := default [] (jc_RequiredSkills j).
Definition requiredParts (j : JobContext) : list string := default [] (jc_RequiredParts j).

Record Weights := mkWeights {
  wt_TechnicalFit : float64;
  wt_Proximity : float64;
  wt_Availability : float64;
  wt_Equipment : float64;
  wt_Parts : float64;
  wt_Performance : float64;
}.

Definition DefaultWeights : Weights :=
  mkWeights (lit 30 100) (lit 20 100) (lit 15 100) (lit 15 100) (lit 10 100) (lit 10 100).

Definition weightsSumTolerance : float64 := lit 1 1000000000.

Definition weight_list (w : Weights) : list (string * float64) :=
  [("technical_fit", wt_TechnicalFit w); ("proximity", wt_Proximity w); ("availability", wt_Availability w);
   ("equipment", wt_Equipment w); ("parts", wt_Parts w); ("performance", wt_Performance w)].

Definition weights_sum (w : Weights) : float64 :=
  fadd (fadd (fadd (fadd (fadd (wt_TechnicalFit w) (wt_Proximity w)) (wt_Availability w)) (wt_Equipment w))
    (wt_Parts w)) (wt_Performance w).

Record Factor := mkFactor {
  fa_Name : string;
  fa_Weight : float64;
  fa_Raw : float64;
  fa_Normalized : float64;
  fa_Reason : string;
}.

Record Score := mkScore {
  so_TechnicianID : uuid;
  so_Total : float64;
  so_Factors : list Factor;
  so_TopReasons : option (list string);
}.

Record FactorInfo := mkFactorInfo {
  fi_Name : string;
  fi_Description : string;
  fi_DefaultWeight : float64;
}.

Record factorResult := mkFactorResult {
  raw : float64;
  normalized : float64;
  reason : string;
}.

(** ** The factors *)

(** [x <= 0] also takes the negative zero. *)
Definition clamp01 (x : float64) : float64 :=
  if SFleb x fzero then fzero else if SFleb fone x then fone else x.

Definition round4 (x : float64) : float64 := fdiv (math_Round (fmul x roundUnit)) roundUnit.

Definition FactorCatalogue : list FactorInfo :=
  [mkFactorInfo FactorTechnicalFit "Skill overlap with the job's required skills, multiplied by the vehicle-make bonus (1.0 when rated on the make, 0.5 otherwise)." (wt_TechnicalFit DefaultWeights);
   mkFactorInfo FactorProximity "Closeness to the job, 1/(1+ETA/30); scored 0 when the technician is unavailable." (wt_Proximity DefaultWeights);
   mkFactorInfo FactorAvailability "1 when available, 0.5 when the technician declined the last offer, 0 when unavailable." (wt_Availability DefaultWeights);
   mkFactorInfo FactorEquipment "1 when the required tools are on the van, 0 otherwise." (wt_Equipment DefaultWeights);
   mkFactorInfo FactorParts "1 when all required parts are on the van; 0.5 when parts are missing (partial coverage); neutral 1 when the job needs no parts." (wt_Parts DefaultWeights);
   mkFactorInfo FactorPerformance "Weighted track record: 0.4 completion rate + 0.4 average customer rating (of 5) + 0.2 acceptance rate." (wt_Performance DefaultWeights)].

(** [%d] *)
Definition fmt_d (z : Z) : string := pretty z.
Definition count {A} (l : list A) : Z := Z.of_nat (length l).
Definition is_nil {A} (l : list A) : bool := match l with [] => true | _ => false end.

Section Engine.
Context `{UuidText} `{FloatText} `{CaseFolding}.

(** [Weights.Validate]: the text of the error, if there is one. *)
Definition Validate (w : Weights) : option string :=
  match List.find (λ p, SFltb p.2 fzero) (weight_list w) with
  | Some (name, v) => Some ("dispatch: weight " +:+ name +:+ " must be non-negative (got " +:+ fmt_g v +:+ ")")
  | None =>
      let sum := weights_sum w in
      if SFltb weightsSumTolerance (fabs (fsub sum fone))
      then Some ("dispatch: weights must sum to 1.0 (got " +:+ fmt_g sum +:+ ")") else None
  end.

Definition containsFold (l : list string) (needle : string) : bool := existsb (λ item, EqualFold item needle) l.

(** What the candidate holds and what is missing. *)
Definition splitSkills (required held : list string) : list string * list string :=
  (List.filter (containsFold held) required, List.filter (λ s, negb (containsFold held s)) required).

Definition ratedForMake (makes : list string) (make : string) : bool :=
  if String.eqb make "" then false else containsFold makes make.

Definition scoreTechnicalFit (c : Candidate) (j : JobContext) : factorResult :=
  let '(matched, missing) := splitSkills (requiredSkills j) (cd_Skills c) in
  let ratio := if 0 <? count (requiredSkills j)
               then fdiv (of_int (count matched)) (of_int (count (requiredSkills j))) else fone in
  let '(bonus, makeNote) :=
    if String.eqb (jc_VehicleMake j) "" then (fone, "no vehicle make constraint")
    else if ratedForMake (cd_VehicleMakes c) (jc_VehicleMake j) then (fone, "rated on " +:+ jc_VehicleMake j)
    else (makeMismatchBonus, "not rated on " +:+ jc_VehicleMake j +:+ "; 0.5 make bonus applied") in
  let skills :=
    if is_nil (requiredSkills j) then "no specific skills required for this job"
    else "matches " +:+ fmt_d (count matched) +:+ "/" +:+ fmt_d (count (requiredSkills j)) +:+ " required skills" +:+
         (if is_nil matched then "" else " (" +:+ String.concat ", " matched +:+ ")") +:+
         (if is_nil missing then "" else "; missing (" +:+ String.concat ", " missing +:+ ")") in
  mkFactorResult ratio (round4 (clamp01 (fmul ratio bonus))) (skills +:+ "; " +:+ makeNote).

Definition scoreProximity (c : Candidate) : factorResult :=
  let eta := if cd_ETAMinutes c <? 0 then 0 else cd_ETAMinutes c in
  if negb (cd_Available c)
  then mkFactorResult (of_int eta) fzero
         ("technician unavailable; proximity scored 0 (ETA would be " +:+ fmt_d eta +:+ " min)")
  else
    let normalized := fdiv fone (fadd fone (fdiv (of_int eta) etaScaleMinutes)) in
    mkFactorResult (of_int eta) (round4 normalized)
      ("ETA " +:+ fmt_d eta +:+ " min, " +:+ fmt_fixed 1 (cd_DistanceKm c) +:+ " km away; proximity " +:+
       fmt_fixed 2 normalized).

Definition scoreAvailability (c : Candidate) : factorResult :=
  if negb (cd_Available c)
  then mkFactorResult fzero fzero "technician is not available; availability scored 0"
  else if cd_DeclinedLast c
  then mkFactorResult fone declinedLastPenalty
         "technician is available but declined the last dispatch offer (0.5 availability penalty)"
  else mkFactorResult fone fone "technician is available with no recent decline".

Definition scoreEquipment (c : Candidate) : factorResult :=
  if cd_HasEquipment c then mkFactorResult fone fone "required tools and equipment are on the van"
  else mkFactorResult fzero fzero "missing required tools or equipment".

Definition scoreParts (c : Candidate) (j : JobContext) : factorResult :=
  if is_nil (requiredParts j) then mkFactorResult fone fone "no parts required for this job"
  else if cd_HasRequiredParts c
  then mkFactorResult fone fone
         ("has all " +:+ fmt_d (count (requiredParts j)) +:+ " required parts (" +:+ String.concat ", " (requiredParts j) +:+ ")")
  else mkFactorResult fzero partsPartialCredit
         ("missing required parts (" +:+ String.concat ", " (requiredParts j) +:+ "); partial parts coverage scored 0.5").

Definition scorePerformance (c : Candidate) : factorResult :=
  let completion := clamp01 (cd_CompletionRate c) in
  let rating := fdiv (math_Min (math_Max (cd_AvgCustomerRating c) fzero) ratingScale) ratingScale in
  let acceptance := clamp01 (cd_AcceptanceRate c) in
  let composite := fadd (fadd (fmul performanceCompletionWeight completion) (fmul performanceRatingWeight rating))
                     (fmul performanceAcceptanceWeight acceptance) in
  mkFactorResult composite (round4 (clamp01 composite))
    ("completion " +:+ fmt_fixed 0 (fmul completion (of_int 100)) +:+ "%, rating " +:+
     fmt_fixed 1 (cd_AvgCustomerRating c) +:+ "/5, acceptance " +:+ fmt_fixed 0 (fmul acceptance (of_int 100)) +:+
     "% over " +:+ fmt_d (cd_CompletedJobs c) +:+ " completed jobs" +:+
     (if cd_CompletedJobs c =? 0 then " (new technician, no history yet)" else "")).

(** ** Scores *)

Definition contribution (f : Factor) : float64 := fmul (fa_Weight f) (fa_Normalized f).

(** The comparison of the reasons: the contribution, then the position. *)
Definition reason_less (a b : nat * Factor) : bool :=
  if negb (SFeqb (contribution a.2) (contribution b.2)) then SFltb (contribution b.2) (contribution a.2)
  else (a.1 <? b.1)%nat.

(** [None]: no list. *)
Definition TopReasons (s : Score) (n : Z) : option (list string) :=
  if (n <=? 0) || is_nil (so_Factors s) then None
  else
    let order := SliceStable reason_less (combine (seq 0 (length (so_Factors s))) (so_Factors s)) in
    let given := List.filter (λ f, negb (SFleb (contribution f) fzero)) (map snd order) in
    Some (map (λ f, fa_Name f +:+ ": " +:+ fa_Reason f) (take (Z.to_nat n) given)).

Definition factor (name : string) (weight : float64) (r : factorResult) : Factor :=
  mkFactor name weight (raw r) (normalized r) (reason r).

Definition factors_of (c : Candidate) (j : JobContext) (w : Weights) : list Factor :=
  [factor FactorTechnicalFit (wt_TechnicalFit w) (scoreTechnicalFit c j);
   factor FactorProximity (wt_Proximity w) (scoreProximity c);
   factor FactorAvailability (wt_Availability w) (scoreAvailability c);
   factor FactorEquipment (wt_Equipment w) (scoreEquipment c);
   factor FactorParts (wt_Parts w) (scoreParts c j);
   factor FactorPerformance (wt_Performance w) (scorePerformance c)].

Definition total_of (factors : list Factor) : float64 :=
  fold_left (λ total f, fadd total (contribution f)) factors fzero.

Definition ScoreCandidate (c : Candidate) (j : JobContext) (w : Weights) : Score :=
  let factors := factors_of c j w in
  let score := mkScore (cd_TechnicianID c) (round4 (total_of factors)) factors None in
  mkScore (so_TechnicianID score) (so_Total score) (so_Factors score) (TopReasons score defaultTopReasons).

Definition score_less (a b : Score) : bool :=
  if negb (SFeqb (so_Total a) (so_Total b)) then SFltb (so_Total b) (so_Total a)
  else String.ltb (uuid_string (so_TechnicianID a)) (uuid_string (so_TechnicianID b)).

Definition ScoreCandidates (candidates : list Candidate) (j : JobContext) (w : Weights) : list Score :=
  SliceStable score_less (map (λ c, ScoreCandidate c j w) candidates).

End Engine.
