(* ===== verification/DispatchApi.v ===== *)
(** * DispatchApi: requests, decision records and endpoints
    ([backend/dispatch/http.go], [audit.go])

    The validation of a request, the record of a decision and its digest, the recorder
    over the audit table and both endpoints behind their gate. *)

From S2P Require Import Prelude Text Sha256 Platform Wire PayModels Float64 Http Auth Dispatch.

From Stdlib Require Import Floats.SpecFloat.

Open Scope Z_scope.

Definition DispatcherRoles : list string := ["DISPATCHER"; "ADMIN"; "SUPER_ADMIN"].
Definition maxCandidatesPerRequest : Z := 200.
Definition maxListEntries : Z := 50.
Definition maxStringEntryLength : Z := 64.

Record scoreRequest := mkScoreRequest {
  sr_JobID : option uuid;
  sr_JobContext : JobContext;
  sr_Candidates : list Candidate;
  sr_Weights : option Weights;
}.

Record scoreResponse := mkScoreResponse {
  sp_Weights : Weights;
  sp_Scores : list Score;
}.

(** ** Validation *)

Definition len (s : string) : Z := Z.of_nat (String.length s).

(** The first label that is empty or too long. *)
Fixpoint bad_label (field : string) (l : list string) : list FieldError :=
  match l with
  | [] => []
  | item :: l =>
      if String.eqb item "" then [mkFieldError field "entries must not be blank"]
      else if maxStringEntryLength <? len item
      then [mkFieldError field ("entries must be at most " +:+ fmt_d maxStringEntryLength +:+ " characters")]
      else bad_label field l
  end.

Definition refuse (bad : bool) (field issue : string) : list FieldError :=
  if bad then [mkFieldError field issue] else [].

Definition validateStringList (field : string) (l : list string) : list FieldError :=
  refuse (maxListEntries <? count l) field ("must contain at most " +:+ fmt_d maxListEntries +:+ " entries") ++
  bad_label field l.

Definition validateJobContext (j : JobContext) : list FieldError :=
  validateStringList "job_context.required_skills" (requiredSkills j) ++
  validateStringList "job_context.required_parts" (requiredParts j) ++
  refuse (maxStringEntryLength <? len (jc_VehicleMake j)) "job_context.vehicle_make"
    ("must be at most " +:+ fmt_d maxStringEntryLength +:+ " characters").

(** Outside of [0, top]. *)
Definition outside (top x : float64) : bool := SFltb x fzero || SFltb top x.

Definition validateCandidate (i : Z) (c : Candidate) : list FieldError :=
  let field name := "candidates[" +:+ fmt_d i +:+ "]." +:+ name in
  refuse (bool_decide (cd_TechnicianID c = uuid_nil)) (field "technician_id") "must be a non-zero UUID" ++
  refuse (SFltb (cd_DistanceKm c) fzero) (field "distance_km") "must be >= 0" ++
  refuse (cd_ETAMinutes c <? 0) (field "eta_minutes") "must be >= 0" ++
  refuse (cd_CompletedJobs c <? 0) (field "completed_jobs") "must be >= 0" ++
  refuse (outside fone (cd_AcceptanceRate c)) (field "acceptance_rate") "must be within [0,1]" ++
  refuse (outside fone (cd_CompletionRate c)) (field "completion_rate") "must be within [0,1]" ++
  refuse (outside (of_int 5) (cd_AvgCustomerRating c)) (field "avg_customer_rating") "must be within [0,5]" ++
  validateStringList (field "skills") (cd_Skills c) ++
  validateStringList (field "vehicle_makes") (cd_VehicleMakes c).

Fixpoint validateCandidates_from (i : Z) (l : list Candidate) : list FieldError :=
  match l with
  | [] => []
  | c :: l => validateCandidate i c ++ validateCandidates_from (i + 1) l
  end.
Definition validateCandidates : list Candidate → list FieldError := validateCandidates_from 0.

Section Api.
Context `{UuidText} `{FloatText} `{CaseFolding}.

(** What [platform.DecodeJSON] returned is the argument. *)
Definition computeScores (body : Error + scoreRequest) : Error + (scoreRequest * scoreResponse) :=
  match body with
  | inl e => inl e
  | inr req =>
      if bool_decide (sr_JobID req = Some uuid_nil)
      then inl (ErrValidation "job_id must be a non-zero UUID" [mkFieldError "job_id" "invalid"])
      else match sr_Weights req ≫= Validate with
      | Some text => inl (ErrValidation text [mkFieldError "weights" text])
      | None =>
          let weights := default DefaultWeights (sr_Weights req) in
          if is_nil (sr_Candidates req)
          then inl (ErrValidation "at least one candidate is required"
                 [mkFieldError "candidates" "must contain at least one candidate"])
          else if maxCandidatesPerRequest <? count (sr_Candidates req)
          then inl (ErrValidation ("at most " +:+ fmt_d maxCandidatesPerRequest +:+ " candidates per request")
                 [mkFieldError "candidates" ("must contain at most " +:+ fmt_d maxCandidatesPerRequest +:+ " candidates")])
          else
            let fieldErrs := validateJobContext (sr_JobContext req) ++ validateCandidates (sr_Candidates req) in
            if negb (is_nil fieldErrs) then inl (ErrValidation "request contains invalid fields" fieldErrs)
            else inr (req, mkScoreResponse weights (ScoreCandidates (sr_Candidates req) (sr_JobContext req) weights))
      end
  end.

(** ** JSON *)

Definition json_strings (l : option (list string)) : string :=
  match l with None => "null" | Some l => json_array (map json_string l) end.

Definition numbers_json (l : list (string * float64)) : option string :=
  members ← mapM (λ p, number p.1 p.2) l; Some (json_object (List.concat members)).

Definition weights_json (w : Weights) : option string := numbers_json (weight_list w).

Definition factor_json (f : Factor) : option string :=
  weight ← number "weight" (fa_Weight f);
  raw ← number "raw" (fa_Raw f);
  normalized ← number "normalized" (fa_Normalized f);
  Some (json_object (member "name" (json_string (fa_Name f)) ++ weight ++ raw ++ normalized ++
    member "reason" (json_string (fa_Reason f)))).

Definition score_json (s : Score) : option string :=
  total ← number "total" (so_Total s);
  factors ← mapM factor_json (so_Factors s);
  Some (json_object (member "technician_id" (json_uuid (so_TechnicianID s)) ++ total ++
    member "factors" (json_array factors) ++ member "top_reasons" (json_strings (so_TopReasons s)))).

Definition response_json (r : scoreResponse) : option string :=
  weights ← weights_json (sp_Weights r);
  scores ← mapM score_json (sp_Scores r);
  Some (json_object (member "weights" weights ++ member "scores" (json_array scores))).

Definition factor_info_json (f : FactorInfo) : option string :=
  weight ← number "default_weight" (fi_DefaultWeight f);
  Some (json_object (member "name" (json_string (fi_Name f)) ++
    member "description" (json_string (fi_Description f)) ++ weight)).

Definition factorCatalogueResponse : option string :=
  factors ← mapM factor_info_json FactorCatalogue;
  weights ← weights_json DefaultWeights;
  Some (json_object (member "factors" (json_array factors) ++ member "default_weights" weights)).

Definition labels (name : string) (l : list string) : list (string * string) :=
  if is_nil l then [] else member name (json_strings (Some l)).

Definition candidate_json (c : Candidate) : option string :=
  distance ← number "distance_km" (cd_DistanceKm c);
  acceptance ← number "acceptance_rate" (cd_AcceptanceRate c);
  completion ← number "completion_rate" (cd_CompletionRate c);
  rating ← number "avg_customer_rating" (cd_AvgCustomerRating c);
  Some (json_object (member "technician_id" (json_uuid (cd_TechnicianID c)) ++ distance ++
    member "eta_minutes" (json_int (cd_ETAMinutes c)) ++
    labels "skills" (cd_Skills c) ++ labels "vehicle_makes" (cd_VehicleMakes c) ++
    member "available" (json_bool (cd_Available c)) ++
    member "has_equipment" (json_bool (cd_HasEquipment c)) ++
    member "has_required_parts" (json_bool (cd_HasRequiredParts c)) ++
    member "completed_jobs" (json_int (cd_CompletedJobs c)) ++ acceptance ++ completion ++ rating ++
    member "declined_last" (json_bool (cd_DeclinedLast c)))).

Definition job_context_json (j : JobContext) : string :=
  json_object (member "required_skills" (json_strings (jc_RequiredSkills j)) ++
    member "vehicle_make" (json_string (jc_VehicleMake j)) ++
    member "required_parts" (json_strings (jc_RequiredParts j))).

(** [scoreInputs] *)
Definition inputs_json (j : JobContext) (candidates : list Candidate) (applied : Weights) : option string :=
  candidates ← mapM candidate_json candidates;
  weights ← weights_json applied;
  Some (json_object (member "job_context" (job_context_json j) ++
    member "candidates" (json_array candidates) ++ member "weights" weights)).

Definition InputsHash (j : JobContext) (candidates : list Candidate) (applied : Weights) : string :=
  match inputs_json j candidates applied with Some b => sha256Hex b | None => "" end.

(** ** The decision record ([audit.go]) *)

Definition ActionDispatchScored : string := "dispatch.decision.scored".
Definition DecisionObjectType : string := "dispatch_decision".

Record DecisionRecord := mkDecisionRecord {
  dr_DecisionID : uuid;
  dr_ActorID : uuid;
  dr_TenantID : option uuid;
  dr_JobID : option uuid;
  dr_InputsHash : string;
  dr_ChosenTechnicianID : uuid;
  dr_ChosenScore : float64;
  dr_CandidateCount : Z;
  dr_Weights : Weights;
}.

Definition decisionRecordFromRequest (claims : option Claims) (fresh : uuid) (req : scoreRequest)
    (resp : scoreResponse) : Error + DecisionRecord :=
  match claims with
  | None => inl authentication_required
  | Some claims =>
      match uuid_parse (c_UserID claims) with
      | None => inl (ErrUnauthorized "authenticated subject is not a user identifier")
      | Some actor =>
          match (if String.eqb (c_TenantID claims) "" then Some None else Some <$> uuid_parse (c_TenantID claims)) with
          | None => inl (ErrUnauthorized "authenticated tenant claim is not a tenant identifier")
          | Some tenant =>
              match sp_Scores resp with
              | chosen :: _ =>
                  inr (mkDecisionRecord fresh actor tenant (sr_JobID req)
                    (InputsHash (sr_JobContext req) (sr_Candidates req) (sp_Weights resp))
                    (so_TechnicianID chosen) (so_Total chosen) (count (sr_Candidates req)) (sp_Weights resp))
              | [] => inl ErrInternal (* an index out of range: see [computeScores_candidates] *)
              end
          end
      end
  end.

(** The rows of [audit_log] that decisions append; the metadata as its members. *)
Record decision_row := mkDecisionRow {
  au_actor_id : uuid;
  au_action : string;
  au_object_type : string;
  au_object_id : string;
  au_tenant_id : option uuid;
  au_metadata : list (string * string);
}.

(** The members of the JSON object, by name. *)
Definition decision_metadata (r : DecisionRecord) : option (list (string * string)) :=
  score ← number "chosen_score" (dr_ChosenScore r);
  weights ← numbers_json
    [("availability", wt_Availability (dr_Weights r)); ("equipment", wt_Equipment (dr_Weights r));
     ("parts", wt_Parts (dr_Weights r)); ("performance", wt_Performance (dr_Weights r));
     ("proximity", wt_Proximity (dr_Weights r)); ("technical_fit", wt_TechnicalFit (dr_Weights r))];
  Some (member "candidate_count" (json_int (dr_CandidateCount r)) ++ score ++
    member "chosen_technician_id" (json_uuid (dr_ChosenTechnicianID r)) ++
    member "inputs_sha256" (json_string (dr_InputsHash r)) ++
    optional "job_id" (json_uuid <$> dr_JobID r) ++
    member "weights" weights).

(** [PostgresDecisionRecorder.RecordDecision]; the errors are not of the application. *)
Definition RecordDecision (r : DecisionRecord) : M (list decision_row) (option Error) unit :=
  metadata ← from_option (decision_metadata r) None;
  modify (λ log, log ++ [mkDecisionRow (dr_ActorID r) ActionDispatchScored DecisionObjectType
    (uuid_string (dr_DecisionID r)) (dr_TenantID r) metadata]).

(** ** The endpoints *)

Section Handlers.
Context {W : Type}.

(** The interface of a recorder, and its absence. *)
Context (recorder : option (DecisionRecord → M W (option Error) unit)).

Definition scoreWithRecorder (fresh : uuid) (body : Error + scoreRequest) : Handler (W := W) := λ claims w,
  match computeScores body with
  | inl e => (WriteError (Some e), w)
  | inr (req, resp) =>
      match recorder with
      | None => (writeJSON 200 (response_json resp), w)
      | Some record =>
          match decisionRecordFromRequest claims fresh req resp with
          | inl e => (WriteError (Some e), w)
          | inr r =>
              match record r w with
              | (inl e, w) => (WriteError e, w)
              | (inr _, w) => (writeJSON 200 (response_json resp), w)
              end
          end
      end
  end.

Definition handleFactors : Handler (W := W) := λ _ w, (writeJSON 200 factorCatalogueResponse, w).

(** The routes, behind the gate the service passes. *)
Definition PostScore (fresh : uuid) (body : Error + scoreRequest) : Handler :=
  RequireRole DispatcherRoles (scoreWithRecorder fresh body).
Definition GetFactors : Handler := RequireRole DispatcherRoles handleFactors.

End Handlers.
End Api.
