(* ===== verification/DispatchScale.v ===== *)
(** * DispatchScale: the scores stay between zero and one

    Every factor and the total of an accepted request, whatever the rounding of
    floating-point arithmetic does. *)

From S2P Require Import Prelude Text Platform Float64 Dispatch DispatchApi.

From Stdlib Require Import Floats.SpecFloat.

Open Scope Z_scope.

(** A number JSON can give. *)
Definition finite64 (x : float64) : bool :=
  match x with
  | S754_zero _ => true
  | S754_finite _ m e => (Zpos m <? 2 ^ 53) && (-1074 <=? e) && (e <=? 971) && ((e =? -1074) || (2 ^ 52 <=? Zpos m))
  | _ => false
  end.

Definition on_scale (x : float64) : Prop := SFleb fzero x = true ∧ SFleb x fone = true.

Definition in_unit (x : float64) : Prop := ∃ v, is_val x v ∧ v ≤ unit64.

Lemma is_val_zero : is_val fzero 0.
Proof. done. Qed.

Lemma unit64_pos : 0 < unit64.
Proof. by apply Z.pow_pos_nonneg. Qed.

Lemma in_unit_scale x : in_unit x → on_scale x.
Proof.
  intros (v & V & L). pose proof (is_val_nonneg x v V). split.
  - rewrite (leb_val _ _ 0 v is_val_zero V). by apply Z.leb_le.
  - rewrite (leb_val _ _ v unit64 V is_val_one). by apply Z.leb_le.
Qed.

Lemma in_unit_zero : in_unit fzero.
Proof. exists 0. split; [done|]. pose proof unit64_pos. lia. Qed.
Lemma in_unit_one : in_unit fone.
Proof. exists unit64. split; [exact is_val_one|done]. Qed.

(** A constant, by computation. *)
Definition value_of (x : float64) : Z :=
  match x with S754_finite false m e => Zpos m * 2 ^ (e + 1074) | _ => 0 end.
Definition positive64 (x : float64) : bool :=
  match x with S754_finite false _ _ => finite64 x | S754_zero _ => true | _ => false end.

Lemma positive_val x : positive64 x = true → is_val x (value_of x).
Proof.
  destruct x as [s| | |[|] m e]; try done. cbn [positive64 finite64 value_of is_val].
  rewrite !andb_true_iff, orb_true_iff, Z.ltb_lt, !Z.leb_le, Z.eqb_eq. unfold mantissa. intros (((?&?)&?)&?).
  split; [split_and!; lia|done].
Qed.

Lemma finite64_cases x : finite64 x = true → SFltb x fzero = true ∨ ∃ v, is_val x v.
Proof.
  destruct x as [s| | |[|] m e]; try done; intros F; [right; by exists 0|by left|right].
  by exists (value_of (S754_finite false m e)); apply positive_val.
Qed.

Lemma not_negative x : finite64 x = true → SFltb x fzero = false → ∃ v, is_val x v.
Proof. intros F N. destruct (finite64_cases x F) as [L|V]; [congruence|done]. Qed.

(** ** Rounding to four places *)

(** Up to a rounding error above one. *)
Definition nearly_one : Z := 2 ^ 1074 + 2 ^ 1054.

Lemma round4_unit x v : is_val x v → v ≤ nearly_one → in_unit (round4 x).
Proof.
  intros X L. unfold round4. assert (T : is_val roundUnit (10000 * unit64)) by by apply of_int_val.
  assert (exists z, fits (fmul x roundUnit) z ∧ z ≤ 10485770000 * 2 ^ (-20 + 1074)) as (z & F & B).
  { apply (fmul_le x roundUnit v (10000 * unit64)); [done|done|done|done|].
    intros m e m' e' -> R. vm_compute in R. injection R as <- <-. destruct X as [(M & E & C) ->].
    assert (e ≤ -52).
    { destruct C as [->|C]; [done|]. destruct (Z.le_gt_cases e (-52)) as [|G]; [done|exfalso].
      assert (2 ^ 52 * 2 ^ 1023 ≤ Zpos m * 2 ^ (e + 1074)) as Q
        by (apply Z.mul_le_mono_nonneg; [by apply Z.pow_nonneg|done|by apply Z.pow_nonneg|apply Z.pow_le_mono_r; lia]).
      assert (nearly_one < 2 ^ 52 * 2 ^ 1023) by reflexivity. lia. }
    split; [lia|]. replace (-20 - (e + -39)) with ((-20 - e) + 39) by lia. rewrite Z.pow_add_r by lia.
    assert (Zpos m ≤ 1048577 * 2 ^ (-20 - e)) as Q.
    { apply (Z.mul_le_mono_pos_r _ _ (2 ^ (e + 1074))); [apply Z.pow_pos_nonneg; lia|].
      rewrite <-Z.mul_assoc, <-Z.pow_add_r by lia. replace (-20 - e + (e + 1074)) with 1054 by lia. exact L. }
    change (2 ^ 39) with 549755813888. lia. }
  assert (Z : is_val (fmul x roundUnit) z) by (apply (fits_val _ _ F); apply (Z.le_lt_trans _ _ _ B); reflexivity).
  destruct (math_Round_le _ z 10000 Z) as (r & R & Lr); [done| |].
  { assert (2 * (10485770000 * 2 ^ (-20 + 1074)) < (2 * 10000 + 1) * unit64) by reflexivity. lia. }
  exact (fdiv_le_one _ _ r _ R T ltac:(reflexivity) Lr).
Qed.

Lemma round4_in_unit x : in_unit x → in_unit (round4 x).
Proof. intros (v & V & L). apply (round4_unit x v V). transitivity unit64; [done|]. by apply Z.leb_le. Qed.

Lemma clamp01_fits x v : fits x v → in_unit (clamp01 x).
Proof.
  intros F. unfold clamp01. destruct (SFleb x fzero) eqn:Z0; [exact in_unit_zero|].
  destruct F as [V|[-> _]]; [|exact in_unit_one].
  rewrite (leb_val _ _ unit64 v is_val_one V). destruct (Z.leb_spec unit64 v); [exact in_unit_one|].
  exists v. split; [done|lia].
Qed.

Lemma clamp01_finite x : finite64 x = true → in_unit (clamp01 x).
Proof.
  intros F. destruct (finite64_cases x F) as [L|[v V]]; [|by apply (clamp01_fits x v); left].
  unfold clamp01. assert (SFleb x fzero = true) as ->; [|exact in_unit_zero].
  revert L. unfold SFltb, SFleb. by destruct (SFcompare x fzero) as [[]|].
Qed.

(** ** The factors *)

Section Factors.
Context `{UuidText} `{FloatText} `{CaseFolding}.

Lemma matched_le required held : count (splitSkills required held).1 ≤ count required.
Proof.
  unfold count, splitSkills. cbn [fst].
  induction required as [|s l IH]; [done|]. cbn [List.filter length]. destruct (containsFold held s); cbn [length]; lia.
Qed.

Lemma in_unit_half : in_unit (lit 1 2).
Proof. exists (value_of (lit 1 2)). split; [by apply positive_val|by apply Z.leb_le]. Qed.

Lemma technical_unit c j : count (requiredSkills j) < 2 ^ 53 → in_unit (normalized (scoreTechnicalFit c j)).
Proof.
  intros B. unfold scoreTechnicalFit. pose proof (matched_le (requiredSkills j) (cd_Skills c)) as M.
  destruct (splitSkills _ _) as [matched missing]. cbn [fst] in M.
  assert (R : in_unit (if 0 <? count (requiredSkills j)
                       then fdiv (of_int (count matched)) (of_int (count (requiredSkills j))) else fone)).
  { destruct (Z.ltb_spec 0 (count (requiredSkills j))) as [P|]; [|exact in_unit_one].
    assert (0 ≤ count matched) by (unfold count; lia). pose proof unit64_pos.
    apply (fdiv_le_one _ _ (count matched * unit64) (count (requiredSkills j) * unit64)).
    - apply of_int_val. lia.
    - apply of_int_val. lia.
    - lia.
    - apply Z.mul_le_mono_nonneg_r; lia. }
  set (ratio := if 0 <? _ then _ else _) in *. clearbody ratio. destruct R as (v & V & L).
  assert (G : ∀ bonus, in_unit bonus → in_unit (round4 (clamp01 (fmul ratio bonus)))).
  { intros bonus (w & W & _). apply round4_in_unit. destruct (fmul_nonneg _ _ _ _ V W) as [z F]. by apply (clamp01_fits _ z). }
  repeat case_match; simplify_eq; cbn [normalized]; apply G; try exact in_unit_one; exact in_unit_half.
Qed.

Lemma proximity_unit c : in_unit (normalized (scoreProximity c)).
Proof.
  unfold scoreProximity. destruct (negb (cd_Available c)); [exact in_unit_zero|]. cbn [normalized].
  set (eta := if cd_ETAMinutes c <? 0 then 0 else cd_ETAMinutes c).
  assert (N : 0 ≤ eta) by (unfold eta; destruct (Z.ltb_spec (cd_ETAMinutes c) 0); lia).
  assert (Inf : in_unit (round4 (fdiv fone (fadd fone (S754_infinity false))))) by (exists 0; split; [done|by apply Z.pow_nonneg]).
  assert (T : is_val etaScaleMinutes (30 * unit64)) by by apply of_int_val.
  assert (Q : ∃ q, fits (fdiv (of_int eta) etaScaleMinutes) q).
  { destruct (of_int_fits eta N) as (v & _ & [V|[-> _]]).
    - by apply (fdiv_nonneg _ _ v (30 * unit64)).
    - exists (2 ^ 2098). right. by split. }
  destruct Q as (q & [V|[-> _]]); [|exact Inf].
  destruct (fadd_fits _ _ _ _ is_val_one V) as (s & R & [S|[E _]]).
  - apply round4_in_unit. pose proof (is_val_nonneg _ _ V). pose proof unit64_pos.
    assert (unit64 ≤ s) by (apply (rounded_mono unit64 unit64 (unit64 + q) s); [lia|exact (is_val_self _ _ is_val_one)|done]).
    apply (fdiv_le_one _ _ unit64 s is_val_one S); [lia|done].
  - rewrite E. exists 0. split; [done|by apply Z.pow_nonneg].
Qed.

Lemma availability_unit c : in_unit (normalized (scoreAvailability c)).
Proof.
  unfold scoreAvailability. repeat case_match; cbn [normalized]; try exact in_unit_zero; try exact in_unit_one; exact in_unit_half.
Qed.

Lemma equipment_unit c : in_unit (normalized (scoreEquipment c)).
Proof. unfold scoreEquipment. case_match; [exact in_unit_one|exact in_unit_zero]. Qed.

Lemma parts_unit c j : in_unit (normalized (scoreParts c j)).
Proof.
  unfold scoreParts. repeat case_match; cbn [normalized]; try exact in_unit_one; exact in_unit_half.
Qed.

Lemma two_val : is_val (of_int 2) (2 * unit64).
Proof. by apply of_int_val. Qed.

(** The rating is confined to [0, 5]. *)
Lemma rating_range x : finite64 x = true →
  ∃ v, is_val (math_Min (math_Max x fzero) ratingScale) v ∧ v ≤ 5 * unit64.
Proof.
  intros F. assert (T : is_val ratingScale (5 * unit64)) by by apply of_int_val.
  assert (Mx : ∃ v, is_val (math_Max x fzero) v).
  { destruct (finite64_cases x F) as [L|[v V]].
    - exists 0. destruct x as [[|]|s| |s m e]; try done. unfold math_Max. cbn [is_inf is_nan is_zero64 orb andb Bool.eqb].
      assert (SFltb fzero (S754_finite s m e) = false) as -> by (destruct s; [done|by vm_compute in L]). done.
    - exists (Z.max v 0). pose proof (is_val_nonneg x v V). rewrite Z.max_l by done.
      destruct (is_val_cases x v V) as [(-> & s & ->)|(m & e & -> & _)]; [by destruct s|exact V]. }
  destruct Mx as [v V]. unfold math_Min.
  destruct (is_val_cases _ v V) as [(-> & s & ->)|(m & e & E & _)].
  - exists 0. split; [by destruct s|by apply Z.leb_le].
  - rewrite E in *. cbn [is_inf is_nan is_zero64 orb andb Bool.eqb].
    destruct (SFltb (S754_finite false m e) ratingScale) eqn:L.
    + exists v. split; [done|]. rewrite (ltb_val _ _ v (5 * unit64) V T) in L. apply Z.ltb_lt in L. lia.
    + exists (5 * unit64). split; [exact T|done].
Qed.

Lemma performance_unit c : finite64 (cd_AcceptanceRate c) = true → finite64 (cd_CompletionRate c) = true →
  finite64 (cd_AvgCustomerRating c) = true → in_unit (normalized (scorePerformance c)).
Proof.
  intros A C R. unfold scorePerformance. cbn [normalized].
  destruct (clamp01_finite _ A) as (a & Va & La), (clamp01_finite _ C) as (k & Vk & Lk).
  destruct (rating_range _ R) as (t & Vt & Lt).
  assert (T : is_val ratingScale (5 * unit64)) by by apply of_int_val.
  destruct (fdiv_le_one _ _ t (5 * unit64) Vt T ltac:(reflexivity) Lt) as (r & Vr & Lr).
  assert (Wc : is_val performanceCompletionWeight (value_of performanceCompletionWeight)) by by apply positive_val.
  assert (Wr : is_val performanceRatingWeight (value_of performanceRatingWeight)) by by apply positive_val.
  assert (Wa : is_val performanceAcceptanceWeight (value_of performanceAcceptanceWeight)) by by apply positive_val.
  destruct (fmul_le_left _ _ _ _ Wc Vk Lk) as (x & X & Lx), (fmul_le_left _ _ _ _ Wr Vr Lr) as (y & Y & Ly),
    (fmul_le_left _ _ _ _ Wa Va La) as (z & Vz & Lz).
  destruct (fadd_fits _ _ x y X Y) as (s & Rs & Fs).
  assert (B2 : 0 ≤ x + y ≤ 2 * unit64).
  { pose proof (is_val_nonneg _ _ X). pose proof (is_val_nonneg _ _ Y).
    assert (value_of performanceCompletionWeight + value_of performanceRatingWeight ≤ 2 * unit64) by by apply Z.leb_le. lia. }
  destruct (rounded_bound (x + y) s (2 * unit64) _ (of_int 2) Rs two_val B2 Fs) as [Vs _].
  destruct (fadd_fits _ _ s z Vs Vz) as (q & _ & Fq). apply round4_in_unit. by apply (clamp01_fits _ q).
Qed.

(** ** The total *)

(** At most, for numbers that are not negative. *)
Definition le64 (a b : float64) : Prop :=
  (∃ v w, is_val a v ∧ is_val b w ∧ v ≤ w) ∨
  (b = S754_infinity false ∧ (a = S754_infinity false ∨ ∃ v, is_val a v)).

Lemma is_val_range x v : is_val x v → v < 2 ^ 2098.
Proof.
  intros V. destruct (is_val_cases x v V) as [(-> & _)|(m & e & _ & (M & E & _) & ->)]; [by apply Z.pow_pos_nonneg|].
  apply Z.lt_le_trans with (2 ^ 53 * 2 ^ (e + 1074)); [apply Z.mul_lt_mono_pos_r; [apply Z.pow_pos_nonneg|]; lia|].
  rewrite <-Z.pow_add_r by lia. apply Z.pow_le_mono_r; lia.
Qed.

Lemma fadd_inf x v : is_val x v → fadd (S754_infinity false) x = S754_infinity false.
Proof. intros V. by destruct (is_val_cases x v V) as [(_ & s & ->)|(m & e & -> & _)]. Qed.

Lemma le64_add a b c d v w : le64 a b → is_val c v → is_val d w → v ≤ w → le64 (fadd a c) (fadd b d).
Proof.
  intros [(x & y & A & B & L)|(-> & A)] C D Lc.
  - destruct (fadd_fits a c x v A C) as (p & Rp & Fp), (fadd_fits b d y w B D) as (q & Rq & Fq).
    assert (p ≤ q).
    { apply (rounded_mono (x + v) p (y + w) q); [|done|done].
      pose proof (is_val_nonneg _ _ A). pose proof (is_val_nonneg _ _ C). lia. }
    destruct Fq as [Vq|[-> Lq]].
    + left. exists p, q. split_and!; [|done|done]. apply (fits_val _ _ Fp). pose proof (is_val_range _ _ Vq). lia.
    + right. split; [done|]. destruct Fp as [Vp|[-> _]]; [right; eauto|by left].
  - right. split; [by apply (fadd_inf d w)|]. destruct A as [->|[x A]]; [left; by apply (fadd_inf c v)|].
    destruct (fadd_fits a c x v A C) as (p & _ & [Vp|[-> _]]); [right; eauto|by left].
Qed.

Lemma fadd_zero x v : is_val x v → ∃ y, fadd fzero x = y ∧ is_val y v.
Proof. intros V. exists (fadd fzero x). split; [done|]. destruct (is_val_cases x v V) as [(-> & [] & ->)|(m & e & -> & _)]; done. Qed.

(** The weights a request may have. *)
Definition weights_ok (w : Weights) : Prop :=
  Forall (λ p, finite64 p.2 = true) (weight_list w) ∧ Validate w = None.

Lemma valid_weights w : weights_ok w →
  Forall (λ p, ∃ v, is_val p.2 v) (weight_list w) ∧
  SFltb weightsSumTolerance (fabs (fsub (weights_sum w) fone)) = false.
Proof.
  unfold weights_ok, Validate. intros [F V]. destruct (List.find _ _) as [[name x]|] eqn:Fi; [done|].
  destruct (SFltb weightsSumTolerance _) eqn:S; [done|]. split; [|done].
  apply list.Forall_forall. intros p I. rewrite list.Forall_forall in F.
  apply (not_negative p.2 (F p I)). apply (List.find_none _ _ Fi). by apply list_elem_of_In.
Qed.

Lemma beyond_tolerance : SFltb weightsSumTolerance (fabs (S754_infinity false)) = true.
Proof. reflexivity. Qed.

(** A sum in tolerance is nearly one. *)
Lemma tolerated x v : is_val x v → SFltb weightsSumTolerance (fabs (fsub x fone)) = false → v ≤ nearly_one.
Proof.
  intros X T. destruct (Z.le_gt_cases v nearly_one) as [|G]; [done|exfalso].
  assert (nearly_one = unit64 + 2 ^ 1054) as E by done. assert (0 < 2 ^ 1054) by by apply Z.pow_pos_nonneg.
  destruct (fsub_fits x fone v unit64 X is_val_one) as (z & R & F); [lia|].
  assert (L : 1 * 2 ^ 1054 ≤ z).
  { apply (rounded_mono (1 * 2 ^ 1054) _ (v - unit64) z); [lia|by apply rounded_self|done]. }
  assert (Tl : is_val weightsSumTolerance (value_of weightsSumTolerance)) by by apply positive_val.
  assert (value_of weightsSumTolerance < 1 * 2 ^ 1054) by reflexivity.
  destruct F as [V|[I _]]; [|rewrite I, beyond_tolerance in T; discriminate T].
  assert (fabs (fsub x fone) = fsub x fone) as A.
  { destruct (is_val_cases _ _ V) as [(-> & _)|(m & e & -> & _)]; [lia|done]. }
  rewrite A, (ltb_val _ _ _ z Tl V) in T. apply Z.ltb_ge in T. lia.
Qed.

Lemma fold_le64 fs : ∀ a b, le64 a b →
  Forall (λ f, in_unit (fa_Normalized f)) fs → Forall (λ x, ∃ v, is_val x v) (map fa_Weight fs) →
  le64 (fold_left (λ total f, fadd total (contribution f)) fs a) (fold_left fadd (map fa_Weight fs) b).
Proof.
  induction fs as [|f fs IH]; intros a b L U W; [done|]. cbn [fold_left map].
  destruct (Forall_inv U) as (n & N & Ln), (Forall_inv W) as [w V].
  destruct (fmul_le_left _ _ w n V N Ln) as (c & C & Lc).
  apply IH; [by apply (le64_add _ _ _ _ c w)|exact (Forall_inv_tail U)|exact (Forall_inv_tail W)].
Qed.

Lemma total_unit w f fs : weights_ok w → map fa_Weight (f :: fs) = map snd (weight_list w) →
  Forall (λ f, in_unit (fa_Normalized f)) (f :: fs) → in_unit (round4 (total_of (f :: fs))).
Proof.
  intros W E U. destruct (valid_weights w W) as [V T].
  assert (S : weights_sum w = fold_left fadd (map fa_Weight fs) (fa_Weight f))
    by by (injection E as -> ->).
  assert (V' : Forall (λ x, ∃ v, is_val x v) (map fa_Weight (f :: fs))).
  { rewrite E. apply list.Forall_fmap. exact V. }
  assert (L : le64 (total_of (f :: fs)) (weights_sum w)).
  { rewrite S. apply (fold_le64 fs); [|exact (Forall_inv_tail U)|exact (Forall_inv_tail V')].
    destruct (Forall_inv U) as (n & N & Ln), (Forall_inv V') as [x X].
    destruct (fmul_le_left _ _ x n X N Ln) as (c & C & Lc).
    destruct (fadd_zero _ c C) as (y & <- & Y). left. by exists c, x. }
  destruct L as [(x & y & X & Y & L)|[I _]]; [|by rewrite I in T].
  apply (round4_unit _ x X). pose proof (tolerated _ y Y T). lia.
Qed.

(** The numbers of a candidate came out of JSON. *)
Definition decoded_candidate (c : Candidate) : Prop :=
  finite64 (cd_DistanceKm c) = true ∧ finite64 (cd_AcceptanceRate c) = true ∧
  finite64 (cd_CompletionRate c) = true ∧ finite64 (cd_AvgCustomerRating c) = true.

Lemma factors_unit c j w : decoded_candidate c → count (requiredSkills j) < 2 ^ 53 →
  Forall (λ f, in_unit (fa_Normalized f)) (factors_of c j w).
Proof.
  intros (_ & A & C & R) B. unfold factors_of, factor. repeat constructor; cbn [fa_Normalized].
  - by apply technical_unit.
  - apply proximity_unit.
  - apply availability_unit.
  - apply equipment_unit.
  - apply parts_unit.
  - by apply performance_unit.
Qed.

Lemma score_unit c j w : weights_ok w → decoded_candidate c → count (requiredSkills j) < 2 ^ 53 →
  in_unit (so_Total (ScoreCandidate c j w)).
Proof.
  intros W D B. unfold ScoreCandidate. cbn [so_Total]. pose proof (factors_unit c j w D B) as U.
  unfold factors_of in *. by apply (total_unit w).
Qed.

End Factors.
