(* ===== verification/DispatchProps.v ===== *)
(** * DispatchProps: what the scoring of dispatch guarantees

    The order of the scores, the validation of a request, the reasons and the record
    of a decision. *)

From S2P Require Import Prelude Text Platform Sql PayModels InspReportProps Float64 Http Auth.
From S2P Require Import Dispatch DispatchApi DispatchScale.

From Stdlib Require Import Floats.SpecFloat.

Open Scope Z_scope.

(** ** The stable sort *)

Section Sort.
Context {A : Type} (less : A → A → bool).

Lemma insert_before_perm x l : insert_before less x l ≡ₚ x :: l.
Proof.
  induction l as [|y l IH]; cbn [insert_before]; [done|]. destruct (less y x); [|done].
  rewrite IH. apply Permutation_swap.
Qed.

Lemma SliceStable_perm l : SliceStable less l ≡ₚ l.
Proof.
  unfold SliceStable. induction l as [|x l IH]; cbn [fold_right]; [done|]. by rewrite insert_before_perm, IH.
Qed.

(** Where the comparison is a strict order on the elements of a list whose negation is
    transitive, the result has nothing in front of something less. *)
Definition ordered (x y : A) : Prop := less y x = false.

Lemma insert_before_sorted x l :
  (∀ y z, y ∈ x :: l → z ∈ x :: l → less y z = true → less z y = false) →
  (∀ u v w, u ∈ x :: l → v ∈ x :: l → w ∈ x :: l → ordered u v → ordered v w → ordered u w) →
  StronglySorted ordered l → StronglySorted ordered (insert_before less x l).
Proof.
  induction l as [|y l IH]; intros As Tr S; cbn [insert_before]; [by repeat constructor|].
  apply StronglySorted_inv in S as [S F].
  destruct (less y x) eqn:L.
  - constructor.
    + apply IH; [| |done]; intros; [apply As|eapply Tr]; eauto; set_solver.
    + rewrite insert_before_perm. constructor; [|done]. unfold ordered. apply As; [set_solver..|done].
  - constructor; [by constructor|]. constructor; [exact L|].
    apply list.Forall_forall. intros z I. rewrite list.Forall_forall in F.
    apply (Tr x y z); [set_solver..|exact L|by apply F].
Qed.

Lemma SliceStable_sorted l :
  (∀ y z, y ∈ l → z ∈ l → less y z = true → less z y = false) →
  (∀ u v w, u ∈ l → v ∈ l → w ∈ l → ordered u v → ordered v w → ordered u w) →
  StronglySorted ordered (SliceStable less l).
Proof.
  induction l as [|x l IH]; intros As Tr; [constructor|]. cbn [SliceStable fold_right].
  assert (P : ∀ z, z ∈ x :: SliceStable less l → z ∈ x :: l) by (intros z; by rewrite (SliceStable_perm l)).
  apply insert_before_sorted.
  - intros; apply As; auto.
  - intros u v w U V W. apply (Tr u v w); by apply P.
  - apply IH; intros; [apply As|eapply Tr]; eauto; set_solver.
Qed.

(** A list in a strict total order is the only one of its elements. *)
Lemma sorted_unique l l' : l ≡ₚ l' →
  (∀ x y, x ∈ l → y ∈ l → ordered x y → ordered y x → x = y) →
  StronglySorted ordered l → StronglySorted ordered l' → l = l'.
Proof.
  revert l'. induction l as [|x l IH]; intros l' P An S S'; [by apply Permutation_nil_l in P|].
  destruct l' as [|y l']; [by apply Permutation_nil_r in P|].
  apply StronglySorted_inv in S as [S F], S' as [S' F'].
  assert (x = y) as <-.
  { assert (X : x ∈ y :: l') by (rewrite <-P; set_solver). assert (Y : y ∈ x :: l) by (rewrite P; set_solver).
    apply elem_of_cons in X as [|X]; [done|]. apply elem_of_cons in Y as [->|Y]; [done|].
    rewrite list.Forall_forall in F, F'. apply An; [set_solver..|by apply F|by apply F']. }
  f_equal. apply Permutation_cons_inv in P. apply IH; [done| |done|done]. intros; apply An; eauto; set_solver.
Qed.

End Sort.

(** ** Validation *)

Lemma refuse_nil bad field issue : refuse bad field issue = [] ↔ bad = false.
Proof. by destruct bad. Qed.

Definition labels_ok (l : list string) : Prop := count l ≤ maxListEntries ∧ Forall (λ s, 1 ≤ len s ≤ maxStringEntryLength) l.

Lemma len_pos s : s ≠ "" ↔ 1 ≤ len s.
Proof. unfold len. destruct s; cbn [String.length]; split; intros; try done; lia. Qed.

Lemma bad_label_nil field l : bad_label field l = [] ↔ Forall (λ s, 1 ≤ len s ≤ maxStringEntryLength) l.
Proof.
  induction l as [|s l IH]; cbn [bad_label]; [by split|]. rewrite list.Forall_cons.
  destruct (String.eqb_spec s "") as [->|N]; [split; [done|intros [[? _] _]; done]|].
  apply len_pos in N. destruct (Z.ltb_spec maxStringEntryLength (len s)); [split; [done|lia]|].
  rewrite IH. split; [by split|by intros []].
Qed.

Lemma validateStringList_nil field l : validateStringList field l = [] ↔ labels_ok l.
Proof.
  unfold validateStringList, labels_ok. rewrite app_nil, refuse_nil, bad_label_nil, Z.ltb_ge. done.
Qed.

Definition context_ok (j : JobContext) : Prop :=
  labels_ok (requiredSkills j) ∧ labels_ok (requiredParts j) ∧ len (jc_VehicleMake j) ≤ maxStringEntryLength.

Lemma validateJobContext_nil j : validateJobContext j = [] ↔ context_ok j.
Proof.
  unfold validateJobContext, context_ok. rewrite !app_nil, refuse_nil, !validateStringList_nil, Z.ltb_ge. done.
Qed.

(** Within [0, top]: also what cannot be compared. *)
Definition within (top x : float64) : Prop := SFltb x fzero = false ∧ SFltb top x = false.

Definition candidate_ok (c : Candidate) : Prop :=
  cd_TechnicianID c ≠ uuid_nil ∧ SFltb (cd_DistanceKm c) fzero = false ∧ 0 ≤ cd_ETAMinutes c ∧
  0 ≤ cd_CompletedJobs c ∧ within fone (cd_AcceptanceRate c) ∧ within fone (cd_CompletionRate c) ∧
  within (of_int 5) (cd_AvgCustomerRating c) ∧ labels_ok (cd_Skills c) ∧ labels_ok (cd_VehicleMakes c).

Lemma validateCandidate_nil i c : validateCandidate i c = [] ↔ candidate_ok c.
Proof.
  unfold validateCandidate, candidate_ok, within. rewrite !app_nil, !refuse_nil, !validateStringList_nil, !Z.ltb_ge.
  unfold outside. rewrite bool_decide_eq_false, !orb_false_iff. done.
Qed.

Lemma validateCandidates_nil l : validateCandidates l = [] ↔ Forall candidate_ok l.
Proof.
  unfold validateCandidates. generalize 0. induction l as [|c l IH]; intros i; cbn [validateCandidates_from]; [by split|].
  by rewrite app_nil, validateCandidate_nil, IH, list.Forall_cons.
Qed.

Section Api.
Context `{UuidText} `{FloatText} `{CaseFolding}.

Definition acceptable (req : scoreRequest) : Prop :=
  sr_JobID req ≠ Some uuid_nil ∧ sr_Weights req ≫= Validate = None ∧
  1 ≤ count (sr_Candidates req) ≤ maxCandidatesPerRequest ∧
  context_ok (sr_JobContext req) ∧ Forall candidate_ok (sr_Candidates req).

Definition applied (req : scoreRequest) : Weights := default DefaultWeights (sr_Weights req).

Definition answer (req : scoreRequest) : scoreResponse :=
  mkScoreResponse (applied req) (ScoreCandidates (sr_Candidates req) (sr_JobContext req) (applied req)).

(** ** A request is scored exactly when it is acceptable

    Any other is answered 422, with the fields at fault. *)
Theorem computeScores_exact req :
  match computeScores (inr req) with
  | inr out => acceptable req ∧ out = (req, answer req)
  | inl e => ¬ acceptable req ∧ Status e = 422 ∧ FieldErrors e ≠ []
  end.
Proof.
  unfold computeScores, acceptable. destruct (bool_decide_reflect (sr_JobID req = Some uuid_nil)) as [J|J].
  { split_and!; [by intros (? & _)|done|done]. }
  destruct (sr_Weights req ≫= Validate) as [text|]; [split_and!; [by intros (_ & ? & _)|done|done]|].
  destruct (sr_Candidates req) as [|c l] eqn:C; [split_and!; [by intros (_ & _ & [? _] & _)|done|done]|].
  rewrite <-C. cbn [is_nil]. destruct (is_nil (sr_Candidates req)) eqn:N; [by rewrite C in N|].
  destruct (Z.ltb_spec maxCandidatesPerRequest (count (sr_Candidates req))) as [G|G].
  { split_and!; [intros (_ & _ & [_ ?] & _); lia|done|done]. }
  assert (P : 1 ≤ count (sr_Candidates req)) by (rewrite C; unfold count; cbn [length]; lia).
  destruct (validateJobContext _ ++ validateCandidates _) as [|fe fes] eqn:V; cbn [is_nil negb].
  - apply app_nil in V as [Vj Vc]. apply validateJobContext_nil in Vj. apply validateCandidates_nil in Vc. by split_and!.
  - split_and!; [|done|done]. intros (_ & _ & _ & Vj & Vc). apply validateJobContext_nil in Vj.
    apply validateCandidates_nil in Vc. by rewrite Vj, Vc in V.
Qed.

Lemma computeScores_inv req out : computeScores (inr req) = inr out → acceptable req ∧ out = (req, answer req).
Proof. intros E. pose proof (computeScores_exact req) as X. by rewrite E in X. Qed.

(** ** Scores on the scale *)

(** The numbers of a request came out of JSON. *)
Definition decoded (req : scoreRequest) : Prop :=
  Forall decoded_candidate (sr_Candidates req) ∧
  ∀ w, sr_Weights req = Some w → Forall (λ p, finite64 p.2 = true) (weight_list w).

Lemma default_weights_ok : weights_ok DefaultWeights.
Proof. split; [by repeat constructor|]. by vm_compute. Qed.

Lemma applied_ok req : acceptable req → decoded req → weights_ok (applied req).
Proof.
  intros (_ & V & _) (_ & D). unfold applied. destruct (sr_Weights req) as [w|]; [|exact default_weights_ok].
  split; [by apply D|exact V].
Qed.

Definition scored (req : scoreRequest) (c : Candidate) : Score := ScoreCandidate c (sr_JobContext req) (applied req).

Lemma skills_bound req : acceptable req → count (requiredSkills (sr_JobContext req)) < 2 ^ 53.
Proof. intros (_ & _ & _ & ((L & _) & _) & _). unfold maxListEntries in L. lia. Qed.

Lemma scored_unit req c : acceptable req → decoded req → c ∈ sr_Candidates req → in_unit (so_Total (scored req c)).
Proof.
  intros A D I. apply score_unit; [by apply applied_ok| |by apply skills_bound].
  destruct D as [D _]. rewrite list.Forall_forall in D. by apply D.
Qed.

Lemma answer_perm req : sp_Scores (answer req) ≡ₚ map (scored req) (sr_Candidates req).
Proof. apply SliceStable_perm. Qed.

Lemma answer_elem req s : s ∈ sp_Scores (answer req) → ∃ c, c ∈ sr_Candidates req ∧ s = scored req c.
Proof. rewrite answer_perm. intros I. apply list_elem_of_fmap in I as (c & -> & I). by exists c. Qed.

(** C34. The total and every factor of an accepted request are numbers from zero to one. *)
Theorem scores_on_scale req out : decoded req → computeScores (inr req) = inr out →
  Forall (λ s, on_scale (so_Total s) ∧ Forall (λ f, on_scale (fa_Normalized f)) (so_Factors s)) (sp_Scores out.2).
Proof.
  intros D E. apply computeScores_inv in E as [A ->]. apply list.Forall_forall. intros s I.
  apply answer_elem in I as (c & I & ->). split; [by apply in_unit_scale, scored_unit|].
  eapply list.Forall_impl; [apply (factors_unit c (sr_JobContext req) (applied req))|intros f; apply in_unit_scale].
  - destruct D as [D _]. rewrite list.Forall_forall in D. by apply D.
  - by apply skills_bound.
Qed.

(** ** The order *)

Definition id_text (s : Score) : string := uuid_string (so_TechnicianID s).

(** A higher total, or the same and an identifier that is not after. *)
Definition ranks_before (a b : Score) : Prop :=
  SFltb (so_Total b) (so_Total a) = true ∨
  SFeqb (so_Total a) (so_Total b) = true ∧ String.ltb (id_text b) (id_text a) = false.

Definition numbered (s : Score) : Prop := ∃ v, is_val (so_Total s) v.

Lemma score_less_val a b v w : is_val (so_Total a) v → is_val (so_Total b) w →
  score_less a b = (w <? v) || (v =? w) && String.ltb (id_text a) (id_text b).
Proof.
  intros V W. unfold score_less, id_text. rewrite (eqb_val _ _ v w V W), (ltb_val _ _ w v W V).
  destruct (Z.eqb_spec v w) as [->|N]; cbn [negb andb]; [by rewrite Z.ltb_irrefl|by rewrite orb_false_r].
Qed.

Lemma ordered_ranks a b : numbered a → numbered b → ordered score_less a b → ranks_before a b.
Proof.
  intros [v V] [w W] O. unfold ordered in O. rewrite (score_less_val _ _ w v W V) in O. unfold ranks_before.
  rewrite (ltb_val _ _ w v W V), (eqb_val _ _ v w V W), Z.ltb_lt, Z.eqb_eq.
  apply orb_false_iff in O as [L O]. apply Z.ltb_ge in L. destruct (Z.eqb_spec w v) as [->|N]; [by right|left; lia].
Qed.

Lemma ltb_false_trans a b c : String.ltb b a = false → String.ltb c b = false → String.ltb c a = false.
Proof.
  intros L M. destruct (String.ltb c a) eqn:E; [|done]. exfalso.
  destruct (decide (a = b)) as [->|N]; [congruence|]. destruct (ltb_total a b N) as [L'|L']; [|congruence].
  pose proof (ltb_trans _ _ _ E L'). congruence.
Qed.

Lemma score_less_asym a b : numbered a → numbered b → score_less a b = true → score_less b a = false.
Proof.
  intros [v V] [w W]. rewrite (score_less_val _ _ v w V W), (score_less_val _ _ w v W V), Z.eqb_sym.
  destruct (Z.ltb_spec w v), (Z.ltb_spec v w), (Z.eqb_spec w v) as [E|E]; cbn [orb andb]; try done; try lia.
  intros L. destruct (String.ltb (id_text b) (id_text a)) eqn:M; [|done].
  pose proof (ltb_trans _ _ _ L M) as X. by rewrite ltb_irrefl in X.
Qed.

Lemma ordered_trans a b c : numbered a → numbered b → numbered c →
  ordered score_less a b → ordered score_less b c → ordered score_less a c.
Proof.
  intros [v V] [w W] [x X]. unfold ordered.
  rewrite (score_less_val _ _ w v W V), (score_less_val _ _ x w X W), (score_less_val _ _ x v X V).
  destruct (Z.ltb_spec v w), (Z.ltb_spec w x), (Z.ltb_spec v x), (Z.eqb_spec w v), (Z.eqb_spec x w), (Z.eqb_spec x v);
    cbn [orb andb]; try done; try lia. apply ltb_false_trans.
Qed.

Lemma answer_numbered req s : acceptable req → decoded req → s ∈ map (scored req) (sr_Candidates req) → numbered s.
Proof.
  intros A D I. apply list_elem_of_fmap in I as (c & -> & I). destruct (scored_unit req c A D I) as (v & V & _). by exists v.
Qed.

Lemma answer_sorted req : acceptable req → decoded req → StronglySorted (ordered score_less) (sp_Scores (answer req)).
Proof.
  intros A D. pose proof (answer_numbered req) as N. apply SliceStable_sorted.
  - intros; apply score_less_asym; eauto.
  - intros u v w ???. apply ordered_trans; eauto.
Qed.

(** A sorted list is sorted by whatever the order implies on its elements. *)
Lemma sorted_impl {A} (P : A → Prop) (R S : A → A → Prop) l : Forall P l →
  (∀ x y, P x → P y → R x y → S x y) → StronglySorted R l → StronglySorted S l.
Proof.
  intros F Im St. induction St as [|x l _ IH Fx]; constructor.
  - by apply IH, (Forall_inv_tail F).
  - pose proof (Forall_inv F) as Px. apply Forall_inv_tail in F. rewrite list.Forall_forall in *. auto.
Qed.

(** C33. ** The ranking

    The answer holds the score of every candidate once, with the weights that were asked
    for, the highest total first and equal totals by identifier. *)
Theorem scores_ranked req out : decoded req → computeScores (inr req) = inr out →
  sp_Weights out.2 = applied req ∧
  sp_Scores out.2 ≡ₚ map (scored req) (sr_Candidates req) ∧
  StronglySorted ranks_before (sp_Scores out.2).
Proof.
  intros D E. apply computeScores_inv in E as [A ->]. split_and!; [done|apply answer_perm|].
  apply (sorted_impl numbered (ordered score_less)); [|by apply ordered_ranks|by apply answer_sorted].
  apply list.Forall_forall. intros s I. cbn [snd] in I. rewrite answer_perm in I. by apply (answer_numbered req).
Qed.

(** ** The order of the request does not matter

    Requests that differ in the order of their candidates get the same answer, when no
    technician is listed twice. *)
Theorem order_irrelevant req req' out : decoded req → NoDup (map cd_TechnicianID (sr_Candidates req)) →
  sr_JobID req' = sr_JobID req → sr_JobContext req' = sr_JobContext req → sr_Weights req' = sr_Weights req →
  sr_Candidates req' ≡ₚ sr_Candidates req →
  computeScores (inr req) = inr out → computeScores (inr req') = inr (req', out.2).
Proof.
  intros D N J X Ws P E. apply computeScores_inv in E as [A ->].
  assert (D' : decoded req') by (destruct D as [? ?]; split; [by rewrite P|by rewrite Ws]).
  assert (A' : acceptable req').
  { destruct A as (? & ? & ? & ? & ?). unfold acceptable, count in *. rewrite J, X, Ws. rewrite P. done. }
  pose proof (computeScores_exact req') as E. destruct (computeScores (inr req')) as [e|out']; [by destruct E|].
  destruct E as [_ ->]. do 2 f_equal. cbn [snd]. unfold answer. f_equal; [unfold applied; by rewrite Ws|].
  assert (S' : ∀ c, scored req' c = scored req c) by (intros c; unfold scored, applied; by rewrite Ws, X).
  apply (sorted_unique score_less); [|intros x y Ix Iy|by apply (answer_sorted req')|by apply (answer_sorted req)].
  - change (sp_Scores (answer req') ≡ₚ sp_Scores (answer req)). rewrite !answer_perm.
    erewrite map_ext by exact S'. by rewrite P.
  - intros O O'. change (x ∈ sp_Scores (answer req')) in Ix. change (y ∈ sp_Scores (answer req')) in Iy.
    rewrite answer_perm in Ix, Iy. destruct (answer_numbered _ _ A' D' Ix) as [v V], (answer_numbered _ _ A' D' Iy) as [w W].
    apply list_elem_of_fmap in Ix as (c & -> & Ic), Iy as (d & -> & Id). unfold ordered in O, O'.
    rewrite (score_less_val _ _ w v W V) in O. rewrite (score_less_val _ _ v w V W) in O'.
    apply orb_false_iff in O as [L O], O' as [L' O']. apply Z.ltb_ge in L, L'.
    rewrite (proj2 (Z.eqb_eq w v)) in O by lia. rewrite (proj2 (Z.eqb_eq v w)) in O' by lia. cbn [andb] in O, O'.
    assert (Q : cd_TechnicianID c = cd_TechnicianID d).
    { destruct (decide (cd_TechnicianID c = cd_TechnicianID d)) as [|Nq]; [done|exfalso].
      destruct (ltb_total (id_text (scored req' c)) (id_text (scored req' d))) as [|]; [|congruence..].
      unfold id_text, scored, ScoreCandidate. cbn [so_TechnicianID]. intros U. by apply uuid_string_inj in U. }
    f_equal. rewrite P in Ic, Id. clear -N Ic Id Q.
    apply list_elem_of_lookup in Ic as [i Ci], Id as [k Dk].
    assert (i = k); [|congruence]. apply (NoDup_lookup _ i k (cd_TechnicianID c) N); rewrite list_lookup_fmap.
    + by rewrite Ci.
    + by rewrite Dk, Q.
Qed.

(** ** The reasons *)

Definition gives (f : Factor) : bool := negb (SFleb (contribution f) fzero).
Definition reason_text (f : Factor) : string := fa_Name f +:+ ": " +:+ fa_Reason f.

Definition contributes (f : Factor) : Prop := ∃ v, is_val (contribution f) v.

Lemma reason_less_val a b v w : is_val (contribution a.2) v → is_val (contribution b.2) w →
  reason_less a b = (w <? v) || (v =? w) && (a.1 <? b.1)%nat.
Proof.
  intros V W. unfold reason_less. rewrite (eqb_val _ _ v w V W), (ltb_val _ _ w v W V).
  destruct (Z.eqb_spec v w) as [->|N]; cbn [negb andb]; [by rewrite Z.ltb_irrefl|by rewrite orb_false_r].
Qed.

Lemma reasons_sorted (l : list (nat * Factor)) : Forall (λ p, contributes p.2) l →
  StronglySorted (λ p q, SFleb (contribution q.2) (contribution p.2) = true) (SliceStable reason_less l).
Proof.
  intros F. assert (C : ∀ p, p ∈ l → contributes p.2) by by apply list.Forall_forall.
  apply (sorted_impl (λ p, contributes p.2) (ordered reason_less)).
  - apply list.Forall_forall. intros p I. rewrite SliceStable_perm in I. by apply C.
  - intros p q [v V] [w W] O. unfold ordered in O. rewrite (reason_less_val _ _ w v W V) in O.
    apply orb_false_iff in O as [L _]. rewrite (leb_val _ _ w v W V). apply Z.leb_le. by apply Z.ltb_ge in L.
  - apply SliceStable_sorted.
    + intros p q P Q. destruct (C p P) as [v V], (C q Q) as [w W].
      rewrite (reason_less_val _ _ v w V W), (reason_less_val _ _ w v W V).
      destruct (Z.ltb_spec w v), (Z.ltb_spec v w), (Z.eqb_spec v w), (Z.eqb_spec w v); cbn [orb andb]; try done; try lia.
      intros L%Nat.ltb_lt. apply Nat.ltb_ge. lia.
    + intros p q r P Q R. destruct (C p P) as [v V], (C q Q) as [w W], (C r R) as [x X]. unfold ordered.
      rewrite (reason_less_val _ _ w v W V), (reason_less_val _ _ x w X W), (reason_less_val _ _ x v X V).
      destruct (Z.ltb_spec v w), (Z.ltb_spec w x), (Z.ltb_spec v x), (Z.eqb_spec w v), (Z.eqb_spec x w), (Z.eqb_spec x v);
        cbn [orb andb]; try done; try lia. rewrite !Nat.ltb_ge. lia.
Qed.

Lemma sorted_map {A B} (g : A → B) (R : B → B → Prop) l :
  StronglySorted (λ x y, R (g x) (g y)) l → StronglySorted R (map g l).
Proof.
  intros S. induction S as [|x l _ IH F]; cbn [map]; constructor; [done|]. by apply list.Forall_fmap.
Qed.

Lemma map_snd_combine {B} (l : list B) i : map snd (combine (seq i (length l)) l) = l.
Proof. revert i. induction l as [|x l IH]; intros i; cbn [length seq combine map]; [done|]. by rewrite IH. Qed.

(** At most [n] factors, the ones that give most, and none that gives nothing. *)
Lemma TopReasons_spec s n fs : Forall contributes (so_Factors s) → TopReasons s n = Some fs →
  ∃ shown hidden, fs = map reason_text shown ∧ (length shown ≤ Z.to_nat n)%nat ∧
    shown ++ hidden ≡ₚ List.filter gives (so_Factors s) ∧
    (hidden ≠ [] → length shown = Z.to_nat n) ∧
    StronglySorted (λ f g, SFleb (contribution g) (contribution f) = true) (shown ++ hidden).
Proof.
  intros C. unfold TopReasons. destruct ((n <=? 0) || is_nil (so_Factors s)); [done|]. cbv zeta.
  set (order := SliceStable _ _). set (given := List.filter _ _). intros [= <-].
  exists (take (Z.to_nat n) given), (drop (Z.to_nat n) given). rewrite take_drop.
  assert (P : map snd order ≡ₚ so_Factors s).
  { unfold order. rewrite SliceStable_perm. by rewrite map_snd_combine. }
  split_and!; [done|rewrite length_take; lia| | |].
  - unfold given. change (λ f, negb _) with gives. by apply filter_Permutation.
  - intros N. rewrite length_take. destruct (Nat.le_gt_cases (Z.to_nat n) (length given)); [lia|].
    by rewrite drop_ge in N by lia.
  - unfold given. apply StronglySorted_List_filter, sorted_map, reasons_sorted.
    apply list.Forall_forall. intros [i f] I. rewrite list.Forall_forall in C. cbn [snd]. apply C.
    rewrite <-(map_snd_combine (so_Factors s) 0). apply list_elem_of_fmap. by exists (i, f).
Qed.

Lemma factors_contribute c j w : weights_ok w → decoded_candidate c → count (requiredSkills j) < 2 ^ 53 →
  Forall contributes (factors_of c j w).
Proof.
  intros W D B. destruct (valid_weights w W) as [V _]. pose proof (factors_unit c j w D B) as U.
  assert (V' : Forall (λ x, ∃ v, is_val x v) (map fa_Weight (factors_of c j w))).
  { change (map fa_Weight (factors_of c j w)) with (map snd (weight_list w)). by apply list.Forall_fmap. }
  rewrite list.Forall_forall in U. apply list.Forall_forall. intros f I.
  destruct (U f I) as (n & N & L).
  pose proof (proj1 (list.Forall_forall (λ x, ∃ v, is_val x v) _) V' (fa_Weight f) (list_elem_of_fmap_2 fa_Weight _ _ I)) as X.
  destruct X as [v X].
  destruct (fmul_le_left _ _ v n X N L) as (z & Vz & _). by exists z.
Qed.

(** ** The reasons given

    Each score of an accepted request lists at most three factors: the ones that
    contribute most, in that order; a factor that contributes nothing is never listed,
    and one that contributes is left out only for three that contribute at least as
    much. *)
Theorem reasons_sound req out s : decoded req → computeScores (inr req) = inr out → s ∈ sp_Scores out.2 →
  ∃ shown hidden, so_TopReasons s = Some (map reason_text shown) ∧ (length shown ≤ 3)%nat ∧
    shown ++ hidden ≡ₚ List.filter gives (so_Factors s) ∧
    (hidden ≠ [] → length shown = 3%nat) ∧
    StronglySorted (λ f g, SFleb (contribution g) (contribution f) = true) (shown ++ hidden).
Proof.
  intros D E I. apply computeScores_inv in E as [A ->]. apply answer_elem in I as (c & I & ->).
  assert (C : Forall contributes (factors_of c (sr_JobContext req) (applied req))).
  { apply factors_contribute; [by apply applied_ok| |by apply skills_bound].
    destruct D as [D _]. rewrite list.Forall_forall in D. by apply D. }
  assert (T : is_Some (so_TopReasons (scored req c))) by (eexists; reflexivity). destruct T as [fs T]. rewrite T.
  change (so_Factors (scored req c)) with (factors_of c (sr_JobContext req) (applied req)).
  destruct (TopReasons_spec (mkScore (cd_TechnicianID c) fzero (factors_of c (sr_JobContext req) (applied req)) None) 3 fs C)
    as (shown & hidden & -> & R); [exact T|]. by exists shown, hidden.
Qed.

(** ** Decisions *)

(** What the record of a decision says of the request, the claims and the answer. *)
Definition attributed (cl : Claims) (req : scoreRequest) (chosen : Score) (fresh : uuid) (r : DecisionRecord) : Prop :=
  dr_DecisionID r = fresh ∧ uuid_parse (c_UserID cl) = Some (dr_ActorID r) ∧
  match dr_TenantID r with
  | None => c_TenantID cl = ""
  | Some t => c_TenantID cl ≠ "" ∧ uuid_parse (c_TenantID cl) = Some t
  end ∧
  dr_JobID r = sr_JobID req ∧
  dr_InputsHash r = InputsHash (sr_JobContext req) (sr_Candidates req) (applied req) ∧
  dr_ChosenTechnicianID r = so_TechnicianID chosen ∧ dr_ChosenScore r = so_Total chosen ∧
  dr_CandidateCount r = count (sr_Candidates req) ∧ dr_Weights r = applied req.

Lemma decisionRecord_inv claims fresh req r :
  decisionRecordFromRequest claims fresh req (answer req) = inr r →
  ∃ cl chosen rest, claims = Some cl ∧ sp_Scores (answer req) = chosen :: rest ∧ attributed cl req chosen fresh r.
Proof.
  unfold decisionRecordFromRequest. destruct claims as [cl|]; [|done].
  destruct (uuid_parse (c_UserID cl)) as [actor|] eqn:U; [|done].
  destruct (sp_Scores (answer req)) as [|chosen rest].
  { by destruct (if String.eqb (c_TenantID cl) "" then Some None else _) as [tenant|]. }
  destruct (String.eqb_spec (c_TenantID cl) "") as [T|T].
  - intros [= <-]. exists cl, chosen, rest. split_and!; [done|done|]. unfold attributed. cbn. by split_and!.
  - destruct (uuid_parse (c_TenantID cl)) as [t|] eqn:P; [|done]. cbn [fmap option_fmap option_map].
    intros [= <-]. exists cl, chosen, rest. split_and!; [done|done|]. unfold attributed. cbn. by split_and!.
Qed.

Lemma decisionRecord_status claims fresh req e : sp_Scores (answer req) ≠ [] →
  decisionRecordFromRequest claims fresh req (answer req) = inl e → Status e = 401.
Proof.
  intros N. unfold decisionRecordFromRequest. destruct claims as [cl|]; [|by intros [= <-]].
  destruct (uuid_parse (c_UserID cl)) as [actor|]; [|by intros [= <-]].
  destruct (if String.eqb (c_TenantID cl) "" then Some None else _) as [tenant|]; [|by intros [= <-]].
  destruct (sp_Scores (answer req)); [done|intros [=]].
Qed.

(** The highest-ranked score exists: a request without candidates is refused. *)
Lemma computeScores_candidates req : acceptable req → sp_Scores (answer req) ≠ [].
Proof.
  intros (_ & _ & [L _] & _) E. pose proof (answer_perm req) as P. rewrite E in P.
  apply Permutation_nil_l in P. unfold count in L. destruct (sr_Candidates req); [cbn in L; lia|done].
Qed.

(** The row of a decision. *)
Definition decision_of (r : DecisionRecord) (metadata : list (string * string)) : decision_row :=
  mkDecisionRow (dr_ActorID r) ActionDispatchScored DecisionObjectType (uuid_string (dr_DecisionID r))
    (dr_TenantID r) metadata.

Lemma RecordDecision_eq r log : RecordDecision r log =
  match decision_metadata r with
  | None => (inl None, log)
  | Some metadata => (inr tt, log ++ [decision_of r metadata])
  end.
Proof. unfold RecordDecision, decision_of. by destruct (decision_metadata r). Qed.

(** C32. ** No decision without its record

    With the recorder of the audit table, which the gateway passes once it is ready, a
    request is answered with scores exactly when one row has been appended: it names the
    principal of the token, its tenant, the job, the digest of the inputs, and the first
    score of the answer as the chosen one. A service that is mounted without a recorder
    answers the same scores and leaves no row. Every other answer, with a recorder or
    without, is an error and leaves the trail as it is. *)
Theorem decision_recorded (recorded : bool) fresh req claims log :
  let out := PostScore (if recorded then Some RecordDecision else None) fresh (inr req) claims log in
  (∃ cl, claims = Some cl ∧ c_Role cl ∈ DispatcherRoles ∧ acceptable req ∧
     out.1 = writeJSON 200 (response_json (answer req)) ∧
     if recorded then ∃ r chosen rest metadata,
       sp_Scores (answer req) = chosen :: rest ∧ attributed cl req chosen fresh r ∧
       decision_metadata r = Some metadata ∧ out.2 = log ++ [decision_of r metadata]
     else out.2 = log) ∨
  (rs_Status out.1 ∈ [401; 403; 422; 500] ∧ out.2 = log).
Proof.
  cbn zeta. unfold PostScore, RequireRole. destruct claims as [cl|]; [|right; split; [set_solver|done]].
  destruct (existsb (String.eqb (c_Role cl)) DispatcherRoles) eqn:X; [|right; split; [set_solver|done]].
  assert (I : c_Role cl ∈ DispatcherRoles).
  { apply existsb_exists in X as (role & X & Q). apply String.eqb_eq in Q as ->. by apply list_elem_of_In. }
  unfold scoreWithRecorder. pose proof (computeScores_exact req) as C.
  destruct (computeScores (inr req)) as [e|out]; cbv beta iota.
  { destruct C as (_ & S & _). right. split; [|done]. cbn [fst WriteError AsError rs_Status]. rewrite S. set_solver. }
  destruct C as [A ->]. cbv beta iota. destruct recorded; [|left; exists cl; by split_and!].
  pose proof (computeScores_candidates req A) as N.
  destruct (decisionRecordFromRequest (Some cl) fresh req (answer req)) as [e|r] eqn:R.
  { right. split; [|done]. cbn [fst WriteError AsError rs_Status].
    rewrite (decisionRecord_status _ _ _ _ N R). set_solver. }
  destruct (decisionRecord_inv _ _ _ _ R) as (cl' & chosen & rest & [= <-] & Sc & At).
  rewrite RecordDecision_eq. destruct (decision_metadata r) as [metadata|] eqn:Md.
  - left. exists cl. split_and!; try done. by exists r, chosen, rest, metadata.
  - right. split; [|done]. cbn. set_solver.
Qed.

End Api.

(** ** Concrete runs *)

#[local] Instance plain_numbers : FloatText :=
  { fmt_g := λ _, "x"; fmt_fixed := λ _ _, "x"; float_json := λ _, "0" }.

#[local, refine] Instance ascii_folding : CaseFolding := { EqualFold := equal_fold }.
Proof. done. Defined.

#[local] Instance dispatch_ids : UuidText := letter_uuid 100.

Definition technician (id : uuid) (eta : Z) (skills : list string) (available : bool) : Candidate :=
  mkCandidate id (lit 42 10) eta skills ["Toyota"] available true true 214 (lit 92 100) (lit 98 100) (lit 48 10) false.

Definition staffed : scoreRequest :=
  mkScoreRequest (Some 9%N) (mkJobContext (Some ["engine"; "brakes"]) "toyota" None)
    [technician 1 5 ["Engine"] true; technician 2 12 ["BRAKES"; "engine"] true; technician 3 5 ["engine"] true] None.

Lemma staffed_decoded : decoded staffed.
Proof. split; [by repeat constructor|done]. Qed.

Lemma staffed_ok : computeScores (inr staffed) = inr (staffed, answer staffed).
Proof. pose proof (computeScores_exact staffed) as E. by vm_compute in E |- *. Qed.

(** The qualified technician comes first, the two equal ones by identifier. *)
Example staffed_order : map so_TechnicianID (sp_Scores (answer staffed)) = [2; 1; 3]%N.
Proof. vm_compute. reflexivity. Qed.

(** The same request with the candidates in another order. *)
Definition reordered : scoreRequest :=
  mkScoreRequest (sr_JobID staffed) (sr_JobContext staffed) (reverse (sr_Candidates staffed)) None.

(** Only the distance counts: the nearest comes first, with no skill. *)
Definition nearest_only : scoreRequest :=
  mkScoreRequest None (sr_JobContext staffed) [technician 1 5 [] true; technician 2 6 ["brakes"; "engine"] true]
    (Some (mkWeights fzero fone fzero fzero fzero fzero)).

Example nearest_only_first : acceptable nearest_only ∧
  map so_TechnicianID (sp_Scores (answer nearest_only)) = [1; 2]%N.
Proof. split; [|vm_compute; reflexivity]. by apply (computeScores_inv nearest_only (nearest_only, answer nearest_only)); vm_compute. Qed.

(** A technician who is not available comes first, and is recorded as the chosen one. *)
Example unavailable_first :
  map so_TechnicianID (sp_Scores (answer (mkScoreRequest None (sr_JobContext staffed)
    [mkCandidate 1 fone 0 [] [] true false true 3 fone fone (of_int 5) false;
     technician 2 0 ["brakes"; "engine"] false] None))) = [2; 1]%N.
Proof. vm_compute. reflexivity. Qed.

(** Weights that are not numbers pass. *)
Example nan_weights_pass : Validate (mkWeights S754_nan S754_nan S754_nan S754_nan S754_nan S754_nan) = None.
Proof. reflexivity. Qed.

(** A label of spaces is not blank for the validation. *)
Example blank_label_passes : validateStringList "skills" [" "] = [].
Proof. reflexivity. Qed.

Lemma scores_on_scale_witness : decoded staffed ∧ computeScores (inr staffed) = inr (staffed, answer staffed) ∧
  Forall (λ s, on_scale (so_Total s) ∧ Forall (λ f, on_scale (fa_Normalized f)) (so_Factors s)) (sp_Scores (answer staffed)).
Proof.
  split_and!; [exact staffed_decoded|exact staffed_ok|].
  exact (scores_on_scale staffed _ staffed_decoded staffed_ok).
Defined.

Lemma scores_ranked_witness : StronglySorted ranks_before (sp_Scores (answer staffed)) ∧
  sp_Scores (answer staffed) ≠ map (scored staffed) (sr_Candidates staffed).
Proof.
  split; [exact (proj2 (proj2 (scores_ranked staffed _ staffed_decoded staffed_ok)))|].
  intros E. apply (f_equal (map so_TechnicianID)) in E. by vm_compute in E.
Defined.

Lemma order_irrelevant_witness : computeScores (inr reordered) = inr (reordered, answer staffed).
Proof.
  apply (order_irrelevant staffed reordered (staffed, answer staffed) staffed_decoded); [|done|done|done| |exact staffed_ok].
  - apply (bool_decide_eq_true_1 _). by vm_compute.
  - apply reverse_Permutation.
Defined.

Lemma reasons_sound_witness :
  match sp_Scores (answer staffed) with
  | s :: _ => ∃ shown hidden, so_TopReasons s = Some (map reason_text shown) ∧ (length shown ≤ 3)%nat ∧
      shown ++ hidden ≡ₚ List.filter gives (so_Factors s) ∧ (hidden ≠ [] → length shown = 3%nat) ∧
      StronglySorted (λ f g, SFleb (contribution g) (contribution f) = true) (shown ++ hidden)
  | [] => False
  end.
Proof.
  pose proof (λ s, reasons_sound staffed _ s staffed_decoded staffed_ok) as R. cbn [snd] in R.
  destruct (sp_Scores (answer staffed)) as [|s rest] eqn:E; [by vm_compute in E|]. apply R, elem_of_cons. by left.
Defined.

(** A decision of a dispatcher, and a principal without a user identifier. *)
Definition dispatcher (user : string) : option Claims := Some (mkClaims user "" "DISPATCHER" "" 0 0).

Example decision_appended :
  map (λ r, (au_actor_id r, au_object_id r)) (PostScore (Some RecordDecision) 7%N (inr staffed) (dispatcher (uuid_string 5%N)) []).2 =
  [(5%N, uuid_string 7%N)] ∧
  rs_Status (PostScore (Some RecordDecision) 7%N (inr staffed) (dispatcher "svc") []).1 = 401.
Proof. vm_compute. by split. Qed.
