(* ===== verification/JobHttp.v ===== *)
(** * JobHttp: the HTTP layer of the jobs domain ([backend/jobs/http.go])

    The scope of a principal, the parameters of a request, the handlers with the bodies
    they answer and the gates of the routes. The serial of an audit row and the text of a
    conflict, which the model of the service does not keep, are parameters. *)

From S2P Require Import Prelude Text Platform Sql Wire PayMachine PayModels JobMachine Jobs.
From S2P Require Import Float64 Http Vin Auth.

Open Scope Z_scope.

Definition RoleTechnician : string := "TECHNICIAN".
Definition dispatchRoles : list string := OperatorRoles.

Record createRequestRequest := mkCreateRequestRequest {
  crq_VehicleID : option uuid;
  crq_Description : string;
  crq_LocationLat : option float64;
  crq_LocationLng : option float64;
  crq_AddressText : string;
}.

Record transitionRequest := mkTransitionRequest { trq_To : string; trq_Reason : string }.
Record assignmentRequest := mkAssignmentRequest { arq_TechnicianID : option uuid }.

(** An error a handler made, or one of the domain. *)
Abbreviation HttpError := (Error + JobError)%type (only parsing).
Abbreviation web := (M job_world (Error + JobError)) (only parsing).

Section Http.
Context `{Driver} `{!RowOrder Job} `{UuidText} `{UpperMapping} `{FloatText}.
Context (publisher : option (Event JobPayload → bool)) (serial : JobTransition → Z) (conflict_text : string).

(** ** Responses *)

Definition optional_number (name : string) (x : option float64) : option (list (string * string)) :=
  match x with None => Some [] | Some x => number name x end.

Definition newRequestResponse (r : ServiceRequest) : option string :=
  lat ← optional_number "location_lat" (sr_LocationLat r);
  lng ← optional_number "location_lng" (sr_LocationLng r);
  created ← json_time (sr_CreatedAt r);
  updated ← json_time (sr_UpdatedAt r);
  Some (json_object (
    member "id" (json_uuid (sr_ID r)) ++
    member "customer_id" (json_uuid (sr_CustomerID r)) ++
    optional "vehicle_id" (json_uuid <$> sr_VehicleID r) ++
    member "description" (json_string (sr_Description r)) ++ lat ++ lng ++
    member "address_text" (json_string (sr_AddressText r)) ++
    member "status" (json_string (sr_Status r)) ++
    member "created_at" created ++
    member "updated_at" updated)).

Definition newJobResponse (j : Job) : option string :=
  created ← json_time (j_CreatedAt j);
  updated ← json_time (j_UpdatedAt j);
  Some (json_object (
    member "id" (json_uuid (j_ID j)) ++
    optional "service_request_id" (json_uuid <$> j_ServiceRequestID j) ++
    member "customer_id" (json_uuid (j_CustomerID j)) ++
    optional "vehicle_id" (json_uuid <$> j_VehicleID j) ++
    member "status" (json_string (j_Status j)) ++
    member "problem_summary" (json_string (j_ProblemSummary j)) ++
    optional "technician_id" (json_uuid <$> j_TechnicianID j) ++
    member "created_at" created ++
    member "updated_at" updated)).

Definition newTransitionResponse (t : JobTransition) : option string :=
  created ← json_time (jt_CreatedAt t);
  Some (json_object (
    member "id" (json_int (serial t)) ++
    member "job_id" (json_uuid (jt_JobID t)) ++
    member "from_status" (json_string (jt_FromStatus t)) ++
    member "to_status" (json_string (jt_ToStatus t)) ++
    optional "actor_id" (json_uuid <$> jt_ActorID t) ++
    member "reason" (json_string (jt_Reason t)) ++
    member "created_at" created)).

(** ** The principal and the parameters *)

Definition readScope (claims : option Claims) : option ReadScope :=
  claims ← claims;
  viewer ← uuid_parse (c_UserID claims);
  tenant ← tenant_claim claims;
  Some (mkReadScope viewer tenant (IsOperatorRole (c_Role claims))).

Definition parseStatus (text : string) : Error + Status :=
  let candidate := ToUpper (TrimSpace text) in
  if existsb (String.eqb candidate) AllStatuses then inr candidate
  else inl (ErrValidation "status is not a known job status"
              [mkFieldError "status" "must be one of the documented job statuses"]).

Definition uuidFromRequest (name text : string) : Error + uuid :=
  uuid_param (ErrValidation "resource id is required" [mkFieldError name "is required"])
    (ErrValidation "resource id is not a valid identifier" [mkFieldError name "must be a uuid"]) text.

Definition listPagination (limit offset : string) : Error + Z * Z :=
  page_params DefaultJobsLimit MaxJobsLimit limit offset.

(** [writeDomainError]; [None]: not an error of the application. *)
Definition domain_error (e : HttpError) : option Error :=
  match e with
  | inl e => Some e
  | inr ErrAlreadyConverted | inr ErrConflict => Some (Platform.ErrConflict conflict_text)
  | inr ErrRequestNotFound => Some (ErrNotFound "service request not found")
  | inr ErrJobNotFound => Some (ErrNotFound "job not found")
  | inr _ => None
  end.

(** A parameter, or the answer that it is wrong; a call of the service. *)
Definition app {A} (r : Error + A) : web A := from_sum (match r with inl e => inl (inl e) | inr a => inr a end).
Definition given {A} (o : option A) (e : Error) : web A := from_option o (inl e).
Definition call {A} (c : M job_world JobError A) : web A := wrap inr c.

(** ** Handlers *)

Definition create_request (c : Ctx) (body : Error + createRequestRequest) (claims : option Claims) : web Response :=
  claims ← given claims authentication_required;
  customerID ← given (uuid_parse (c_UserID claims)) bad_subject;
  tenantID ← given (tenant_claim claims) bad_tenant;
  req ← app body;
  ensure (negb (String.eqb (TrimSpace (crq_Description req)) ""))
    (inl (ErrValidation "description is required" [mkFieldError "description" "is required"]));;
  ensure (LocationValid (crq_LocationLat req) (crq_LocationLng req))
    (inl (ErrValidation "location_lat and location_lng must be provided together and within WGS-84 bounds"
            [mkFieldError "location" "must be a paired, in-bounds coordinate"]));;
  sr ← call (Jobs_CreateRequest publisher c (Some (mkServiceRequest uuid_nil tenantID customerID
    (crq_VehicleID req) (crq_Description req) (crq_LocationLat req) (crq_LocationLng req)
    (crq_AddressText req) RequestStatusReceived zero_time zero_time)));
  mret (writeJSON 201 (newRequestResponse sr)).

Definition create_job (c : Ctx) (rawID : string) (claims : option Claims) : web Response :=
  scope ← given (readScope claims) authentication_required;
  requestID ← app (uuidFromRequest "requestID" rawID);
  job ← call (CreateJobFromRequest publisher c requestID scope);
  mret (writeJSON 201 (newJobResponse job)).

Definition get_job (rawID : string) (claims : option Claims) : web Response :=
  scope ← given (readScope claims) authentication_required;
  jobID ← app (uuidFromRequest "jobID" rawID);
  job ← call (Jobs_GetJob jobID scope);
  mret (writeJSON 200 (newJobResponse job)).

Definition transition_job (c : Ctx) (rawID : string) (body : Error + transitionRequest) (claims : option Claims)
    : web Response :=
  cl ← given claims authentication_required;
  jobID ← app (uuidFromRequest "jobID" rawID);
  req ← app body;
  to ← app (parseStatus (trq_To req));
  actorID ← given (uuid_parse (c_UserID cl)) bad_subject;
  scope ← given (readScope claims) authentication_required;
  call (Transition publisher c (ctx_fresh c 0) jobID to (Some actorID) (trq_Reason req) scope);;
  job ← call (Jobs_GetJob jobID scope);
  mret (writeJSON 200 (newJobResponse job)).

Definition technician_required : Error :=
  ErrValidation "technician_id is required" [mkFieldError "technician_id" "is required"].

Definition assign_job (c : Ctx) (rawID : string) (body : Error + assignmentRequest) (claims : option Claims)
    : web Response :=
  cl ← given claims authentication_required;
  jobID ← app (uuidFromRequest "jobID" rawID);
  req ← app body;
  technicianID ← given (arq_TechnicianID req) technician_required;
  ensure (negb (bool_decide (technicianID = uuid_nil))) (inl technician_required);;
  scope ← given (readScope claims) authentication_required;
  call (Jobs_AssignTechnician publisher c jobID technicianID (uuid_parse (c_UserID cl)) scope);;
  job ← call (Jobs_GetJob jobID scope);
  mret (writeJSON 201 (newJobResponse job)).

Definition accept_job (c : Ctx) (rawID : string) (claims : option Claims) : web Response :=
  cl ← given claims authentication_required;
  jobID ← app (uuidFromRequest "jobID" rawID);
  technicianID ← given (uuid_parse (c_UserID cl)) bad_subject;
  scope ← given (readScope claims) authentication_required;
  call (Accept publisher c jobID technicianID scope);;
  mret NoContent.

Definition list_transitions (rawID : string) (claims : option Claims) : web Response :=
  scope ← given (readScope claims) authentication_required;
  jobID ← app (uuidFromRequest "jobID" rawID);
  call (Jobs_GetJob jobID scope);;
  transitions ← call (Jobs_Transitions jobID scope);
  mret (writeJSON 200 (json_array <$> mapM newTransitionResponse transitions)).

(** The filter of a listing. *)
Definition job_filter (status technician : string) : Error + JobFilter :=
  let status := TrimSpace status in
  let technician := TrimSpace technician in
  match (if String.eqb status "" then inr None
         else match parseStatus status with inl e => inl e | inr s => inr (Some s) end) with
  | inl e => inl e
  | inr status =>
      if String.eqb technician "" then inr (mkJobFilter status None)
      else match uuid_parse technician with
           | Some t => inr (mkJobFilter status (Some t))
           | None => inl (ErrValidation "technician_id is not a valid identifier"
                            [mkFieldError "technician_id" "must be a uuid"])
           end
  end.

Definition list_jobs (status technician limit offset : string) (claims : option Claims) : web Response :=
  scope ← given (readScope claims) authentication_required;
  filter ← app (job_filter status technician);
  '(limit, offset) ← app (listPagination limit offset);
  jobs ← call (Jobs filter limit offset scope);
  mret (writeJSON 200 (json_array <$> mapM newJobResponse jobs)).

(** ** The routes, behind their gates *)

Definition served : (option Claims → web Response) → Handler (W := job_world) := answered domain_error.

Inductive job_call :=
  | CreateRequestCall (body : Error + createRequestRequest)
  | CreateJobCall (requestID : string)
  | ListJobsCall (status technician limit offset : string)
  | GetJobCall (jobID : string)
  | ListTransitionsCall (jobID : string)
  | TransitionCall (jobID : string) (body : Error + transitionRequest)
  | AssignCall (jobID : string) (body : Error + assignmentRequest)
  | AcceptCall (jobID : string).

(** What [Routes] registers for a request. *)
Definition job_route (c : Ctx) (r : job_call) : Handler :=
  match r with
  | CreateRequestCall body => RequireAuthenticated (served (create_request c body))
  | CreateJobCall id => RequireAuthenticated (served (create_job c id))
  | ListJobsCall status technician limit offset =>
      RequireRole dispatchRoles (served (list_jobs status technician limit offset))
  | GetJobCall id => RequireAuthenticated (served (get_job id))
  | ListTransitionsCall id => RequireAuthenticated (served (list_transitions id))
  | TransitionCall id body => RequireRole dispatchRoles (served (transition_job c id body))
  | AssignCall id body => RequireRole dispatchRoles (served (assign_job c id body))
  | AcceptCall id => RequireRole [RoleTechnician] (served (accept_job c id))
  end.

End Http.
