(* ===== verification/JobWeb.v ===== *)
(** * JobWeb: what the endpoints of the jobs domain guarantee

    Who may change the database through them, and that a job a principal does not see
    cannot be told from one that does not exist. *)

From S2P Require Import Prelude Hoare Text Platform Sql Wire PayMachine PayModels PayRefine.
From S2P Require Import JobMachine Jobs JobInvariant JobProps Float64 Http Vin Auth JobHttp.

Open Scope Z_scope.

(** ** Reads *)

Ltac reads_step :=
  apply reads_ret || apply reads_ensure || apply reads_option || apply reads_sum || (by intros ?) ||
  (apply reads_bind; [|intros ?]).

Section Reads.
Context `{Driver} `{!RowOrder Job}.

Lemma GetJob_reads id scope : reads (GetJob id scope).
Proof.
  unfold GetJob, send_query. destruct (jobScopePredicate scope 2) as [pred args]. cbv zeta.
  do 2 reads_step; [reads_step|]. destruct (jobs _ !! id); [case_match|]; by reads_step.
Qed.

Lemma ListJobs_reads filter limit offset scope : reads (ListJobs filter limit offset scope).
Proof.
  unfold ListJobs, send_query. destruct (jobs_where filter scope) as [w args]. cbv zeta. repeat reads_step.
Qed.

Lemma ListTransitions_reads id scope : reads (ListTransitions id scope).
Proof.
  unfold ListTransitions, send_query. destruct (transitions_where id scope) as [w args]. cbv zeta. repeat reads_step.
Qed.

Lemma on_job_db_reads {A} (c : M job_db JobError A) : reads c → reads (on_db c).
Proof. apply reads_zoom. by intros []. Qed.

(** What a principal does not see, it is told is missing. *)
Definition hidden_job (scope : ReadScope) (id : uuid) (d : job_db) : Prop :=
  ∀ j, jobs d !! id = Some j → sees_job scope j = false.
Definition hidden_request (scope : ReadScope) (id : uuid) (d : job_db) : Prop :=
  ∀ r, service_requests d !! id = Some r → sees_request scope r = false.

Lemma GetJob_hidden id scope d d' : job_ok d → hidden_job scope id d → jobs d' !! id = None →
  ∃ e, GetJob id scope d = (inl e, d) ∧ GetJob id scope d' = (inl e, d').
Proof.
  intros Ok Hd N. unfold GetJob, send_query. pose proof (λ row, job_clause id scope row) as C.
  destruct (jobScopePredicate scope 2) as [pred args]. cbv zeta. unfold_run_goal.
  destruct (accepts _ _); cbn; [|by exists ErrDB]. rewrite N.
  destruct (jobs d !! id) as [row|] eqn:L; [|by exists ErrJobNotFound].
  rewrite C by (exact (proj1 (jk_job _ Ok _ _ L))). rewrite (Hd _ L). by exists ErrJobNotFound.
Qed.

Lemma request_clause id scope (row : ServiceRequest) : sr_ID row = id →
  let '(pred, args) := requestScopePredicate scope 2 in
  eval None (VUuid id :: args) (request_env row) (and_pred (CEq "id" 1) pred) = sees_request scope row.
Proof.
  intros <-. unfold requestScopePredicate, sees_request.
  assert (∀ args c, eval None (VUuid (sr_ID row) :: args) (request_env row) (CAnd (CEq "id" 1) c)
            = eval None (VUuid (sr_ID row) :: args) (request_env row) c) as Q.
  { intros args c. cbn [eval]. change (sql_eq (request_env row "id") _) with
      (sql_eq (VUuid (sr_ID row)) (VUuid (sr_ID row))). by rewrite sql_eq_refl. }
  destruct (Operator scope); cbn [and_pred orb]; [by apply (sql_eq_refl (VUuid _))|].
  destruct (rs_TenantID scope) as [t|]; cbn [and_pred].
  - rewrite Q. apply sql_eq_uuid.
  - destruct (negb (bool_decide (ViewerID scope = 0%N))); cbn [and_pred]; rewrite Q; [|done].
    cbn [andb]. apply sql_eq_VUuid.
Qed.

Lemma GetRequest_hidden id scope d d' : job_ok d → hidden_request scope id d → service_requests d' !! id = None →
  ∃ e, GetRequest id scope d = (inl e, d) ∧ GetRequest id scope d' = (inl e, d').
Proof.
  intros Ok Hd N. unfold GetRequest, send_query. pose proof (λ row, request_clause id scope row) as C.
  destruct (requestScopePredicate scope 2) as [pred args]. cbv zeta. unfold_run_goal.
  destruct (accepts _ _); cbn; [|by exists ErrDB]. rewrite N.
  destruct (service_requests d !! id) as [row|] eqn:L; [|by exists ErrRequestNotFound].
  rewrite C by (exact (jk_request _ Ok _ _ L)). rewrite (Hd _ L). by exists ErrRequestNotFound.
Qed.

End Reads.

Section Web.
Context `{Driver} `{!RowOrder Job} `{UuidText} `{UpperMapping} `{FloatText}.
Context (publisher : option (Event JobPayload → bool)) (serial : JobTransition → Z) (conflict_text : string).

Abbreviation web A := (M job_world (Error + JobError) A) (only parsing).
Abbreviation route := (job_route publisher serial conflict_text) (only parsing).

Lemma set_jw_db (w : job_world) : mkJobWorld (jw_db w) (jw_events w) = w.
Proof. by destruct w. Qed.

(** What a call names: a job, or a request. *)
Definition names (r : job_call) : option string * option string :=
  match r with
  | GetJobCall id | ListTransitionsCall id | TransitionCall id _ | AssignCall id _ | AcceptCall id => (Some id, None)
  | CreateJobCall id => (None, Some id)
  | CreateRequestCall _ | ListJobsCall _ _ _ _ => (None, None)
  end.

(** The call names something the principal does not see in one world and that does not
    exist in the other. *)
Definition conceals (claims : option Claims) (r : job_call) (d d' : job_db) : Prop :=
  ∃ scope id raw, readScope claims = Some scope ∧ uuid_parse (TrimSpace raw) = Some id ∧
    ((names r).1 = Some raw ∧ hidden_job scope id d ∧ jobs d' !! id = None ∨
     (names r).2 = Some raw ∧ hidden_request scope id d ∧ service_requests d' !! id = None).

(** ** A job that is not visible is missing

    Whatever a principal sends to an endpoint of a job it does not see, or to convert a
    request it does not see, the answer is the one it would get if the identifier did not
    exist, byte for byte, and nothing changes. *)
Theorem hidden_is_missing c r claims w w' : job_ok (jw_db w) → conceals claims r (jw_db w) (jw_db w') →
  (route c r claims w).1 = (route c r claims w').1 ∧ (route c r claims w).2 = w.
Proof.
  intros Ok (scope & id & raw & S & P & C).
  enough (indistinct (route c r) claims w w') as (? & ? & _) by done.
  destruct C as [(N & Hd & M)|(N & Hd & M)]; [pose proof (GetJob_hidden id scope _ _ Ok Hd M) as G|
    pose proof (GetRequest_hidden id scope _ _ Ok Hd M) as G];
    destruct r; try discriminate N; injection N as ->; cbn [job_route];
    repeat (apply indistinct_role || apply indistinct_authenticated); apply indistinct_answered;
    unfold get_job, list_transitions, transition_job, assign_job, accept_job, create_job.
  all: repeat match goal with
    | |- same (call _ ≫= _) _ _ => (apply read_fails || apply call_fails); [apply set_jw_db|exact G]
    | |- same (app (uuidFromRequest _ _) ≫= _) _ _ => apply (same_uuid_param _ _ _ _ _ _ _ P)
    | |- same (given (readScope _) _ ≫= _) _ _ => rewrite S; apply same_given
    | |- same (_ ≫= _) _ _ => apply same_bind; [apply same_option || apply same_sum || apply same_ensure|]; intros ? _
    end.
Qed.

(** ** What the endpoints may change *)

(** What a handler keeps is that lawful steps have led here from the database it began in. *)
Section From.
Context (d0 : job_db) (R0 : job_reachable d0).

Abbreviation sound := (λ w, lawful_steps d0 (jw_db w)) (only parsing).

Lemma job_from d : lawful_steps d0 d → job_reachable d.
Proof using R0. intros S%lawful_job_steps. unfold job_reachable, job_steps in *. by etrans. Qed.

Lemma job_triple_keeps {A} (c : M job_world JobError A) Q :
  triple jw_db job_ok lawful_step (λ _, True) c Q → keeps sound c.
Proof using R0.
  intros T w S. etrans; [exact S|].
  apply (triple_steps jw_db job_ok lawful_step _ c _ w T); [by apply job_reachable_ok, job_from|done].
Qed.

Lemma reads_call {A} (c : M job_db JobError A) : reads c → reads (call (on_db c)).
Proof. intros R. by apply reads_wrap, on_job_db_reads. Qed.

Ltac read_step := apply reads_option || apply reads_sum || apply reads_ensure || apply reads_ret ||
  (apply reads_call; (apply GetJob_reads || apply ListJobs_reads || apply ListTransitions_reads)).

(** The three endpoints that read. *)
Lemma get_job_reads raw claims : reads (get_job raw claims).
Proof. unfold get_job, Jobs_GetJob. repeat (apply reads_bind; [read_step|intros ?]). apply reads_ret. Qed.

Lemma list_transitions_reads raw claims : reads (list_transitions serial raw claims).
Proof.
  unfold list_transitions, Jobs_GetJob, Jobs_Transitions. repeat (apply reads_bind; [read_step|intros ?]). apply reads_ret.
Qed.

Lemma list_jobs_reads status technician limit offset claims : reads (list_jobs status technician limit offset claims).
Proof.
  unfold list_jobs. do 2 (apply reads_bind; [read_step|intros ?]). apply reads_bind; [read_step|intros [li off]].
  apply reads_bind; [|intros ?; apply reads_ret]. apply reads_wrap. unfold Jobs.
  apply reads_bind; [apply reads_ensure|intros ?]. apply on_job_db_reads, ListJobs_reads.
Qed.

(** Those that write: everything but one call of the service only reads. *)
Ltac keeps_pure := apply keeps_bind; [apply keeps_reads; unfold Jobs_GetJob; read_step|intros ?].
Ltac keeps_handler :=
  repeat keeps_pure;
  apply keeps_bind; [apply keeps_wrap; eapply job_triple_keeps|intros ?; repeat keeps_pure; by apply keeps_reads, reads_ret].

Lemma create_request_keeps c body claims : keeps sound (create_request publisher c body claims).
Proof. unfold create_request. keeps_handler. apply CreateRequest_triple. Qed.
Lemma create_job_keeps c raw claims : keeps sound (create_job publisher c raw claims).
Proof. unfold create_job. keeps_handler. apply CreateJobFromRequest_triple. Qed.
Lemma transition_job_keeps c raw body claims : keeps sound (transition_job publisher c raw body claims).
Proof. unfold transition_job. keeps_handler. apply Transition_triple. Qed.
Lemma assign_job_keeps c raw body claims : keeps sound (assign_job publisher c raw body claims).
Proof. unfold assign_job. keeps_handler. apply AssignTechnician_triple. Qed.
Lemma accept_job_keeps c raw claims : keeps sound (accept_job publisher c raw claims).
Proof. unfold accept_job. keeps_handler. apply Accept_triple. Qed.

(** Who may change anything with a call. *)
Definition may_change (r : job_call) (claims : option Claims) : Prop :=
  ∃ cl, claims = Some cl ∧
  match r with
  | CreateRequestCall _ | CreateJobCall _ => True
  | TransitionCall _ _ | AssignCall _ _ => c_Role cl ∈ OperatorRoles
  | AcceptCall _ => c_Role cl = RoleTechnician
  | GetJobCall _ | ListTransitionsCall _ | ListJobsCall _ _ _ _ => False
  end.

Lemma job_route_governed c r : governed sound (may_change r) (route c r).
Proof.
  destruct r; cbn [job_route]; (eapply governed_weaken;
    [(apply governed_authenticated || apply governed_role);
     (apply (governed_reads _ _ (λ _, False)); intros ?;
        (apply get_job_reads || apply list_transitions_reads || apply list_jobs_reads)) ||
     (apply governed_any; intros ?; (apply create_request_keeps || apply create_job_keeps ||
        apply transition_job_keeps || apply assign_job_keeps || apply accept_job_keeps))|
     unfold may_change; set_solver]).
Qed.

End From.

(** C35. ** The endpoints refine the steps of the database

    Whatever is sent to whatever endpoint, by whomever, lawful steps lead from the database
    that was to the database that is: a status moves only where the state machine lets it,
    a technician is assigned only to a job that is DISPATCHING and accepts only a job that
    is not another's. Only an authenticated principal changes anything, only an operator
    moves or assigns a job and only a technician accepts one. (A request runs by itself
    here; what interleaved calls can do to a status, [job_step] allows.) *)
Theorem job_endpoints_refine_steps c r claims w : job_reachable (jw_db w) →
  let out := route c r claims w in
  lawful_steps (jw_db w) (jw_db out.2) ∧ job_reachable (jw_db out.2) ∧ (out.2 ≠ w → may_change r claims).
Proof.
  intros R. destruct (job_route_governed _ R c r claims w (rtc_refl _ _)) as [St N].
  split; [exact St|]. split; [by eapply job_from|exact N].
Qed.

End Web.

(** ** Concrete runs

    Job 20 belongs to tenant 7. *)

#[local, refine] Instance job_cases : UpperMapping := { ToUpper := upper }.
Proof. done. Defined.
#[local] Instance job_numbers : FloatText :=
  { fmt_g := λ _, "0"; fmt_fixed := λ _ _, "0"; float_json := λ _, "0" }.

Definition someone (tenant : string) (role : string) : option Claims :=
  Some (mkClaims (uuid_string 9%N) tenant role "" 0 0).
#[local] Existing Instance insertion_order.
Definition job_answer := job_route broker (λ _, 0) "conflict" (at_ 40 40).

Example own_job_found : rs_Status (job_answer (GetJobCall (uuid_string 20%N)) (someone (uuid_string 7%N) "CUSTOMER") converted_world).1 = 200.
Proof. vm_compute. reflexivity. Qed.

Lemma hidden_is_missing_witness :
  rs_Status (job_answer (GetJobCall (uuid_string 20%N)) (someone (uuid_string 6%N) "CUSTOMER") converted_world).1 = 404 ∧
  (job_answer (GetJobCall (uuid_string 20%N)) (someone (uuid_string 6%N) "CUSTOMER") converted_world).1 =
  (job_answer (GetJobCall (uuid_string 20%N)) (someone (uuid_string 6%N) "CUSTOMER") requested).1.
Proof.
  split; [vm_compute; reflexivity|].
  apply (hidden_is_missing broker (λ _, 0) "conflict" (at_ 40 40) (GetJobCall (uuid_string 20%N))
    (someone (uuid_string 6%N) "CUSTOMER") converted_world requested).
  - apply job_reachable_ok, converted_reachable.
  - exists (mkReadScope 9%N (Some 6%N) false), 20%N, (uuid_string 20%N).
    split; [vm_compute; reflexivity|split; [vm_compute; reflexivity|left]].
    split; [done|split; [|vm_compute; reflexivity]]. intros j L.
    assert (jobs (jw_db converted_world) !! 20%N = Some (the_job "CREATED" (20 * second))) as E by (vm_compute; reflexivity).
    rewrite E in L. injection L as <-. reflexivity.
Defined.

Lemma job_endpoints_refine_steps_witness :
  let out := job_answer (TransitionCall (uuid_string 20%N) (inr (mkTransitionRequest " triaging " "call back")))
               (someone "" "DISPATCHER") converted_world in
  rs_Status out.1 = 200 ∧ lawful_steps (jw_db converted_world) (jw_db out.2) ∧
  rs_Status (job_answer (TransitionCall (uuid_string 20%N) (inr (mkTransitionRequest " triaging " "call back")))
               (someone "" "CUSTOMER") converted_world).1 = 403.
Proof.
  cbn zeta. split; [vm_compute; reflexivity|split; [|vm_compute; reflexivity]].
  exact (proj1 (job_endpoints_refine_steps broker (λ _, 0) "conflict" (at_ 40 40) _ _ _ converted_reachable)).
Defined.
