(* ===== verification/PayHttp.v ===== *)
(** * PayHttp: the HTTP layer of the payments domain ([backend/payments/http.go])

    The principal and the parameters of a request, the handlers with the bodies they
    answer, the webhook receiver, which has no token, and the gates of the routes. The
    texts of the domain's errors, which the model of the service does not keep, are a
    parameter. *)

From S2P Require Import Prelude Text Platform Sql Money Wire PayMachine PayModels PayStore.
From S2P Require Import Webhook Providers PayService Reconcile Float64 Http Auth.

Open Scope Z_scope.

Record initiateRequest := mkInitiateRequestBody {
  iq_AmountMinor : Z;
  iq_Currency : string;
  iq_Provider : string;
  iq_CustomerID : option uuid;
  iq_JobID : option uuid;
  iq_VehicleID : option uuid;
  iq_Description : string;
  iq_PayerPhone : string;
}.

(** ** Responses *)

(** A time that may be absent. *)
Definition optional_time (name : string) (t : option time) : option (list (string * string)) :=
  match t with None => Some [] | Some t => v ← json_time t; Some (member name v) end.

Section Responses.
Context `{UuidText}.

Definition newIntentResponse (i : PaymentIntent) : option string :=
  succeeded ← optional_time "succeeded_at" (i_SucceededAt i);
  failed ← optional_time "failed_at" (i_FailedAt i);
  canceled ← optional_time "canceled_at" (i_CanceledAt i);
  created ← json_time (i_CreatedAt i);
  updated ← json_time (i_UpdatedAt i);
  Some (json_object (
    member "id" (json_uuid (i_ID i)) ++
    optional "tenant_id" (json_uuid <$> i_TenantID i) ++
    optional "customer_id" (json_uuid <$> i_CustomerID i) ++
    member "created_by" (json_uuid (i_CreatedBy i)) ++
    member "amount_minor" (json_int (i_AmountMinor i)) ++
    member "currency" (json_string (i_Currency i)) ++
    member "status" (json_string (i_Status i)) ++
    member "provider" (json_string (i_Provider i)) ++
    nonempty "provider_ref" (i_ProviderRef i) ++
    optional "job_id" (json_uuid <$> i_JobID i) ++
    optional "vehicle_id" (json_uuid <$> i_VehicleID i) ++
    nonempty "description" (i_Description i) ++
    nonempty "failure_reason" (i_FailureReason i) ++ succeeded ++ failed ++ canceled ++
    member "created_at" created ++
    member "updated_at" updated)).

Definition newTransactionResponse (t : Transaction) : option string :=
  occurred ← optional_time "occurred_at" (t_OccurredAt t);
  created ← json_time (t_CreatedAt t);
  updated ← json_time (t_UpdatedAt t);
  Some (json_object (
    member "id" (json_uuid (t_ID t)) ++
    member "intent_id" (json_uuid (t_IntentID t)) ++
    member "provider" (json_string (t_Provider t)) ++
    nonempty "provider_ref" (t_ProviderRef t) ++
    nonempty "provider_receipt" (t_ProviderReceipt t) ++
    member "status" (json_string (t_Status t)) ++
    member "amount_minor" (json_int (t_AmountMinor t)) ++
    member "currency" (json_string (t_Currency t)) ++
    nonempty "failure_reason" (t_FailureReason t) ++ occurred ++
    member "created_at" created ++
    member "updated_at" updated)).

Definition newRefundResponse (r : Refund) : option string :=
  created ← json_time (r_CreatedAt r);
  updated ← json_time (r_UpdatedAt r);
  Some (json_object (
    member "id" (json_uuid (r_ID r)) ++
    member "intent_id" (json_uuid (r_IntentID r)) ++
    member "amount_minor" (json_int (r_AmountMinor r)) ++
    member "currency" (json_string (r_Currency r)) ++
    member "status" (json_string (r_Status r)) ++
    member "provider" (json_string (r_Provider r)) ++
    nonempty "provider_ref" (r_ProviderRef r) ++
    nonempty "reason" (r_Reason r) ++
    nonempty "failure_reason" (r_FailureReason r) ++
    optional "requested_by" (json_uuid <$> r_RequestedBy r) ++
    member "created_at" created ++
    member "updated_at" updated)).

Definition reconcileResponse (r : ReconcileResult) : string :=
  json_object (member "scanned" (json_int (Scanned r)) ++ member "repaired" (json_int (Repaired r)) ++
    member "still_pending" (json_int (StillPending r)) ++ member "errors" (json_int (Errors r))).

Definition initiatedResponse (p : InitiatedPayment) : option string :=
  intent ← newIntentResponse (ip_Intent p);
  transaction ← match ip_Transaction p with
                | Some t => t ← newTransactionResponse t; Some (Some t)
                | None => Some None
                end;
  Some (json_object (member "intent" intent ++ optional "transaction" transaction)).

Definition webhookResponse (r : WebhookResult) : string :=
  json_object (member "status" (json_string (wr_Status r)) ++ member "duplicate" (json_bool (wr_Duplicate r)) ++
    member "intent_id" (json_uuid (wr_IntentID r)) ++ member "transaction_id" (json_uuid (wr_TransactionID r))).

(** ** Parameters *)

Definition parseQueryUUID (field raw : string) : Error + uuid :=
  match uuid_parse raw with
  | Some u => inr u
  | None => inl (ErrValidation (field +:+ " is not a valid identifier") [mkFieldError field "must be a uuid"])
  end.

(** An optional identifier of the query. *)
Definition query_uuid (field raw : string) : Error + option uuid :=
  let raw := TrimSpace raw in
  if String.eqb raw "" then inr None
  else match parseQueryUUID field raw with inl e => inl e | inr u => inr (Some u) end.

Definition query_status (raw : string) : Error + option IntentStatus :=
  let raw := TrimSpace raw in
  if String.eqb raw "" then inr None
  else if existsb (String.eqb raw) [IntentCreated; IntentProcessing; IntentSucceeded; IntentFailed; IntentCanceled]
  then inr (Some raw)
  else inl (ErrValidation "status is not a known payment intent status"
              [mkFieldError "status" "must be one of the documented intent statuses"]).

(** Not trimmed, unlike the path parameters of the other domains. *)
Definition uuidFromRequest (name raw : string) : Error + uuid :=
  if String.eqb raw "" then inl (ErrValidation "resource id is required" [mkFieldError name "is required"])
  else match uuid_parse raw with
       | Some u => inr u
       | None => inl (ErrValidation "resource id is not a valid identifier" [mkFieldError name "must be a uuid"])
       end.

(** ** The principal *)

Definition scopeFromRequest (claims : option Claims) : Error + Scope :=
  match claims with
  | None => inl authentication_required
  | Some claims =>
      match ScopeFromClaims claims with
      | inl ErrTenantClaim => inl bad_tenant
      | inl ErrSubjectClaim => inl bad_subject
      | inr scope => inr scope
      end
  end.

Definition actorAndScope (claims : option Claims) : Error + uuid * Scope :=
  match claims with
  | None => inl authentication_required
  | Some cl =>
      match uuid_parse (c_UserID cl) with
      | None => inl bad_subject
      | Some actorID => match scopeFromRequest claims with inl e => inl e | inr scope => inr (actorID, scope) end
      end
  end.

End Responses.

Definition provider_unavailable : Error :=
  mkError 503 "provider_unavailable" "Payment provider unavailable" "" [].

Section Http.
Context `{Driver} `{UuidText} `{StaleStore} {P : Type}.
Context (s : Service P) (rec : option (Reconciler P)) (error_text : ServiceError → string).

Abbreviation web := (M (world P) (Error + ServiceError)) (only parsing).

(** [writeDomainError] *)
Definition domain_error (e : Error + ServiceError) : option Error :=
  match e with
  | inl e => Some e
  | inr e =>
      match e with
      | ErrWebhookUnauthorized _ => Some (ErrUnauthorized (error_text e))
      | ErrWebhookRejected | ErrInvalidInput => Some (ErrValidation (error_text e) [])
      | OfStore PayStore.ErrConflict | ErrNotRefundable | ErrAlreadyRefunded => Some (Platform.ErrConflict (error_text e))
      | OfProvider p =>
          match pe_kind p with
          | ErrProviderRejected => Some (ErrValidation "payment request rejected by the provider" [])
          | ErrProviderUnavailable => Some provider_unavailable
          | OtherProviderError => None
          end
      | OfStore ErrIntentNotFound => Some (ErrNotFound "payment intent not found")
      | OfStore ErrTransactionNotFound => Some (ErrNotFound "transaction not found")
      | OfStore ErrRefundNotFound => Some (ErrNotFound "refund not found")
      | OfStore ErrDB | PublishFailed => None
      end
  end.

Definition app {A} (r : Error + A) : web A := from_sum (match r with inl e => inl (inl e) | inr a => inr a end).
Definition call {A B} (c : M (world P) (Failure B) A) : web A := wrap (λ f, inr (cause f)) c.

(** ** Handlers *)

Definition initiate (c : Ctx) (body : Error + initiateRequest) (claims : option Claims) : web Response :=
  '(actorID, scope) ← app (actorAndScope claims);
  req ← app body;
  initiated ← call (InitiatePayment s c (mkInitiateInput (s_TenantID scope) actorID (iq_CustomerID req)
    (iq_AmountMinor req) (iq_Currency req) (iq_Provider req) (iq_JobID req) (iq_VehicleID req)
    (iq_Description req) (iq_PayerPhone req)));
  mret (writeJSON 201 (initiatedResponse initiated)).

(** The parameters of a listing, as the query has them. *)
Record listQuery := mkListQuery {
  lq_status : string;
  lq_customer_id : string;
  lq_job_id : string;
  lq_vehicle_id : string;
  lq_limit : string;
  lq_offset : string;
}.

Definition list_intents (q : listQuery) (claims : option Claims) : web Response :=
  scope ← app (scopeFromRequest claims);
  status ← app (query_status (lq_status q));
  customer ← app (query_uuid "customer_id" (lq_customer_id q));
  job ← app (query_uuid "job_id" (lq_job_id q));
  vehicle ← app (query_uuid "vehicle_id" (lq_vehicle_id q));
  '(limit, offset) ← app (page_params DefaultIntentsLimit MaxIntentsLimit (lq_limit q) (lq_offset q));
  intents ← call (Intents scope (mkIntentFilter status customer job vehicle) limit offset);
  mret (writeJSON 200 (json_array <$> mapM newIntentResponse intents)).

Definition get_intent (raw : string) (claims : option Claims) : web Response :=
  scope ← app (scopeFromRequest claims);
  intentID ← app (uuidFromRequest "intentID" raw);
  intent ← call (Service_GetIntent intentID scope);
  mret (writeJSON 200 (newIntentResponse intent)).

Definition list_transactions (raw : string) (claims : option Claims) : web Response :=
  scope ← app (scopeFromRequest claims);
  intentID ← app (uuidFromRequest "intentID" raw);
  transactions ← call (Transactions intentID scope);
  mret (writeJSON 200 (json_array <$> mapM newTransactionResponse transactions)).

Definition get_transaction (raw : string) (claims : option Claims) : web Response :=
  scope ← app (scopeFromRequest claims);
  txID ← app (uuidFromRequest "transactionID" raw);
  tx ← call (Service_GetTransaction txID scope);
  mret (writeJSON 200 (newTransactionResponse tx)).

Definition get_refund (raw : string) (claims : option Claims) : web Response :=
  scope ← app (scopeFromRequest claims);
  refundID ← app (uuidFromRequest "refundID" raw);
  refund ← call (Service_GetRefund refundID scope);
  mret (writeJSON 200 (newRefundResponse refund)).

(** The body is the reason, empty when there is no body. *)
Definition post_refund (c : Ctx) (raw : string) (body : Error + string) (claims : option Claims) : web Response :=
  '(actorID, scope) ← app (actorAndScope claims);
  intentID ← app (uuidFromRequest "intentID" raw);
  reason ← app body;
  refund ← call (RefundPayment s c intentID reason actorID scope);
  mret (writeJSON 201 (newRefundResponse refund)).

(** [body]: the bytes, or the text of the error of [readWebhookBody]. *)
Definition receive_webhook (c : Ctx) (providerName : string) (header : Header) (body : string + string)
    : web Response :=
  match Service_Provider s providerName with
  | None => throw (inl (ErrNotFound "payment provider not configured"))
  | Some _ =>
      body ← app (match body with inl text => inl (ErrValidation text []) | inr b => inr b end);
      result ← call (HandleWebhook s c providerName header body (ctx_now c));
      mret (writeJSON 200 (Some (webhookResponse result)))
  end.

Definition run_reconciliation (c : Ctx) : web Response :=
  match rec with
  | None => throw (inl (ErrNotFound "reconciliation is not configured"))
  | Some rec =>
      result ← wrap (λ e, inr (OfStore e)) (Run rec c);
      mret (writeJSON 200 (Some (reconcileResponse result)))
  end.

(** ** The routes, behind their gates *)

Inductive payment_call :=
  | InitiateCall (body : Error + initiateRequest)
  | ListIntentsCall (q : listQuery)
  | GetIntentCall (intentID : string)
  | ListTransactionsCall (intentID : string)
  | RefundCall (intentID : string) (body : Error + string)
  | GetTransactionCall (transactionID : string)
  | GetRefundCall (refundID : string)
  | WebhookCall (provider : string) (header : Header) (body : string + string)
  | ReconcileCall.

Definition served : (option Claims → web Response) → Handler (W := world P) := answered domain_error.

Definition requireMoneyMover (h : Handler (W := world P)) : Handler := RequireAuthenticated (RequireRole PaymentRoles h).
Definition requireOperator (h : Handler (W := world P)) : Handler := RequireAuthenticated (RequireRole OperatorRoles h).

Definition payment_route (c : Ctx) (r : payment_call) : Handler :=
  match r with
  | InitiateCall body => requireMoneyMover (served (initiate c body))
  | ListIntentsCall q => RequireAuthenticated (served (list_intents q))
  | GetIntentCall id => RequireAuthenticated (served (get_intent id))
  | ListTransactionsCall id => RequireAuthenticated (served (list_transactions id))
  | RefundCall id body => requireMoneyMover (served (post_refund c id body))
  | GetTransactionCall id => RequireAuthenticated (served (get_transaction id))
  | GetRefundCall id => RequireAuthenticated (served (get_refund id))
  | WebhookCall provider header body => served (λ _, receive_webhook c provider header body)
  | ReconcileCall => requireOperator (served (λ _, run_reconciliation c))
  end.

End Http.
