(* ===== verification/PayWeb.v ===== *)
(** * PayWeb: what the endpoints of the payments domain guarantee

    Who may move money through them, and that what a principal is answered depends only on
    the books its scope sees. *)

From S2P Require Import Prelude Hoare Text Platform Sql Money Wire PayMachine PayModels.
From S2P Require Import PayStore PayLedger PayInvariant PayReads Webhook Providers PayService.
From S2P Require Import PayRefine Reconcile Float64 Http Auth PayHttp.

Open Scope Z_scope.

Section Web.
Context `{Driver} `{UuidText} `{StaleStore} {P : Type}.
Context (s : Service P) (rec : option (Reconciler P)) (error_text : ServiceError → string).

Abbreviation web A := (M (world P) (Error + ServiceError) A) (only parsing).
Abbreviation route := (payment_route s rec error_text) (only parsing).

(** ** Reads *)

Lemma set_ledger_eq (w : world P) : mkWorld (w_ledger w) (w_provider w) (w_events w) = w.
Proof. by destruct w. Qed.

Lemma on_store_reads {A B} (c : M ledger StoreError A) (f : StoreError → Failure B) : reads c → reads (on_store (P := P) c f).
Proof. intros R. apply reads_wrap, reads_zoom; [apply set_ledger_eq|done]. Qed.

Lemma on_store_same {A B} (c : M ledger StoreError A) (f : StoreError → Failure B) (w w' : world P) :
  (∃ r, c (w_ledger w) = (r, w_ledger w) ∧ c (w_ledger w') = (r, w_ledger w')) → same (on_store c f) w w'.
Proof. intros R. apply same_wrap, same_zoom; [apply set_ledger_eq|exact R]. Qed.

Ltac db_read := unfold send; repeat (apply reads_bind; [done || apply reads_ensure || apply reads_option|intros ?]);
  repeat case_match; done || apply reads_option.

Lemma GetIntent_reads id scope : reads (GetIntent id scope).
Proof. intros l. destruct (GetIntent id scope l) as [r l'] eqn:E. cbn. by apply read_only_intent in E. Qed.

Lemma ListIntents_reads scope filter limit offset : reads (ListIntents scope filter limit offset).
Proof. unfold ListIntents. destruct (list_where scope filter) as [c args]. cbv zeta. db_read. Qed.

Lemma ListTransactions_reads id scope : reads (ListTransactions id scope).
Proof. unfold ListTransactions. destruct (joinScopePredicate scope 2) as [c args]. cbv zeta. db_read. Qed.

Lemma GetTransaction_reads id scope : reads (GetTransaction id scope).
Proof.
  unfold GetTransaction. destruct (joinScopePredicate scope 2) as [c args]. cbv zeta. db_read.
Qed.

Lemma GetRefund_reads id scope : reads (GetRefund id scope).
Proof.
  unfold GetRefund. destruct (joinScopePredicate scope 2) as [c args]. cbv zeta. db_read.
Qed.

(** What the sandboxed identifiers select: a listing of one intent's transactions. *)
Definition visible_transaction (scope : Scope) (l : ledger) (id : uuid) : option transaction_row :=
  t ← payment_transactions l !! id; if sees_through scope l (t_IntentID t) then Some t else None.
Definition visible_refund (scope : Scope) (l : ledger) (id : uuid) : option refund_row :=
  r ← payment_refunds l !! id; if sees_through scope l (r_IntentID r) then Some r else None.

Definition attempts (scope : Scope) (intentID : uuid) (l : ledger) : list transaction_row :=
  merge_sort (oldest_first t_CreatedAt t_ID)
    (List.filter (λ t, bool_decide (t_IntentID t = intentID) && sees_through scope l intentID)
       (map_to_list (payment_transactions l)).*2).

Lemma ListTransactions_any l scope intentID : well_formed l →
  ListTransactions intentID scope l =
    (if allowed "t.intent_id" (joinScopePredicate scope 2) then
       match mapM scanTransaction (attempts scope intentID l) with Some out => inr out | None => inl ErrDB end
     else inl ErrDB, l).
Proof.
  intros W. unfold ListTransactions, attempts.
  pose proof (λ iid env, join_clause scope l (VUuid intentID) iid env "t.intent_id") as C.
  assert (Ne : ∀ pred args t, t_IntentID t ≠ intentID →
    eval (parent_env l (t_IntentID t)) (VUuid intentID :: args) (transaction_env t) (and_pred (CEq "t.intent_id" 1) pred) = false).
  { intros pred args t Ne. assert (sql_eq (transaction_env t "t.intent_id") (VUuid intentID) = false) as X.
    { change (transaction_env t "t.intent_id") with (VUuid (t_IntentID t)). rewrite sql_eq_VUuid. by apply bool_decide_eq_false. }
    destruct pred; cbn [and_pred eval]; change (arg (VUuid intentID :: args) 1) with (VUuid intentID); by rewrite X. }
  destruct (joinScopePredicate scope 2) as [pred args].
  unfold mbind at 1, M_bind at 1. rewrite send_cases. unfold allowed. cbn [fst snd length].
  destruct (accepts _ _); [unfold_run_goal|done].
  rewrite (filter_ext_in _ (λ t, bool_decide (t_IntentID t = intentID) && sees_through scope l intentID));
    [by destruct (mapM _ _)|]. intros t I. apply list_elem_of_In, list_elem_of_fmap in I as ([id t'] & -> & I).
  apply elem_of_map_to_list in I. cbn [snd]. destruct (wf_transaction _ W _ _ I) as (_ & _ & i & Li & _).
  destruct (decide (t_IntentID t' = intentID)) as [E|E].
  - rewrite (bool_decide_eq_true_2 _ E). rewrite (C (t_IntentID t')); [by rewrite E|by eexists| |done]. by rewrite <-E.
  - rewrite (bool_decide_eq_false_2 _ E). by apply Ne.
Qed.

Lemma elem_of_attempts scope intentID l t : well_formed l →
  t ∈ attempts scope intentID l ↔ (∃ id, visible_transaction scope l id = Some t) ∧ t_IntentID t = intentID.
Proof.
  intros W. unfold attempts, visible_transaction. rewrite merge_sort_Permutation, list_elem_of_In, filter_In, <-list_elem_of_In.
  rewrite list_elem_of_fmap, andb_true_iff, bool_decide_eq_true. split.
  - intros [([id r] & -> & I%elem_of_map_to_list) [E S]]. cbn [snd] in *. split; [|done]. exists id.
    rewrite I. cbn. by rewrite E, S.
  - intros [[id V] E]. destruct (payment_transactions l !! id) as [t'|] eqn:L; [|done]. cbn in V.
    destruct (sees_through scope l (t_IntentID t')) eqn:S; [|done]. injection V as <-.
    split; [|by rewrite <-E]. exists (id, t'). by rewrite elem_of_map_to_list.
Qed.

Lemma attempts_NoDup scope intentID l : well_formed l → NoDup (attempts scope intentID l).
Proof.
  intros W. unfold attempts. rewrite merge_sort_Permutation.
  apply NoDup_ListNoDup, NoDup_filter, NoDup_ListNoDup, NoDup_fmap_2_strong; [|apply NoDup_map_to_list].
  intros [id t] [id' t'] I%elem_of_map_to_list I'%elem_of_map_to_list; simpl; intros ->.
  apply (wf_transaction _ W) in I as [<- _]. by apply (wf_transaction _ W) in I' as [<- _].
Qed.

(** ** The books a scope sees *)

Record same_books (scope : Scope) (l l' : ledger) : Prop := {
  sb_intents : same_view scope l l';
  sb_transactions : ∀ id, visible_transaction scope l id = visible_transaction scope l' id;
  sb_refunds : ∀ id, visible_refund scope l id = visible_refund scope l' id;
}.

Lemma attempts_same_books scope intentID l l' : well_formed l → well_formed l' → same_books scope l l' →
  attempts scope intentID l = attempts scope intentID l'.
Proof.
  intros W W' V. apply (Sorted_unique_strong (oldest_first t_CreatedAt t_ID)).
  - intros t t' I I' Lt Gt. apply (elem_of_attempts _ _ _ _ W) in I as [[id T] _].
    apply (elem_of_attempts _ _ _ _ W') in I' as [[id' T'] _]. rewrite (sb_transactions _ _ _ V) in T.
    unfold visible_transaction in *. assert (t_ID t = t_ID t') as E by (unfold oldest_first in *; lia).
    destruct (payment_transactions l' !! id) as [x|] eqn:L; [|done]. destruct (payment_transactions l' !! id') as [x'|] eqn:L'; [|done].
    cbn in T, T'. destruct (sees_through scope l' _) in T; [|done]. destruct (sees_through scope l' _) in T'; [|done].
    injection T as ->. injection T' as ->. apply (wf_transaction _ W') in L as Hi. apply (wf_transaction _ W') in L' as Hi'.
    destruct Hi as [<- _], Hi' as [<- _]. congruence.
  - apply Sorted_merge_sort. apply _.
  - apply Sorted_merge_sort. apply _.
  - apply NoDup_Permutation; [by apply attempts_NoDup..|]. intros t. rewrite !elem_of_attempts by done.
    by setoid_rewrite (sb_transactions _ _ _ V).
Qed.

Definition is_read (r : payment_call) : bool :=
  match r with
  | ListIntentsCall _ | GetIntentCall _ | ListTransactionsCall _ | GetTransactionCall _ | GetRefundCall _ => true
  | _ => false
  end.

(** *** The calls of the service *)

Section SameCalls.
Context (scope : Scope) (w w' : world P).
Context (R : reachable (w_ledger w)) (R' : reachable (w_ledger w')) (V : same_books scope (w_ledger w) (w_ledger w')).

Let W := proj1 (reachable_ok _ R).
Let W' := proj1 (reachable_ok _ R').

Lemma GetIntent_same {B} id (f : StoreError → Failure B) : same (on_store (GetIntent id scope) f) w w'.
Proof. apply on_store_same. rewrite !GetIntent_any by done. rewrite (sb_intents _ _ _ V id). eauto. Qed.

Lemma Service_GetTransaction_same id : same (Service_GetTransaction id scope) w w'.
Proof.
  apply on_store_same. rewrite !GetTransaction_any by done.
  pose proof (sb_transactions _ _ _ V id) as E. unfold visible_transaction in E. rewrite E. eauto.
Qed.

Lemma Service_GetRefund_same id : same (Service_GetRefund id scope) w w'.
Proof.
  apply on_store_same. rewrite !GetRefund_any by done.
  pose proof (sb_refunds _ _ _ V id) as E. unfold visible_refund in E. rewrite E. eauto.
Qed.

Lemma Transactions_same id : same (Transactions id scope) w w'.
Proof.
  apply same_bind; [apply GetIntent_same|intros ? _]. apply on_store_same.
  rewrite !ListTransactions_any by done. rewrite (attempts_same_books _ _ _ _ W W' V). eauto.
Qed.

Lemma Intents_same filter limit offset : same (Intents scope filter limit offset) w w'.
Proof.
  apply same_bind; [apply same_ensure|intros ? _]. apply on_store_same.
  rewrite !ListIntents_any. rewrite (registry_same_view _ _ _ _ W W' (sb_intents _ _ _ V)). eauto.
Qed.

End SameCalls.

(** C15. ** Blindness

    What a principal is answered depends only on the books its scope sees: two databases
    that differ in payments of others, whatever the difference, give the same response,
    byte for byte, to every request that reads, and are left as they were. So it is for
    every scope: a personal one too, whose queries the driver may refuse, since it refuses
    them by their text. *)
Theorem payment_reads_blind c r scope claims w w' : is_read r = true →
  reachable (w_ledger w) → reachable (w_ledger w') → same_books scope (w_ledger w) (w_ledger w') →
  scopeFromRequest claims = inr scope →
  (route c r claims w).1 = (route c r claims w').1 ∧ (route c r claims w).2 = w.
Proof.
  intros I R R' V S. enough (indistinct (route c r) claims w w') as (? & ? & _) by done.
  destruct r; try discriminate I; cbn [payment_route]; apply indistinct_authenticated, indistinct_answered;
    unfold list_intents, get_intent, list_transactions, get_transaction, get_refund;
    rewrite S; (apply same_bind; [apply same_sum|intros ? [= <-]]);
    repeat match goal with
    | |- same (call _ ≫= _) _ _ => apply same_bind; [apply same_wrap|intros ? _; apply same_ret]
    | |- same (app _ ≫= _) _ _ => apply same_bind; [apply same_sum|intros ? _]
    | |- same (let '(_, _) := ?p in _) _ _ => destruct p
    end.
  - by apply Intents_same.
  - by apply GetIntent_same.
  - by apply Transactions_same.
  - by apply Service_GetTransaction_same.
  - by apply Service_GetRefund_same.
Qed.

(** ** What the endpoints may change *)

Context (PC : ∀ name p, providers s !! name = Some p → ProviderContract p).
Context (RC : ∀ r name p, rec = Some r → rc_providers r !! name = Some p → ProviderContract p).

(** What a handler keeps is that payment steps have led here from the ledger it began in. *)
Section From.
Context (l0 : ledger) (R0 : reachable l0).

Abbreviation sound := (λ w : world P, payment_steps l0 (w_ledger w)) (only parsing).

Lemma from_reachable l : payment_steps l0 l → reachable l.
Proof using R0. unfold reachable, payment_steps in *. by etrans. Qed.

Lemma spec_keeps {E A} (Pre : ledger → Prop) (c : M (world P) E A) Post :
  (∀ l, ledger_ok l → Pre l) → spec Pre c Post → keeps sound c.
Proof using R0.
  intros I Sp w St. etrans; [exact St|]. eapply spec_steps; [exact Sp|].
  apply I, reachable_ok, from_reachable, St.
Qed.

Lemma Run_keeps r : rec = Some r → ∀ c, keeps sound (Run r c).
Proof using R0 RC.
  intros Er c w St0. destruct (Run r c w) as [x w'] eqn:E.
  destruct (Run_run r c w x w' (λ name p, RC r name p Er) (reachable_ok _ (from_reachable _ St0)) E)
    as [(e & _ & ->)|(stale & res & _ & _ & _ & St & _)]; [done|].
  unfold payment_steps in *. by etrans.
Qed.

Ltac keeps_app := apply keeps_bind; [apply keeps_reads, reads_sum|intros ?].

Lemma initiate_keeps c body claims : keeps sound (initiate s c body claims).
Proof.
  unfold initiate. apply keeps_bind; [apply keeps_reads, reads_sum|intros [actor scope]]. keeps_app.
  apply keeps_bind; [|intros ?; apply keeps_reads, reads_ret]. apply keeps_wrap.
  eapply spec_keeps; [|by apply InitiatePayment_spec]. done.
Qed.

Lemma post_refund_keeps c raw body claims : keeps sound (post_refund s c raw body claims).
Proof.
  unfold post_refund. apply keeps_bind; [apply keeps_reads, reads_sum|intros [actor scope]]. do 2 keeps_app.
  apply keeps_bind; [|intros ?; apply keeps_reads, reads_ret]. apply keeps_wrap.
  eapply spec_keeps; [|by apply RefundPayment_spec]. done.
Qed.

Lemma receive_webhook_keeps c name header body : keeps sound (receive_webhook s c name header body).
Proof.
  unfold receive_webhook. destruct (Service_Provider s name); [|by intros ?]. keeps_app.
  apply keeps_bind; [|intros ?; apply keeps_reads, reads_ret]. apply keeps_wrap.
  eapply spec_keeps; [|by apply HandleWebhook_spec]. done.
Qed.

Lemma run_reconciliation_keeps c : keeps sound (run_reconciliation rec c).
Proof.
  unfold run_reconciliation. pose proof Run_keeps as K. destruct rec as [r|]; [|by intros ?].
  apply keeps_bind; [|intros ?; apply keeps_reads, reads_ret]. apply keeps_wrap. by apply K.
Qed.

(** A delivery the provider of its path vouches for. *)
Definition attested_delivery (c : Ctx) (name : string) (header : Header) (body : string + string) : Prop :=
  ∃ provider text payload, Service_Provider s name = Some provider ∧ body = inr text ∧
    WebhookEvent provider header text (ctx_now c) = inr payload.

Lemma receive_webhook_changes c name header body w :
  (receive_webhook s c name header body w).2 ≠ w → attested_delivery c name header body.
Proof.
  unfold receive_webhook, attested_delivery. destruct (Service_Provider s name) as [provider|] eqn:Sp; [|done].
  destruct body as [text|text]; [done|]. intros N. exists provider, text.
  destruct (WebhookEvent provider header text (ctx_now c)) as [e|payload] eqn:Wh; [|by exists payload].
  exfalso. apply N. assert (∃ f, HandleWebhook s c name header text (ctx_now c) w = (inl f, w)) as [f F].
  { unfold HandleWebhook. rewrite Sp. erewrite bind_ok; [|reflexivity]. rewrite Wh. destruct e; by eexists. }
  unfold app, call, wrap, mbind, M_bind, from_sum. by rewrite F.
Qed.

(** Who may change anything with a call. *)
Definition may_move (c : Ctx) (r : payment_call) (claims : option Claims) : Prop :=
  match r with
  | InitiateCall _ | RefundCall _ _ => ∃ cl, claims = Some cl ∧ c_Role cl ∈ PaymentRoles
  | ReconcileCall => ∃ cl, claims = Some cl ∧ c_Role cl ∈ OperatorRoles
  | WebhookCall name header body => attested_delivery c name header body
  | _ => False
  end.

Lemma read_handlers :
  (∀ q claims, reads (list_intents (P := P) q claims)) ∧ (∀ raw claims, reads (get_intent (P := P) raw claims)) ∧
  (∀ raw claims, reads (list_transactions (P := P) raw claims)) ∧
  (∀ raw claims, reads (get_transaction (P := P) raw claims)) ∧ (∀ raw claims, reads (get_refund (P := P) raw claims)).
Proof.
  unfold list_intents, get_intent, list_transactions, get_transaction, get_refund, Intents, Transactions,
    Service_GetIntent, Service_GetTransaction, Service_GetRefund.
  split_and!; intros; repeat match goal with
    | |- reads (app _ ≫= _) => apply reads_bind; [apply reads_sum|intros ?]
    | |- reads (ensure _ _ ≫= _) => apply reads_bind; [apply reads_ensure|intros ?]
    | |- reads (let '(_, _) := ?p in _) => destruct p
    | |- reads (mret _) => apply reads_ret
    | |- reads (call _ ≫= _) => apply reads_bind; [apply reads_wrap|intros ?]
    | |- reads (on_store _ _ ≫= _) => apply reads_bind; [|intros ?]
    | |- reads (on_store _ _) => apply on_store_reads
    end; (apply ListIntents_reads || apply GetIntent_reads || apply ListTransactions_reads ||
          apply GetTransaction_reads || apply GetRefund_reads).
Qed.

Lemma payment_route_governed c r : governed sound (may_move c r) (route c r).
Proof.
  destruct read_handlers as (D1 & D2 & D3 & D4 & D5).
  assert (Au : ∀ h : option Claims → web Response, (∀ claims, reads (h claims)) →
    governed sound (λ _, False) (RequireAuthenticated (served error_text h))).
  { intros h D. eapply governed_weaken; [apply governed_authenticated, (governed_reads _ _ (λ _, False)), D|naive_solver]. }
  assert (Ro : ∀ roles (h : option Claims → web Response), (∀ claims, keeps sound (h claims)) →
    governed sound (λ claims, ∃ cl, claims = Some cl ∧ c_Role cl ∈ roles)
      (RequireAuthenticated (RequireRole roles (served error_text h)))).
  { intros roles h K. eapply governed_weaken; [apply governed_authenticated, governed_role, governed_any, K|naive_solver]. }
  destruct r; cbn [payment_route may_move]; try (by apply Au).
  - apply Ro. intros. apply initiate_keeps.
  - apply Ro. intros. apply post_refund_keeps.
  - apply governed_answered; [intros; apply receive_webhook_keeps|intros ? w; apply receive_webhook_changes].
  - apply Ro. intros. apply run_reconciliation_keeps.
Qed.

End From.

(** C13. ** The endpoints refine the payment steps

    For adapters that keep their contract, whatever is sent to whatever endpoint, by
    whomever, payment steps lead from the ledger that was to the ledger that is, also when
    the call fails half way. Only a role trusted with money initiates or refunds anything,
    only an operator's request reconciles, and the public webhook path changes something
    only for a delivery whose signature, freshness and content the provider of the path
    has checked. *)
Theorem payment_endpoints_refine_steps c r claims w : reachable (w_ledger w) →
  let out := route c r claims w in
  payment_steps (w_ledger w) (w_ledger out.2) ∧ reachable (w_ledger out.2) ∧
  (out.2 ≠ w → may_move c r claims).
Proof.
  intros R. destruct (payment_route_governed _ R c r claims w (rtc_refl _ _)) as [St N].
  split; [exact St|]. split; [by eapply from_reachable|exact N].
Qed.

End Web.

(** ** Concrete runs *)

Definition pay_answer := payment_route (H1 := qualified_store) demo_service (Some demo_reconciler) (λ _, "refused").
Definition pay_claims (tenant role : string) : option Claims := Some (mkClaims (uuid_string 9%N) tenant role "" 0 0).

Example own_intent_found :
  rs_Status (pay_answer (at_ 400 40) (GetIntentCall (uuid_string 10%N)) (pay_claims (uuid_string 7%N) "GARAGE") paid_world).1 = 200.
Proof. vm_compute. reflexivity. Qed.

(** Books in which a scope sees nothing at all. *)
Lemma sees_nothing scope l id : map_Forall (λ _ i, sees scope i = false) (payment_intents l) →
  visible_intent scope l id = None ∧ visible_transaction scope l id = None ∧ visible_refund scope l id = None.
Proof.
  intros F. assert (V : ∀ id, visible_intent scope l id = None).
  { intros k. unfold visible_intent. destruct (payment_intents l !! k) eqn:L; [|done]. cbn. by rewrite (F _ _ L). }
  unfold visible_transaction, visible_refund, sees_through. split_and!; [apply V| |].
  - destruct (payment_transactions l !! id); [|done]. cbn. by rewrite V.
  - destruct (payment_refunds l !! id); [|done]. cbn. by rewrite V.
Qed.

(** Tenant 6 is not told whether tenant 7 has been paid. *)
Lemma payment_reads_blind_witness :
  (pay_answer (at_ 400 40) (ListTransactionsCall (uuid_string 10%N)) (pay_claims (uuid_string 6%N) "GARAGE") paid_world).1 =
  (pay_answer (at_ 400 40) (ListTransactionsCall (uuid_string 10%N)) (pay_claims (uuid_string 6%N) "GARAGE") initiated_world).1.
Proof.
  apply (payment_reads_blind (H1 := qualified_store) demo_service (Some demo_reconciler) (λ _, "refused") (at_ 400 40)
    (ListTransactionsCall (uuid_string 10%N)) (mkScope (Some 6%N) None false)
    (pay_claims (uuid_string 6%N) "GARAGE") paid_world initiated_world eq_refl paid_world_reachable initiated_world_reachable).
  - set (tenant6 := mkScope (Some 6%N) None false).
    assert (∀ id, visible_intent tenant6 (w_ledger paid_world) id = None ∧
      visible_transaction tenant6 (w_ledger paid_world) id = None ∧ visible_refund tenant6 (w_ledger paid_world) id = None) as Np
      by (intros id; apply sees_nothing; refine (bool_decide_eq_true_1 _ _); vm_compute; reflexivity).
    assert (∀ id, visible_intent tenant6 (w_ledger initiated_world) id = None ∧
      visible_transaction tenant6 (w_ledger initiated_world) id = None ∧
      visible_refund tenant6 (w_ledger initiated_world) id = None) as Ni
      by (intros id; apply sees_nothing; refine (bool_decide_eq_true_1 _ _); vm_compute; reflexivity).
    constructor; intros id; destruct (Np id) as (? & ? & ?), (Ni id) as (? & ? & ?); congruence.
  - vm_compute. reflexivity.
Defined.

(** The webhook path has no token; an unsigned delivery moves nothing, a signed one settles. *)
Lemma payment_endpoints_refine_steps_witness :
  let call := λ header, pay_answer (at_ 201 20) (WebhookCall "sandbox" header (inr paid_body)) None initiated_world in
  rs_Status (call ∅).1 = 401 ∧ rs_Status (call (signed paid_body)).1 = 200 ∧
  payment_steps (w_ledger initiated_world) (w_ledger (call (signed paid_body)).2).
Proof.
  cbn zeta. split; [vm_compute; reflexivity|]. split; [vm_compute; reflexivity|].
  refine (proj1 (payment_endpoints_refine_steps (H1 := qualified_store) demo_service (Some demo_reconciler)
    (λ _, "refused") demo_contracts _ (at_ 201 20) (WebhookCall "sandbox" (signed paid_body) (inr paid_body)) None
    initiated_world initiated_world_reachable)).
  intros r name p [= <-]. apply demo_reconciler_contracts.
Defined.
