(* ===== verification/InspHttp.v ===== *)
(** * InspHttp: the HTTP layer of the inspections domain ([backend/inspections/http.go])

    The principal and the parameters of a request, the handlers with the bodies they
    answer, the template registry and the gates of the routes. The texts of the domain's
    errors are a parameter, and so is what decoding the stored snapshots of a report gives:
    the arrays of [json.Unmarshal], empty for a text it does not take. *)

From Stdlib Require Import Ascii.
From S2P Require Import Prelude Text Platform Sql Wire PayMachine PayModels InspModels.
From S2P Require Import InspReport InspStore InspService Float64 Http Vin Auth.

Open Scope Z_scope.

Record createSessionRequest := mkCreateSessionRequest {
  csq_VehicleID : option uuid;
  csq_JobID : option uuid;
  csq_CustomerID : option uuid;
  csq_VehicleClass : string;
}.

Record findingRequest := mkFindingRequest {
  fq_ItemKey : string;
  fq_Result : string;
  fq_Severity : string;
  fq_Notes : string;
}.

Record evidenceRequest := mkEvidenceRequest {
  eq_FindingID : option uuid;
  eq_Kind : string;
  eq_ContentHash : string;
  eq_CapturedAt : time;
  eq_Uploaded : bool;
  eq_Notes : string;
}.

Class SnapshotText := {
  decode_findings : string → list Finding;
  decode_evidence : string → list Evidence;
}.

(** A time that may be absent. *)
Definition optional_time (name : string) (t : option time) : option (list (string * string)) :=
  match t with None => Some [] | Some t => v ← json_time t; Some (member name v) end.

Section Responses.
Context `{UuidText} `{SnapshotText}.

Definition newSessionResponse (s : Session) : option string :=
  started ← optional_time "started_at" (ss_StartedAt s);
  submitted ← optional_time "submitted_at" (ss_SubmittedAt s);
  reported ← optional_time "reported_at" (ss_ReportedAt s);
  created ← json_time (ss_CreatedAt s);
  updated ← json_time (ss_UpdatedAt s);
  Some (json_object (
    member "id" (json_uuid (ss_ID s)) ++
    json_optional "tenant_id" (ss_TenantID s) ++
    json_optional "vehicle_id" (ss_VehicleID s) ++
    json_optional "job_id" (ss_JobID s) ++
    json_optional "customer_id" (ss_CustomerID s) ++
    member "vehicle_class" (json_string (ss_VehicleClass s)) ++
    member "template_id" (json_uuid (ss_TemplateID s)) ++
    member "template_name" (json_string (ss_TemplateName s)) ++
    member "template_version" (json_int (ss_TemplateVersion s)) ++
    member "inspector_id" (json_uuid (ss_InspectorID s)) ++
    member "status" (json_string (ss_Status s)) ++ started ++ submitted ++ reported ++
    member "created_at" created ++
    member "updated_at" updated)).

Definition newFindingResponse (f : Finding) : option string :=
  created ← json_time (fi_CreatedAt f);
  Some (json_object (
    member "id" (json_uuid (fi_ID f)) ++
    member "session_id" (json_uuid (fi_SessionID f)) ++
    member "item_key" (json_string (fi_ItemKey f)) ++
    member "result" (json_string (fi_Result f)) ++
    member "severity" (json_string (fi_Severity f)) ++
    member "notes" (json_string (fi_Notes f)) ++
    json_optional "recorded_by" (fi_RecordedBy f) ++
    member "created_at" created)).

Definition newEvidenceResponse (e : Evidence) : option string :=
  captured ← json_time (ev_CapturedAt e);
  created ← json_time (ev_CreatedAt e);
  Some (json_object (
    member "id" (json_uuid (ev_ID e)) ++
    member "session_id" (json_uuid (ev_SessionID e)) ++
    json_optional "finding_id" (ev_FindingID e) ++
    member "kind" (json_string (ev_Kind e)) ++
    member "content_hash" (json_string (ev_ContentHash e)) ++
    member "captured_at" captured ++
    json_optional "captured_by" (ev_CapturedBy e) ++
    member "uploaded" (json_bool (ev_Uploaded e)) ++
    member "notes" (json_string (ev_Notes e)) ++
    member "created_at" created)).

Definition newReportResponse (r : Report) : option string :=
  findings ← marshalFindingsSnapshot (decode_findings (rp_FindingsSnapshot r));
  evidence ← marshalEvidenceSnapshot (decode_evidence (rp_EvidenceSnapshot r));
  created ← json_time (rp_CreatedAt r);
  Some (json_object (
    member "id" (json_uuid (rp_ID r)) ++
    member "session_id" (json_uuid (rp_SessionID r)) ++
    member "version" (json_int (rp_Version r)) ++
    json_optional "vehicle_id" (rp_VehicleID r) ++
    json_optional "job_id" (rp_JobID r) ++
    member "inspector_id" (json_uuid (rp_InspectorID r)) ++
    member "template_id" (json_uuid (rp_TemplateID r)) ++
    member "template_name" (json_string (rp_TemplateName r)) ++
    member "template_version" (json_int (rp_TemplateVersion r)) ++
    member "findings" findings ++
    member "evidence" evidence ++
    member "findings_count" (json_int (rp_FindingsCount r)) ++
    member "evidence_count" (json_int (rp_EvidenceCount r)) ++
    member "content_hash" (json_string (rp_ContentHash r)) ++
    json_optional "issued_by" (rp_IssuedBy r) ++
    member "notes" (json_string (rp_Notes r)) ++
    member "created_at" created)).

Definition verificationResponse (v : ReportVerification) : option string :=
  checked ← json_time (rv_CheckedAt v);
  Some (json_object (
    member "report_id" (json_uuid (rv_ReportID v)) ++
    member "session_id" (json_uuid (rv_SessionID v)) ++
    member "version" (json_int (rv_Version v)) ++
    member "verified" (json_bool (rv_Verified v)) ++
    member "hash_match" (json_bool (rv_HashMatch v)) ++
    member "findings_match" (json_bool (rv_FindingsMatch v)) ++
    member "evidence_match" (json_bool (rv_EvidenceMatch v)) ++
    member "template_match" (json_bool (rv_TemplateMatch v)) ++
    member "findings_checked" (json_int (Z.of_nat (rv_FindingsChecked v))) ++
    member "evidence_checked" (json_int (Z.of_nat (rv_EvidenceChecked v))) ++
    member "stored_hash" (json_string (rv_StoredHash v)) ++
    member "recomputed_hash" (json_string (rv_RecomputedHash v)) ++
    member "checked_at" checked)).

Definition item_json (i : TemplateItem) : string :=
  json_object (member "key" (json_string (ti_Key i)) ++ member "label" (json_string (ti_Label i)) ++
    member "required" (json_bool (ti_Required i))).

Definition template_json (t : Template) : string :=
  json_object (
    member "id" (json_uuid (tm_ID t)) ++
    member "vehicle_class" (json_string (tm_VehicleClass t)) ++
    member "name" (json_string (tm_Name t)) ++
    member "version" (json_int (tm_Version t)) ++
    member "items" (json_array (map item_json (tm_Items t))) ++
    member "active" (json_bool (tm_Active t))).

End Responses.

(** ** The principal and the parameters *)

Section Parameters.
Context `{UuidText} `{UpperMapping}.

Definition claims_error (e : ClaimsError) : Error :=
  match e with ErrTenantClaim => bad_tenant | ErrSubjectClaim => bad_subject end.

(** Whatever is wrong with the claims, a read is answered the same. *)
Definition scopeFromRequest (claims : option Claims) : option Scope :=
  claims ← claims;
  match ScopeFromClaims claims with inl _ => None | inr scope => Some scope end.

Definition actorAndScope (claims : option Claims) : Error + uuid * Scope :=
  match claims with
  | None => inl authentication_required
  | Some claims =>
      match uuid_parse (c_UserID claims) with
      | None => inl bad_subject
      | Some actorID =>
          match ScopeFromClaims claims with
          | inl e => inl (claims_error e)
          | inr scope => inr (actorID, scope)
          end
      end
  end.

(** A claim that is not an identifier counts as none. *)
Definition tenantIDFromClaims (claims : Claims) : option uuid :=
  if String.eqb (c_TenantID claims) "" then None else uuid_parse (c_TenantID claims).

Definition parseStatus (raw : string) : Error + string :=
  let candidate := ToUpper (TrimSpace raw) in
  if isKnownStatus candidate then inr candidate
  else inl (ErrValidation "status is not a known inspection session status"
              [mkFieldError "status" "must be one of the documented session statuses"]).

Definition uuidFromRequest (name raw : string) : Error + uuid :=
  uuid_param (ErrValidation "resource id is required" [mkFieldError name "is required"])
    (ErrValidation "resource id is not a valid identifier" [mkFieldError name "must be a uuid"]) raw.

Definition optionalVersion (raw : string) : Error + option Z :=
  let raw := TrimSpace raw in
  let err := ErrValidation "version is not a valid report version"
               [mkFieldError "version" "must be a positive integer"] in
  if String.eqb raw "" then inr None
  else match ParseInt raw with
       | Some n => if n <? 1 then inl err else inr (Some n)
       | None => inl err
       end.

Definition listPagination (limit offset : string) : Error + Z * Z :=
  page_params DefaultSessionsLimit MaxSessionsLimit limit offset.

Definition query_uuid (name raw : string) : Error + option uuid :=
  let raw := TrimSpace raw in
  if String.eqb raw "" then inr None
  else match uuid_parse raw with
       | Some u => inr (Some u)
       | None => inl (ErrValidation (name +:+ " is not a valid identifier") [mkFieldError name "must be a uuid"])
       end.

Definition query_status (raw : string) : Error + option string :=
  let raw := TrimSpace raw in
  if String.eqb raw "" then inr None
  else match parseStatus raw with inl e => inl e | inr s => inr (Some s) end.

End Parameters.

Definition unknown_class : Error :=
  ErrValidation "vehicle_class is not a known vehicle class"
    [mkFieldError "vehicle_class" "must be one of the documented vehicle classes"].

Section Http.
Context `{Driver} `{JsonColumn} `{UuidText} `{UuidV5} `{UpperMapping} `{SnapshotText}.
Context (publisher : option (Event InspPayload → bool)) (error_text : InspError → string).

Abbreviation web := (M insp_world (Error + InspError)) (only parsing).

(** [writeDomainError]; [None]: not an error of the application. *)
Definition domain_error (e : Error + InspError) : option Error :=
  match e with
  | inl e => Some e
  | inr e =>
      match e with
      | ErrConflict => Some (Platform.ErrConflict (error_text e))
      | ErrSessionSealed | ErrReportIncomplete _ | ErrInvalidInput => Some (ErrValidation (error_text e) [])
      | ErrNotInspector => Some (ErrForbidden "only the session's inspector may perform this action")
      | ErrSessionNotFound => Some (ErrNotFound "session not found")
      | ErrReportNotFound => Some (ErrNotFound "report not found")
      | _ => None
      end
  end.

Definition app {A} (r : Error + A) : web A := from_sum (match r with inl e => inl (inl e) | inr a => inr a end).
Definition given {A} (o : option A) (e : Error) : web A := from_option o (inl e).
Definition call {A} (c : M insp_world InspError A) : web A := wrap inr c.

(** ** Handlers *)

Definition create_session (c : Ctx) (body : Error + createSessionRequest) (claims : option Claims) : web Response :=
  claims ← given claims authentication_required;
  inspectorID ← given (uuid_parse (c_UserID claims)) bad_subject;
  req ← app body;
  ensure (IsVehicleClass (csq_VehicleClass req)) (inl unknown_class);;
  sess ← call (Insp_CreateSession publisher c (Some (mkSession uuid_nil (tenantIDFromClaims claims)
    (csq_VehicleID req) (csq_JobID req) (csq_CustomerID req) (csq_VehicleClass req) uuid_nil "" 0
    inspectorID StatusCreated None None None zero_time zero_time)));
  mret (writeJSON 201 (newSessionResponse sess)).

(** The parameters of a listing, as the query has them. *)
Record sessionQuery := mkSessionQuery {
  sq_status : string;
  sq_vehicle_id : string;
  sq_job_id : string;
  sq_limit : string;
  sq_offset : string;
}.

Definition list_sessions (q : sessionQuery) (claims : option Claims) : web Response :=
  scope ← given (scopeFromRequest claims) authentication_required;
  status ← app (query_status (sq_status q));
  vehicle ← app (query_uuid "vehicle_id" (sq_vehicle_id q));
  job ← app (query_uuid "job_id" (sq_job_id q));
  '(limit, offset) ← app (listPagination (sq_limit q) (sq_offset q));
  sessions ← call (Sessions scope (mkSessionFilter vehicle job status) limit offset);
  mret (writeJSON 200 (json_array <$> mapM newSessionResponse sessions)).

Definition get_session (raw : string) (claims : option Claims) : web Response :=
  scope ← given (scopeFromRequest claims) authentication_required;
  sessionID ← app (uuidFromRequest "sessionID" raw);
  sess ← call (Insp_GetSession sessionID scope);
  mret (writeJSON 200 (newSessionResponse sess)).

Definition start_session (c : Ctx) (raw : string) (claims : option Claims) : web Response :=
  '(actorID, scope) ← app (actorAndScope claims);
  sessionID ← app (uuidFromRequest "sessionID" raw);
  sess ← call (Start publisher c sessionID actorID scope);
  mret (writeJSON 200 (newSessionResponse sess)).

Definition record_finding (c : Ctx) (raw : string) (body : Error + findingRequest) (claims : option Claims)
    : web Response :=
  '(actorID, scope) ← app (actorAndScope claims);
  sessionID ← app (uuidFromRequest "sessionID" raw);
  req ← app body;
  finding ← call (RecordFinding c sessionID (Some (mkFinding uuid_nil uuid_nil (fq_ItemKey req)
    (fq_Result req) (fq_Severity req) (fq_Notes req) None zero_time)) actorID scope);
  mret (writeJSON 201 (newFindingResponse finding)).

Definition list_findings (raw : string) (claims : option Claims) : web Response :=
  scope ← given (scopeFromRequest claims) authentication_required;
  sessionID ← app (uuidFromRequest "sessionID" raw);
  findings ← call (Findings sessionID scope);
  mret (writeJSON 200 (json_array <$> mapM newFindingResponse findings)).

Definition attach_evidence (c : Ctx) (raw : string) (body : Error + evidenceRequest) (claims : option Claims)
    : web Response :=
  '(actorID, scope) ← app (actorAndScope claims);
  sessionID ← app (uuidFromRequest "sessionID" raw);
  req ← app body;
  evidence ← call (AttachEvidence c sessionID (Some (mkEvidence uuid_nil uuid_nil (eq_FindingID req)
    (eq_Kind req) (eq_ContentHash req) (eq_CapturedAt req) None (eq_Uploaded req) (eq_Notes req)
    zero_time)) actorID scope);
  mret (writeJSON 201 (newEvidenceResponse evidence)).

Definition list_evidence (raw : string) (claims : option Claims) : web Response :=
  scope ← given (scopeFromRequest claims) authentication_required;
  sessionID ← app (uuidFromRequest "sessionID" raw);
  evidence ← call (Evidences sessionID scope);
  mret (writeJSON 200 (json_array <$> mapM newEvidenceResponse evidence)).

Definition submit_session (c : Ctx) (raw : string) (claims : option Claims) : web Response :=
  '(actorID, scope) ← app (actorAndScope claims);
  sessionID ← app (uuidFromRequest "sessionID" raw);
  sess ← call (Submit publisher c sessionID actorID scope);
  mret (writeJSON 200 (newSessionResponse sess)).

(** The body is the notes, empty when there is no body. *)
Definition issue_report (c : Ctx) (raw : string) (body : Error + string) (claims : option Claims) : web Response :=
  '(actorID, scope) ← app (actorAndScope claims);
  sessionID ← app (uuidFromRequest "sessionID" raw);
  notes ← app body;
  report ← call (IssueReport publisher c sessionID actorID notes scope);
  mret (writeJSON 201 (newReportResponse report)).

Definition get_report (raw version : string) (claims : option Claims) : web Response :=
  scope ← given (scopeFromRequest claims) authentication_required;
  sessionID ← app (uuidFromRequest "sessionID" raw);
  version ← app (optionalVersion version);
  report ← call (Insp_GetReport sessionID version scope);
  mret (writeJSON 200 (newReportResponse report)).

Definition verify_report (c : Ctx) (raw version : string) (claims : option Claims) : web Response :=
  scope ← given (scopeFromRequest claims) authentication_required;
  sessionID ← app (uuidFromRequest "sessionID" raw);
  version ← app (optionalVersion version);
  verification ← call (Verify c sessionID version scope);
  mret (writeJSON 200 (verificationResponse verification)).

Definition list_templates (class : string) : web Response :=
  let raw := TrimSpace class in
  if String.eqb raw "" then mret (writeJSON 200 (Some (json_array (map template_json registry))))
  else
    let class := ToUpper raw in
    ensure (IsVehicleClass class) (inl unknown_class);;
    mret (writeJSON 200 (Some (json_array
      (map template_json (List.filter (λ t, String.eqb (tm_VehicleClass t) class) registry))))).

Definition get_template (raw : string) : web Response :=
  id ← app (uuid_param
    (ErrValidation "template id is required" [mkFieldError "templateID" "is required"])
    (ErrValidation "template id is not a valid identifier" [mkFieldError "templateID" "must be a uuid"]) raw);
  template ← given (TemplateByID id) (ErrNotFound "template not found");
  mret (writeJSON 200 (Some (template_json template))).

(** ** The routes, behind their gates *)

Definition served : (option Claims → web Response) → Handler (W := insp_world) := answered domain_error.

Definition requireStaff (h : Handler (W := insp_world)) : Handler := RequireAuthenticated (RequireRole StaffRoles h).

Inductive insp_call :=
  | CreateSessionCall (body : Error + createSessionRequest)
  | ListSessionsCall (q : sessionQuery)
  | GetSessionCall (sessionID : string)
  | StartCall (sessionID : string)
  | RecordFindingCall (sessionID : string) (body : Error + findingRequest)
  | ListFindingsCall (sessionID : string)
  | AttachEvidenceCall (sessionID : string) (body : Error + evidenceRequest)
  | ListEvidenceCall (sessionID : string)
  | SubmitCall (sessionID : string)
  | IssueReportCall (sessionID : string) (body : Error + string)
  | GetReportCall (sessionID version : string)
  | VerifyReportCall (sessionID version : string)
  | ListTemplatesCall (class : string)
  | GetTemplateCall (templateID : string).

(** What [Routes] registers for a request. *)
Definition insp_route (c : Ctx) (r : insp_call) : Handler :=
  match r with
  | CreateSessionCall body => requireStaff (served (create_session c body))
  | ListSessionsCall q => requireStaff (served (list_sessions q))
  | GetSessionCall id => RequireAuthenticated (served (get_session id))
  | StartCall id => requireStaff (served (start_session c id))
  | RecordFindingCall id body => requireStaff (served (record_finding c id body))
  | ListFindingsCall id => RequireAuthenticated (served (list_findings id))
  | AttachEvidenceCall id body => requireStaff (served (attach_evidence c id body))
  | ListEvidenceCall id => RequireAuthenticated (served (list_evidence id))
  | SubmitCall id => requireStaff (served (submit_session c id))
  | IssueReportCall id body => requireStaff (served (issue_report c id body))
  | GetReportCall id version => RequireAuthenticated (served (get_report id version))
  | VerifyReportCall id version => RequireAuthenticated (served (verify_report c id version))
  | ListTemplatesCall class => RequireAuthenticated (served (λ _, list_templates class))
  | GetTemplateCall id => RequireAuthenticated (served (λ _, get_template id))
  end.

End Http.
