(* ===== verification/InspWeb.v ===== *)
(** * InspWeb: what the endpoints of the inspections domain guarantee

    Who may change the database through them, and that a session a principal does not see
    cannot be told from one that does not exist. *)

From Stdlib Require Import Ascii.
From S2P Require Import Prelude Hoare Text Sha256 Platform Sql Wire PayMachine PayModels.
From S2P Require Import InspModels InspReport InspStore InspService InspInvariant InspRefine.
From S2P Require Import InspDemo Float64 Http Vin Auth InspHttp.

Open Scope Z_scope.

Section Web.
Context `{Driver} `{JsonColumn} `{UuidText} `{UuidV5} `{UpperMapping} `{SnapshotText}.
Context (publisher : option (Event InspPayload → bool)) (error_text : InspError → string).

Abbreviation web A := (M insp_world (Error + InspError) A) (only parsing).
Abbreviation route := (insp_route publisher error_text) (only parsing).

Lemma set_insp_db (w : insp_world) : mkInspWorld (iw_db w) (iw_events w) = w.
Proof. by destruct w. Qed.

(** ** A session that is not visible is missing *)

Definition hidden_session (scope : Scope) (id : uuid) (d : insp_db) : Prop :=
  ∀ s, inspection_sessions d !! id = Some s → sees_session scope s = false.

Lemma GetSession_hidden id scope d d' : insp_ok d → insp_ok d' → hidden_session scope id d →
  inspection_sessions d' !! id = None →
  ∃ e, GetSession id scope d = (inl e, d) ∧ GetSession id scope d' = (inl e, d').
Proof.
  intros Ok Ok' Hd N. rewrite !GetSession_eq by done. rewrite N. destruct (readable scope); [|by exists ErrDB].
  destruct (inspection_sessions d !! id) as [s|] eqn:L; [rewrite (Hd _ L)|]; by exists ErrSessionNotFound.
Qed.

(** The session a call names. *)
Definition names (r : insp_call) : option string :=
  match r with
  | GetSessionCall id | StartCall id | RecordFindingCall id _ | ListFindingsCall id | AttachEvidenceCall id _
  | ListEvidenceCall id | SubmitCall id | IssueReportCall id _ | GetReportCall id _ | VerifyReportCall id _ => Some id
  | CreateSessionCall _ | ListSessionsCall _ | ListTemplatesCall _ | GetTemplateCall _ => None
  end.

Lemma actorAndScope_scope claims actor scope :
  actorAndScope claims = inr (actor, scope) → scopeFromRequest claims = Some scope.
Proof.
  unfold actorAndScope, scopeFromRequest. destruct claims as [cl|]; [|done]. cbn.
  destruct (uuid_parse _); [|done]. by destruct (ScopeFromClaims cl); [|intros [= -> ->]].
Qed.

(** Whatever a principal sends to an endpoint of a session it does not see, to read, to
    write, to submit or to issue the report, the answer is the one it would get if the
    identifier did not exist, byte for byte, and nothing changes. *)
Theorem hidden_session_is_missing c r claims scope raw id w w' :
  insp_reachable (iw_db w) → insp_reachable (iw_db w') →
  names r = Some raw → uuid_parse (TrimSpace raw) = Some id → scopeFromRequest claims = Some scope →
  hidden_session scope id (iw_db w) → inspection_sessions (iw_db w') !! id = None →
  (route c r claims w).1 = (route c r claims w').1 ∧ (route c r claims w).2 = w.
Proof.
  intros Rw Rw' N P S Hd M. enough (indistinct (route c r) claims w w') as (? & ? & _) by done.
  pose proof (GetSession_hidden id scope _ _ (insp_reachable_ok _ Rw) (insp_reachable_ok _ Rw') Hd M) as G.
  destruct r; try discriminate N; injection N as ->; cbn [insp_route]; unfold requireStaff;
    repeat (apply indistinct_authenticated || apply indistinct_role); apply indistinct_answered;
    unfold get_session, start_session, record_finding, list_findings, attach_evidence, list_evidence, submit_session,
      issue_report, get_report, verify_report.
  all: repeat match goal with
    | |- same (call _ ≫= _) _ _ => (apply read_fails || apply call_fails); [apply set_insp_db|exact G]
    | |- same (app (uuidFromRequest _ _) ≫= _) _ _ => apply (same_uuid_param _ _ _ _ _ _ _ P)
    | |- same (given (scopeFromRequest _) _ ≫= _) _ _ => rewrite S; apply same_given
    | |- same (app (actorAndScope _) ≫= _) _ _ =>
        apply same_bind; [apply same_sum|intros [actor sc] E];
        destruct (actorAndScope claims) as [?|[]] eqn:A; [discriminate E|];
        injection E as -> ->; apply actorAndScope_scope in A; rewrite S in A; injection A as <-
    | |- same (_ ≫= _) _ _ => apply same_bind; [apply same_sum|]; intros ? _
    end.
Qed.

(** ** Reads *)

Ltac store_read := unfold send_query; cbv zeta;
  repeat (apply reads_bind; [apply reads_ensure || (by intros ?)|intros ?]); (apply reads_option || (repeat case_match; done)).

Lemma GetSession_reads id scope : reads (GetSession id scope).
Proof. unfold GetSession. destruct (sessionScopePredicate scope 2). store_read. Qed.
Lemma ListSessions_reads scope filter limit offset : reads (ListSessions scope filter limit offset).
Proof. unfold ListSessions. destruct (sessions_where scope filter). store_read. Qed.
Lemma ListFindings_reads id scope : reads (ListFindings id scope).
Proof. unfold ListFindings. destruct (child_where "f" id scope). store_read. Qed.
Lemma ListEvidence_reads id scope : reads (ListEvidence id scope).
Proof. unfold ListEvidence. destruct (child_where "e" id scope). store_read. Qed.
Lemma GetReport_reads id version scope : reads (GetReport id version scope).
Proof. unfold GetReport. destruct (add_filter _ _ _). store_read. Qed.

Ltac handler_read := repeat match goal with
  | |- reads (app _ ≫= _) => apply reads_bind; [apply reads_sum|intros ?]
  | |- reads (given _ _ ≫= _) => apply reads_bind; [apply reads_option|intros ?]
  | |- reads (from_option _ _ ≫= _) => apply reads_bind; [apply reads_option|intros ?]
  | |- reads (ensure _ _ ≫= _) => apply reads_bind; [apply reads_ensure|intros ?]
  | |- reads (let '(_, _) := ?p in _) => destruct p
  | |- reads (mret _) => apply reads_ret
  | |- reads (call _ ≫= _) => apply reads_bind; [apply reads_wrap|intros ?]
  | |- reads (on_db _ ≫= _) => apply reads_bind; [|intros ?]
  | |- reads (on_db _) => apply reads_zoom; [apply set_insp_db|]
  end;
  try (apply GetSession_reads || apply ListSessions_reads || apply ListFindings_reads || apply ListEvidence_reads ||
       apply GetReport_reads).

Lemma list_sessions_reads q claims : reads (list_sessions q claims).
Proof. unfold list_sessions, Sessions. handler_read. Qed.
Lemma get_session_reads raw claims : reads (get_session raw claims).
Proof. unfold get_session, Insp_GetSession. handler_read. Qed.
Lemma list_findings_reads raw claims : reads (list_findings raw claims).
Proof. unfold list_findings, Findings. handler_read. Qed.
Lemma list_evidence_reads raw claims : reads (list_evidence raw claims).
Proof. unfold list_evidence, Evidences. handler_read. Qed.
Lemma get_report_reads raw version claims : reads (get_report raw version claims).
Proof. unfold get_report, Insp_GetReport. handler_read. Qed.
Lemma verify_report_reads c raw version claims : reads (verify_report c raw version claims).
Proof. unfold verify_report, Verify. handler_read. Qed.
Lemma list_templates_reads class : reads (list_templates class).
Proof. unfold list_templates. cbv zeta. destruct (String.eqb _ _); handler_read. Qed.
Lemma get_template_reads raw : reads (get_template raw).
Proof. unfold get_template. handler_read. Qed.

(** ** What the endpoints may change *)

Context (Distinct : distinct_templates).

(** What a handler keeps is that inspection steps have led here from the database it began
    in. *)
Section From.
Context (d0 : insp_db) (R0 : insp_reachable d0).

Abbreviation sound := (λ w, insp_steps d0 (iw_db w)) (only parsing).

Lemma insp_from d : insp_steps d0 d → insp_reachable d.
Proof using R0. unfold insp_reachable, insp_steps in *. by etrans. Qed.

Lemma insp_triple_keeps {A} (c : M insp_world InspError A) Q :
  triple iw_db insp_ok insp_step (λ _, True) c Q → keeps sound c.
Proof using R0.
  intros T w R. unfold insp_steps in *. etrans; [exact R|].
  apply (triple_steps iw_db insp_ok insp_step _ c _ w T); [by apply insp_reachable_ok, insp_from|done].
Qed.

Ltac keeps_handler :=
  repeat match goal with
  | |- keeps _ (app _ ≫= _) => apply keeps_bind; [apply keeps_reads, reads_sum|intros ?]
  | |- keeps _ (given _ _ ≫= _) => apply keeps_bind; [apply keeps_reads, reads_option|intros ?]
  | |- keeps _ (ensure _ _ ≫= _) => apply keeps_bind; [apply keeps_reads, reads_ensure|intros ?]
  | |- keeps _ (let '(_, _) := ?p in _) => destruct p
  end;
  apply keeps_bind; [apply keeps_wrap; eapply insp_triple_keeps|intros ?; apply keeps_reads, reads_ret].

Lemma create_session_keeps c body claims : keeps sound (create_session publisher c body claims).
Proof. unfold create_session. keeps_handler. apply CreateSession_triple. Qed.
Lemma start_session_keeps c raw claims : keeps sound (start_session publisher c raw claims).
Proof. unfold start_session. keeps_handler. apply Start_triple. Qed.
Lemma record_finding_keeps c raw body claims : keeps sound (record_finding c raw body claims).
Proof. unfold record_finding. keeps_handler. by apply RecordFinding_triple. Qed.
Lemma attach_evidence_keeps c raw body claims : keeps sound (attach_evidence c raw body claims).
Proof. unfold attach_evidence. keeps_handler. apply AttachEvidence_triple. Qed.
Lemma submit_session_keeps c raw claims : keeps sound (submit_session publisher c raw claims).
Proof. unfold submit_session. keeps_handler. by apply Submit_triple. Qed.
Lemma issue_report_keeps c raw body claims : keeps sound (issue_report publisher c raw body claims).
Proof. unfold issue_report. keeps_handler. by apply IssueReport_triple. Qed.

Definition is_change (r : insp_call) : bool :=
  match r with
  | CreateSessionCall _ | StartCall _ | RecordFindingCall _ _ | AttachEvidenceCall _ _ | SubmitCall _
  | IssueReportCall _ _ => true
  | _ => false
  end.

(** Who may change anything with a call. *)
Definition may_inspect (r : insp_call) (claims : option Claims) : Prop :=
  is_change r = true ∧ ∃ cl, claims = Some cl ∧ c_Role cl ∈ StaffRoles.

Lemma insp_route_governed c r : governed sound (may_inspect r) (route c r).
Proof.
  assert (Rd : ∀ h : option Claims → web Response, (∀ claims, reads (h claims)) →
    governed sound (λ _, False) (served error_text h)) by (intros h D; apply governed_reads, D).
  assert (Au : ∀ h may, governed sound (λ _, False) h → governed sound may (RequireAuthenticated h)).
  { intros h may G. eapply governed_weaken; [apply governed_authenticated, G|naive_solver]. }
  assert (Ro : ∀ h, governed sound (λ _, False) h → governed sound (λ _, False) (RequireRole StaffRoles h)).
  { intros h G. eapply governed_weaken; [apply governed_role, G|naive_solver]. }
  assert (St : ∀ h : option Claims → web Response, (∀ claims, keeps sound (h claims)) → is_change r = true →
    governed sound (may_inspect r) (requireStaff (served error_text h))).
  { intros h K Ch. eapply governed_weaken; [apply governed_authenticated, governed_role, governed_any, K|].
    unfold may_inspect. naive_solver. }
  destruct r; cbn [insp_route].
  - apply St; [apply create_session_keeps|done].
  - apply Au, Ro, Rd, list_sessions_reads.
  - apply Au, Rd, get_session_reads.
  - apply St; [apply start_session_keeps|done].
  - apply St; [intros; apply record_finding_keeps|done].
  - apply Au, Rd, list_findings_reads.
  - apply St; [intros; apply attach_evidence_keeps|done].
  - apply Au, Rd, list_evidence_reads.
  - apply St; [apply submit_session_keeps|done].
  - apply St; [intros; apply issue_report_keeps|done].
  - apply Au, Rd, get_report_reads.
  - apply Au, Rd, verify_report_reads.
  - apply Au, Rd. intros _. apply list_templates_reads.
  - apply Au, Rd. intros _. apply get_template_reads.
Qed.

End From.

(** C16. ** The endpoints refine the inspection steps

    Whatever is sent to whatever endpoint, by whomever, the steps the invariants hold for
    lead from the database that was to the database that is, and only a member of the staff
    changes anything; the reads, the verification of a report and the template registry
    never do. *)
Theorem inspection_endpoints_refine_steps c r claims w : insp_reachable (iw_db w) →
  let out := route c r claims w in
  insp_steps (iw_db w) (iw_db out.2) ∧ insp_reachable (iw_db out.2) ∧ (out.2 ≠ w → may_inspect r claims).
Proof.
  intros R. destruct (insp_route_governed _ R c r claims w (rtc_refl _ _)) as [St N].
  split; [exact St|]. split; [by eapply insp_from|exact N].
Qed.

End Web.

(** ** Concrete runs

    Session 10 belongs to tenant 3. *)

#[local, refine] Instance ascii_cases : UpperMapping := { ToUpper := upper }.
Proof. done. Defined.
#[local] Instance no_snapshots : SnapshotText := { decode_findings := λ _, []; decode_evidence := λ _, [] }.
#[local] Existing Instances lenient hex_uuid packed_v5 text_column.

Definition someone (tenant : string) (role : string) : option Claims :=
  Some (mkClaims (uuid_string inspector) tenant role "" 0 0).
Definition insp_answer := insp_route broker (λ _, "refused") (at_ 400 400).

Example own_session_found :
  rs_Status (insp_answer (GetSessionCall (uuid_string session_id)) (someone (uuid_string 3%N) "CUSTOMER") inspected_world).1 = 200.
Proof. vm_compute. reflexivity. Qed.

Lemma hidden_session_is_missing_witness :
  rs_Status (insp_answer (SubmitCall (uuid_string session_id)) (someone (uuid_string 4%N) "GARAGE") inspected_world).1 = 404 ∧
  (insp_answer (SubmitCall (uuid_string session_id)) (someone (uuid_string 4%N) "GARAGE") inspected_world).1 =
  (insp_answer (SubmitCall (uuid_string session_id)) (someone (uuid_string 4%N) "GARAGE") (mkInspWorld empty_insp_db [])).1.
Proof.
  split; [vm_compute; reflexivity|].
  apply (hidden_session_is_missing broker (λ _, "refused") (at_ 400 400) (SubmitCall (uuid_string session_id))
    (someone (uuid_string 4%N) "GARAGE") (mkScope (Some 4%N) None false) (uuid_string session_id) session_id
    inspected_world (mkInspWorld empty_insp_db [])).
  - apply inspected_reachable.
  - apply rtc_refl.
  - reflexivity.
  - vm_compute. reflexivity.
  - vm_compute. reflexivity.
  - intros s. assert (match inspection_sessions (iw_db inspected_world) !! session_id with
      | Some s => sees_session (mkScope (Some 4%N) None false) s = false | None => True end) as V by (vm_compute; reflexivity).
    intros L. by rewrite L in V.
  - reflexivity.
Defined.

(** The inspector submits; a customer of the same tenant may not. *)
Lemma inspection_endpoints_refine_steps_witness :
  let out := insp_answer (SubmitCall (uuid_string session_id)) (someone (uuid_string 3%N) "TECHNICIAN") inspected_world in
  rs_Status out.1 = 200 ∧ insp_steps (iw_db inspected_world) (iw_db out.2) ∧
  rs_Status (insp_answer (SubmitCall (uuid_string session_id)) (someone (uuid_string 3%N) "CUSTOMER") inspected_world).1 = 403.
Proof.
  cbn zeta. split; [vm_compute; reflexivity|split; [|vm_compute; reflexivity]].
  exact (proj1 (inspection_endpoints_refine_steps broker (λ _, "refused") packed_distinct (at_ 400 400) _ _ _ inspected_reachable)).
Defined.
