(* ===== verification/IdentHttp.v ===== *)
(** * IdentHttp: the HTTP layer of the identity domain ([backend/identity/http.go])

    The projections of accounts, sessions and audit rows, the parameters of a request, the
    handlers and the routes with their gates. The limiter of the public endpoints is the
    interface [platform.AuthLimiter], of which the in-process limiter is an instance. The
    document of the issuer's public keys is a parameter, by signer; headers other than the
    content type are not modelled. *)

From Stdlib Require Import Ascii.
From S2P Require Import Prelude Text Platform Sql Money Wire PayModels IdentPassword.
From S2P Require Import IdentModels IdentStore IdentService Float64 Http TimeParse Auth.
From S2P Require Import RateLimit.

Open Scope Z_scope.

Record registerRequest := mkRegisterRequest {
  rq_Email : string;
  rq_Phone : string;
  rq_Password : string;
  rq_FullName : string;
  rq_DeviceName : string;
}.

Record loginRequest := mkLoginRequest { lq_Email : string; lq_Password : string; lq_DeviceName : string }.
Record resendVerificationRequest := mkResendRequest { vq_Email : string; vq_Channel : string }.
Record changePasswordRequest := mkChangePasswordRequest { cq_CurrentPassword : string; cq_NewPassword : string }.

(** What a request carries besides its path and body: the first X-Forwarded-For header
    and the address of the connection. *)
Record origin := mkOrigin { og_forwarded : string; og_remote : string }.

(** ** Responses *)

(** The layout [2006-01-02T15:04:05.000Z07:00] of a time in UTC: the fraction is cut to
    three digits. *)
Definition format_millis (t : time) : string :=
  let days := t / day in
  let ns := t mod day in
  let d := civil days in
  let ms := ns mod second / 1000000 in
  fmt_year (year d) +:+ "-" +:+ fmt_02d (month d) +:+ "-" +:+ fmt_02d (dom d) +:+ "T" +:+
  fmt_02d (ns / hour) +:+ ":" +:+ fmt_02d (ns / minute mod 60) +:+ ":" +:+
  fmt_02d (ns / second mod 60) +:+ "." +:+ pretty (ms / 100) +:+ fmt_02d (ms mod 100) +:+ "Z".

Example format_millis_zero : format_millis zero_time = "0001-01-01T00:00:00.000Z".
Proof. reflexivity. Qed.
Example format_millis_cuts : format_millis (1234567 * second + 45999999) = "1970-01-15T06:56:07.045Z".
Proof. reflexivity. Qed.

Definition json_null : string := "null".
Definition nullable (name : string) (value : option string) : list (string * string) :=
  [(name, default json_null value)].

Definition formatTimePtr (t : option time) : option string := (λ t, json_string (format_millis t)) <$> t.

(** A value of the metadata, which a [jsonb] column gave back: a text, a number, decoded to
    binary64, or an object of numbers. *)
Definition meta_json `{FloatText} (m : meta) : option string :=
  match m with
  | MText s => Some (json_string s)
  | MInt z => json_float (of_int z)
  | MFloat x => json_float x
  | MFloats l => json_object <$> mapM (λ kx, j ← json_float kx.2; Some (kx.1, j)) l
  end.

Definition sorted_keys {A} (m : gmap string A) : list string := merge_sort String.le (map_to_list m).*1.

Definition metadata_json `{FloatText} (m : gmap string meta) : option string :=
  json_object <$> mapM (λ k, v ← m !! k; j ← meta_json v; Some (k, j)) (sorted_keys m).

Section Responses.
Context `{UuidText} `{FloatText}.

Definition newUserResponse (u : User) : string :=
  json_object (
    member "id" (json_uuid (u_ID u)) ++
    member "email" (json_string (u_Email u)) ++
    member "phone" (json_string (u_Phone u)) ++
    member "full_name" (json_string (u_FullName u)) ++
    member "status" (json_string (u_Status u)) ++
    member "roles" (json_array (map json_string (u_Roles u))) ++
    nullable "email_verified_at" (formatTimePtr (u_EmailVerifiedAt u)) ++
    nullable "phone_verified_at" (formatTimePtr (u_PhoneVerifiedAt u)) ++
    member "created_at" (json_string (format_millis (u_CreatedAt u)))).

Definition userListResponse (us : list User) (limit offset : Z) : string :=
  json_object (member "users" (json_array (map newUserResponse us)) ++ member "limit" (json_int limit) ++
    member "offset" (json_int offset)).

Definition newSessionResponse (currentSessionID : string) (x : Session) : string :=
  json_object (
    member "id" (json_uuid (se_ID x)) ++
    member "device_name" (json_string (se_DeviceName x)) ++
    member "ip_address" (json_string (se_IPAddress x)) ++
    member "created_at" (json_string (format_millis (se_CreatedAt x))) ++
    member "expires_at" (json_string (format_millis (se_ExpiresAt x))) ++
    member "absolute_expires_at" (json_string (format_millis (se_AbsoluteExpiresAt x))) ++
    nullable "revoked_at" (formatTimePtr (se_RevokedAt x)) ++
    member "current" (json_bool (String.eqb (uuid_string (se_ID x)) currentSessionID))).

Definition newAuditRecordResponse (r : AuditRecord) : option string :=
  metadata ← metadata_json (ar_Metadata r);
  Some (json_object (
    member "id" (json_int (ar_ID r)) ++
    nullable "actor_id" (json_uuid <$> ar_ActorID r) ++
    member "action" (json_string (ar_Action r)) ++
    member "object_type" (json_string (ar_ObjectType r)) ++
    member "object_id" (json_string (ar_ObjectID r)) ++
    nullable "tenant_id" (json_uuid <$> ar_TenantID r) ++
    member "metadata" metadata ++
    member "created_at" (json_string (format_millis (ar_CreatedAt r))))).

Definition auditListResponse (entries : list AuditRecord) (limit offset : Z) : option string :=
  entries ← mapM newAuditRecordResponse entries;
  Some (json_object (member "entries" (json_array entries) ++ member "limit" (json_int limit) ++
    member "offset" (json_int offset))).

Definition echo_json (e : VerificationEcho) : option string :=
  expires ← json_time (ve_ExpiresAt e);
  Some (json_object (member "channel" (json_string (ve_Channel e)) ++ member "token" (json_string (ve_Token e)) ++
    member "expires_at" expires)).

Definition accessResponse (r : AccessResponse) : option string :=
  expires ← json_time (at_ExpiresAt r);
  echoes ← mapM echo_json (at_Verification r);
  Some (json_object (
    member "access_token" (json_string (at_AccessToken r)) ++
    member "refresh_token" (json_string (at_RefreshToken r)) ++
    member "expires_at" expires ++
    match echoes with [] => [] | _ => member "verification" (json_array echoes) end)).

Definition resendResponse (channel : string) (echo : option VerificationEcho) : option string :=
  match echo with
  | None => Some (json_object (member "channel" (json_string channel)))
  | Some e =>
      expires ← json_time (ve_ExpiresAt e);
      Some (json_object (member "channel" (json_string channel) ++ nonempty "token" (ve_Token e) ++
        member "expires_at" expires))
  end.

(** [writeJSON]: an error when the value cannot be encoded, and no line feed. *)
Definition respond (status : Z) (body : option string) : Response :=
  match body with Some b => mkResponse status "application/json" b | None => WriteError None end.

(** ** Parameters *)

Definition paginationFromQuery (limit offset : string) : Error + Z * Z :=
  match int_param (ErrValidation "limit must be an integer" [mkFieldError "limit" "invalid"])
          defaultListUsersLimit limit with
  | inl e => inl e
  | inr limit =>
      match int_param (ErrValidation "offset must be an integer" [mkFieldError "offset" "invalid"]) 0 offset with
      | inl e => inl e
      | inr offset => inr (limit, offset)
      end
  end.

Definition clampLimit (limit : Z) : Z := clamp_limit defaultListUsersLimit maxListUsersLimit limit.
Definition clampOffset (offset : Z) : Z := clamp_offset offset.

Definition tenantIDFromClaims (claims : Claims) : Error + option uuid :=
  if String.eqb (c_TenantID claims) "" then inr None
  else match uuid_parse (c_TenantID claims) with Some t => inr (Some t) | None => inl bad_tenant end.

(** An optional parameter of the query, parsed. *)
Definition query_param {A} (parse : string → option A) (err : Error) (raw : string) : Error + option A :=
  if String.eqb raw "" then inr None
  else match parse raw with Some a => inr (Some a) | None => inl err end.

Record auditQuery := mkAuditQuery {
  aq_tenant_id : string;
  aq_actor_id : string;
  aq_action : string;
  aq_object_type : string;
  aq_object_id : string;
  aq_since : string;
  aq_until : string;
  aq_limit : string;
  aq_offset : string;
}.

Definition tenant_not_uuid : Error := ErrValidation "tenant_id must be a UUID" [mkFieldError "tenant_id" "invalid"].

(** The tenant whose rows are listed. *)
Definition audit_tenant (raw : string) (claims : Claims) : Error + option uuid :=
  if negb (String.eqb raw "") && String.eqb (c_Role claims) RoleSuperAdmin
  then match uuid_parse raw with Some t => inr (Some t) | None => inl tenant_not_uuid end
  else tenantIDFromClaims claims.

Definition auditFilterFromQuery (q : auditQuery) (claims : Claims) : Error + AuditFilter :=
  match paginationFromQuery (aq_limit q) (aq_offset q) with
  | inl e => inl e
  | inr (limit, offset) =>
      match audit_tenant (aq_tenant_id q) claims with
      | inl e => inl e
      | inr tenant =>
          match query_param uuid_parse (ErrValidation "actor_id must be a UUID" [mkFieldError "actor_id" "invalid"])
                  (aq_actor_id q) with
          | inl e => inl e
          | inr actor =>
              match query_param ParseRFC3339
                      (ErrValidation "since must be an RFC 3339 timestamp" [mkFieldError "since" "invalid"])
                      (aq_since q) with
              | inl e => inl e
              | inr since =>
                  match query_param ParseRFC3339
                          (ErrValidation "until must be an RFC 3339 timestamp" [mkFieldError "until" "invalid"])
                          (aq_until q) with
                  | inl e => inl e
                  | inr until =>
                      inr (mkAuditFilter actor (TrimSpace (aq_action q)) (TrimSpace (aq_object_type q))
                             (TrimSpace (aq_object_id q)) tenant since until limit offset)
                  end
              end
          end
      end
  end.

End Responses.

Definition subject_invalid : Error := ErrUnauthorized "access token subject is invalid".

(** An error of the service, as [platform.WriteError] sees it. *)
Definition domain_error (e : Error + IdentError) : option Error :=
  match e with inl e | inr (App e) => Some e | inr _ => None end.

Section Http.
Context `{CaseMapping} `{Jwt} `{UuidText} `{Argon2} `{FloatText}.
Context (s : Service) (keys : JWTSigner → string).

Abbreviation web := (M ident_world (Error + IdentError)) (only parsing).

Definition app {A} (r : Error + A) : web A := from_sum (match r with inl e => inl (inl e) | inr a => inr a end).
Definition given {A} (o : option A) (e : Error) : web A := from_option o (inl e).
Definition call {A} (c : M ident_world IdentError A) : web A := wrap inr c.

Definition clientIP (r : origin) : string :=
  let forwarded := TrimSpace (og_forwarded r) in
  let first := (cut "," forwarded).1 in
  if sv_trustForwarded s && negb (String.eqb forwarded "") && negb (String.eqb first "")
  then TrimSpace first else TrimSpace (og_remote r).

(** The claims of the request and its subject. *)
Definition subject (claims : option Claims) : web (Claims * uuid) :=
  cl ← given claims authentication_required;
  userID ← given (uuid_parse (c_UserID cl)) subject_invalid;
  mret (cl, userID).

(** ** Handlers *)

Definition handleRegister (c : IdentCtx) (r : origin) (body : Error + registerRequest) : web Response :=
  req ← app body;
  resp ← call (Register s c (rq_Email req) (rq_Phone req) (rq_Password req) (rq_FullName req)
                 (rq_DeviceName req) (clientIP r));
  mret (respond 201 (accessResponse resp)).

Definition handleLogin (c : IdentCtx) (r : origin) (body : Error + loginRequest) : web Response :=
  req ← app body;
  resp ← call (Login s c (lq_Email req) (lq_Password req) (lq_DeviceName req) (clientIP r));
  mret (respond 200 (accessResponse resp)).

Definition handleRefresh (c : IdentCtx) (body : Error + string) : web Response :=
  token ← app body;
  resp ← call (RefreshTokens s c token);
  mret (respond 200 (accessResponse resp)).

Definition handleLogout (c : IdentCtx) (body : Error + string) (claims : option Claims) : web Response :=
  token ← app body;
  let actor := match claims with
    | Some cl => default (uuid_left (c_UserID cl)) (uuid_parse (c_UserID cl))
    | None => uuid_nil
    end in
  call (LogoutByRefreshToken s c token actor);;
  mret NoContent.

Definition handleVerify (c : IdentCtx) (body : Error + string) : web Response :=
  token ← app body;
  channel ← call (Verify s c token);
  mret (respond 200 (Some (json_object (member "channel" (json_string channel))))).

Definition handleVerificationResend (c : IdentCtx) (body : Error + resendVerificationRequest) : web Response :=
  req ← app body;
  '(channel, echo) ← call (ResendVerification s c (vq_Email req) (vq_Channel req));
  mret (respond 202 (resendResponse channel echo)).

Definition handleChangePassword (c : IdentCtx) (body : Error + changePasswordRequest) (claims : option Claims)
    : web Response :=
  '(_, userID) ← subject claims;
  req ← app body;
  call (ChangePassword s c userID (cq_CurrentPassword req) (cq_NewPassword req));;
  mret NoContent.

Definition handleProfile (claims : option Claims) : web Response :=
  '(_, userID) ← subject claims;
  user ← call (Profile userID);
  mret (respond 200 (Some (newUserResponse user))).

Definition handleListUsers (c : IdentCtx) (limit offset : string) (claims : option Claims) : web Response :=
  '(cl, actorID) ← subject claims;
  '(limit, offset) ← app (paginationFromQuery limit offset);
  tenantID ← app (tenantIDFromClaims cl);
  users ← call (ListUsersForAdmin c actorID tenantID limit offset);
  mret (respond 200 (Some (userListResponse users (clampLimit limit) (clampOffset offset)))).

Definition handleListAudit (q : auditQuery) (claims : option Claims) : web Response :=
  cl ← given claims authentication_required;
  filter ← app (auditFilterFromQuery q cl);
  records ← call (Ident_ListAudit filter);
  mret (respond 200 (auditListResponse records (af_Limit filter) (af_Offset filter))).

Definition handleListSessions (claims : option Claims) : web Response :=
  '(cl, userID) ← subject claims;
  sessions ← call (ListSessions userID);
  mret (respond 200 (Some (json_object
    (member "sessions" (json_array (map (newSessionResponse (c_SessionID cl)) sessions)))))).

Definition handleRevokeSession (c : IdentCtx) (raw : string) (claims : option Claims) : web Response :=
  '(_, userID) ← subject claims;
  sessionID ← given (uuid_parse raw)
    (ErrValidation "sessionID must be a UUID" [mkFieldError "sessionID" "invalid"]);
  call (Ident_RevokeSession c userID sessionID userID);;
  mret NoContent.

Definition handleRevokeAllSessions (c : IdentCtx) (claims : option Claims) : web Response :=
  '(_, userID) ← subject claims;
  revoked ← call (RevokeAllSessions c userID userID);
  mret (respond 200 (Some (json_object (member "revoked" (json_int (Z.of_nat revoked)))))).

(** [Issuer.JWKS] *)
Definition issuer_JWKS (i : Issuer) : option string := keys <$> is_signer i.

Definition handleJWKS : web Response :=
  keys ← given (issuer_JWKS (sv_issuer s))
    (ErrNotFound "no JWKS key set is configured (legacy HS256 signing)");
  mret (mkResponse 200 "application/json" keys).

(** ** The routes, behind their gates *)

Definition served : (option Claims → web Response) → Handler (W := ident_world) := answered domain_error.

Definition adminRoles : list string := [RoleAdmin; RoleSuperAdmin].

Inductive ident_request :=
  | RegisterCall (body : Error + registerRequest)
  | LoginCall (body : Error + loginRequest)
  | RefreshCall (body : Error + string)
  | LogoutCall (body : Error + string)
  | VerifyCall (body : Error + string)
  | ResendCall (body : Error + resendVerificationRequest)
  | PasswordCall (body : Error + changePasswordRequest)
  | ListSessionsCall
  | RevokeSessionCall (sessionID : string)
  | RevokeAllCall
  | JWKSCall
  | ProfileCall
  | ListUsersCall (limit offset : string)
  | ListAuditCall (q : auditQuery).

(** [platform.AuthLimiter] and the state it keeps: the answer to a request it refuses. *)
Definition AuthLimiter (L : Type) : Type := string → L → option Response * L.

Section Routes.
Context {L : Type} (limiter : option (AuthLimiter L)).

(** A handler that leaves the limiter alone. *)
Definition unthrottled (h : Handler (W := ident_world)) : Handler (W := L * ident_world) := λ claims '(l, w),
  let '(r, w) := h claims w in (r, (l, w)).

Definition throttle (r : origin) (h : Handler (W := ident_world)) : Handler (W := L * ident_world) := λ claims '(l, w),
  match limiter with
  | None => unthrottled h claims (l, w)
  | Some limit =>
      match limit (clientIP r) l with
      | (Some refusal, l) => (refusal, (l, w))
      | (None, l) => unthrottled h claims (l, w)
      end
  end.

(** What [Routes] registers for a request. *)
Definition ident_route (c : IdentCtx) (r : origin) (req : ident_request) : Handler (W := L * ident_world) :=
  match req with
  | RegisterCall body => throttle r (served (λ _, handleRegister c r body))
  | LoginCall body => throttle r (served (λ _, handleLogin c r body))
  | RefreshCall body => throttle r (served (λ _, handleRefresh c body))
  | LogoutCall body => throttle r (served (handleLogout c body))
  | VerifyCall body => throttle r (served (λ _, handleVerify c body))
  | ResendCall body => throttle r (served (λ _, handleVerificationResend c body))
  | PasswordCall body => RequireAuthenticated (throttle r (served (handleChangePassword c body)))
  | ListSessionsCall => RequireAuthenticated (unthrottled (served handleListSessions))
  | RevokeSessionCall id => RequireAuthenticated (unthrottled (served (handleRevokeSession c id)))
  | RevokeAllCall => RequireAuthenticated (unthrottled (served (handleRevokeAllSessions c)))
  | JWKSCall => unthrottled (served (λ _, handleJWKS))
  | ProfileCall => RequireAuthenticated (unthrottled (served handleProfile))
  | ListUsersCall limit offset => RequireRole adminRoles (unthrottled (served (handleListUsers c limit offset)))
  | ListAuditCall q => RequireRole adminRoles (unthrottled (served (handleListAudit q)))
  end.

End Routes.
End Http.

(** The in-process limiter, at the times it reads the clock. *)
Definition in_process (now clock : time) : AuthLimiter RateLimiter := λ key l,
  match Allow l key now with
  | (true, l) => (None, l)
  | (false, l) => (Some (too_many (RetryAfter l clock)).2, l)
  end.
