(* ===== verification/IdentWeb.v ===== *)
(** * IdentWeb: what the endpoints of the identity domain guarantee

    Who may change the database through them, that the endpoints which read never depend
    on credential material, and that the audit page of a tenant's administrator shows
    nothing of other tenants. *)

From Stdlib Require Import Ascii.
From S2P Require Import Prelude Hoare Text Sha256 Platform Sql Wire PayModels Base64.
From S2P Require Import IdentPassword IdentModels IdentStore IdentService IdentInvariant.
From S2P Require Import IdentProps IdentDemo Float64 Http Auth RateLimit IdentHttp.

Open Scope Z_scope.

(** ** Sorting commutes with a projection the order does not look through *)

Section SortMap.
Context {A B : Type} (f : A → B) (R : relation A) (R' : relation B).
Context `{∀ x y, Decision (R x y)} `{∀ x y, Decision (R' x y)}.
Context (Same : ∀ x y, R' (f x) (f y) ↔ R x y).

Lemma list_merge_fmap l1 : ∀ l2, f <$> list_merge R l1 l2 = list_merge R' (f <$> l1) (f <$> l2).
Proof using Same.
  induction l1 as [|x l1 IH1]; intros l2; [by destruct l2|].
  induction l2 as [|y l2 IH2]; [done|]. rewrite !fmap_cons in *.
  assert (∀ (T : Type) (a b : T), (if decide (R' (f x) (f y)) then a else b) = if decide (R x y) then a else b) as D.
  { intros T a b. destruct (decide (R x y)), (decide (R' (f x) (f y))); naive_solver. }
  change (list_merge R (x :: l1) (y :: l2)) with
    (if decide (R x y) then x :: list_merge R l1 (y :: l2) else y :: list_merge R (x :: l1) l2).
  change (list_merge R' (f x :: (f <$> l1)) (f y :: (f <$> l2))) with
    (if decide (R' (f x) (f y)) then f x :: list_merge R' (f <$> l1) (f y :: (f <$> l2))
     else f y :: list_merge R' (f x :: (f <$> l1)) (f <$> l2)).
  rewrite D. destruct (decide (R x y)); rewrite fmap_cons; f_equal; [apply (IH1 (y :: l2))|apply IH2].
Qed.

Definition image (o : option (list A)) : option (list B) := match o with Some l => Some (f <$> l) | None => None end.

Lemma merge_list_to_stack_fmap st : ∀ l,
  image <$> merge_list_to_stack R st l = merge_list_to_stack R' (image <$> st) (f <$> l).
Proof using Same.
  induction st as [|[l'|] st IH]; intros l; [done| |done]. cbn [merge_list_to_stack]. rewrite !fmap_cons.
  cbn [merge_list_to_stack image]. by rewrite IH, list_merge_fmap.
Qed.

Lemma merge_stack_fmap st : f <$> merge_stack R st = merge_stack R' (image <$> st).
Proof using Same.
  induction st as [|[l'|] st IH]; [done| |exact IH]. rewrite fmap_cons. cbn [merge_stack image].
  by rewrite list_merge_fmap, IH.
Qed.

Lemma merge_sort_fmap l : f <$> merge_sort R l = merge_sort R' (f <$> l).
Proof using Same.
  unfold merge_sort. change (@nil (option (list B))) with (image <$> @nil (option (list A))).
  generalize (@nil (option (list A))). induction l as [|x l IH]; intros st; [apply merge_stack_fmap|].
  rewrite fmap_cons. cbn [merge_sort_aux]. by rewrite IH, merge_list_to_stack_fmap.
Qed.

End SortMap.

Lemma page_fmap {A B} (f : A → B) limit offset l : f <$> page limit offset l = page limit offset (f <$> l).
Proof. unfold page. by rewrite fmap_take, fmap_drop. Qed.

Lemma filter_map {A B} (f : A → B) (p : B → bool) l :
  List.filter p (f <$> l) = f <$> List.filter (λ x, p (f x)) l.
Proof. induction l as [|x l IH]; [done|]. simpl. destruct (p (f x)); [|done]. cbn. by f_equal. Qed.

Lemma rows_fmap {A B} (f : A → B) (m : gmap uuid A) : (map_to_list (f <$> m)).*2 = f <$> (map_to_list m).*2.
Proof. rewrite map_to_list_fmap. rewrite <-!list_fmap_compose. by apply list_fmap_ext; intros ? []. Qed.

Section Web.
Context `{CaseMapping} `{Jwt} `{UuidText} `{Argon2} `{FloatText}.
Context (s : Service) (keys : JWTSigner → string) {L : Type} (limiter : option (AuthLimiter L)).

Abbreviation web A := (M ident_world (Error + IdentError) A) (only parsing).
Abbreviation route := (ident_route s keys limiter) (only parsing).

(** ** Credentials are never read out *)

Definition blank_user (u : user_row) : user_row :=
  mkUserRow (ur_id u) (ur_email u) (ur_phone u) "" (ur_full_name u) (ur_status u)
    (ur_email_verified_at u) (ur_phone_verified_at u) (ur_created_at u) (ur_updated_at u).

(** What is left of a database without its credential material: the password hashes, the
    digests of the refresh tokens and the verification tokens. *)
Definition scrub (d : ident_db) : ident_db :=
  mkIdentDB (blank_user <$> users d) (user_roles d) (without_token <$> sessions d) ∅ (audit_log d).
Definition scrubbed (w : ident_world) : ident_world := mkIdentWorld (scrub (iw_db w)) (iw_events w).

(** A run whose result does not depend on credentials. *)
Definition blind {E A} (c : M ident_world E A) : Prop := ∀ w, (c w).1 = (c (scrubbed w)).1.

Lemma blind_ret {E A} (a : A) : blind (E := E) (mret a).
Proof. done. Qed.
Lemma blind_sum {E A} (r : E + A) : blind (from_sum r).
Proof. done. Qed.
Lemma blind_option {E A} (o : option A) (e : E) : blind (from_option o e).
Proof. by destruct o. Qed.

Lemma blind_bind {E A B} (c : M ident_world E A) (f : A → M ident_world E B) :
  reads c → blind c → (∀ a, blind (f a)) → blind (c ≫= f).
Proof.
  intros R Bc Bf w. unfold mbind, M_bind. pose proof (R w) as R1. pose proof (R (scrubbed w)) as R2. specialize (Bc w).
  destruct (c w) as [r w1], (c (scrubbed w)) as [r' w2]. cbn in R1, R2, Bc. subst. destruct r'; [done|apply Bf].
Qed.

Lemma blind_wrap {E E' A} (g : E → E') (c : M ident_world E A) : blind c → blind (wrap g c).
Proof.
  intros B w. unfold wrap. specialize (B w). destruct (c w) as [[e|a] w1], (c (scrubbed w)) as [[e'|a'] w2]; by simplify_eq/=.
Qed.

Lemma blind_db {A} (c : M ident_db IdentError A) : (∀ d, (c d).1 = (c (scrub d)).1) → blind (on_db c).
Proof.
  intros B w. unfold on_db, zoom. specialize (B (iw_db w)). cbn [iw_db scrubbed].
  by destruct (c (iw_db w)), (c (scrub (iw_db w))).
Qed.

Lemma set_ident_db (w : ident_world) : mkIdentWorld (iw_db w) (iw_events w) = w.
Proof. by destruct w. Qed.

Lemma on_ident_db_reads {A} (c : M ident_db IdentError A) : reads c → reads (on_db c).
Proof. apply reads_zoom, set_ident_db. Qed.

Lemma GetUser_result id d : (GetUser id d).1 =
  match users d !! id with
  | Some row => inr (with_roles (rolesFromGrants (grants_of (ur_id row) d)) (scanUser row))
  | None => inl ErrUserNotFound
  end.
Proof. unfold GetUser. unfold_run_goal. by destruct (users d !! id). Qed.

Lemma GetUser_reads id : reads (GetUser id).
Proof. intros d. unfold GetUser. unfold_run_goal. by destruct (users d !! id). Qed.

Lemma Profile_reads id : reads (Profile id).
Proof.
  unfold Profile. apply reads_bind; [|intros ?; apply reads_ret].
  apply reads_wrap, on_ident_db_reads, GetUser_reads.
Qed.

(** The accounts as they are shown. *)
Lemma Profile_blind id : blind (Profile id).
Proof.
  intros w. unfold Profile, not_found_as, wrap, on_db, zoom, mbind, M_bind.
  pose proof (GetUser_result id (iw_db w)) as R. pose proof (GetUser_result id (scrub (iw_db w))) as R'.
  cbn [iw_db scrubbed]. destruct (GetUser id (iw_db w)) as [r d1], (GetUser id (scrub (iw_db w))) as [r' d2].
  cbn [fst] in R, R'. subst. cbn [users scrub]. rewrite lookup_fmap.
  destruct (users (iw_db w) !! id) as [row|]; [|done]. cbn. done.
Qed.

Definition listed (d : ident_db) (rows : list user_row) : list User :=
  let grants : gmap uuid (list RoleGrant) := list_to_map (map (λ id, (id, grants_of id d)) (map ur_id rows)) in
  map (λ row, with_roles (rolesFromGrants (default [] (grants !! ur_id row))) (scanUser row)) rows.

Lemma ListUsers_run limit offset d : ListUsers limit offset d =
  (inr (listed d (page limit offset (merge_sort users_order (map_to_list (users d)).*2))), d).
Proof. unfold ListUsers. unfold_run_goal. by destruct (page limit offset _). Qed.

Lemma user_rows_scrub limit offset d :
  page limit offset (merge_sort users_order (map_to_list (users (scrub d))).*2) =
  map blank_user (page limit offset (merge_sort users_order (map_to_list (users d)).*2)).
Proof.
  cbn [users scrub]. rewrite rows_fmap. change (map blank_user) with (fmap (M := list) blank_user).
  by rewrite page_fmap, (merge_sort_fmap blank_user users_order users_order (λ _ _, iff_refl _)).
Qed.

Lemma listed_blank d rows :
  map without_hash (listed (scrub d) (map blank_user rows)) = map without_hash (listed d rows).
Proof.
  unfold listed. cbv zeta. rewrite !map_map.
  replace (map ur_id (map blank_user rows)) with (map ur_id rows) by (rewrite map_map; by apply map_ext).
  apply map_ext. intros row. done.
Qed.

Lemma Ident_ListUsers_blind limit offset : blind (Ident_ListUsers limit offset).
Proof.
  intros w. unfold Ident_ListUsers, on_db, zoom, mbind, M_bind. rewrite !ListUsers_run. cbn [iw_db scrubbed fst].
  rewrite user_rows_scrub. by rewrite listed_blank.
Qed.

Lemma ListUsersForAdmin_blind c actor tenant limit offset : blind (ListUsersForAdmin c actor tenant limit offset).
Proof.
  unfold ListUsersForAdmin. apply blind_bind; [|apply Ident_ListUsers_blind|intros us w; reflexivity].
  intros w. unfold Ident_ListUsers, on_db, zoom, mbind, M_bind. rewrite ListUsers_run. apply set_ident_db.
Qed.

Lemma ListSessions_blind id : blind (ListSessions id).
Proof.
  intros w. unfold ListSessions, ListUserSessions, on_db, zoom, mbind, M_bind, gets. cbn [iw_db scrubbed fst sessions scrub].
  rewrite rows_fmap, (filter_map without_token). cbn [se_UserID without_token].
  rewrite <-(merge_sort_fmap without_token sessions_order sessions_order (λ _ _, iff_refl _)).
  change (map without_token) with (fmap (M := list) without_token). by rewrite <-list_fmap_compose.
Qed.

Lemma Ident_ListAudit_blind filter : blind (Ident_ListAudit filter).
Proof. intros w. reflexivity. Qed.

(** The endpoints that read, of the protected ones. *)
Definition is_read (r : ident_request) : bool :=
  match r with ListSessionsCall | ProfileCall | ListUsersCall _ _ | ListAuditCall _ => true | _ => false end.

Lemma subject_reads claims : reads (subject claims).
Proof. unfold subject. apply reads_bind; [apply reads_option|intros ?]. apply reads_bind; [apply reads_option|intros ?; apply reads_ret]. Qed.

Lemma subject_blind claims : blind (subject claims).
Proof.
  unfold subject. apply blind_bind; [apply reads_option|apply blind_option|intros cl].
  apply blind_bind; [apply reads_option|apply blind_option|intros u; apply blind_ret].
Qed.

Lemma Ident_ListAudit_reads filter : reads (Ident_ListAudit filter).
Proof. by apply on_ident_db_reads. Qed.

(** The response of a call that only projects its result. *)
Lemma blind_answer {A} (c : M ident_world IdentError A) (f : A → Response) :
  blind c → blind (call c ≫= λ a, mret (f a)).
Proof.
  intros B w. unfold call, wrap, mbind, M_bind. specialize (B w).
  destruct (c w) as [[e|a] w1], (c (scrubbed w)) as [[e'|a'] w2]; by simplify_eq/=.
Qed.

Lemma blind_handlers c :
  (∀ claims, blind (handleProfile claims)) ∧ (∀ claims, blind (handleListSessions claims)) ∧
  (∀ limit offset claims, blind (handleListUsers c limit offset claims)) ∧ (∀ q claims, blind (handleListAudit q claims)).
Proof.
  unfold handleProfile, handleListSessions, handleListUsers, handleListAudit.
  split_and!; intros; repeat match goal with
  | |- blind (subject _ ≫= _) => apply blind_bind; [apply subject_reads|apply subject_blind|intros ?]
  | |- blind (app _ ≫= _) => apply blind_bind; [apply reads_sum|apply blind_sum|intros ?]
  | |- blind (given _ _ ≫= _) => apply blind_bind; [apply reads_option|apply blind_option|intros ?]
  | |- blind (let '(_, _) := ?p in _) => destruct p
  end; apply blind_answer.
  - apply Profile_blind.
  - apply ListSessions_blind.
  - apply ListUsersForAdmin_blind.
  - apply Ident_ListAudit_blind.
Qed.

(** Two databases that differ only in credential material. *)
Definition same_but_credentials (w w' : ident_world) : Prop := scrubbed w = scrubbed w'.

Lemma unthrottled_answer (h : option Claims → web Response) claims (l : L) w w' : same_but_credentials w w' →
  (∀ cl, blind (h cl)) → (unthrottled (served h) claims (l, w)).1 = (unthrottled (served h) claims (l, w')).1.
Proof.
  intros S B. unfold unthrottled, served, answered, serve. pose proof (B claims w) as E. pose proof (B claims w') as E'.
  rewrite <-S in E'. rewrite <-E in E'. destruct (h claims w) as [r w1], (h claims w') as [r' w1']. cbn in E'. subst.
  by destruct r.
Qed.

(** C22. No endpoint that reads discloses credential material: whatever the password hashes,
    the digests of refresh tokens and the verification tokens in the database are, the
    profile, the session list, the account directory and the audit trail are answered the
    same, byte for byte. *)
Theorem credentials_never_read_out c r o claims l w w' : is_read r = true → same_but_credentials w w' →
  (route c o r claims (l, w)).1 = (route c o r claims (l, w')).1.
Proof.
  intros I S. destruct (blind_handlers c) as (B1 & B2 & B3 & B4).
  destruct r; try discriminate I; cbn [ident_route]; unfold RequireAuthenticated, RequireRole;
    (destruct claims; [|done]); try (destruct (existsb _ _); [|done]); apply unthrottled_answer; auto.
Qed.

(** ** The audit trail of a tenant *)

(** The rows of a tenant, in the order they were written. *)
Definition tenant_trail (t : uuid) (d : ident_db) : list AuditRecord :=
  List.filter (λ r, bool_decide (ar_TenantID r = Some t)) (audit_log d).

Lemma filter_filter {A} (p q : A → bool) l : List.filter p (List.filter q l) = List.filter (λ x, q x && p x) l.
Proof. induction l as [|x l IH]; [done|]. simpl. destruct (q x); [|done]. simpl. destruct (p x); by rewrite IH. Qed.

Lemma ListAudit_trail filter t d : af_TenantID filter = Some t →
  (ListAudit filter d).1 = inr (page (af_Limit (clamp filter)) (af_Offset (clamp filter))
    (merge_sort audit_order (List.filter (audit_matches (clamp filter)) (tenant_trail t d)))).
Proof.
  intros T. unfold ListAudit, gets, tenant_trail. cbv zeta. cbn [fst]. do 3 f_equal. rewrite filter_filter.
  apply filter_ext. intros r. unfold audit_matches. cbn [clamp af_TenantID]. rewrite T. cbn [if_set].
  destruct (bool_decide _); [done|]. cbn. by rewrite !andb_false_r.
Qed.

Lemma filter_tenant q cl tenant filter : audit_tenant (aq_tenant_id q) cl = inr tenant →
  (match auditFilterFromQuery q cl with inl e => inl (inl e) | inr f => inr f end : (Error + IdentError) + AuditFilter) = inr filter →
  af_TenantID filter = tenant.
Proof.
  intros A F. unfold auditFilterFromQuery in F. destruct (paginationFromQuery _ _) as [|[li of_]]; [done|]. rewrite A in F.
  repeat (case_match; [done|]). by simplify_eq/=.
Qed.

(** An administrator whose claims carry a tenant, and who is not a super administrator, is
    shown its tenant's rows of the audit trail and nothing else: databases with the same
    rows of the tenant, whatever else happened elsewhere, give the same response to every
    query, byte for byte, also to one that asks for another tenant. *)
Theorem audit_shows_own_tenant c o q cl t l w w' :
  c_Role cl ≠ RoleSuperAdmin → c_TenantID cl ≠ "" → uuid_parse (c_TenantID cl) = Some t →
  tenant_trail t (iw_db w) = tenant_trail t (iw_db w') →
  (route c o (ListAuditCall q) (Some cl) (l, w)).1 = (route c o (ListAuditCall q) (Some cl) (l, w')).1.
Proof.
  intros Role Ne P T. cbn [ident_route].
  assert (audit_tenant (aq_tenant_id q) cl = inr (Some t)) as A.
  { unfold audit_tenant, tenantIDFromClaims. apply String.eqb_neq in Role, Ne. by rewrite Role, andb_false_r, Ne, P. }
  assert (same (handleListAudit q (Some cl)) w w') as (r & E & E').
  { unfold handleListAudit. apply same_given, same_bind; [apply same_sum|intros filter F].
    assert (af_TenantID filter = Some t) as Ft by (eapply filter_tenant; [exact A|]; by injection F).
    apply same_bind; [|intros ? _; apply same_ret]. apply same_wrap, same_zoom; [apply set_ident_db|].
    exists (ListAudit (clamp filter) (iw_db w)).1. split; [done|].
    rewrite (ListAudit_trail (clamp filter) t (iw_db w) Ft), T. by rewrite <-(ListAudit_trail (clamp filter) t (iw_db w') Ft). }
  unfold RequireRole. destruct (existsb _ _); [|done].
  unfold unthrottled, served, answered, serve. rewrite E, E'. by destruct r.
Qed.

(** ** The subject's own rows *)

(** What may differ: the account [u], its sessions, and new audit rows. *)
Record only_own (u : uuid) (d d' : ident_db) : Prop := {
  oo_users : ∀ id, id ≠ u → users d' !! id = users d !! id;
  oo_sessions : ∀ id, (∀ x, sessions d !! id = Some x → se_UserID x ≠ u) → sessions d' !! id = sessions d !! id;
  oo_owner : ∀ id x', sessions d' !! id = Some x' → ∃ x, sessions d !! id = Some x ∧ se_UserID x' = se_UserID x;
  oo_roles : user_roles d' = user_roles d;
  oo_tokens : verification_tokens d' = verification_tokens d;
  oo_audit : ∃ l, audit_log d' = audit_log d ++ l;
}.

Lemma only_own_refl u d : only_own u d d.
Proof. constructor; eauto. exists []. by rewrite app_nil_r. Qed.

Lemma only_own_trans u d1 d2 d3 : only_own u d1 d2 → only_own u d2 d3 → only_own u d1 d3.
Proof.
  intros [U1 S1 O1 R1 T1 (l1 & A1)] [U2 S2 O2 R2 T2 (l2 & A2)]. constructor.
  - intros id N. by rewrite U2, U1.
  - intros id N. rewrite S2, S1; [done|done|]. intros x K. rewrite S1 in K by done. by eapply N.
  - intros id x3 K. destruct (O2 _ _ K) as (x2 & L2 & ->). destruct (O1 _ _ L2) as (x1 & L1 & ->). by exists x1.
  - congruence.
  - congruence.
  - exists (l1 ++ l2). by rewrite A2, A1, app_assoc.
Qed.

(** The run of [c] from [w] leaves everything else alone. *)
Definition own {E A} (u : uuid) (c : M ident_world E A) (w : ident_world) : Prop := only_own u (iw_db w) (iw_db (c w).2).

Lemma own_bind {E A B} u (c : M ident_world E A) (f : A → M ident_world E B) w :
  own u c w → (∀ a, (c w).1 = inr a → own u (f a) (c w).2) → own u (c ≫= f) w.
Proof.
  unfold own, mbind, M_bind. intros O F. destruct (c w) as [[e|a] w1]; [done|].
  eapply only_own_trans; [exact O|by apply F].
Qed.

Lemma own_reads {E A} u (c : M ident_world E A) w : (c w).2 = w → own u c w.
Proof. unfold own. intros ->. apply only_own_refl. Qed.

Lemma own_read {E A B} u (c : M ident_world E A) (f : A → M ident_world E B) w :
  (c w).2 = w → (∀ a, (c w).1 = inr a → own u (f a) w) → own u (c ≫= f) w.
Proof. intros R F. apply own_bind; [by apply own_reads|]. by rewrite R. Qed.

Lemma own_wrap {E E' A} u (g : E → E') (c : M ident_world E A) w : own u c w → own u (wrap g c) w.
Proof. unfold own, wrap. by destruct (c w) as [[e|a] w1]. Qed.

Lemma own_db {A} u (c : M ident_db IdentError A) w : only_own u (iw_db w) (c (iw_db w)).2 → own u (on_db c) w.
Proof. unfold own, on_db, zoom. by destruct (c (iw_db w)). Qed.

Lemma own_audit u now actor action ty id m w : own u (audit now actor action ty id m) w.
Proof.
  unfold audit, RecordAudit. do 2 (apply own_bind; [apply own_reads, reads_ensure|intros [] _]).
  apply own_db. unfold InsertAudit, with_audit. cbn. constructor; eauto; by eexists.
Qed.

Lemma RevokeUserSessions_own u now d : only_own u d (RevokeUserSessions now u d).2.
Proof.
  change (RevokeUserSessions now u d).2 with (with_sessions (fmap (λ x, if live_of u x then revoked now x else x)) d).
  constructor; cbn [users sessions user_roles verification_tokens audit_log with_sessions]; eauto.
  - intros id N. rewrite lookup_fmap. destruct (sessions d !! id) as [x|] eqn:Lx; [|done]. cbn. f_equal.
    unfold live_of. rewrite bool_decide_eq_false_2; [done|]. by eapply N.
  - intros id x'. rewrite lookup_fmap. destruct (sessions d !! id) as [x|]; [|done]. intros [= <-]. exists x.
    split; [done|]. by destruct (live_of u x).
  - exists []. by rewrite app_nil_r.
Qed.

Lemma RevokeSession_own u now id d x : sessions d !! id = Some x → se_UserID x = u → only_own u d (RevokeSession now id d).2.
Proof.
  intros Lx <-. unfold RevokeSession. unfold_run_goal. rewrite Lx. cbn.
  constructor; cbn [users sessions user_roles verification_tokens audit_log with_sessions]; eauto.
  - intros id' N. apply lookup_insert_ne. intros <-. by apply (N x).
  - intros id' x'. destruct (decide (id = id')) as [<-|Ne]; [rewrite lookup_insert_eq|rewrite lookup_insert_ne by done; eauto].
    intros [= <-]. by exists x.
  - exists []. by rewrite app_nil_r.
Qed.

Lemma RevokeAllSessions_own c u w : own u (RevokeAllSessions c u u) w.
Proof.
  unfold RevokeAllSessions. apply own_bind; [apply own_db, RevokeUserSessions_own|intros count _].
  apply own_bind; [apply own_audit|intros [] _; by apply own_reads].
Qed.

Lemma not_found_result {A} e (c : M ident_world IdentError A) w a :
  (not_found_as e c w).1 = inr a → (c w).1 = inr a.
Proof. unfold not_found_as, wrap. by destruct (c w) as [[?|?] ?]. Qed.

Lemma not_found_world {A} e (c : M ident_world IdentError A) w : (not_found_as e c w).2 = (c w).2.
Proof. unfold not_found_as, wrap. by destruct (c w) as [[?|?] ?]. Qed.

Lemma GetSessionByID_run id w : on_db (GetSessionByID id) w =
  (match sessions (iw_db w) !! id with Some x => inr x | None => inl ErrUserNotFound end, w).
Proof. unfold on_db, zoom, GetSessionByID. unfold_run_goal. destruct (sessions _ !! id); cbn; by rewrite set_ident_db. Qed.

Lemma Ident_RevokeSession_own c u id w : own u (Ident_RevokeSession c u id u) w.
Proof.
  unfold Ident_RevokeSession. apply own_read; [by rewrite not_found_world, GetSessionByID_run|].
  intros x Lx%not_found_result. rewrite GetSessionByID_run in Lx. cbn [fst] in Lx.
  destruct (sessions (iw_db w) !! id) as [x'|] eqn:F; [|done]. injection Lx as ->.
  apply own_read; [apply reads_ensure|]. intros [] En.
  assert (se_UserID x = u) as Ow.
  { destruct (bool_decide (se_UserID x = u)) eqn:B; [by apply bool_decide_eq_true_1 in B|done]. }
  apply own_bind; [apply own_wrap, own_db; by eapply RevokeSession_own|intros [] _; apply own_audit].
Qed.

Lemma UpdatePassword_own u now hash d : only_own u d (UpdatePassword now u hash d).2.
Proof.
  unfold UpdatePassword. unfold_run_goal. destruct (users d !! u) as [row|]; [|apply only_own_refl]. cbn.
  constructor; cbn [users sessions user_roles verification_tokens audit_log with_users]; eauto.
  - intros id N. by apply lookup_insert_ne.
  - exists []. by rewrite app_nil_r.
Qed.

Lemma checkPasswordBreach_world password w : (checkPasswordBreach s password w).2 = w.
Proof. unfold checkPasswordBreach. repeat case_match; done. Qed.

Lemma ChangePassword_own c u current new w : ident_ok (sv_issuer s) (iw_db w) → own u (ChangePassword s c u current new) w.
Proof.
  intros Ok. unfold ChangePassword. apply own_read.
  { rewrite not_found_world. apply on_ident_db_reads, GetUser_reads. }
  intros a G%not_found_result. assert (u_ID a = u) as Id.
  { unfold on_db, zoom in G. rewrite (GetUser_eq s) in G by done. cbn in G. destruct (users (iw_db w) !! u) as [row|] eqn:F; [|done].
    injection G as <-. destruct (io_user _ _ Ok _ _ F) as [<- _]. done. }
  rewrite Id. apply own_read; [apply reads_sum|intros ok _]. apply own_read; [apply reads_ensure|intros [] _].
  apply own_read; [apply checkPasswordBreach_world|intros note _].
  apply own_bind; [destruct (String.eqb note ""); [by apply own_reads|apply own_audit]|intros [] _].
  apply own_read; [apply reads_sum|intros hash _].
  apply own_bind; [apply own_db, UpdatePassword_own|intros [] _].
  apply own_bind; [apply own_db, RevokeUserSessions_own|intros count _]. apply own_audit.
Qed.

(** The calls that need a session or no secret at all: all but the six public ones. *)
Definition is_public (r : ident_request) : bool :=
  match r with
  | RegisterCall _ | LoginCall _ | RefreshCall _ | LogoutCall _ | VerifyCall _ | ResendCall _ => true
  | _ => false
  end.

Lemma ListUsersForAdmin_own c u actor tenant limit offset w : own u (ListUsersForAdmin c actor tenant limit offset) w.
Proof.
  unfold ListUsersForAdmin. apply own_read.
  { unfold Ident_ListUsers, on_db, zoom, mbind, M_bind. rewrite ListUsers_run. apply set_ident_db. }
  intros us _. apply own_bind; [|intros [] _; by apply own_reads].
  unfold RecordAudit. do 2 (apply own_read; [apply reads_ensure|intros [] _]).
  apply own_db. unfold InsertAudit, with_audit. cbn. constructor; eauto; by eexists.
Qed.

Lemma subject_run cl w : subject (Some cl) w =
  (match uuid_parse (c_UserID cl) with Some u => inr (cl, u) | None => inl (inl subject_invalid) end, w).
Proof. unfold subject, given, from_option, mbind, M_bind, mret, M_ret. by destruct (uuid_parse _). Qed.

Lemma own_subject {A} u cl (f : Claims * uuid → web A) w : uuid_parse (c_UserID cl) = Some u →
  own u (f (cl, u)) w → own u (subject (Some cl) ≫= f) w.
Proof.
  intros P O. apply own_read; [apply subject_reads|]. intros a. rewrite subject_run, P. by intros [= <-].
Qed.

Lemma own_answer {A} u (c : M ident_world IdentError A) (f : A → Response) w :
  own u c w → own u (call c ≫= λ a, mret (f a)) w.
Proof. intros O. apply own_bind; [by apply own_wrap|intros ? _; by apply own_reads]. Qed.

Lemma own_served u (h : option Claims → web Response) claims (l : L) w : own u (h claims) w →
  only_own u (iw_db w) (iw_db (unthrottled (served h) claims (l, w)).2.2).
Proof.
  unfold own, unthrottled, served, answered, serve. by destruct (h claims w) as [[e|a] w1].
Qed.

Lemma own_throttled u o (h : option Claims → web Response) claims (l : L) w : own u (h claims) w →
  only_own u (iw_db w) (iw_db (throttle s limiter o (served h) claims (l, w)).2.2).
Proof.
  intros O. unfold throttle. destruct limiter as [limit|]; [|by apply own_served].
  destruct (limit (clientIP s o) l) as [[refusal|] l1]; [apply only_own_refl|by apply own_served].
Qed.

(** C23. ** A session reaches only its own account

    A request that carries a token of the account [u] to any endpoint but the public ones,
    whatever its path and body name, leaves every other account, every session of another
    account, all grants and all verification tokens as they are; it may revoke its own
    sessions, change its own password and append to the audit log. *)
Theorem subject_touches_only_own c o r cl u l w :
  ident_reachable (sv_issuer s) (iw_db w) → uuid_parse (c_UserID cl) = Some u → is_public r = false →
  only_own u (iw_db w) (iw_db (route c o r (Some cl) (l, w)).2.2).
Proof.
  intros R P I. apply ident_reachable_ok in R.
  destruct r; try discriminate I; cbn [ident_route]; unfold RequireAuthenticated, RequireRole;
    try (destruct (existsb _ _); [|apply only_own_refl]); (apply own_throttled || apply own_served);
    unfold handleChangePassword, handleListSessions, handleRevokeSession, handleRevokeAllSessions, handleProfile,
      handleListUsers; try (apply own_subject; [exact P|]).
  - apply own_read; [apply reads_sum|intros ? _]. apply own_answer. by apply ChangePassword_own.
  - apply own_answer, own_reads. by destruct w.
  - apply own_read; [apply reads_option|intros ? _]. apply own_answer, Ident_RevokeSession_own.
  - apply own_answer, RevokeAllSessions_own.
  - apply own_reads. unfold handleJWKS. by destruct (issuer_JWKS _ _).
  - apply own_answer, own_reads, Profile_reads.
  - apply own_read; [apply reads_sum|intros [li of_] _]. apply own_read; [apply reads_sum|intros ? _].
    apply own_answer, ListUsersForAdmin_own.
  - apply own_reads. unfold handleListAudit. apply reads_bind; [apply reads_option|intros ?].
    apply reads_bind; [apply reads_sum|intros ?]. apply reads_bind; [apply reads_wrap, Ident_ListAudit_reads|intros ?; apply reads_ret].
Qed.

(** ** Who may change anything *)

(** What a handler keeps is that identity steps have led here from the database it began in. *)
Section From.
Context (d0 : ident_db) (R0 : ident_reachable (sv_issuer s) d0).

Abbreviation sound := (λ w, ident_steps (sv_issuer s) d0 (iw_db w)) (only parsing).

Lemma ident_from d : ident_steps (sv_issuer s) d0 d → ident_reachable (sv_issuer s) d.
Proof using R0. unfold ident_reachable, ident_steps in *. by etrans. Qed.

Lemma ident_triple_keeps {A} (c : M ident_world IdentError A) Q :
  triple iw_db (ident_ok (sv_issuer s)) (ident_step (sv_issuer s)) (λ _, True) c Q → keeps sound c.
Proof using R0.
  intros T w R. unfold ident_steps in *. etrans; [exact R|].
  apply (triple_steps iw_db _ (ident_step (sv_issuer s)) _ c _ w T); [by apply ident_reachable_ok, ident_from|done].
Qed.

(** A gate and a limiter around a handler: the invariant survives, and the world of the
    domain changes only for claims that [may]. *)
Definition guarded (may : option Claims → Prop) (h : Handler (W := L * ident_world)) : Prop :=
  ∀ claims l w, sound w → sound (h claims (l, w)).2.2 ∧ ((h claims (l, w)).2.2 ≠ w → may claims).

Lemma guarded_unthrottled may h : governed sound may h → guarded may (unthrottled h).
Proof. intros G claims l w R. unfold unthrottled. destruct (G claims w R). by destruct (h claims w). Qed.

Lemma guarded_throttle may o h : governed sound may h → guarded may (throttle s limiter o h).
Proof.
  intros G claims l w R. unfold throttle. destruct limiter as [limit|]; [|by apply guarded_unthrottled].
  destruct (limit (clientIP s o) l) as [[refusal|] l1]; [by split|by apply guarded_unthrottled].
Qed.

Lemma guarded_authenticated may h : guarded may h → guarded may (RequireAuthenticated h).
Proof. intros G [cl|] l w R; [by apply G|by split]. Qed.

Lemma guarded_role may roles h : guarded may h →
  guarded (λ claims, ∃ cl, claims = Some cl ∧ c_Role cl ∈ roles) (RequireRole roles h).
Proof.
  intros G claims l w R. destruct (RequireRole_cases roles h claims (l, w)) as [(cl & -> & I & ->)|[_ ->]]; [|by split].
  split; [by apply G|eauto].
Qed.

Definition has_subject (claims : option Claims) : Prop := ∃ cl u, claims = Some cl ∧ uuid_parse (c_UserID cl) = Some u.

(** Who may change anything with a call. *)
Definition may_touch (r : ident_request) (claims : option Claims) : Prop :=
  match r with
  | RegisterCall _ | LoginCall _ | RefreshCall _ | LogoutCall _ | VerifyCall _ | ResendCall _ => True
  | PasswordCall _ | RevokeSessionCall _ | RevokeAllCall => has_subject claims
  | ListUsersCall _ _ => ∃ cl, claims = Some cl ∧ c_Role cl ∈ adminRoles
  | ListSessionsCall | JWKSCall | ProfileCall | ListAuditCall _ => False
  end.

Lemma subject_governed (f : Claims * uuid → web Response) : (∀ p, keeps sound (f p)) →
  governed sound has_subject (served (λ claims, subject claims ≫= f)).
Proof.
  intros K. apply governed_answered.
  - intros claims. apply keeps_bind; [apply keeps_reads, subject_reads|exact K].
  - intros [cl|] w N; [|done]. exists cl. unfold mbind, M_bind in N. rewrite subject_run in N.
    destruct (uuid_parse (c_UserID cl)) as [u|] eqn:P; [by exists u|done].
Qed.

Lemma subject_reads_governed (f : Claims * uuid → web Response) : (∀ p, reads (f p)) →
  governed sound (λ _, False) (served (λ claims, subject claims ≫= f)).
Proof. intros K. apply governed_reads. intros claims. apply reads_bind; [apply subject_reads|exact K]. Qed.

Lemma keeps_answer {A} (c : M ident_world IdentError A) Q (f : A → Response) :
  triple iw_db (ident_ok (sv_issuer s)) (ident_step (sv_issuer s)) (λ _, True) c Q → keeps sound (call c ≫= λ a, mret (f a)).
Proof. intros T. apply keeps_bind; [apply keeps_wrap; by eapply ident_triple_keeps|intros ?; apply keeps_reads, reads_ret]. Qed.

Lemma reads_answer {A} (c : M ident_world IdentError A) (f : A → Response) : reads c → reads (call c ≫= λ a, mret (f a)).
Proof. intros R. apply reads_bind; [by apply reads_wrap|intros ?; apply reads_ret]. Qed.

(** The public endpoints: any request, one call of the service. *)
Lemma public_governed {A} (body : Error + A) (f : A → web Response) : (∀ a, keeps sound (f a)) →
  governed sound (λ _, True) (served (λ _, app body ≫= f)).
Proof. intros K. apply governed_any. intros _. apply keeps_bind; [apply keeps_reads, reads_sum|exact K]. Qed.

Lemma route_guarded c o r : guarded (may_touch r) (route c o r).
Proof.
  destruct r; cbn [ident_route may_touch].
  - apply guarded_throttle, public_governed. intros req. by eapply keeps_answer, Register_triple.
  - apply guarded_throttle, public_governed. intros req. by eapply keeps_answer, Login_triple.
  - apply guarded_throttle, public_governed. intros req. by eapply keeps_answer, RefreshTokens_triple, any_rotation.
  - apply guarded_throttle, governed_any. intros claims. apply keeps_bind; [apply keeps_reads, reads_sum|intros token].
    by eapply keeps_answer, LogoutByRefreshToken_triple.
  - apply guarded_throttle, public_governed. intros req. by eapply keeps_answer, Verify_triple.
  - apply guarded_throttle, public_governed. intros req. eapply keeps_bind; [|intros [channel echo]; apply keeps_reads, reads_ret].
    apply keeps_wrap. by eapply ident_triple_keeps, ResendVerification_triple.
  - apply guarded_authenticated, guarded_throttle, subject_governed. intros [cl u].
    apply keeps_bind; [apply keeps_reads, reads_sum|intros req]. by eapply keeps_answer, ChangePassword_triple.
  - apply guarded_authenticated, guarded_unthrottled, subject_reads_governed. intros [cl u].
    apply reads_answer. by intros [].
  - apply guarded_authenticated, guarded_unthrottled, subject_governed. intros [cl u].
    apply keeps_bind; [apply keeps_reads, reads_option|intros id]. by eapply keeps_answer, RevokeSession_triple.
  - apply guarded_authenticated, guarded_unthrottled, subject_governed. intros [cl u].
    by eapply keeps_answer, RevokeAllSessions_triple.
  - apply guarded_unthrottled, governed_reads. intros _. unfold handleJWKS. apply reads_bind; [apply reads_option|intros ?; apply reads_ret].
  - apply guarded_authenticated, guarded_unthrottled, subject_reads_governed. intros [cl u]. apply reads_answer, Profile_reads.
  - eapply guarded_role, guarded_unthrottled, subject_governed. intros [cl u].
    apply keeps_bind; [apply keeps_reads, reads_sum|intros [li of_]]. apply keeps_bind; [apply keeps_reads, reads_sum|intros t].
    by eapply keeps_answer, ListUsersForAdmin_triple.
  - intros claims l w R. assert (G : guarded (λ _, False) (unthrottled (served (handleListAudit q)))).
    { apply guarded_unthrottled, governed_reads. intros cl. apply reads_bind; [apply reads_option|intros ?].
      apply reads_bind; [apply reads_sum|intros ?]. apply reads_answer, Ident_ListAudit_reads. }
    unfold RequireRole. destruct claims as [cl|]; [|by split]. destruct (existsb _ _); [by apply G|by split].
Qed.

End From.

(** C21. ** The endpoints refine the identity steps

    Whatever is sent to whatever endpoint, by whomever, with whatever limiter in front, the
    steps the invariants hold for lead from the database that was to the database that is.
    Without a session only the six public endpoints change anything; passwords and sessions
    need an authenticated subject, and the directory, whose every page is audited, an
    administrator. *)
Theorem identity_endpoints_refine_steps c o r claims l w : ident_reachable (sv_issuer s) (iw_db w) →
  let out := route c o r claims (l, w) in
  ident_steps (sv_issuer s) (iw_db w) (iw_db out.2.2) ∧ ident_reachable (sv_issuer s) (iw_db out.2.2) ∧
  (out.2.2 ≠ w → may_touch r claims).
Proof.
  intros R. destruct (route_guarded _ R c o r claims l w (rtc_refl _ _)) as [St N].
  split; [exact St|]. split; [by eapply ident_from|exact N].
Qed.

End Web.

(** ** Concrete runs *)

#[local] Existing Instances IdentDemo.ascii_cases naming_jwt letter_ids digest_argon2.
#[local] Instance ident_numbers : FloatText :=
  { fmt_g := λ _, "0"; fmt_fixed := λ _ _, "0"; float_json := λ _, "0" }.

Definition someone (id : uuid) (tenant role session : string) : option Claims :=
  Some (mkClaims (uuid_string id) tenant role session 0 0).
Definition from_anywhere : origin := mkOrigin "" "192.0.2.1:4711".
Definition ident_answer (r : ident_request) (claims : option Claims) (w : ident_world) :=
  ident_route service (λ _, "{}") (L := unit) None (at_ 1300 60) from_anywhere r claims (tt, w).

(** The forwarded address counts only behind a trusted proxy. *)
Example client_addresses :
  clientIP service (mkOrigin " 203.0.113.9 , 10.0.0.1" "192.0.2.1:4711 ") = "192.0.2.1:4711" ∧
  clientIP (NewService (sv_issuer service) None [WithTrustForwarded true])
    (mkOrigin " 203.0.113.9 , 10.0.0.1" "192.0.2.1:4711 ") = "203.0.113.9".
Proof. split; vm_compute; reflexivity. Qed.

(** The account of the demo, with another password. *)
Definition repassworded_world : ident_world :=
  mkIdentWorld (with_users (insert ann (mkUserRow ann (ur_email ann_row) (ur_phone ann_row) "stolen" (ur_full_name ann_row)
    (ur_status ann_row) (ur_email_verified_at ann_row) (ur_phone_verified_at ann_row) (ur_created_at ann_row)
    (ur_updated_at ann_row))) registered_db) (iw_events registered_world).

Lemma credentials_never_read_out_witness :
  rs_Status (ident_answer ProfileCall (someone ann "" "CUSTOMER" "") registered_world).1 = 200 ∧
  (ident_answer ProfileCall (someone ann "" "CUSTOMER" "") registered_world).1 =
  (ident_answer ProfileCall (someone ann "" "CUSTOMER" "") repassworded_world).1.
Proof.
  split; [vm_compute; reflexivity|].
  apply (credentials_never_read_out service (λ _, "{}") None (at_ 1300 60) ProfileCall from_anywhere
    (someone ann "" "CUSTOMER" "") tt registered_world repassworded_world eq_refl).
  unfold same_but_credentials. vm_compute. reflexivity.
Defined.

(** An administrator of tenant 3 asks for the rows of tenant 4. *)
Definition foreign_query : auditQuery := mkAuditQuery (uuid_string 4%N) "" "" "" "" "" "" "1000" "".

Definition tenant_row : AuditRecord := mkAuditRecord 7 (Some ann) ActionUserLogin "user" "u" (Some 4%N) ∅ (1250 * second).
Definition busy_world : ident_world := mkIdentWorld (with_audit tenant_row registered_db) [].

Lemma audit_shows_own_tenant_witness :
  rs_Status (ident_answer (ListAuditCall foreign_query) (someone ann (uuid_string 3%N) "ADMIN" "") busy_world).1 = 200 ∧
  (ident_answer (ListAuditCall foreign_query) (someone ann (uuid_string 3%N) "ADMIN" "") busy_world).1 =
  (ident_answer (ListAuditCall foreign_query) (someone ann (uuid_string 3%N) "ADMIN" "") registered_world).1.
Proof.
  split; [vm_compute; reflexivity|].
  refine (audit_shows_own_tenant service (λ _, "{}") None (at_ 1300 60) from_anywhere foreign_query
    (mkClaims (uuid_string ann) (uuid_string 3%N) "ADMIN" "" 0 0) 3%N tt busy_world registered_world _ _ _ _).
  - discriminate.
  - discriminate.
  - vm_compute. reflexivity.
  - vm_compute. reflexivity.
Defined.

(** A super administrator whose claims carry tenant 3 is shown the row of tenant 4. *)
Example super_admin_leaves_its_tenant :
  (ident_answer (ListAuditCall foreign_query) (someone ann (uuid_string 3%N) "SUPER_ADMIN" "") busy_world).1 =
  mkResponse 200 "application/json" (default "" (auditListResponse [tenant_row] 1000 0)).
Proof. vm_compute. reflexivity. Qed.

(** The page is echoed as it was asked for, not as it was cut. *)
Example audit_limit_echoed :
  af_Limit (clamp (mkAuditFilter None "" "" "" None None None 1000 0)) = 100 ∧
  (ident_answer (ListAuditCall foreign_query) (someone ann (uuid_string 3%N) "ADMIN" "") busy_world).1 =
  mkResponse 200 "application/json" (default "" (auditListResponse [] 1000 0)).
Proof. split; vm_compute; reflexivity. Qed.

(** A session of the account revoked by an account 99 that exists nowhere. *)
Lemma subject_touches_only_own_witness :
  only_own 99%N registered_db
    (iw_db (ident_answer (RevokeSessionCall (uuid_string 11%N)) (someone 99%N "" "CUSTOMER" "") registered_world).2.2) ∧
  rs_Status (ident_answer (RevokeSessionCall (uuid_string 11%N)) (someone 99%N "" "CUSTOMER" "") registered_world).1 = 404 ∧
  rs_Status (ident_answer (RevokeSessionCall (uuid_string 11%N)) (someone ann "" "CUSTOMER" "") registered_world).1 = 204.
Proof.
  split; [|split; vm_compute; reflexivity].
  apply (subject_touches_only_own service (λ _, "{}") None (at_ 1300 60) from_anywhere (RevokeSessionCall (uuid_string 11%N))
    (mkClaims (uuid_string 99%N) "" "CUSTOMER" "" 0 0) 99%N tt registered_world ident_registered); vm_compute; reflexivity.
Defined.

(** With the limiter in front: a second login within the minute is refused unseen. *)
Lemma identity_endpoints_refine_steps_witness :
  let one := NewRateLimiter 1 in
  let login := LoginCall (inr (mkLoginRequest "ann@example.com" "correct horse" "phone")) in
  let route := λ t w, ident_route service (λ _, "{}") (Some (in_process (1300 * second) (1300 * second)))
                        (at_ 1300 t) from_anywhere login None w in
  let first := route 60%N (one, registered_world) in
  rs_Status first.1 = 200 ∧ ident_steps (sv_issuer service) (iw_db registered_world) (iw_db first.2.2) ∧ rs_Status (route 70%N first.2).1 = 429.
Proof.
  cbn zeta. split; [vm_compute; reflexivity|]. split; [|vm_compute; reflexivity].
  exact (proj1 (identity_endpoints_refine_steps service (λ _, "{}") (Some (in_process (1300 * second) (1300 * second)))
    (at_ 1300 60) from_anywhere _ None _ registered_world ident_registered)).
Defined.
