(* ===== verification/Daraja.v ===== *)
(** * Daraja: the M-Pesa adapter ([backend/payments/daraja.go])

    The adapter behind the [Provider] interface: the cached OAuth token, the STK push, the
    status query, the reversal and the callback. The HTTP client and the remote side are
    the class [HttpClient] of [Http] over a state of their own; decoding a JSON response is the
    class [DarajaJSON]. Requests are rendered byte by byte. One reading of the clock per
    call, and [zone] is the offset of the process's time zone at an instant. *)

From Stdlib Require Import Ascii.
From S2P Require Import Prelude Text Sha256 Platform Money Wire PayMachine PayModels Webhook.
From S2P Require Import Providers Base64 Float64 Http.

Open Scope Z_scope.

(** ** Configuration *)

Definition defaultDarajaBaseURL : string := "https://api.safaricom.co.ke".
Definition darajaTokenRefreshBuffer : Z := 60 * second.
Definition maxDarajaFailureReasonLen : nat := maxWebhookFailureReason.

Record DarajaConfig := mkDarajaConfig {
  BaseURL : string;
  ConsumerKey : string;
  ConsumerSecret : string;
  Shortcode : string;
  Passkey : string;
  CallbackURL : string;
  Initiator : string;
  SecurityCredential : string;
  WebhookSecret : string;
}.

Definition DarajaConfigFromEnv (getenv : string → string) : DarajaConfig * bool :=
  let base := getenv "MOTIVRA_PAYMENTS_DARAJA_BASE_URL" in
  let cfg := mkDarajaConfig (if String.eqb base "" then defaultDarajaBaseURL else base)
    (getenv "MOTIVRA_PAYMENTS_DARAJA_CONSUMER_KEY")
    (getenv "MOTIVRA_PAYMENTS_DARAJA_CONSUMER_SECRET")
    (getenv "MOTIVRA_PAYMENTS_DARAJA_SHORTCODE")
    (getenv "MOTIVRA_PAYMENTS_DARAJA_PASSKEY")
    (getenv "MOTIVRA_PAYMENTS_DARAJA_CALLBACK_URL")
    (getenv "MOTIVRA_PAYMENTS_DARAJA_INITIATOR")
    (getenv "MOTIVRA_PAYMENTS_DARAJA_SECURITY_CREDENTIAL")
    (getenv "MOTIVRA_PAYMENTS_DARAJA_WEBHOOK_SECRET") in
  (cfg, negb (String.eqb (ConsumerKey cfg) "") && negb (String.eqb (ConsumerSecret cfg) "") &&
        negb (String.eqb (Shortcode cfg) "") && negb (String.eqb (Passkey cfg) "") &&
        negb (String.eqb (CallbackURL cfg) "")).

(** ** The answers *)

(** [json.Unmarshal] into the response types: the value, or the text of the error. A
    value that leaves a variable of the callback unset is [None]. *)
Record StkResponse := mkStkResponse {
  st_CheckoutRequestID : string;
  st_ResponseCode : string;
  st_ResponseDescription : string;
}.

Record StkQueryResponse := mkStkQueryResponse {
  sq_ResponseCode : string;
  sq_ResponseDescription : string;
  sq_ResultCode : string;
  sq_ResultDesc : string;
}.

Record ReversalResponse := mkReversalResponse {
  rv_ResponseCode : string;
  rv_ResponseDescription : string;
}.

(** The callback: items are a name and the bytes of a value. *)
Record darajaCallback := mkDarajaCallback {
  cb_CheckoutRequestID : string;
  cb_ResultCode : Z;
  cb_ResultDesc : string;
  cb_CallbackMetadata : option (list (string * string));
}.

Class DarajaJSON := {
  decode_grant : string → option (string * string);   (* access_token, expires_in *)
  decode_stk : string → string + StkResponse;
  decode_stk_query : string → string + StkQueryResponse;
  decode_reversal : string → string + ReversalResponse;
  decode_callback : string → option darajaCallback;
  decode_int64 : string → option Z;
  decode_text : string → option string;
  decode_int64_range : ∀ raw n, decode_int64 raw = Some n → in_int64 n;
}.

(** ** Texts *)

(** [base64.StdEncoding]: the unpadded encoding, padded. *)
Definition std_encode (s : string) : string :=
  let bytes := to_bytes s in
  EncodeToString RawStdEncoding bytes +:+
  match (length bytes mod 3)%nat with 1%nat => "==" | 2%nat => "=" | _ => "" end.

Definition upper_hex_char (c : ascii) : ascii :=
  let n := byte_of c in if ((97 <=? n) && (n <=? 102))%N then byte (n - 32) else c.
Definition upper_hex (s : string) : string := of_chars (map upper_hex_char (chars s)).

(** [url.QueryEscape] *)
Definition unreserved (c : ascii) : bool :=
  let n := byte_of c in
  (((65 <=? n) && (n <=? 90)) || ((97 <=? n) && (n <=? 122)) || ((48 <=? n) && (n <=? 57)) ||
   (n =? 45) || (n =? 95) || (n =? 46) || (n =? 126))%N.
Definition escape_char (c : ascii) : string :=
  if unreserved c then String c ""
  else if (byte_of c =? 32)%N then "+"
  else "%" +:+ upper_hex (hex_encode [byte_of c]).
Definition QueryEscape (s : string) : string :=
  foldr (λ c acc, escape_char c +:+ acc) "" (chars s).

(** [SetBasicAuth] *)
Definition basic_auth (user password : string) : string :=
  "Basic " +:+ std_encode (user +:+ ":" +:+ password).

Definition truncateForError (raw : string) : string := truncate 256 raw.

(** [fmt.Sprintf("%x", intentID[:4])], in capitals. *)
Definition darajaAccountReference (intentID : uuid) : string :=
  "MVR" +:+ upper_hex (hex_encode (take 4 (be_bytes 16 intentID))).

Definition darajaDescription (desc : string) : string :=
  let desc := truncate 60 desc in
  if String.eqb (TrimSpace desc) "" then "Motivra payment" else desc.

Definition truncateFailureReason (s : string) : string := truncate maxDarajaFailureReasonLen s.

(** The remainder of Go has the sign of the amount; only whether it is zero counts. *)
Definition darajaWholeKES (amount : Money) : ProviderError + Z :=
  if negb (Z.rem (AmountMinor amount) 100 =? 0)
  then inl (providerRejected ("daraja: " +:+ Money_String amount +:+
         " is not a whole-KES amount (M-Pesa carries no cents); use integer KES minor units divisible by 100"))
  else inr (Z.quot (AmountMinor amount) 100).

Definition darajaQueryOutcome (resultCode resultDesc : string) : QueryResult * bool :=
  if String.eqb resultCode "0"
  then (mkQueryResult TxSucceeded "" "" 0 CurrencyKES "" zero_time, true)
  else if existsb (String.eqb resultCode) ["1032"; "1037"; "1"; "2001"]
  then (mkQueryResult TxFailed "" "" 0 CurrencyKES (truncateFailureReason resultDesc) zero_time, true)
  else (mkQueryResult TxPending "" "" 0 CurrencyKES "" zero_time, false).

(** ** The adapter *)

(** The cached token; the mutex makes each access one step. *)
Record DarajaState (X : Type) := mkDarajaState {
  oauthToken : string;
  tokenExpiry : time;
  remote : X;
}.
Arguments mkDarajaState {X}. Arguments oauthToken {X}. Arguments tokenExpiry {X}. Arguments remote {X}.

Definition NewDarajaProvider {X} (x : X) : DarajaState X := mkDarajaState "" zero_time x.

Section Daraja.
Context `{HttpClient X} `{DarajaJSON}.
Context (quote : string → string).  (* the %q verb *)
Context (zone : time → Z).
Context (cfg : DarajaConfig).

Abbreviation adapter := (M (DarajaState X) ProviderError) (only parsing).

Definition darajaTimestamp (t : time) : string :=
  let local := t / second + zone t in
  let d := civil (local / 86400) in
  let s := local mod 86400 in
  fmt_year (year d) +:+ fmt_02d (month d) +:+ fmt_02d (dom d) +:+
  fmt_02d (s / 3600) +:+ fmt_02d (s / 60 mod 60) +:+ fmt_02d (s mod 60).

Definition darajaPassword (shortcode passkey : string) (t : time) : string :=
  std_encode (shortcode +:+ passkey +:+ darajaTimestamp t).

(** [p.http.Do] *)
Definition send (request : HttpRequest) : adapter (string + HttpAnswer) := λ s,
  let '(r, x) := exchange request (remote s) in
  (inr r, mkDarajaState (oauthToken s) (tokenExpiry s) x).

Definition success_status (status : Z) : bool := negb ((status <? 200) || (299 <? status)).

(** The lifetime of a granted token in seconds, and in nanoseconds less the buffer. *)
Definition granted_secs (expires_in : string) : Z :=
  match ParseInt expires_in with Some s => if s <=? 0 then 3599 else s | None => 3599 end.
Definition token_lifetime (expires_in : string) : Z :=
  int64 (int64 (granted_secs expires_in * second) - darajaTokenRefreshBuffer).

Definition oauth_url : string := BaseURL cfg +:+ "/oauth/v1/generate?grant_type=client_credentials".

Definition oauth_request : HttpRequest :=
  mkHttpRequest "GET" oauth_url
    [("Authorization", basic_auth (QueryEscape (ConsumerKey cfg)) (QueryEscape (ConsumerSecret cfg)))] "".

Definition cachedToken (now : time) : adapter string :=
  s ← get;
  if negb (String.eqb (oauthToken s) "") && (now <? tokenExpiry s) then mret (oauthToken s)
  else
    match bad_request oauth_url with
    | Some e => throw (providerUnavailable ("build oauth request: " +:+ e))
    | None =>
        answer ← send oauth_request;
        match answer with
        | inl e => throw (providerUnavailable ("oauth call failed: " +:+ e))
        | inr resp =>
            match read_all 65536 resp with
            | inl e => throw (providerUnavailable ("read oauth response: " +:+ e))
            | inr raw =>
                ensure (success_status (ha_Status resp))
                  (providerUnavailable ("oauth returned " +:+ pretty (ha_Status resp)));;
                match decode_grant raw with
                | None => throw (providerRejected "oauth response is malformed")
                | Some (token, expires_in) =>
                    ensure (negb (String.eqb token "")) (providerRejected "oauth response is malformed");;
                    modify (λ s, mkDarajaState token (now + token_lifetime expires_in) (remote s));;
                    mret token
                end
            end
        end
    end.

Definition post_request (path token body : string) : HttpRequest :=
  mkHttpRequest "POST" (BaseURL cfg +:+ path)
    [("Authorization", "Bearer " +:+ token); ("Content-Type", "application/json")] body.

Definition postJSON {A} (now : time) (path body : string) (decode : string → string + A) : adapter A :=
  token ← cachedToken now;
  match bad_request (BaseURL cfg +:+ path) with
  | Some e => throw (providerUnavailable ("build " +:+ path +:+ " request: " +:+ e))
  | None =>
      answer ← send (post_request path token body);
      match answer with
      | inl e => throw (providerUnavailable (path +:+ " call failed: " +:+ e))
      | inr resp =>
          match read_all 262144 resp with
          | inl e => throw (providerUnavailable ("read " +:+ path +:+ " response: " +:+ e))
          | inr raw =>
              if negb (success_status (ha_Status resp)) then
                if 500 <=? ha_Status resp
                then throw (providerUnavailable (path +:+ " returned " +:+ pretty (ha_Status resp)))
                else throw (providerRejected (path +:+ " returned " +:+ pretty (ha_Status resp) +:+ ": " +:+
                       truncateForError raw))
              else
                match decode raw with
                | inl e => throw (providerRejected (path +:+ " response is malformed: " +:+ e))
                | inr v => mret v
                end
          end
      end
  end.

Definition stk_path : string := "/mpesa/stkpush/v1/processrequest".
Definition query_path : string := "/mpesa/stkpushquery/v1/query".
Definition reversal_path : string := "/mpesa/reversal/v1/request".

(** The payload, and [json.Marshal] of a map: its keys in order. *)
Definition stk_members (now : time) (req : InitiateRequest) (wholeKES : Z) : list (string * string) :=
  member "AccountReference" (json_string (darajaAccountReference (iq_IntentID req))) ++
  member "Amount" (json_int wholeKES) ++
  member "BusinessShortCode" (json_string (Shortcode cfg)) ++
  member "CallBackURL" (json_string (CallbackURL cfg)) ++
  member "PartyA" (json_string (iq_PayerPhone req)) ++
  member "PartyB" (json_string (Shortcode cfg)) ++
  member "Password" (json_string (darajaPassword (Shortcode cfg) (Passkey cfg) now)) ++
  member "PhoneNumber" (json_string (iq_PayerPhone req)) ++
  member "Timestamp" (json_string (darajaTimestamp now)) ++
  member "TransactionDesc" (json_string (darajaDescription (iq_Description req))) ++
  member "TransactionType" (json_string "CustomerPayBillOnline").

Definition stk_payload (now : time) (req : InitiateRequest) (wholeKES : Z) : string :=
  json_object (stk_members now req wholeKES).

Definition daraja_Initiate (now : time) (req : InitiateRequest) : adapter InitiateResult :=
  ensure (negb (bool_decide (iq_IntentID req = uuid_nil) || bool_decide (iq_TransactionID req = uuid_nil)))
    (providerRejected "daraja: intent_id and transaction_id are required");;
  match Validate (iq_Amount req) with
  | Some err => throw (providerRejected ("daraja: " +:+ validate_text quote (iq_Amount req) err))
  | None =>
      ensure (negb (String.eqb (TrimSpace (iq_PayerPhone req)) ""))
        (providerRejected "daraja: payer_phone is required for STK push");;
      wholeKES ← from_sum (darajaWholeKES (iq_Amount req));
      resp ← postJSON now stk_path (stk_payload now req wholeKES) decode_stk;
      ensure (String.eqb (st_ResponseCode resp) "0")
        (providerRejected ("daraja: STK push refused: " +:+ st_ResponseDescription resp));;
      ensure (negb (String.eqb (st_CheckoutRequestID resp) ""))
        (providerRejected "daraja: STK push response carries no CheckoutRequestID");;
      mret (mkInitiateResult TxPending (st_CheckoutRequestID resp) "")
  end.

Definition query_payload (now : time) (providerRef : string) : string :=
  json_object (
    member "BusinessShortCode" (json_string (Shortcode cfg)) ++
    member "CheckoutRequestID" (json_string providerRef) ++
    member "Password" (json_string (darajaPassword (Shortcode cfg) (Passkey cfg) now)) ++
    member "Timestamp" (json_string (darajaTimestamp now))).

Definition daraja_Query (now : time) (providerRef : string) : adapter QueryResult :=
  ensure (negb (String.eqb (TrimSpace providerRef) "")) (providerRejected "daraja: provider_ref is required");;
  resp ← postJSON now query_path (query_payload now providerRef) decode_stk_query;
  ensure (String.eqb (sq_ResponseCode resp) "0")
    (providerRejected ("daraja: status query refused: " +:+ sq_ResponseDescription resp));;
  let result := (darajaQueryOutcome (sq_ResultCode resp) (sq_ResultDesc resp)).1 in
  mret (mkQueryResult (qr_Status result) providerRef (qr_ProviderTransactionRef result)
          (qr_AmountMinor result) (qr_Currency result) (qr_FailureReason result) now).

Definition reversal_payload (req : RefundRequest) (wholeKES : Z) : string :=
  json_object (
    member "Amount" (json_int wholeKES) ++
    member "CommandID" (json_string "TransactionReversal") ++
    member "Initiator" (json_string (Initiator cfg)) ++
    member "QueueTimeOutURL" (json_string (CallbackURL cfg)) ++
    member "ReceiverParty" (json_string (Shortcode cfg)) ++
    member "RecieverIdentifierType" (json_string "11") ++
    member "Remarks" (json_string (darajaDescription (rq_Reason req))) ++
    member "ResultURL" (json_string (CallbackURL cfg)) ++
    member "SecurityCredential" (json_string (SecurityCredential cfg)) ++
    member "TransactionID" (json_string (rq_ProviderRef req))).

Definition daraja_Refund (now : time) (req : RefundRequest) : adapter RefundResult :=
  ensure (negb (bool_decide (rq_RefundID req = uuid_nil) || bool_decide (rq_IntentID req = uuid_nil)))
    (providerRejected "daraja: refund_id and intent_id are required");;
  match Validate (rq_Amount req) with
  | Some err => throw (providerRejected ("daraja: " +:+ validate_text quote (rq_Amount req) err))
  | None =>
      ensure (negb (String.eqb (Initiator cfg) "" || String.eqb (SecurityCredential cfg) ""))
        (providerRejected "daraja: reversal credentials are not configured (owner action)");;
      ensure (negb (String.eqb (TrimSpace (rq_ProviderRef req)) ""))
        (providerRejected "daraja: the original payment's provider_ref is required for reversal");;
      wholeKES ← from_sum (darajaWholeKES (rq_Amount req));
      resp ← postJSON now reversal_path (reversal_payload req wholeKES) decode_reversal;
      mret (if String.eqb (rv_ResponseCode resp) "0"
            then mkRefundResult RefundCompleted (rq_ProviderRef req) ""
            else mkRefundResult RefundFailed "" (truncateFailureReason (rv_ResponseDescription resp)))
  end.

(** *** The callback *)

(** One turn of the loop over the items: the amount and the receipt. A value of another
    type leaves the variable as it was. *)
Definition scan_item (acc : Z * string) (item : string * string) : Z * string :=
  if String.eqb item.1 "Amount" then (default acc.1 (decode_int64 item.2), acc.2)
  else if String.eqb item.1 "MpesaReceiptNumber" then (acc.1, default acc.2 (decode_text item.2))
  else acc.

Definition callback_payload (now : time) (cb : darajaCallback) : WebhookError + WebhookPayload :=
  let '(amount, receipt) :=
    match cb_CallbackMetadata cb with Some items => fold_left scan_item items (0, "") | None => (0, "") end in
  let amountMinor := int64 (amount * 100) in
  let payload event reason := mkWebhookPayload event ProviderDaraja uuid_nil uuid_nil
    (cb_CheckoutRequestID cb) receipt amountMinor CurrencyKES reason now in
  if cb_ResultCode cb =? 0 then
    if amountMinor <=? 0 then inl (WebhookContent AmountNotPositive)
    else inr (payload WebhookEventTransactionSucceeded "")
  else inr (payload WebhookEventTransactionFailed (truncateFailureReason (cb_ResultDesc cb))).

Definition daraja_WebhookEvent (header : Header) (body : string) (now : time) : WebhookError + WebhookPayload :=
  match verifyWebhookSignature (WebhookSecret cfg) body (header_Get header WebhookSignatureHeader) now with
  | Some err => inl (WebhookUnauthorized err)
  | None =>
      match decode_callback body with
      | None => inl (WebhookContent InvalidJSON)
      | Some cb =>
          if String.eqb (cb_CheckoutRequestID cb) "" then inl (WebhookContent ReferenceMissing)
          else callback_payload now cb
      end
  end.

Definition DarajaProvider (now : time) : Provider (DarajaState X) :=
  mkProvider ProviderDaraja (daraja_Initiate now) (daraja_Query now) (daraja_Refund now) daraja_WebhookEvent.

End Daraja.

(** ** Examples *)

Example timestamp_format : darajaTimestamp (λ _, 0) 1767366245000000000 = "20260102150405".
Proof. vm_compute. reflexivity. Qed.

Example password_format : darajaPassword (λ _, 0) "174379" "passkey" 1767366245000000000 =
  "MTc0Mzc5cGFzc2tleTIwMjYwMTAyMTUwNDA1".
Proof. vm_compute. reflexivity. Qed.

Example account_reference : darajaAccountReference 0xabcdef01_00000000_00000000_00000001 = "MVRABCDEF01".
Proof. vm_compute. reflexivity. Qed.

Example escaped_key : QueryEscape "a key/1+2" = "a+key%2F1%2B2".
Proof. vm_compute. reflexivity. Qed.
