(* ===== verification/DarajaProps.v ===== *)
(** * DarajaProps: what the M-Pesa adapter guarantees

    The contract of a provider, the money it moves, the tokens it uses, and what becomes
    of a callback that reports a failure. The exchanges of the adapter are observed by a
    client that records them with the time of the call. *)

From Stdlib Require Import Ascii.
From stdpp Require Import relations.
From S2P Require Import Prelude Text Sha256 Platform Sql Money Wire PayMachine PayModels PayStore PayLedger.
From S2P Require Import PayInvariant PayLedgerProps Webhook Providers PayService PayRefine PayServiceProps.
From S2P Require Import Base64 Float64 Http Daraja.

Open Scope Z_scope.

(** ** The contract *)

Section Contract.
Context `{HttpClient X} `{DarajaJSON} (quote : string → string) (zone : time → Z) (cfg : DarajaConfig).

#[export] Instance daraja_contract now : ProviderContract (DarajaProvider quote zone cfg now).
Proof.
  split; cbn.
  - intros req s res s' R. unfold daraja_Initiate in R.
    apply bind_inv in R as [(? & _ & ?)|([] & s1 & _ & R)]; [done|].
    destruct (Validate (iq_Amount req)); [done|].
    do 5 (apply bind_inv in R as [(? & _ & ?)|(? & ? & _ & R)]; [done|]).
    by injection R as <- <-.
  - intros ref s res s' R. unfold daraja_Query in R.
    do 3 (apply bind_inv in R as [(? & _ & ?)|(? & ? & _ & R)]; [done|]).
    injection R as <- <-. cbn. unfold darajaQueryOutcome. repeat case_match; cbn; auto.
  - intros h body now' payload E. unfold daraja_WebhookEvent in E.
    destruct (verifyWebhookSignature _ _ _ _); [done|]. destruct (decode_callback body) as [cb|]; [|done].
    destruct (String.eqb_spec (cb_CheckoutRequestID cb) ""); [done|].
    unfold callback_payload in E. destruct (match cb_CallbackMetadata cb with _ => _ end) as [amount receipt].
    repeat case_match; simplify_eq/=; auto.
Qed.

End Contract.

(** ** Recorded exchanges *)

Record exchanged := mkExchanged {
  ex_time : time;
  ex_request : HttpRequest;
  ex_answer : string + HttpAnswer;
}.

(** The client of a call at [now], with the record of all exchanges so far. *)
Definition recording {X} (client : HttpClient X) (now : time) : HttpClient (X * list exchanged) := {|
  bad_request := bad_request (X := X);
  exchange request s :=
    let '(r, x) := exchange request s.1 in (r, (x, s.2 ++ [mkExchanged now request r]));
|}.

Section Daraja.
Context {X : Type} {client : HttpClient X} `{DarajaJSON}.
Context (quote : string → string) (zone : time → Z) (cfg : DarajaConfig).

Abbreviation state := (DarajaState (X * list exchanged)) (only parsing).
Abbreviation log s := ((remote s).2) (only parsing).

Definition daraja (now : time) : Provider state := @DarajaProvider _ (recording client now) _ quote zone cfg now.

#[local] Arguments TrimSpace : simpl never.

(** *** Runs of the helpers *)

(** An exchange that grants a token, and how long after it the token may be used. *)
Definition grants (g : exchanged) (token expires_in : string) : Prop :=
  ex_request g = oauth_request cfg ∧ ∃ resp raw, ex_answer g = inr resp ∧
    success_status (ha_Status resp) = true ∧ read_all 65536 resp = inr raw ∧
    decode_grant raw = Some (token, expires_in).

(** How the token of a call was got: from the cache, or by one exchange. *)
Definition token_source (now : time) (s s' : state) (token : string) (new : list exchanged) : Prop :=
  (new = [] ∧ s' = s ∧ token = oauthToken s ∧ token ≠ "" ∧ now < tokenExpiry s) ∨
  ∃ g expires_in, new = [g] ∧ ex_time g = now ∧ grants g token expires_in ∧ token ≠ "" ∧
    oauthToken s' = token ∧ tokenExpiry s' = now + token_lifetime expires_in.

(** A call that got no token: the cached one is as it was, and at most the token was asked
    for. *)
Definition no_token (now : time) (s s' : state) (new : list exchanged) : Prop :=
  oauthToken s' = oauthToken s ∧ tokenExpiry s' = tokenExpiry s ∧
  (new = [] ∨ ∃ a, new = [mkExchanged now (oauth_request cfg) a]).

Lemma cachedToken_run now (s s' : state) r :
  @cachedToken _ (recording client now) _ cfg now s = (r, s') →
  ∃ new, log s' = log s ++ new ∧
    match r with inr token => token_source now s s' token new | inl _ => no_token now s s' new end.
Proof.
  unfold cachedToken. intros R. unfold_run R.
  destruct (negb (String.eqb (oauthToken s) "") && (now <? tokenExpiry s)) eqn:C.
  { injection R as <- <-. exists []. rewrite app_nil_r. split; [done|]. left. props. done. }
  destruct (bad_request (oauth_url cfg)) as [e|].
  { injection R as <- <-. exists []. rewrite app_nil_r. split; [done|]. split_and!; auto. }
  unfold send in R. cbn [exchange recording] in R.
  destruct (exchange (oauth_request cfg) (remote s).1) as [[e|resp] x] eqn:Ex; cbn in R.
  { injection R as <- <-. eexists. split; [done|]. split_and!; eauto. }
  destruct (read_all 65536 resp) as [e|raw] eqn:Rd.
  { injection R as <- <-. eexists. split; [done|]. split_and!; eauto. }
  destruct (success_status (ha_Status resp)) eqn:St; cbn in R.
  2: { injection R as <- <-. eexists. split; [done|]. split_and!; eauto. }
  destruct (decode_grant raw) as [[token expires_in]|] eqn:G; cbn in R.
  2: { injection R as <- <-. eexists. split; [done|]. split_and!; eauto. }
  destruct (String.eqb_spec token "") as [|Ne]; cbn in R.
  { injection R as <- <-. eexists. split; [done|]. split_and!; eauto. }
  injection R as <- <-. eexists. split; [done|]. right. eexists _, expires_in.
  split_and!; [done..| |done|done|done]. split; [done|]. eauto 6.
Qed.

(** A call of the API: no token, no request, or one request with the token and its
    answer. *)
Definition posted (now : time) (path body : string) (s s' : state) (new : list exchanged)
    (answer : string + HttpAnswer) : Prop :=
  ∃ s1 token before, token_source now s s1 token before ∧
    oauthToken s' = oauthToken s1 ∧ tokenExpiry s' = tokenExpiry s1 ∧
    new = before ++ [mkExchanged now (post_request cfg path token body) answer].

Definition not_posted (now : time) (s s' : state) (new : list exchanged) : Prop :=
  no_token now s s' new ∨ ∃ token, token_source now s s' token new.

Lemma postJSON_run {A} now path body (decode : string → string + A) (s s' : state) r :
  @postJSON _ (recording client now) _ cfg A now path body decode s = (r, s') →
  ∃ new, log s' = log s ++ new ∧
    match r with
    | inr v => ∃ resp raw, posted now path body s s' new (inr resp) ∧
        success_status (ha_Status resp) = true ∧ read_all 262144 resp = inr raw ∧ decode raw = inr v
    | inl _ => not_posted now s s' new ∨ ∃ answer, posted now path body s s' new answer
    end.
Proof.
  unfold postJSON. intros R. apply bind_inv in R as [(e & T & ->)|(token & s1 & T & R)].
  { apply cachedToken_run in T as (new & L & T). exists new. split; [done|]. by do 2 left. }
  apply cachedToken_run in T as (before & L & T).
  destruct (bad_request (BaseURL cfg +:+ path)) as [e|].
  { injection R as <- <-. exists before. split; [done|]. left. right. eauto. }
  unfold_run R. unfold send in R. cbn [exchange recording] in R.
  destruct (exchange (post_request cfg path token body) (remote s1).1) as [answer x] eqn:Ex. cbn in R.
  assert (P : ∀ r' s2, (r', s2) = (r, s') → s2 = mkDarajaState (oauthToken s1) (tokenExpiry s1)
      (x, log s1 ++ [mkExchanged now (post_request cfg path token body) answer]) →
    log s' = log s ++ (before ++ [mkExchanged now (post_request cfg path token body) answer]) ∧
    posted now path body s s' (before ++ [mkExchanged now (post_request cfg path token body) answer]) answer).
  { intros r' s2 [= -> ->] ->. cbn. rewrite L, <-app_assoc. split; [done|]. exists s1, token, before. done. }
  destruct answer as [e|resp]; [|destruct (read_all 262144 resp) as [e|raw] eqn:Rd].
  - destruct (P _ _ R eq_refl) as [Lg Po]. injection R as <- _. eauto.
  - destruct (P _ _ R eq_refl) as [Lg Po]. injection R as <- _. eauto.
  - destruct (success_status (ha_Status resp)) eqn:St; cbn in R.
    + destruct (decode raw) as [e|v] eqn:D; destruct (P _ _ R eq_refl) as [Lg Po]; injection R as <- _; eauto 8.
    + destruct (500 <=? ha_Status resp); destruct (P _ _ R eq_refl) as [Lg Po]; injection R as <- _; eauto.
Qed.

(** *** What reaches the payer *)

Lemma daraja_Initiate_run now req (s s' : state) r :
  Initiate (daraja now) req s = (r, s') →
  match r with
  | inr res => ∃ kes resp raw reply new, Validate (iq_Amount req) = None ∧ darajaWholeKES (iq_Amount req) = inr kes ∧
      log s' = log s ++ new ∧ posted now stk_path (stk_payload zone cfg now req kes) s s' new (inr resp) ∧
      success_status (ha_Status resp) = true ∧ read_all 262144 resp = inr raw ∧ decode_stk raw = inr reply ∧
      st_CheckoutRequestID reply ≠ "" ∧ res = mkInitiateResult TxPending (st_CheckoutRequestID reply) ""
  | inl e => s' = s ∨ ∃ kes new, Validate (iq_Amount req) = None ∧ darajaWholeKES (iq_Amount req) = inr kes ∧
      log s' = log s ++ new ∧ (not_posted now s s' new ∨
        ∃ answer, posted now stk_path (stk_payload zone cfg now req kes) s s' new answer)
  end.
Proof.
  cbn. unfold daraja_Initiate. intros R.
  apply bind_inv in R as [(e & R & ->)|([] & s1 & R0 & R)]; [apply ensure_inv in R as [-> _]; by left|].
  apply ensure_inv in R0 as [-> _].
  destruct (Validate (iq_Amount req)) eqn:V; [injection R as <- <-; by left|].
  apply bind_inv in R as [(e & R & ->)|([] & s1 & R0 & R)]; [apply ensure_inv in R as [-> _]; by left|].
  apply ensure_inv in R0 as [-> _].
  apply bind_inv in R as [(e & R & ->)|(kes & s1 & R0 & R)]; [injection R as _ <-; by left|].
  injection R0 as K <-.
  apply bind_inv in R as [(e & R & ->)|(reply & s1 & R0 & R)].
  { apply postJSON_run in R as (new & L & R). right. exists kes, new. auto. }
  apply postJSON_run in R0 as (new & L & resp & raw & Po & St & Rd & D).
  apply bind_inv in R as [(e & R & ->)|([] & s2 & R0 & R)].
  { apply ensure_inv in R as [-> _]. right. exists kes, new. eauto 8. }
  apply ensure_inv in R0 as [-> _].
  apply bind_inv in R as [(e & R & ->)|([] & s2 & R0 & R)].
  { apply ensure_inv in R as [-> _]. right. exists kes, new. eauto 8. }
  apply ensure_inv in R0 as [-> [[Ne _]|[_ ?]]]; [|done]. props.
  injection R as <- <-. exists kes, resp, raw, reply, new. done.
Qed.

Lemma whole_kes amount kes : legal amount → darajaWholeKES amount = inr kes →
  AmountMinor amount = kes * 100 ∧ 0 < kes.
Proof.
  intros [_ [P _]]. unfold darajaWholeKES. destruct (Z.eqb_spec (Z.rem (AmountMinor amount) 100) 0) as [R|]; [|done].
  intros [= <-]. pose proof (Z.quot_rem' (AmountMinor amount) 100). lia.
Qed.

(** The body asks [phone] for [kes] shillings, to be paid to the short code: no member is
    named twice, and these say so. *)
Definition asks_for (phone : string) (kes : Z) (body : string) : Prop :=
  ∃ members, body = json_object members ∧ NoDup members.*1 ∧
    ("Amount", json_int kes) ∈ members ∧ ("PartyA", json_string phone) ∈ members ∧
    ("PhoneNumber", json_string phone) ∈ members ∧ ("PartyB", json_string (Shortcode cfg)) ∈ members.

Lemma stk_asks now req kes : asks_for (iq_PayerPhone req) kes (stk_payload zone cfg now req kes).
Proof.
  exists (stk_members zone cfg now req kes). split_and!; [done| |unfold stk_members, member; set_solver..].
  refine (bool_decide_eq_true_1 _ _). vm_compute. reflexivity.
Qed.

(** C14. The body that is posted asks for exactly the amount of the transaction, in whole
    shillings, of its payer, and a signed success callback that names the push and that
    amount attests exactly the transaction's amount; an amount with cents is refused before
    anything is sent. *)
Theorem daraja_money_exact now req (s s' : state) r :
  in_int64 (AmountMinor (iq_Amount req)) → Initiate (daraja now) req s = (r, s') →
  match r with
  | inl _ => s' = s ∨ AmountMinor (iq_Amount req) mod 100 = 0
  | inr res => ∃ kes body new resp, AmountMinor (iq_Amount req) = 100 * kes ∧ 0 < kes ∧
      asks_for (iq_PayerPhone req) kes body ∧
      log s' = log s ++ new ∧ posted now stk_path body s s' new (inr resp) ∧
      is_ProviderRef res ≠ "" ∧
      ∀ now' cb items, cb_CheckoutRequestID cb = is_ProviderRef res → cb_ResultCode cb = 0 →
        cb_CallbackMetadata cb = Some items → (fold_left scan_item items (0, "")).1 = kes →
        ∃ payload, callback_payload now' cb = inr payload ∧
          wp_Event payload = WebhookEventTransactionSucceeded ∧ wp_ProviderRef payload = is_ProviderRef res ∧
          mkMoney (wp_AmountMinor payload) (wp_Currency payload) = iq_Amount req
  end.
Proof.
  intros I R. apply daraja_Initiate_run in R. destruct r as [e|res].
  - destruct R as [->|(kes & new & V & K & _)]; [by left|right].
    apply (Validate_legal _ I) in V. destruct (whole_kes _ _ V K) as [E _]. rewrite E. apply Z_mod_mult.
  - destruct R as (kes & resp & raw & reply & new & V & K & L & Po & _ & _ & _ & Ne & ->).
    apply (Validate_legal _ I) in V. destruct (whole_kes _ _ V K) as [E P].
    exists kes, (stk_payload zone cfg now req kes), new, resp.
    split_and!; [lia|done|apply stk_asks|done..|]. intros now' cb items C Rc M A. unfold callback_payload. rewrite M, Rc, C. cbn.
    destruct (fold_left scan_item items (0, "")) as [amount receipt]. cbn in A. subst amount.
    rewrite int64_id by (rewrite <-E; done). destruct (Z.leb_spec (kes * 100) 0); [lia|].
    eexists. split_and!; [done..|]. cbn. destruct V as [Cu _]. destruct (iq_Amount req). cbn in *. by subst.
Qed.

(** *** The tokens *)

(** One call of the adapter. *)
Inductive daraja_call (s s' : state) : Prop :=
  | initiated now req r : Initiate (daraja now) req s = (r, s') → daraja_call s s'
  | queried now ref r : Query (daraja now) ref s = (r, s') → daraja_call s s'
  | refunded now req r : Provider_Refund (daraja now) req s = (r, s') → daraja_call s s'.

(** Nothing, a request for a token, or those of one authenticated request. *)
Lemma daraja_call_run (s s' : state) : daraja_call s s' →
  s' = s ∨ ∃ now new, log s' = log s ++ new ∧
    (not_posted now s s' new ∨ ∃ path body answer, posted now path body s s' new answer).
Proof.
  intros [now req r R|now ref r R|now req r R].
  - apply daraja_Initiate_run in R. destruct r as [e|res].
    + destruct R as [->|(kes & new & _ & _ & L & R)]; [by left|right]. exists now, new.
      split; [done|]. destruct R as [?|[answer ?]]; [by left|right; eauto].
    + destruct R as (kes & resp & raw & reply & new & _ & _ & L & Po & _). right. exists now, new. split; [done|]. eauto.
  - cbn in R. unfold daraja_Query in R.
    apply bind_inv in R as [(e & R & ->)|([] & s1 & R0 & R)]; [apply ensure_inv in R as [-> _]; by left|].
    apply ensure_inv in R0 as [-> _]. right. exists now.
    apply bind_inv in R as [(e & R & ->)|(reply & s1 & R0 & R)].
    { apply postJSON_run in R as (new & L & R). exists new. split; [done|]. destruct R as [?|[answer ?]]; [by left|right; eauto]. }
    apply postJSON_run in R0 as (new & L & resp & raw & Po & _).
    assert (s' = s1) as ->; [|exists new; split; [done|right; eauto]].
    apply bind_inv in R as [(e & R & ->)|([] & s2 & R0 & R)]; [by apply ensure_inv in R as [-> _]|].
    apply ensure_inv in R0 as [-> _]. by injection R.
  - cbn in R. unfold daraja_Refund in R.
    apply bind_inv in R as [(e & R & ->)|([] & s1 & R0 & R)]; [apply ensure_inv in R as [-> _]; by left|].
    apply ensure_inv in R0 as [-> _]. destruct (Validate (rq_Amount req)); [injection R as _ <-; by left|].
    do 2 (apply bind_inv in R as [(e & R & ->)|([] & s1 & R0 & R)]; [apply ensure_inv in R as [-> _]; by left|];
      apply ensure_inv in R0 as [-> _]).
    apply bind_inv in R as [(e & R & ->)|(kes & s1 & R0 & R)]; [injection R as _ <-; by left|].
    injection R0 as K <-. right. exists now.
    apply bind_inv in R as [(e & R & ->)|(reply & s1 & R0 & R)].
    { apply postJSON_run in R as (new & L & R). exists new. split; [done|]. destruct R as [?|[answer ?]]; [by left|right; eauto]. }
    apply postJSON_run in R0 as (new & L & resp & raw & Po & _). injection R as _ <-.
    exists new. split; [done|]. right. eauto.
Qed.

(** The arithmetic of durations may wrap; it never makes a token live longer. *)
Lemma int64_le z : min_int64 ≤ z → int64 z ≤ z.
Proof.
  unfold int64, min_int64. intros L. enough ((z + 2 ^ 63) mod 2 ^ 64 ≤ z + 2 ^ 63) by lia. apply Z.mod_le; lia.
Qed.

Lemma token_lifetime_le expires_in :
  token_lifetime expires_in ≤ granted_secs expires_in * second - darajaTokenRefreshBuffer.
Proof.
  unfold token_lifetime. assert (0 < granted_secs expires_in) as P.
  { unfold granted_secs. destruct (ParseInt expires_in); [|lia]. case_match; props; lia. }
  set (a := granted_secs expires_in * second). assert (0 < a) by (unfold a, second; lia).
  assert (int64 (int64 a - darajaTokenRefreshBuffer) = int64 (a - darajaTokenRefreshBuffer)) as ->.
  { unfold int64. f_equal.
    replace ((a + 2 ^ 63) mod 2 ^ 64 - 2 ^ 63 - darajaTokenRefreshBuffer + 2 ^ 63)
      with ((a + 2 ^ 63) mod 2 ^ 64 + (- darajaTokenRefreshBuffer)) by lia.
    rewrite Zplus_mod_idemp_l. f_equal. lia. }
  apply int64_le. unfold min_int64, darajaTokenRefreshBuffer, second. lia.
Qed.

(** A token granted by [g] that is still good at [t]: just granted, or at least the
    buffer before the end of the lifetime the grant announced. *)
Definition good_at (t : time) (g : exchanged) (token : string) : Prop := ∃ expires_in, grants g token expires_in ∧
  (t = ex_time g ∨ t < ex_time g + granted_secs expires_in * second - darajaTokenRefreshBuffer).

(** A request of the adapter, after the exchanges [before]: for a token, or with one. *)
Definition authenticated (before : list exchanged) (ex : exchanged) : Prop :=
  ex_request ex = oauth_request cfg ∨
  ∃ path body token g, ex_request ex = post_request cfg path token body ∧ token ≠ "" ∧
    g ∈ before ∧ good_at (ex_time ex) g token.

Definition disciplined (l : list exchanged) : Prop :=
  ∀ before ex after, l = before ++ ex :: after → authenticated before ex.

Definition cache_backed (s : state) : Prop := oauthToken s = "" ∨ ∃ g expires_in, g ∈ log s ∧
  grants g (oauthToken s) expires_in ∧ tokenExpiry s = ex_time g + token_lifetime expires_in.

Lemma disciplined_snoc l ex : disciplined l → authenticated l ex → disciplined (l ++ [ex]).
Proof.
  intros D A before ex' after E. destruct after as [|ex2 after] using rev_ind.
  - apply app_inj_tail in E as [-> ->]. done.
  - change (ex' :: after ++ [ex2]) with ((ex' :: after) ++ [ex2]) in E. rewrite app_assoc in E.
    apply app_inj_tail in E as [-> _]. by eapply D.
Qed.

(** What a call knows of the token it got. *)
Lemma token_source_good now (s s1 : state) token before : disciplined (log s) → cache_backed s →
  token_source now s s1 token before → disciplined (log s ++ before) ∧ token ≠ "" ∧
  (∃ g, g ∈ log s ++ before ∧ good_at now g token) ∧
  ∃ g expires_in, g ∈ log s ++ before ∧ grants g (oauthToken s1) expires_in ∧
    tokenExpiry s1 = ex_time g + token_lifetime expires_in.
Proof.
  intros D B [(-> & -> & -> & Ne & L)|(g & expires_in & -> & T & G & Ne & -> & ->)].
  - rewrite app_nil_r. destruct B as [?|(g & expires_in & I & G & E)]; [done|]. split_and!; [done|done| |eauto].
    exists g. split; [done|]. exists expires_in. split; [done|right]. pose proof (token_lifetime_le expires_in). lia.
  - assert (g ∈ log s ++ [g]) as I by set_solver.
    split_and!; [|done|exists g; split; [done|]; exists expires_in; auto|exists g, expires_in; by subst].
    apply disciplined_snoc; [done|]. left. by destruct G.
Qed.

Lemma daraja_call_disciplined (s s' : state) : daraja_call s s' →
  disciplined (log s) → cache_backed s → disciplined (log s') ∧ cache_backed s'.
Proof.
  intros R D B. apply daraja_call_run in R as [->|(now & new & L & R)]; [done|].
  destruct R as [[(Et & Ee & N)|(token & T)]|(path & body & answer & s1 & token & before & T & Et & Ee & ->)].
  - unfold cache_backed. rewrite L, Et, Ee. split.
    + destruct N as [->|[a ->]]; [by rewrite app_nil_r|]. apply disciplined_snoc; [done|by left].
    + destruct B as [|(g & x & I & ?)]; [by left|right]. exists g, x. set_solver.
  - destruct (token_source_good _ _ _ _ _ D B T) as (D' & _ & _ & B'). unfold cache_backed. rewrite L. auto.
  - destruct (token_source_good _ _ _ _ _ D B T) as (D' & Ne & (g & I & G) & (g' & x & I' & G' & E')).
    rewrite app_assoc in L. unfold cache_backed. rewrite L, Et, Ee. split.
    + apply disciplined_snoc; [done|]. right. exists path, body, token, g. done.
    + right. exists g', x. split; [|done]. apply elem_of_app. by left.
Qed.

(** Whatever is asked of the adapter, in whatever order and at whatever times, it sends
    two kinds of requests only: the one for a token, and requests with a token the token
    endpoint granted before, either in the same call or more than a minute before the end
    of the lifetime it announced; the wrap-around of durations cannot stretch it. *)
Theorem bearer_tokens_live (x : X) (s : state) before ex after :
  rtc daraja_call (NewDarajaProvider (x, [])) s → log s = before ++ ex :: after → authenticated before ex.
Proof.
  intros R. enough (disciplined (log s) ∧ cache_backed s) as [D _] by apply D.
  remember (NewDarajaProvider (x, [])) as s0 eqn:E0.
  assert (disciplined (log s0) ∧ cache_backed s0) as I.
  { subst s0. split; [|by left]. intros [|? ?] ? ? E; discriminate E. }
  clear E0. induction R as [|s0 s1 s2 C _ IH]; [done|]. destruct I. by apply IH, (daraja_call_disciplined s0).
Qed.

(** *** Failures *)

(** M-Pesa sends no metadata with a failure, so the payload attests no amount, which
    differs from that of every transaction: the service refuses the delivery, whoever
    signed it, and the payment stays as it was. *)
Theorem failure_callbacks_refused `{Driver} `{UuidText} (s : Service state) c name header body now t cb w :
  reachable (w_ledger w) → Service_Provider s name = Some (daraja t) →
  decode_callback body = Some cb → cb_ResultCode cb ≠ 0 → cb_CallbackMetadata cb = None →
  ∃ e, HandleWebhook s c name header body now w = (inl (fail e), w).
Proof.
  intros R Sp D Rc M. destruct (HandleWebhook s c name header body now w) as [r w'] eqn:E.
  apply HandleWebhook_run in E as [[-> [e ->]]|(provider & payload & tx & Pr & Ev & At & _)]; [by exists e|exfalso].
  rewrite Sp in Pr. injection Pr as <-. cbn in Ev. unfold daraja_WebhookEvent in Ev.
  destruct (verifyWebhookSignature _ _ _ _); [done|]. rewrite D in Ev.
  destruct (String.eqb_spec (cb_CheckoutRequestID cb) "") as [|Ne]; [done|].
  unfold callback_payload in Ev. rewrite M in Ev. apply Z.eqb_neq in Rc. rewrite Rc in Ev. injection Ev as <-.
  destruct At as (G & _ & Am & _). cbn in G, Am.
  destruct (provider_ref_unambiguous _ R _ _ _ _ Ne G) as (_ & _ & row & L & Sc & _).
  apply reachable_ok in R as [W _]. destruct (wf_transaction _ W _ _ L) as (_ & Ck & _).
  apply scanTransaction_fields in Sc as (_ & _ & _ & _ & Ea & _).
  unfold transaction_check in Ck. apply andb_true_iff in Ck as [Ck _]. apply andb_true_iff in Ck as [Ck _].
  apply Z.ltb_lt in Ck. rewrite <-Ea, <-Am in Ck. done.
Qed.

End Daraja.

(** ** A concrete run *)

(** A remote side that grants one token, accepts every push and answers nothing else. *)
#[local] Instance demo_client : HttpClient unit := {|
  bad_request _ := None;
  exchange request x :=
    (if String.eqb (hq_Method request) "GET" then inr (mkHttpAnswer 200 (inr "granted"))
     else inr (mkHttpAnswer 200 (inr "accepted")), x);
|}.

#[local] Instance demo_json : DarajaJSON.
Proof.
  refine {|
    decode_grant raw := if String.eqb raw "granted" then Some ("token", "3599") else None;
    decode_stk raw := if String.eqb raw "accepted" then inr (mkStkResponse "ws_CO_1" "0" "") else inl "not JSON";
    decode_stk_query _ := inl "not JSON";
    decode_reversal _ := inl "not JSON";
    decode_callback raw := if String.eqb raw "cancelled" then Some (mkDarajaCallback "SBX-k11" 1032 "cancelled" None) else None;
    decode_int64 raw := if String.eqb raw "15" then Some 15 else None;
    decode_text _ := None;
  |}.
  intros raw n. destruct (String.eqb raw "15"); [|done]. intros [= <-]. done.
Defined.

Definition demo_config : DarajaConfig :=
  mkDarajaConfig defaultDarajaBaseURL "key" "secret" "174379" "passkey" "https://example.com/callback" "" "" "hush".
Definition demo_daraja (now : time) : Provider (DarajaState (unit * list exchanged)) :=
  daraja (client := demo_client) (λ s, s) (λ _, 0) demo_config now.
Definition push (amount : Z) : InitiateRequest := mkInitiateRequest 1%N 2%N (mkMoney amount "KES") "brakes" "254700000000".
Definition idle : DarajaState (unit * list exchanged) := NewDarajaProvider (tt, []).

Definition pushed := Initiate (demo_daraja (second * 10)) (push 1500) idle.
Definition pushed_again := Initiate (demo_daraja (second * 70)) (push 200) pushed.2.

(** Two pushes, one token: three exchanges. *)
Example one_token : length (remote pushed_again.2).2 = 3%nat ∧
  map (λ ex, List.hd_error (hq_Headers (ex_request ex))) (drop 1 (remote pushed_again.2).2) =
  [Some ("Authorization", "Bearer token"); Some ("Authorization", "Bearer token")].
Proof. vm_compute. done. Qed.

(** Cents are refused, and nothing is sent. *)
Example cents_refused : ∃ e, Initiate (demo_daraja 0) (push 1550) idle = (inl e, idle).
Proof. eexists. vm_compute. reflexivity. Qed.

Lemma pushed_run : pushed = (inr (mkInitiateResult TxPending "ws_CO_1" ""), pushed.2).
Proof. vm_compute. reflexivity. Qed.

Lemma daraja_money_exact_witness : ∃ kes body new resp, 1500 = 100 * kes ∧ 0 < kes ∧
  asks_for demo_config (iq_PayerPhone (push 1500)) kes body ∧ (remote pushed.2).2 = [] ++ new ∧
  posted demo_config (second * 10) stk_path body idle pushed.2 new (inr resp).
Proof.
  pose proof (daraja_money_exact (client := demo_client) (λ s, s) (λ _, 0) demo_config (second * 10) (push 1500) idle _ _
    ltac:(vm_compute; done) pushed_run) as (kes & body & new & resp & E & P & A & L & Po & _).
  exists kes, body, new, resp. done.
Defined.

Lemma pushed_again_reached :
  rtc (daraja_call (client := demo_client) (λ s, s) (λ _, 0) demo_config) idle pushed_again.2.
Proof.
  apply rtc_l with pushed.2; [by apply (initiated _ _ _ _ _ (second * 10) (push 1500) pushed.1), surjective_pairing|].
  apply rtc_once. by apply (initiated _ _ _ _ _ (second * 70) (push 200) pushed_again.1), surjective_pairing.
Qed.

Lemma bearer_tokens_live_witness : ∃ before ex, (remote pushed_again.2).2 = before ++ ex :: [] ∧
  length before = 2%nat ∧ authenticated demo_config before ex.
Proof.
  set (l := (remote pushed_again.2).2).
  exists (take 2 l), (List.nth 2 l (mkExchanged 0 (oauth_request demo_config) (inl ""))).
  assert (l = take 2 l ++ [List.nth 2 l (mkExchanged 0 (oauth_request demo_config) (inl ""))]) as E by (vm_compute; reflexivity).
  split_and!; [exact E|vm_compute; reflexivity|].
  exact (bearer_tokens_live (client := demo_client) (λ s, s) (λ _, 0) demo_config tt _ _ _ [] pushed_again_reached E).
Defined.

(** The payment of the demo of [PayRefine], had M-Pesa taken it: its customer cancels. *)
Definition cancelled_world : world (DarajaState (unit * list exchanged)) := mkWorld (w_ledger initiated_world) idle [].
Definition daraja_service : Service (DarajaState (unit * list exchanged)) :=
  NewService {["daraja" := demo_daraja 0]} None.

Lemma failure_callbacks_refused_witness :
  ∃ e, HandleWebhook daraja_service (at_ 201 20) "daraja" ∅ "cancelled" (201 * second) cancelled_world =
    (inl (fail e), cancelled_world).
Proof.
  apply (failure_callbacks_refused (client := demo_client) (λ s, s) (λ _, 0) demo_config daraja_service (at_ 201 20) "daraja" ∅
    "cancelled" (201 * second) 0 (mkDarajaCallback "SBX-k11" 1032 "cancelled" None) cancelled_world);
    [exact initiated_world_reachable|reflexivity|reflexivity|done|reflexivity].
Defined.
