(* ===== verification/IdentBreach.v ===== *)
(** * IdentBreach: the breached-password check and the settings of the identity service
    ([backend/identity/breach.go], [config.go])

    SHA-1 is executable. The remote side of the range lookup is an [HttpClient] of [Http];
    [os.ReadFile] and [time.ParseDuration] are parameters. A checker answers, or fails
    with the text of its error. *)

From Stdlib Require Import Ascii.
From S2P Require Import Prelude Text Sha256 Platform Wire PayModels Float64 Http Auth Jwks Jwt Config.
From S2P Require Import IdentPassword IdentModels IdentStore IdentService IdentDemo.

Open Scope Z_scope.

(** ** SHA-1 *)

Module Sha1.
#[local] Open Scope N_scope.

Definition rotl (n x : N) : N := N.lor (w32 (N.shiftl x n)) (N.shiftr x (32 - n)).

Record sha1_state := mkSha1 { ha : N; hb : N; hc : N; hd : N; he : N }.

Definition initial : sha1_state := mkSha1 0x67452301 0xefcdab89 0x98badcfe 0x10325476 0xc3d2e1f0.

(** The schedule, newest word first. *)
Fixpoint sha1_extend (n : nat) (ws : list N) : list N :=
  match n with
  | O => ws
  | S n =>
      let w k := nth k ws 0 in
      sha1_extend n (rotl 1 (N.lxor (N.lxor (w 2%nat) (w 7%nat)) (N.lxor (w 13%nat) (w 15%nat))) :: ws)
  end.

Definition mixing (t : nat) (s : sha1_state) : N * N :=
  if (t <? 20)%nat then (Ch (hb s) (hc s) (hd s), 0x5a827999)
  else if (t <? 40)%nat then (N.lxor (hb s) (N.lxor (hc s) (hd s)), 0x6ed9eba1)
  else if (t <? 60)%nat then (Maj (hb s) (hc s) (hd s), 0x8f1bbcdc)
  else (N.lxor (hb s) (N.lxor (hc s) (hd s)), 0xca62c1d6).

Definition sha1_round (s : sha1_state) (tw : nat * N) : sha1_state :=
  let '(f, k) := mixing tw.1 s in
  mkSha1 (add32 (rotl 5 (ha s)) (add32 f (add32 (he s) (add32 k tw.2)))) (ha s) (rotl 30 (hb s)) (hc s) (hd s).

Definition sha1_compress (s : sha1_state) (block : list N) : sha1_state :=
  let r := fold_left sha1_round (combine (seq 0 80) (rev (sha1_extend 64 (rev block)))) s in
  mkSha1 (add32 (ha s) (ha r)) (add32 (hb s) (hb r)) (add32 (hc s) (hc r)) (add32 (hd s) (hd r)) (add32 (he s) (he r)).

(** [sha1.Sum]: the padding is that of SHA-256. *)
Definition sha1 (msg : list N) : list N :=
  let ws := words (pad msg) in
  let s := fold_left sha1_compress (blocks (length ws) ws) initial in
  List.concat (map (be_bytes 4) [ha s; hb s; hc s; hd s; he s]).

Example sha1_abc : hex_encode (sha1 (to_bytes "abc")) = "a9993e364706816aba3e25717850c26c9cd0d89d".
Proof. vm_compute. reflexivity. Qed.
Example sha1_two_blocks : hex_encode (sha1 (to_bytes "abcdbcdecdefdefgefghfghighijhijkijkljklmklmnlmnomnopnopq")) =
  "84983e441c3bd26ebaae4aa1f95129e5e54670f1".
Proof. vm_compute. reflexivity. Qed.

Lemma sha1_length msg : length (sha1 msg) = 20%nat.
Proof. unfold sha1. cbn [map List.concat]. by rewrite !length_app, !be_bytes_length. Qed.

Lemma sha1_range msg : Forall (λ b, b < 256) (sha1 msg).
Proof. unfold sha1. cbn [map List.concat]. repeat (apply Forall_app; split); try apply be_bytes_range. constructor. Qed.

End Sha1.
Import Sha1.
#[global] Arguments sha1 : simpl never.

(** ** Checkers *)

(** [PasswordBreacher]: a call over the state of the remote side. *)
Abbreviation Breacher X := (string → M X string bool) (only parsing).

(** *** The range lookup *)

Definition DefaultHIBPBaseURL : string := "https://api.pwnedpasswords.com".
Definition hibpMaxBodyBytes : Z := 2097152.

(** [strings.TrimRight(s, "/")] *)
Fixpoint drop_slashes (l : list ascii) : list ascii :=
  match l with c :: l' => if Ascii.eqb c "/" then drop_slashes l' else l | [] => [] end.
Definition TrimRightSlash (s : string) : string := of_chars (rev (drop_slashes (rev (chars s)))).

(** [strings.ToUpper] of hexadecimal digits. *)
Definition hex_upper (c : ascii) : ascii := if in_range 97 102 c then byte (byte_of c - 32) else c.

(** The digest as forty characters. *)
Definition digest_text (password : string) : list ascii :=
  map hex_upper (chars (hex_encode (sha1 (to_bytes password)))).
Definition digest_prefix (password : string) : string := of_chars (take 5 (digest_text password)).
Definition digest_suffix (password : string) : string := of_chars (drop 5 (digest_text password)).

(** [fmt.Sscanf(s, "%d", &count)]: a sign, digits, and whatever follows them. *)
Fixpoint take_digits (l : list ascii) : list ascii :=
  match l with c :: l => if is_digit c then c :: take_digits l else [] | [] => [] end.
Definition sscan_int (s : string) : option Z :=
  let '(sign, rest) := match chars s with
    | c :: l => if Ascii.eqb c "+" || Ascii.eqb c "-" then ([c], l) else ([], c :: l)
    | [] => ([], [])
    end in
  match take_digits rest with
  | [] => None
  | ds => ParseInt (of_chars (sign ++ ds))
  end.

Section Lookup.
Context `{HttpClient X}.
Context (sscan_error : string → string).  (* the text of the error of Sscanf *)

(** The lines of the answer: the count of the first line of the suffix. *)
Fixpoint scan_range (suffix : string) (lines : list string) : string + bool :=
  match lines with
  | [] => inr false
  | line :: lines =>
      match cut ":" (TrimSpace line) with
      | (_, None) => scan_range suffix lines
      | (name, Some rest) =>
          if String.eqb name "" then scan_range suffix lines
          else if negb (equal_fold (TrimSpace name) suffix) then scan_range suffix lines
          else match sscan_int (TrimSpace rest) with
               | None => inl ("hibp range body: malformed count for suffix: " +:+ sscan_error (TrimSpace rest))
               | Some count => inr (0 <? count)
               end
      end
  end.

Definition range_request (baseURL password : string) : HttpRequest :=
  mkHttpRequest "GET" (baseURL +:+ "/range/" +:+ digest_prefix password)
    [("User-Agent", "motivra-identity"); ("Add-Padding", "true")] "".

(** [HIBPChecker]; [base] is what [NewHIBPChecker] was given. *)
Definition HIBP_PasswordBreached (base : string) : Breacher X := λ password s,
  let request := range_request (TrimRightSlash base) password in
  match bad_request (hq_URL request) with
  | Some e => (inl ("hibp request: " +:+ e), s)
  | None =>
      let '(answer, s) := exchange request s in
      (match answer with
       | inl e => inl ("hibp range lookup: " +:+ e)
       | inr resp =>
           if negb (ha_Status resp =? 200)
           then inl ("hibp range lookup: unexpected status " +:+ pretty (ha_Status resp))
           else match read_all hibpMaxBodyBytes resp with
                | inl e => inl ("hibp range body: " +:+ e)
                | inr body => scan_range (digest_suffix password) (split (byte 10%N) body)
                end
       end, s)
  end.

End Lookup.

(** *** The denylist *)

Definition defaultDenylist : list string :=
  ["123456"; "password"; "123456789"; "12345678"; "12345"; "qwerty";
   "1234567890"; "1234567"; "abc123"; "111111"; "password1"; "password123";
   "qwerty123"; "iloveyou"; "admin"; "welcome"; "monkey"; "dragon";
   "letmein"; "football"; "000000"; "123123"; "654321"; "superman";
   "batman"; "trustno1"; "hello123"; "freedom"; "whatever"; "qazwsx";
   "google"; "zaq12wsx"; "asdfghjkl"; "passw0rd"; "starwars"; "1q2w3e4r";
   "lovely"; "solo"; "master"; "sunshine"; "princess"; "shadow";
   "motivra"; "motivra123"; "changeme"; "secret"].

Section Denylist.
Context `{CaseMapping}.

Definition NewDenylistChecker : gset string := list_to_set (map ToLower defaultDenylist).

(** The entries of a file: its lines but for blank ones and comments. *)
Definition file_entries (raw : string) : list string :=
  map ToLower (List.filter (λ line, negb (String.eqb line "" || has_prefix line "#"))
    (map TrimSpace (split (byte 10%N) raw))).

(** [read_file]: the contents, or the text of the error. *)
Definition LoadFile (read_file : string → string + string) (path : string) (entries : gset string)
    : string + gset string :=
  match read_file path with
  | inl e => inl ("read breach denylist: " +:+ e)
  | inr raw => inr (list_to_set (file_entries raw) ∪ entries)
  end.

Definition Denylist_PasswordBreached {X} (entries : gset string) : Breacher X := λ password,
  mret (bool_decide (ToLower password ∈ entries)).

(** *** The chain *)

Fixpoint chain_from {X} (lastErr : option string) (checkers : list (Breacher X)) (password : string) : M X string bool :=
  match checkers with
  | [] => match lastErr with Some e => throw e | None => mret false end
  | checker :: checkers =>
      answer ← try (checker password);
      match answer with
      | inl e => chain_from (Some e) checkers password
      | inr true => mret true
      | inr false => chain_from lastErr checkers password
      end
  end.

Definition Chain_PasswordBreached {X} : list (Breacher X) → Breacher X := chain_from None.

Record BreachConfig := mkBreachConfig {
  HIBPEnabled : bool;
  DenylistFile : string;
  FailClosed : bool;
}.

(** The local denylist: the built-in one and the entries of the configured file. *)
Definition denied (read_file : string → string + string) (cfg : BreachConfig) : string + gset string :=
  if String.eqb (DenylistFile cfg) "" then inr NewDenylistChecker
  else LoadFile read_file (DenylistFile cfg) NewDenylistChecker.

Definition NewBreacher `{HttpClient X} (sscan_error : string → string) (read_file : string → string + string)
    (cfg : BreachConfig) : string + Breacher X :=
  match denied read_file cfg with
  | inl e => inl e
  | inr deny =>
      inr (Chain_PasswordBreached (Denylist_PasswordBreached deny ::
        if HIBPEnabled cfg then [HIBP_PasswordBreached sscan_error DefaultHIBPBaseURL] else []))
  end.

End Denylist.

(** ** Settings *)

Section Settings.
Context (getenv : string → string) (ParseDuration : string → option Z).

Definition ident_envBool (key : string) (fallback : bool) : bool :=
  let v := TrimSpace (getenv key) in
  if String.eqb v "" then fallback else default fallback (ParseBool v).

(** A duration that is accepted when [ok]; anything else leaves the default. *)
Definition duration_or (ok : Z → bool) (fallback : Z) (key : string) : Z :=
  let v := TrimSpace (getenv key) in
  if String.eqb v "" then fallback
  else match ParseDuration v with Some d => if ok d then d else fallback | None => fallback end.

Definition LoadVerificationConfig : VerificationConfig :=
  let cfg := DefaultVerificationConfig in
  mkVerificationConfig
    (duration_or (λ d, 0 <=? d) (vc_Grace cfg) "MOTIVRA_VERIFICATION_GRACE")
    (duration_or (λ d, 0 <? d) (vc_TokenTTL cfg) "MOTIVRA_VERIFICATION_TOKEN_TTL")
    (duration_or (λ d, 0 <=? d) (vc_ResendCooldown cfg) "MOTIVRA_VERIFICATION_RESEND_COOLDOWN")
    (let v := TrimSpace (getenv "MOTIVRA_VERIFICATION_RESEND_LIMIT") in
     if String.eqb v "" then vc_ResendLimit cfg
     else match ParseInt v with Some n => if 0 <? n then n else vc_ResendLimit cfg | None => vc_ResendLimit cfg end)
    (ident_envBool "MOTIVRA_VERIFICATION_DEV_ECHO" false).

Definition LoadBreachConfig : BreachConfig :=
  mkBreachConfig (ident_envBool "MOTIVRA_HIBP_ENABLED" false)
    (TrimSpace (getenv "MOTIVRA_BREACH_DENYLIST_FILE")) (ident_envBool "MOTIVRA_BREACH_FAIL_CLOSED" false).

End Settings.

Definition verification_problems (c : VerificationConfig) (env : string) : list string :=
  problem (vc_Grace c <? 0) "MOTIVRA_VERIFICATION_GRACE must not be negative (0 disables the gate)" ++
  problem (vc_TokenTTL c <=? 0) "MOTIVRA_VERIFICATION_TOKEN_TTL must be positive" ++
  problem (vc_ResendCooldown c <? 0) "MOTIVRA_VERIFICATION_RESEND_COOLDOWN must not be negative" ++
  problem (vc_ResendLimit c <=? 0) "MOTIVRA_VERIFICATION_RESEND_LIMIT must be positive" ++
  problem (vc_DevEcho c && (String.eqb env EnvStaging || String.eqb env EnvProduction))
    "MOTIVRA_VERIFICATION_DEV_ECHO must not be enabled in staging or production: verification tokens must be delivered out-of-band there".

Definition Verification_Validate (c : VerificationConfig) (env : string) : option string :=
  match verification_problems c env with
  | [] => None
  | problems => Some ("invalid verification configuration: " +:+ join_problems problems)
  end.

(** ** What the check answers *)

Definition carriage_return : string := String (byte 13%N) "".

(** A line of the range page: a suffix and its count. *)
Record range_entry := mkRangeEntry { re_suffix : string; re_count : Z }.

Definition page_line (ending : string) (e : range_entry) : string :=
  re_suffix e +:+ ":" +:+ pretty (re_count e) +:+ ending.
Definition range_page (ending : string) (entries : list range_entry) : string :=
  join (byte 10%N) (map (page_line ending) entries).

Definition printable_entry (e : range_entry) : Prop :=
  re_suffix e ≠ "" ∧ forallb visible (chars (re_suffix e)) = true ∧ absent ":" (re_suffix e) ∧
  0 ≤ re_count e ≤ max_int64.

(** What the page says of a suffix. *)
Definition listed (suffix : string) (entries : list range_entry) : bool :=
  match List.find (λ e, equal_fold (re_suffix e) suffix) entries with
  | Some e => 0 <? re_count e
  | None => false
  end.

Lemma append_nil s : s +:+ "" = s.
Proof. induction s as [|c s IH]; [done|]. change (String c (s +:+ "") = String c s). by rewrite IH. Qed.

Lemma append_assoc s t u : (s +:+ t) +:+ u = s +:+ t +:+ u.
Proof. induction s as [|c s IH]; [done|]. change (String c ((s +:+ t) +:+ u) = String c (s +:+ t +:+ u)). by rewrite IH. Qed.

Lemma TrimSpace_line s ending : s ≠ "" → forallb visible (chars s) = true → ending ∈ [""; carriage_return] →
  TrimSpace (s +:+ ending) = s.
Proof.
  intros Ne V I. apply elem_of_cons in I as [->|I%list_elem_of_singleton].
  { rewrite append_nil. by apply TrimSpace_visible. }
  subst ending. unfold TrimSpace. rewrite chars_app. cbn [carriage_return chars app].
  assert (trim_left (chars s ++ [byte 13%N]) = chars s ++ [byte 13%N]) as ->.
  { unfold trim_left. apply strip_all_None. destruct s as [|c s]; [done|]. cbn in V.
    apply andb_true_iff in V as [V _]. change (chars (String c s) ++ [byte 13%N]) with (c :: (chars s ++ [byte 13%N])).
    by apply strip_any_None. }
  unfold trim_right. rewrite rev_app_distr. cbn [rev app]. rewrite length_app, Nat.add_comm. cbn [length Nat.add strip_all].
  change (strip_any (map (@rev ascii) spaces) (byte 13%N :: rev (chars s))) with (Some (rev (chars s))).
  cbv beta iota. rewrite strip_all_None, rev_involutive, of_chars_chars; [done|].
  destruct (rev (chars s)) as [|c l] eqn:E.
  - apply (f_equal (@rev ascii)) in E. rewrite rev_involutive in E. by destruct s.
  - apply strip_any_None; [vm_compute; reflexivity|].
    rewrite forallb_forall in V. apply V, in_rev. rewrite E. by left.
Qed.

Lemma cut_absent sep s t : absent sep s → cut sep (s +:+ String sep t) = (s, Some t).
Proof.
  unfold absent. induction s as [|c s IH]; intros A.
  - change (cut sep (String sep t) = ("", Some t)). cbn [cut]. by rewrite Ascii.eqb_refl.
  - change (cut sep (String c (s +:+ String sep t)) = (String c s, Some t)). cbn [chars] in A. cbn [cut].
    destruct (Ascii.eqb_spec c sep) as [->|]; [set_solver|]. rewrite IH by set_solver. done.
Qed.

Lemma digit_is_digit c n : digit c = Some n → is_digit c = true ∧ visible c = true ∧ c ≠ "+"%char ∧ c ≠ "-"%char ∧ c ≠ byte 10%N.
Proof.
  unfold digit, is_digit, in_range, visible. case_match eqn:D; [|done]. intros _. apply andb_true_iff in D as [D1 D2].
  rewrite !andb_true_iff, !N.leb_le in *.
  split_and!; try lia; intros ->; vm_compute in D1, D2; congruence.
Qed.

Lemma count_digits (z : Z) : 0 ≤ z → pretty z ≠ "" ∧ Forall (λ c, is_Some (digit c)) (chars (pretty z)).
Proof.
  intros P. assert (∃ n : N, pretty z = pretty n) as [n E].
  { destruct z as [|p|p]; [by exists 0%N|by exists (Npos p)|lia]. }
  rewrite E. split; [|apply pretty_N_digits]. intros Z. pose proof (parse_uint_pretty n) as S. by rewrite Z in S.
Qed.

Lemma count_visible z : 0 ≤ z → forallb visible (chars (pretty z)) = true.
Proof.
  intros P. destruct (count_digits z P) as [_ D]. rewrite forallb_forall. intros c Ic. rewrite list.Forall_forall in D.
  destruct (D c) as [n Dn]; [by apply list_elem_of_In|]. by apply digit_is_digit in Dn as (_ & -> & _).
Qed.

Lemma sscan_count z : 0 ≤ z ≤ max_int64 → sscan_int (pretty z) = Some z.
Proof.
  intros [P L]. destruct (count_digits z P) as [Ne D]. unfold sscan_int.
  assert (T : take_digits (chars (pretty z)) = chars (pretty z)).
  { induction D as [|c l [n Dn] D IH]; [done|]. cbn. apply digit_is_digit in Dn as [-> _]. by rewrite IH. }
  destruct (pretty z) as [|c s] eqn:E; [done|]. cbn [chars] in *.
  apply Forall_inv in D as [n Dn]. apply digit_is_digit in Dn as (_ & _ & N1 & N2 & _).
  apply Ascii.eqb_neq in N1, N2. rewrite N1, N2. cbn [orb]. rewrite T. cbn [app].
  change (c :: chars s) with (chars (String c s)). rewrite of_chars_chars, <-E.
  apply ParseInt_pretty. unfold in_int64, min_int64. lia.
Qed.

Lemma page_line_clean ending e : printable_entry e → ending ∈ [""; carriage_return] →
  absent (byte 10%N) (page_line ending e) ∧
  cut ":" (TrimSpace (page_line ending e)) = (re_suffix e, Some (pretty (re_count e))).
Proof.
  intros (Ne & V & A & P & L) I. pose proof (count_visible _ P) as Dv.
  assert (page_line ending e = (re_suffix e +:+ String ":" (pretty (re_count e))) +:+ ending) as ->.
  { unfold page_line. by rewrite append_assoc. }
  split.
  - apply absent_app. split; [|apply elem_of_cons in I as [->|I%list_elem_of_singleton]; [|subst]; by apply free_of_absent].
    apply absent_app. split; [|apply absent_cons; split; [done|]].
    + unfold absent. rewrite list_elem_of_In. intros Ic. rewrite forallb_forall in V. apply V in Ic. discriminate Ic.
    + unfold absent. rewrite list_elem_of_In. intros Ic. rewrite forallb_forall in Dv. apply Dv in Ic. discriminate Ic.
  - rewrite TrimSpace_line; [by apply cut_absent| | |done].
    + by destruct (re_suffix e).
    + rewrite chars_app. cbn [chars]. rewrite forallb_app. cbn [forallb]. by rewrite V, Dv.
Qed.

Section Answers.
Context `{HttpClient X} (sscan_error : string → string).

Lemma scan_page suffix ending entries : ending ∈ [""; carriage_return] → Forall printable_entry entries →
  scan_range sscan_error suffix (map (page_line ending) entries) = inr (listed suffix entries).
Proof.
  intros I F. unfold listed. induction F as [|e entries P F IH]; [done|]. cbn [map scan_range List.find].
  destruct (page_line_clean ending e P I) as [_ ->]. destruct P as (Ne & V & _ & C).
  destruct (String.eqb_spec (re_suffix e) ""); [done|]. rewrite (TrimSpace_visible (re_suffix e)) by done.
  destruct (equal_fold (re_suffix e) suffix); cbn [negb]; [|exact IH].
  rewrite TrimSpace_visible by (apply count_visible; lia). by rewrite sscan_count.
Qed.

(** The remote side sees the first five characters of the digest and nothing else of a
    password: passwords that share them leave it in the same state, whatever it does with
    what it sees. *)
Lemma range_lookup_k_anonymous base p q s : digest_prefix p = digest_prefix q →
  (HIBP_PasswordBreached sscan_error base p s).2 = (HIBP_PasswordBreached sscan_error base q s).2.
Proof.
  intros E. unfold HIBP_PasswordBreached, range_request. rewrite E. cbn [hq_URL].
  destruct (bad_request _); [done|]. by destruct (exchange _ s).
Qed.

(** A page that fits the limit is read as it was written. *)
Lemma range_verdict base p s ending entries s' :
  bad_request (X := X) (hq_URL (range_request (TrimRightSlash base) p)) = None →
  exchange (range_request (TrimRightSlash base) p) s = (inr (mkHttpAnswer 200 (inr (range_page ending entries))), s') →
  ending ∈ [""; carriage_return] → Forall printable_entry entries →
  Z.of_nat (blen (range_page ending entries)) ≤ hibpMaxBodyBytes →
  HIBP_PasswordBreached sscan_error base p s = (inr (listed (digest_suffix p) entries), s').
Proof.
  intros B E I F L. unfold HIBP_PasswordBreached. rewrite B, E. cbn [ha_Status]. rewrite Z.eqb_refl. cbn [negb].
  unfold read_all. cbn [ha_Body]. unfold truncate. destruct (Nat.ltb_spec (Z.to_nat hibpMaxBodyBytes) (blen (range_page ending entries))); [lia|].
  cbv beta iota. f_equal. destruct entries as [|e entries]; [done|]. unfold range_page. rewrite split_join.
  - by apply scan_page.
  - done.
  - apply List.Forall_map. eapply list.Forall_impl; [exact F|]. intros x P. by apply (page_line_clean ending x).
Qed.

End Answers.

Section Policy.
Context `{HttpClient X} (sscan_error : string → string) (read_file : string → string + string).
Context `{CaseMapping} `{Jwt}.

Definition breached_password : IdentError :=
  App (ErrValidation "password appears in a known breach or common-password corpus" [mkFieldError "password" "breached"]).
Definition breach_check_unavailable : IdentError :=
  App (mkError 503 "breach_check_unavailable" "Password breach check unavailable"
         "the password could not be checked against breach lists; try again later" []).

(** The denylist first, without a word to the remote side; then the range lookup, when it
    is enabled. *)
Lemma NewBreacher_run cfg deny check p (x : X) : denied read_file cfg = inr deny →
  NewBreacher sscan_error read_file cfg = inr check →
  check p x = if bool_decide (ToLower p ∈ deny) then (inr true, x)
              else if HIBPEnabled cfg then HIBP_PasswordBreached sscan_error DefaultHIBPBaseURL p x
              else (inr false, x).
Proof.
  intros D N. unfold NewBreacher in N. rewrite D in N. injection N as <-.
  unfold Chain_PasswordBreached. cbn [chain_from]. unfold Denylist_PasswordBreached. unfold_run_goal.
  case_bool_decide; [done|]. destruct (HIBPEnabled cfg); [|done]. cbn [chain_from]. unfold_run_goal.
  by destruct (HIBP_PasswordBreached sscan_error DefaultHIBPBaseURL p x) as [[e|[]] x'].
Qed.

(** C27. With both checks on, a new password of legal length is refused exactly when its lower
    case is denied or the range page lists its digest with a positive count; a check that
    could not be completed is refused or noted, as configured, and is never taken for a
    clean answer. A denied password is not looked up, and of any other one the remote
    side learns the first five characters of the digest and nothing else. *)
Theorem breach_policy (s : Service) cfg deny check password (x : X) w :
  denied read_file cfg = inr deny → NewBreacher sscan_error read_file cfg = inr check → HIBPEnabled cfg = true →
  sv_breacher s = Some (λ p, (check p x).1) → (MinPasswordLength <= blen password <= MaxPasswordLength)%nat →
  let lookup := HIBP_PasswordBreached sscan_error DefaultHIBPBaseURL password x in
  checkPasswordBreach s password w =
    (if bool_decide (ToLower password ∈ deny) then inl breached_password
     else match lookup.1 with
          | inr true => inl breached_password
          | inr false => inr ""
          | inl e => if sv_breachFailClosed s then inl breach_check_unavailable
                     else inr ("fail-open: breach check unavailable: " +:+ e)
          end, w) ∧
  (∀ ending entries x', exchange (range_request DefaultHIBPBaseURL password) x =
       (inr (mkHttpAnswer 200 (inr (range_page ending entries))), x') →
     bad_request (X := X) (hq_URL (range_request DefaultHIBPBaseURL password)) = None →
     ending ∈ [""; carriage_return] → Forall printable_entry entries →
     Z.of_nat (blen (range_page ending entries)) ≤ hibpMaxBodyBytes →
     lookup.1 = inr (listed (digest_suffix password) entries)) ∧
  (ToLower password ∈ deny → (check password x).2 = x) ∧
  (ToLower password ∉ deny → ∀ q, ToLower q ∉ deny → digest_prefix q = digest_prefix password →
     (check q x).2 = (check password x).2).
Proof.
  intros D N E B [L1 L2] lookup. split_and!.
  - unfold checkPasswordBreach. rewrite B.
    destruct (Nat.ltb_spec (blen password) MinPasswordLength); [lia|].
    destruct (Nat.ltb_spec MaxPasswordLength (blen password)); [lia|]. cbn [orb].
    rewrite (NewBreacher_run _ _ _ _ _ D N), E. case_bool_decide; [done|]. fold lookup.
    destruct lookup.1 as [e|[]]; [|done..]. by destruct (sv_breachFailClosed s).
  - intros ending entries x' Ex Br I F L. unfold lookup. erewrite range_verdict; [done|exact Br|exact Ex|done..].
  - intros I. rewrite (NewBreacher_run _ _ _ _ _ D N). by rewrite bool_decide_eq_true_2.
  - intros Np q Nq P. rewrite !(NewBreacher_run _ _ _ _ _ D N), E, !bool_decide_eq_false_2 by done.
    by apply range_lookup_k_anonymous.
Qed.

End Policy.

(** *** Settings *)

(** What the environment gives is always a valid configuration, but for the echo of
    tokens in staging and production: values that could not be used, negative ones among
    them, have become the defaults without a word. *)
Lemma loaded_verification_valid getenv ParseDuration env :
  let c := LoadVerificationConfig getenv ParseDuration in
  Verification_Validate c env ≠ None ↔ vc_DevEcho c = true ∧ (env = EnvStaging ∨ env = EnvProduction).
Proof.
  intros c. assert (0 ≤ vc_Grace c ∧ 0 < vc_TokenTTL c ∧ 0 ≤ vc_ResendCooldown c ∧ 0 < vc_ResendLimit c) as (G & T & Co & L).
  { unfold c, LoadVerificationConfig, duration_or. cbn [vc_Grace vc_TokenTTL vc_ResendCooldown vc_ResendLimit].
    split_and!; repeat case_match; props; vm_compute; (discriminate || reflexivity || done || lia). }
  unfold Verification_Validate, verification_problems, problem.
  destruct (Z.ltb_spec (vc_Grace c) 0); [lia|]. destruct (Z.leb_spec (vc_TokenTTL c) 0); [lia|].
  destruct (Z.ltb_spec (vc_ResendCooldown c) 0); [lia|]. destruct (Z.leb_spec (vc_ResendLimit c) 0); [lia|]. cbn [app].
  destruct (vc_DevEcho c); cbn [andb]; [|naive_solver].
  destruct (String.eqb_spec env EnvStaging), (String.eqb_spec env EnvProduction); cbn; naive_solver.
Qed.

(** ** A concrete check *)

#[local] Existing Instances IdentDemo.ascii_cases naming_jwt.

(** A remote side that records what it is asked and answers one page. *)
Definition demo_entries : list range_entry :=
  [mkRangeEntry "0018A45C4D1DEF81644B54AB7F969B88D65" 0; mkRangeEntry (digest_suffix "correct horse") 12].

#[local] Instance page_client : HttpClient (list HttpRequest) := {|
  bad_request _ := None;
  exchange request seen := (inr (mkHttpAnswer 200 (inr (range_page carriage_return demo_entries))), request :: seen);
|}.

Definition demo_breach_config : BreachConfig := mkBreachConfig true "" false.
Definition demo_check : Breacher (list HttpRequest) :=
  match NewBreacher (λ _, "") (λ _, inl "") demo_breach_config with inr check => check | inl _ => λ _, mret false end.
Definition breach_service : Service :=
  NewService (NewIssuer "s3cret" "motivra" "api" []) None [WithPasswordBreacher (Some (λ p, (demo_check p []).1)) false].

(** A denied password is not looked up; a listed one is refused; the padding of the page
    is no hit. *)
Example breach_checks :
  demo_check "Password123" [] = (inr true, []) ∧ (demo_check "correct horse" []).1 = inr true ∧
  (demo_check "correct horse battery" []).1 = inr false ∧
  map hq_URL (demo_check "correct horse" []).2 = ["https://api.pwnedpasswords.com/range/" +:+ digest_prefix "correct horse"].
Proof. vm_compute. done. Qed.

Lemma demo_denied : denied (λ _, inl "") demo_breach_config = inr NewDenylistChecker.
Proof. unfold denied, demo_breach_config. cbn [DenylistFile String.eqb]. reflexivity. Qed.

Lemma demo_check_built : NewBreacher (X := list HttpRequest) (λ _, "") (λ _, inl "") demo_breach_config = inr demo_check.
Proof. unfold demo_check. unfold NewBreacher. rewrite demo_denied. reflexivity. Qed.

Lemma demo_printable : Forall printable_entry demo_entries.
Proof.
  repeat apply Forall_cons; [..|apply Forall_nil]; (split_and!; [vm_compute; discriminate|by vm_compute|apply free_of_absent; by vm_compute|
    vm_compute; discriminate|vm_compute; discriminate]).
Qed.

Definition breach_world : ident_world := mkIdentWorld empty_ident_db [].

Lemma breach_policy_witness :
  checkPasswordBreach breach_service "correct horse" breach_world = (inl breached_password, breach_world).
Proof.
  pose proof (breach_policy (λ _, "") (λ _, inl "") breach_service demo_breach_config NewDenylistChecker demo_check
    "correct horse" [] breach_world demo_denied demo_check_built) as P.
  destruct P as (E & Pg & _); [reflexivity|reflexivity|unfold MinPasswordLength, MaxPasswordLength; cbn; lia|].
  cbv zeta in E, Pg. rewrite E, (Pg carriage_return demo_entries [range_request DefaultHIBPBaseURL "correct horse"]); clear E Pg.
  - vm_compute. reflexivity.
  - reflexivity.
  - reflexivity.
  - set_solver.
  - exact demo_printable.
  - vm_compute. discriminate.
Defined.
