(* ===== verification/Signer.v ===== *)
(** * Signer: the asymmetric signer of the identity service ([backend/platform/signer.go])

    Loading a key from a PEM file, the fingerprint it is named by, and the key set it
    advertises. [encoding/pem], [crypto/x509] and the key generators are the class
    [KeyMaterial], with what their documentation says of the keys they return; files are
    a parameter. The signature itself belongs to golang-jwt ([IdentModels.Sign]). *)

From Stdlib Require Import Ascii.
From S2P Require Import Prelude Text Sha256 Platform Wire PayModels Float64 Http Base64 Jwks Jwt Config.
From S2P Require Import IdentModels.

Open Scope Z_scope.

(** ** Key material *)

(** The dynamic type of a parsed private key; other kinds carry the name of their type. *)
Inductive KeyType := TypeEd25519 | TypeRSA | TypeOther (name : string).

Class KeyMaterial := {
  private : Type;
  key_type : private → KeyType;
  Public : private → PublicKey;                          (* k.Public() *)
  pem_Decode : string → option (string * string);        (* the type and bytes of the first block *)
  ParsePKCS8PrivateKey : string → string + private;
  ParsePKCS1PrivateKey : string → string + private;
  ParsePKIXPublicKey : string → string + PublicKey;
  MarshalPKIXPublicKey : PublicKey → string + string;    (* DER *)
  GenerateKey : N → private;                             (* ed25519, from random bytes *)
  ed25519_public : ∀ k, key_type k = TypeEd25519 → ∃ bytes, Public k = Ed25519 bytes ∧ issuer_key (Public k);
  rsa_public : ∀ k, key_type k = TypeRSA → ∃ n e, Public k = RSA n e ∧ issuer_key (Public k);
  pkcs1_rsa : ∀ bytes k, ParsePKCS1PrivateKey bytes = inr k → key_type k = TypeRSA;
  generated_ed25519 : ∀ seed, key_type (GenerateKey seed) = TypeEd25519;
  supported_keys_marshal : ∀ pub, issuer_key pub → ∃ der, MarshalPKIXPublicKey pub = inr der;
}.

Definition type_name (t : KeyType) : string :=
  match t with TypeEd25519 => "ed25519.PrivateKey" | TypeRSA => "*rsa.PrivateKey" | TypeOther name => name end.

Record SignerConfig := mkSignerConfig { sc_Issuer : string; sc_Audience : string; sc_KeyID : string }.

(** ** The key set document *)

Definition jwk_json (j : JWK) : string :=
  json_object (member "kty" (json_string (Kty j)) ++ member "kid" (json_string (Kid j)) ++
    member "alg" (json_string (Alg j)) ++ nonempty "use" (Use j) ++ nonempty "crv" (Crv j) ++
    nonempty "x" (jwk_X j) ++ nonempty "n" (jwk_N j) ++ nonempty "e" (jwk_E j)).

Definition marshalJWKS (keys : list JWK) : string :=
  json_object (member "keys" (json_array (map jwk_json keys))).

Section Signer.
Context `{KeyMaterial}.

Record Signer := mkSigner {
  sg_method : string;
  sg_private : private;
  sg_public : PublicKey;
  sg_kid : string;
  sg_issuer : string;
  sg_audience : string;
  jwksDocument : string;
}.

Definition signingMethodFor (pub : PublicKey) : option string :=
  match pub with
  | Ed25519 _ => Some AlgorithmEdDSA
  | RSA _ _ => Some AlgorithmRS256
  | OtherKey => None
  end.

Definition deriveKID (pub : PublicKey) : string + string :=
  match MarshalPKIXPublicKey pub with
  | inl e => inl ("jwt signer: marshal public key: " +:+ e)
  | inr der => inr (hex_encode (take 16 (sha256 (to_bytes der))))
  end.

Definition signer_jwk (method : string) (pub : PublicKey) (kid : string) : JWK := publicKeyToJWK pub kid method.

Definition newJWTSigner (method : string) (priv : private) (pub : PublicKey) (cfg : SignerConfig) : string + Signer :=
  match (if String.eqb (sc_KeyID cfg) "" then deriveKID pub else inr (sc_KeyID cfg)) with
  | inl e => inl e
  | inr kid => inr (mkSigner method priv pub kid (sc_Issuer cfg) (sc_Audience cfg)
                      (marshalJWKS [signer_jwk method pub kid]))
  end.

(** [seed] is what the random reader gives, [None] its failure with a text. *)
Definition GenerateJWTSigner (seed : string + N) (cfg : SignerConfig) : string + Signer :=
  match seed with
  | inl e => inl ("generate ed25519 key: " +:+ e)
  | inr seed => let k := GenerateKey seed in newJWTSigner AlgorithmEdDSA k (Public k) cfg
  end.

Definition parse_private (quote : string → string) (kind bytes : string) : string + private :=
  if String.eqb kind "PRIVATE KEY" then
    match ParsePKCS8PrivateKey bytes with
    | inl e => inl ("jwt signer: parse PKCS#8 private key: " +:+ e)
    | inr k =>
        match key_type k with
        | TypeOther name => inl ("jwt signer: unsupported private key type " +:+ name +:+ " (want Ed25519 or RSA)")
        | _ => inr k
        end
    end
  else if String.eqb kind "RSA PRIVATE KEY" then
    match ParsePKCS1PrivateKey bytes with
    | inl e => inl ("jwt signer: parse PKCS#1 private key: " +:+ e)
    | inr k => inr k
    end
  else if String.eqb kind "ED25519 PRIVATE KEY" then
    match ParsePKCS8PrivateKey bytes with
    | inl e => inl ("jwt signer: parse Ed25519 PKCS#8 private key: " +:+ e)
    | inr k =>
        match key_type k with
        | TypeEd25519 => inr k
        | t => inl ("jwt signer: Ed25519 PEM block does not carry an Ed25519 key (" +:+ type_name t +:+ ")")
        end
    end
  else inl ("jwt signer: unsupported PEM block type " +:+ quote kind +:+ " (want PRIVATE KEY or RSA PRIVATE KEY)").

Definition LoadJWTSignerFromPEM (quote : string → string) (pemBytes : string) (cfg : SignerConfig) : string + Signer :=
  match pem_Decode pemBytes with
  | None => inl "jwt signer: no PEM block found in private key material"
  | Some (kind, bytes) =>
      match parse_private quote kind bytes with
      | inl e => inl e
      | inr k =>
          match signingMethodFor (Public k) with
          | None => inl ("jwt signer: no signing method for key type " +:+ type_name (key_type k))
          | Some method => newJWTSigner method k (Public k) cfg
          end
      end
  end.

Definition LoadJWTSignerFromPEMFile (quote : string → string) (read_file : string → string + string)
    (path : string) (cfg : SignerConfig) : string + Signer :=
  match read_file path with
  | inl e => inl ("jwt signer: read private key file: " +:+ e)
  | inr raw => LoadJWTSignerFromPEM quote raw cfg
  end.

(** Of the types of a public key the model knows two, those that are accepted. *)
Definition LoadJWTPublicKeyFromPEM (pemBytes : string) : string + PublicKey :=
  match pem_Decode pemBytes with
  | None => inl "jwt public key: no PEM block found"
  | Some (_, bytes) =>
      match ParsePKIXPublicKey bytes with
      | inl e => inl ("jwt public key: parse SPKI: " +:+ e)
      | inr OtherKey => inl "jwt public key: unsupported key type (want Ed25519 or RSA)"
      | inr pub => inr pub
      end
  end.

Definition LoadJWTPublicKeyFromPEMFile (read_file : string → string + string) (path : string) : string + PublicKey :=
  match read_file path with
  | inl e => inl ("jwt public key: read file: " +:+ e)
  | inr raw => LoadJWTPublicKeyFromPEM raw
  end.

(** [NewSignerFromConfig]: where the key comes from is [Config.NewSignerFromConfig]. *)
Definition signer_from_config (quote : string → string) (read_file : string → string + string) (seed : string + N)
    (c : Config) : string + Signer :=
  let sc := mkSignerConfig (jw_Issuer (cf_JWT c)) (jw_Audience (cf_JWT c)) (jw_KeyID (cf_JWT c)) in
  match NewSignerFromConfig c with
  | Some (SignerFile path) => LoadJWTSignerFromPEMFile quote read_file path sc
  | Some SignerEphemeral => GenerateJWTSigner seed sc
  | None => inl ("MOTIVRA_JWT_PRIVATE_KEY_FILE is required in " +:+ cf_Env c +:+
      " (asymmetric signing, ADR-0007); or set MOTIVRA_JWT_ALLOW_HS256=1 to opt into the documented legacy migration window")
  end.

Definition Signer_JWKS (s : option Signer) : string :=
  match s with Some s => jwksDocument s | None => json_object (member "keys" "[]") end.

(** ** Signers and verifiers agree *)

(** What every signer is: its public key is that of the private one and of a supported
    kind, its algorithm fits, it has a name, and its document lists exactly that key. *)
Record sound_signer (s : Signer) : Prop := {
  ss_public : sg_public s = Public (sg_private s);
  ss_key : issuer_key (sg_public s);
  ss_method : algMatchesKey (sg_method s) (sg_public s) = true;
  ss_named : sg_kid s ≠ "";
  ss_document : jwksDocument s = marshalJWKS [publicKeyToJWK (sg_public s) (sg_kid s) (sg_method s)];
}.

Lemma kid_nonempty pub kid : deriveKID pub = inr kid → kid ≠ "".
Proof.
  unfold deriveKID. destruct (MarshalPKIXPublicKey pub) as [|der]; [done|]. intros [= <-].
  pose proof (sha256_length (to_bytes der)) as L. destruct (sha256 (to_bytes der)) as [|b bs]; done.
Qed.

Lemma newJWTSigner_sound method k cfg s : issuer_key (Public k) → algMatchesKey method (Public k) = true →
  newJWTSigner method k (Public k) cfg = inr s → sound_signer s.
Proof.
  intros I A. unfold newJWTSigner. destruct (String.eqb_spec (sc_KeyID cfg) "") as [E|Ne].
  - destruct (deriveKID (Public k)) as [|kid] eqn:D; [done|]. intros [= <-]. apply kid_nonempty in D. by split.
  - intros [= <-]. by split.
Qed.

Lemma signer_key k : (∀ name, key_type k ≠ TypeOther name) → issuer_key (Public k) ∧
  ∃ method, signingMethodFor (Public k) = Some method ∧ algMatchesKey method (Public k) = true.
Proof.
  intros N. destruct (key_type k) as [| |name] eqn:T; [| |by destruct (N name)].
  - destruct (ed25519_public k T) as (bytes & E & I). split; [done|]. rewrite E. by exists AlgorithmEdDSA.
  - destruct (rsa_public k T) as (n & e & E & I). split; [done|]. rewrite E. by exists AlgorithmRS256.
Qed.

Lemma parse_private_type quote kind bytes k : parse_private quote kind bytes = inr k → ∀ name, key_type k ≠ TypeOther name.
Proof.
  unfold parse_private. intros P name T. repeat case_match; try congruence.
  match goal with P : ParsePKCS1PrivateKey _ = inr _ |- _ => apply pkcs1_rsa in P end. congruence.
Qed.

Lemma signer_from_config_sound quote read_file seed c s :
  signer_from_config quote read_file seed c = inr s → sound_signer s.
Proof.
  unfold signer_from_config. destruct (NewSignerFromConfig c) as [[path|]|]; [| |done].
  - unfold LoadJWTSignerFromPEMFile, LoadJWTSignerFromPEM. destruct (read_file path) as [|raw]; [done|].
    destruct (pem_Decode raw) as [[kind bytes]|]; [|done]. destruct (parse_private quote kind bytes) as [|k] eqn:P; [done|].
    destruct (signer_key k (parse_private_type _ _ _ _ P)) as (I & method & -> & A). by apply newJWTSigner_sound.
  - unfold GenerateJWTSigner. destruct seed as [|seed]; [done|].
    destruct (signer_key (GenerateKey seed)) as (I & method & M & A); [by rewrite generated_ed25519|].
    destruct (ed25519_public _ (generated_ed25519 seed)) as (b & E & _). rewrite E in M. injection M as <-.
    by apply newJWTSigner_sound.
Qed.

(** The first look into a new cache asks the endpoint. *)
Lemma first_fetch kid alg now answer :
  lookup kid alg now answer newJWKSCache =
  let c := fetchLocked (mkJwksCache jwksMinRefreshGap ∅ zero_time now false) now answer in
  match jc_keys c !! kid with
  | None => (inl tt, c)
  | Some key => if algMatchesKey alg key then (inr key, c) else (inl tt, c)
  end.
Proof.
  assert (K : known newJWKSCache kid = false) by done. assert (T : throttled newJWKSCache now = false) by done.
  unfold lookup, refreshed. by rewrite K, T.
Qed.

(** A verifier that fetches the document of a signer, however the signer was made, holds
    one key, the signer's own, under the name and for the algorithm the signer writes into
    its tokens; so does one that was given the key and its name. *)
Theorem signer_trusted quote read_file seed c s v now :
  signer_from_config quote read_file seed c = inr s →
  let document := [publicKeyToJWK (sg_public s) (sg_kid s) (sg_method s)] in
  let token := mkToken (sg_method s) (Some (sg_kid s)) in
  Signer_JWKS (Some s) = marshalJWKS document ∧
  fetchJWKS (Some document) = Some {[sg_kid s := sg_public s]} ∧
  (staticKeys v = ∅ → jwks v = Some newJWKSCache →
    (keyFor now (Some document) token v).1 = inr (KeyPublic (sg_public s))) ∧
  (keyFor now None token (apply_option v (WithPublicKeyPEM (sg_kid s) (sg_public s)))).1 = inr (KeyPublic (sg_public s)).
Proof.
  intros S document token. destruct (signer_from_config_sound _ _ _ _ _ S) as [_ I A N D].
  assert (F : fetchJWKS (Some document) = Some {[sg_kid s := sg_public s]}).
  { unfold fetchJWKS, document. cbn [mbind option_bind collect].
    assert (usable (publicKeyToJWK (sg_public s) (sg_kid s) (sg_method s)) = true ∧
      Kid (publicKeyToJWK (sg_public s) (sg_kid s) (sg_method s)) = sg_kid s) as [-> Kd].
    { unfold usable. apply String.eqb_neq in N.
      destruct (sg_public s); [| |done]; cbn [publicKeyToJWK Use Kid Alg algMatchesKey] in A |- *;
        apply String.eqb_eq in A; rewrite A, N; done. }
    rewrite jwk_round_trip by done. cbn [mbind option_bind]. rewrite Kd.
    rewrite bool_decide_eq_false_2; [done|]. rewrite map_size_insert_None by done. by rewrite map_size_empty. }
  assert (M : String.eqb (sg_method s) AlgorithmHS256 = false ∧
    String.eqb (sg_method s) AlgorithmEdDSA || String.eqb (sg_method s) AlgorithmRS256 = true).
  { destruct (sg_public s); [| |done]; cbn in A; apply String.eqb_eq in A; by rewrite A. }
  destruct M as [M1 M2]. apply String.eqb_neq in N. split_and!; [exact D|exact F|..].
  - intros Sk Jk. unfold keyFor, token. cbn [tk_kid tk_alg default option.from_option id].
    rewrite M1, M2, N, Sk, lookup_empty, Jk, first_fetch. unfold fetchLocked. rewrite F. cbn [jc_keys]. by rewrite lookup_singleton_eq, A.
  - unfold keyFor, token. cbn [tk_kid tk_alg default option.from_option id apply_option staticKeys].
    by rewrite M1, M2, N, lookup_insert_eq, A.
Qed.

End Signer.


(** ** An instance *)

(** Two keys: one PEM block carries the Ed25519 one, every other block the RSA one. *)
Definition two_publics (ed : bool) : PublicKey := if ed then key_a else RSA 3233 65537.

Definition two_types (ed : bool) : KeyType := if ed then TypeEd25519 else TypeRSA.

Lemma two_ed k : two_types k = TypeEd25519 → ∃ bytes, two_publics k = Ed25519 bytes ∧ issuer_key (two_publics k).
Proof. destruct k; [|done]. eexists. split; [done|]. split; [|done]. by apply list.Forall_replicate. Qed.

Lemma two_rsa k : two_types k = TypeRSA → ∃ n e, two_publics k = RSA n e ∧ issuer_key (two_publics k).
Proof. destruct k; [done|]. do 2 eexists. split; [done|]. by vm_compute. Qed.

Lemma two_pkcs1 (bytes : string) (k : bool) : @inr string bool false = inr k → two_types k = TypeRSA.
Proof. by intros [= <-]. Qed.

Lemma two_generated (seed : N) : two_types true = TypeEd25519.
Proof. done. Qed.

Lemma two_marshal (pub : PublicKey) : issuer_key pub → ∃ der, @inr string string "der" = inr der.
Proof. by exists "der". Qed.

#[local] Instance two_keys : KeyMaterial := {|
  private := bool;
  key_type := two_types;
  Public := two_publics;
  pem_Decode text := if String.eqb text "" then None else Some (text, "");
  ParsePKCS8PrivateKey _ := inr true;
  ParsePKCS1PrivateKey _ := inr false;
  ParsePKIXPublicKey _ := inr key_a;
  MarshalPKIXPublicKey _ := inr "der";
  GenerateKey _ := true;
  ed25519_public := two_ed;
  rsa_public := two_rsa;
  pkcs1_rsa := two_pkcs1;
  generated_ed25519 := two_generated;
  supported_keys_marshal := two_marshal;
|}.

Definition rsa_file (path : string) : string + string :=
  if String.eqb path "/etc/jwt.pem" then inr "RSA PRIVATE KEY" else inl "no such file".

Definition issuer_config : Config :=
  production (mkJWTConfig "" "motivra-identity" "motivra" "/etc/jwt.pem" "" "" "" false).



Example rsa_signer_document : ∃ s, signer_from_config plain_quote rsa_file (inl "") issuer_config = inr s ∧
  sg_method s = "RS256" ∧
  Signer_JWKS (Some s) = json_object (member "keys" (json_array [json_object
    (member "kty" (json_string "RSA") ++ member "kid" (json_string (sg_kid s)) ++
     member "alg" (json_string "RS256") ++ member "use" (json_string "sig") ++
     member "n" (json_string "DKE") ++ member "e" (json_string "AQAB"))])).
Proof.
  destruct (signer_from_config plain_quote rsa_file (inl "") issuer_config) as [|s] eqn:E; [by vm_compute in E|].
  exists s. split; [done|]. vm_compute in E. injection E as <-. split; vm_compute; reflexivity.
Qed.

Theorem signer_trusted_witness : ∃ s v,
  signer_from_config plain_quote rsa_file (inl "") issuer_config = inr s ∧ sg_public s = RSA 3233 65537 ∧
  (keyFor 5 (Some [publicKeyToJWK (sg_public s) (sg_kid s) (sg_method s)]) (mkToken "RS256" (Some (sg_kid s))) v).1 =
    inr (KeyPublic (RSA 3233 65537)).
Proof.
  destruct (signer_from_config plain_quote rsa_file (inl "") issuer_config) as [|s] eqn:E; [vm_compute in E; discriminate|].
  set (v := mkJWTValidator "" "" 0 None ∅ (Some newJWKSCache)).
  destruct (signer_trusted plain_quote rsa_file (inl "") issuer_config s v 5 E) as (_ & _ & K & _).
  exists s, v. split; [done|]. assert (sg_public s = RSA 3233 65537 ∧ sg_method s = "RS256") as [P M].
  { vm_compute in E. injection E as <-. split; reflexivity. }
  split; [done|]. rewrite <- P, <- M. by apply K.
Defined.
