(* ===== verification/Wiring.v ===== *)
(** * Wiring: how the binaries of the system start ([cmd/*/main.go])

    The boot steps of the services that start degraded, gateway included, as steps of the
    loop of [Boot], over the variables their closures capture; and the mains of the
    services that fail fast. What the outside answers in a pass, a database, a broker, a
    key server, files and the random reader, is the record [Outside]. Listeners, signals,
    logging, tracing and metrics are not modelled. *)

From stdpp Require Import sorting.
From S2P Require Import Prelude Text Platform Wire PayModels Float64 Http Auth Jwks Jwt Config Boot.
From S2P Require Import IdentModels IdentBreach Providers Daraja Signer.

Open Scope Z_scope.

(** ** The outside *)

(** An answer [Some e] is an error with its text; [n] is the pass. *)
Record Outside := mkOutside {
  NewPostgres : nat → string → option string;
  Ping : nat → option string;
  MigrateUp : nat → string → option string;         (* by the table of the chain *)
  NewNATSPublisher : nat → string → option string;
  ParseURL : string → option string;                (* of Redis *)
  ReadFile : nat → string → string + string;
  random : nat → string + N;
  key_set : nat → option (list JWK);                (* the answer of the JWKS endpoint *)
  clock : nat → time;
  CloseRedis : option string;
}.

(** What a service gets for a publisher: none, one of a broker, or an interface that
    holds a nil pointer, which is not nil. *)
Inductive PublisherView := NoPublisher | Connected | NilPointer.

#[export] Instance PublisherView_eq_dec : EqDecision PublisherView.
Proof. solve_decision. Defined.

Definition double_quoted (s : string) : string := String (byte 34%N) (s +:+ String (byte 34%N) "").

Section Steps.
Context `{KeyMaterial} `{CaseMapping} `{HttpClient X} {R : Type}.
Context (quote : string → string) (sscan_error : string → string).
Context (cfg : Config) (o : Outside).

(** The variables of a main; each binary uses those it declares. *)
Record captured := mkCaptured {
  pool : bool;
  natsPub : bool;
  cp_publisher : PublisherView;
  cp_signer : option Signer;
  cp_breacher : option (Breacher X);
  redisClient : bool;
  validator : option JWTValidator;
  checkers : gset string;
  reconcileInterval : Z;
  reconciling : bool;
}.

Definition minute_interval : Z := minute.

Definition nothing_wired : captured :=
  mkCaptured false false NoPublisher None None false None ∅ minute_interval false.

Definition with_pool (v : captured) : captured :=
  mkCaptured true (natsPub v) (cp_publisher v) (cp_signer v) (cp_breacher v) (redisClient v) (validator v)
    ({["database"]} ∪ checkers v) (reconcileInterval v) (reconciling v).
Definition with_nats (v : captured) : captured :=
  mkCaptured (pool v) true Connected (cp_signer v) (cp_breacher v) (redisClient v) (validator v)
    (checkers v) (reconcileInterval v) (reconciling v).
Definition with_signer (s : Signer) (v : captured) : captured :=
  mkCaptured (pool v) (natsPub v) (cp_publisher v) (Some s) (cp_breacher v) (redisClient v) (validator v)
    (checkers v) (reconcileInterval v) (reconciling v).
Definition with_breacher (b : Breacher X) (v : captured) : captured :=
  mkCaptured (pool v) (natsPub v) (cp_publisher v) (cp_signer v) (Some b) (redisClient v) (validator v)
    (checkers v) (reconcileInterval v) (reconciling v).
Definition with_redis (v : captured) : captured :=
  mkCaptured (pool v) (natsPub v) (cp_publisher v) (cp_signer v) (cp_breacher v) true (validator v)
    ({["redis"]} ∪ checkers v) (reconcileInterval v) (reconciling v).
Definition with_validator (k : JWTValidator) (v : captured) : captured :=
  mkCaptured (pool v) (natsPub v) (cp_publisher v) (cp_signer v) (cp_breacher v) (redisClient v) (Some k)
    (checkers v) (reconcileInterval v) (reconciling v).
Definition with_checker (name : string) (v : captured) : captured :=
  mkCaptured (pool v) (natsPub v) (cp_publisher v) (cp_signer v) (cp_breacher v) (redisClient v) (validator v)
    ({[name]} ∪ checkers v) (reconcileInterval v) (reconciling v).
Definition with_interval (d : Z) (v : captured) : captured :=
  mkCaptured (pool v) (natsPub v) (cp_publisher v) (cp_signer v) (cp_breacher v) (redisClient v) (validator v)
    (checkers v) d (reconciling v).
Definition with_reconciler (v : captured) : captured :=
  mkCaptured (pool v) (natsPub v) (cp_publisher v) (cp_signer v) (cp_breacher v) (redisClient v) (validator v)
    (checkers v) (reconcileInterval v) true.

Abbreviation proc := (process (H := R) (V := captured)) (only parsing).
Abbreviation step := (BootStep (H := R) (V := captured)) (only parsing).

Definition capture (f : captured → captured) (p : proc) : proc := (f p.1, p.2).

(** ** The steps *)

Definition aggregateProblems (problems : list string) : option string :=
  match problems with [] => None | _ => Some (join_problems problems) end.

(** Every problem is known before the loop starts; what the step sets is [assign]. *)
Definition config_step (problems : list string) (assign : captured → captured) : step :=
  mkBootStep "config" true (λ _ p, (capture assign p, aggregateProblems problems)).

(** [missing]: the error without a URL, if that is one. *)
Definition database_step (missing : option string) : step :=
  mkBootStep "database" false (λ n p,
    if String.eqb (cf_DatabaseURL cfg) "" then (p, missing)
    else if pool p.1 then (p, Ping o n)
    else match NewPostgres o n (cf_DatabaseURL cfg) with
         | Some e => (p, Some e)
         | None => (coordinate (OnShutdown None) (capture with_pool p), Ping o n)
         end).

Definition migrations_step (name table : string) : step :=
  mkBootStep name false (λ n p,
    (p, if negb (pool p.1) then Some "database not connected yet" else MigrateUp o n table)).

Definition nats_step : step :=
  mkBootStep "nats" false (λ n p,
    if String.eqb (cf_NATSURL cfg) "" || natsPub p.1 then (p, None)
    else match NewNATSPublisher o n (cf_NATSURL cfg) with
         | Some e => (p, Some e)
         | None => (coordinate (OnShutdown None) (capture with_nats p), None)
         end).

Definition signer_step : step :=
  mkBootStep "signer" false (λ n p,
    if bool_decide (is_Some (cp_signer p.1)) || jw_AllowHS256 (cf_JWT cfg) then (p, None)
    else match signer_from_config quote (ReadFile o n) (random o n) cfg with
         | inl e => (p, Some e)
         | inr s => (capture (with_signer s) p, None)
         end).

Definition breach_step (breachCfg : BreachConfig) : step :=
  mkBootStep "breach_denylist" false (λ n p,
    if bool_decide (is_Some (cp_breacher p.1)) then (p, None)
    else match NewBreacher sscan_error (ReadFile o n) breachCfg with
         | inl e => (p, Some e)
         | inr b => (capture (with_breacher b) p, None)
         end).

Definition redis_step : step :=
  mkBootStep "redis" false (λ n p,
    if (cf_AuthRateLimitRPM cfg <=? 0) || String.eqb (cf_RedisURL cfg) "" || redisClient p.1 then (p, None)
    else match ParseURL o (cf_RedisURL cfg) with
         | Some e => (p, Some e)
         | None => (coordinate (OnShutdown (CloseRedis o)) (capture with_redis p), None)
         end).

(** The issuer checks the tokens it signs with its own public key. *)
Definition own_validator (s : Signer) : JWTValidator :=
  NewValidator [WithValidatorIssuerAudience (jw_Issuer (cf_JWT cfg)) (jw_Audience (cf_JWT cfg));
                WithPublicKeyPEM (sg_kid s) (sg_public s)].
Definition legacy_validator : JWTValidator :=
  NewJWTValidator (jw_Secret (cf_JWT cfg)) (jw_Issuer (cf_JWT cfg)) (jw_Audience (cf_JWT cfg)).

Definition own_validator_step : step :=
  mkBootStep "validator" false (λ n p,
    if bool_decide (is_Some (validator p.1)) then (p, None)
    else match cp_signer p.1 with
         | Some s => (capture (with_validator (own_validator s)) p, None)
         | None =>
             if negb (jw_AllowHS256 (cf_JWT cfg))
             then (p, Some "no token verification source: signer unavailable and MOTIVRA_JWT_ALLOW_HS256 unset")
             else (capture (with_validator legacy_validator) p, None)
         end).

(** [NewValidatorFromConfig] with its errors. *)
Definition verification_key (n : nat) (path : string) : option (PublicKey * string) :=
  match LoadJWTPublicKeyFromPEMFile (ReadFile o n) path with
  | inl _ => None
  | inr pub => Some (pub, match deriveKID pub with inr kid => kid | inl _ => "" end)
  end.

Definition validator_from_config (n : nat) : string + JWTValidator :=
  match NewValidatorFromConfig (verification_key n) cfg with
  | Some v => inr v
  | None =>
      match (if String.eqb (jw_PublicKeyFile (cf_JWT cfg)) "" then inr OtherKey
             else LoadJWTPublicKeyFromPEMFile (ReadFile o n) (jw_PublicKeyFile (cf_JWT cfg))) with
      | inl e => inl e
      | inr _ => inl "jwt validator: no key source configured (set MOTIVRA_JWT_JWKS_URL or MOTIVRA_JWT_PUBLIC_KEY_FILE, or enable the HS256 migration flag with a secret)"
      end
  end.

Definition validator_step : step :=
  mkBootStep "validator" false (λ n p,
    if bool_decide (is_Some (validator p.1)) then (p, None)
    else match validator_from_config n with
         | inl e => (p, Some e)
         | inr k => (capture (with_validator k) p, None)
         end).

(** The check warms the cache of the validator it shares with the middleware. *)
Definition jwks_step (jwks_error : string) : step :=
  mkBootStep "jwks" false (λ n p,
    match validator p.1 with
    | None => (p, Some "token validator not wired yet")
    | Some k =>
        let '(ready, k) := ReadyCheck (clock o n) (key_set o n) k in
        (capture (λ v, with_validator k (with_checker "jwks" v)) p, if ready then None else Some jwks_error)
    end).

(** [build] is the router made of what has been wired, [also] what the step does besides,
    with the hook that stops what it has started. *)
Definition routes_step (build : captured → R) (also : captured → captured) (hook : option (option string)) : step :=
  mkBootStep "routes" false (λ n p,
    match domain p.2 with
    | Some _ => (p, None)
    | None => (coordinate (λ b, with_hook hook (SetDomainHandler (build p.1) b)) (capture also p), None)
    end).

(** ** The binaries that start degraded *)

Definition database_missing (service : string) : option string :=
  Some ("MOTIVRA_DATABASE_URL is required for " +:+ service).

Definition config_problems : list string := ValidateProblems quote cfg.

Definition issuer_problems (verification : VerificationConfig) : list string :=
  problem (String.eqb (jw_Secret (cf_JWT cfg)) "")
    "identity requires MOTIVRA_JWT_SECRET (it keys the opaque-token digests, ADR-0004)" ++
  match Verification_Validate verification (cf_Env cfg) with Some e => [e] | None => [] end.

Definition identity_steps (breachCfg : BreachConfig) (verification : VerificationConfig) (build : captured → R) : list step :=
  [config_step (config_problems ++ issuer_problems verification) id;
   database_step (Some "identity service requires MOTIVRA_DATABASE_URL");
   migrations_step "migrations" "schema_migrations_identity";
   nats_step; signer_step; breach_step breachCfg; redis_step; own_validator_step; routes_step build id None].

Definition vehicles_steps (jwks_error : string) (build : captured → R) : list step :=
  [config_step config_problems id; database_step (database_missing "the vehicles service");
   migrations_step "migrations" "schema_migrations_vehicles";
   nats_step; validator_step; jwks_step jwks_error; routes_step build id None].

Definition jobs_steps (jwks_error : string) (build : captured → R) : list step :=
  [config_step config_problems id; database_step (database_missing "the jobs service");
   migrations_step "migrations" "schema_migrations_jobs";
   migrations_step "migrations-garages" "schema_migrations_garages";
   nats_step; validator_step; jwks_step jwks_error; routes_step build id None].

Definition dispatch_steps (jwks_error : string) (build : captured → R) : list step :=
  [config_step config_problems id; validator_step; jwks_step jwks_error; database_step None;
   routes_step build (with_checker "engine") None].

(** *** The gateway *)

Definition envPaymentsProvider : string := "MOTIVRA_PAYMENTS_PROVIDER".
Definition envPaymentsWebhookSecret : string := "MOTIVRA_PAYMENTS_WEBHOOK_SECRET".
Definition envPaymentsReconcileInterval : string := "MOTIVRA_PAYMENTS_RECONCILE_INTERVAL".
Definition defaultSandboxWebhookSecret : string := "motivra-sandbox-webhook-secret-dev-only".

(** What [newGatewayWiring] reads from the environment. *)
Record gatewayWiring := mkGatewayWiring {
  breachCfg : BreachConfig;
  verificationCfg : VerificationConfig;
  sandboxWebhookSecret : string;
  darajaComplete : bool;
  paymentsSelection : string;
  rawInterval : string;
}.

Definition main_envOr (getenv : string → string) (key def : string) : string :=
  let v := getenv key in if String.eqb v "" then def else v.

(** [newGatewayWiring], with the settings of Daraja; the interval is read by the config step. *)
Definition newGatewayWiring (getenv : string → string) (ParseDuration : string → option Z) : gatewayWiring * DarajaConfig :=
  let secret := getenv envPaymentsWebhookSecret in
  let secret := if String.eqb secret "" && negb (String.eqb (cf_Env cfg) EnvStaging) && negb (String.eqb (cf_Env cfg) EnvProduction)
                then defaultSandboxWebhookSecret else secret in
  let '(daraja, complete) := DarajaConfigFromEnv getenv in
  (mkGatewayWiring (LoadBreachConfig getenv) (LoadVerificationConfig getenv ParseDuration) secret complete
     (main_envOr getenv envPaymentsProvider "sandbox") (getenv envPaymentsReconcileInterval), daraja).

(** The interval the text asks for: none, an unusable one, or a number of seconds. A
    duration is an [int64] of nanoseconds. *)
Definition interval_of (raw : string) : option (option Z) :=
  if String.eqb raw "" then Some None
  else match ParseInt raw with
       | Some secs => if secs <=? 0 then None else Some (Some (int64 (secs * second)))
       | None => None
       end.

Definition payments_problems (w : gatewayWiring) : list string :=
  (if String.eqb (paymentsSelection w) "sandbox" then []
   else if String.eqb (paymentsSelection w) "daraja" then
     problem (negb (darajaComplete w)) (envPaymentsProvider +:+ "=daraja but the Daraja STK credentials are incomplete (MOTIVRA_PAYMENTS_DARAJA_CONSUMER_KEY, _CONSUMER_SECRET, _SHORTCODE, _PASSKEY, _CALLBACK_URL)")
   else [envPaymentsProvider +:+ " must be " +:+ double_quoted "sandbox" +:+ " or " +:+ double_quoted "daraja"]) ++
  problem (String.eqb (sandboxWebhookSecret w) "")
    (envPaymentsWebhookSecret +:+ " is required outside development/test (sandbox webhook receiver refuses unsigned deliveries)") ++
  problem (negb (bool_decide (is_Some (interval_of (rawInterval w)))))
    (envPaymentsReconcileInterval +:+ " must be a positive number of seconds").

Definition gateway_problems (w : gatewayWiring) : list string :=
  config_problems ++ issuer_problems (verificationCfg w) ++ payments_problems w.

Definition gatewayBootSteps (w : gatewayWiring) (jwks_error : string) (build : captured → R) : list step :=
  [config_step (gateway_problems w) (λ v, match interval_of (rawInterval w) with Some (Some d) => with_interval d v | _ => v end);
   database_step (database_missing "the gateway (it serves the identity, vehicles, jobs, garages, payments and inspections domains)");
   migrations_step "migrations-identity" "schema_migrations_identity";
   migrations_step "migrations-vehicles" "schema_migrations_vehicles";
   migrations_step "migrations-jobs" "schema_migrations_jobs";
   migrations_step "migrations-garages" "schema_migrations_garages";
   migrations_step "migrations-payments" "schema_migrations_payments";
   migrations_step "migrations-inspections" "schema_migrations_inspections";
   nats_step; signer_step; breach_step (breachCfg w); redis_step; own_validator_step; jwks_step jwks_error;
   routes_step build (λ v, with_reconciler (with_checker "engine" v)) (Some None)].

(** ** The binaries that fail fast

    A main runs until its first failure and exits with the text it logs, or serves. The
    answers of the outside are those of pass 0; [tracing], [metrics] and [listener] are
    what the set-up of tracing and metrics and the internal listener return. *)

Abbreviation main := (M unit string) (only parsing).

Definition exit_on (text : string) (failure : option string) : main unit :=
  ensure (negb (bool_decide (is_Some failure))) text.

Definition exit_when (b : bool) (text : string) : main unit := ensure (negb b) text.

(** [var publisher *platform.NATSPublisher], handed to a parameter of the interface type:
    without a broker the interface holds a nil pointer. *)
Definition typed_publisher : main PublisherView :=
  if String.eqb (cf_NATSURL cfg) "" then mret NilPointer
  else exit_on "nats unavailable" (NewNATSPublisher o 0 (cf_NATSURL cfg));; mret Connected.

Definition main_validator : main JWTValidator :=
  from_sum (match validator_from_config 0 with inl _ => inl "token validator unavailable" | inr v => inr v end).

(** The steps all of them share, from the validation of the configuration on. *)
Definition configured (missing : option string) (tracing metrics : option string) : main unit :=
  exit_on "configuration invalid" (Config_Validate quote cfg);;
  match missing with
  | Some text => exit_when (String.eqb (cf_DatabaseURL cfg) "") text
  | None => mret tt
  end;;
  exit_on "tracing setup failed" tracing;;
  exit_on "metrics setup failed" metrics.

Record payments_process := mkPaymentsProcess {
  pp_publisher : PublisherView;
  pp_secret : string;             (* of the sandbox, which is always registered *)
  pp_daraja : bool;               (* is the adapter registered *)
  pp_default : string;
  pp_validator : JWTValidator;
  pp_interval : Z;
}.

(** The environment of [cmd/payments] beyond the platform's. *)
Definition payments_main (secret selection rawInterval : string) (darajaComplete : bool)
    (tracing metrics listener : option string) : main payments_process :=
  configured (Some "configuration invalid: MOTIVRA_DATABASE_URL is required for the payments service") tracing metrics;;
  exit_on "database unavailable" (NewPostgres o 0 (cf_DatabaseURL cfg));;
  exit_on "migrations failed" (MigrateUp o 0 "schema_migrations_payments");;
  publisher ← typed_publisher;
  exit_when (String.eqb secret "" && (String.eqb (cf_Env cfg) EnvStaging || String.eqb (cf_Env cfg) EnvProduction))
    ("configuration invalid: " +:+ envPaymentsWebhookSecret +:+ " is required outside development/test (sandbox webhook receiver refuses unsigned deliveries)");;
  let secret := if String.eqb secret "" then defaultSandboxWebhookSecret else secret in
  let selection := if String.eqb selection "" then "sandbox" else selection in
  default_provider ← (if String.eqb selection "sandbox" then mret "sandbox"
    else if String.eqb selection "daraja" then
      exit_when (negb darajaComplete) ("configuration invalid: " +:+ envPaymentsProvider +:+ "=daraja but the Daraja STK credentials are incomplete (MOTIVRA_PAYMENTS_DARAJA_CONSUMER_KEY, _CONSUMER_SECRET, _SHORTCODE, _PASSKEY, _CALLBACK_URL)");;
      mret "daraja"
    else throw ("configuration invalid: " +:+ envPaymentsProvider +:+ " must be " +:+ double_quoted "sandbox" +:+ " or " +:+ double_quoted "daraja"));
  v ← main_validator;
  interval ← from_option (interval_of rawInterval)
    ("configuration invalid: " +:+ envPaymentsReconcileInterval +:+ " must be a positive number of seconds");
  exit_on "metrics listener unavailable" listener;;
  mret (mkPaymentsProcess publisher secret darajaComplete default_provider v (default minute_interval interval)).

Record main_process := mkMainProcess { mp_publisher : PublisherView; mp_database : bool; mp_validator : JWTValidator }.

Definition inspections_main (tracing metrics listener : option string) : main main_process :=
  configured (Some "configuration invalid: MOTIVRA_DATABASE_URL is required for the inspections service") tracing metrics;;
  exit_on "database unavailable" (NewPostgres o 0 (cf_DatabaseURL cfg));;
  exit_on "migrations failed" (MigrateUp o 0 "schema_migrations_inspections");;
  publisher ← typed_publisher;
  v ← main_validator;
  exit_on "metrics listener unavailable" listener;;
  mret (mkMainProcess publisher true v).

(** The reference wiring: a database only when there is a URL; no service takes the publisher. *)
Definition template_main (tracing metrics listener : option string) : main main_process :=
  configured None tracing metrics;;
  let database := negb (String.eqb (cf_DatabaseURL cfg) "") in
  (if database then exit_on "database unavailable" (NewPostgres o 0 (cf_DatabaseURL cfg)) else mret tt);;
  (if String.eqb (cf_NATSURL cfg) "" then mret tt
   else exit_on "nats unavailable" (NewNATSPublisher o 0 (cf_NATSURL cfg)));;
  exit_on "metrics listener unavailable" listener;;
  v ← main_validator;
  mret (mkMainProcess NoPublisher database v).

(** ** What the loop of the gateway wires *)

Ltac step_cases := intros ? ?; cbn [Run config_step database_step migrations_step nats_step signer_step breach_step
  redis_step own_validator_step validator_step jwks_step routes_step];
  repeat match goal with |- context [match ?x with _ => _ end] => destruct x eqn:? end.

(** What a step has established when it succeeds. *)
Ltac step_done := intros ? ? ?; cbn [Run config_step database_step nats_step signer_step breach_step own_validator_step];
  repeat match goal with |- context [match ?x with _ => _ end] => destruct x eqn:? end; intros [= <-]; cbn; try done; try by eexists.

Lemma established_config problems assign : established (config_step problems assign) (λ _, problems = []).
Proof. intros n p p' [= _]. by destruct problems. Qed.
Lemma established_database text : established (database_step (Some text)) (λ v, pool v = true).
Proof. step_done. Qed.
Lemma established_nats : established nats_step (λ v, String.eqb (cf_NATSURL cfg) "" || natsPub v = true).
Proof. step_done. by rewrite orb_true_r. Qed.
Lemma established_signer : established signer_step (λ v, jw_AllowHS256 (cf_JWT cfg) = false → is_Some (cp_signer v)).
Proof.
  step_done. intros A. match goal with B : _ || _ = true |- _ => apply orb_true_iff in B as [G|G] end; [|congruence].
  by apply bool_decide_eq_true in G.
Qed.
Lemma established_breacher c : established (breach_step c) (λ v, is_Some (cp_breacher v)).
Proof. step_done. by match goal with B : bool_decide _ = true |- _ => apply bool_decide_eq_true in B end. Qed.
Lemma established_own_validator : established own_validator_step (λ v, is_Some (validator v)).
Proof. step_done. by match goal with B : bool_decide _ = true |- _ => apply bool_decide_eq_true in B end. Qed.

Section Gateway.
Context (w : gatewayWiring) (jwks_error : string) (build : captured → R).

Definition gateway_init : list step :=
  removelast (gatewayBootSteps w jwks_error build).
Definition gateway_also (v : captured) : captured := with_reconciler (with_checker "engine" v).

Lemma gateway_steps_split : gatewayBootSteps w jwks_error build = gateway_init ++ [routes_step build gateway_also (Some None)].
Proof. reflexivity. Qed.

Lemma gateway_quiet : Forall quiet (gateway_init ++ [routes_step build gateway_also (Some None)]).
Proof.
  rewrite <-gateway_steps_split. unfold gatewayBootSteps. repeat apply Forall_cons; try apply Forall_nil; step_cases; done.
Qed.

Lemma gateway_untouched : Forall (λ s, ∀ n p, domain (Run s n p).1.2 = domain p.2) gateway_init.
Proof. unfold gateway_init, gatewayBootSteps. cbn [removelast]. repeat apply Forall_cons; try apply Forall_nil; step_cases; done. Qed.

(** Whatever is wired is what the configuration asks for. *)
Record wired_right (v : captured) : Prop := {
  wr_publisher : cp_publisher v = if natsPub v then Connected else NoPublisher;
  wr_nats : natsPub v = true → cf_NATSURL cfg ≠ "";
  wr_redis : redisClient v = true → 0 < cf_AuthRateLimitRPM cfg ∧ cf_RedisURL cfg ≠ "";
  wr_signer : ∀ s, cp_signer v = Some s → jw_AllowHS256 (cf_JWT cfg) = false ∧
    ∃ n, signer_from_config quote (ReadFile o n) (random o n) cfg = inr s;
  wr_validator : ∀ k, validator v = Some k →
    (∃ s, cp_signer v = Some s ∧ k = own_validator s) ∨
    cp_signer v = None ∧ jw_AllowHS256 (cf_JWT cfg) = true ∧ k = legacy_validator;
  wr_breacher : ∀ b, cp_breacher v = Some b → ∃ n, NewBreacher sscan_error (ReadFile o n) (breachCfg w) = inr b;
}.

Lemma nothing_wired_right : wired_right nothing_wired.
Proof. by split. Qed.

Lemma ReadyCheck_keyless now answer k : jwks k = None → ReadyCheck now answer k = (true, k).
Proof. unfold ReadyCheck. by intros ->. Qed.

Lemma right_jwks now answer k k' b v : wired_right v → validator v = Some k → ReadyCheck now answer k = (b, k') →
  wired_right (with_validator k' (with_checker "jwks" v)).
Proof.
  intros [Pb Nt Rd Sg Vl Br] V Rc.
  assert (k' = k) as ->.
  { rewrite ReadyCheck_keyless in Rc; [congruence|]. by destruct (Vl k V) as [(? & _ & ->)|(_ & _ & ->)]. }
  split; cbn; try done. intros ? [= <-]. by apply Vl.
Qed.

Lemma gateway_keeps_right : undone_by_none (gateway_init ++ [routes_step build gateway_also (Some None)]) wired_right.
Proof.
  rewrite <-gateway_steps_split. unfold gatewayBootSteps. repeat apply Forall_cons; try apply Forall_nil; step_cases;
    intros Rt; try exact Rt; destruct Rt as [Pb Nt Rd Sg Vl Br]; cbn [fst capture coordinate] in *.
  - by split.
  - by split.
  - split; cbn; try done. intros _ E. by rewrite E in *.
  - match goal with A : _ || _ = false |- _ => apply orb_false_iff in A as [G G']; apply bool_decide_eq_false in G end.
    split; cbn; try done.
    + intros ? [= <-]. split; [done|by eexists].
    + intros k Vk. destruct (Vl k Vk) as [(s' & S' & _)|(_ & Al' & _)]; [|congruence]. destruct G. by exists s'.
  - split; cbn; try done. intros ? [= <-]. by eexists.
  - match goal with A : _ || _ = false |- _ => apply orb_false_iff in A as [G _]; apply orb_false_iff in G as [G G'] end.
    split; cbn; try done. intros _. apply Z.leb_gt in G. by apply String.eqb_neq in G'.
  - split; cbn; try done. intros ? [= <-]. left. by eexists.
  - split; cbn; try done. intros ? [= <-]. right. split_and!; try done. by match goal with A : negb _ = false |- _ => apply negb_false_iff in A | _ => idtac end.
  - by eapply right_jwks.
  - by eapply right_jwks.
  - by split.
Qed.

(** So it is in every process a request meets while the loop runs, none of which is ready. *)
Lemma gateway_trace_right passes :
  Forall (λ q, ready q.2 = false ∧ wired_right q.1)
    (wire_trace passes 0 (gatewayBootSteps w jwks_error build) (nothing_wired, NewBoot)).
Proof.
  rewrite gateway_steps_split. apply wire_trace_gated; [apply gateway_quiet|apply gateway_keeps_right|done|].
  apply nothing_wired_right.
Qed.

(** Facts that no assignment of the steps undoes. *)
Record lasting (Φ : captured → Prop) : Prop := {
  lasting_interval : ∀ d v, Φ v → Φ (with_interval d v);
  lasting_pool : ∀ v, Φ v → Φ (with_pool v);
  lasting_nats : ∀ v, Φ v → Φ (with_nats v);
  lasting_signer : ∀ s v, Φ v → Φ (with_signer s v);
  lasting_breacher : ∀ b v, Φ v → Φ (with_breacher b v);
  lasting_redis : ∀ v, Φ v → Φ (with_redis v);
  lasting_validator : ∀ k v, Φ v → Φ (with_validator k v);
  lasting_checker : ∀ name v, Φ v → Φ (with_checker name v);
}.

Lemma gateway_lasting Φ : lasting Φ → undone_by_none gateway_init Φ.
Proof.
  intros [? ? ? ? ? ? ? ?]. unfold gateway_init, gatewayBootSteps. cbn [removelast].
  repeat apply Forall_cons; try apply Forall_nil; step_cases; intros F; cbn [fst capture coordinate] in *; auto.
Qed.

Ltac in_steps := unfold gateway_init, gatewayBootSteps; cbn [removelast];
  repeat first [apply list_elem_of_here | apply list_elem_of_further].

(** A gateway all of whose steps have gone through. *)
Record fully_wired (v : captured) : Prop := {
  fw_right : wired_right v;
  fw_pool : pool v = true;
  fw_nats : cp_publisher v = if String.eqb (cf_NATSURL cfg) "" then NoPublisher else Connected;
  fw_signer : jw_AllowHS256 (cf_JWT cfg) = false → is_Some (cp_signer v);
  fw_breacher : is_Some (cp_breacher v);
  fw_validator : is_Some (validator v);
}.

(** Once the loop has ended and the gateway is ready, its configuration has no problem, and
    the router it serves is made of what it asks for. *)
Lemma gateway_wired passes p delays :
  Wire passes (gatewayBootSteps w jwks_error build) (nothing_wired, NewBoot) = (Some p, delays) → ready p.2 = true →
  gateway_problems w = [] ∧ ∃ v, fully_wired v ∧ domain p.2 = Some (build v) ∧ p.1 = gateway_also v.
Proof.
  rewrite gateway_steps_split. intros Wr Rd. pose proof gateway_quiet as Q.
  destruct (wiring_outcome _ _ _ _ _ Q Wr) as (_ & Em & _). rewrite Rd in Em. symmetry in Em. apply bool_decide_eq_true in Em.
  destruct (wire_installs gateway_init _ build gateway_also (Some None) Q eq_refl gateway_untouched (λ _ _, eq_refl)
    wired_right passes nothing_wired p delays gateway_keeps_right nothing_wired_right) as (n & p0 & pm & Pa & Pe & Iv & D & A);
    [cbn; set_solver|done|].
  rewrite Em in Pe. apply Forall_app in Q as [Q _].
  assert (T : ∀ s Φ, s ∈ gateway_init → established s Φ → lasting Φ → Φ pm.1)
    by (intros s Φ In Es U; exact (pass_through gateway_init Q n gateway_init s Φ Es (gateway_lasting Φ U) In p0 pm Pa Pe Q)).
  split; [by refine (T (config_step _ _) (λ _, _) _ (established_config _ _) _); [in_steps|split]|].
  exists pm.1. split_and!; [|done|done]. split; [done|..].
  - refine (T _ _ _ (established_database _) _); [in_steps|by split].
  - pose proof (wr_publisher _ Iv) as ->. pose proof (wr_nats _ Iv) as Nn.
    assert (String.eqb (cf_NATSURL cfg) "" || natsPub pm.1 = true) as Nt.
    { refine (T _ (λ v, String.eqb (cf_NATSURL cfg) "" || natsPub v = true) _ established_nats _); [in_steps|].
      split; try done. intros v _. apply orb_true_r. }
    destruct (String.eqb_spec (cf_NATSURL cfg) "") as [E|E]; destruct (natsPub pm.1); try done. by destruct (Nn eq_refl).
  - refine (T _ (λ v, jw_AllowHS256 (cf_JWT cfg) = false → is_Some (cp_signer v)) _ established_signer _); [in_steps|by split].
  - refine (T _ (λ v, is_Some (cp_breacher v)) _ (established_breacher _) _); [in_steps|by split].
  - refine (T _ (λ v, is_Some (validator v)) _ established_own_validator _); [in_steps|by split].
Qed.

(** However the loop has ended, the router is made of what was wired then, and that is
    what the configuration asks for. *)
Lemma gateway_outcome passes p delays :
  Wire passes (gatewayBootSteps w jwks_error build) (nothing_wired, NewBoot) = (Some p, delays) →
  ∃ v, wired_right v ∧ domain p.2 = Some (build v) ∧ p.1 = gateway_also v.
Proof.
  rewrite gateway_steps_split. intros Wr.
  destruct (wire_installs gateway_init _ build gateway_also (Some None) gateway_quiet eq_refl gateway_untouched (λ _ _, eq_refl)
    wired_right passes nothing_wired p delays gateway_keeps_right nothing_wired_right) as (n & p0 & pm & _ & _ & Iv & D & A);
    [cbn; set_solver|done|]. by exists pm.1.
Qed.

(** A configuration problem keeps the gateway from serving, but not the loop from going on:
    whenever it ends, the reconciliation has been started. *)
Lemma gateway_reconciles_anyway passes p delays :
  Wire passes (gatewayBootSteps w jwks_error build) (nothing_wired, NewBoot) = (Some p, delays) →
  reconciling p.1 = true ∧ (gateway_problems w ≠ [] → ready p.2 = false).
Proof.
  intros Wr. split; [|intros Ne; destruct (ready p.2) eqn:Rd; [|done]; by destruct (gateway_wired _ _ _ Wr Rd)].
  by destruct (gateway_outcome _ _ _ Wr) as (v & _ & _ & ->).
Qed.

End Gateway.

(** ** What a main that serves has checked *)

Lemma exit_when_inv b text u u' : exit_when b text u = (inr tt, u') → b = false.
Proof. unfold exit_when, ensure. by destruct b. Qed.

(** Without a broker the service gets an interface that holds a nil pointer: its first
    publication dereferences it. *)
Lemma typed_publisher_inv v u u' : typed_publisher u = (inr v, u') →
  v = if String.eqb (cf_NATSURL cfg) "" then NilPointer else Connected.
Proof.
  unfold typed_publisher. destruct (String.eqb _ _); [by intros [= <- _]|].
  intros Rn. apply bind_inv in Rn as [(e & _ & ?)|(a & u1 & _ & Rn)]; [done|]. by injection Rn as <- _.
Qed.

Lemma configured_inv text tracing metrics u u' : configured (Some text) tracing metrics u = (inr tt, u') →
  ValidateProblems quote cfg = [] ∧ cf_DatabaseURL cfg ≠ "".
Proof.
  unfold configured, Config_Validate. intros Rn. apply bind_inv in Rn as [(? & _ & ?)|([] & ? & C & Rn)]; [done|].
  apply bind_inv in Rn as [(? & _ & ?)|([] & ? & D & _)]; [done|]. apply exit_when_inv, String.eqb_neq in D.
  split; [|done]. by destruct (ValidateProblems quote cfg).
Qed.

Lemma strict_env : ValidateProblems quote cfg = [] → strict (cf_Env cfg) = true →
  cf_Env cfg = EnvStaging ∨ cf_Env cfg = EnvProduction.
Proof.
  intros V%ValidateProblems_exact St. destruct V as (_ & E & _). unfold strict in St.
  rewrite !elem_of_cons, elem_of_nil in E. destruct E as [E|[E|[E|[E|[]]]]]; auto; by rewrite E in St.
Qed.

(** What a payments service that serves is wired with. *)
Lemma payments_main_wired secret selection raw complete tracing metrics listener pp u u' :
  payments_main secret selection raw complete tracing metrics listener u = (inr pp, u') →
  ValidateProblems quote cfg = [] ∧ cf_DatabaseURL cfg ≠ "" ∧
  pp_secret pp ≠ "" ∧ (strict (cf_Env cfg) = true → pp_secret pp = secret) ∧
  (pp_default pp = "sandbox" ∨ pp_default pp = "daraja" ∧ pp_daraja pp = true) ∧
  pp_publisher pp = (if String.eqb (cf_NATSURL cfg) "" then NilPointer else Connected).
Proof.
  unfold payments_main. cbv zeta. intros Rn.
  apply bind_inv in Rn as [(? & _ & ?)|([] & ? & C & Rn)]; [done|]. apply configured_inv in C as [V D].
  do 2 (apply bind_inv in Rn as [(? & _ & ?)|(? & ? & _ & Rn)]; [done|]).
  apply bind_inv in Rn as [(? & _ & ?)|(v & ? & P & Rn)]; [done|]. apply typed_publisher_inv in P.
  apply bind_inv in Rn as [(? & _ & ?)|([] & ? & S & Rn)]; [done|]. apply exit_when_inv in S.
  apply bind_inv in Rn as [(? & _ & ?)|(d & ? & Df & Rn)]; [done|].
  do 3 (apply bind_inv in Rn as [(? & _ & ?)|(? & ? & _ & Rn)]; [done|]).
  injection Rn as <- _. cbn [pp_secret pp_default pp_daraja pp_publisher]. split_and!; [done|done| | | |done].
  - by destruct (String.eqb_spec secret "").
  - intros St. destruct (String.eqb_spec secret "") as [->|]; [|done].
    cbn in S. apply orb_false_iff in S as [S1%String.eqb_neq S2%String.eqb_neq]. by destruct (strict_env V St).
  - destruct (String.eqb _ "sandbox"); [left; by injection Df as <-|]. right.
    destruct (String.eqb _ "daraja"); [|done]. apply bind_inv in Df as [(? & _ & ?)|([] & ? & E & Df)]; [done|].
    apply exit_when_inv, negb_false_iff in E. by injection Df as <- _.
Qed.

End Steps.

(** The number of seconds is not bounded: from this one on the interval is negative. *)
Example interval_wraps : interval_of "9223372037" = Some (Some (-9223372036709551616)).
Proof. vm_compute. reflexivity. Qed.
