(* ===== verification/Gateway.v ===== *)
(** * Gateway: one process for every domain ([cmd/gateway/main.go])

    The routes each domain registers, with the patterns of their paths; the router the
    gateway composes of them; the services built of what the boot loop has wired; and the
    server in front: the token middleware, the health endpoints and the readiness gate.
    chi, which finds the route of a request, is the class [Chi] with what its
    documentation says; the decoding of bodies into the request types is [BodyJSON]. *)

From Stdlib Require Import Ascii.
From S2P Require Import Prelude Text Platform Wire Money PayModels Webhook Providers PayService Reconcile.
From S2P Require Import Sql JobMachine Jobs InspModels InspReport InspStore InspService.
From S2P Require Import IdentModels IdentStore IdentPassword IdentService Float64 Http TimeParse Vin Vehicles VehHttp.
From S2P Require Import Auth RateLimit Jwks Jwt Config Boot Garages Dispatch DispatchApi.
From S2P Require Import JobHttp PayHttp InspHttp IdentHttp Daraja IdentBreach Signer Wiring.

Open Scope Z_scope.

(** ** Requests and routes *)

(** A request; the path as its segments. *)
Record Request := mkRequest {
  in_Method : string;
  in_Path : list string;
  in_Query : string → string;     (* r.URL.Query().Get *)
  in_Header : Header;
  in_RemoteAddr : string;
  in_Body : string;
}.

Definition path_text (path : list string) : string := foldr (λ s t, "/" +:+ s +:+ t) "" path.

Inductive segment := Lit (s : string) | Param.
Abbreviation pattern := (list segment) (only parsing).

(** The values of the placeholders of a path that matches. *)
Fixpoint matches (p : pattern) (path : list string) : option (list string) :=
  match p, path with
  | [], [] => Some []
  | Lit s :: p, t :: path => if String.eqb s t then matches p path else None
  | Param :: p, t :: path => cons t <$> matches p path
  | _, _ => None
  end.

Inductive found := Found (route : nat) (params : list string) | NotAllowed | Unknown.

(** [go-chi]: the route it finds among those registered, which matches. A route that
    matches is missed only for a placeholder that would be empty; a method is refused on a
    path that is registered for another one. *)
Class Chi := {
  FindRoute : list (string * pattern) → string → list string → found;
  found_matches : ∀ routes method path i params, FindRoute routes method path = Found i params →
    ∃ p, routes !! i = Some (method, p) ∧ matches p path = Some params;
  not_allowed_unserved : ∀ routes method path, FindRoute routes method path = NotAllowed →
    ∀ p params, (method, p) ∈ routes → matches p path = Some params → "" ∈ params;
  not_allowed_known : ∀ routes method path, FindRoute routes method path = NotAllowed →
    ∃ m p, (m, p) ∈ routes ∧ is_Some (matches p path);
  unknown_unserved : ∀ routes method path, FindRoute routes method path = Unknown →
    ∀ m p params, (m, p) ∈ routes → matches p path = Some params → "" ∈ params;
}.

(** [platform.DecodeJSON] into the types of the request bodies. *)
Class BodyJSON := {
  decode_register : string → Error + registerRequest;
  decode_login : string → Error + loginRequest;
  decode_token : string → Error + string;           (* refresh, logout and verification tokens *)
  decode_resend : string → Error + resendVerificationRequest;
  decode_password : string → Error + changePasswordRequest;
  decode_vehicle : string → Error + createVehicleRequest;
  decode_mileage : string → Error + mileageRequest;
  decode_request : string → Error + createRequestRequest;
  decode_transition : string → Error + transitionRequest;
  decode_assignment : string → Error + assignmentRequest;
  decode_score : string → Error + scoreRequest;
  decode_initiate : string → Error + initiateRequest;
  decode_refund : string → Error + string;          (* the reason *)
  decode_session : string → Error + createSessionRequest;
  decode_finding : string → Error + findingRequest;
  decode_evidence : string → Error + evidenceRequest;
  decode_issue : string → Error + string;
  decode_capacity : string → Error + capacityRequest;
  read_limited : string → string + string;          (* io.ReadAll behind a limit, of a webhook *)
}.

Section Router.
Context {W : Type}.

Record endpoint := mkEndpoint {
  ep_Method : string;
  ep_Pattern : pattern;
  ep_Handler : Request → list string → Handler (W := W);
}.

(** [r.Route(prefix, ...)] with a route of "/": with and without the slash at the end. *)
Definition at_root (method : string) (p : pattern) (h : Request → list string → Handler (W := W)) : list endpoint :=
  [mkEndpoint method p h; mkEndpoint method (p ++ [Lit ""]) h].

Definition writeDomainNotFound (r : Request) : Response :=
  WriteError (Some (ErrNotFound ("no API route for " +:+ path_text (in_Path r)))).
Definition writeDomainMethodNotAllowed : Response :=
  WriteError (Some (mkError 405 "method_not_allowed" "Method not allowed" "" [])).

Record domainRoutes := mkDomainRoutes {
  mt_Identity : option (list endpoint);
  mt_Vehicles : option (list endpoint);
  mt_Jobs : option (list endpoint);
  mt_Dispatch : option (list endpoint);
  mt_Payments : option (list endpoint);
  mt_Inspections : option (list endpoint);
  mt_Garages : option (list endpoint);
}.

Definition mounts (d : domainRoutes) : list (list endpoint) :=
  omap id [mt_Identity d; mt_Vehicles d; mt_Jobs d; mt_Dispatch d; mt_Payments d; mt_Inspections d; mt_Garages d].

Definition registered (table : list endpoint) : list (string * pattern) :=
  map (λ e, (ep_Method e, ep_Pattern e)) table.

(** The router of a list of routes. *)
Definition route_request `{Chi} (table : list endpoint) (r : Request) : Handler (W := W) :=
  match FindRoute (registered table) (in_Method r) (in_Path r) with
  | Found i params =>
      match table !! i with
      | Some e => ep_Handler e r params
      | None => λ _ w, (writeDomainNotFound r, w)
      end
  | NotAllowed => λ _ w, (writeDomainMethodNotAllowed, w)
  | Unknown => λ _ w, (writeDomainNotFound r, w)
  end.

Definition buildDomainRouter `{Chi} (routes : domainRoutes) : Request → Handler :=
  route_request (concat (mounts routes)).

End Router.
Arguments endpoint : clear implicits. Arguments domainRoutes : clear implicits.

(** A handler on a part of the world. *)
Definition within {W T} (view : W → T) (set : T → W → W) (h : Handler (W := T)) : Handler (W := W) := λ claims w,
  let '(r, t) := h claims (view w) in (r, set t w).

(** [chi.URLParam] of the placeholder of that rank. *)
Definition url_param (params : list string) (k : nat) : string := default "" (params !! k).

(** ** The routes of the domains *)

Section Routes.
Context {W : Type} `{BodyJSON}.

Definition v1 (path : pattern) : pattern := Lit "v1" :: path.

(** [jobs.Routes] *)
Definition jobs_routes (h : job_call → Handler (W := W)) : list (endpoint W) :=
  at_root "POST" (v1 [Lit "requests"]) (λ r _, h (CreateRequestCall (decode_request (in_Body r)))) ++
  [mkEndpoint "POST" (v1 [Lit "requests"; Param; Lit "job"]) (λ _ ps, h (CreateJobCall (url_param ps 0)))] ++
  at_root "GET" (v1 [Lit "jobs"]) (λ r _, h (ListJobsCall (in_Query r "status") (in_Query r "technician_id")
    (in_Query r "limit") (in_Query r "offset"))) ++
  at_root "GET" (v1 [Lit "jobs"; Param]) (λ _ ps, h (GetJobCall (url_param ps 0))) ++
  [mkEndpoint "GET" (v1 [Lit "jobs"; Param; Lit "transitions"]) (λ _ ps, h (ListTransitionsCall (url_param ps 0)));
   mkEndpoint "POST" (v1 [Lit "jobs"; Param; Lit "transitions"])
     (λ r ps, h (TransitionCall (url_param ps 0) (decode_transition (in_Body r))));
   mkEndpoint "POST" (v1 [Lit "jobs"; Param; Lit "assignments"])
     (λ r ps, h (AssignCall (url_param ps 0) (decode_assignment (in_Body r))));
   mkEndpoint "POST" (v1 [Lit "jobs"; Param; Lit "accept"]) (λ _ ps, h (AcceptCall (url_param ps 0)))].

(** [payments.Routes] *)
Definition payments_routes (h : payment_call → Handler (W := W)) : list (endpoint W) :=
  at_root "POST" (v1 [Lit "payments"; Lit "intents"]) (λ r _, h (InitiateCall (decode_initiate (in_Body r)))) ++
  at_root "GET" (v1 [Lit "payments"; Lit "intents"]) (λ r _, h (ListIntentsCall (mkListQuery (in_Query r "status")
    (in_Query r "customer_id") (in_Query r "job_id") (in_Query r "vehicle_id") (in_Query r "limit") (in_Query r "offset")))) ++
  at_root "GET" (v1 [Lit "payments"; Lit "intents"; Param]) (λ _ ps, h (GetIntentCall (url_param ps 0))) ++
  [mkEndpoint "GET" (v1 [Lit "payments"; Lit "intents"; Param; Lit "transactions"]) (λ _ ps, h (ListTransactionsCall (url_param ps 0)));
   mkEndpoint "POST" (v1 [Lit "payments"; Lit "intents"; Param; Lit "refund"])
     (λ r ps, h (RefundCall (url_param ps 0) (decode_refund (in_Body r))));
   mkEndpoint "GET" (v1 [Lit "payments"; Lit "transactions"; Param]) (λ _ ps, h (GetTransactionCall (url_param ps 0)));
   mkEndpoint "GET" (v1 [Lit "payments"; Lit "refunds"; Param]) (λ _ ps, h (GetRefundCall (url_param ps 0)));
   mkEndpoint "POST" (v1 [Lit "payments"; Lit "webhooks"; Param])
     (λ r ps, h (WebhookCall (url_param ps 0) (in_Header r) (read_limited (in_Body r))));
   mkEndpoint "POST" (v1 [Lit "payments"; Lit "reconcile"]) (λ _ _, h ReconcileCall)].

(** [inspections.Routes] *)
Definition inspections_routes (h : insp_call → Handler (W := W)) : list (endpoint W) :=
  let sessions := v1 [Lit "inspections"; Lit "sessions"] in
  let session := sessions ++ [Param] in
  let templates := v1 [Lit "inspections"; Lit "templates"] in
  at_root "POST" sessions (λ r _, h (CreateSessionCall (decode_session (in_Body r)))) ++
  at_root "GET" sessions (λ r _, h (InspHttp.ListSessionsCall (mkSessionQuery (in_Query r "status") (in_Query r "vehicle_id")
    (in_Query r "job_id") (in_Query r "limit") (in_Query r "offset")))) ++
  at_root "GET" session (λ _ ps, h (GetSessionCall (url_param ps 0))) ++
  [mkEndpoint "POST" (session ++ [Lit "start"]) (λ _ ps, h (StartCall (url_param ps 0)));
   mkEndpoint "POST" (session ++ [Lit "findings"]) (λ r ps, h (RecordFindingCall (url_param ps 0) (decode_finding (in_Body r))));
   mkEndpoint "GET" (session ++ [Lit "findings"]) (λ _ ps, h (ListFindingsCall (url_param ps 0)));
   mkEndpoint "POST" (session ++ [Lit "evidence"]) (λ r ps, h (AttachEvidenceCall (url_param ps 0) (decode_evidence (in_Body r))));
   mkEndpoint "GET" (session ++ [Lit "evidence"]) (λ _ ps, h (ListEvidenceCall (url_param ps 0)));
   mkEndpoint "POST" (session ++ [Lit "submit"]) (λ _ ps, h (SubmitCall (url_param ps 0)));
   mkEndpoint "POST" (session ++ [Lit "report"]) (λ r ps, h (IssueReportCall (url_param ps 0) (decode_issue (in_Body r))));
   mkEndpoint "GET" (session ++ [Lit "report"]) (λ r ps, h (GetReportCall (url_param ps 0) (in_Query r "version")));
   mkEndpoint "GET" (session ++ [Lit "report"; Lit "verification"])
     (λ r ps, h (VerifyReportCall (url_param ps 0) (in_Query r "version")))] ++
  at_root "GET" templates (λ r _, h (ListTemplatesCall (in_Query r "vehicle_class"))) ++
  [mkEndpoint "GET" (templates ++ [Param]) (λ _ ps, h (GetTemplateCall (url_param ps 0)))].

(** [identity.Routes] *)
Definition request_origin (r : Request) : origin := mkOrigin (header_Get (in_Header r) "X-Forwarded-For") (in_RemoteAddr r).

Definition identity_routes (h : origin → ident_request → Handler (W := W)) : list (endpoint W) :=
  let auth path call := mkEndpoint "POST" (v1 (Lit "auth" :: path)) (λ r _, h (request_origin r) (call (in_Body r))) in
  let on method path call := mkEndpoint method path (λ r ps, h (request_origin r) (call r ps)) in
  [auth [Lit "register"] (λ b, RegisterCall (decode_register b));
   auth [Lit "login"] (λ b, LoginCall (decode_login b));
   auth [Lit "refresh"] (λ b, RefreshCall (decode_token b));
   auth [Lit "logout"] (λ b, LogoutCall (decode_token b));
   auth [Lit "verify"] (λ b, VerifyCall (decode_token b));
   auth [Lit "verification"; Lit "resend"] (λ b, ResendCall (decode_resend b));
   auth [Lit "password"] (λ b, PasswordCall (decode_password b));
   on "GET" (v1 [Lit "auth"; Lit "sessions"]) (λ _ _, IdentHttp.ListSessionsCall);
   on "DELETE" (v1 [Lit "auth"; Lit "sessions"; Param]) (λ _ ps, RevokeSessionCall (url_param ps 0));
   on "DELETE" (v1 [Lit "auth"; Lit "sessions"]) (λ _ _, RevokeAllCall);
   on "GET" [Lit ".well-known"; Lit "jwks.json"] (λ _ _, JWKSCall);
   on "GET" (v1 [Lit "users"; Lit "me"]) (λ _ _, ProfileCall);
   on "GET" (v1 [Lit "admin"; Lit "users"]) (λ r _, ListUsersCall (in_Query r "limit") (in_Query r "offset"));
   on "GET" (v1 [Lit "admin"; Lit "audit"]) (λ r _, ListAuditCall (mkAuditQuery (in_Query r "tenant_id") (in_Query r "actor_id")
     (in_Query r "action") (in_Query r "object_type") (in_Query r "object_id") (in_Query r "since") (in_Query r "until")
     (in_Query r "limit") (in_Query r "offset")))].

(** [vehicles.Routes] *)
Definition vehicles_routes (h : vehicle_call → Handler (W := W)) : list (endpoint W) :=
  let vehicle := v1 [Lit "vehicles"; Param] in
  at_root "POST" (v1 [Lit "vehicles"]) (λ r _, h (CreateVehicleCall (decode_vehicle (in_Body r)))) ++
  at_root "GET" (v1 [Lit "vehicles"]) (λ r _, h (ListVehiclesCall (in_Query r "limit") (in_Query r "cursor"))) ++
  at_root "GET" vehicle (λ _ ps, h (GetVehicleCall (url_param ps 0))) ++
  [mkEndpoint "GET" (vehicle ++ [Lit "passport"]) (λ _ ps, h (GetPassportCall (url_param ps 0)));
   mkEndpoint "GET" (vehicle ++ [Lit "history"])
     (λ r ps, h (ListHistoryCall (url_param ps 0) (in_Query r "limit") (in_Query r "offset")));
   mkEndpoint "POST" (vehicle ++ [Lit "mileage"]) (λ r ps, h (RecordMileageCall (url_param ps 0) (decode_mileage (in_Body r))))].

(** [garages.Routes] and [dispatch.Routes] *)
Definition garages_routes (get : Handler (W := W)) (put : Error + capacityRequest → Handler (W := W)) : list (endpoint W) :=
  at_root "GET" (v1 [Lit "garage"; Lit "capacity"]) (λ _ _, get) ++
  at_root "PUT" (v1 [Lit "garage"; Lit "capacity"]) (λ r _, put (decode_capacity (in_Body r))).

Definition dispatch_routes (score : Error + scoreRequest → Handler (W := W)) (factors : Handler (W := W)) : list (endpoint W) :=
  [mkEndpoint "POST" (v1 [Lit "dispatch"; Lit "score"]) (λ r _, score (decode_score (in_Body r)));
   mkEndpoint "GET" (v1 [Lit "dispatch"; Lit "factors"]) (λ _ _, factors)].

End Routes.

(** ** The services and their state *)

(** An adapter over its part of the state of all of them. *)
Definition on_part {P Q} (view : Q → P) (set : P → Q → Q) (p : Provider P) : Provider Q :=
  mkProvider (Providers.Name p) (λ req, zoom view set (Initiate p req)) (λ ref, zoom view set (Query p ref))
    (λ req, zoom view set (Provider_Refund p req)) (WebhookEvent p).

#[export] Instance on_part_contract {P Q} (view : Q → P) set (p : Provider P) :
  ProviderContract p → ProviderContract (on_part view set p).
Proof.
  intros [I Qt Wh]. split; cbn [on_part Initiate Query WebhookEvent]; [| |exact Wh].
  - intros req s res s'. unfold zoom. destruct (Initiate p req (view s)) as [r t] eqn:E. intros [= -> _]. by eapply I.
  - intros ref s res s'. unfold zoom. destruct (Query p ref (view s)) as [r t] eqn:E. intros [= -> _]. by eapply Qt.
Qed.

(** What the gateway's process keeps: the tables of every domain in the one database, with
    the events each has published, the limiter of the public identity endpoints, and the
    adapters. *)
Abbreviation limiter_state := (RateLimiter * gmap string rl_bucket)%type (only parsing).

Section World.
Context {X : Type}.

Abbreviation adapters := (sandbox_state * DarajaState X)%type (only parsing).

Record gateway_world := mkGatewayWorld {
  g_identity : limiter_state * ident_world;
  g_vehicles : veh_world;
  g_jobs : job_world;
  g_payments : world adapters;
  g_inspections : insp_world;
  g_garages : garage_world;
}.

Definition set_identity i w := mkGatewayWorld i (g_vehicles w) (g_jobs w) (g_payments w) (g_inspections w) (g_garages w).
Definition set_vehicles v w := mkGatewayWorld (g_identity w) v (g_jobs w) (g_payments w) (g_inspections w) (g_garages w).
Definition set_jobs j w := mkGatewayWorld (g_identity w) (g_vehicles w) j (g_payments w) (g_inspections w) (g_garages w).
Definition set_payments p w := mkGatewayWorld (g_identity w) (g_vehicles w) (g_jobs w) p (g_inspections w) (g_garages w).
Definition set_inspections i w := mkGatewayWorld (g_identity w) (g_vehicles w) (g_jobs w) (g_payments w) i (g_garages w).
Definition set_garages g w := mkGatewayWorld (g_identity w) (g_vehicles w) (g_jobs w) (g_payments w) (g_inspections w) g.

(** The identity database, on its own. *)
Definition set_accounts a w := set_identity ((g_identity w).1, a) w.
Definition g_accounts w : ident_world := (g_identity w).2.

End World.
Arguments gateway_world : clear implicits.

(** The brokers' answers to the events of the domains. *)
Record Brokers := mkBrokers {
  br_identity : Event IdentPayload → bool;
  br_vehicles : Event VehPayload → bool;
  br_jobs : Event JobPayload → bool;
  br_payments : PaymentEvent → bool;
  br_inspections : Event InspPayload → bool;
  br_garages : Event CapacityUpdatedPayload → bool;
}.

(** Texts of errors, and how they are quoted. *)
Record Texts := mkTexts {
  tx_quote : string → string;
  tx_quote_byte : ascii → string;
  tx_payments : PayService.ServiceError → string;
  tx_serial : JobTransition → Z;
  tx_conflict : string;
  tx_inspections : InspError → string;
  tx_garages : garage_texts;
}.

Section Mounts.
Context `{Driver} `{UuidText} `{StaleStore} `{UpperMapping} `{FloatText} `{JsonColumn} `{UuidV5} `{SnapshotText}.
Context `{CaseMapping} `{Jwt} `{Argon2} `{!RowOrder HistoryEvent} `{!RowOrder Job} `{CaseFolding} `{KeyMaterial} `{HttpClient X} `{DarajaJSON}.
Context `{Chi} `{BodyJSON}.
Context (as_private : private → private_key).
Context (decode : string → option (webhookEnvelope * string)) (decodes_value : string → bool) (zone : time → Z).
Context (brokers : Brokers) (texts : Texts).
Context (cfg : Config) (wiring : gatewayWiring) (darajaCfg : DarajaConfig).

Abbreviation W := (gateway_world X) (only parsing).
Abbreviation captured_vars := (captured (X := X)) (only parsing).

(** What a request meets: clock, random bytes and identifiers, the second reading of the
    clock, the remote side of the breach corpus, and whether Redis answers. *)
Record Circumstances := mkCircumstances {
  cm_ctx : IdentCtx;
  cm_clock : time;
  cm_remote : X;
  cm_redis : bool;
  cm_suffix : string;
}.

Definition publisher_of {A} (v : captured_vars) (broker : A → bool) : option (A → bool) :=
  match cp_publisher v with NoPublisher => None | _ => Some broker end.

(** *** Identity *)

Definition issuer_signer (s : Signer) : JWTSigner :=
  mkJWTSigner (sg_method s) (as_private (sg_private s)) (sg_kid s).

Definition gateway_issuer (v : captured_vars) : Issuer :=
  let j := cf_JWT cfg in
  NewIssuer (jw_Secret j) (jw_Issuer j) (jw_Audience j)
    (WithVerificationGrace (vc_Grace (verificationCfg wiring)) ::
     match cp_signer v with Some s => [WithSigner (Some (issuer_signer s))] | None => [] end).

Definition identity_service (m : Circumstances) (v : captured_vars) : IdentService.Service :=
  IdentService.NewService (gateway_issuer v) (publisher_of v (br_identity brokers))
    [WithTrustForwarded (cf_TrustForwarded cfg);
     WithPasswordBreacher ((λ (b : Breacher X) password, (b password (cm_remote m)).1) <$> cp_breacher v)
       (FailClosed (breachCfg wiring));
     WithVerification (verificationCfg wiring)].

(** The in-process window, or the shared one when Redis is wired; its errors fail open. *)
Definition local_limiter (m : Circumstances) : AuthLimiter limiter_state := λ key l,
  let '(r, window) := in_process (ic_now (cm_ctx m)) (cm_clock m) key l.1 in (r, (window, l.2)).

Definition shared_limiter (m : Circumstances) : AuthLimiter limiter_state := λ key l,
  match Redis_Allow (cm_redis m) (cf_AuthRateLimitRPM cfg) key (ic_now (cm_ctx m)) (cm_suffix m) l.2 with
  | (inr false, db) =>
      let '(retry, db) := Redis_RetryAfter (cm_redis m) (cf_AuthRateLimitRPM cfg) key (cm_clock m) db in
      (Some (too_many (match retry with inr d => d | inl _ => minute end)).2, (l.1, db))
  | (_, db) => (None, (l.1, db))
  end.

Definition authLimiter (m : Circumstances) (v : captured_vars) : option (AuthLimiter limiter_state) :=
  if 0 <? cf_AuthRateLimitRPM cfg then Some (if redisClient v then shared_limiter m else local_limiter m) else None.

(** *** Dispatch

    Its decisions go to the audit table of the identity database. *)
Definition decision_entry (r : DecisionRecord) : AuditEntry :=
  mkAuditEntry (Some (dr_ActorID r)) ActionDispatchScored DecisionObjectType (uuid_string (dr_DecisionID r)) (dr_TenantID r)
    (Some (
      match dr_JobID r with Some j => {["job_id" := MText (uuid_string j)]} | None => ∅ end ∪
      {["candidate_count" := MInt (dr_CandidateCount r); "chosen_score" := MFloat (dr_ChosenScore r);
        "chosen_technician_id" := MText (uuid_string (dr_ChosenTechnicianID r));
        "inputs_sha256" := MText (dr_InputsHash r);
        "weights" := MFloats
          [("availability", wt_Availability (dr_Weights r)); ("equipment", wt_Equipment (dr_Weights r));
           ("parts", wt_Parts (dr_Weights r)); ("performance", wt_Performance (dr_Weights r));
           ("proximity", wt_Proximity (dr_Weights r)); ("technical_fit", wt_TechnicalFit (dr_Weights r))]]})).

Definition record_decision (now : time) (r : DecisionRecord) : M ident_world (option Error) unit :=
  from_option (decision_metadata r) None;;
  wrap (λ _, None) (IdentService.on_db (InsertAudit now (decision_entry r))).

Definition recorder (m : Circumstances) (v : captured_vars) : option (DecisionRecord → M ident_world (option Error) unit) :=
  if pool v then Some (record_decision (ic_now (cm_ctx m))) else None.

(** *** Payments *)

Definition gateway_providers (m : Circumstances) : gmap string (Provider (sandbox_state * DarajaState X)) :=
  let now := ic_now (cm_ctx m) in
  let sandbox := on_part fst (λ s a, (s, a.2))
    (SandboxProvider (tx_quote texts) decode decodes_value (sandboxWebhookSecret wiring) now (cm_clock m)) in
  let daraja := on_part snd (λ d a, (a.1, d)) (DarajaProvider (tx_quote texts) zone darajaCfg now) in
  let providers := {[Providers.Name sandbox := sandbox]} in
  if darajaComplete wiring then <[Providers.Name daraja := daraja]> providers else providers.

Definition payments_service (m : Circumstances) (v : captured_vars) : PayService.Service (sandbox_state * DarajaState X) :=
  PayService.mkService (gateway_providers m) (publisher_of v (br_payments brokers))
    (if String.eqb (paymentsSelection wiring) ProviderDaraja then ProviderDaraja else ProviderSandbox).

Definition payments_reconciler (m : Circumstances) (v : captured_vars) : Reconciler (sandbox_state * DarajaState X) :=
  NewReconciler (gateway_providers m) (publisher_of v (br_payments brokers)) 0.

(** *** The mounts *)

Definition productionMounts (m : Circumstances) (v : captured_vars) : domainRoutes W :=
  let ic := cm_ctx m in
  let c := ic_ctx ic in
  let identity := ident_route (identity_service m v) (λ _, Signer_JWKS (cp_signer v)) (authLimiter m v) ic in
  mkDomainRoutes
    (Some (identity_routes (λ o r, within g_identity set_identity (identity o r))))
    (Some (vehicles_routes (λ r, within g_vehicles set_vehicles
       (vehicle_route (publisher_of v (br_vehicles brokers)) (tx_quote_byte texts) c r))))
    (Some (jobs_routes (λ r, within g_jobs set_jobs
       (job_route (publisher_of v (br_jobs brokers)) (tx_serial texts) (tx_conflict texts) c r))))
    (Some (dispatch_routes
       (λ body, within g_accounts set_accounts (PostScore (recorder m v) (ctx_fresh c 0) body))
       (within g_accounts set_accounts GetFactors)))
    (Some (payments_routes (λ r, within g_payments set_payments
       (payment_route (payments_service m v) (Some (payments_reconciler m v)) (tx_payments texts) c r))))
    (Some (inspections_routes (λ r, within g_inspections set_inspections
       (insp_route (publisher_of v (br_inspections brokers)) (tx_inspections texts) c r))))
    (Some (garages_routes (within g_garages set_garages GetCapacity)
       (λ body, within g_garages set_garages (PutCapacity (publisher_of v (br_garages brokers)) (tx_garages texts) c body)))).

(** What the boot loop installs. *)
Definition gateway_router : Type := Circumstances → Request → Handler (W := W).

Definition build_router (v : captured_vars) : gateway_router := λ m, buildDomainRouter (productionMounts m v).

(** A tick of [startReconciler]; its result is only logged. *)
Definition reconciler_tick (m : Circumstances) (v : captured_vars) (w : W) : W :=
  set_payments (Reconcile.Run (payments_reconciler m v) (ic_ctx (cm_ctx m)) (g_payments w)).2 w.

(** ** The server in front

    [newGatewayServer]: the token middleware on every path, the health endpoints, and the
    gate for every other path. *)
Definition health_routes : list (string * pattern) := [("GET", [Lit "healthz"]); ("GET", [Lit "readyz"])].

(** [probe]: what the live checkers answer. *)
Definition server_routes (b : Boot gateway_router) (probe : gmap string (option string)) (m : Circumstances) (r : Request)
    : Handler (W := W) := λ claims w,
  match FindRoute health_routes (in_Method r) (in_Path r) with
  | Found 0 _ => (handleLiveness, w)
  | Found _ _ => (handleReadiness probe (Some b) claims, w)
  | NotAllowed => (serveMethodGate (H := gateway_router) b, w)
  | Unknown => serveDomainGate (H := gateway_router) (λ h w, h m r claims w) b w
  end.

Section Serving.
Context `{GoJwt}.

Abbreviation gateway_process := (process (H := gateway_router) (V := captured_vars)) (only parsing).

(** A request to the process: the answer, the process, whose validator may have fetched
    keys, and the world. *)
Definition gateway_serve (p : gateway_process) (probe : gmap string (option string)) (fetched : option (list JWK))
    (m : Circumstances) (r : Request) (w : W) : Response * (gateway_process * W) :=
  let authorization := header_Get (in_Header r) "Authorization" in
  match validator p.1 with
  | None =>
      let '(resp, w) := AuthMiddlewareFunc (E := TokenError) None authorization (server_routes p.2 probe m r) w in
      (resp, (p, w))
  | Some k =>
      let validate token := zoom (T := JWTValidator) (S := JWTValidator * W) fst (λ k s, (k, s.2))
        (Jwt.Validate (ic_now (cm_ctx m)) fetched token) in
      let '(resp, (k, w)) := AuthMiddlewareFunc (Some validate) authorization
        (within snd (λ w s, (s.1, w)) (server_routes p.2 probe m r)) (k, w) in
      (resp, ((with_validator k p.1, p.2), w))
  end.

(** What the process does to the world: requests, and ticks once the loop has started them. *)
Inductive gateway_move (p : gateway_process) (w : W) : W → Prop :=
  | move_request probe fetched m r : gateway_move p w (gateway_serve p probe fetched m r w).2.2
  | move_tick m : reconciling p.1 = true → gateway_move p w (reconciler_tick m p.1 w).

End Serving.
End Mounts.
