(* ===== verification/GatewayProps.v ===== *)
(** * GatewayProps: what the composed process guarantees

    The router of the gateway refines the domains: whatever is sent, one domain's state
    moves at most, by its own steps, and only for whom its gates let through. The process
    in front of it serves nothing before everything is wired, and acts for nobody whose
    token its own key has not signed. *)

From Stdlib Require Import Ascii.
From S2P Require Import Prelude Hoare Text Platform Wire Money PayModels PayStore PayInvariant Webhook Providers PayService PayRefine Reconcile.
From S2P Require Import Sql JobMachine Jobs JobInvariant InspModels InspReport InspStore InspService InspInvariant InspRefine.
From S2P Require Import IdentModels IdentStore IdentPassword IdentService IdentInvariant Float64 Http TimeParse Vin Vehicles VehHttp VehInvariant.
From S2P Require Import Auth RateLimit Jwks Jwt Config Boot Garages GarageProps Dispatch DispatchApi.
From S2P Require Import VehWeb JobHttp JobWeb PayHttp PayWeb InspHttp InspWeb IdentHttp IdentWeb Daraja DarajaProps IdentBreach Signer Wiring Gateway.

Open Scope Z_scope.

(** ** Patterns that no path matches together *)

Fixpoint overlap (p q : list segment) : bool :=
  match p, q with
  | [], [] => true
  | Lit s :: p, Lit t :: q => String.eqb s t && overlap p q
  | _ :: p, _ :: q => overlap p q
  | _, _ => false
  end.

Lemma overlap_spec p q path ps qs : matches p path = Some ps → matches q path = Some qs → overlap p q = true.
Proof.
  revert q path ps qs. induction p as [|s p IH]; intros [|u q] path ps qs; [done|by destruct path, u; cbn; try case_match|by destruct path, s; cbn; try case_match|].
  destruct path as [|x path]; [by destruct s|].
  assert (T : ∀ s p ps, matches (s :: p) (x :: path) = Some ps → (match s with Lit y => y = x | Param => True end) ∧ ∃ ps, matches p path = Some ps).
  { intros [y|] p' ps'; cbn; [destruct (String.eqb_spec y x); [eauto|done]|]. intros (ps1 & -> & _)%fmap_Some. eauto. }
  intros [A [ps1 M]]%T [B [qs1 M']]%T. pose proof (IH q path ps1 qs1 M M') as O.
  destruct s, u; cbn; [|done..]. subst. by rewrite String.eqb_refl.
Qed.

(** Lists of patterns that are apart pairwise. *)
Definition apart (ts : list (list (list segment))) : bool :=
  forallb (λ k, forallb (λ k', Nat.eqb k k' ||
    forallb (λ p, forallb (λ q, negb (overlap p q)) (default [] (ts !! k'))) (default [] (ts !! k)))
    (seq 0 (length ts))) (seq 0 (length ts)).

Lemma apart_spec ts : apart ts = true → ∀ k k' t t' p q, ts !! k = Some t → ts !! k' = Some t' →
  p ∈ t → q ∈ t' → overlap p q = true → k = k'.
Proof.
  intros A k k' t t' p q L L' P Q O. unfold apart in A. rewrite forallb_forall in A.
  assert (B : ∀ j s, ts !! j = Some s → List.In j (seq 0 (length ts))).
  { intros j s Lj. apply in_seq. apply lookup_lt_Some in Lj. lia. }
  specialize (A k (B _ _ L)). rewrite forallb_forall in A. specialize (A k' (B _ _ L')).
  apply orb_true_iff in A as [A|A]; [by apply Nat.eqb_eq|]. rewrite L, L' in A. cbn in A.
  rewrite forallb_forall in A. apply list_elem_of_In in P, Q. specialize (A p P). rewrite forallb_forall in A.
  specialize (A q Q). by rewrite O in A.
Qed.

Section Router.
Context `{Driver} `{UuidText} `{StaleStore} `{UpperMapping} `{FloatText} `{JsonColumn} `{UuidV5} `{SnapshotText}.
Context `{CaseMapping} `{Jwt} `{Argon2} `{!RowOrder HistoryEvent} `{!RowOrder Job} `{CaseFolding} `{KeyMaterial} `{HttpClient X} `{DarajaJSON}.
Context `{Chi} `{BodyJSON}.
Context (as_private : private → private_key).
Context (decode : string → option (webhookEnvelope * string)) (decodes_value : string → bool) (zone : time → Z).
Context (brokers : Brokers) (texts : Texts).
Context (cfg : Config) (wiring : gatewayWiring) (darajaCfg : DarajaConfig).
Context (Distinct : distinct_templates).

Abbreviation W := (gateway_world X) (only parsing).
Abbreviation gateway_issuer := (gateway_issuer as_private cfg wiring) (only parsing).
Abbreviation productionMounts := (productionMounts as_private decode decodes_value zone brokers texts cfg wiring darajaCfg) (only parsing).
Abbreviation payments_service := (payments_service decode decodes_value zone brokers texts wiring darajaCfg) (only parsing).

(** ** Worlds the domains can reach *)

Abbreviation garage_steps v := (rtc (garage_step (publisher_of v (br_garages brokers)) (tx_garages texts))) (only parsing).

Record gateway_sound (v : captured (X := X)) (w : W) : Prop := {
  gs_identity : ident_reachable (gateway_issuer v) (iw_db (g_accounts w));
  gs_vehicles : rtc veh_step empty_veh_db (vw_db (g_vehicles w));
  gs_jobs : job_reachable (jw_db (g_jobs w));
  gs_payments : reachable (w_ledger (g_payments w));
  gs_inspections : insp_reachable (InspService.iw_db (g_inspections w));
  gs_garages : garage_steps v empty_garages (g_garages w);
}.

(** The endpoints of identity that ask for no principal. *)
Definition public_paths : list (list string) :=
  map (λ path, "v1" :: "auth" :: path)
    [["register"]; ["login"]; ["refresh"]; ["logout"]; ["verify"]; ["verification"; "resend"]].

(** Who may change the accounts by a request on that path: anybody on a public one, a
    principal on its own path of authentication, an administrator with the directory. *)
Definition may_change_accounts (path : list string) (claims : option Claims) : Prop :=
  path ∈ public_paths ∨
  (has_subject claims ∧ ∃ rest, path = "v1" :: "auth" :: rest) ∨
  (∃ cl, claims = Some cl ∧ c_Role cl ∈ adminRoles) ∧ path = ["v1"; "admin"; "users"].

(** What a request can have changed, and for whom: a part of one domain at most, by the
    domain's own steps from what it was. *)
Inductive moved (m : Circumstances (X := X)) (v : captured (X := X)) (r : Request) (claims : option Claims) (w : W) : W → Prop :=
  | moved_nothing : moved m v r claims w w
  | moved_identity i :
      ident_steps (gateway_issuer v) (iw_db (g_accounts w)) (iw_db i.2) →
      (i.2 ≠ g_accounts w → may_change_accounts (in_Path r) claims) →
      moved m v r claims w (set_identity i w)
  | moved_audit record cl :
      claims = Some cl → c_Role cl ∈ DispatcherRoles → in_Path r = ["v1"; "dispatch"; "score"] →
      moved m v r claims w (set_accounts (record_decision (ic_now (cm_ctx m)) record (g_accounts w)).2 w)
  | moved_vehicles s :
      rtc veh_step (vw_db (g_vehicles w)) (vw_db s) →
      (s ≠ g_vehicles w → is_Some claims) → moved m v r claims w (set_vehicles s w)
  | moved_jobs s :
      lawful_steps (jw_db (g_jobs w)) (jw_db s) →
      (s ≠ g_jobs w → is_Some claims) → moved m v r claims w (set_jobs s w)
  | moved_payments s :
      payment_steps (w_ledger (g_payments w)) (w_ledger s) →
      (s ≠ g_payments w →
        (∃ cl, claims = Some cl ∧ c_Role cl ∈ PaymentRoles) ∨
        ∃ name, in_Path r = ["v1"; "payments"; "webhooks"; name] ∧
          attested_delivery (payments_service m v) (ic_ctx (cm_ctx m)) name (in_Header r) (read_limited (in_Body r))) →
      moved m v r claims w (set_payments s w)
  | moved_inspections s :
      insp_steps (InspService.iw_db (g_inspections w)) (InspService.iw_db s) →
      (s ≠ g_inspections w → ∃ cl, claims = Some cl ∧ c_Role cl ∈ StaffRoles) →
      moved m v r claims w (set_inspections s w)
  | moved_garages s :
      garage_steps v (g_garages w) s →
      (s ≠ g_garages w → ∃ cl, claims = Some cl ∧ c_Role cl = RoleGarage) →
      moved m v r claims w (set_garages s w).

Definition route_ok m v (r : Request) (h : Handler (W := W)) : Prop :=
  ∀ claims w, gateway_sound v w → moved m v r claims w (h claims w).2.

(** A decision is a row of the audit table, which every step of identity allows. *)
Lemma record_decision_step iss now r w :
  ident_steps iss (iw_db w) (iw_db (record_decision now r w).2).
Proof.
  unfold record_decision. destruct (decision_metadata r); [|apply rtc_refl].
  apply rtc_once. by eapply (st_audit _ _ _ now (decision_entry r)).
Qed.

(** Steps lead from a world the domains can reach to another. *)
Lemma moved_sound m v r claims w w' : gateway_sound v w → moved m v r claims w w' → gateway_sound v w'.
Proof.
  intros [] M. destruct M as [|i S _|record cl _ _ _|s S _|s S%lawful_job_steps _|s S _|s S _|s S _];
    (split; try assumption).
  - unfold ident_reachable, ident_steps in *. cbn. by etrans.
  - unfold ident_reachable in *. cbn. etrans; [eassumption|apply record_decision_step].
  - cbn. by etrans.
  - unfold job_reachable, job_steps in *. cbn. by etrans.
  - unfold reachable, payment_steps in *. cbn. by etrans.
  - unfold insp_reachable, insp_steps in *. cbn. by etrans.
  - cbn. by etrans.
Qed.

Lemma within_run {T} (view : W → T) set (h : Handler (W := T)) claims w :
  (within view set h claims w).2 = set (h claims (view w)).2 w.
Proof. unfold within. by destruct (h claims (view w)). Qed.

(** *** Each domain, mounted *)

Lemma vehicles_ok m v r h may :
  (∀ d0, rtc veh_step empty_veh_db d0 → governed (λ s, rtc veh_step d0 (vw_db s)) may h) →
  (∀ claims, may claims → is_Some claims) → route_ok m v r (within g_vehicles set_vehicles h).
Proof.
  intros G K claims w []. rewrite within_run.
  destruct (G _ ltac:(eassumption) claims (g_vehicles w) (rtc_refl _ _)) as [S N]. apply moved_vehicles; auto.
Qed.

Lemma jobs_ok m v r h may :
  (∀ d0, job_reachable d0 → governed (λ s, lawful_steps d0 (jw_db s)) may h) →
  (∀ claims, may claims → is_Some claims) → route_ok m v r (within g_jobs set_jobs h).
Proof.
  intros G K claims w []. rewrite within_run.
  destruct (G _ ltac:(eassumption) claims (g_jobs w) (rtc_refl _ _)) as [S N]. apply moved_jobs; auto.
Qed.

Lemma inspections_ok m v r h may :
  (∀ d0, insp_reachable d0 → governed (λ s, insp_steps d0 (InspService.iw_db s)) may h) →
  (∀ claims, may claims → ∃ cl, claims = Some cl ∧ c_Role cl ∈ StaffRoles) →
  route_ok m v r (within g_inspections set_inspections h).
Proof.
  intros G K claims w []. rewrite within_run.
  destruct (G _ ltac:(eassumption) claims (g_inspections w) (rtc_refl _ _)) as [S N]. apply moved_inspections; auto.
Qed.

Lemma payments_ok m v r h may :
  (∀ l0, reachable l0 → governed (λ s, payment_steps l0 (w_ledger s)) may h) →
  (∀ claims, may claims → (∃ cl, claims = Some cl ∧ c_Role cl ∈ PaymentRoles) ∨
    ∃ name, in_Path r = ["v1"; "payments"; "webhooks"; name] ∧
      attested_delivery (payments_service m v) (ic_ctx (cm_ctx m)) name (in_Header r) (read_limited (in_Body r))) →
  route_ok m v r (within g_payments set_payments h).
Proof.
  intros G K claims w []. rewrite within_run.
  destruct (G _ ltac:(eassumption) claims (g_payments w) (rtc_refl _ _)) as [S N]. apply moved_payments; auto.
Qed.

Lemma identity_ok m v r h may :
  (∀ d0, ident_reachable (gateway_issuer v) d0 → guarded (identity_service as_private brokers cfg wiring m v) d0 may h) →
  (∀ claims, may claims → may_change_accounts (in_Path r) claims) →
  route_ok m v r (within g_identity set_identity h).
Proof.
  intros G K claims w []. rewrite within_run. unfold g_accounts in *. destruct (g_identity w) as [l a] eqn:E.
  destruct (G (iw_db a) ltac:(eassumption) claims l a (rtc_refl _ _)) as [S N].
  apply moved_identity; unfold g_accounts; rewrite E; auto.
Qed.

(** *** The tables *)

Lemma matches_lit s p path ps : matches (Lit s :: p) path = Some ps → ∃ path', path = s :: path' ∧ matches p path' = Some ps.
Proof. cbn. destruct path as [|t path]; [done|]. destruct (String.eqb_spec s t) as [->|]; [|done]. eauto. Qed.
Lemma matches_param p path ps : matches (Param :: p) path = Some ps →
  ∃ t path' ps', path = t :: path' ∧ ps = t :: ps' ∧ matches p path' = Some ps'.
Proof. cbn. destruct path as [|t path]; [done|]. intros (ps' & M & ->)%fmap_Some. by exists t, path, ps'. Qed.
Lemma matches_nil path ps : matches [] path = Some ps → path = [] ∧ ps = [].
Proof. cbn. destruct path; [by intros [= <-]|done]. Qed.

(** A row of a table keeps every world, for the requests it is found for. *)
Definition row_ok m v (e : endpoint W) : Prop :=
  ∀ r ps, matches (ep_Pattern e) (in_Path r) = Some ps → route_ok m v r (ep_Handler e r ps).

Ltac each_row := repeat first [apply Forall_app; split | apply Forall_cons | apply Forall_nil].

Lemma jobs_rows m v h : (∀ r call, route_ok m v r (h call)) → Forall (row_ok m v) (jobs_routes h).
Proof. intros K. unfold jobs_routes, at_root. each_row; intros r ps _; apply K. Qed.

Lemma vehicles_rows m v h : (∀ r call, route_ok m v r (h call)) → Forall (row_ok m v) (vehicles_routes h).
Proof. intros K. unfold vehicles_routes, at_root. each_row; intros r ps _; apply K. Qed.

Lemma inspections_rows m v h : (∀ r call, route_ok m v r (h call)) → Forall (row_ok m v) (inspections_routes h).
Proof. intros K. unfold inspections_routes, at_root. each_row; intros r ps _; apply K. Qed.

Lemma garages_rows m v get put : (∀ r, route_ok m v r get) → (∀ r body, route_ok m v r (put body)) →
  Forall (row_ok m v) (garages_routes get put).
Proof. intros G P. unfold garages_routes, at_root. each_row; intros r ps _; [apply G..|apply P|apply P]. Qed.

Lemma dispatch_rows m v score factors :
  (∀ r body, in_Path r = ["v1"; "dispatch"; "score"] → route_ok m v r (score body)) → (∀ r, route_ok m v r factors) →
  Forall (row_ok m v) (dispatch_routes score factors).
Proof.
  intros S F. unfold dispatch_routes. each_row; intros r ps M; [apply S|apply F].
  unfold ep_Pattern, v1 in M. apply matches_lit in M as (p1 & -> & (p2 & -> & (p3 & -> & [-> _]%matches_nil)%matches_lit)%matches_lit). done.
Qed.

(** The calls that write arrive on their own paths. *)
Definition call_path (c : ident_request) (path : list string) : Prop :=
  match c with
  | RegisterCall _ | LoginCall _ | RefreshCall _ | LogoutCall _ | VerifyCall _ | ResendCall _ => path ∈ public_paths
  | PasswordCall _ | RevokeSessionCall _ | RevokeAllCall => ∃ rest, path = "v1" :: "auth" :: rest
  | ListUsersCall _ _ => path = ["v1"; "admin"; "users"]
  | _ => True
  end.

Ltac literals := repeat match goal with
  | M : matches (Lit _ :: _) _ = Some _ |- _ => apply matches_lit in M as (? & -> & M)
  | M : matches [] _ = Some _ |- _ => apply matches_nil in M as [-> ->]
  end.

Lemma identity_rows m v h :
  (∀ r o call, call_path call (in_Path r) → route_ok m v r (h o call)) → Forall (row_ok m v) (identity_routes h).
Proof.
  intros K. unfold identity_routes. each_row; intros r ps M; apply K; cbn [call_path]; try done;
    cbn [ep_Pattern v1] in M; unfold v1 in M; literals; try by eexists.
  all: repeat first [apply list_elem_of_here | apply list_elem_of_further].
Qed.

Lemma payments_rows m v h :
  (∀ r call, match call with
     | WebhookCall name header body => in_Path r = ["v1"; "payments"; "webhooks"; name] ∧
         header = in_Header r ∧ body = read_limited (in_Body r)
     | _ => True
     end → route_ok m v r (h call)) →
  Forall (row_ok m v) (payments_routes h).
Proof.
  intros K. unfold payments_routes, at_root. each_row; intros r ps M; apply K; try exact I.
  apply matches_lit in M as (p1 & -> & (p2 & -> & (p3 & -> & M)%matches_lit)%matches_lit).
  apply matches_param in M as (name & p4 & ps' & -> & -> & [-> ->]%matches_nil). done.
Qed.

(** *** The gates of the domains *)

Lemma PutCapacity_ok m v r body c :
  route_ok m v r (within g_garages set_garages (PutCapacity (publisher_of v (br_garages brokers)) (tx_garages texts) c body)).
Proof.
  intros claims w Sd. rewrite within_run. apply moved_garages; [by apply rtc_once; eapply gs_put|].
  destruct (put_outcomes (publisher_of v (br_garages brokers)) (tx_garages texts) c body claims (g_garages w))
    as [[_ ->]|(q & t & a & bays & slots & x & (cl & -> & Rl & _) & _)]; [done|]. intros _. by exists cl.
Qed.

Lemma GetCapacity_ok m v r : route_ok m v r (within g_garages set_garages GetCapacity).
Proof.
  intros claims w Sd. rewrite within_run.
  assert ((GetCapacity claims (g_garages w)).2 = g_garages w) as ->
    by (by destruct (get_outcomes claims (g_garages w)) as [(e & ->)|(cl & t & _ & _ & _ & ->)]).
  by apply moved_garages.
Qed.

Lemma accounts_unchanged w : set_accounts (g_accounts w) w = (w : W).
Proof. by destruct w as [[]]. Qed.

Lemma nothing_moved m v r claims w a : a = g_accounts w → moved m v r claims w (set_accounts a w).
Proof. intros ->. rewrite accounts_unchanged. apply moved_nothing. Qed.

Lemma score_ok m v body fresh r : in_Path r = ["v1"; "dispatch"; "score"] →
  route_ok m v r (within g_accounts set_accounts (PostScore (recorder m v) fresh body)).
Proof.
  intros Pa claims w Sd. rewrite within_run. unfold PostScore.
  destruct (RequireRole_cases DispatcherRoles (scoreWithRecorder (recorder m v) fresh body) claims (g_accounts w))
    as [(cl & -> & Rl & ->)|[_ ->]]; [|by apply nothing_moved].
  unfold scoreWithRecorder. destruct (computeScores body) as [|[req resp]]; [by apply nothing_moved|].
  unfold recorder. destruct (pool v); [|by apply nothing_moved].
  destruct (decisionRecordFromRequest _ _ _ _) as [|rec]; [by apply nothing_moved|].
  pose proof (moved_audit m v r (Some cl) w rec cl eq_refl Rl Pa) as K.
  by destruct (record_decision (ic_now (cm_ctx m)) rec (g_accounts w)) as [[|] w1].
Qed.

Lemma factors_ok m v r : route_ok m v r (within g_accounts set_accounts GetFactors).
Proof.
  intros claims w Sd. rewrite within_run.
  assert ((GetFactors claims (g_accounts w)).2 = g_accounts w) as ->
    by (unfold GetFactors; by destruct (RequireRole_cases (W := ident_world) DispatcherRoles handleFactors claims (g_accounts w)) as [(cl & _ & _ & ->)|[_ ->]]).
  by apply nothing_moved.
Qed.

(** The adapters keep their contract on their part of the state. *)
Lemma gateway_contracts m name p :
  gateway_providers decode decodes_value zone texts wiring darajaCfg m !! name = Some p → ProviderContract p.
Proof.
  unfold gateway_providers. destruct (darajaComplete wiring);
    rewrite ?lookup_insert_Some, lookup_singleton_Some; intros P;
    repeat match goal with
      | Q : _ ∨ _ |- _ => destruct Q
      | Q : _ ∧ _ |- _ => destruct Q
      end; subst; apply on_part_contract; (apply sandbox_contract || apply daraja_contract).
Qed.

(** *** The composed router *)

Lemma mounted_rows m v : Forall (row_ok m v) (concat (mounts (productionMounts m v))).
Proof.
  unfold mounts, productionMounts. cbn [omap list_omap mt_Identity mt_Vehicles mt_Jobs mt_Dispatch mt_Payments
    mt_Inspections mt_Garages id concat]. rewrite app_nil_r, !Forall_app. split_and!.
  - apply identity_rows. intros r o call K. eapply identity_ok; [intros d0 R0; by apply route_guarded|]. intros claims M.
    unfold may_change_accounts. destruct call; cbn [may_touch call_path] in *; auto; by destruct M.
  - apply vehicles_rows. intros r call. eapply vehicles_ok; [intros d0 R0; by apply vehicle_route_governed|]. by intros claims (cl & -> & _).
  - apply jobs_rows. intros r call. eapply jobs_ok; [intros d0 R0; by apply job_route_governed|]. by intros claims (cl & -> & _).
  - apply dispatch_rows; intros r; [intros body; apply score_ok|apply factors_ok].
  - apply payments_rows. intros r call K. eapply payments_ok.
    + intros l0 R0. apply payment_route_governed; try done; [apply gateway_contracts|]. intros rc name p [= <-]. apply gateway_contracts.
    + intros claims M. destruct call; cbn [may_move] in M; try done; try (by left).
      * right. destruct K as (-> & -> & ->). by eexists.
      * left. destruct M as (cl & -> & Rl). exists cl. split; [done|]. unfold PayModels.OperatorRoles, PaymentRoles in *. set_solver.
  - apply inspections_rows. intros r call. eapply inspections_ok; [intros d0 R0; by apply insp_route_governed|]. by intros claims [_ M].
  - apply garages_rows; intros r; [apply GetCapacity_ok|intros body; apply PutCapacity_ok].
Qed.

Abbreviation router := (build_router as_private decode decodes_value zone brokers texts cfg wiring darajaCfg) (only parsing).

Lemma router_ok m v r : route_ok m v r (router v m r).
Proof.
  intros claims w Sd. unfold build_router, buildDomainRouter, route_request. set (table := concat _).
  destruct (FindRoute (registered table) (in_Method r) (in_Path r)) as [i ps| |] eqn:F; [|constructor..].
  apply found_matches in F as (p & L & M). unfold registered in L. apply list_lookup_fmap_Some in L as (e & [= _ ->] & L).
  rewrite L. pose proof (mounted_rows m v) as Rows. rewrite list.Forall_forall in Rows.
  exact (Rows e (list_elem_of_lookup_2 _ _ _ L) r ps M claims w Sd).
Qed.

(** C7. ** The gateway composes, it decides nothing

    Whatever is sent to the router of the gateway, by whomever, at most one domain has
    changed, and that by its own steps from what it was, so that every domain's database
    stays one its steps lead to; and only for whom the gates it has mounted let through:
    inspections for staff, capacities for a garage, payments for a role trusted with money
    or by a delivery its provider attests, the audit of a dispatch decision for a
    dispatcher, the accounts on the six public paths, for a principal under the path of
    authentication or for an administrator who lists the users, vehicles and jobs for an
    authenticated principal. *)
Theorem gateway_moves_one_domain m v r claims w (Sd : gateway_sound v w) :
  gateway_sound v (router v m r claims w).2 ∧ moved m v r claims w (router v m r claims w).2.
Proof. pose proof (router_ok m v r claims w Sd) as M. split; [by eapply moved_sound|exact M]. Qed.

(** ** The paths of the domains *)

(** The patterns of each domain; the handlers do not matter. *)
Definition claimed : list (list (list segment)) :=
  let nothing : Handler (W := unit) := λ _ w, (NoContent, w) in
  map (map ep_Pattern)
    [identity_routes (λ _ _, nothing); vehicles_routes (λ _, nothing); jobs_routes (λ _, nothing);
     dispatch_routes (λ _, nothing) nothing; payments_routes (λ _, nothing);
     inspections_routes (λ _, nothing); garages_routes nothing (λ _, nothing)].

Lemma mounted_patterns m v : map (map ep_Pattern) (mounts (productionMounts m v)) = claimed.
Proof. reflexivity. Qed.

Lemma claimed_apart : apart claimed = true.
Proof. vm_compute. reflexivity. Qed.

Lemma mounts_apart m v k k' t t' (e e' : endpoint W) path :
  mounts (productionMounts m v) !! k = Some t → mounts (productionMounts m v) !! k' = Some t' → e ∈ t → e' ∈ t' →
  is_Some (matches (ep_Pattern e) path) → is_Some (matches (ep_Pattern e') path) → k = k'.
Proof.
  assert (C : ∀ k t, mounts (productionMounts m v) !! k = Some t → claimed !! k = Some (map ep_Pattern t)).
  { intros j s L. rewrite <-(mounted_patterns m v). change (map (map ep_Pattern) ?l) with (map ep_Pattern <$> l).
    by rewrite list_lookup_fmap, L. }
  intros L L' In In' [ps M] [ps' M'].
  refine (apart_spec _ claimed_apart k k' _ _ (ep_Pattern e) (ep_Pattern e') (C _ _ L) (C _ _ L') _ _ (overlap_spec _ _ _ _ _ M M'));
    change (map ep_Pattern ?l) with (ep_Pattern <$> l); by apply list_elem_of_fmap_2.
Qed.

(** C9. ** One domain answers

    A request is answered by a handler of the one domain that claims its path, with the
    values of the placeholders; or no domain has registered its method on its path, but for
    a placeholder that would be empty, and nothing changes: the answer is 405 when a domain
    has registered the path for another method, and 404 only when none has, for any. *)
Theorem gateway_routes_to_one_domain m v r claims w :
  let ts := mounts (productionMounts m v) in
  (∃ k t e ps, ts !! k = Some t ∧ e ∈ t ∧ ep_Method e = in_Method r ∧ matches (ep_Pattern e) (in_Path r) = Some ps ∧
     router v m r claims w = ep_Handler e r ps claims w ∧
     ∀ k' t' e', ts !! k' = Some t' → e' ∈ t' → is_Some (matches (ep_Pattern e') (in_Path r)) → k' = k) ∨
  (∀ t e ps, t ∈ ts → e ∈ t → ep_Method e = in_Method r → matches (ep_Pattern e) (in_Path r) = Some ps → "" ∈ ps) ∧
  (router v m r claims w = (writeDomainMethodNotAllowed, w) ∧
     (∃ t e, t ∈ ts ∧ e ∈ t ∧ is_Some (matches (ep_Pattern e) (in_Path r))) ∨
   router v m r claims w = (writeDomainNotFound r, w) ∧
     ∀ t e ps, t ∈ ts → e ∈ t → matches (ep_Pattern e) (in_Path r) = Some ps → "" ∈ ps).
Proof.
  cbv zeta. unfold build_router, buildDomainRouter, route_request.
  set (ts := mounts (productionMounts m v)). set (table := concat ts).
  assert (In : ∀ mp, mp ∈ registered table ↔ ∃ t e, t ∈ ts ∧ e ∈ t ∧ mp = (ep_Method e, ep_Pattern e)).
  { intros mp. unfold registered. rewrite list_elem_of_In, in_map_iff. split.
    - intros (e & <- & (t & T & E)%in_concat). exists t, e. by rewrite !list_elem_of_In.
    - intros (t & e & T & E & ->). exists e. split; [done|]. apply in_concat. exists t. by rewrite <-!list_elem_of_In. }
  destruct (FindRoute (registered table) (in_Method r) (in_Path r)) as [i ps| |] eqn:F.
  - left. apply found_matches in F as (p & L & M). unfold registered in L. apply list_lookup_fmap_Some in L as (e & [= Em ->] & L).
    rewrite L. apply list_elem_of_lookup_2, list_elem_of_In, in_concat in L as (t & T & E).
    apply list_elem_of_In in T, E. apply list_elem_of_lookup_1 in T as [k T].
    exists k, t, e, ps. split_and!; try done. intros k' t' e' T' E' M'. eapply mounts_apart; [exact T'|exact T|done..|by eexists].
  - right. split.
    + intros t e ps T E Me. eapply not_allowed_unserved; [exact F|]. apply In. exists t, e. by rewrite <-Me.
    + left. split; [done|]. apply not_allowed_known in F as (m' & p & (t & e & T & E & [= -> ->])%In & M). by exists t, e.
  - assert (U : ∀ t e ps, t ∈ ts → e ∈ t → matches (ep_Pattern e) (in_Path r) = Some ps → "" ∈ ps).
    { intros t e ps T E. eapply unknown_unserved; [exact F|]. apply In. by exists t, e. }
    right. split; [|by right]. intros t e ps T E _. by eapply U.
Qed.

(** ** The process *)

Section Process.
Context `{GoJwt}.
Context (quote : string → string) (sscan_error : string → string) (o : Outside).

Abbreviation wired_right := (wired_right quote sscan_error cfg o wiring) (only parsing).

(** The keys the gateway checks signatures with: that of its own signer under its name,
    and in the migration window the shared secret. *)
Inductive own_key (v : captured (X := X)) (t : Token) : SigningKey → Prop :=
  | own_public s :
      cp_signer v = Some s → jw_AllowHS256 (cf_JWT cfg) = false → tk_kid t = Some (sg_kid s) →
      own_key v t (KeyPublic (sg_public s))
  | own_secret :
      cp_signer v = None → jw_AllowHS256 (cf_JWT cfg) = true → tk_alg t = AlgorithmHS256 →
      own_key v t (KeySecret (jw_Secret (cf_JWT cfg))).

(** A token of the gateway's own: signed with its key, of the configured issuer and for the
    configured audience, unexpired but for a leeway of thirty seconds; and the claims its
    text encodes. *)
Definition own_token (v : captured (X := X)) (now : time) (text : string) (claims : Claims) : Prop :=
  ∃ token key raw, header text = Some token ∧ payload text = Some raw ∧
    verifies text (tk_alg token) key ∧ own_key v token key ∧
    c_UserID claims = stringClaim raw "sub" ∧ c_UserID claims ≠ "" ∧
    c_TenantID claims = stringClaim raw "tenant_id" ∧ c_Role claims = stringClaim raw "role" ∧
    c_SessionID claims = stringClaim raw "sid" ∧
    (jw_Issuer (cf_JWT cfg) ≠ "" → rc_strings raw !! "iss" = Some (jw_Issuer (cf_JWT cfg))) ∧
    (jw_Audience (cf_JWT cfg) ≠ "" → jw_Audience (cf_JWT cfg) ∈ rc_aud raw) ∧
    rc_exp raw = Some (c_ExpiresAt claims) ∧ now < c_ExpiresAt claims + 30 * second.

Lemma same_keyless k k' : jwks k = None → same_keys k k' → k' = k.
Proof.
  intros J (A & B & C & D & E & F). destruct k, k'. cbn in *. destruct F as [_ F]. rewrite (F J). by subst.
Qed.

(** A validator without a remote key set is as it was after every token. *)
Lemma own_validation v k now fetched text x k' : wired_right v → Wiring.validator v = Some k →
  Jwt.Validate now fetched text k = (x, k') → k' = k ∧ ∀ claims, x = inr claims → own_token v now text claims.
Proof.
  intros Rt Vk Rn. destruct (Validate_inv _ _ _ _ _ _ Rn) as [Sm _].
  assert (K : (∃ s, cp_signer v = Some s ∧ jw_AllowHS256 (cf_JWT cfg) = false ∧ k = own_validator cfg s) ∨
      cp_signer v = None ∧ jw_AllowHS256 (cf_JWT cfg) = true ∧ k = legacy_validator cfg).
  { destruct (wr_validator _ _ _ _ _ _ Rt k Vk) as [(s & S & ->)|]; [left; exists s|by right].
    by destruct (wr_signer _ _ _ _ _ _ Rt s S) as [Al _]. }
  assert (Jk : jwks k = None) by (by destruct K as [(s & _ & _ & ->)|(_ & _ & ->)]).
  apply same_keyless in Sm as ->; [|done]. split; [done|]. intros claims ->.
  destruct (accepted _ _ _ _ _ _ Rn) as [_ (t & key & raw & Hd & Py & Ver & Kf & -> & Sub & Is & Au & e & Er & Lt)].
  exists t, key, raw. cbn [c_UserID c_TenantID c_Role c_SessionID c_ExpiresAt]. rewrite Er.
  destruct K as [(s & S & Al & ->)|(S & Al & ->)]; split_and!; try done;
    inversion Kf as [sec A Se|kid pub A Ki Ne St M|]; cbn in *; simplify_eq; try done.
  - apply lookup_singleton_Some in St as [<- <-]. by eapply own_public.
  - by apply own_secret.
Qed.

Lemma own_validator_key s now fetched : sound_signer s →
  (keyFor now fetched (mkToken (sg_method s) (Some (sg_kid s))) (own_validator cfg s)).1 = inr (KeyPublic (sg_public s)).
Proof.
  intros [_ I A N _]. apply String.eqb_neq in N.
  assert (M : String.eqb (sg_method s) AlgorithmHS256 = false ∧
    String.eqb (sg_method s) AlgorithmEdDSA || String.eqb (sg_method s) AlgorithmRS256 = true).
  { destruct (sg_public s); [| |done]; cbn in A; apply String.eqb_eq in A; by rewrite A. }
  destruct M as [M1 M2]. unfold keyFor. cbn [tk_kid tk_alg default option.from_option id].
  unfold own_validator, NewValidator. cbn [foldl apply_option staticKeys]. by rewrite M1, M2, N, lookup_insert_eq, A.
Qed.

(** *** What it serves *)

Section Served.
Context (p : process (H := gateway_router (X := X)) (V := captured (X := X))).
Context (Right : wired_right p.1) (Installed : domain p.2 = Some (router p.1)).

Lemma server_ok probe m r claims w : gateway_sound p.1 w →
  let out := server_routes p.2 probe m r claims w in
  moved m p.1 r claims w out.2 ∧ (out.2 ≠ w → ready p.2 = true).
Proof using Installed Distinct.
  intros Sd. cbv zeta. unfold server_routes. destruct (FindRoute health_routes _ _) as [[|i] ps| |];
    unfold serveDomainGate; rewrite ?Installed; destruct (ready p.2); cbn [negb fst snd];
    try (split; [constructor|by intros []]).
  split; [exact (router_ok m p.1 r claims w Sd)|done].
Qed.

Lemma own_validator_kept k : Wiring.validator p.1 = Some k → (with_validator k p.1, p.2) = p.
Proof. destruct p as [[] b]. cbn. by intros ->. Qed.

(** One request, whatever is in its header: the process is as before; unless it is ready
    nothing moves; and what moves, moves for a principal whose token is the gateway's own,
    or without any. *)
Lemma request_ok probe fetched m r w : gateway_sound p.1 w →
  let out := gateway_serve p probe fetched m r w in
  out.2.1 = p ∧ (out.2.2 ≠ w → ready p.2 = true) ∧
  (moved m p.1 r None w out.2.2 ∨ ∃ claims,
     own_token p.1 (ic_now (cm_ctx m)) (bearerToken (header_Get (in_Header r) "Authorization")) claims ∧
     moved m p.1 r (Some claims) w out.2.2).
Proof using Right Installed Distinct.
  intros Sd. cbv zeta. unfold gateway_serve. set (auth := header_Get _ _).
  pose proof (server_ok probe m r) as Ok. cbv zeta in Ok.
  destruct (Wiring.validator p.1) as [k|] eqn:Vk.
  - unfold AuthMiddlewareFunc. destruct (String.eqb (bearerToken auth) "").
    + unfold within. cbn [snd fst]. destruct (Ok None w Sd) as (M & Rd).
      destruct (server_routes _ _ _ _ _ w) as [resp w1]. cbn [fst snd] in *. rewrite own_validator_kept by done. auto.
    + destruct (Jwt.Validate (ic_now (cm_ctx m)) fetched (bearerToken auth) k) as [x k'] eqn:Va.
      destruct (own_validation p.1 k _ _ _ _ _ Right Vk Va) as [-> Own].
      unfold zoom. cbn [fst snd]. rewrite Va.
      destruct x as [e|claims].
      * cbn [fst snd]. rewrite own_validator_kept by done. split_and!; [done|done|left; constructor].
      * unfold within. cbn [snd fst]. destruct (Ok (Some claims) w Sd) as (M & Rd).
        destruct (server_routes _ _ _ _ _ w) as [resp w1]. cbn [fst snd] in *. rewrite own_validator_kept by done.
        split_and!; [done..|]. right. exists claims. auto.
  - unfold AuthMiddlewareFunc. destruct (String.eqb (bearerToken auth) "").
    + destruct (Ok None w Sd) as (M & Rd). destruct (server_routes _ _ _ _ _ w) as [resp w1]. auto.
    + split_and!; [done|done|left; constructor].
Qed.

Lemma request_sound probe fetched m r w : gateway_sound p.1 w →
  gateway_sound p.1 (gateway_serve p probe fetched m r w).2.2.
Proof using Right Installed Distinct.
  intros Sd. destruct (request_ok probe fetched m r w Sd) as (_ & _ & [M|(claims & _ & M)]); by eapply moved_sound.
Qed.

End Served.

(** Before it is ready the server answers without the router. *)
Lemma gated_routes b probe m r claims w : ready b = false → (server_routes b probe m r claims w).2 = (w : W).
Proof.
  intros G. unfold server_routes, serveDomainGate. rewrite G.
  by destruct (FindRoute health_routes _ _) as [[|i] ps| |].
Qed.

Lemma gated_serve q probe fetched m r w : ready q.2 = false → wired_right q.1 →
  (gateway_serve q probe fetched m r w).2 = (q, w).
Proof.
  intros G Rt. unfold gateway_serve. set (auth := header_Get _ _).
  pose proof (λ claims, gated_routes q.2 probe m r claims w G) as Gr.
  destruct (Wiring.validator q.1) as [k|] eqn:Vk.
  - assert (Kept : (with_validator k q.1, q.2) = q) by (destruct q as [[] b]; cbn in *; by subst).
    unfold AuthMiddlewareFunc, within, zoom. destruct (String.eqb (bearerToken auth) "").
    + cbn [snd fst]. specialize (Gr None). destruct (server_routes _ _ _ _ None w). cbn in *. by rewrite Gr, Kept.
    + destruct (Jwt.Validate (ic_now (cm_ctx m)) fetched (bearerToken auth) k) as [x k'] eqn:Va.
      destruct (own_validation q.1 k _ _ _ _ _ Rt Vk Va) as [-> _]. cbn [fst snd]. rewrite Va.
      destruct x as [e|claims]; cbn [fst snd]; [by rewrite Kept|].
      specialize (Gr (Some claims)). destruct (server_routes _ _ _ _ (Some claims) w). cbn in *. by rewrite Gr, Kept.
  - unfold AuthMiddlewareFunc. destruct (String.eqb (bearerToken auth) ""); [|done].
    specialize (Gr None). destruct (server_routes _ _ _ _ None w). cbn in *. by rewrite Gr.
Qed.

(** A tick moves the payments by their steps, whatever is wired. *)
Lemma tick_ok m q v w : gateway_sound v w →
  gateway_sound v (reconciler_tick decode decodes_value zone brokers texts wiring darajaCfg m q w).
Proof using Distinct.
  intros []. unfold reconciler_tick. split; try assumption. cbn. unfold reachable, payment_steps in *.
  etrans; [eassumption|].
  refine (Run_keeps (Some _) _ _ gs_payments0 _ eq_refl _ _ (rtc_refl _ _)). intros rc name n [= <-]. apply gateway_contracts.
Qed.

(** What happens to the world while the gateway boots and afterwards: requests and ticks,
    at the process they meet. *)
Definition gateway_history (trace : list process) (p : process (H := gateway_router (X := X)) (V := captured (X := X)))
    : W → W → Prop :=
  rtc (λ w w', ∃ q, (q ∈ trace ∨ q = p) ∧ gateway_move decode decodes_value zone brokers texts wiring darajaCfg q w w').

Abbreviation boot_steps jwks_error := (gatewayBootSteps quote sscan_error cfg o wiring jwks_error router) (only parsing).
Abbreviation boot_trace passes jwks_error := (wire_trace passes 0 (boot_steps jwks_error) (nothing_wired, NewBoot)) (only parsing).

Lemma history_sound passes jwks_error p : wired_right p.1 → domain p.2 = Some (router p.1) →
  ∀ w0 w, gateway_history (boot_trace passes jwks_error) p w0 w → gateway_sound p.1 w0 → gateway_sound p.1 w.
Proof using Distinct.
  intros Rt D w0 w R. induction R as [|w0 w1 w (q & Q & M) _ IH]; [done|]. intros Sd. apply IH.
  destruct M as [probe fetched m r|m _]; [|by apply tick_ok].
  destruct Q as [Q| ->]; [|by apply request_sound].
  pose proof (gateway_trace_right quote sscan_error cfg o wiring jwks_error router passes) as Tr.
  rewrite list.Forall_forall in Tr. destruct (Tr q Q) as [G Rq]. by rewrite gated_serve.
Qed.

(** C1. ** From boot to the databases

    Whatever the outside answers while the gateway starts, and whatever it is sent and
    when it reconciles, while it starts and afterwards: every domain's database stays one
    its own steps lead to. A request that arrives while the loop still wires changes
    nothing at all, in whatever state it meets the process. One that arrives afterwards
    changes nothing before the gateway is ready, never the process itself, and moves at most
    one domain by its steps, as [moved] allows either to nobody or to the principal that the
    text of the token names, when the gateway's own key has signed it, for its issuer and
    audience, and it has not expired. *)
Theorem gateway_acts_for_own_tokens passes jwks_error p delays w0 w probe fetched m r
    (Wr : Wire passes (boot_steps jwks_error) (nothing_wired, NewBoot) = (Some p, delays))
    (S0 : gateway_sound p.1 w0)
    (Rn : gateway_history (boot_trace passes jwks_error) p w0 w) :
  let out := gateway_serve p probe fetched m r w in
  (∀ n q, q ∈ boot_trace n jwks_error → (gateway_serve q probe fetched m r w).2 = (q, w)) ∧
  gateway_sound p.1 w ∧ gateway_sound p.1 out.2.2 ∧ out.2.1 = p ∧ (out.2.2 ≠ w → ready p.2 = true) ∧
  (moved m p.1 r None w out.2.2 ∨ ∃ claims,
     own_token p.1 (ic_now (cm_ctx m)) (bearerToken (header_Get (in_Header r) "Authorization")) claims ∧
     moved m p.1 r (Some claims) w out.2.2).
Proof using Distinct.
  destruct (gateway_outcome _ _ _ _ _ _ _ _ _ _ Wr) as (v & Rt & D & A).
  assert (Rt' : wired_right p.1) by (rewrite A; by destruct Rt).
  assert (D' : domain p.2 = Some (router p.1)) by by rewrite A.
  pose proof (history_sound passes jwks_error p Rt' D' w0 w Rn S0) as Sd.
  destruct (request_ok p Rt' D' probe fetched m r w Sd) as (? & ? & ?).
  split_and!; try done; [|by apply request_sound]. intros n q Q.
  pose proof (gateway_trace_right quote sscan_error cfg o wiring jwks_error router n) as Tr.
  rewrite list.Forall_forall in Tr. destruct (Tr q Q) as [G Rq]. by apply gated_serve.
Qed.

(** C8. ** What a gateway that serves is wired with

    Once it is ready, no configuration problem is left and every dependency its
    configuration asks for is there: secrets, a provider behind the default, the recorder
    of decisions, the check of passwords, a broker where one is configured. It verifies
    tokens with the public half of the key it signs them with and holds nothing secret
    for it, or, in the migration window, with the shared secret. *)
Theorem ready_gateway_wired passes jwks_error p delays
    (Wr : Wire passes (gatewayBootSteps quote sscan_error cfg o wiring jwks_error router)
            (nothing_wired, NewBoot) = (Some p, delays))
    (Rd : ready p.2 = true) :
  gateway_problems quote cfg wiring = [] ∧
  jw_Secret (cf_JWT cfg) ≠ "" ∧ sandboxWebhookSecret wiring ≠ "" ∧
  domain p.2 = Some (router p.1) ∧ pool p.1 = true ∧ reconciling p.1 = true ∧
  is_Some (cp_breacher p.1) ∧
  (cp_publisher p.1 = if String.eqb (cf_NATSURL cfg) "" then NoPublisher else Connected) ∧
  (∀ m, is_Some (recorder m p.1) ∧ is_Some (Service_Provider (payments_service m p.1) "")) ∧
  ∃ k, Wiring.validator p.1 = Some k ∧ match cp_signer p.1 with
    | Some s => HasPrivateKeyMaterial (Some k) = false ∧ sg_public s = Public (sg_private s) ∧
        ∀ now fetched, (keyFor now fetched (mkToken (sg_method s) (Some (sg_kid s))) k).1 = inr (KeyPublic (Public (sg_private s)))
    | None => jw_AllowHS256 (cf_JWT cfg) = true ∧ k = legacy_validator cfg
    end.
Proof.
  destruct (gateway_wired _ _ _ _ _ _ _ _ _ _ Wr Rd) as (Pb & v & [Rt Po Nt Sg Br Vl] & D & A).
  pose proof Pb as Pb'. unfold gateway_problems, issuer_problems, payments_problems in Pb'.
  rewrite !app_nil, !problem_nil in Pb'. destruct Pb' as (_ & (Js & _) & Pv & Ws & _).
  apply String.eqb_neq in Js, Ws. rewrite A. split_and!; try done.
  - intros m. split; [unfold recorder; cbn; by rewrite Po|].
    unfold Service_Provider, Gateway.payments_service, gateway_providers. cbn [DefaultProvider providers].
    destruct (String.eqb_spec (paymentsSelection wiring) "daraja") as [E|E].
    + rewrite E in Pv. cbn in Pv. apply problem_nil, negb_false_iff in Pv. rewrite E, Pv. cbn. by rewrite lookup_insert_eq.
    + destruct (String.eqb (paymentsSelection wiring) ProviderDaraja) eqn:E'; [by apply String.eqb_eq in E'|]. cbn.
      destruct (darajaComplete wiring); [rewrite lookup_insert_ne by done|]; eexists; apply (lookup_insert_eq ∅).
  - destruct Vl as [k Vk]. exists k. split; [done|]. cbn.
    destruct (wr_validator _ _ _ _ _ _ Rt k Vk) as [(s & S & ->)|(S & Al & ->)]; rewrite S; [|done].
    destruct (wr_signer _ _ _ _ _ _ Rt s S) as [_ (n & Sf)]. apply signer_from_config_sound in Sf as So.
    pose proof (ss_public _ So) as Pu. split_and!; [done|done|]. intros now fetched. rewrite <-Pu. by apply own_validator_key.
Qed.

End Process.

End Router.

(** ** A gateway *)

Fixpoint first_found (i : nat) (routes : list (string * list segment)) (method : string) (path : list string) : found :=
  match routes with
  | [] => Unknown
  | (m, p) :: routes =>
      match matches p path with
      | Some ps =>
          if String.eqb m method then Found i ps
          else match first_found (S i) routes method path with Unknown => NotAllowed | f => f end
      | None => first_found (S i) routes method path
      end
  end.

Lemma first_found_matches routes method path i j ps : first_found i routes method path = Found j ps →
  ∃ k p, j = (i + k)%nat ∧ routes !! k = Some (method, p) ∧ matches p path = Some ps.
Proof.
  revert i. induction routes as [|[m p] routes IH]; intros i; [done|]. cbn.
  assert (T : first_found (S i) routes method path = Found j ps →
    ∃ k q, j = (i + k)%nat ∧ ((m, p) :: routes) !! k = Some (method, q) ∧ matches q path = Some ps).
  { intros (k & q & -> & L & M)%IH. exists (S k), q. split; [lia|done]. }
  destruct (matches p path) as [qs|] eqn:M; [|done].
  destruct (String.eqb_spec m method) as [->|]; [|by destruct (first_found _ _ _ _); auto].
  intros [= <- <-]. exists 0%nat, p. split; [lia|done].
Qed.

Lemma first_found_unknown routes method path i : first_found i routes method path = Unknown →
  ∀ m p, (m, p) ∈ routes → matches p path = None.
Proof.
  revert i. induction routes as [|[m p] routes IH]; intros i U m' p' In; [by apply elem_of_nil in In|]. cbn in U.
  destruct (matches p path) as [qs|] eqn:M.
  { destruct (String.eqb m method); [done|]. by destruct (first_found (S i) routes method path). }
  apply elem_of_cons in In as [[= -> ->]|In]; [done|by eapply IH].
Qed.

Lemma first_found_refused routes method path i : first_found i routes method path = NotAllowed →
  ∀ p, (method, p) ∈ routes → matches p path = None.
Proof.
  revert i. induction routes as [|[m p] routes IH]; intros i U p' In; [by apply elem_of_nil in In|]. cbn in U.
  destruct (matches p path) as [qs|] eqn:M.
  - destruct (String.eqb_spec m method) as [|Ne]; [done|]. apply elem_of_cons in In as [[= <- _]|In]; [done|].
    destruct (first_found (S i) routes method path) eqn:F; [done|by eapply IH|by eapply first_found_unknown].
  - apply elem_of_cons in In as [[= _ ->]|In]; [done|by eapply IH].
Qed.

Lemma first_found_known routes method path i : first_found i routes method path = NotAllowed →
  ∃ m p, (m, p) ∈ routes ∧ is_Some (matches p path).
Proof.
  revert i. induction routes as [|[m p] routes IH]; intros i; [done|]. cbn.
  destruct (matches p path) as [qs|] eqn:M; [intros _; exists m, p; split; [left|by eexists]|].
  intros (m' & p' & In & K)%IH. exists m', p'. split; [by right|done].
Qed.

#[local, refine] Instance first_match : Chi := { FindRoute := first_found 0 }.
Proof.
  - intros routes method path i ps (k & p & -> & L & M)%first_found_matches. by exists p.
  - intros routes method path F p ps In M. by rewrite (first_found_refused _ _ _ _ F _ In) in M.
  - intros routes method path F. by eapply first_found_known.
  - intros routes method path F m p ps In M. by rewrite (first_found_unknown _ _ _ _ F _ _ In) in M.
Defined.

Definition no_body {A} (_ : string) : Error + A := inl (ErrValidation "invalid JSON body" []).

(** Bodies that are not JSON, but for a capacity. *)
#[local] Instance demo_bodies : BodyJSON := {|
  decode_register := no_body; decode_login := no_body; decode_token := no_body; decode_resend := no_body;
  decode_password := no_body; decode_vehicle := no_body; decode_mileage := no_body; decode_request := no_body;
  decode_transition := no_body; decode_assignment := no_body; decode_score := no_body; decode_initiate := no_body;
  decode_refund := no_body; decode_session := no_body; decode_finding := no_body; decode_evidence := no_body;
  decode_issue := no_body; decode_capacity _ := inr garage_request; read_limited := inr;
|}.

#[local] Existing Instances lenient InspDemo.hex_uuid qualified_store InspDemo.packed_v5 InspDemo.text_column.
#[local] Existing Instances IdentDemo.ascii_cases IdentDemo.naming_jwt IdentDemo.digest_argon2.
#[local] Existing Instances insertion_order VehWeb.ascii_upper_case Signer.two_keys.
#[local] Existing Instances InspWeb.no_snapshots IdentWeb.ident_numbers.
#[local, refine] Instance ascii_folding : CaseFolding := { EqualFold := equal_fold }.
Proof. done. Defined.
#[local] Existing Instances DarajaProps.demo_client DarajaProps.demo_json.

Definition demo_kid : string := match deriveKID (RSA 3233 65537) with inr kid => kid | inl _ => "" end.

(** The token "mine" of a garage, signed with the key of the file. *)
#[local] Instance demo_tokens : GoJwt :=
  parser (λ text, if String.eqb text "mine" then Some (mkToken AlgorithmRS256 (Some demo_kid)) else None)
    (λ _, mkRawClaims {["iss" := "motivra-identity"; "sub" := uuid_string 5%N; "role" := RoleGarage; "tenant_id" := uuid_string 1%N]}
       ["motivra"] (Some (1700000100 * second)) (Some 0))
    (λ text _ key, String.eqb text "mine" && match key with KeyPublic (RSA 3233 65537) => true | _ => false end).

Definition demo_cfg : Config :=
  production (mkJWTConfig "0123456789abcdef0123456789abcdef" "motivra-identity" "motivra" "/etc/jwt.pem" "" "" "/etc/jwt.pub" false).
Definition demo_wiring : gatewayWiring :=
  mkGatewayWiring (mkBreachConfig false "" false) DefaultVerificationConfig "sandbox" false "sandbox" "30".

(** The database answers from the second pass on. *)
Definition demo_outside : Outside :=
  mkOutside (λ n _, if Nat.eqb n 0 then Some "connection refused" else None) (λ _, None) (λ _ _, None) (λ _ _, None)
    (λ _, None) (λ _, rsa_file) (λ _, inl "no entropy") (λ _, None) (λ _, 0) None.

Definition demo_brokers : Brokers := mkBrokers (λ _, true) (λ _, true) (λ _, true) (λ _, true) (λ _, true) (λ _, true).
Definition demo_texts : Texts := mkTexts (λ s, s) (λ _, "") (λ _, "") (λ _, 0) "" (λ _, "") no_texts.
Definition demo_private (_ : private) : private_key := tt.
Abbreviation demo_router :=
  (build_router demo_private (λ _, None) (λ _, false) (λ _, 0) demo_brokers demo_texts demo_cfg demo_wiring DarajaProps.demo_config)
  (only parsing).

Abbreviation demo_boot :=
  (Wire 5 (gatewayBootSteps plain_quote (λ _, "") demo_cfg demo_outside demo_wiring "" demo_router) (nothing_wired, NewBoot))
  (only parsing).

Definition demo_world : gateway_world unit :=
  mkGatewayWorld (NewRateLimiter 60, ∅, mkIdentWorld empty_ident_db []) (mkVehWorld empty_veh_db []) (mkJobWorld empty_job_db [])
    (mkWorld empty_ledger (NewSandboxProvider, NewDarajaProvider tt) []) (mkInspWorld empty_insp_db []) empty_garages.

Definition demo_circumstances : Circumstances (X := unit) :=
  mkCircumstances (mkIdentCtx garage_ctx (λ _, [])) 0 tt false "".
Definition capacity_put : Request :=
  mkRequest "PUT" ["v1"; "garage"; "capacity"] (λ _, "") {["Authorization" := ["Bearer mine"]]} "192.0.2.1:4711" "{}".
Definition demo_garage : Claims := mkClaims (uuid_string 5%N) (uuid_string 1%N) RoleGarage "" 0 (1700000100 * second).

Lemma demo_sound v : gateway_sound demo_private demo_brokers demo_texts demo_cfg demo_wiring v demo_world.
Proof. split; exact (rtc_refl _ _). Qed.

Lemma demo_booted : ∃ p delays, demo_boot = (Some p, delays) ∧ ready p.2 = true.
Proof.
  assert (E : (λ p, ready p.2) <$> demo_boot.1 = Some true) by (vm_compute; reflexivity).
  destruct demo_boot as [[p|] delays]; [|done]. exists p, delays. split; [done|]. cbn in E. congruence.
Qed.


(** A gateway that retried its database once, and verifies what its own key signs. *)
Theorem ready_gateway_wired_witness : ∃ p delays, demo_boot = (Some p, delays) ∧ ready p.2 = true ∧
  jw_Secret (cf_JWT demo_cfg) ≠ "" ∧ pool p.1 = true ∧ cp_publisher p.1 = NoPublisher ∧
  ∃ k, Wiring.validator p.1 = Some k ∧ HasPrivateKeyMaterial (Some k) = false.
Proof.
  destruct demo_booted as (p & delays & B & Rd). exists p, delays. split; [exact B|]. split; [exact Rd|].
  destruct (ready_gateway_wired demo_private (λ _, None) (λ _, false) (λ _, 0) demo_brokers demo_texts demo_cfg demo_wiring
    DarajaProps.demo_config plain_quote (λ _, "") demo_outside 5 "" p delays B Rd)
    as (_ & Js & _ & _ & Po & _ & _ & Nt & _ & k & Vk & K).
  split_and!; [exact Js|exact Po|exact Nt|]. exists k. split; [exact Vk|].
  destruct (cp_signer p.1); [apply K|destruct K as [A _]; discriminate A].
Defined.

(** A garage writes its capacity; nothing else moves. *)
Theorem gateway_moves_one_domain_witness :
  let out := demo_router nothing_wired demo_circumstances capacity_put (Some demo_garage) demo_world in
  rs_Status out.1 = 200 ∧ gateway_sound demo_private demo_brokers demo_texts demo_cfg demo_wiring nothing_wired out.2.
Proof.
  cbv zeta. split; [vm_compute; reflexivity|].
  apply (gateway_moves_one_domain demo_private (λ _, None) (λ _, false) (λ _, 0) demo_brokers demo_texts demo_cfg demo_wiring
    DarajaProps.demo_config InspDemo.packed_distinct demo_circumstances nothing_wired capacity_put (Some demo_garage)
    demo_world (demo_sound nothing_wired)).
Defined.

Theorem gateway_acts_for_own_tokens_witness : ∃ p delays, demo_boot = (Some p, delays) ∧
  let out := gateway_serve p ∅ None demo_circumstances capacity_put demo_world in
  rs_Status out.1 = 200 ∧ out.2.1 = p ∧ gateway_sound demo_private demo_brokers demo_texts demo_cfg demo_wiring p.1 out.2.2.
Proof.
  destruct demo_booted as (p & delays & B & Rd). exists p, delays. split; [exact B|]. cbv zeta.
  split.
  - assert (E : (λ p, rs_Status (gateway_serve p ∅ None demo_circumstances capacity_put demo_world).1) <$> demo_boot.1 = Some 200)
      by (vm_compute; reflexivity).
    rewrite B in E. cbn [fst] in E. injection E as E. exact E.
  - destruct (gateway_acts_for_own_tokens demo_private (λ _, None) (λ _, false) (λ _, 0) demo_brokers demo_texts demo_cfg demo_wiring
      DarajaProps.demo_config InspDemo.packed_distinct plain_quote (λ _, "") demo_outside 5 "" p delays demo_world demo_world
      ∅ None demo_circumstances capacity_put B (demo_sound p.1) (rtc_refl _ _)) as (_ & _ & S & P & _).
    split; [exact P|exact S].
Defined.

Theorem gateway_routes_to_one_domain_witness :
  (demo_router nothing_wired demo_circumstances (mkRequest "GET" ["v1"; "invoices"] (λ _, "") ∅ "" "") None demo_world).2 = demo_world.
Proof.
  destruct (gateway_routes_to_one_domain demo_private (λ _, None) (λ _, false) (λ _, 0) demo_brokers demo_texts demo_cfg demo_wiring
    DarajaProps.demo_config demo_circumstances nothing_wired (mkRequest "GET" ["v1"; "invoices"] (λ _, "") ∅ "" "") None demo_world)
    as [(k & t & e & ps & T & In & _ & M & _)|[_ [[E _]|[E _]]]].
  - exfalso. assert (C : claimed !! k = Some (map ep_Pattern t)).
    { rewrite <-(mounted_patterns demo_private (λ _, None) (λ _, false) (λ _, 0) demo_brokers demo_texts demo_cfg demo_wiring
        DarajaProps.demo_config demo_circumstances nothing_wired).
      change (map (map ep_Pattern) ?l) with (map ep_Pattern <$> l). rewrite list_lookup_fmap, T. reflexivity. }
    assert (N : forallb (forallb (λ p, negb (bool_decide (is_Some (matches p ["v1"; "invoices"]))))) claimed = true) by (vm_compute; reflexivity).
    rewrite forallb_forall in N. apply list_elem_of_lookup_2, list_elem_of_In in C. specialize (N _ C).
    rewrite forallb_forall in N. apply list_elem_of_In, (in_map ep_Pattern) in In. specialize (N _ In).
    cbn [in_Path] in M. rewrite M in N. discriminate N.
  - exact (f_equal snd E).
  - exact (f_equal snd E).
Defined.
